(* ===== verification/_CoqProject ===== *)
-Q . S2P
Prelude.v
Buffer.v
CircBuffer.v
Queue.v
Netio.v
Random.v
Algo.v
Cipher.v
KeyTypes.v
Ecc.v
SignKey.v
KeyInstances.v
SignKeyRead.v
SignVerify.v
SignAgree.v
Session.v
Packet.v
Instances.v
PacketRecv.v
PacketSend.v
PacketStream.v
Transport.v
ProcessPacket.v
Kex.v
KexKeys.v
KexInit.v
KexMethods.v
KexShare.v
Channel.v
ChannelData.v
ChannelSend.v
ChannelTable.v
ChannelEvents.v
AuthOptions.v
AuthKeys.v
SvrAuth.v
AuthLines.v
KnownHosts.v
SvrKex.v
KexPeer.v
KexReply.v
CliKex.v
KexHandshake.v
StrictKex.v
SvrAuthSafe.v
CliAgent.v
CliAgentSafe.v
CliAuth.v
CliAuthText.v
CliAuthSafe.v
CliAuthHistory.v
PubkeyLogin.v
CliAuthMessages.v
