(* ===== verification/Prelude.v ===== *)
(** * Dropbear SSH: a verification of the transport, the key exchange, the channels and the authentication

    This library models the core of the Dropbear SSH server and client
    (src/src) as executable Rocq definitions and proves what makes it correct.
    Definitions keep the names of the C functions; the section below says
    which file models which source.

    ** The program and its parts

    Bytes from the socket are collected, decrypted and checked by packet.c,
    which leaves a payload in [ses.payload]; process-packet.c decides by its
    first byte which handler sees it: the key exchange (common-kex.c, then
    svr-kex.c or cli-kex.c with one of the methods in kex-*.c), the user
    authentication (svr-auth.c and its methods, cli-auth.c and its methods) or the
    channels (common-channel.c).  A key exchange is signed with a host key
    (signkey.c and one file per key type), which the client looks up in its
    known_hosts file; users are authenticated with the same kinds of keys, which
    may be held by an agent (cli-agentfwd.c).  The session loop of the client
    (cli-session.c) starts each of its steps.  Handlers write messages into
    [ses.writepayload] and call [encrypt_packet], which seals them and puts them on a queue that the
    main loop writes to the socket (netio.c).  Everything is built on bounds
    checked buffers (buffer.c), ring buffers (circbuffer.c), linked lists
    (queue.c, list.c) and a random generator (dbrandom.c).  State is global:
    [ses], of type [struct sshsession], and the table of channels.

    ** How the code is translated

    A C function is a computation in the state monad [ST] of this file.  It
    returns [Ok], leaves the process through [dropbear_exit] ([Exit], with the
    format string of the source), or does something C leaves undefined: an
    access outside a region, a null pointer, freed memory, a failed [assert],
    a division by zero, [isalnum] of a negative [char] ([Fault]).  [unsigned int] wraps at 32 bits ([u32])
    wherever the code computes; bytes are integers below 256; a pointer into a
    region is an offset, one to a structure that may be absent an [option].
    Calls to the operating system and to libraries are arguments, and what the
    code relies on of them is stated by classes of laws ([CryptoLib],
    [CipherPair], [Sha256], [ZlibInit], [ZlibPair], [ChanCallbacks],
    [AuthEnvOk]; [MpLaws] for modular powers and inverses, [EccLaws] for
    the NIST curves, [Curve25519Laws], [Ed25519Laws], [kem_law] for a key
    encapsulation), each with an instance that the witnesses compute with.
    [wp m E Q s] says that [m] run from [s] is free of faults, returns only
    with [Q] and exits only with a message in [E]; [wpf m E F Q s] also allows
    the faults in [F], which is only used for the fuel of loops over random
    numbers.

    Logging and TRACE, freeing memory, burning secrets and fuzzing hooks have
    no effect the model can see and are left out.  The build is the default
    one of default_options.h: no X11 forwarding, no DSS, no PAM, no plugin;
    both server and client parts of the common code.

    ** Files

    - Prelude.v: machine integers, the monad, [wp], byte lists, [STORE32H].
    - Buffer.v: buffer.c, with libtommath's conversions for mpints.
    - CircBuffer.v: circbuffer.c.  Queue.v: queue.c and list.c over a heap.
    - Netio.v: the packet queue of netio.c.  Random.v: dbrandom.c.
    - Algo.v: the algorithm lists and the negotiation of common-algo.c.
    - Cipher.v: the cipher modes of common-algo.c, chachapoly.c, gcm.c.
    - KeyTypes.v: the names and numbers of key and signature types.
      Ecc.v: ecc.c and the point encoding.  SignKey.v: signkey.c, rsa.c,
      ecdsa.c, ed25519.c, sk-ecdsa.c, sk-ed25519.c.  SignKeyRead.v,
      SignVerify.v, SignAgree.v: their theorems.
    - Session.v: session.h and kex.h, the state all others share.
    - Packet.v: packet.c.  PacketRecv.v, PacketSend.v and PacketStream.v: its
      two directions and the two ends of a connection.
    - Transport.v: what the packet layer promises to the layers above, a
      class, and its implementation by Packet.v.
    - ProcessPacket.v: process-packet.c.  StrictKex.v: the dispatch tables of
      svr-session.c and cli-session.c with the handlers of the key exchange.
    - Kex.v: common-kex.c.  KexKeys.v and KexInit.v: its theorems.
    - KexMethods.v: kex-dh.c, kex-ecdh.c, kex-x25519.c, kex-pqhybrid.c.
      SvrKex.v: svr-kex.c.  CliKex.v: cli-kex.c and the exchange in
      cli-session.c.  KnownHosts.v: the known_hosts part of cli-kex.c.
    - KexShare.v: the specification of a method ([derives], [made],
      [exchange_hash]) and that each method meets it.  KexPeer.v: reading and
      making shares.  KexReply.v and KexHandshake.v: the two handlers, and the
      exchange as a whole.
    - Channel.v: common-channel.c.  ChannelData.v, ChannelSend.v,
      ChannelTable.v and ChannelEvents.v: its theorems.
    - AuthOptions.v, AuthKeys.v, SvrAuth.v: svr-authpubkeyoptions.c, the
      authorized_keys part and the rest of svr-authpubkey.c, svr-auth.c and
      svr-authpasswd.c.  AuthLines.v and SvrAuthSafe.v: their theorems.
    - CliAgent.v: the agent protocol of cli-agentfwd.c and atomicio.c.
      CliAuth.v: cli-auth.c, cli-authpubkey.c, cli-authpasswd.c,
      cli-authinteract.c and the state machine in cli-session.c.
      CliAgentSafe.v, CliAuthText.v, CliAuthSafe.v: what each function does.
      CliAuthHistory.v: the client over every order of events.
      PubkeyLogin.v: client and server together.  CliAuthMessages.v: what the
      client makes of single messages.
    - Instances.v, KeyInstances.v: toy libraries and sessions for the
      witnesses.

    ** What is proved

    - Packets: what one end sends, delivered in any pieces, the other reads
      unchanged, when both compress or neither does ([packet_roundtrip]: for
      payloads of up to 32768 bytes of a type that may be sent now); arbitrary bytes from the peer cause no
      fault ([read_packet_safe]); what is accepted is what the integrity check
      covers ([decrypt_packet_accepts], without compression); packets a key exchange forbids are
      held and sent later, in order ([kex_holds_and_flushes]).
    - Dispatch: nothing above message 60 is handled before authentication
      ([preauth_gate]); under strict kex the transcript of the first exchange
      up to NEWKEYS is exactly the expected one, with the real handlers of
      both ends ([strict_kex_transcript]).
    - Key exchange: both ends choose the same algorithms and hash the same
      bytes ([kexinit_agreement], for the first exchange); on any packet of a client the server
      answers, if at all, with a signature over the hash of this exchange
      ([server_reply]); the client goes on only with a signature by the key of
      the blob it was sent over its own transcript, and in the first exchange
      only if that blob is trusted ([client_authenticates],
      [known_hosts_sound]); both end with the same secret, hash and session id
      ([handshake_agreement]), derive linked keys ([derived_keys_match],
      [hashkeys_rfc4253]) and switch to them: the transmit direction with our
      NEWKEYS, the receive direction at the later of the two messages
      ([newkeys_switch]).
    - Keys and signatures: public keys survive the wire
      ([pub_key_roundtrip]), what is read is valid ([get_pub_key_valid]), what
      is signed is accepted ([sign_then_verify], for ECDSA given that the
      order of the curve is prime), and an RSA signature is accepted exactly
      when it is one ([rsa_verify_exact]).
    - Channels: no sequence of messages and descriptor events reaches a freed
      channel or breaks the table ([channel_events_safe]); data arrive in
      order and windows balance ([channel_data_delivery], [channel_data_sent],
      [window_reopens]); the CLOSE of a channel of a type without callbacks is
      answered once, when nothing waits to be written ([close_handshake]).
    - Authentication: an authenticated client gave the evidence the options
      require, for one user who may log in ([authentication_sound]); a key is
      accepted exactly for a line of authorized_keys that holds it and is no
      comment ([authorized_keys_sound]; [file_lines] is the specification of
      the lines, [allows_key] that of a line).  On the client's side no order of messages
      causes a fault, only a success makes it believe it is in, and under
      DisableTrivialAuth only after it has given something
      ([client_auth_sound]); its signed request is one the server accepts, as
      the login or as the first of two methods ([pubkey_login]); a failure leads to the next method or key
      ([failure_moves_on]), and a banner is shown as it should be
      ([banner_shown]).
    - The foundations: buffers, ring buffers, queues, negotiation, cipher
      modes and the generator refine their specifications.

    ** Bounds and fuel

    Recursion over a buffer or a file is given its length as fuel; the safety
    theorems show that it never runs out, since each round consumes a byte.
    [genrandom] gets the number of bytes; [hashkeys] the number of blocks;
    copying the rest of a packet into the ring of a channel two rounds
    ([copy_loop_two_rounds]).  [gen_random_mpint] and the client's loop over
    rejected numbers have no bound in the code and take a fuel argument, and so does
    the loop of an ECDSA signature.
    Theorems about sending assume fewer than 2^31 messages on the outgoing
    queue, which the 32-bit count of the queue requires.  An event on the
    channels is shown to send at most 21040 messages, for the limit of 1002
    slots the table can grow to.  [strtoul] is the one of a 64-bit system.

    ** Not modelled

    - The cryptographic primitives and the number libraries (libtomcrypt,
      libtommath, curve25519.c, sntrup761.c, the ML-KEM header): parameters.
    - Generating keys, the OpenSSH key file format and fingerprints
      (gen*.c, keyimport.c, parts of signkey.c): file formats around the same
      libraries.
    - Forwarding, sessions on channels, the main loops, options and
      configuration files: mostly calls of the operating system.  Opening and
      running the client's session after its authentication are arguments of
      the session loop, connecting to the agent and to the terminal is state.
    - The separate programs (scp, dropbearkey, dropbearconvert) and the
      portability layer. *)

From Stdlib Require Import ZArith Lia.
From stdpp Require Import base list strings.

#[global] Open Scope Z_scope.

(** ** Machine integers

    C's [unsigned int] is 32 bits wide and wraps; [unsigned char] is 8 bits
    wide.  Both are kept as [Z] with the wrap-around written out where the
    code computes. *)

Definition u32 (x : Z) : Z := x mod 2 ^ 32.
Definition u8 (x : Z) : Z := x mod 2 ^ 8.

(** The range of an [unsigned char] and of an [unsigned int]. *)
Definition byte_ok (x : Z) : Prop := 0 ≤ x < 256.
Definition u32_ok (x : Z) : Prop := 0 ≤ x < 2 ^ 32.

#[global] Instance byte_ok_dec x : Decision (byte_ok x).
Proof. unfold byte_ok. apply _. Defined.
#[global] Instance u32_ok_dec x : Decision (u32_ok x).
Proof. unfold u32_ok. apply _. Defined.

Lemma u32_small x : 0 ≤ x < 2 ^ 32 → u32 x = x.
Proof. apply Z.mod_small. Qed.

Lemma u32_range x : 0 ≤ u32 x < 2 ^ 32.
Proof. unfold u32. apply Z.mod_pos_bound. lia. Qed.

Lemma u8_small x : 0 ≤ x < 256 → u8 x = x.
Proof. apply Z.mod_small. Qed.

Lemma u8_range x : byte_ok (u8 x).
Proof. unfold u8, byte_ok. apply (Z.mod_pos_bound x (2 ^ 8)). lia. Qed.

(** Wrap-around of a sum and of a difference that leave the range by less
    than one modulus. *)
Lemma u32_over x : 2 ^ 32 ≤ x < 2 ^ 33 → u32 x = x - 2 ^ 32.
Proof. intros H. unfold u32. rewrite (Z.mod_eq x) by lia.
  enough (1 = x / 2 ^ 32) by lia.
  apply (Z.div_unique_pos _ _ _ (x - 2 ^ 32)); lia.
Qed.

Lemma u32_under x : - 2 ^ 32 ≤ x < 0 → u32 x = x + 2 ^ 32.
Proof. intros H. unfold u32. rewrite (Z.mod_eq x) by lia.
  enough (-1 = x / 2 ^ 32) by lia.
  apply (Z.div_unique_pos _ _ _ (x + 2 ^ 32)); lia.
Qed.

(** ** Outcomes and the state monad

    A computation either returns, leaves the process through
    [dropbear_exit] (the message is the source's format string), or performs
    an access C leaves undefined (an out-of-range index, a null dereference).
    [Fault] is what memory safety theorems exclude. *)

Inductive res (A : Type) : Type :=
| Ok (a : A)
| Exit (msg : string)
| Fault (why : string).
Arguments Ok {A} _.
Arguments Exit {A} _.
Arguments Fault {A} _.

Definition ST (S A : Type) : Type := S → res (A * S).

Definition ret {S A} (a : A) : ST S A := λ s, Ok (a, s).
Definition bind {S A B} (m : ST S A) (k : A → ST S B) : ST S B := λ s,
  match m s with
  | Ok (a, s') => k a s'
  | Exit e => Exit e
  | Fault w => Fault w
  end.
Definition get {S} : ST S S := λ s, Ok (s, s).
Definition put {S} (s : S) : ST S unit := λ _, Ok (tt, s).
Definition modify {S} (f : S → S) : ST S unit := λ s, Ok (tt, f s).
Definition gets {S A} (f : S → A) : ST S A := λ s, Ok (f s, s).
Definition dropbear_exit {S A} (msg : string) : ST S A := λ _, Exit msg.
Definition fault {S A} (why : string) : ST S A := λ _, Fault why.

Declare Scope st_scope.
Delimit Scope st_scope with st.
#[global] Open Scope st_scope.
Notation "'let*' x := m 'in' k" := (bind m (λ x, k))
  (at level 10, x pattern, m at level 200, k at level 200,
   format "'[v' 'let*'  x  :=  m  'in' '/' k ']'") : st_scope.
Notation "'do*' m ';' k" := (bind m (λ _, k))
  (at level 10, m at level 200, k at level 200,
   format "'[v' 'do*'  m ';' '/' k ']'") : st_scope.

(** [if (cond) dropbear_exit(msg);] *)
Definition exit_if {S} (c : bool) (msg : string) : ST S unit :=
  if c then dropbear_exit msg else ret tt.

(** [dropbear_assert(c)]: a failed assertion leaves through
    [dropbear_exit]. *)
Definition dropbear_assert {S} (c : bool) (expr : string) : ST S unit :=
  if c then ret tt else dropbear_exit ("Failed assertion " +:+ expr).

Definition when {S} (c : bool) (m : ST S unit) : ST S unit :=
  if c then m else ret tt.

(** ** Weakest preconditions

    [wp m E Q s]: running [m] from [s] is free of undefined behaviour,
    establishes [Q] when it returns, and only leaves the process with a
    message satisfying [E].  [E := any_exit] states partial correctness and
    memory safety, [E := no_exit] total correctness. *)

Definition wp {S A} (m : ST S A) (E : string → Prop) (Q : A → S → Prop) (s : S) : Prop :=
  match m s with
  | Ok (a, s') => Q a s'
  | Exit e => E e
  | Fault _ => False
  end.

Definition any_exit : string → Prop := λ _, True.
Definition no_exit : string → Prop := λ _, False.

Section wp_rules.
Context {S : Type}.
Implicit Types (s : S) (E : string → Prop).

Lemma wp_ret {A} (a : A) E Q s : Q a s → wp (ret a) E Q s.
Proof. done. Qed.

Lemma wp_bind {A B} (m : ST S A) (k : A → ST S B) E Q s :
  wp m E (λ a s', wp (k a) E Q s') s → wp (bind m k) E Q s.
Proof. unfold wp, bind. by destruct (m s) as [[a s']|e|w]. Qed.

Lemma wp_bind_inv {A B} (m : ST S A) (k : A → ST S B) E Q s :
  wp (bind m k) E Q s → wp m E (λ a s', wp (k a) E Q s') s.
Proof. unfold wp, bind. by destruct (m s) as [[a s']|e|w]. Qed.

Lemma wp_bind_assoc {A B C} (m : ST S A) (f : A → ST S B) (k : B → ST S C) E Q s :
  wp (bind (bind m f) k) E Q s → wp (bind m (λ a, bind (f a) k)) E Q s.
Proof. unfold wp, bind. by destruct (m s) as [[a s']|e|w]. Qed.

Lemma wp_mono {A} (m : ST S A) E (Q Q' : A → S → Prop) s :
  wp m E Q s → (∀ a s', Q a s' → Q' a s') → wp m E Q' s.
Proof. unfold wp. destruct (m s) as [[a s']|e|w]; naive_solver. Qed.

Lemma wp_exit_mono {A} (m : ST S A) (E E' : string → Prop) Q s :
  wp m E Q s → (∀ e, E e → E' e) → wp m E' Q s.
Proof. unfold wp. destruct (m s) as [[a s']|e|w]; naive_solver. Qed.

Lemma wp_get E Q s : Q s s → wp get E Q s.
Proof. done. Qed.
Lemma wp_gets {A} (f : S → A) E Q s : Q (f s) s → wp (gets f) E Q s.
Proof. done. Qed.
Lemma wp_modify (f : S → S) E Q s : Q tt (f s) → wp (modify f) E Q s.
Proof. done. Qed.
Lemma wp_put s' E Q s : Q tt s' → wp (put s') E Q s.
Proof. done. Qed.
Lemma wp_exit {A} msg E (Q : A → S → Prop) s :
  E msg → wp (dropbear_exit msg) E Q s.
Proof. done. Qed.

Lemma wp_exit_if c msg E Q s :
  (c = true → E msg) → (c = false → Q tt s) → wp (exit_if c msg) E Q s.
Proof. destruct c; unfold wp; simpl; naive_solver. Qed.

Lemma wp_assert c expr E Q s :
  (c = false → E ("Failed assertion " +:+ expr)) → (c = true → Q tt s) →
  wp (dropbear_assert c expr) E Q s.
Proof. destruct c; unfold wp; simpl; naive_solver. Qed.

Lemma wp_when c (m : ST S unit) E Q s :
  (c = true → wp m E Q s) → (c = false → Q tt s) → wp (when c m) E Q s.
Proof. destruct c; unfold when; naive_solver. Qed.

Lemma wp_if {A} (c : bool) (m1 m2 : ST S A) E Q s :
  (c = true → wp m1 E Q s) → (c = false → wp m2 E Q s) →
  wp (if c then m1 else m2) E Q s.
Proof. destruct c; naive_solver. Qed.

(** From a weakest precondition back to the run it describes. *)
Lemma wp_Ok_inv {A} (m : ST S A) E Q s a s' :
  wp m E Q s → m s = Ok (a, s') → Q a s'.
Proof. unfold wp. intros H Hm. by rewrite Hm in H. Qed.

Lemma wp_no_exit_run {A} (m : ST S A) Q s :
  wp m no_exit Q s → ∃ a s', m s = Ok (a, s') ∧ Q a s'.
Proof. unfold wp, no_exit. destruct (m s) as [[a s']|e|w]; [eauto|done..]. Qed.

Lemma wp_of_run {A} (m : ST S A) E (Q : A → S → Prop) s a s' :
  m s = Ok (a, s') → Q a s' → wp m E Q s.
Proof. unfold wp. by intros ->. Qed.

(** Keeping the run next to what it establishes. *)
Lemma wp_run {A} (m : ST S A) E Q s : wp m E Q s → wp m E (λ a s', Q a s' ∧ m s = Ok (a, s')) s.
Proof. unfold wp. by destruct (m s) as [[a s']|e|w]. Qed.
End wp_rules.

(** [wlp m Q s]: if [m] returns from [s] then with [Q].  For what a result
    proves about the run that led to it; nothing is said of runs that exit or
    go wrong. *)
Definition wlp {S A} (m : ST S A) (Q : A → S → Prop) (s : S) : Prop :=
  ∀ a s', m s = Ok (a, s') → Q a s'.

Section wlp_rules.
Context {S : Type}.
Implicit Types (s : S).

Lemma wlp_ret {A} (a : A) Q s : Q a s → wlp (ret a) Q s.
Proof. by intros HQ ?? [= <- <-]. Qed.

Lemma wlp_bind {A B} (m : ST S A) (k : A → ST S B) Q s :
  wlp m (λ a s', wlp (k a) Q s') s → wlp (bind m k) Q s.
Proof.
  intros H b s2. unfold bind. destruct (m s) as [[a s1]|e|w] eqn:Hm; [|done..].
  apply (H a s1 Hm).
Qed.

Lemma wlp_mono {A} (m : ST S A) (Q Q' : A → S → Prop) s :
  wlp m Q s → (∀ a s', Q a s' → Q' a s') → wlp m Q' s.
Proof. intros H HQ a s' Hm. by apply HQ, H. Qed.

Lemma wlp_of_wp {A} (m : ST S A) E Q s : wp m E Q s → wlp m Q s.
Proof. intros H a s' Hm. unfold wp in H. by rewrite Hm in H. Qed.

(** Nothing but the run itself is known. *)
Lemma wlp_run {A} (m : ST S A) (Q : A → S → Prop) s :
  (∀ a s', m s = Ok (a, s') → Q a s') → wlp m Q s.
Proof. done. Qed.

Lemma wlp_exit {A} msg (Q : A → S → Prop) s : wlp (dropbear_exit msg) Q s.
Proof. done. Qed.
Lemma wlp_fault {A} msg (Q : A → S → Prop) s : wlp (fault msg) Q s.
Proof. done. Qed.

Lemma wlp_get Q s : Q s s → wlp get Q s.
Proof. by intros HQ ?? [= <- <-]. Qed.
Lemma wlp_modify (f : S → S) Q s : Q tt (f s) → wlp (modify f) Q s.
Proof. by intros HQ ?? [= <- <-]. Qed.

Lemma wlp_exit_if c msg Q s : (c = false → Q tt s) → wlp (exit_if c msg) Q s.
Proof. intros HQ. destruct c; [done|]. by apply wlp_ret, HQ. Qed.

Lemma wlp_when c (m : ST S unit) Q s :
  (c = true → wlp m Q s) → (c = false → Q tt s) → wlp (when c m) Q s.
Proof. intros H1 H2. destruct c; [by apply H1|]. by apply wlp_ret, H2. Qed.

Lemma wlp_if {A} (c : bool) (m1 m2 : ST S A) Q s :
  (c = true → wlp m1 Q s) → (c = false → wlp m2 Q s) → wlp (if c then m1 else m2) Q s.
Proof. destruct c; auto. Qed.
End wlp_rules.

(** [wpf m E F Q s]: as [wp], for code whose model may also stop with one of
    the faults [F]: the ones that stand for a loop on random numbers that has
    used up its fuel. *)
Definition wpf {S A} (m : ST S A) (E F : string → Prop) (Q : A → S → Prop) (s : S) : Prop :=
  match m s with
  | Ok (a, s') => Q a s'
  | Exit e => E e
  | Fault w => F w
  end.

Section wpf_rules.
Context {S : Type}.
Implicit Types (s : S) (E F : string → Prop).

Lemma wpf_ret {A} (a : A) E F Q s : Q a s → wpf (ret a) E F Q s.
Proof. done. Qed.
Lemma wpf_bind {A B} (m : ST S A) (k : A → ST S B) E F Q s :
  wpf m E F (λ a s', wpf (k a) E F Q s') s → wpf (bind m k) E F Q s.
Proof. unfold wpf, bind. by destruct (m s) as [[a s']|e|w]. Qed.
Lemma wpf_mono {A} (m : ST S A) E F Q Q' s :
  wpf m E F Q s → (∀ a s', Q a s' → Q' a s') → wpf m E F Q' s.
Proof. unfold wpf. destruct (m s) as [[a s']|e|w]; naive_solver. Qed.
Lemma wpf_match {A} (m : ST S A) E F Q s :
  wpf m E F Q s → match m s with Ok (a, s') => Q a s' | Exit e => E e | Fault w => F w end.
Proof. done. Qed.
Lemma wpf_of_wp {A} (m : ST S A) E F Q s : wp m no_exit Q s → wpf m E F Q s.
Proof. unfold wp, wpf. by destruct (m s) as [[a s']|e|w]. Qed.
Lemma wpf_of_wp_exit {A} (m : ST S A) E F Q s : wp m E Q s → wpf m E F Q s.
Proof. unfold wp, wpf. by destruct (m s) as [[a s']|e|w]. Qed.
Lemma wpf_if {A} (c : bool) (m1 m2 : ST S A) E F Q s :
  (c = true → wpf m1 E F Q s) → (c = false → wpf m2 E F Q s) → wpf (if c then m1 else m2) E F Q s.
Proof. destruct c; auto. Qed.
Lemma wlp_of_wpf {A} (m : ST S A) E F Q s : wpf m E F Q s → wlp m Q s.
Proof. intros H a s' Hm. unfold wpf in H. by rewrite Hm in H. Qed.
End wpf_rules.

(** Running a computation on a component of a larger state, as the code does
    when it passes a pointer to a field of [ses]. *)
Definition zoom {S T A} (sel : S → T) (upd : T → S → S) (m : ST T A) : ST S A := λ s,
  match m (sel s) with
  | Ok (a, t) => Ok (a, upd t s)
  | Exit e => Exit e
  | Fault w => Fault w
  end.

Lemma wp_zoom {S T A} (sel : S → T) upd (m : ST T A) E (Q : A → S → Prop) s :
  wp m E (λ a t, Q a (upd t s)) (sel s) → wp (zoom sel upd m) E Q s.
Proof. unfold wp, zoom. by destruct (m (sel s)) as [[a t]|e|w]. Qed.

(** The same for a field that is a pointer which may be [NULL]. *)
Definition zoom_ptr {S T A} (sel : S → option T) (upd : option T → S → S)
    (m : ST T A) : ST S A := λ s,
  match sel s with
  | None => Fault "null pointer"
  | Some t => match m t with
              | Ok (a, t') => Ok (a, upd (Some t') s)
              | Exit e => Exit e
              | Fault w => Fault w
              end
  end.

Lemma wp_zoom_ptr {S T A} (sel : S → option T) upd (m : ST T A) E (Q : A → S → Prop) s t :
  sel s = Some t → wp m E (λ a t', Q a (upd (Some t') s)) t →
  wp (zoom_ptr sel upd m) E Q s.
Proof. unfold wp, zoom_ptr. intros ->. by destruct (m t) as [[a t']|e|w]. Qed.

Lemma wlp_zoom {S T A} (sel : S → T) upd (m : ST T A) (Q : A → S → Prop) s :
  wlp m (λ a t, Q a (upd t s)) (sel s) → wlp (zoom sel upd m) Q s.
Proof.
  intros H a s'. unfold zoom. destruct (m (sel s)) as [[b t]|e|w] eqn:Hm; [|done..].
  intros [= <- <-]. by apply H.
Qed.

Lemma wpf_zoom {S T A} (sel : S → T) upd (m : ST T A) E F (Q : A → S → Prop) s :
  wpf m E F (λ a t, Q a (upd t s)) (sel s) → wpf (zoom sel upd m) E F Q s.
Proof. unfold wpf, zoom. by destruct (m (sel s)) as [[b t]|e|w]. Qed.

Lemma wlp_zoom_ptr {S T A} (sel : S → option T) upd (m : ST T A) (Q : A → S → Prop) s :
  (∀ t, sel s = Some t → wlp m (λ a t', Q a (upd (Some t') s)) t) → wlp (zoom_ptr sel upd m) Q s.
Proof.
  intros H a s'. unfold zoom_ptr. destruct (sel s) as [t|]; [|done].
  destruct (m t) as [[b t']|e|w] eqn:Hm; [|done..]. intros [= <- <-]. by apply (H t).
Qed.

(** ** Tactics *)

(** Decide the boolean test at the head of an [if] by linear arithmetic. *)
Ltac if_true := match goal with |- context [if ?c then _ else _] =>
  let H := fresh in assert (H : c = true) by lia; rewrite H; clear H end.
Ltac if_false := match goal with |- context [if ?c then _ else _] =>
  let H := fresh in assert (H : c = false) by lia; rewrite H; clear H end.
(** Case analysis on it. *)
Ltac if_case H := match goal with |- context [if ?c then _ else _] => destruct c eqn:H end.

(** ** Byte sequences

    Memory regions are lists of bytes indexed by [Z], as in the pointer
    arithmetic of the code. *)

Definition zlen {A} (l : list A) : Z := Z.of_nat (length l).

(** [n] bytes from offset [off]. *)
Definition slice (off n : Z) (l : list Z) : list Z :=
  take (Z.to_nat n) (drop (Z.to_nat off) l).

(** [l] with the bytes from offset [off] on overwritten by [bs]. *)
Definition splice (off : Z) (bs l : list Z) : list Z :=
  take (Z.to_nat off) l ++ bs ++ drop (Z.to_nat off + length bs) l.

Definition zeros (n : Z) : list Z := replicate (Z.to_nat n) 0.

Definition bytes_ok (l : list Z) : Prop := Forall byte_ok l.

#[global] Instance bytes_ok_dec l : Decision (bytes_ok l).
Proof. unfold bytes_ok. apply _. Defined.

(** The names of algorithms. *)
Definition short_name (l : list Z) : Prop := bytes_ok l ∧ zlen l ≤ 64.
#[global] Instance short_name_dec l : Decision (short_name l).
Proof. unfold short_name. apply _. Defined.

(** Decide a closed proposition by evaluating its decision procedure. *)
Ltac decide_closed := apply (bool_decide_unpack _); vm_compute; exact I.

Section byte_lists.
Implicit Types (l bs : list Z).

Lemma zlen_nonneg {A} (l : list A) : 0 ≤ zlen l.
Proof. unfold zlen. lia. Qed.
Lemma zlen_nil {A} : zlen (@nil A) = 0.
Proof. done. Qed.
Lemma zlen_cons {A} (x : A) (l : list A) : zlen (x :: l) = 1 + zlen l.
Proof. unfold zlen. simpl. lia. Qed.
Lemma zlen_app {A} (l1 l2 : list A) : zlen (l1 ++ l2) = zlen l1 + zlen l2.
Proof. unfold zlen. rewrite length_app. lia. Qed.
Lemma zlen_zeros n : 0 ≤ n → zlen (zeros n) = n.
Proof. intros. unfold zlen, zeros. rewrite length_replicate. lia. Qed.

Lemma zlen_splice off bs l :
  0 ≤ off → off + zlen bs ≤ zlen l → zlen (splice off bs l) = zlen l.
Proof.
  unfold zlen, splice. intros. rewrite !length_app, length_take, length_drop. lia.
Qed.

Lemma zlen_slice off n l :
  0 ≤ off → 0 ≤ n → off + n ≤ zlen l → zlen (slice off n l) = n.
Proof. unfold zlen, slice. intros. rewrite length_take, length_drop. lia. Qed.

Lemma zlen_slice_le off n l : 0 ≤ n → zlen (slice off n l) ≤ n.
Proof. unfold zlen, slice. intros. rewrite length_take. lia. Qed.

Lemma slice_nil off n : slice off n [] = [].
Proof. unfold slice. by rewrite drop_nil, take_nil. Qed.
Lemma slice_0 off l : slice off 0 l = [].
Proof. done. Qed.

Lemma slice_full l : slice 0 (zlen l) l = l.
Proof.
  unfold slice, zlen. rewrite Nat2Z.id. change (Z.to_nat 0) with 0%nat.
  rewrite drop_0. apply firstn_all.
Qed.

(** Slices of a concatenation, the form every wire layout takes. *)
Lemma slice_app_l off n l1 l2 :
  0 ≤ off → 0 ≤ n → off + n ≤ zlen l1 → slice off n (l1 ++ l2) = slice off n l1.
Proof.
  unfold slice, zlen. intros.
  rewrite drop_app_le by lia. by rewrite take_app_le by (rewrite length_drop; lia).
Qed.

Lemma slice_app_r off n l1 l2 :
  zlen l1 ≤ off → slice off n (l1 ++ l2) = slice (off - zlen l1) n l2.
Proof.
  unfold slice, zlen. intros. rewrite drop_app_ge by lia. f_equal. f_equal. lia.
Qed.

Lemma slice_app_exact off n l1 l2 l3 :
  zlen l1 = off → zlen l2 = n → slice off n (l1 ++ l2 ++ l3) = l2.
Proof.
  intros <- <-. rewrite slice_app_r by lia. replace (_ - _) with 0 by lia.
  rewrite slice_app_l by (pose proof (zlen_nonneg l2); lia). apply slice_full.
Qed.

Lemma slice_app_split off n m l :
  0 ≤ off → 0 ≤ n → 0 ≤ m →
  slice off (n + m) l = slice off n l ++ slice (off + n) m l.
Proof.
  unfold slice. intros. rewrite !Z2Nat.inj_add by lia.
  rewrite <-drop_drop. rewrite <-(take_drop (Z.to_nat n) (take _ _)).
  rewrite take_take, skipn_firstn_comm. f_equal; f_equal; lia.
Qed.

Lemma splice_app_exact off bs l1 l2 l3 :
  zlen l1 = off → length bs = length l2 →
  splice off bs (l1 ++ l2 ++ l3) = l1 ++ bs ++ l3.
Proof.
  unfold splice, zlen. intros <- Hl. rewrite Nat2Z.id, take_app_length, Hl.
  f_equal. f_equal. rewrite <-drop_drop, drop_app_length. by rewrite drop_app_length.
Qed.

Lemma splice_nil off l : 0 ≤ off → splice off [] l = l.
Proof. intros. unfold splice. simpl. rewrite Nat.add_0_r. apply take_drop. Qed.

Lemma slice_splice_same off bs l :
  0 ≤ off → off + zlen bs ≤ zlen l → slice off (zlen bs) (splice off bs l) = bs.
Proof.
  intros. unfold splice. apply slice_app_exact; [|done].
  unfold zlen in *. rewrite length_take. lia.
Qed.

Lemma slice_splice_before off bs o n l :
  0 ≤ o → 0 ≤ n → o + n ≤ off → off + zlen bs ≤ zlen l →
  slice o n (splice off bs l) = slice o n l.
Proof.
  intros. pose proof (zlen_nonneg bs). unfold splice.
  assert (Ht : zlen (take (Z.to_nat off) l) = off).
  { unfold zlen in *. rewrite length_take. lia. }
  rewrite slice_app_l by lia.
  rewrite <-(take_drop (Z.to_nat off) l) at 2. by rewrite slice_app_l by lia.
Qed.

Lemma slice_splice_after off bs o n l :
  0 ≤ off → off + zlen bs ≤ o → off + zlen bs ≤ zlen l →
  slice o n (splice off bs l) = slice o n l.
Proof.
  intros. unfold splice. rewrite app_assoc.
  assert (Ht : zlen (take (Z.to_nat off) l ++ bs) = off + zlen bs).
  { rewrite zlen_app. unfold zlen in *. rewrite length_take. lia. }
  rewrite slice_app_r, Ht by lia. unfold slice. rewrite drop_drop. do 2 f_equal.
  unfold zlen in *. lia.
Qed.

Lemma bytes_ok_app l1 l2 : bytes_ok (l1 ++ l2) ↔ bytes_ok l1 ∧ bytes_ok l2.
Proof. apply Forall_app. Qed.
Lemma bytes_ok_zeros n : bytes_ok (zeros n).
Proof. apply Forall_replicate. unfold byte_ok. lia. Qed.
Lemma bytes_ok_slice off n l : bytes_ok l → bytes_ok (slice off n l).
Proof. intros. by apply Forall_take, Forall_drop. Qed.
Lemma bytes_ok_nth i l : bytes_ok l → byte_ok (nth i l 0).
Proof.
  intros Hl. revert i. induction Hl as [|b l Hb _ IH]; intros [|i]; simpl; auto; unfold byte_ok; lia.
Qed.
Lemma bytes_ok_splice off bs l : bytes_ok l → bytes_ok bs → bytes_ok (splice off bs l).
Proof.
  intros. unfold splice. rewrite !bytes_ok_app.
  split; [by apply Forall_take|split; [done|by apply Forall_drop]].
Qed.
End byte_lists.

(** [STORE32H] and [LOAD32H]: network byte order of a 32-bit word. *)
Definition STORE32H (x : Z) : list Z :=
  [u8 (Z.shiftr x 24); u8 (Z.shiftr x 16); u8 (Z.shiftr x 8); u8 x].

Definition LOAD32H (bs : list Z) : Z :=
  match bs with
  | [a; b; c; d] =>
      Z.lor (Z.shiftl a 24) (Z.lor (Z.shiftl b 16) (Z.lor (Z.shiftl c 8) d))
  | _ => 0
  end.

Lemma STORE32H_length x : zlen (STORE32H x) = 4.
Proof. done. Qed.

Lemma STORE32H_bytes x : bytes_ok (STORE32H x).
Proof. repeat constructor; apply u8_range. Qed.

(** Bits that do not overlap add up. *)
Lemma lor_shiftl_add x y k : 0 ≤ k → 0 ≤ y < 2 ^ k → Z.lor (Z.shiftl x k) y = x * 2 ^ k + y.
Proof.
  intros Hk Hy. rewrite <-Z.add_lor_land, Z.shiftl_mul_pow2 by lia.
  enough (Z.land (x * 2 ^ k) y = 0) by lia.
  destruct (Z.eq_dec y 0) as [->|Hy0]; [apply Z.land_0_r|].
  apply Z.bits_inj'. intros n Hn. rewrite Z.land_spec, Z.bits_0.
  destruct (Z.ltb_spec n k).
  - by rewrite Z.mul_pow2_bits_low by lia.
  - rewrite (Z.bits_above_log2 y n), andb_false_r; [done|lia|].
    apply Z.lt_le_trans with k; [apply Z.log2_lt_pow2|]; lia.
Qed.

(** The bitwise reading of four bytes is their big-endian value. *)
Lemma LOAD32H_value a b c d :
  byte_ok a → byte_ok b → byte_ok c → byte_ok d →
  LOAD32H [a; b; c; d] = a * 2 ^ 24 + b * 2 ^ 16 + c * 2 ^ 8 + d.
Proof.
  unfold byte_ok, LOAD32H. intros.
  rewrite (lor_shiftl_add c d 8), (lor_shiftl_add b _ 16), (lor_shiftl_add a _ 24); lia.
Qed.

Lemma LOAD32H_range bs : bytes_ok bs → u32_ok (LOAD32H bs).
Proof.
  intros Hb. unfold u32_ok.
  destruct bs as [|a [|b [|c [|d [|]]]]]; try (simpl; lia).
  rewrite (Forall_cons byte_ok), (Forall_cons byte_ok), (Forall_cons byte_ok),
    (Forall_cons byte_ok) in Hb.
  destruct Hb as (?&?&?&?&_). rewrite LOAD32H_value by done. unfold byte_ok in *. lia.
Qed.

Lemma LOAD32H_STORE32H x : 0 ≤ x < 2 ^ 32 → LOAD32H (STORE32H x) = x.
Proof.
  intros. unfold STORE32H. rewrite LOAD32H_value by apply u8_range.
  unfold u8. rewrite !Z.shiftr_div_pow2 by lia.
  pose proof (Z.div_mod x (2 ^ 8)). pose proof (Z.div_mod (x / 2 ^ 8) (2 ^ 8)).
  pose proof (Z.div_mod (x / 2 ^ 16) (2 ^ 8)).
  assert (x / 2 ^ 16 = x / 2 ^ 8 / 2 ^ 8) by (rewrite Z.div_div by lia; done).
  assert (x / 2 ^ 24 = x / 2 ^ 16 / 2 ^ 8) by (rewrite Z.div_div by lia; done).
  rewrite (Z.mod_small (x / 2 ^ 24) (2 ^ 8)); [lia|].
  split; [apply Z.div_pos; lia|apply Z.div_lt_upper_bound; lia].
Qed.

Lemma STORE32H_LOAD32H bs :
  bytes_ok bs → zlen bs = 4 → STORE32H (LOAD32H bs) = bs.
Proof.
  intros Hb Hl. destruct bs as [|a [|b [|c [|d [|]]]]]; try by (unfold zlen in Hl; simpl in Hl; lia).
  rewrite (Forall_cons byte_ok), (Forall_cons byte_ok), (Forall_cons byte_ok),
    (Forall_cons byte_ok) in Hb.
  destruct Hb as (?&?&?&?&_). rewrite LOAD32H_value by done. unfold byte_ok in *.
  unfold STORE32H, u8. rewrite !Z.shiftr_div_pow2 by lia.
  assert (Hd : ∀ q r k, 0 ≤ k → 0 ≤ r < 2 ^ k → (q * 2 ^ k + r) / 2 ^ k = q).
  { intros q r k ??. pose proof (Z.pow_pos_nonneg 2 k). rewrite Z.div_add_l by lia. rewrite (Z.div_small r) by lia. lia. }
  assert (Hm : ∀ q r, 0 ≤ r < 256 → (q * 2 ^ 8 + r) mod 2 ^ 8 = r).
  { intros q r ?. rewrite Z.add_comm, Z.mod_add by lia. apply Z.mod_small. lia. }
  replace (a * 2 ^ 24 + b * 2 ^ 16 + c * 2 ^ 8 + d) with
    ((a * 2 ^ 16 + b * 2 ^ 8 + c) * 2 ^ 8 + d) at 3 4 by lia.
  replace (a * 2 ^ 24 + b * 2 ^ 16 + c * 2 ^ 8 + d) with
    ((a * 2 ^ 8 + b) * 2 ^ 16 + (c * 2 ^ 8 + d)) at 2 by lia.
  replace (a * 2 ^ 24 + b * 2 ^ 16 + c * 2 ^ 8 + d) with
    (a * 2 ^ 24 + (b * 2 ^ 16 + c * 2 ^ 8 + d)) at 1 by lia.
  rewrite !Hd, !Hm by lia.
  replace (a * 2 ^ 16 + b * 2 ^ 8 + c) with ((a * 2 ^ 8 + b) * 2 ^ 8 + c) by lia.
  rewrite Hm, (Z.mod_small a) by lia. done.
Qed.
