(* ===== verification/Buffer.v ===== *)
(** * The bounds-checked byte buffer (src/src/buffer.c, src/src/buffer.h)

    A [buffer] is a malloc'ed region of [b_size] bytes with a used length and
    a cursor.  Every accessor of buffer.c is a computation over it; the
    pointers [buf_getptr] and [buf_getwriteptr] return are offsets into the
    region, and reading or writing through one out of the region is a
    [Fault].  The multiple-precision integers of [buf_putmpint] and
    [buf_getmpint] are [Z], with libtommath's byte conversions written out.

    Theorems: no sequence of operations from [buf_new] leaves the region or
    breaks the cursor invariant; the guards are exact although the sums wrap
    at 32 bits; every sequence of SSH fields written to a buffer is read back
    unchanged. *)

From Stdlib Require Import ZArith Lia.
From stdpp Require Import base list strings.
From S2P Require Import Prelude.

Record buffer := mkbuf {
  b_data : list Z;   (* the memory after the header, [b_size] bytes *)
  b_len : Z;         (* the used size *)
  b_pos : Z;         (* the cursor *)
  b_size : Z         (* the memory size *)
}.

Definition BUF_MAX_INCR : Z := 1000000000.
Definition BUF_MAX_SIZE : Z := 1000000000.
Definition BUF_MAX_MPINT : Z := 8240 / 8.
Definition MAX_CMD_LEN : Z := 9000.
Definition MAX_STRING_LEN : Z := Z.max MAX_CMD_LEN 2400.

(** ** Memory accesses through a pointer into the region *)

Definition mem_load (off n : Z) : ST buffer (list Z) := λ b,
  if (0 <=? off) && (0 <=? n) && (off + n <=? zlen (b_data b))
  then Ok (slice off n (b_data b), b)
  else Fault "read outside the buffer".

Definition mem_store (off : Z) (bs : list Z) : ST buffer unit := λ b,
  if (0 <=? off) && (off + zlen bs <=? zlen (b_data b))
  then Ok (tt, mkbuf (splice off bs (b_data b)) (b_len b) (b_pos b) (b_size b))
  else Fault "write outside the buffer".

Definition set_len (n : Z) (b : buffer) : buffer := mkbuf (b_data b) n (b_pos b) (b_size b).
Definition set_pos (n : Z) (b : buffer) : buffer := mkbuf (b_data b) (b_len b) n (b_size b).

(** ** Creation *)

(** [m_malloc] is [calloc]: the region starts zeroed. *)
Definition buf_new {S} (size : Z) : ST S buffer :=
  do* exit_if (size >? BUF_MAX_SIZE) "buf->size too big";
  ret (mkbuf (zeros size) 0 0 size).

(** [m_realloc] keeps the common prefix; the bytes of an extension are
    indeterminate, here whatever [indet] gives. *)
Definition buf_resize {S} (indet : Z → Z) (newsize : Z) (b : buffer) : ST S buffer :=
  do* exit_if (newsize >? BUF_MAX_SIZE) "buf->size too big";
  let kept := take (Z.to_nat newsize) (b_data b) in
  let fresh := map (λ i, u8 (indet (Z.of_nat i)))
                 (seq 0 (Z.to_nat newsize - length (b_data b))) in
  ret (mkbuf (kept ++ fresh) (Z.min newsize (b_len b)) (Z.min newsize (b_pos b)) newsize).

Definition buf_newcopy {S} (b : buffer) : ST S buffer :=
  let* r := buf_new (b_len b) in
  if b_len b >? 0
  then ret (mkbuf (splice 0 (slice 0 (b_len b) (b_data b)) (b_data r)) (b_len b) 0 (b_size r))
  else ret (set_len (b_len b) r).

(** ** Cursor and length *)

Definition buf_setlen (len : Z) : ST buffer unit :=
  let* b := get in
  do* exit_if (len >? b_size b) "Bad buf_setlen";
  put (mkbuf (b_data b) len (Z.min (b_pos b) len) (b_size b)).

Definition buf_incrlen (incr : Z) : ST buffer unit :=
  let* b := get in
  do* exit_if ((incr >? BUF_MAX_INCR) || (u32 (b_len b + incr) >? b_size b)) "Bad buf_incrlen";
  put (set_len (u32 (b_len b + incr)) b).

Definition buf_setpos (pos : Z) : ST buffer unit :=
  let* b := get in
  do* exit_if (pos >? b_len b) "Bad buf_setpos";
  put (set_pos pos b).

Definition buf_incrwritepos (incr : Z) : ST buffer unit :=
  let* b := get in
  do* exit_if ((incr >? BUF_MAX_INCR) || (u32 (b_pos b + incr) >? b_size b))
        "Bad buf_incrwritepos";
  let pos := u32 (b_pos b + incr) in
  put (mkbuf (b_data b) (if pos >? b_len b then pos else b_len b) pos (b_size b)).

Definition buf_incrpos (incr : Z) : ST buffer unit :=
  let* b := get in
  do* exit_if ((incr >? BUF_MAX_INCR) || (u32 (b_pos b + incr) >? b_len b)) "Bad buf_incrpos";
  put (set_pos (u32 (b_pos b + incr)) b).

Definition buf_decrpos (decr : Z) : ST buffer unit :=
  let* b := get in
  do* exit_if (decr >? b_pos b) "Bad buf_decrpos";
  put (set_pos (u32 (b_pos b - decr)) b).

(** ** Pointers into the region *)

Definition buf_getptr (len : Z) : ST buffer Z :=
  let* b := get in
  do* exit_if ((len >? BUF_MAX_INCR) || (u32 (b_pos b + len) >? b_len b)) "Bad buf_getptr";
  ret (b_pos b).

Definition buf_getwriteptr (len : Z) : ST buffer Z :=
  let* b := get in
  do* exit_if ((len >? BUF_MAX_INCR) || (u32 (b_pos b + len) >? b_size b))
        "Bad buf_getwriteptr";
  ret (b_pos b).

(** ** Reading and writing *)

Definition buf_getbyte : ST buffer Z :=
  let* b := get in
  do* exit_if (b_pos b >=? b_len b) "Bad buf_getbyte";
  let* bs := mem_load (b_pos b) 1 in
  do* put (set_pos (u32 (b_pos b + 1)) b);
  ret (nth 0 bs 0).

Definition buf_getbool : ST buffer Z :=
  let* b := buf_getbyte in
  ret (if negb (b =? 0) then 1 else b).

Definition buf_putbyte (val : Z) : ST buffer unit :=
  let* b := get in
  do* when (b_pos b >=? b_len b) (buf_incrlen 1);
  do* mem_store (b_pos b) [u8 val];
  modify (λ b, set_pos (u32 (b_pos b + 1)) b).

Definition buf_getint : ST buffer Z :=
  let* p := buf_getptr 4 in
  let* bs := mem_load p 4 in
  do* buf_incrpos 4;
  ret (LOAD32H bs).

Definition buf_putint (val : Z) : ST buffer unit :=
  let* p := buf_getwriteptr 4 in
  do* mem_store p (STORE32H val);
  buf_incrwritepos 4.

Definition buf_putbytes (bytes : list Z) : ST buffer unit :=
  let* p := buf_getwriteptr (zlen bytes) in
  do* mem_store p bytes;
  buf_incrwritepos (zlen bytes).

Definition buf_putstring (str : list Z) : ST buffer unit :=
  do* buf_putint (zlen str);
  buf_putbytes str.

Definition buf_putbufstring (buf_str : buffer) : ST buffer unit :=
  buf_putstring (slice 0 (b_len buf_str) (b_data buf_str)).

(** The returned string is the [len] bytes read; the allocation has a
    terminating NUL after them. *)
Definition buf_getstring : ST buffer (list Z) :=
  let* len := buf_getint in
  do* exit_if (len >? MAX_STRING_LEN) "String too long";
  let* src := buf_getptr len in
  let* bs := mem_load src len in
  do* buf_incrpos len;
  ret bs.

Definition on_new {S A} (b : buffer) (m : ST buffer A) : ST S (A * buffer) := λ s,
  match m b with
  | Ok (a, b') => Ok ((a, b'), s)
  | Exit e => Exit e
  | Fault w => Fault w
  end.

Definition buf_getstringbuf_int (incllen : bool) : ST buffer buffer :=
  let* len := buf_getint in
  do* exit_if (len >? MAX_STRING_LEN) "String too long";
  let extra := if incllen then 4 else 0 in
  let* r := buf_new (u32 (len + extra)) in
  let* (_, r) := on_new r (when incllen (buf_putint len)) in
  let* (dst, r) := on_new r (buf_getwriteptr len) in
  let* src := buf_getptr len in
  let* bs := mem_load src len in
  let* (_, r) := on_new r (mem_store dst bs) in
  do* buf_incrpos len;
  let* (_, r) := on_new r (do* buf_incrlen len; buf_setpos 0) in
  ret r.

Definition buf_getstringbuf : ST buffer buffer := buf_getstringbuf_int false.
Definition buf_getbuf : ST buffer buffer := buf_getstringbuf_int true.

Definition buf_getptrcopy (len : Z) : ST buffer buffer :=
  let* src := buf_getptr len in
  let* bs := mem_load src len in
  let* r := buf_new len in
  let* (_, r) := on_new r (do* buf_putbytes bs; buf_setpos 0) in
  ret r.

Definition buf_eatstring : ST buffer unit :=
  let* len := buf_getint in
  buf_incrpos len.

(** ** Multiple-precision integers *)

Definition mp_count_bits (mp : Z) : Z := if mp =? 0 then 0 else Z.log2 (Z.abs mp) + 1.

Definition mp_ubin_size (mp : Z) : Z :=
  mp_count_bits mp / 8 + (if Z.land (mp_count_bits mp) 7 =? 0 then 0 else 1).

(** The loop of [mp_to_ubin]: the bytes from the last to the first. *)
Fixpoint mp_ubin_loop (x : nat) (t : Z) (acc : list Z) : list Z :=
  match x with
  | O => acc
  | Datatypes.S x' => mp_ubin_loop x' (Z.shiftr t 8) (Z.land t 255 :: acc)
  end.

Definition mp_to_ubin (mp maxlen : Z) : option (list Z) :=
  if mp_ubin_size mp >? maxlen then None
  else Some (mp_ubin_loop (Z.to_nat (mp_ubin_size mp)) (Z.abs mp) []).

Definition mp_from_ubin (bs : list Z) : Z :=
  fold_left (λ a b, Z.lor (Z.shiftl a 8) b) bs 0.

Definition buf_putmpint (mp : Z) : ST buffer unit :=
  do* exit_if (mp <? 0) "negative bignum";
  let bits := mp_count_bits mp in
  let pad := if mp =? 0 then 0 else if bits mod 8 =? 0 then 1 else 0 in
  let len := if mp =? 0 then 0 else bits / 8 + 1 in
  do* buf_putint len;
  when (len >? 0)
    (do* when (negb (pad =? 0)) (buf_putbyte 0);
     let* p := buf_getwriteptr (len - pad) in
     match mp_to_ubin mp (len - pad) with
     | None => dropbear_exit "mpint error"
     | Some bs =>
         do* mem_store p bs;
         buf_incrwritepos (zlen bs)
     end).

(** [None] is [DROPBEAR_FAILURE]. *)
Definition buf_getmpint : ST buffer (option Z) :=
  let* len := buf_getint in
  if len =? 0 then ret (Some 0)
  else if len >? BUF_MAX_MPINT then ret None
  else
    let* p := buf_getptr 1 in
    let* hd := mem_load p 1 in
    if negb (Z.land (nth 0 hd 0) (Z.shiftl 1 (8 - 1)) =? 0) then ret None
    else
      let* p := buf_getptr len in
      let* bs := mem_load p len in
      do* buf_incrpos len;
      ret (Some (mp_from_ubin bs)).

(** ** The buffer invariant *)

Definition wf_buf (b : buffer) : Prop :=
  0 ≤ b_pos b ≤ b_len b ∧ b_len b ≤ b_size b ≤ BUF_MAX_SIZE ∧
  zlen (b_data b) = b_size b ∧ bytes_ok (b_data b).

(** What the buffer holds. *)
Definition contents (b : buffer) : list Z := slice 0 (b_len b) (b_data b).
(** What is left to read. *)
Definition remaining (b : buffer) : list Z := slice (b_pos b) (b_len b - b_pos b) (b_data b).

(** The result of writing [bs] at the cursor. *)
Definition after_put (bs : list Z) (b : buffer) : buffer :=
  mkbuf (splice (b_pos b) bs (b_data b)) (Z.max (b_len b) (b_pos b + zlen bs))
    (b_pos b + zlen bs) (b_size b).
(** The result of moving the cursor over [n] bytes. *)
Definition after_get (n : Z) (b : buffer) : buffer := set_pos (b_pos b + n) b.

(** The bounds guards test a 32-bit sum; thanks to [BUF_MAX_INCR] they decide
    the comparison over the integers. *)
Lemma guard_exact a n lim :
  0 ≤ a ≤ BUF_MAX_SIZE → 0 ≤ lim ≤ BUF_MAX_SIZE → 0 ≤ n →
  (n >? BUF_MAX_INCR) || (u32 (a + n) >? lim) = negb (a + n <=? lim).
Proof.
  unfold BUF_MAX_SIZE, BUF_MAX_INCR. intros.
  destruct (Z.gtb_spec n 1000000000); simpl; [lia|].
  rewrite u32_small by lia. lia.
Qed.

Ltac wf_buf_lia :=
  intros; unfold wf_buf, set_pos, set_len, BUF_MAX_SIZE, BUF_MAX_INCR, MAX_STRING_LEN, MAX_CMD_LEN in *;
  cbn [b_data b_len b_pos b_size] in *;
  repeat match goal with H : _ ∧ _ |- _ => destruct H end;
  repeat match goal with |- _ ∧ _ => split end; try assumption; lia.

Create HintDb buf discriminated.

Section buffer_wp.
Implicit Types (b : buffer) (E : string → Prop).

Lemma wp_mem_load off n E Q b :
  0 ≤ off → 0 ≤ n → off + n ≤ zlen (b_data b) →
  Q (slice off n (b_data b)) b → wp (mem_load off n) E Q b.
Proof. intros. unfold wp, mem_load. by if_true. Qed.

Lemma wp_mem_store off bs E Q b :
  0 ≤ off → off + zlen bs ≤ zlen (b_data b) →
  Q tt (mkbuf (splice off bs (b_data b)) (b_len b) (b_pos b) (b_size b)) →
  wp (mem_store off bs) E Q b.
Proof. intros. unfold wp, mem_store. by if_true. Qed.

Lemma wp_buf_setlen n E Q b :
  (n ≤ b_size b → Q tt (mkbuf (b_data b) n (Z.min (b_pos b) n) (b_size b))) →
  (b_size b < n → E "Bad buf_setlen"%string) → wp (buf_setlen n) E Q b.
Proof.
  intros HQ HE. apply wp_bind, wp_get, wp_bind, wp_exit_if; intros; [apply HE; lia|].
  apply wp_put, HQ. lia.
Qed.

Lemma wp_buf_setpos n E Q b :
  (n ≤ b_len b → Q tt (set_pos n b)) → (b_len b < n → E "Bad buf_setpos"%string) →
  wp (buf_setpos n) E Q b.
Proof.
  intros HQ HE. apply wp_bind, wp_get, wp_bind, wp_exit_if; intros; [apply HE; lia|].
  apply wp_put, HQ. lia.
Qed.

Lemma wp_buf_incrlen n E Q b :
  wf_buf b → 0 ≤ n →
  (b_len b + n ≤ b_size b → Q tt (set_len (b_len b + n) b)) →
  (b_size b < b_len b + n → E "Bad buf_incrlen"%string) → wp (buf_incrlen n) E Q b.
Proof.
  intros Hwf Hn HQ HE. apply wp_bind, wp_get, wp_bind, wp_exit_if;
    rewrite guard_exact by wf_buf_lia; intros; [apply HE; lia|].
  rewrite u32_small by wf_buf_lia. apply wp_put, HQ. lia.
Qed.

Lemma wp_buf_incrpos n E Q b :
  wf_buf b → 0 ≤ n →
  (b_pos b + n ≤ b_len b → Q tt (after_get n b)) →
  (b_len b < b_pos b + n → E "Bad buf_incrpos"%string) → wp (buf_incrpos n) E Q b.
Proof.
  intros Hwf Hn HQ HE. apply wp_bind, wp_get, wp_bind, wp_exit_if;
    rewrite guard_exact by wf_buf_lia; intros; [apply HE; lia|].
  rewrite u32_small by wf_buf_lia. apply wp_put, HQ. lia.
Qed.

Lemma wp_buf_decrpos n E Q b :
  wf_buf b → 0 ≤ n →
  (n ≤ b_pos b → Q tt (set_pos (b_pos b - n) b)) →
  (b_pos b < n → E "Bad buf_decrpos"%string) → wp (buf_decrpos n) E Q b.
Proof.
  intros Hwf Hn HQ HE. apply wp_bind, wp_get, wp_bind, wp_exit_if; intros; [apply HE; lia|].
  rewrite u32_small by wf_buf_lia. apply wp_put, HQ. lia.
Qed.

Lemma wp_buf_incrwritepos n E Q b :
  wf_buf b → 0 ≤ n →
  (b_pos b + n ≤ b_size b →
   Q tt (mkbuf (b_data b) (Z.max (b_len b) (b_pos b + n)) (b_pos b + n) (b_size b))) →
  (b_size b < b_pos b + n → E "Bad buf_incrwritepos"%string) →
  wp (buf_incrwritepos n) E Q b.
Proof.
  intros Hwf Hn HQ HE. apply wp_bind, wp_get, wp_bind, wp_exit_if;
    rewrite guard_exact by wf_buf_lia; intros; [apply HE; lia|].
  rewrite u32_small by wf_buf_lia. apply wp_put.
  replace (if b_pos b + n >? b_len b then _ else _) with (Z.max (b_len b) (b_pos b + n))
    by (destruct (Z.gtb_spec (b_pos b + n) (b_len b)); lia).
  apply HQ. lia.
Qed.

Lemma wp_buf_getptr n E Q b :
  wf_buf b → 0 ≤ n → (b_pos b + n ≤ b_len b → Q (b_pos b) b) →
  (b_len b < b_pos b + n → E "Bad buf_getptr"%string) → wp (buf_getptr n) E Q b.
Proof.
  intros Hwf Hn HQ HE. apply wp_bind, wp_get, wp_bind, wp_exit_if;
    rewrite guard_exact by wf_buf_lia; intros; [apply HE; lia|].
  apply wp_ret, HQ. lia.
Qed.

Lemma wp_buf_getwriteptr n E Q b :
  wf_buf b → 0 ≤ n → (b_pos b + n ≤ b_size b → Q (b_pos b) b) →
  (b_size b < b_pos b + n → E "Bad buf_getwriteptr"%string) → wp (buf_getwriteptr n) E Q b.
Proof.
  intros Hwf Hn HQ HE. apply wp_bind, wp_get, wp_bind, wp_exit_if;
    rewrite guard_exact by wf_buf_lia; intros; [apply HE; lia|].
  apply wp_ret, HQ. lia.
Qed.
End buffer_wp.

(** ** What each operation does to a well-formed buffer *)

Lemma wf_after_get n b : wf_buf b → 0 ≤ n → b_pos b + n ≤ b_len b → wf_buf (after_get n b).
Proof. unfold after_get. wf_buf_lia. Qed.

Lemma wf_after_put bs b :
  wf_buf b → bytes_ok bs → b_pos b + zlen bs ≤ b_size b → wf_buf (after_put bs b).
Proof.
  intros (?&?&?&?) ??. pose proof (zlen_nonneg bs). unfold after_put, wf_buf; simpl.
  rewrite zlen_splice by lia. split_and!; try lia. by apply bytes_ok_splice.
Qed.

Lemma wf_set_pos n b : wf_buf b → 0 ≤ n ≤ b_len b → wf_buf (set_pos n b).
Proof. wf_buf_lia. Qed.

Lemma wf_set_len n b : wf_buf b → b_pos b ≤ n ≤ b_size b → wf_buf (set_len n b).
Proof. wf_buf_lia. Qed.

Lemma wf_setlen n b :
  wf_buf b → 0 ≤ n ≤ b_size b → wf_buf (mkbuf (b_data b) n (Z.min (b_pos b) n) (b_size b)).
Proof. wf_buf_lia. Qed.

Lemma wf_new n : 0 ≤ n ≤ BUF_MAX_SIZE → wf_buf (mkbuf (zeros n) 0 0 n).
Proof.
  intros. unfold wf_buf; simpl. rewrite zlen_zeros by lia.
  split_and!; try lia. apply bytes_ok_zeros.
Qed.

#[export] Hint Resolve wf_after_get wf_after_put wf_set_pos wf_set_len wf_setlen wf_new : buf.

Lemma after_put_app l1 l2 b :
  wf_buf b → b_pos b + zlen (l1 ++ l2) ≤ b_size b →
  after_put (l1 ++ l2) b = after_put l2 (after_put l1 b).
Proof.
  intros (?&?&?&?). rewrite zlen_app. intros.
  pose proof (zlen_nonneg l1). pose proof (zlen_nonneg l2).
  unfold after_put; simpl. rewrite !zlen_app. f_equal; [|lia..].
  rewrite <-(take_drop (Z.to_nat (b_pos b)) (b_data b)).
  set (pre := take _ _). set (post := drop _ _).
  assert (Hpre : zlen pre = b_pos b) by (unfold pre, zlen in *; rewrite length_take; lia).
  assert (Hpost : zlen post = b_size b - b_pos b) by (unfold post, zlen in *; rewrite length_drop; lia).
  rewrite <-(take_drop (length l1) post), <-(take_drop (length l2) (drop _ post)).
  set (p1 := take (length l1) post). set (p2 := take (length l2) _). set (p3 := drop _ (drop _ _)).
  assert (length p1 = length l1) by (unfold p1, zlen in *; rewrite length_take; lia).
  assert (length p2 = length l2)
    by (unfold p2, zlen in *; rewrite length_take, length_drop; lia).
  rewrite (splice_app_exact _ l1 pre p1) by done.
  rewrite (app_assoc pre l1), (splice_app_exact _ l2 (pre ++ l1) p2)
    by (rewrite ?zlen_app; lia).
  rewrite (app_assoc p1 p2), (splice_app_exact _ (l1 ++ l2) pre (p1 ++ p2))
    by (rewrite ?length_app; lia).
  by rewrite <-!app_assoc.
Qed.

Lemma after_get_get n m b : after_get m (after_get n b) = after_get (n + m) b.
Proof. unfold after_get, set_pos; simpl. f_equal. lia. Qed.

Section buffer_ops.
Implicit Types (b : buffer) (E : string → Prop).

Lemma wp_buf_putbytes bs E Q b :
  wf_buf b → bytes_ok bs →
  (b_pos b + zlen bs ≤ b_size b → Q tt (after_put bs b)) →
  (b_size b < b_pos b + zlen bs → E "Bad buf_getwriteptr"%string) →
  wp (buf_putbytes bs) E Q b.
Proof.
  intros Hwf Hbs HQ HE. pose proof (zlen_nonneg bs). pose proof Hwf as (?&?&Hd&?).
  apply wp_bind, wp_buf_getwriteptr; [done|done| |done]. intros.
  apply wp_bind, wp_mem_store; [lia..|].
  apply wp_buf_incrwritepos; simpl; [|done|intros; by apply HQ|lia].
  split_and!; simpl; try lia; [by rewrite zlen_splice by lia|by apply bytes_ok_splice].
Qed.

Lemma wp_buf_putint v E Q b :
  wf_buf b →
  (b_pos b + 4 ≤ b_size b → Q tt (after_put (STORE32H v) b)) →
  (b_size b < b_pos b + 4 → E "Bad buf_getwriteptr"%string) →
  wp (buf_putint v) E Q b.
Proof.
  intros. apply (wp_buf_putbytes (STORE32H v)); auto using STORE32H_bytes.
Qed.

Lemma wp_buf_putbyte v E Q b :
  wf_buf b →
  (b_pos b + 1 ≤ b_size b → Q tt (after_put [u8 v] b)) →
  (b_size b < b_pos b + 1 → E "Bad buf_incrlen"%string) →
  wp (buf_putbyte v) E Q b.
Proof.
  intros Hwf HQ HE. pose proof Hwf as (?&?&Hd&?).
  assert (Hgo : ∀ b1, b_data b1 = b_data b → b_pos b1 = b_pos b → b_size b1 = b_size b →
            b_len b1 = Z.max (b_len b) (b_pos b + 1) → b_pos b + 1 ≤ b_size b →
            wp (do* mem_store (b_pos b) [u8 v]; modify (λ b, set_pos (u32 (b_pos b + 1)) b))
              E Q b1).
  { intros b1 Hb1 Hp1 Hs1 Hl1 ?. apply wp_bind, wp_mem_store; rewrite ?Hb1, ?zlen_cons, ?zlen_nil; [lia..|].
    apply wp_modify. unfold set_pos; simpl. rewrite Hp1, Hl1, Hs1, u32_small by wf_buf_lia.
    apply HQ. lia. }
  apply wp_bind, wp_get, wp_bind, wp_when; intros.
  - apply wp_buf_incrlen; [done|done| |intros; apply HE; lia].
    intros. apply Hgo; simpl; first [done|lia].
  - apply Hgo; first [done|lia].
Qed.

Lemma wp_buf_putstring s E Q b :
  wf_buf b → bytes_ok s →
  (b_pos b + (4 + zlen s) ≤ b_size b → Q tt (after_put (STORE32H (zlen s) ++ s) b)) →
  (b_size b < b_pos b + (4 + zlen s) → E "Bad buf_getwriteptr"%string) →
  wp (buf_putstring s) E Q b.
Proof.
  intros Hwf Hs HQ HE. pose proof (zlen_nonneg s).
  apply wp_bind, wp_buf_putint; [done| |intros; apply HE; lia]. intros.
  apply wp_buf_putbytes; [apply wf_after_put; auto using STORE32H_bytes|done| |];
    unfold after_put at 1 2; simpl; change (zlen (STORE32H _)) with 4; intros.
  - rewrite <-after_put_app by (rewrite ?zlen_app; change (zlen (STORE32H _)) with 4; auto with lia).
    apply HQ. lia.
  - apply HE. lia.
Qed.

Lemma wp_buf_getbyte E Q b :
  wf_buf b →
  (b_pos b < b_len b → Q (nth 0 (slice (b_pos b) 1 (b_data b)) 0) (after_get 1 b)) →
  (b_len b ≤ b_pos b → E "Bad buf_getbyte"%string) →
  wp buf_getbyte E Q b.
Proof.
  intros Hwf HQ HE. pose proof Hwf as (?&?&Hd&?).
  apply wp_bind, wp_get, wp_bind, wp_exit_if; intros; [apply HE; lia|].
  apply wp_bind, wp_mem_load; [lia..|]. apply wp_bind, wp_put, wp_ret.
  rewrite u32_small by wf_buf_lia. apply HQ. lia.
Qed.

Lemma wp_buf_getint E Q b :
  wf_buf b →
  (b_pos b + 4 ≤ b_len b → Q (LOAD32H (slice (b_pos b) 4 (b_data b))) (after_get 4 b)) →
  (b_len b < b_pos b + 4 → E "Bad buf_getptr"%string) →
  wp buf_getint E Q b.
Proof.
  intros Hwf HQ HE. pose proof Hwf as (?&?&Hd&?).
  apply wp_bind, wp_buf_getptr; [done|lia| |done]. intros.
  apply wp_bind, wp_mem_load; [lia..|].
  apply wp_bind, wp_buf_incrpos; [done|lia| |lia]. intros. by apply wp_ret, HQ.
Qed.

(** The tail [buf_getptr(len); memcpy; buf_incrpos(len)] of the string
    readers. *)
Lemma wp_read_bytes_k {A} n (k : list Z → A) E Q b :
  wf_buf b → 0 ≤ n →
  (b_pos b + n ≤ b_len b → Q (k (slice (b_pos b) n (b_data b))) (after_get n b)) →
  (b_len b < b_pos b + n → E "Bad buf_getptr"%string) →
  wp (let* src := buf_getptr n in let* bs := mem_load src n in do* buf_incrpos n; ret (k bs))
    E Q b.
Proof.
  intros Hwf Hn HQ HE. pose proof Hwf as (?&?&Hd&?).
  apply wp_bind, wp_buf_getptr; [done|lia| |done]. intros.
  apply wp_bind, wp_mem_load; [lia..|].
  apply wp_bind, wp_buf_incrpos; [done|lia| |lia]. intros. by apply wp_ret, HQ.
Qed.

Lemma wp_read_bytes n E Q b :
  wf_buf b → 0 ≤ n →
  (b_pos b + n ≤ b_len b → Q (slice (b_pos b) n (b_data b)) (after_get n b)) →
  (b_len b < b_pos b + n → E "Bad buf_getptr"%string) →
  wp (let* src := buf_getptr n in let* bs := mem_load src n in do* buf_incrpos n; ret bs) E Q b.
Proof. apply (wp_read_bytes_k n id). Qed.

Lemma slice_LOAD32H_ok b off : wf_buf b → u32_ok (LOAD32H (slice off 4 (b_data b))).
Proof. intros (?&?&?&?). by apply LOAD32H_range, bytes_ok_slice. Qed.

Lemma wp_buf_getstring E Q b :
  wf_buf b → let n := LOAD32H (slice (b_pos b) 4 (b_data b)) in
  (b_pos b + 4 + n ≤ b_len b → 0 ≤ n ≤ MAX_STRING_LEN →
   Q (slice (b_pos b + 4) n (b_data b)) (after_get (4 + n) b)) →
  (¬ (b_pos b + 4 + n ≤ b_len b ∧ n ≤ MAX_STRING_LEN) → ∀ e, E e) →
  wp buf_getstring E Q b.
Proof.
  intros Hwf n HQ HE. pose proof (slice_LOAD32H_ok b (b_pos b) Hwf) as Hn. fold n in Hn.
  unfold u32_ok in Hn.
  apply wp_bind, wp_buf_getint; [done| |intros; apply HE; lia]. intros. fold n.
  apply wp_bind, wp_exit_if; intros; [apply HE; lia|].
  apply wp_read_bytes; [by apply wf_after_get; auto with lia|lia|..]; simpl; intros.
  - rewrite after_get_get. apply HQ; lia.
  - apply HE. lia.
Qed.

Lemma wp_buf_eatstring E Q b :
  wf_buf b → let n := LOAD32H (slice (b_pos b) 4 (b_data b)) in
  (b_pos b + 4 + n ≤ b_len b → 0 ≤ n → Q tt (after_get (4 + n) b)) →
  (¬ (b_pos b + 4 + n ≤ b_len b) → ∀ e, E e) →
  wp buf_eatstring E Q b.
Proof.
  intros Hwf n HQ HE. pose proof (slice_LOAD32H_ok b (b_pos b) Hwf) as Hn. fold n in Hn.
  unfold u32_ok in Hn.
  apply wp_bind, wp_buf_getint; [done| |intros; apply HE; lia]. intros. fold n.
  apply wp_buf_incrpos; [by apply wf_after_get; auto with lia|lia|..]; simpl; intros.
  - rewrite after_get_get. apply HQ; lia.
  - apply HE. lia.
Qed.
End buffer_ops.

(** ** Multiple-precision integers on the wire *)

Section mpint.
Lemma mp_ubin_loop_acc x t acc : mp_ubin_loop x t acc = mp_ubin_loop x t [] ++ acc.
Proof.
  revert t acc. induction x as [|x IH]; intros t acc; [done|]. simpl.
  rewrite (IH _ (_ :: acc)), (IH _ [_]), <-app_assoc. done.
Qed.

Lemma length_mp_ubin_loop x t acc : zlen (mp_ubin_loop x t acc) = Z.of_nat x + zlen acc.
Proof.
  revert t acc. induction x as [|x IH]; intros t acc; simpl; [lia|].
  rewrite IH, zlen_cons. lia.
Qed.

Lemma land_255 t : Z.land t 255 = t mod 2 ^ 8.
Proof. change 255 with (Z.ones 8). apply Z.land_ones. lia. Qed.

Lemma mp_ubin_loop_bytes x t acc : bytes_ok acc → bytes_ok (mp_ubin_loop x t acc).
Proof.
  revert t acc. induction x as [|x IH]; intros t acc Ha; simpl; [done|].
  apply IH. constructor; [|done]. rewrite land_255. apply u8_range.
Qed.

(** The first byte is the most significant one. *)
Lemma mp_ubin_loop_head x t acc : 0 ≤ t →
  mp_ubin_loop (S x) t acc = Z.land (Z.shiftr t (8 * Z.of_nat x)) 255 :: mp_ubin_loop x t acc.
Proof.
  revert t acc. induction x as [|x IH]; intros t acc Ht.
  - simpl. done.
  - change (mp_ubin_loop (S (S x)) t acc) with
      (mp_ubin_loop (S x) (Z.shiftr t 8) (Z.land t 255 :: acc)).
    rewrite IH by (apply Z.shiftr_nonneg; lia).
    rewrite Z.shiftr_shiftr by lia. simpl mp_ubin_loop. do 3 f_equal. lia.
Qed.

Lemma mp_from_ubin_snoc l b : byte_ok b →
  mp_from_ubin (l ++ [b]) = mp_from_ubin l * 2 ^ 8 + b.
Proof.
  intros Hb. unfold mp_from_ubin. rewrite fold_left_app. simpl. apply lor_shiftl_add; [lia|].
  unfold byte_ok in Hb. lia.
Qed.

Lemma mp_from_to_loop x t : 0 ≤ t →
  mp_from_ubin (mp_ubin_loop x t []) = t mod 2 ^ (8 * Z.of_nat x).
Proof.
  revert t. induction x as [|x IH]; intros t Ht.
  - simpl. by rewrite Z.mod_1_r.
  - simpl mp_ubin_loop. rewrite mp_ubin_loop_acc, mp_from_ubin_snoc
      by (rewrite land_255; apply u8_range).
    rewrite IH by (apply Z.shiftr_nonneg; lia).
    rewrite land_255, Z.shiftr_div_pow2 by lia.
    replace (8 * Z.of_nat (S x)) with (8 + 8 * Z.of_nat x) by lia.
    rewrite Z.pow_add_r, Z.rem_mul_r by lia. lia.
Qed.

Context (mp : Z) (Hmp : 0 < mp).

Lemma mp_bits_bound : mp < 2 ^ mp_count_bits mp.
Proof using Hmp.
  unfold mp_count_bits. if_false. rewrite Z.abs_eq by lia. apply Z.log2_spec. lia.
Qed.

Lemma mp_count_bits_pos : 1 ≤ mp_count_bits mp.
Proof using Hmp.
  unfold mp_count_bits. if_false. pose proof (Z.log2_nonneg (Z.abs mp)). lia.
Qed.

Lemma land_7 n : Z.land n 7 = n mod 8.
Proof using. change 7 with (Z.ones 3). apply Z.land_ones. lia. Qed.

Lemma mp_ubin_size_bits : mp_count_bits mp ≤ 8 * mp_ubin_size mp < mp_count_bits mp + 8.
Proof using Hmp.
  unfold mp_ubin_size. rewrite land_7. pose proof (Z.div_mod (mp_count_bits mp) 8).
  pose proof (Z.mod_pos_bound (mp_count_bits mp) 8).
  destruct (Z.eqb_spec (mp_count_bits mp mod 8) 0); lia.
Qed.

Lemma mp_from_to_ubin :
  mp_from_ubin (mp_ubin_loop (Z.to_nat (mp_ubin_size mp)) mp []) = mp.
Proof using Hmp.
  pose proof mp_ubin_size_bits. pose proof mp_count_bits_pos. pose proof mp_bits_bound.
  rewrite mp_from_to_loop by lia. apply Z.mod_small. split; [lia|].
  eapply Z.lt_le_trans; [done|]. apply Z.pow_le_mono_r; lia.
Qed.
End mpint.

Lemma mp_from_ubin_range bs : bytes_ok bs → 0 ≤ mp_from_ubin bs < 2 ^ (8 * zlen bs).
Proof.
  induction bs as [|c bs IH] using rev_ind; [by vm_compute|]. rewrite bytes_ok_app. intros [Hb Hc].
  inversion Hc as [|? ? Hc1 _]; subst. specialize (IH Hb). rewrite mp_from_ubin_snoc by done. unfold byte_ok in Hc1.
  rewrite zlen_app. change (zlen [c]) with 1. pose proof (zlen_nonneg bs).
  replace (8 * (zlen bs + 1)) with (8 * zlen bs + 8) by lia. rewrite Z.pow_add_r by lia. change (2 ^ 8) with 256. lia.
Qed.

(** The wire form of a nonnegative mpint: its length, a zero byte when the
    top bit of the first byte is set, the big-endian bytes. *)
Definition mpint_pad (mp : Z) : Z :=
  if mp =? 0 then 0 else if mp_count_bits mp mod 8 =? 0 then 1 else 0.
Definition mpint_len (mp : Z) : Z := if mp =? 0 then 0 else mp_count_bits mp / 8 + 1.
Definition mpint_body (mp : Z) : list Z :=
  zeros (mpint_pad mp) ++ mp_ubin_loop (Z.to_nat (mpint_len mp - mpint_pad mp)) mp [].

Lemma mpint_len_size mp : 0 < mp → mpint_len mp - mpint_pad mp = mp_ubin_size mp.
Proof.
  intros. unfold mpint_len, mpint_pad, mp_ubin_size. rewrite land_7.
  if_false. destruct (Z.eqb_spec (mp_count_bits mp mod 8) 0); lia.
Qed.

Lemma mpint_pad_01 mp : 0 ≤ mpint_pad mp ≤ 1.
Proof. unfold mpint_pad. repeat case_match; lia. Qed.

Lemma mpint_len_nonneg mp : 0 ≤ mp → mpint_pad mp ≤ mpint_len mp.
Proof.
  intros. unfold mpint_len, mpint_pad. destruct (Z.eqb_spec mp 0); [lia|].
  pose proof (mp_count_bits_pos mp). case_match; [|]; pose proof (Z.div_pos (mp_count_bits mp) 8); lia.
Qed.

Lemma mpint_body_length mp : 0 ≤ mp → zlen (mpint_body mp) = mpint_len mp.
Proof.
  intros. pose proof (mpint_pad_01 mp). pose proof (mpint_len_nonneg mp).
  unfold mpint_body. rewrite zlen_app, zlen_zeros, length_mp_ubin_loop, zlen_nil by lia. lia.
Qed.

Lemma mpint_body_bytes mp : bytes_ok (mpint_body mp).
Proof.
  apply bytes_ok_app. split; [apply bytes_ok_zeros|apply mp_ubin_loop_bytes; constructor].
Qed.

Lemma mpint_body_value mp : 0 ≤ mp → mp_from_ubin (mpint_body mp) = mp.
Proof.
  intros. destruct (Z.eq_dec mp 0) as [->|]; [done|].
  unfold mpint_body. rewrite mpint_len_size by lia.
  transitivity (mp_from_ubin (mp_ubin_loop (Z.to_nat (mp_ubin_size mp)) mp []));
    [|apply mp_from_to_ubin; lia].
  unfold mp_from_ubin. rewrite fold_left_app. f_equal.
  pose proof (mpint_pad_01 mp). assert (mpint_pad mp = 0 ∨ mpint_pad mp = 1) as [->| ->] by lia; done.
Qed.

(** The first byte of the body never has its top bit set, so the receiver
    does not read it as negative. *)
Lemma mpint_body_positive mp : 0 < mp → Z.land (nth 0 (mpint_body mp) 0) 128 = 0.
Proof.
  intros. pose proof (mpint_len_size mp ltac:(lia)) as Hsz. unfold mpint_body. rewrite Hsz.
  pose proof (mp_ubin_size_bits mp ltac:(lia)). pose proof (mp_count_bits_pos mp ltac:(lia)).
  unfold mpint_pad in *. rewrite (proj2 (Z.eqb_neq mp 0)) by lia.
  destruct (Z.eqb_spec (mp_count_bits mp mod 8) 0) as [|Hm]; [done|]. simpl app.
  destruct (Z.to_nat (mp_ubin_size mp)) as [|x] eqn:Hx; [lia|].
  rewrite mp_ubin_loop_head by lia. cbn [nth]. rewrite land_255, Z.shiftr_div_pow2 by lia.
  assert (mp / 2 ^ (8 * Z.of_nat x) < 2 ^ 7).
  { apply Z.div_lt_upper_bound; [lia|]. rewrite <-Z.pow_add_r by lia.
    eapply Z.lt_le_trans; [apply mp_bits_bound; lia|]. apply Z.pow_le_mono_r; [lia|].
    pose proof (Z.div_mod (mp_count_bits mp) 8). pose proof (Z.mod_pos_bound (mp_count_bits mp) 8).
    lia. }
  pose proof (Z.div_pos mp (2 ^ (8 * Z.of_nat x))).
  rewrite (Z.mod_small _ (2 ^ 8)) by lia. change 128 with (Z.shiftl 1 7).
  apply Z.bits_inj'. intros n Hn. rewrite Z.land_spec, Z.bits_0.
  rewrite Z.shiftl_1_l, Z.pow2_bits_eqb by lia.
  destruct (Z.eqb_spec 7 n) as [<-|]; [|by rewrite andb_false_r].
  rewrite andb_true_r. apply Z.testbit_false; [lia|]. rewrite (Z.div_small) by lia. done.
Qed.

Lemma after_put_nil b : wf_buf b → after_put [] b = b.
Proof.
  intros (?&?&?&?). destruct b as [d l p s]; simpl in *. unfold after_put; simpl.
  rewrite zlen_nil, splice_nil by lia. f_equal; lia.
Qed.

(** Consecutive writes: the second is stated on the result of the first. *)
Lemma wp_after_put_seq {A} l1 l2 (m : ST buffer A) E Q b :
  wf_buf b → bytes_ok l1 → b_pos b + zlen l1 ≤ b_size b →
  (wf_buf (after_put l1 b) → b_pos (after_put l1 b) = b_pos b + zlen l1 →
   b_size (after_put l1 b) = b_size b →
   (b_pos b + zlen (l1 ++ l2) ≤ b_size b →
     after_put l2 (after_put l1 b) = after_put (l1 ++ l2) b) →
   wp m E Q (after_put l1 b)) →
  wp m E Q (after_put l1 b).
Proof.
  intros Hwf Hb Hr H. apply H; [by apply wf_after_put|done|done|].
  intros. by rewrite after_put_app.
Qed.

Section mpint_ops.
Implicit Types (b : buffer) (E : string → Prop).

(** The payload part of [buf_putmpint], for a nonzero integer. *)
Lemma wp_put_mpint_body mp E Q b :
  wf_buf b → 0 < mp →
  (b_pos b + mpint_len mp ≤ b_size b → Q tt (after_put (mpint_body mp) b)) →
  (b_size b < b_pos b + mpint_len mp → ∀ e, E e) →
  wp (do* when (negb (mpint_pad mp =? 0)) (buf_putbyte 0);
      let* p := buf_getwriteptr (mpint_len mp - mpint_pad mp) in
      match mp_to_ubin mp (mpint_len mp - mpint_pad mp) with
      | None => dropbear_exit "mpint error"
      | Some bs => do* mem_store p bs; buf_incrwritepos (zlen bs)
      end) E Q b.
Proof.
  intros Hwf Hmp HQ HE. pose proof (mpint_len_size mp Hmp) as Hsz.
  pose proof (mpint_pad_01 mp) as Hpad. pose proof (mpint_len_nonneg mp) as Hle.
  set (body := mp_ubin_loop (Z.to_nat (mpint_len mp - mpint_pad mp)) mp []).
  assert (Hbl : zlen body = mpint_len mp - mpint_pad mp)
    by (unfold body; rewrite length_mp_ubin_loop, zlen_nil; lia).
  assert (Hgo : ∀ b1, wf_buf b1 → b_size b1 = b_size b → b_pos b1 = b_pos b + mpint_pad mp →
    (b_pos b + mpint_len mp ≤ b_size b → Q tt (after_put body b1)) →
    wp (buf_putbytes body) E Q b1).
  { intros b1 Hw1 Hs1 Hp1 HQ1. apply wp_buf_putbytes; [done|apply mp_ubin_loop_bytes; constructor|..];
      rewrite Hbl, Hs1, Hp1; intros; [apply HQ1; lia|apply HE; lia]. }
  rewrite Hsz. unfold mp_to_ubin. rewrite Z.gtb_ltb, Z.ltb_irrefl, Z.abs_eq, <-Hsz by lia.
  fold body. rewrite <-Hbl. fold (buf_putbytes body).
  assert (Hbody : mpint_body mp = zeros (mpint_pad mp) ++ body) by done.
  rewrite Hbody in HQ. apply wp_bind, wp_when; intros Hc.
  - assert (Hp1 : mpint_pad mp = 1) by lia. rewrite Hp1 in *.
    apply wp_buf_putbyte; [done| |intros; apply HE; lia]. intros.
    assert (bytes_ok [u8 0]) by (repeat constructor; apply u8_range).
    apply Hgo; [by apply wf_after_put|done|done|]. intros.
    change [u8 0] with (zeros 1).
    rewrite <-after_put_app by (rewrite ?zlen_app, ?Hbl, ?zlen_zeros; done || lia). by apply HQ.
  - assert (Hp0 : mpint_pad mp = 0) by lia. rewrite Hp0 in *. apply Hgo; [done|done|lia|]. apply HQ.
Qed.

Lemma wp_buf_putmpint mp E Q b :
  wf_buf b →
  (0 ≤ mp → b_pos b + (4 + mpint_len mp) ≤ b_size b →
   Q tt (after_put (STORE32H (mpint_len mp) ++ mpint_body mp) b)) →
  (¬ (0 ≤ mp ∧ b_pos b + (4 + mpint_len mp) ≤ b_size b) → ∀ e, E e) →
  wp (buf_putmpint mp) E Q b.
Proof.
  intros Hwf HQ HE. unfold buf_putmpint. cbv zeta. fold (mpint_len mp) (mpint_pad mp).
  apply wp_bind, wp_exit_if; intros; [apply HE; lia|].
  pose proof (mpint_pad_01 mp). pose proof (mpint_len_nonneg mp ltac:(lia)).
  apply wp_bind, wp_buf_putint; [done| |intros; apply HE; lia]. intros.
  apply (wp_after_put_seq _ (mpint_body mp)); [done|apply STORE32H_bytes|done|].
  rewrite zlen_app, mpint_body_length by lia. intros Hw1 Hp1 Hs1 Happ.
  change (zlen (STORE32H (mpint_len mp))) with 4 in *.
  apply wp_when; intros Hc.
  - assert (0 < mp). { unfold mpint_len in Hc. destruct (Z.eqb_spec mp 0); lia. }
    apply wp_put_mpint_body; [done|done|..]; rewrite Hp1, Hs1; intros.
    + rewrite Happ by lia. apply HQ; lia.
    + apply HE. lia.
  - assert (Hl0 : mpint_len mp = 0) by lia. rewrite Hl0 in *.
    assert (Hb0 : mpint_body mp = []).
    { apply nil_length_inv. pose proof (mpint_body_length mp ltac:(lia)). unfold zlen in *. lia. }
    rewrite Hb0, app_nil_r in HQ. apply HQ; lia.
Qed.

Lemma wp_buf_getmpint E (Q : option Z → buffer → Prop) b :
  wf_buf b → let n := LOAD32H (slice (b_pos b) 4 (b_data b)) in
  (n = 0 → b_pos b + 4 ≤ b_len b → Q (Some 0) (after_get 4 b)) →
  (0 < n ≤ BUF_MAX_MPINT → b_pos b + 4 + n ≤ b_len b →
   Z.land (nth 0 (slice (b_pos b + 4) 1 (b_data b)) 0) 128 = 0 →
   Q (Some (mp_from_ubin (slice (b_pos b + 4) n (b_data b)))) (after_get (4 + n) b)) →
  (0 < n → b_pos b + 4 ≤ b_len b →
    BUF_MAX_MPINT < n ∨
    Z.land (nth 0 (slice (b_pos b + 4) 1 (b_data b)) 0) 128 ≠ 0 → Q None (after_get 4 b)) →
  (¬ (b_pos b + 4 + n ≤ b_len b) → ∀ e, E e) →
  wp buf_getmpint E Q b.
Proof.
  intros Hwf n HQ0 HQ HN HE. pose proof (slice_LOAD32H_ok b (b_pos b) Hwf) as Hn. fold n in Hn.
  unfold u32_ok in Hn. pose proof Hwf as (?&?&Hd&?).
  apply wp_bind, wp_buf_getint; [done| |intros; apply HE; lia]. intros. fold n.
  assert (Hw1 : wf_buf (after_get 4 b)) by (apply wf_after_get; auto with lia).
  apply wp_if; intros; [apply wp_ret, HQ0; lia|].
  apply wp_if; intros; [apply wp_ret, HN; [..|left]; lia|].
  apply wp_bind, wp_buf_getptr; [done|lia| |intros; apply HE; simpl in *; lia]. simpl. intros.
  apply wp_bind, wp_mem_load; simpl; [lia..|].
  change (Z.shiftl 1 7) with 128. apply wp_if; intros Hneg.
  { apply wp_ret, HN; [lia..|]. right. by apply Z.eqb_neq, negb_true_iff. }
  apply negb_false_iff, Z.eqb_eq in Hneg.
  apply wp_read_bytes_k; simpl; [done|lia|..]; intros; [|apply HE; lia].
  rewrite after_get_get. apply HQ; [lia..|done].
Qed.
End mpint_ops.

(** ** New buffers made from old ones *)

(** A buffer holding exactly [bs], with the cursor at the start. *)
Definition buf_of (bs : list Z) : buffer := mkbuf bs (zlen bs) 0 (zlen bs).

Lemma wf_buf_of bs : bytes_ok bs → zlen bs ≤ BUF_MAX_SIZE → wf_buf (buf_of bs).
Proof. pose proof (zlen_nonneg bs). unfold buf_of. wf_buf_lia. Qed.

Lemma contents_buf_of bs : contents (buf_of bs) = bs.
Proof. apply slice_full. Qed.

Lemma wp_on_new {S A} (m : ST buffer A) E (Q : A * buffer → S → Prop) b s :
  wp m E (λ a b', Q (a, b') s) b → wp (on_new b m) E Q s.
Proof. unfold wp, on_new. by destruct (m b) as [[a b']|e|w]. Qed.

Lemma wp_buf_new {S} n E (Q : buffer → S → Prop) s :
  (n ≤ BUF_MAX_SIZE → Q (mkbuf (zeros n) 0 0 n) s) →
  (BUF_MAX_SIZE < n → E "buf->size too big"%string) → wp (buf_new n) E Q s.
Proof.
  intros HQ HE. apply wp_bind, wp_exit_if; intros; [apply HE; lia|].
  apply wp_ret, HQ. lia.
Qed.

Lemma contents_length b : wf_buf b → zlen (contents b) = b_len b.
Proof. intros (?&?&?&?). unfold contents. rewrite zlen_slice; lia. Qed.

Lemma contents_bytes b : wf_buf b → bytes_ok (contents b).
Proof. intros (?&?&?&?). by apply bytes_ok_slice. Qed.

(** Writing at the end appends. *)
Lemma contents_append bs b :
  wf_buf b → b_pos b = b_len b → b_pos b + zlen bs ≤ b_size b →
  contents (after_put bs b) = contents b ++ bs.
Proof.
  intros (?&?&?&?) Hp Hs. pose proof (zlen_nonneg bs). unfold contents, after_put. cbn [b_len b_data].
  rewrite Hp, Z.max_r by lia. rewrite slice_app_split by lia. f_equal.
  - apply slice_splice_before; lia.
  - rewrite Z.add_0_l. apply slice_splice_same; lia.
Qed.

Lemma contents_fresh_put p b :
  wf_buf b → b_len b = 0 → b_pos b = 0 → zlen p ≤ b_size b → contents (after_put p b) = p.
Proof.
  intros (?&?&?&?) Hl Hp Hs. pose proof (zlen_nonneg p). unfold contents, after_put. cbn [b_len b_data].
  rewrite Hl, Hp, Z.max_r by lia. rewrite Z.add_0_l. apply slice_splice_same; lia.
Qed.

Lemma splice_zeros bs : splice 0 bs (zeros (zlen bs)) = bs.
Proof.
  rewrite <-(app_nil_r (zeros _)), <-(app_nil_l (_ ++ [])).
  rewrite splice_app_exact; [by rewrite app_nil_r|done|].
  unfold zeros, zlen. rewrite length_replicate. lia.
Qed.

Lemma wp_buf_newcopy {S} b E (Q : buffer → S → Prop) s :
  wf_buf b → Q (buf_of (contents b)) s → wp (buf_newcopy b) E Q s.
Proof.
  intros Hwf HQ. pose proof (contents_length b Hwf) as Hl. pose proof Hwf as (?&?&?&?).
  apply wp_bind, wp_buf_new; [|lia]. intros. unfold buf_of in HQ. rewrite Hl in HQ.
  apply wp_if; intros; apply wp_ret; simpl.
  - unfold contents in *. rewrite <-Hl at 2. rewrite splice_zeros. done.
  - assert (Hl0 : b_len b = 0) by lia. unfold set_len; simpl. rewrite Hl0 in *.
    unfold contents in HQ. rewrite Hl0, slice_0 in HQ. done.
Qed.

Lemma wp_buf_resize {S} indet n b E (Q : buffer → S → Prop) s :
  wf_buf b → 0 ≤ n →
  (∀ b', wf_buf b' → b_size b' = n → b_len b' = Z.min n (b_len b) → b_pos b' = Z.min n (b_pos b) →
    slice 0 (Z.min n (b_size b)) (b_data b') = slice 0 (Z.min n (b_size b)) (b_data b) → Q b' s) →
  (BUF_MAX_SIZE < n → E "buf->size too big"%string) →
  wp (buf_resize indet n b) E Q s.
Proof.
  intros (?&?&Hd&Hb) Hn HQ HE. apply wp_bind, wp_exit_if; intros; [apply HE; lia|].
  apply wp_ret, HQ; simpl; [|done..|].
  - unfold wf_buf; simpl. split_and!; try lia.
    + unfold zlen in *. rewrite length_app, length_take, length_map, length_seq. lia.
    + apply bytes_ok_app. split; [by apply Forall_take|]. apply Forall_map.
      apply Forall_true. intros. apply u8_range.
  - assert (Ht : zlen (take (Z.to_nat n) (b_data b)) = Z.min n (b_size b))
      by (unfold zlen in *; rewrite length_take; lia).
    rewrite <-Ht. rewrite slice_app_l by (pose proof (zlen_nonneg (take (Z.to_nat n) (b_data b))); lia).
    rewrite slice_full. unfold slice. simpl. rewrite drop_0.
    unfold zlen. rewrite Nat2Z.id, length_take. 
    destruct (decide (Z.to_nat n ≤ length (b_data b))%nat); [by rewrite Nat.min_l by lia|].
    by rewrite Nat.min_r, !take_ge by lia.
Qed.

Lemma wp_buf_getstringbuf_int (incllen : bool) E Q b :
  wf_buf b → let n := LOAD32H (slice (b_pos b) 4 (b_data b)) in
  (b_pos b + 4 + n ≤ b_len b → 0 ≤ n ≤ MAX_STRING_LEN →
   Q (buf_of ((if incllen then STORE32H n else []) ++ slice (b_pos b + 4) n (b_data b)))
     (after_get (4 + n) b)) →
  (¬ (b_pos b + 4 + n ≤ b_len b ∧ n ≤ MAX_STRING_LEN) → ∀ e, E e) →
  wp (buf_getstringbuf_int incllen) E Q b.
Proof.
  intros Hwf n HQ HE. pose proof (slice_LOAD32H_ok b (b_pos b) Hwf) as Hn. fold n in Hn.
  unfold u32_ok in Hn. pose proof Hwf as (?&?&Hd&?).
  apply wp_bind, wp_buf_getint; [done| |intros; apply HE; lia]. intros. fold n.
  apply wp_bind, wp_exit_if; intros; [apply HE; lia|].
  set (pre := if incllen then STORE32H n else []).
  assert (Hpre : zlen pre = if incllen then 4 else 0) by (by destruct incllen).
  assert (Hpb : bytes_ok pre) by (destruct incllen; [apply STORE32H_bytes|constructor]).
  cbv zeta. rewrite <-Hpre.
  assert (0 ≤ zlen pre ≤ 4) by (destruct incllen; lia).
  assert (n ≤ 9000) by (unfold MAX_STRING_LEN, MAX_CMD_LEN in *; lia).
  rewrite u32_small by lia.
  apply wp_bind, wp_buf_new; [|unfold BUF_MAX_SIZE; lia]. intros Hsz.
  set (r0 := mkbuf _ 0 0 _). assert (Hr0 : wf_buf r0) by (apply wf_new; lia).
  apply wp_bind, wp_on_new.
  assert (Hhdr : ∀ (Q' : () → buffer → Prop), Q' tt (after_put pre r0) →
            wp (when incllen (buf_putint n)) E Q' r0).
  { intros Q' HQ'. apply wp_when; intros ->; unfold pre in *.
    - apply wp_buf_putint; [done|done|]. simpl. lia.
    - by rewrite after_put_nil in HQ' by done. }
  apply Hhdr. set (r1 := after_put pre r0).
  assert (Hr1 : wf_buf r1) by (apply wf_after_put; [done..|simpl; lia]).
  apply wp_bind, wp_on_new, wp_buf_getwriteptr; [done|lia| |simpl; lia]. intros _.
  apply wp_bind, wp_buf_getptr; [by apply wf_after_get; auto with lia|lia| |simpl; intros; apply HE; lia].
  simpl. intros.
  apply wp_bind, wp_mem_load; simpl; [lia..|].
  set (bs := slice (b_pos b + 4) n (b_data b)).
  assert (Hbs : zlen bs = n) by (apply zlen_slice; lia).
  assert (Hd1 : zlen (b_data r1) = zlen pre + n) by (destruct Hr1 as (_&_&->&_); simpl; lia).
  apply wp_bind, wp_on_new, wp_mem_store; [simpl; lia|rewrite Hd1, Hbs; simpl; lia|].
  apply wp_bind, wp_buf_incrpos; [by apply wf_after_get; auto with lia|lia| |simpl; lia]. intros _.
  apply wp_bind, wp_on_new, wp_bind.
  set (r2 := mkbuf _ _ _ _).
  assert (Hr2 : wf_buf r2).
  { destruct Hr1 as (?&?&?&?). subst r2. unfold wf_buf; simpl in *. split_and!; try lia.
    - rewrite zlen_splice; lia.
    - apply bytes_ok_splice; [done|]. by apply bytes_ok_slice. }
  apply wp_buf_incrlen; [done|lia| |simpl; lia]. intros _.
  apply wp_buf_setpos; [|simpl; lia]. intros _. apply wp_ret. rewrite after_get_get.
  replace (set_pos 0 _) with (buf_of (pre ++ bs)); [apply HQ; lia|].
  unfold buf_of, set_pos, set_len; simpl. rewrite zlen_app, Hbs. f_equal; [|lia..].
  unfold zeros. rewrite (Z.add_comm n), <-(app_nil_l (replicate _ _)), Z2Nat.inj_add, replicate_add by lia.
  rewrite splice_app_exact; [|done|rewrite length_replicate; unfold zlen in *; lia].
  rewrite <-(app_nil_r (replicate _ _)).
  rewrite app_nil_l, splice_app_exact; [by rewrite app_nil_r|lia|].
  rewrite length_replicate; unfold zlen in *; lia.
Qed.

Lemma wp_buf_getptrcopy n E Q b :
  wf_buf b → 0 ≤ n →
  (b_pos b + n ≤ b_len b → Q (buf_of (slice (b_pos b) n (b_data b))) b) →
  (b_len b < b_pos b + n → E "Bad buf_getptr"%string) →
  wp (buf_getptrcopy n) E Q b.
Proof.
  intros Hwf Hn HQ HE. pose proof Hwf as (?&?&Hd&Hb).
  apply wp_bind, wp_buf_getptr; [done|lia| |done]. intros.
  apply wp_bind, wp_mem_load; [lia..|]. set (bs := slice _ _ _).
  assert (Hbs : zlen bs = n) by (apply zlen_slice; lia).
  apply wp_bind, wp_buf_new; [|lia]. intros. apply wp_bind, wp_on_new, wp_bind.
  apply wp_buf_putbytes; [apply wf_new; lia|by apply bytes_ok_slice| |simpl; lia]. intros _.
  apply wp_buf_setpos; [|simpl; lia]. intros _. apply wp_ret.
  replace (set_pos 0 _) with (buf_of bs); [by apply HQ|].
  unfold buf_of, set_pos, after_put; simpl. rewrite <-Hbs, splice_zeros. f_equal. lia.
Qed.

(** ** Memory safety of every sequence of operations *)

Inductive buf_op :=
| OpSetlen (n : Z) | OpIncrlen (n : Z) | OpSetpos (n : Z) | OpIncrpos (n : Z)
| OpDecrpos (n : Z) | OpIncrwritepos (n : Z)
| OpReadptr (n : Z)            (* [buf_getptr(n)] and a read of [n] bytes *)
| OpWriteptr (bs : list Z)     (* [buf_getwriteptr(n)] and a write of [n] bytes *)
| OpGetbyte | OpGetbool | OpPutbyte (v : Z)
| OpGetint | OpPutint (v : Z) | OpPutbytes (bs : list Z) | OpPutstring (bs : list Z)
| OpPutbufstring (b : buffer)
| OpGetstring | OpGetstringbuf | OpGetbuf | OpGetptrcopy (n : Z) | OpEatstring
| OpPutmpint (mp : Z) | OpGetmpint
| OpResize (indet : Z → Z) (n : Z).

Definition discard {S A} (m : ST S A) : ST S unit := do* m; ret tt.

Definition run_op (op : buf_op) : ST buffer unit :=
  match op with
  | OpSetlen n => buf_setlen n
  | OpIncrlen n => buf_incrlen n
  | OpSetpos n => buf_setpos n
  | OpIncrpos n => buf_incrpos n
  | OpDecrpos n => buf_decrpos n
  | OpIncrwritepos n => buf_incrwritepos n
  | OpReadptr n => let* p := buf_getptr n in discard (mem_load p n)
  | OpWriteptr bs => let* p := buf_getwriteptr (zlen bs) in mem_store p bs
  | OpGetbyte => discard buf_getbyte
  | OpGetbool => discard buf_getbool
  | OpPutbyte v => buf_putbyte v
  | OpGetint => discard buf_getint
  | OpPutint v => buf_putint v
  | OpPutbytes bs => buf_putbytes bs
  | OpPutstring bs => buf_putstring bs
  | OpPutbufstring b => buf_putbufstring b
  | OpGetstring => discard buf_getstring
  | OpGetstringbuf => discard buf_getstringbuf
  | OpGetbuf => discard buf_getbuf
  | OpGetptrcopy n => discard (buf_getptrcopy n)
  | OpEatstring => buf_eatstring
  | OpPutmpint mp => buf_putmpint mp
  | OpGetmpint => discard buf_getmpint
  | OpResize indet n => let* b := get in let* b' := buf_resize indet n b in put b'
  end.

Fixpoint run_ops (ops : list buf_op) : ST buffer unit :=
  match ops with
  | [] => ret tt
  | op :: ops => do* run_op op; run_ops ops
  end.

(** The arguments have their C types: [unsigned int] counts, bytes. *)
Definition op_ok (op : buf_op) : Prop :=
  match op with
  | OpSetlen n | OpIncrlen n | OpSetpos n | OpIncrpos n | OpDecrpos n | OpIncrwritepos n
  | OpReadptr n | OpGetptrcopy n | OpResize _ n => u32_ok n
  | OpWriteptr bs | OpPutbytes bs | OpPutstring bs => bytes_ok bs
  | OpPutbufstring b => wf_buf b
  | _ => True
  end.

(** Weaken a specified operation to "still well-formed, any exit". *)
Ltac wf_by lem :=
  eapply lem; intros; try done; try (unfold u32_ok in *; lia);
  rewrite ?zlen_app, ?STORE32H_length, ?mpint_body_length in * by lia;
  try match goal with |- wp (ret _) _ _ _ => apply wp_ret end; eauto with buf lia.

Lemma wf_after_put_app l1 l2 b :
  wf_buf b → bytes_ok l1 → bytes_ok l2 → b_pos b + (zlen l1 + zlen l2) ≤ b_size b →
  wf_buf (after_put (l1 ++ l2) b).
Proof. intros. apply wf_after_put; [done|by apply bytes_ok_app|rewrite zlen_app; lia]. Qed.

Lemma bytes_ok_u8 v : bytes_ok [u8 v].
Proof. repeat constructor; apply u8_range. Qed.

#[export] Hint Resolve bytes_ok_u8 STORE32H_bytes mpint_body_bytes : buf.

Lemma run_op_safe op b :
  op_ok op → wf_buf b → wp (run_op op) any_exit (λ _ b', wf_buf b') b.
Proof.
  intros Hop Hwf. pose proof (slice_LOAD32H_ok b (b_pos b) Hwf) as Hn. unfold u32_ok in Hn.
  destruct op; simpl in Hop; unfold u32_ok in Hop; unfold run_op, discard;
    try match goal with |- wp (bind _ _) _ _ _ => apply wp_bind end.
  - wf_by wp_buf_setlen.
  - wf_by wp_buf_incrlen. apply wf_set_len; [done|]. destruct Hwf. lia.
  - wf_by wp_buf_setpos.
  - wf_by wp_buf_incrpos.
  - wf_by wp_buf_decrpos. apply wf_set_pos; [done|]. destruct Hwf. lia.
  - wf_by wp_buf_incrwritepos. revert Hwf. wf_buf_lia.
  - wf_by wp_buf_getptr. pose proof Hwf as (?&?&?&?). apply wp_bind, wp_mem_load; [lia..|done].
  - pose proof (zlen_nonneg bs). wf_by wp_buf_getwriteptr. pose proof Hwf as (?&?&?&?).
    apply wp_mem_store; [lia..|]. split_and!; simpl; try lia;
      [rewrite zlen_splice; lia|by apply bytes_ok_splice].
  - wf_by wp_buf_getbyte; try (apply wf_after_get; auto with lia).
  - unfold buf_getbool. apply wp_bind. wf_by wp_buf_getbyte;
    try (apply wf_after_get; auto with lia).
  - wf_by wp_buf_putbyte.
  - wf_by wp_buf_getint; try (apply wf_after_get; auto with lia).
  - wf_by wp_buf_putint.
  - wf_by wp_buf_putbytes.
  - wf_by wp_buf_putstring; apply wf_after_put_app; auto with buf.
  - unfold buf_putbufstring. fold (contents b0). pose proof (contents_bytes b0 Hop).
    wf_by wp_buf_putstring; apply wf_after_put_app; auto with buf.
  - wf_by wp_buf_getstring; try (apply wf_after_get; auto with lia).
  - wf_by wp_buf_getstringbuf_int; try (apply wf_after_get; auto with lia).
  - wf_by wp_buf_getstringbuf_int; try (apply wf_after_get; auto with lia).
  - wf_by wp_buf_getptrcopy.
  - wf_by wp_buf_eatstring; try (apply wf_after_get; auto with lia).
  - wf_by wp_buf_putmpint; apply wf_after_put_app; auto with buf.
    rewrite mpint_body_length by lia. done.
  - wf_by wp_buf_getmpint; apply wf_after_get; auto with lia.
  - apply wp_get, wp_bind, wp_buf_resize; [done|lia|by intros|done].
Qed.

Lemma run_ops_safe ops b :
  Forall op_ok ops → wf_buf b → wp (run_ops ops) any_exit (λ _ b', wf_buf b') b.
Proof.
  intros Hops. revert b. induction Hops as [|op ops Hop _ IH]; intros b Hwf; [done|].
  apply wp_bind. eapply wp_mono; [by apply run_op_safe|]. simpl. auto.
Qed.

(** ** SSH fields: what is put is what is got *)

Inductive field :=
| FByte (v : Z) | FBool (v : bool) | FInt (v : Z) | FString (s : list Z) | FMpint (mp : Z).

Inductive kind := KByte | KBool | KInt | KString | KMpint.

Definition kind_of (f : field) : kind :=
  match f with
  | FByte _ => KByte | FBool _ => KBool | FInt _ => KInt
  | FString _ => KString | FMpint _ => KMpint
  end.

Definition put_field (f : field) : ST buffer unit :=
  match f with
  | FByte v => buf_putbyte v
  | FBool v => buf_putbyte (if v then 1 else 0)
  | FInt v => buf_putint v
  | FString s => buf_putstring s
  | FMpint mp => buf_putmpint mp
  end.

(** [None] when [buf_getmpint] reports failure. *)
Definition get_field (k : kind) : ST buffer (option field) :=
  match k with
  | KByte => let* v := buf_getbyte in ret (Some (FByte v))
  | KBool => let* v := buf_getbool in ret (Some (FBool (v =? 1)))
  | KInt => let* v := buf_getint in ret (Some (FInt v))
  | KString => let* s := buf_getstring in ret (Some (FString s))
  | KMpint => let* mp := buf_getmpint in ret (option_map FMpint mp)
  end.

Fixpoint put_fields (fs : list field) : ST buffer unit :=
  match fs with [] => ret tt | f :: fs => do* put_field f; put_fields fs end.

Fixpoint get_fields (ks : list kind) : ST buffer (option (list field)) :=
  match ks with
  | [] => ret (Some [])
  | k :: ks =>
      let* f := get_field k in
      let* fs := get_fields ks in
      ret (match f, fs with Some f, Some fs => Some (f :: fs) | _, _ => None end)
  end.

(** Values that fit their wire type and the receiver's limits. *)
Definition field_ok (f : field) : Prop :=
  match f with
  | FByte v => byte_ok v
  | FBool _ => True
  | FInt v => u32_ok v
  | FString s => bytes_ok s ∧ zlen s ≤ MAX_STRING_LEN
  | FMpint mp => 0 ≤ mp ∧ mpint_len mp ≤ BUF_MAX_MPINT
  end.

Definition enc_field (f : field) : list Z :=
  match f with
  | FByte v => [u8 v]
  | FBool v => [u8 (if v then 1 else 0)]
  | FInt v => STORE32H v
  | FString s => STORE32H (zlen s) ++ s
  | FMpint mp => STORE32H (mpint_len mp) ++ mpint_body mp
  end.

Definition enc_fields (fs : list field) : list Z := concat (map enc_field fs).

Lemma enc_field_bytes f : field_ok f → bytes_ok (enc_field f).
Proof.
  destruct f; intros Hf; unfold enc_field; rewrite ?bytes_ok_app; auto with buf.
  destruct Hf. auto with buf.
Qed.

Lemma wp_put_field f Q b :
  wf_buf b → field_ok f → b_pos b + zlen (enc_field f) ≤ b_size b →
  Q tt (after_put (enc_field f) b) → wp (put_field f) no_exit Q b.
Proof.
  intros Hwf Hf Hr HQ. destruct f; cbn [enc_field field_ok put_field] in *.
  - change (zlen _) with 1 in Hr. apply wp_buf_putbyte; [done|done|lia].
  - change (zlen _) with 1 in Hr. apply wp_buf_putbyte; [done|done|lia].
  - change (zlen _) with 4 in Hr. apply wp_buf_putint; [done|done|lia].
  - rewrite zlen_app, STORE32H_length in Hr. apply wp_buf_putstring; [done|tauto|done|lia].
  - rewrite zlen_app, STORE32H_length, mpint_body_length in Hr by tauto.
    apply wp_buf_putmpint; [done|done|]. intros []. lia.
Qed.

Lemma wp_put_fields fs Q b :
  wf_buf b → Forall field_ok fs → b_pos b + zlen (enc_fields fs) ≤ b_size b →
  Q tt (after_put (enc_fields fs) b) → wp (put_fields fs) no_exit Q b.
Proof.
  intros Hwf Hfs. revert b Hwf. induction Hfs as [|f fs Hf _ IH]; intros b Hwf Hr HQ; simpl in *.
  - unfold enc_fields in HQ; simpl in HQ. by rewrite after_put_nil in HQ.
  - unfold enc_fields in *; simpl in *. rewrite zlen_app in Hr.
    pose proof (zlen_nonneg (concat (map enc_field fs))).
    assert (wf_buf (after_put (enc_field f) b))
      by (apply wf_after_put; [done|by apply enc_field_bytes|lia]).
    apply wp_bind, wp_put_field; [done|done|lia|].
    apply IH; [done|simpl; lia|]. rewrite <-after_put_app by (rewrite ?zlen_app; done || lia). done.
Qed.

(** [bs] is what the cursor of [b] points at. *)
Definition at_cursor (b : buffer) (bs : list Z) : Prop :=
  b_pos b + zlen bs ≤ b_len b ∧ slice (b_pos b) (zlen bs) (b_data b) = bs.

Lemma at_cursor_app b l1 l2 :
  wf_buf b → at_cursor b (l1 ++ l2) → at_cursor b l1 ∧ at_cursor (after_get (zlen l1) b) l2.
Proof.
  intros (?&?&?&?) [Hl Hs]. rewrite zlen_app in *.
  pose proof (zlen_nonneg l1). pose proof (zlen_nonneg l2).
  rewrite slice_app_split in Hs by lia. apply app_inj_1 in Hs as [Hs1 Hs2].
  - unfold at_cursor; simpl. split; split; try done; lia.
  - apply Nat2Z.inj. change (zlen (slice (b_pos b) (zlen l1) (b_data b)) = zlen l1).
    apply zlen_slice; lia.
Qed.

Lemma wp_get_field f Q b :
  wf_buf b → field_ok f → at_cursor b (enc_field f) →
  Q (Some f) (after_get (zlen (enc_field f)) b) →
  wp (get_field (kind_of f)) no_exit Q b.
Proof.
  intros Hwf Hf Hat HQ. destruct f as [v|v|v|s|mp]; cbn [enc_field field_ok get_field kind_of] in *.
  - destruct Hat as [Hl Hs]. change (zlen [u8 v]) with 1 in *.
    apply wp_bind, wp_buf_getbyte; [done| |lia]. intros. apply wp_ret.
    rewrite Hs. simpl. rewrite u8_small by (unfold byte_ok in Hf; lia). done.
  - destruct Hat as [Hl Hs]. change (zlen _) with 1 in *.
    apply wp_bind, wp_bind, wp_buf_getbyte; [done| |lia]. intros. apply wp_ret, wp_ret.
    rewrite Hs. by destruct v.
  - destruct Hat as [Hl Hs]. change (zlen _) with 4 in *.
    apply wp_bind, wp_buf_getint; [done| |lia]. intros. apply wp_ret.
    rewrite Hs, LOAD32H_STORE32H by done. done.
  - apply at_cursor_app in Hat as [[Hl Hs] [Hl2 Hs2]]; [|done].
    rewrite zlen_app in HQ. change (zlen (STORE32H _)) with 4 in *. simpl in Hl2, Hs2.
    destruct Hf as [Hb Hm]. unfold MAX_STRING_LEN, MAX_CMD_LEN in *. pose proof (zlen_nonneg s).
    apply wp_bind, wp_buf_getstring; [done|..]; rewrite Hs, LOAD32H_STORE32H by lia; intros.
    + apply wp_ret. rewrite Hs2. done.
    + unfold MAX_STRING_LEN, MAX_CMD_LEN in *. lia.
  - destruct Hf as [Hmp Hm]. apply at_cursor_app in Hat as [[Hl Hs] [Hl2 Hs2]]; [|done].
    rewrite zlen_app in HQ. change (zlen (STORE32H _)) with 4 in *. simpl in Hl2, Hs2.
    rewrite mpint_body_length in * by lia. pose proof (mpint_pad_01 mp).
    pose proof (mpint_len_nonneg mp Hmp). change BUF_MAX_MPINT with 1030 in *.
    assert (Hhd : 0 < mpint_len mp →
      nth 0 (slice (b_pos b + 4) 1 (b_data b)) 0 = nth 0 (mpint_body mp) 0).
    { intros. rewrite <-Hs2. replace (mpint_len mp) with (1 + (mpint_len mp - 1)) by lia.
      destruct Hwf as (?&?&?&?). rewrite slice_app_split by lia.
      rewrite app_nth1; [done|]. apply Nat2Z.inj_lt. change (0 < zlen (slice (b_pos b + 4) 1 (b_data b))).
      rewrite zlen_slice; lia. }
    assert (Hpos : 0 < mpint_len mp → 0 < mp).
    { unfold mpint_len. destruct (Z.eqb_spec mp 0); lia. }
    apply wp_bind, wp_buf_getmpint; [done|..]; rewrite Hs, LOAD32H_STORE32H by lia.
    + intros Hz ?. apply wp_ret. rewrite Hz in HQ. simpl.
      enough (mp = 0) by (subst; done). unfold mpint_len in Hz.
      destruct (Z.eqb_spec mp 0); [done|]. pose proof (mp_count_bits_pos mp ltac:(lia)).
      pose proof (Z.div_pos (mp_count_bits mp) 8). lia.
    + intros Hr ? Hneg. apply wp_ret. simpl. rewrite Hs2, mpint_body_value by lia. done.
    + intros ?? [Hbad|Hbad]; [change BUF_MAX_MPINT with 1030 in Hbad; lia|].
      exfalso. apply Hbad. rewrite Hhd by lia. apply mpint_body_positive. auto.
    + lia.
Qed.

Lemma wp_get_fields fs Q b :
  wf_buf b → Forall field_ok fs → at_cursor b (enc_fields fs) →
  Q (Some fs) (after_get (zlen (enc_fields fs)) b) →
  wp (get_fields (map kind_of fs)) no_exit Q b.
Proof.
  intros Hwf Hfs. revert b Q Hwf. induction Hfs as [|f fs Hf _ IH]; intros b Q Hwf Hat HQ.
  - unfold enc_fields in HQ; simpl in HQ. apply wp_ret. unfold after_get, set_pos in HQ.
    rewrite zlen_nil, Z.add_0_r in HQ. by destruct b.
  - unfold enc_fields in *; cbn [map concat get_fields] in *.
    apply at_cursor_app in Hat as [Hat1 Hat2]; [|done].
    apply wp_bind, wp_get_field; [done..|]. apply wp_bind, IH; [|done|].
    + destruct Hat1. apply wf_after_get; [done|apply zlen_nonneg|done].
    + apply wp_ret. rewrite after_get_get. by rewrite zlen_app in HQ.
Qed.

Lemma at_cursor_after_put bs b :
  wf_buf b → b_pos b + zlen bs ≤ b_size b →
  at_cursor (set_pos (b_pos b) (after_put bs b)) bs.
Proof.
  intros (?&?&?&?) ?. pose proof (zlen_nonneg bs). unfold at_cursor; simpl. split; [lia|].
  apply slice_splice_same; lia.
Qed.

(** ** The properties of the buffer *)

(** C38: Memory safety of the buffer.  From [buf_new] on, no sequence of
    buffer operations, whatever their arguments, reads or writes outside the
    allocation; a violated bound leaves through [dropbear_exit], and the
    invariant [pos <= len <= size] with [size] bytes of data holds after
    every prefix of the sequence. *)
Theorem buffer_sequences_safe (size : Z) (ops : list buf_op) :
  u32_ok size → Forall op_ok ops →
  wp (let* b := buf_new size in on_new b (run_ops ops)) any_exit
     (λ r (_ : unit), wf_buf r.2) tt.
Proof.
  intros Hs Hops. unfold u32_ok in Hs. apply wp_bind, wp_buf_new; [|done]. intros.
  apply wp_on_new. eapply wp_mono; [apply run_ops_safe; auto with buf|done].
  apply wf_new. lia.
Qed.

Lemma buffer_sequences_safe_witness :
  wp (let* b := buf_new 16 in
      on_new b (run_ops [OpPutint 7; OpPutstring [104; 105]; OpSetpos 0; OpGetint; OpGetstring]))
     any_exit (λ r (_ : unit), wf_buf r.2) tt.
Proof.
  apply (buffer_sequences_safe 16); [unfold u32_ok; lia|].
  repeat constructor; unfold op_ok, u32_ok, byte_ok; lia.
Defined.

(** C39: Wire round trip.  Any list of SSH fields (bytes, booleans, uint32,
    strings, mpints) that fits the buffer is written without error, and
    reading the same field types back from where the cursor was returns the
    same values and leaves the cursor after them.  This is the encoding of
    every SSH message Dropbear builds and parses. *)
Theorem fields_roundtrip (fs : list field) (b : buffer) :
  wf_buf b → Forall field_ok fs → b_pos b + zlen (enc_fields fs) ≤ b_size b →
  wp (let* p := gets b_pos in
      do* put_fields fs;
      do* buf_setpos p;
      get_fields (map kind_of fs)) no_exit
     (λ r b', r = Some fs ∧ b_pos b' = b_pos b + zlen (enc_fields fs) ∧ wf_buf b') b.
Proof.
  intros Hwf Hfs Hr. pose proof Hwf as (?&?&?&?). pose proof (zlen_nonneg (enc_fields fs)).
  apply wp_bind, wp_gets, wp_bind, wp_put_fields; [done..|].
  assert (Hw1 : wf_buf (after_put (enc_fields fs) b)).
  { apply wf_after_put; [done| |done]. unfold enc_fields. apply Forall_concat, Forall_map.
    eapply Forall_impl; [done|]. apply enc_field_bytes. }
  apply wp_bind, wp_buf_setpos; [|simpl; lia]. intros Hp.
  assert (wf_buf (set_pos (b_pos b) (after_put (enc_fields fs) b))) by (apply wf_set_pos; [done|lia]).
  apply wp_get_fields; [done..|by apply at_cursor_after_put|].
  split_and!; [done|done|]. apply wf_after_get; [done|lia|simpl; lia].
Qed.

Lemma fields_roundtrip_witness :
  wp (let* p := gets b_pos in
      do* put_fields [FByte 50; FString [114; 111]; FBool true; FMpint 255; FInt 65536];
      do* buf_setpos p;
      get_fields [KByte; KString; KBool; KMpint; KInt]) no_exit
     (λ r b', r = Some [FByte 50; FString [114; 111]; FBool true; FMpint 255; FInt 65536] ∧
              b_pos b' = 18 ∧ wf_buf b') (mkbuf (zeros 40) 0 0 40).
Proof.
  apply (fields_roundtrip
    [FByte 50; FString [114; 111]; FBool true; FMpint 255; FInt 65536] (mkbuf (zeros 40) 0 0 40)).
  - apply wf_new. unfold BUF_MAX_SIZE. lia.
  - repeat constructor; simpl; unfold byte_ok, u32_ok; try lia; vm_compute; congruence.
  - vm_compute. congruence.
Defined.

(** *** Messages written field by field *)

(** A buffer that is written from the front and holds [acc]. *)
Definition buf_acc (acc : list Z) (b : buffer) : Prop := wf_buf b ∧ b_pos b = b_len b ∧ contents b = acc.

Lemma buf_acc_put acc w b :
  buf_acc acc b → bytes_ok w → zlen acc + zlen w ≤ b_size b →
  buf_acc (acc ++ w) (after_put w b).
Proof.
  intros (Hwf&Hp&Hc) Hb Hr. pose proof (contents_length b Hwf) as Hl. rewrite Hc in Hl.
  pose proof (zlen_nonneg w). split_and!.
  - apply wf_after_put; [done|done|lia].
  - cbn [after_put b_pos b_len]. lia.
  - rewrite contents_append by (done || lia). by rewrite Hc.
Qed.

Lemma buf_acc_pos acc b : buf_acc acc b → b_pos b = zlen acc.
Proof. intros (Hwf&Hp&<-). by rewrite contents_length. Qed.

Lemma buf_acc_new n : 0 ≤ n ≤ BUF_MAX_SIZE → buf_acc [] (mkbuf (zeros n) 0 0 n).
Proof. intros. split_and!; [by apply wf_new|done|apply slice_0]. Qed.

(** [m] writes [w] at the cursor. *)
Definition puts (m : ST buffer unit) (w : list Z) : Prop :=
  bytes_ok w ∧ ∀ b E (Q : unit → buffer → Prop),
    wf_buf b → b_pos b + zlen w ≤ b_size b → Q tt (after_put w b) → wp m E Q b.

Lemma puts_byte v : byte_ok v → puts (buf_putbyte v) [v].
Proof.
  intros Hv. split; [by apply Forall_singleton|]. intros b E Q Hwf Hr HQ. change (zlen [v]) with 1 in Hr.
  apply wp_buf_putbyte; [done| |lia]. intros _. unfold byte_ok in Hv. by rewrite u8_small by lia.
Qed.

Lemma puts_int v : puts (buf_putint v) (STORE32H v).
Proof.
  split; [apply STORE32H_bytes|]. intros b E Q Hwf Hr HQ. rewrite STORE32H_length in Hr.
  apply wp_buf_putint; [done|done|lia].
Qed.

Lemma puts_string str : bytes_ok str → zlen str < 2 ^ 32 → puts (buf_putstring str) (STORE32H (zlen str) ++ str).
Proof.
  intros Hs Hl. split; [by apply bytes_ok_app; split; [apply STORE32H_bytes|]|]. intros b E Q Hwf Hr HQ.
  rewrite zlen_app, STORE32H_length in Hr. apply wp_buf_putstring; [done|done|done|lia].
Qed.

Lemma puts_empty_string : puts (buf_putstring []) (STORE32H 0).
Proof.
  split; [apply STORE32H_bytes|]. intros b E Q Hwf Hr HQ. rewrite STORE32H_length in Hr.
  apply wp_buf_putstring; [done|constructor| |rewrite zlen_nil; lia]. intros _.
  change (STORE32H (zlen []) ++ []) with (STORE32H 0 ++ []). by rewrite app_nil_r.
Qed.

Lemma puts_bytes bs : bytes_ok bs → puts (buf_putbytes bs) bs.
Proof. intros Hb. split; [done|]. intros b E Q Hwf Hr HQ. apply wp_buf_putbytes; [done|done|done|lia]. Qed.

Lemma puts_mpint mp : 0 ≤ mp → puts (buf_putmpint mp) (STORE32H (mpint_len mp) ++ mpint_body mp).
Proof.
  intros Hmp. split; [apply bytes_ok_app; split; [apply STORE32H_bytes|apply mpint_body_bytes]|].
  intros b E Q Hwf Hr HQ. rewrite zlen_app, STORE32H_length, mpint_body_length in Hr by done.
  apply wp_buf_putmpint; [done|done|lia].
Qed.

Lemma puts_seq m1 m2 w1 w2 : puts m1 w1 → puts m2 w2 → puts (do* m1; m2) (w1 ++ w2).
Proof.
  intros [Hb1 H1] [Hb2 H2]. split; [by apply bytes_ok_app|]. intros b E Q Hwf Hr HQ.
  rewrite zlen_app in Hr. pose proof (zlen_nonneg w1). pose proof (zlen_nonneg w2).
  apply wp_bind, H1; [done|lia|]. apply H2; [apply wf_after_put; [done|done|lia]|cbn [after_put b_pos b_size]; lia|].
  rewrite <-after_put_app by (rewrite ?zlen_app; done || lia). exact HQ.
Qed.

(** A [puts] that extends what is written so far. *)
Lemma wp_acc m w acc E (Q : unit → buffer → Prop) b :
  puts m w → buf_acc acc b → zlen acc + zlen w ≤ b_size b →
  (∀ b', buf_acc (acc ++ w) b' → b_size b' = b_size b → Q tt b') → wp m E Q b.
Proof.
  intros [Hb Hm] Hacc Hr HQ. pose proof (buf_acc_pos _ _ Hacc). apply Hm; [apply Hacc|lia|].
  apply HQ; [|done]. by apply buf_acc_put.
Qed.

(** [m] writes [w] after what is there, or the session ends for want of
    room. *)
Definition appends (m : ST buffer unit) (w : list Z) : Prop :=
  bytes_ok w ∧ ∀ E acc (Q : unit → buffer → Prop) b,
    buf_acc acc b → (∀ b', buf_acc (acc ++ w) b' → b_size b' = b_size b → Q tt b') →
    (b_size b < zlen acc + zlen w → ∀ e, E e) → wp m E Q b.

Lemma appends_bytes bs : bytes_ok bs → appends (buf_putbytes bs) bs.
Proof.
  intros Hb. split; [done|]. intros E acc Q b Hacc HQ HE. pose proof (buf_acc_pos _ _ Hacc).
  apply wp_buf_putbytes; [apply Hacc|done| |intros; apply HE; lia].
  intros Hl. apply HQ; [|done]. apply buf_acc_put; [done|done|lia].
Qed.

Lemma appends_byte c : byte_ok c → appends (buf_putbyte c) [c].
Proof.
  intros Hc. split; [by apply Forall_singleton|]. intros E acc Q b Hacc HQ HE. pose proof (buf_acc_pos _ _ Hacc).
  change (zlen [c]) with 1 in HE.
  apply wp_buf_putbyte; [apply Hacc| |intros; apply HE; lia]. intros Hl. unfold byte_ok in Hc. rewrite u8_small by lia.
  apply HQ; [|done]. apply buf_acc_put; [done|by apply Forall_singleton|]. change (zlen [c]) with 1. lia.
Qed.

Lemma appends_int v : appends (buf_putint v) (STORE32H v).
Proof. apply appends_bytes, STORE32H_bytes. Qed.

Lemma appends_string str : bytes_ok str → appends (buf_putstring str) (STORE32H (zlen str) ++ str).
Proof.
  intros Hs. assert (Hb : bytes_ok (STORE32H (zlen str) ++ str)) by (apply bytes_ok_app; split; [apply STORE32H_bytes|done]).
  split; [done|]. intros E acc Q b Hacc HQ HE. pose proof (buf_acc_pos _ _ Hacc). rewrite zlen_app, STORE32H_length in HE.
  apply wp_buf_putstring; [apply Hacc|done| |intros; apply HE; lia]. intros Hl. apply HQ; [|done].
  apply buf_acc_put; [done|done|]. rewrite zlen_app, STORE32H_length. lia.
Qed.

Lemma appends_mpint mp : 0 ≤ mp → appends (buf_putmpint mp) (STORE32H (mpint_len mp) ++ mpint_body mp).
Proof.
  intros Hmp. assert (Hb : bytes_ok (STORE32H (mpint_len mp) ++ mpint_body mp)).
  { apply bytes_ok_app; split; [apply STORE32H_bytes|apply mpint_body_bytes]. }
  split; [done|]. intros E acc Q b Hacc HQ HE. pose proof (buf_acc_pos _ _ Hacc).
  rewrite zlen_app, STORE32H_length, mpint_body_length in HE by done.
  apply wp_buf_putmpint; [apply Hacc| |intros Hn; apply HE; lia]. intros _ Hl. apply HQ; [|done].
  apply buf_acc_put; [done|done|]. rewrite zlen_app, STORE32H_length, mpint_body_length by done. lia.
Qed.

Lemma appends_seq m1 m2 w1 w2 : appends m1 w1 → appends m2 w2 → appends (do* m1; m2) (w1 ++ w2).
Proof.
  intros [Hb1 H1] [Hb2 H2]. split; [by apply bytes_ok_app|]. intros E acc Q b Hacc HQ HE.
  rewrite zlen_app in HE. pose proof (zlen_nonneg w2).
  apply wp_bind. eapply H1; [exact Hacc| |intros; apply HE; lia]. intros b1 Hacc1 Hs1. eapply H2; [exact Hacc1| |].
  - intros b2 Hacc2 Hs2. apply HQ; [by rewrite app_assoc|congruence].
  - rewrite zlen_app, Hs1. intros. apply HE. lia.
Qed.

Lemma appends_ret : appends (ret tt) [].
Proof. split; [constructor|]. intros E acc Q b Hacc HQ _. apply wp_ret, HQ; [by rewrite app_nil_r|done]. Qed.

(** [buf_putbytes] written out, before more code. *)
Lemma wp_store_then {A} bs n (k : ST buffer A) E Q b :
  wf_buf b → bytes_ok bs → zlen bs = n → b_pos b + n ≤ b_size b → wp k E Q (after_put bs b) →
  wp (let* p := buf_getwriteptr n in do* mem_store p bs; do* buf_incrwritepos n; k) E Q b.
Proof.
  intros Hwf Hb <- Hr HQ.
  assert (H : wp (do* buf_putbytes bs; k) E Q b) by (apply wp_bind, wp_buf_putbytes; [done|done|done|lia]).
  apply wp_bind_inv in H. unfold buf_putbytes in H. apply wp_bind_inv in H.
  apply wp_bind. eapply wp_mono; [exact H|]. intros p b1 H1. apply wp_bind_inv in H1. apply wp_bind.
  eapply wp_mono; [exact H1|]. intros [] b2 H2. by apply wp_bind.
Qed.

(** What a run of [puts] code leaves in a buffer of its own. *)
Lemma puts_fresh {S} m w n E (Q : unit * buffer → S → Prop) (s : S) :
  puts m w → zlen w ≤ n ≤ BUF_MAX_SIZE → 
  (∀ b, buf_acc w b → b_size b = n → Q (tt, b) s) → wp (on_new (mkbuf (zeros n) 0 0 n) m) E Q s.
Proof.
  intros [Hb Hm] Hn HQ. pose proof (zlen_nonneg w). pose proof (buf_acc_new n ltac:(lia)) as Hnew.
  apply wp_on_new, Hm; [apply Hnew|cbn; lia|]. apply HQ; [|done].
  apply (buf_acc_put [] w); [done|done|cbn; rewrite ?zlen_nil; lia].
Qed.

(** Reading a field that is known to be next. *)
Lemma wp_at_string s E (Q : list Z → buffer → Prop) b :
  wf_buf b → field_ok (FString s) → at_cursor b (enc_field (FString s)) →
  Q s (after_get (zlen (enc_field (FString s))) b) → wp buf_getstring E Q b.
Proof.
  intros Hwf Hf Hat HQ.
  pose proof (wp_get_field (FString s) (λ o b', o = Some (FString s) ∧ b' = after_get (zlen (enc_field (FString s))) b) b
    Hwf Hf Hat ltac:(done)) as H. apply wp_bind_inv in H.
  eapply wp_mono; [eapply wp_exit_mono; [exact H|by intros ?]|]. by intros s' b' [[= ->] ->].
Qed.

Lemma wp_at_int v E (Q : Z → buffer → Prop) b :
  wf_buf b → field_ok (FInt v) → at_cursor b (enc_field (FInt v)) → Q v (after_get 4 b) → wp buf_getint E Q b.
Proof.
  intros Hwf Hf Hat HQ.
  pose proof (wp_get_field (FInt v) (λ o b', o = Some (FInt v) ∧ b' = after_get (zlen (enc_field (FInt v))) b) b
    Hwf Hf Hat ltac:(done)) as H. apply wp_bind_inv in H.
  eapply wp_mono; [eapply wp_exit_mono; [exact H|by intros ?]|]. by intros s' b' [[= ->] ->].
Qed.

Lemma wp_at_mpint v E (Q : option Z → buffer → Prop) b :
  wf_buf b → field_ok (FMpint v) → at_cursor b (enc_field (FMpint v)) →
  Q (Some v) (after_get (zlen (enc_field (FMpint v))) b) → wp buf_getmpint E Q b.
Proof.
  intros Hwf Hf Hat HQ.
  pose proof (wp_get_field (FMpint v) (λ o b', o = Some (FMpint v) ∧ b' = after_get (zlen (enc_field (FMpint v))) b) b
    Hwf Hf Hat ltac:(done)) as H. apply wp_bind_inv in H.
  eapply wp_mono; [eapply wp_exit_mono; [exact H|by intros ?]|].
  intros [v'|] b' Hw; unfold wp in Hw; destruct Hw as [Hw ->]; [by injection Hw as ->|done].
Qed.

(** The buffer holds [wire] up to [rest], and has room for it. *)
Definition filling (wire rest : list Z) (b : buffer) : Prop :=
  ∃ acc, buf_acc acc b ∧ acc ++ rest = wire ∧ zlen wire ≤ b_size b.

Lemma filling_put w wire rest b :
  filling wire (w ++ rest) b → bytes_ok w →
  wf_buf b ∧ b_pos b + zlen w ≤ b_size b ∧ filling wire rest (after_put w b).
Proof.
  intros (acc&Hacc&Heq&Hl) Hb. pose proof (buf_acc_pos _ _ Hacc) as Hp. rewrite <-Heq, !zlen_app in Hl.
  pose proof (zlen_nonneg rest). split_and!; [apply Hacc|lia|].
  exists (acc ++ w). split_and!; [apply buf_acc_put; [done|done|lia]|by rewrite <-app_assoc|].
  cbn [after_put b_size]. rewrite <-Heq, !zlen_app. lia.
Qed.

(** *** Reading forwards *)

Section scanning.
Implicit Types (b : buffer).

(** A scan that only moves the cursor forward. *)
Definition scanned b b' : Prop := wf_buf b' ∧ ∃ n, 0 ≤ n ∧ b' = set_pos (b_pos b + n) b.

Lemma scanned_refl b : wf_buf b → scanned b b.
Proof. intros H. split; [done|]. exists 0. split; [done|]. rewrite Z.add_0_r. by destruct b. Qed.

Lemma scanned_get n b : wf_buf b → 0 ≤ n → b_pos b + n ≤ b_len b → scanned b (after_get n b).
Proof. intros Hwf Hn Hl. split; [by apply wf_after_get|]. by exists n. Qed.

Lemma scanned_trans b1 b2 b3 : scanned b1 b2 → scanned b2 b3 → scanned b1 b3.
Proof.
  intros [_ (n&Hn&->)] [H3 (m&Hm&->)]. split; [done|]. exists (n + m). split; [lia|].
  unfold set_pos. cbn. by rewrite Z.add_assoc.
Qed.

Lemma scanned_same b b' : scanned b b' → b_len b' = b_len b ∧ b_data b' = b_data b ∧ b_pos b ≤ b_pos b' ∧ wf_buf b'.
Proof. intros [Hwf (n&Hn&->)]. cbn. split_and!; [done|done|lia|done]. Qed.

Lemma nth_slice1 off (l : list Z) : 0 ≤ off → nth 0 (slice off 1 l) 0 = nth (Z.to_nat off) l 0.
Proof.
  intros. unfold slice. change (Z.to_nat 1) with 1%nat. rewrite <-(Nat.add_0_r (Z.to_nat off)) at 2.
  rewrite <-nth_skipn. by destruct (drop (Z.to_nat off) l).
Qed.

Lemma wp_getbyte_in b (Q : Z → buffer → Prop) E :
  wf_buf b → b_pos b < b_len b → Q (nth (Z.to_nat (b_pos b)) (b_data b) 0) (after_get 1 b) → wp buf_getbyte E Q b.
Proof.
  intros Hwf Hl HQ. apply wp_buf_getbyte; [done| |lia]. intros _. rewrite nth_slice1; [done|]. destruct Hwf. lia.
Qed.

Lemma scanned_1 b : wf_buf b → b_pos b < b_len b → scanned b (after_get 1 b).
Proof. intros. apply scanned_get; [done|lia..]. Qed.
End scanning.

(** Overflow behaviour of the guards.  For a well-formed buffer and any
    32-bit argument, each cursor operation succeeds exactly when the bound
    holds over the unbounded integers: although the code computes
    [pos + incr] modulo 2^32, no wrapped sum is ever accepted. *)
Theorem buffer_guards_exact (b : buffer) (n : Z) :
  wf_buf b → u32_ok n →
  ((∃ b', buf_incrpos n b = Ok (tt, b')) ↔ b_pos b + n ≤ b_len b) ∧
  ((∃ b', buf_incrlen n b = Ok (tt, b')) ↔ b_len b + n ≤ b_size b) ∧
  ((∃ b', buf_incrwritepos n b = Ok (tt, b')) ↔ b_pos b + n ≤ b_size b) ∧
  ((∃ p, buf_getptr n b = Ok (p, b)) ↔ b_pos b + n ≤ b_len b) ∧
  ((∃ p, buf_getwriteptr n b = Ok (p, b)) ↔ b_pos b + n ≤ b_size b).
Proof.
  intros Hwf Hn. unfold u32_ok in Hn.
  unfold buf_incrpos, buf_incrlen, buf_incrwritepos, buf_getptr, buf_getwriteptr,
    bind, get, exit_if, put, ret.
  rewrite !guard_exact by (revert Hwf; wf_buf_lia).
  destruct (Z.leb_spec (b_pos b + n) (b_len b)), (Z.leb_spec (b_len b + n) (b_size b)),
    (Z.leb_spec (b_pos b + n) (b_size b)); simpl; split_and!;
    split; intros; first [done|lia|solve [eauto]|
      match goal with H : ∃ _, _ |- _ => destruct H; discriminate end].
Qed.

Lemma buffer_guards_exact_witness :
  (∃ b', buf_incrpos 4294967295 (mkbuf (zeros 8) 4 2 8) = Ok (tt, b')) ↔ 2 + 4294967295 ≤ 4.
Proof.
  apply (buffer_guards_exact (mkbuf (zeros 8) 4 2 8) 4294967295).
  - split_and!; simpl; try (unfold BUF_MAX_SIZE; lia); [done|apply bytes_ok_zeros].
  - unfold u32_ok. lia.
Defined.
