(* ===== verification/CircBuffer.v ===== *)
(** * The circular buffer of a channel (src/src/circbuffer.c)

    A [circbuffer] keeps the bytes received for a channel until they can be
    written to the local file descriptor.  The model keeps the four machine
    words and the lazily allocated region; reading or writing through a
    pointer outside the region, or dividing by a zero size, is a [Fault].

    The abstract specification is a bounded byte queue: [cbuf_contents] is
    the queue a state represents, and the theorems show that writing appends,
    that consuming drops, that the two read segments are the queue in order
    and that the assertions of [cbuf_writelen] always hold. *)

From Stdlib Require Import ZArith Lia.
From stdpp Require Import base list strings.
From S2P Require Import Prelude.

Definition MAX_CBUF_SIZE : Z := 100000000.

Record circbuffer := mkcbuf {
  cb_size : Z;
  cb_readpos : Z;
  cb_writepos : Z;
  cb_used : Z;
  cb_data : option (list Z)
}.

Definition cbuf_new {S} (size : Z) : ST S circbuffer :=
  do* exit_if (size >? MAX_CBUF_SIZE) "Bad cbuf size";
  ret (mkcbuf size 0 0 0 None).

Definition cbuf_getused (cb : circbuffer) : Z := cb_used cb.
Definition cbuf_getavail (cb : circbuffer) : Z := u32 (cb_size cb - cb_used cb).

(** [a % b] on unsigned operands. *)
Definition umod {S} (a b : Z) : ST S Z :=
  if b =? 0 then fault "division by zero" else ret (u32 a mod b).

Definition cbuf_writelen : ST circbuffer Z :=
  let* cb := get in
  do* dropbear_assert (cb_used cb <=? cb_size cb) "cbuf->used <= cbuf->size";
  let* m1 := umod (2 * cb_size cb + cb_writepos cb - cb_readpos cb) (cb_size cb) in
  let* m2 := umod (cb_used cb) (cb_size cb) in
  do* dropbear_assert (m1 =? m2) "writepos - readpos is used";
  let* m3 := umod (2 * cb_size cb + cb_readpos cb - cb_writepos cb) (cb_size cb) in
  let* m4 := umod (cb_size cb - cb_used cb) (cb_size cb) in
  do* dropbear_assert (m3 =? m4) "readpos - writepos is available";
  if cb_used cb =? cb_size cb then ret 0
  else if cb_writepos cb <? cb_readpos cb then ret (u32 (cb_readpos cb - cb_writepos cb))
  else ret (u32 (cb_size cb - cb_writepos cb)).

(** The offsets and lengths of the two readable segments; [None] is the null
    pointer. *)
Definition cbuf_readptrs (cb : circbuffer) : Z * Z * option Z * Z :=
  let len1 := Z.min (cb_used cb) (u32 (cb_size cb - cb_readpos cb)) in
  if len1 <? cb_used cb
  then (cb_readpos cb, len1, Some 0, u32 (cb_used cb - len1))
  else (cb_readpos cb, len1, None, 0).

Definition cbuf_writeptr (len : Z) : ST circbuffer Z :=
  let* wl := cbuf_writelen in
  do* exit_if (len >? wl) "Bad cbuf write";
  let* cb := get in
  do* match cb_data cb with
      | None => put (mkcbuf (cb_size cb) (cb_readpos cb) (cb_writepos cb) (cb_used cb)
                       (Some (zeros (cb_size cb))))
      | Some _ => ret tt
      end;
  ret (cb_writepos cb).

Definition cbuf_incrwrite (len : Z) : ST circbuffer unit :=
  let* wl := cbuf_writelen in
  do* exit_if (len >? wl) "Bad cbuf write";
  let* cb := get in
  let used := u32 (cb_used cb + len) in
  do* dropbear_assert (used <=? cb_size cb) "cbuf->used <= cbuf->size";
  let* wp := umod (cb_writepos cb + len) (cb_size cb) in
  put (mkcbuf (cb_size cb) (cb_readpos cb) wp used (cb_data cb)).

Definition cbuf_incrread (len : Z) : ST circbuffer unit :=
  let* cb := get in
  do* dropbear_assert (cb_used cb >=? len) "cbuf->used >= len";
  let* rp := umod (cb_readpos cb + len) (cb_size cb) in
  put (mkcbuf (cb_size cb) rp (cb_writepos cb) (u32 (cb_used cb - len)) (cb_data cb)).

(** Accesses through the pointers. *)
Definition cbuf_load (off n : Z) : ST circbuffer (list Z) := λ cb,
  if n =? 0 then Ok ([], cb) else
  match cb_data cb with
  | None => Fault "null pointer"
  | Some d => if (0 <=? off) && (0 <=? n) && (off + n <=? zlen d)
              then Ok (slice off n d, cb) else Fault "read outside the circular buffer"
  end.

Definition cbuf_store (off : Z) (bs : list Z) : ST circbuffer unit := λ cb,
  match cb_data cb with
  | None => Fault "null pointer"
  | Some d => if (0 <=? off) && (off + zlen bs <=? zlen d)
              then Ok (tt, mkcbuf (cb_size cb) (cb_readpos cb) (cb_writepos cb) (cb_used cb)
                             (Some (splice off bs d)))
              else Fault "write outside the circular buffer"
  end.

(** The two segments as a reader of the pointers sees them (the [iovec]s a
    channel hands to [writev]). *)
Definition cbuf_read_segments : ST circbuffer (list Z * list Z) :=
  let* cb := get in
  let '(p1, len1, p2, len2) := cbuf_readptrs cb in
  let* s1 := cbuf_load p1 len1 in
  let* s2 := match p2 with Some p => cbuf_load p len2 | None => ret [] end in
  ret (s1, s2).

(** The write idiom: [memcpy(cbuf_writeptr(cbuf, n), src, n);
    cbuf_incrwrite(cbuf, n)]. *)
Definition cbuf_write (bs : list Z) : ST circbuffer unit :=
  let* p := cbuf_writeptr (zlen bs) in
  do* cbuf_store p bs;
  cbuf_incrwrite (zlen bs).

(** ** Representation *)

Definition cbuf_contents (cb : circbuffer) : list Z :=
  match cb_data cb with
  | None => []
  | Some d => slice (cb_readpos cb) (cb_used cb) (d ++ d)
  end.

Definition wf_cbuf (cb : circbuffer) : Prop :=
  0 < cb_size cb ≤ MAX_CBUF_SIZE ∧
  0 ≤ cb_readpos cb < cb_size cb ∧
  0 ≤ cb_writepos cb < cb_size cb ∧
  0 ≤ cb_used cb ≤ cb_size cb ∧
  (cb_readpos cb + cb_used cb = cb_writepos cb ∨
   cb_readpos cb + cb_used cb = cb_writepos cb + cb_size cb) ∧
  match cb_data cb with
  | None => cb_used cb = 0
  | Some d => zlen d = cb_size cb ∧ bytes_ok d
  end.

(** The largest contiguous write. *)
Definition cbuf_room (cb : circbuffer) : Z :=
  if cb_used cb =? cb_size cb then 0
  else if cb_writepos cb <? cb_readpos cb then cb_readpos cb - cb_writepos cb
  else cb_size cb - cb_writepos cb.

Section cbuf_lemmas.
Implicit Types (cb : circbuffer) (E : string → Prop).

Lemma umod_ok {S} a b E (Q : Z → S → Prop) s :
  0 < b → 0 ≤ a < 2 ^ 32 → Q (a mod b) s → wp (umod a b) E Q s.
Proof.
  intros Hb Ha HQ. unfold umod. if_false. rewrite u32_small by done. done.
Qed.

(** Two residues that differ by a multiple of the size. *)
Lemma mod_shift a b n k : 0 < n → a = b + k * n → a mod n = b mod n.
Proof. intros ? ->. by rewrite Z.mod_add by lia. Qed.

Lemma wp_cbuf_writelen E Q cb :
  wf_cbuf cb → Q (cbuf_room cb) cb → wp cbuf_writelen E Q cb.
Proof.
  intros (Hs & Hr & Hw & Hu & Hrel & Hd) HQ. unfold MAX_CBUF_SIZE in Hs.
  apply wp_bind, wp_get, wp_bind, wp_assert; [lia|]. intros _.
  apply wp_bind, umod_ok; [lia..|]. apply wp_bind, umod_ok; [lia..|].
  assert (∃ k, cb_writepos cb - cb_readpos cb = cb_used cb + k * cb_size cb) as [k Hk]
    by (destruct Hrel; [exists 0|exists (-1)]; lia).
  apply wp_bind, wp_assert; intros Hm.
  { apply Z.eqb_neq in Hm. destruct Hm. apply mod_shift with (2 + k); lia. }
  apply wp_bind, umod_ok; [lia..|]. apply wp_bind, umod_ok; [lia..|].
  apply wp_bind, wp_assert; intros Hm'.
  { apply Z.eqb_neq in Hm'. destruct Hm'. apply mod_shift with (1 - k); lia. }
  unfold cbuf_room in HQ. revert HQ.
  destruct (Z.eqb_spec (cb_used cb) (cb_size cb)); [by intros; apply wp_ret|].
  destruct (Z.ltb_spec (cb_writepos cb) (cb_readpos cb)); intros; apply wp_ret;
    by rewrite u32_small by lia.
Qed.

Lemma cbuf_room_bounds cb :
  wf_cbuf cb → 0 ≤ cbuf_room cb ≤ cb_size cb - cb_used cb ∧
  (cb_used cb < cb_size cb → 0 < cbuf_room cb).
Proof.
  intros (Hs & Hr & Hw & Hu & Hrel & Hd). unfold cbuf_room.
  destruct (Z.eqb_spec (cb_used cb) (cb_size cb)); [lia|].
  destruct (Z.ltb_spec (cb_writepos cb) (cb_readpos cb)); lia.
Qed.

Lemma cbuf_room_fit cb n :
  wf_cbuf cb → n ≤ cbuf_room cb →
  cb_writepos cb + n ≤ cb_size cb ∧
  (cb_readpos cb + cb_used cb = cb_writepos cb + cb_size cb →
   cb_writepos cb + n ≤ cb_readpos cb).
Proof.
  intros (Hs & Hr & Hw & Hu & Hrel & Hd). unfold cbuf_room.
  destruct (Z.eqb_spec (cb_used cb) (cb_size cb)); [lia|].
  destruct (Z.ltb_spec (cb_writepos cb) (cb_readpos cb)); lia.
Qed.

(** Once the contiguous room is filled, whatever is still free is
    contiguous. *)
Lemma cbuf_room_after cb cb' :
  wf_cbuf cb → wf_cbuf cb' → cb_size cb' = cb_size cb → cb_readpos cb' = cb_readpos cb →
  cb_used cb' = cb_used cb + cbuf_room cb → cbuf_room cb' = cb_size cb' - cb_used cb'.
Proof.
  intros (Hs & Hr & Hw & Hu & Hrel & _) (Hs' & Hr' & Hw' & Hu' & Hrel' & _) Hs1 Hr1.
  unfold cbuf_room.
  destruct (Z.eqb_spec (cb_used cb) (cb_size cb)),
    (Z.ltb_spec (cb_writepos cb) (cb_readpos cb)), (Z.eqb_spec (cb_used cb') (cb_size cb')),
    (Z.ltb_spec (cb_writepos cb') (cb_readpos cb')); lia.
Qed.

(** The queue in terms of the region, without and with wrap-around. *)
Lemma ring_nowrap r u (d : list Z) :
  0 ≤ r → 0 ≤ u → r + u ≤ zlen d → slice r u (d ++ d) = slice r u d.
Proof. intros. by rewrite slice_app_l. Qed.

Lemma ring_wrap r u (d : list Z) :
  0 ≤ r ≤ zlen d → zlen d - r ≤ u →
  slice r u (d ++ d) = slice r (zlen d - r) d ++ slice 0 (u - (zlen d - r)) d.
Proof.
  intros. replace u with ((zlen d - r) + (u - (zlen d - r))) at 1 by lia.
  rewrite slice_app_split by lia. rewrite slice_app_l by lia.
  rewrite slice_app_r by lia. do 2 f_equal. lia.
Qed.

(** Writing [bs] at the write position appends it to the queue. *)
Lemma ring_write r w u bs (d : list Z) :
  0 ≤ r < zlen d → 0 ≤ w < zlen d → 0 ≤ u → zlen bs ≤ zlen d - u →
  (r + u = w ∧ w + zlen bs ≤ zlen d ∨ r + u = w + zlen d ∧ w + zlen bs ≤ r) →
  slice r (u + zlen bs) (splice w bs d ++ splice w bs d) = slice r u (d ++ d) ++ bs.
Proof.
  intros Hr Hw Hu Hroom Hcase. pose proof (zlen_nonneg bs).
  assert (Hl : zlen (splice w bs d) = zlen d) by (apply zlen_splice; lia).
  destruct Hcase as [[Hw' Hfit]|[Hw' Hfit]].
  - rewrite !ring_nowrap by (rewrite ?Hl; lia). rewrite slice_app_split by lia.
    rewrite slice_splice_before by lia. f_equal. rewrite Hw'. apply slice_splice_same; lia.
  - rewrite !ring_wrap by (rewrite ?Hl; lia). rewrite Hl, <-app_assoc.
    rewrite slice_splice_after by lia. f_equal.
    replace (u + zlen bs - (zlen d - r)) with (w + zlen bs) by lia.
    replace (u - (zlen d - r)) with w by lia.
    rewrite slice_app_split by lia. rewrite slice_splice_before by lia. f_equal.
    apply slice_splice_same; lia.
Qed.

(** ... and leaves the queued bytes alone. *)
Lemma ring_write_keeps r w u bs (d : list Z) :
  0 ≤ r < zlen d → 0 ≤ w < zlen d → 0 ≤ u → zlen bs ≤ zlen d - u →
  (r + u = w ∧ w + zlen bs ≤ zlen d ∨ r + u = w + zlen d ∧ w + zlen bs ≤ r) →
  slice r u (splice w bs d ++ splice w bs d) = slice r u (d ++ d).
Proof.
  intros Hr Hw Hu Hroom Hcase. pose proof (zlen_nonneg bs).
  pose proof (ring_write r w u bs d Hr Hw Hu Hroom Hcase) as Heq.
  rewrite slice_app_split in Heq by lia. apply app_inj_1 in Heq as [Heq _]; [done|].
  apply Nat2Z.inj. change (zlen (slice r u (splice w bs d ++ splice w bs d)) =
    zlen (slice r u (d ++ d))).
  rewrite !zlen_slice; rewrite ?zlen_app, ?zlen_splice; lia.
Qed.

(** Advancing the read position drops from the front of the queue. *)
Lemma ring_read r u n (d : list Z) :
  0 ≤ r < zlen d → 0 ≤ n ≤ u → u ≤ zlen d →
  slice ((r + n) mod zlen d) (u - n) (d ++ d) = drop (Z.to_nat n) (slice r u (d ++ d)).
Proof.
  intros Hr Hn Hu.
  assert (Hdrop : drop (Z.to_nat n) (slice r u (d ++ d)) = slice (r + n) (u - n) (d ++ d)).
  { replace u with (n + (u - n)) at 1 by lia. rewrite slice_app_split by lia.
    apply drop_app_length'. apply Nat2Z.inj. rewrite Z2Nat.id by lia.
    change (n = zlen (slice r n (d ++ d))). rewrite zlen_slice; rewrite ?zlen_app; lia. }
  rewrite Hdrop. destruct (Z.ltb_spec (r + n) (zlen d)).
  - by rewrite Z.mod_small by lia.
  - rewrite (mod_shift (r + n) (r + n - zlen d) (zlen d) 1) by lia.
    rewrite Z.mod_small by lia. rewrite (slice_app_r (r + n)) by lia.
    rewrite slice_app_l by lia. done.
Qed.
End cbuf_lemmas.

(** ** Operations on well-formed buffers *)

Section cbuf_ops.
Implicit Types (cb : circbuffer) (E : string → Prop).

Lemma cbuf_contents_length cb : wf_cbuf cb → zlen (cbuf_contents cb) = cb_used cb.
Proof.
  intros (Hs & Hr & Hw & Hu & Hrel & Hd). unfold cbuf_contents.
  destruct (cb_data cb) as [d|]; [|by rewrite Hd]. destruct Hd.
  rewrite zlen_slice; rewrite ?zlen_app; lia.
Qed.

Lemma wp_cbuf_writeptr n E Q cb :
  wf_cbuf cb → 0 ≤ n →
  (n ≤ cbuf_room cb → ∀ cb', wf_cbuf cb' → cbuf_contents cb' = cbuf_contents cb →
     cb_size cb' = cb_size cb → cb_readpos cb' = cb_readpos cb →
     cb_writepos cb' = cb_writepos cb → cb_used cb' = cb_used cb →
     is_Some (cb_data cb') → Q (cb_writepos cb) cb') →
  (cbuf_room cb < n → E "Bad cbuf write"%string) →
  wp (cbuf_writeptr n) E Q cb.
Proof.
  intros Hwf Hn HQ HE. apply wp_bind, wp_cbuf_writelen; [done|].
  apply wp_bind, wp_exit_if; intros; [apply HE; lia|].
  apply wp_bind, wp_get, wp_bind. pose proof Hwf as (Hs & Hr & Hw & Hu & Hrel & Hd).
  destruct (cb_data cb) as [d|] eqn:Hdata.
  - apply wp_ret, wp_ret, HQ; eauto; lia.
  - apply wp_put, wp_ret, HQ; simpl; eauto; [lia| |].
    + unfold wf_cbuf; simpl. rewrite zlen_zeros by lia.
      split_and!; try lia. apply bytes_ok_zeros.
    + unfold cbuf_contents; simpl. rewrite Hdata, Hd. done.
Qed.

Lemma wp_cbuf_incrwrite n E Q cb d bs :
  wf_cbuf cb → zlen bs = n → n ≤ cbuf_room cb → cb_data cb = Some d →
  slice (cb_writepos cb) n d = bs →
  (∀ cb', wf_cbuf cb' → cb_size cb' = cb_size cb → cb_readpos cb' = cb_readpos cb →
     cb_used cb' = cb_used cb + n →
     cbuf_contents cb' = cbuf_contents cb ++ bs → Q tt cb') →
  wp (cbuf_incrwrite n) E Q cb.
Proof.
  intros Hwf Hbs Hn Hdata Hat HQ. pose proof (zlen_nonneg bs).
  pose proof (cbuf_room_bounds cb Hwf) as [Hroom _].
  pose proof Hwf as (Hs & Hr & Hw & Hu & Hrel & Hd). rewrite Hdata in Hd. destruct Hd as [Hd Hdb].
  unfold MAX_CBUF_SIZE in Hs.
  apply wp_bind, wp_cbuf_writelen; [done|]. apply wp_bind, wp_exit_if; [lia|]. intros _.
  apply wp_bind, wp_get. rewrite u32_small by lia.
  apply wp_bind, wp_assert; [lia|]. intros _. apply wp_bind, umod_ok; [lia..|]. apply wp_put.
  pose proof (cbuf_room_fit cb n Hwf Hn) as Hfit.
  assert (Hmod : (cb_writepos cb + n) mod cb_size cb =
    if cb_writepos cb + n =? cb_size cb then 0 else cb_writepos cb + n).
  { destruct (Z.eqb_spec (cb_writepos cb + n) (cb_size cb)) as [->|].
    - apply Z.mod_same. lia.
    - apply Z.mod_small. lia. }
  apply HQ; simpl; [|done..|].
  - unfold wf_cbuf; simpl. rewrite Hdata, Hmod. unfold MAX_CBUF_SIZE.
    destruct (Z.eqb_spec (cb_writepos cb + n) (cb_size cb)); split_and!; try done; lia.
  - unfold cbuf_contents; simpl. rewrite Hdata.
    assert (Hsp : splice (cb_writepos cb) bs d = d).
    { rewrite <-Hat. unfold splice, slice.
      assert (length (take (Z.to_nat n) (drop (Z.to_nat (cb_writepos cb)) d)) = Z.to_nat n) as ->.
      { rewrite length_take, length_drop. unfold zlen in *. lia. }
      rewrite <-drop_drop, take_drop. apply take_drop. }
    rewrite <-Hsp at 1 2. rewrite <-Hbs. apply ring_write; lia.
Qed.

Lemma wp_cbuf_write bs E Q cb :
  wf_cbuf cb → bytes_ok bs →
  (zlen bs ≤ cbuf_room cb →
   ∀ cb', wf_cbuf cb' → cb_size cb' = cb_size cb → cb_readpos cb' = cb_readpos cb →
     cb_used cb' = cb_used cb + zlen bs →
     cbuf_contents cb' = cbuf_contents cb ++ bs → Q tt cb') →
  (cbuf_room cb < zlen bs → E "Bad cbuf write"%string) →
  wp (cbuf_write bs) E Q cb.
Proof.
  intros Hwf Hb HQ HE. pose proof (zlen_nonneg bs).
  apply wp_bind, wp_cbuf_writeptr; [done|done| |done].
  intros Hn cb1 Hwf1 Hc1 Hs1 Hr1 Hw1 Hu1 [d Hd1].
  pose proof Hwf1 as (Hs & Hr & Hw & Hu & Hrel & Hd). rewrite Hd1 in Hd. destruct Hd as [Hdl Hdb].
  assert (Hroom1 : cbuf_room cb1 = cbuf_room cb)
    by (unfold cbuf_room; by rewrite Hs1, Hr1, Hw1, Hu1).
  pose proof (cbuf_room_fit cb _ Hwf Hn) as Hfit.
  set (cb2 := mkcbuf (cb_size cb1) (cb_readpos cb1) (cb_writepos cb1) (cb_used cb1)
                (Some (splice (cb_writepos cb) bs d))).
  apply wp_bind, (wp_of_run _ _ _ _ tt cb2).
  { unfold cbuf_store. rewrite Hd1. if_true. done. }
  assert (Hwf2 : wf_cbuf cb2).
  { unfold wf_cbuf, cb2; simpl. rewrite zlen_splice by lia. split_and!; try done; try lia.
    by apply bytes_ok_splice. }
  assert (Hc2 : cbuf_contents cb2 = cbuf_contents cb).
  { rewrite <-Hc1. unfold cbuf_contents, cb2; simpl. rewrite Hd1.
    pose proof (cbuf_room_bounds cb Hwf). apply ring_write_keeps; rewrite ?Hdl; lia. }
  eapply (wp_cbuf_incrwrite _ _ _ cb2 _ bs); [done|done| |done| |].
  - change (cbuf_room cb2) with (cbuf_room cb1). lia.
  - change (cb_writepos cb2) with (cb_writepos cb1). rewrite Hw1. apply slice_splice_same; lia.
  - intros cb' Hwf' Hs' Hr' Hu' Hc'. simpl in Hs', Hr', Hu'. apply HQ; [done|done|lia..|].
    by rewrite Hc', Hc2.
Qed.

Lemma wp_cbuf_incrread n E Q cb :
  wf_cbuf cb → 0 ≤ n →
  (n ≤ cb_used cb → ∀ cb', wf_cbuf cb' → cb_size cb' = cb_size cb →
     cb_used cb' = cb_used cb - n →
     cbuf_contents cb' = drop (Z.to_nat n) (cbuf_contents cb) → Q tt cb') →
  (cb_used cb < n → ∀ e, E e) →
  wp (cbuf_incrread n) E Q cb.
Proof.
  intros Hwf Hn HQ HE. pose proof Hwf as (Hs & Hr & Hw & Hu & Hrel & Hd). unfold MAX_CBUF_SIZE in Hs.
  apply wp_bind, wp_get, wp_bind, wp_assert; intros; [apply HE; lia|].
  apply wp_bind, umod_ok; [lia..|]. apply wp_put. rewrite u32_small by lia.
  apply HQ; simpl; [lia| |done..|].
  - assert (Hmod : (cb_readpos cb + n) mod cb_size cb =
      if cb_readpos cb + n <? cb_size cb then cb_readpos cb + n else cb_readpos cb + n - cb_size cb).
    { destruct (Z.ltb_spec (cb_readpos cb + n) (cb_size cb)).
      - apply Z.mod_small. lia.
      - rewrite (mod_shift _ (cb_readpos cb + n - cb_size cb) _ 1) by lia. apply Z.mod_small. lia. }
    unfold wf_cbuf; simpl. rewrite Hmod. unfold MAX_CBUF_SIZE.
    destruct (Z.ltb_spec (cb_readpos cb + n) (cb_size cb));
      split_and!; try lia; destruct (cb_data cb); first [done|lia].
  - unfold cbuf_contents; simpl. destruct (cb_data cb) as [d|]; [|by rewrite drop_nil].
    destruct Hd as [Hd ?]. rewrite <-Hd. apply ring_read; lia.
Qed.

Lemma wp_cbuf_load d off n E Q cb :
  cb_data cb = Some d → 0 ≤ off → 0 ≤ n → off + n ≤ zlen d →
  Q (slice off n d) cb → wp (cbuf_load off n) E Q cb.
Proof.
  intros Hd ??? HQ. unfold wp, cbuf_load. destruct (Z.eqb_spec n 0) as [->|].
  - by rewrite slice_0 in HQ.
  - rewrite Hd. by if_true.
Qed.

Lemma wp_cbuf_read_segments E Q cb :
  wf_cbuf cb →
  (∀ s1 s2, s1 ++ s2 = cbuf_contents cb → Q (s1, s2) cb) →
  wp cbuf_read_segments E Q cb.
Proof.
  intros Hwf HQ. pose proof Hwf as (Hs & Hr & Hw & Hu & Hrel & Hd). unfold MAX_CBUF_SIZE in Hs.
  apply wp_bind, wp_get. unfold cbuf_readptrs. rewrite u32_small by lia. cbv zeta.
  destruct (cb_data cb) as [d|] eqn:Hdata.
  - destruct Hd as [Hd ?].
    assert (Hc : cbuf_contents cb = slice (cb_readpos cb) (cb_used cb) (d ++ d))
      by (unfold cbuf_contents; by rewrite Hdata).
    if_case Hcmp; apply wp_bind.
    + rewrite u32_small by lia. eapply wp_cbuf_load; [done|lia..|].
      apply wp_bind. eapply wp_cbuf_load; [done|lia..|]. apply wp_ret, HQ.
      rewrite Hc, ring_wrap by lia. f_equal; f_equal; lia.
    + eapply wp_cbuf_load; [done|lia..|]. apply wp_bind, wp_ret, wp_ret, HQ.
      rewrite app_nil_r, Hc, ring_nowrap by lia. f_equal. lia.
  - rewrite Hd. if_false. apply wp_bind. rewrite Z.min_l by lia.
    apply wp_ret, wp_bind, wp_ret, wp_ret, HQ. unfold cbuf_contents. by rewrite Hdata.
Qed.
End cbuf_ops.

(** ** Refinement of a bounded byte queue *)

(** What a channel does with its buffer: store received bytes, and drain a
    prefix of what the read pointers expose. *)
Inductive cbuf_op :=
| CWrite (bs : list Z)
| CDrain (n : Z).

Definition cbuf_op_ok (op : cbuf_op) : Prop :=
  match op with CWrite bs => bytes_ok bs | CDrain n => 0 ≤ n end.

Definition run_cbuf_op (op : cbuf_op) : ST circbuffer (list Z) :=
  match op with
  | CWrite bs => do* cbuf_write bs; ret []
  | CDrain n =>
      let* segs := cbuf_read_segments in
      do* cbuf_incrread n;
      ret (take (Z.to_nat n) (segs.1 ++ segs.2))
  end.

Fixpoint run_cbuf_ops (ops : list cbuf_op) : ST circbuffer (list Z) :=
  match ops with
  | [] => ret []
  | op :: ops =>
      let* out := run_cbuf_op op in
      let* rest := run_cbuf_ops ops in
      ret (out ++ rest)
  end.

(** The specification: a queue of at most [cap] bytes. *)
Definition bq_op (cap : Z) (op : cbuf_op) (q : list Z) : option (list Z * list Z) :=
  match op with
  | CWrite bs => if zlen q + zlen bs <=? cap then Some ([], q ++ bs) else None
  | CDrain n => if n <=? zlen q then Some (take (Z.to_nat n) q, drop (Z.to_nat n) q) else None
  end.

Fixpoint bq_ops (cap : Z) (ops : list cbuf_op) (q : list Z) : option (list Z * list Z) :=
  match ops with
  | [] => Some ([], q)
  | op :: ops =>
      match bq_op cap op q with
      | None => None
      | Some (out, q) =>
          match bq_ops cap ops q with
          | None => None
          | Some (rest, q) => Some (out ++ rest, q)
          end
      end
  end.

Lemma run_cbuf_op_refines op cb :
  wf_cbuf cb → cbuf_op_ok op →
  wp (run_cbuf_op op) any_exit
     (λ out cb', wf_cbuf cb' ∧ cb_size cb' = cb_size cb ∧
        bq_op (cb_size cb) op (cbuf_contents cb) = Some (out, cbuf_contents cb')) cb.
Proof.
  intros Hwf Hop. pose proof (cbuf_contents_length cb Hwf) as Hl. destruct op as [bs|n]; simpl in Hop.
  - apply wp_bind, wp_cbuf_write; [done|done| |done]. intros Hroom cb' Hwf' Hs' _ Hu' Hc'.
    apply wp_ret. split_and!; [done..|]. simpl. rewrite Hl, Hc'.
    pose proof (cbuf_room_bounds cb Hwf). by if_true.
  - apply wp_bind, wp_cbuf_read_segments; [done|]. intros s1 s2 Hseg.
    apply wp_bind, wp_cbuf_incrread; [done|done| |done]. intros Hn cb' Hwf' Hs' Hu' Hc'.
    apply wp_ret. split_and!; [done..|]. simpl. rewrite Hl, Hc', Hseg. by if_true.
Qed.

Lemma run_cbuf_ops_refine ops cb :
  wf_cbuf cb → Forall cbuf_op_ok ops →
  wp (run_cbuf_ops ops) any_exit
     (λ out cb', wf_cbuf cb' ∧
        bq_ops (cb_size cb) ops (cbuf_contents cb) = Some (out, cbuf_contents cb')) cb.
Proof.
  intros Hwf Hops. revert cb Hwf. induction Hops as [|op ops Hop _ IH]; intros cb Hwf; [done|].
  apply wp_bind. eapply wp_mono; [by apply run_cbuf_op_refines|].
  intros out cb1 (Hwf1 & Hs1 & Hq1). simpl. apply wp_bind.
  eapply wp_mono; [by apply IH|]. intros rest cb2 (Hwf2 & Hq2). apply wp_ret.
  split; [done|]. by rewrite Hq1, <-Hs1, Hq2.
Qed.

Lemma wf_cbuf_new size : 0 < size ≤ MAX_CBUF_SIZE → wf_cbuf (mkcbuf size 0 0 0 None).
Proof. intros. unfold wf_cbuf; simpl. split_and!; try lia. Qed.

Definition on_cbuf {S A} (cb : circbuffer) (m : ST circbuffer A) : ST S (A * circbuffer) := λ s,
  match m cb with
  | Ok (a, cb') => Ok ((a, cb'), s)
  | Exit e => Exit e
  | Fault w => Fault w
  end.

Lemma wp_on_cbuf {S A} (m : ST circbuffer A) E (Q : A * circbuffer → S → Prop) cb s :
  wp m E (λ a cb', Q (a, cb') s) cb → wp (on_cbuf cb m) E Q s.
Proof. unfold wp, on_cbuf. by destruct (m cb) as [[a cb']|e|w]. Qed.

(** C40: The circular buffer refines a bounded byte queue.  Every sequence of
    writes and drains run on a fresh buffer of any size is free of undefined
    behaviour, never trips the arithmetic assertions except by leaving the
    process, and returns and keeps exactly the bytes a first-in first-out
    queue of that capacity would, however often the positions wrapped. *)
Theorem cbuf_refines_queue (size : Z) (ops : list cbuf_op) :
  0 < size → Forall cbuf_op_ok ops →
  wp (let* cb := cbuf_new size in on_cbuf cb (run_cbuf_ops ops)) any_exit
     (λ r (_ : unit), bq_ops size ops [] = Some (r.1, cbuf_contents r.2)) tt.
Proof.
  intros Hs Hops. apply wp_bind, wp_bind, wp_exit_if; intros; [done|]. apply wp_ret, wp_on_cbuf.
  eapply wp_mono; [apply run_cbuf_ops_refine; [apply wf_cbuf_new; lia|done]|].
  by intros out cb [_ Hq].
Qed.

Lemma cbuf_refines_queue_witness :
  wp (let* cb := cbuf_new 4 in
      on_cbuf cb (run_cbuf_ops [CWrite [1; 2; 3]; CDrain 2; CWrite [4]; CWrite [5; 6]; CDrain 4]))
     any_exit
     (λ r (_ : unit), bq_ops 4 [CWrite [1; 2; 3]; CDrain 2; CWrite [4]; CWrite [5; 6]; CDrain 4] []
                      = Some (r.1, cbuf_contents r.2)) tt.
Proof.
  apply (cbuf_refines_queue 4); [lia|].
  repeat constructor; unfold cbuf_op_ok, byte_ok; try lia; repeat constructor; unfold byte_ok; lia.
Defined.
