(* ===== verification/Queue.v ===== *)
(** * Linked lists (src/src/queue.c, src/src/list.c)

    [struct Queue] is a singly linked list with head and tail pointers and a
    count; [m_list] is doubly linked with removal at any element.  The links
    live in a heap from locations to link records; following a null or freed
    pointer is a [Fault].  [m_malloc] returns a location outside the heap.

    The specification of both is a list of items: the representation
    predicates [queue_rep] and [mlist_rep] relate a heap to the list it
    stores and require that the heap holds the links of that list and nothing
    else, so that preserving them also shows that no link leaks. *)

From Stdlib Require Import ZArith Lia.
From stdpp Require Import base list strings gmap.
From S2P Require Import Prelude.

Definition loc : Type := nat.

(** ** queue.c *)

Record Link (A : Type) := mklink { l_item : A; l_link : option loc }.
Arguments mklink {A} _ _.
Arguments l_item {A} _.
Arguments l_link {A} _.

Record Queue (A : Type) := mkqueue {
  q_heap : gmap loc (Link A);
  q_head : option loc;
  q_tail : option loc;
  q_count : Z
}.
Arguments mkqueue {A} _ _ _ _.
Arguments q_heap {A} _.
Arguments q_head {A} _.
Arguments q_tail {A} _.
Arguments q_count {A} _.

Section queue.
Context {A : Type}.
Implicit Types (q : Queue A) (h : gmap loc (Link A)).

(** [p->...] for a link pointer. *)
Definition deref {S} (h : gmap loc (Link A)) (p : option loc) : ST S (Link A) :=
  match p with
  | None => fault "null pointer"
  | Some l => match h !! l with Some k => ret k | None => fault "dangling pointer" end
  end.

Definition initqueue : ST (Queue A) unit := put (mkqueue ∅ None None 0).

Definition isempty (q : Queue A) : bool :=
  match q_head q with None => true | Some _ => false end.

Definition dequeue : ST (Queue A) A :=
  let* q := get in
  do* dropbear_assert (negb (isempty q)) "!isempty(queue)";
  let* oldhead := deref (q_heap q) (q_head q) in
  let heap' := match q_head q with Some l => delete l (q_heap q) | None => q_heap q end in
  do* put (match l_link oldhead with
           | Some _ => mkqueue heap' (l_link oldhead) (q_tail q) (u32 (q_count q - 1))
           | None => mkqueue heap' None None (u32 (q_count q - 1))
           end);
  ret (l_item oldhead).

Definition examine : ST (Queue A) A :=
  let* q := get in
  do* dropbear_assert (negb (isempty q)) "!isempty(queue)";
  let* k := deref (q_heap q) (q_head q) in
  ret (l_item k).

Definition enqueue (item : A) : ST (Queue A) unit :=
  let* q := get in
  let newlink := fresh (dom (q_heap q)) in
  let heap1 := <[newlink := mklink item None]> (q_heap q) in
  let* heap2 := match q_tail q with
                | Some t => let* k := deref heap1 (Some t) in
                            ret (<[t := mklink (l_item k) (Some newlink)]> heap1)
                | None => ret heap1
                end in
  put (mkqueue heap2 (match q_head q with None => Some newlink | Some h => Some h end)
         (Some newlink) (u32 (q_count q + 1))).

(** Writing to the item a queue link points to, for callers that mutate the
    object they examined. *)
Definition update_head (x : A) : ST (Queue A) unit :=
  let* q := get in
  match q_head q with
  | None => fault "null pointer"
  | Some l =>
      let* k := deref (q_heap q) (Some l) in
      put (mkqueue (<[l := mklink x (l_link k)]> (q_heap q)) (q_head q) (q_tail q) (q_count q))
  end.

(** *** Representation *)

(** Following the links from [p] visits [ls] and finds the items [xs]. *)
Fixpoint chain h (p : option loc) (ls : list loc) (xs : list A) : Prop :=
  match ls, xs with
  | [], [] => p = None
  | l :: ls, x :: xs => p = Some l ∧ ∃ nxt, h !! l = Some (mklink x nxt) ∧ chain h nxt ls xs
  | _, _ => False
  end.

Definition queue_rep (q : Queue A) (xs : list A) : Prop :=
  ∃ ls, NoDup ls ∧ chain (q_heap q) (q_head q) ls xs ∧ q_tail q = last ls ∧
        dom (q_heap q) = list_to_set ls ∧ q_count q = zlen xs.

Lemma chain_frame h h' p ls xs :
  (∀ l, l ∈ ls → h' !! l = h !! l) → chain h p ls xs → chain h' p ls xs.
Proof.
  revert p xs. induction ls as [|l ls IH]; intros p [|x xs] Heq; simpl; try done.
  intros [-> (nxt & Hl & Hc)]. split; [done|]. exists nxt.
  rewrite Heq by set_solver. split; [done|]. apply IH; [|done]. intros. apply Heq. set_solver.
Qed.

Lemma chain_length h p ls xs : chain h p ls xs → length ls = length xs.
Proof.
  revert p xs. induction ls as [|l ls IH]; intros p [|x xs]; simpl; try done.
  intros [_ (nxt & _ & Hc)]. f_equal. by eapply IH.
Qed.

(** Hanging a new link after the last one. *)
Lemma chain_snoc h p ls xs l x :
  chain h p ls xs → NoDup ls → l ∉ ls → h !! l = Some (mklink x None) → ls ≠ [] →
  ∃ t y, last ls = Some t ∧ h !! t = Some (mklink y None) ∧
    chain (<[t := mklink y (Some l)]> h) p (ls ++ [l]) (xs ++ [x]).
Proof.
  revert p xs. induction ls as [|l0 ls IH]; intros p [|x0 xs]; simpl; try done.
  intros [-> (nxt & Hl0 & Hc)] Hnd Hl Hx _. apply NoDup_cons in Hnd as [Hl0' Hnd].
  apply not_elem_of_cons in Hl as [Hne Hl].
  destruct ls as [|l1 ls].
  - destruct xs; simpl in Hc; [subst nxt|done]. exists l0, x0. split_and!; [done..|].
    exists (Some l). rewrite lookup_insert_eq. split; [done|]. split; [done|].
    exists None. by rewrite lookup_insert_ne.
  - destruct (IH _ _ Hc Hnd Hl Hx ltac:(done)) as (t & y & Ht & Hy & Hc').
    exists t, y. split_and!; [done..|]. exists nxt. split; [|done].
    rewrite lookup_insert_ne; [done|]. intros ->. apply Hl0'.
    apply last_Some_elem_of in Ht. done.
Qed.

Lemma wp_enqueue x xs E (Q : () → Queue A → Prop) q :
  queue_rep q xs → zlen xs + 1 < 2 ^ 32 →
  (∀ q', queue_rep q' (xs ++ [x]) → Q tt q') → wp (enqueue x) E Q q.
Proof.
  intros (ls & Hnd & Hc & Ht & Hdom & Hn) Hlt HQ. apply wp_bind, wp_get.
  set (l := fresh (dom (q_heap q))).
  assert (Hfresh : l ∉ ls).
  { intros Hin. apply (is_fresh (dom (q_heap q))). fold l. rewrite Hdom. by apply elem_of_list_to_set. }
  assert (Hl1 : <[l := mklink x None]> (q_heap q) !! l = Some (mklink x None))
    by apply lookup_insert_eq.
  assert (Hc1 : chain (<[l := mklink x None]> (q_heap q)) (q_head q) ls xs).
  { eapply chain_frame; [|done]. intros l' Hl'. rewrite lookup_insert_ne; [done|]. by intros ->. }
  assert (Hcnt : u32 (q_count q + 1) = zlen (xs ++ [x])).
  { rewrite zlen_app, Hn. apply u32_small. pose proof (zlen_nonneg xs). change (zlen [x]) with 1. lia. }
  assert (Hdom1 : dom (<[l := mklink x None]> (q_heap q)) = list_to_set (ls ++ [l]) ).
  { rewrite dom_insert_L, Hdom, list_to_set_app_L. set_solver. }
  cbv zeta. fold l. rewrite Ht.
  destruct (decide (ls = [])) as [->|Hne].
  - destruct xs; simpl in Hc; [|done]. simpl. apply wp_bind, wp_ret, wp_put, HQ.
    rewrite Hc, Hcnt. exists [l]. split_and!; [apply NoDup_singleton|split; [done|by exists None]|done..].
  - destruct (chain_snoc _ _ _ _ _ _ Hc1 Hnd Hfresh Hl1 Hne) as (t & y & Htl & Hy & Hc2).
    rewrite Htl.
    apply wp_bind, wp_bind. unfold deref. rewrite Hy. apply wp_ret, wp_ret, wp_put, HQ. simpl.
    assert (Hh : ∃ p0, q_head q = Some p0).
    { destruct ls as [|l0 ls], xs; simpl in Hc; try done. destruct Hc as [-> _]. eauto. }
    destruct Hh as [p0 Hh]. rewrite Hh in Hc2 |- *. rewrite Hcnt.
    exists (ls ++ [l]). split_and!; try done; simpl.
    + apply NoDup_app. split_and!; [done|set_solver|apply NoDup_singleton].
    + by rewrite last_snoc.
    + rewrite dom_insert_L, Hdom1. apply last_Some_elem_of in Htl. set_solver.
Qed.

Lemma queue_rep_empty q : queue_rep q [] → isempty q = true.
Proof.
  intros (ls & _ & Hc & _). unfold isempty. destruct ls; simpl in Hc; [by rewrite Hc|done].
Qed.

Lemma queue_rep_nonempty q x xs : queue_rep q (x :: xs) → isempty q = false.
Proof.
  intros (ls & _ & Hc & _). unfold isempty. destruct ls; simpl in Hc; [done|].
  by destruct Hc as [-> _].
Qed.

Lemma wp_dequeue x xs E (Q : A → Queue A → Prop) q :
  queue_rep q (x :: xs) → zlen (x :: xs) < 2 ^ 32 →
  (∀ q', queue_rep q' xs → Q x q') → wp dequeue E Q q.
Proof.
  intros Hrep Hlt HQ. pose proof (queue_rep_nonempty _ _ _ Hrep) as Hne.
  destruct Hrep as (ls & Hnd & Hc & Ht & Hdom & Hn).
  apply wp_bind, wp_get, wp_bind, wp_assert; [by rewrite Hne|]. intros _.
  destruct ls as [|l ls]; simpl in Hc; [done|]. destruct Hc as [Hh (nxt & Hl & Hc)].
  apply NoDup_cons in Hnd as [Hl' Hnd]. rewrite Hh. simpl. rewrite Hl.
  apply wp_bind, wp_ret, wp_bind, wp_put, wp_ret, HQ. simpl.
  assert (Hcnt : u32 (q_count q - 1) = zlen xs).
  { rewrite Hn, zlen_cons in *. pose proof (zlen_nonneg xs). rewrite u32_small; lia. }
  assert (Hc' : chain (delete l (q_heap q)) nxt ls xs).
  { eapply chain_frame; [|done]. intros l0 Hl0. rewrite lookup_delete_ne; [done|]. by intros ->. }
  assert (Hdom' : dom (delete l (q_heap q)) = list_to_set ls)
    by (rewrite dom_delete_L, Hdom; set_solver).
  destruct nxt as [l1|], ls as [|l2 ls]; destruct xs as [|x1 xs]; simpl in Hc; try done.
  - destruct Hc as [[= ->] _]. exists (l2 :: ls). rewrite Hcnt. split_and!; done.
  - exists []. rewrite Hcnt. split_and!; try done.
  - by destruct Hc.
Qed.

Lemma wp_examine x xs E (Q : A → Queue A → Prop) q :
  queue_rep q (x :: xs) → Q x q → wp examine E Q q.
Proof.
  intros Hrep HQ. pose proof (queue_rep_nonempty _ _ _ Hrep) as Hne.
  destruct Hrep as (ls & Hnd & Hc & Ht & Hdom & Hn).
  apply wp_bind, wp_get, wp_bind, wp_assert; [by rewrite Hne|]. intros _.
  destruct ls as [|l ls]; simpl in Hc; [done|]. destruct Hc as [Hh (nxt & Hl & Hc)].
  rewrite Hh. simpl. rewrite Hl. by apply wp_bind, wp_ret, wp_ret.
Qed.

Lemma wp_update_head x y xs E (Q : () → Queue A → Prop) q :
  queue_rep q (x :: xs) → (∀ q', queue_rep q' (y :: xs) → Q tt q') → wp (update_head y) E Q q.
Proof.
  intros (ls & Hnd & Hc & Ht & Hdom & Hn) HQ.
  destruct ls as [|l ls]; simpl in Hc; [done|]. destruct Hc as [Hh (nxt & Hl & Hc)].
  apply wp_bind, wp_get. rewrite Hh. simpl. rewrite Hl. apply wp_bind, wp_ret, wp_put, HQ. simpl.
  exists (l :: ls). split_and!; try done; simpl.
  - split; [done|]. exists nxt. rewrite lookup_insert_eq. split; [done|].
    apply NoDup_cons in Hnd as [Hl' _]. eapply chain_frame; [|done].
    intros l0 Hl0. rewrite lookup_insert_ne; [done|]. by intros ->.
  - rewrite dom_insert_L, Hdom. simpl. set_solver.
Qed.

Lemma queue_rep_init : queue_rep (mkqueue ∅ None None 0) [].
Proof. exists []. split_and!; try done. apply NoDup_nil_2. Qed.
End queue.

(** ** list.c *)

Record m_list_elem (A : Type) := mkelem {
  e_item : A;
  e_next : option loc;
  e_prev : option loc
}.
Arguments mkelem {A} _ _ _.
Arguments e_item {A} _.
Arguments e_next {A} _.
Arguments e_prev {A} _.

Record m_list (A : Type) := mkmlist {
  ml_heap : gmap loc (m_list_elem A);
  ml_first : option loc;
  ml_last : option loc
}.
Arguments mkmlist {A} _ _ _.
Arguments ml_heap {A} _.
Arguments ml_first {A} _.
Arguments ml_last {A} _.

Section mlist.
Context {A : Type}.
Implicit Types (m : m_list A) (h : gmap loc (m_list_elem A)).

Definition list_new : m_list A := mkmlist ∅ None None.

Definition eref {S} (h : gmap loc (m_list_elem A)) (l : loc) : ST S (m_list_elem A) :=
  match h !! l with Some e => ret e | None => fault "dangling pointer" end.

Definition set_next (v : option loc) (e : m_list_elem A) : m_list_elem A :=
  mkelem (e_item e) v (e_prev e).
Definition set_prev (v : option loc) (e : m_list_elem A) : m_list_elem A :=
  mkelem (e_item e) (e_next e) v.

(** [p->f = v] on the heap of elements. *)
Definition estore {S} (h : gmap loc (m_list_elem A)) (l : loc)
    (f : m_list_elem A → m_list_elem A) : ST S (gmap loc (m_list_elem A)) :=
  let* e := eref h l in ret (<[l := f e]> h).

(** Returns the element's location, the handle [list_remove] takes. *)
Definition list_append (item : A) : ST (m_list A) loc :=
  let* m := get in
  let elem := fresh (dom (ml_heap m)) in
  match ml_first m with
  | None =>
      do* put (mkmlist (<[elem := mkelem item None None]> (ml_heap m)) (Some elem) (Some elem));
      ret elem
  | Some f =>
      match ml_last m with
      | None => fault "null pointer"
      | Some t =>
          let heap1 := <[elem := mkelem item None (Some t)]> (ml_heap m) in
          let* heap2 := estore heap1 t (set_next (Some elem)) in
          do* put (mkmlist heap2 (Some f) (Some elem));
          ret elem
      end
  end.

Definition list_remove (elem : loc) : ST (m_list A) A :=
  let* m := get in
  let* e := eref (ml_heap m) elem in
  let first' := if decide (ml_first m = Some elem) then e_next e else ml_first m in
  let last' := if decide (ml_last m = Some elem) then e_prev e else ml_last m in
  let* h1 := match e_prev e with
             | Some p => estore (ml_heap m) p (set_next (e_next e))
             | None => ret (ml_heap m)
             end in
  let* h2 := match e_next e with
             | Some n => estore h1 n (set_prev (e_prev e))
             | None => ret h1
             end in
  do* put (mkmlist (delete elem h2) first' last');
  ret (e_item e).

(** *** Representation: element [i] of the list is at location [ls !! i],
    with pointers to its neighbours. *)

Definition prev_of (ls : list loc) (i : nat) : option loc :=
  match i with O => None | S j => ls !! j end.

Definition mlist_rep (m : m_list A) (ls : list loc) (xs : list A) : Prop :=
  NoDup ls ∧ length ls = length xs ∧
  (∀ i l x, ls !! i = Some l → xs !! i = Some x →
     ml_heap m !! l = Some (mkelem x (ls !! S i) (prev_of ls i))) ∧
  ml_first m = head ls ∧ ml_last m = last ls ∧
  dom (ml_heap m) = list_to_set ls.

Lemma mlist_rep_new : mlist_rep list_new [] [].
Proof.
  unfold mlist_rep, list_new; simpl. split_and!; try done. apply NoDup_nil_2.
Qed.

Lemma wp_estore {S} h l f e E (Q : gmap loc (m_list_elem A) → S → Prop) s :
  h !! l = Some e → Q (<[l := f e]> h) s → wp (estore h l f) E Q s.
Proof. intros He HQ. apply wp_bind. unfold eref. rewrite He. by apply wp_ret, wp_ret. Qed.

Lemma wp_list_append x ls xs E (Q : loc → m_list A → Prop) m :
  mlist_rep m ls xs →
  (∀ l m', l ∉ ls → mlist_rep m' (ls ++ [l]) (xs ++ [x]) → Q l m') →
  wp (list_append x) E Q m.
Proof.
  intros (Hnd & Hlen & Hel & Hf & Hl & Hdom) HQ. apply wp_bind, wp_get.
  set (l := fresh (dom (ml_heap m))).
  assert (Hfresh : l ∉ ls).
  { intros Hin. apply (is_fresh (dom (ml_heap m))). fold l. rewrite Hdom. by apply elem_of_list_to_set. }
  cbv zeta. fold l. rewrite Hf, Hl. destruct (last ls) as [t|] eqn:Ht.
  - destruct ls as [|f ls0] eqn:Hls; [done|]. rewrite <-Hls in *. simpl.
    replace (head ls) with (Some f) by (by subst).
    assert (Htl := Ht). rewrite last_lookup in Ht.
    assert (Hn : 0 < zlen ls) by (subst; rewrite zlen_cons; pose proof (zlen_nonneg ls0); lia).
    set (n := pred (length ls)). fold n in Ht.
    assert (Hlsn : length ls = S n) by (unfold zlen in Hn; unfold n; lia).
    destruct (lookup_lt_is_Some_2 xs n ltac:(lia)) as [y Hy].
    pose proof (Hel n t y Ht Hy) as Hht.
    rewrite (lookup_ge_None_2 ls (S n)) in Hht by lia.
    assert (Htne : t ≠ l). { intros ->. apply Hfresh. by eapply list_elem_of_lookup_2. }
    apply wp_bind. eapply wp_estore; [by rewrite lookup_insert_ne|].
    apply wp_bind, wp_put, wp_ret, HQ; [done|]. unfold set_next; simpl.
    unfold mlist_rep; simpl. split_and!.
    + apply NoDup_app. split_and!; [done|set_solver|apply NoDup_singleton].
    + rewrite !length_app. simpl. lia.
    + intros i l0 x0 Hi Hx. destruct (decide (i < length ls)%nat) as [Hlt|Hge].
      * rewrite lookup_app_l in Hi by lia. rewrite lookup_app_l in Hx by lia.
        assert (Hpo : prev_of (ls ++ [l]) i = prev_of ls i).
        { destruct i; [done|]. simpl. by rewrite lookup_app_l by lia. }
        rewrite Hpo. destruct (decide (i = n)) as [->|Hin].
        -- assert (l0 = t) as -> by congruence. assert (x0 = y) as -> by congruence.
           rewrite lookup_insert_eq. rewrite lookup_app_r, Hlsn, Nat.sub_diag by lia. done.
        -- rewrite lookup_insert_ne by (intros <-; apply Hin; by eapply NoDup_lookup).
           rewrite lookup_insert_ne by (intros <-; apply Hfresh; by eapply list_elem_of_lookup_2).
           rewrite lookup_app_l by lia. by apply Hel.
      * assert (i = length ls) as ->.
        { apply lookup_lt_Some in Hi. rewrite length_app in Hi. simpl in Hi. lia. }
        rewrite lookup_app_r, Nat.sub_diag in Hi by lia. injection Hi as <-.
        rewrite lookup_app_r, Hlen, Nat.sub_diag in Hx by lia. injection Hx as <-.
        rewrite lookup_insert_ne by done. rewrite lookup_insert_eq. f_equal. f_equal.
        -- symmetry. apply lookup_ge_None_2. rewrite length_app. simpl. lia.
        -- rewrite Hlsn. simpl. by rewrite lookup_app_l by lia.
    + by subst.
    + by rewrite last_snoc.
    + rewrite !dom_insert_L, Hdom, list_to_set_app_L. apply list_elem_of_lookup_2 in Ht. set_solver.
  - apply last_None in Ht. subst ls. destruct xs; [|done]. simpl.
    apply wp_bind, wp_put, wp_ret, HQ; [done|]. unfold mlist_rep; simpl. split_and!; try done.
    + apply NoDup_singleton.
    + intros [|i] l0 x0; simpl; [|done]. intros [= <-] [= <-]. by rewrite lookup_insert_eq.
    + rewrite dom_insert_L, Hdom. simpl. set_solver.
Qed.

(** The heap after the neighbours of element [i] were linked to each
    other. *)
Lemma wp_unlink ls xs i l x E (Q : gmap loc (m_list_elem A) → m_list A → Prop) m s :
  mlist_rep m ls xs → ls !! i = Some l → xs !! i = Some x →
  (∀ h2, dom h2 = list_to_set ls →
     (∀ k lk xk, k ≠ i → ls !! k = Some lk → xs !! k = Some xk →
        h2 !! lk = Some (mkelem xk (if decide (S k = i) then ls !! S i else ls !! S k)
                           (if decide (k = S i) then prev_of ls i else prev_of ls k))) →
     Q h2 s) →
  wp (let* h1 := match prev_of ls i with
                 | Some p => estore (ml_heap m) p (set_next (ls !! S i))
                 | None => ret (ml_heap m)
                 end in
      match ls !! S i with
      | Some n => estore h1 n (set_prev (prev_of ls i))
      | None => ret h1
      end) E Q s.
Proof.
  intros (Hnd & Hlen & Hel & Hf & Hl & Hdom) Hi Hx HQ.
  assert (Hstep1 : ∀ Q' : gmap loc (m_list_elem A) → m_list A → Prop,
    (∀ h1, dom h1 = list_to_set ls →
      (∀ k lk xk, ls !! k = Some lk → xs !! k = Some xk →
         h1 !! lk = Some (mkelem xk (if decide (S k = i) then ls !! S i else ls !! S k) (prev_of ls k))) →
      Q' h1 s) →
    wp (match prev_of ls i with
        | Some p => estore (ml_heap m) p (set_next (ls !! S i))
        | None => ret (ml_heap m)
        end) E Q' s).
  { intros Q' HQ'. destruct (prev_of ls i) as [p|] eqn:Hp.
    - destruct i as [|j]; [done|]. simpl in Hp.
      destruct (lookup_lt_is_Some_2 xs j) as [y Hy]; [apply lookup_lt_Some in Hp; lia|].
      eapply wp_estore; [by apply (Hel j p y)|]. apply HQ'.
      + rewrite dom_insert_L, Hdom. apply list_elem_of_lookup_2 in Hp. set_solver.
      + intros k lk xk Hk Hxk. case_decide as Hd.
        * assert (k = j) as -> by lia. assert (lk = p) as -> by congruence.
          rewrite lookup_insert_eq. unfold set_next; simpl. congruence.
        * rewrite lookup_insert_ne; [by apply Hel|]. intros <-. apply Hd.
          f_equal. by eapply NoDup_lookup.
    - apply wp_ret, HQ'; [done|]. intros k lk xk Hk Hxk. case_decide as Hd; [|by apply Hel].
      subst i. simpl in Hp. congruence. }
  apply wp_bind, Hstep1. intros h1 Hdom1 H1. destruct (ls !! S i) as [n|] eqn:Hn.
  - destruct (lookup_lt_is_Some_2 xs (S i)) as [y Hy]; [apply lookup_lt_Some in Hn; lia|].
    eapply wp_estore; [by apply (H1 (S i) n y)|]. apply HQ.
    + rewrite dom_insert_L, Hdom1. apply list_elem_of_lookup_2 in Hn. set_solver.
    + intros k lk xk Hki Hk Hxk. destruct (decide (k = S i)) as [->|Hne].
      * assert (lk = n) as -> by congruence. rewrite lookup_insert_eq. unfold set_prev; simpl.
        congruence.
      * rewrite lookup_insert_ne; [by apply H1|]. intros <-. apply Hne. by eapply NoDup_lookup.
  - apply wp_ret, HQ; [done|]. intros k lk xk Hki Hk Hxk. rewrite (H1 k lk xk Hk Hxk).
    destruct (decide (k = S i)) as [->|]; [congruence|done].
Qed.

Lemma wp_unlink_k {B} ls xs i l x (k : gmap loc (m_list_elem A) → ST (m_list A) B) E
    (Q : B → m_list A → Prop) m s :
  mlist_rep m ls xs → ls !! i = Some l → xs !! i = Some x →
  (∀ h2, dom h2 = list_to_set ls →
     (∀ k lk xk, k ≠ i → ls !! k = Some lk → xs !! k = Some xk →
        h2 !! lk = Some (mkelem xk (if decide (S k = i) then ls !! S i else ls !! S k)
                           (if decide (k = S i) then prev_of ls i else prev_of ls k))) →
     wp (k h2) E Q s) →
  wp (let* h1 := match prev_of ls i with
                 | Some p => estore (ml_heap m) p (set_next (ls !! S i))
                 | None => ret (ml_heap m)
                 end in
      let* h2 := match ls !! S i with
                 | Some n => estore h1 n (set_prev (prev_of ls i))
                 | None => ret h1
                 end in k h2) E Q s.
Proof.
  intros Hrep Hi Hx Hk. apply wp_bind_assoc, wp_bind.
  by eapply wp_unlink.
Qed.

Lemma prev_of_delete (ls : list loc) i j :
  prev_of (delete i ls) j = if decide (j ≤ i)%nat then prev_of ls j else ls !! j.
Proof.
  destruct j as [|j]; simpl.
  - done.
  - case_decide.
    + by rewrite list_lookup_delete_lt by lia.
    + by rewrite list_lookup_delete_ge by lia.
Qed.

Lemma wp_list_remove ls xs i l x E (Q : A → m_list A → Prop) m :
  mlist_rep m ls xs → ls !! i = Some l → xs !! i = Some x →
  (∀ m', mlist_rep m' (delete i ls) (delete i xs) → Q x m') →
  wp (list_remove l) E Q m.
Proof.
  intros Hrep Hi Hx HQ. pose proof Hrep as (Hnd & Hlen & Hel & Hf & Hl & Hdom).
  apply wp_bind, wp_get, wp_bind. unfold eref. rewrite (Hel i l x Hi Hx). apply wp_ret. simpl.
  eapply wp_unlink_k; [done..|]. intros h2 Hdom2 H2. apply wp_bind, wp_put, wp_ret, HQ.
  assert (Hil : (i < length ls)%nat) by (by eapply lookup_lt_Some).
  assert (Hld : S (length (delete i ls)) = length ls) by (rewrite length_delete; [lia|eauto]).
  assert (Hlx : S (length (delete i xs)) = length xs) by (rewrite length_delete; [lia|eauto]).
  assert (Hne : ∀ j lj, j ≠ i → ls !! j = Some lj → lj ≠ l).
  { intros j lj Hji Hj ->. apply Hji. by eapply NoDup_lookup. }
  unfold mlist_rep; simpl. split_and!.
  - eapply sublist_NoDup; [done|apply sublist_delete].
  - lia.
  - intros j lj xj Hj Hxj. rewrite prev_of_delete. destruct (decide (j < i)%nat) as [Hlt|Hge].
    + rewrite list_lookup_delete_lt in Hj by lia. rewrite list_lookup_delete_lt in Hxj by lia.
      rewrite lookup_delete_ne by (symmetry; eapply Hne; [|done]; lia).
      rewrite (H2 j lj xj) by (done || lia). rewrite (decide_False (P := j = S i)) by lia.
      rewrite (decide_True (P := (j ≤ i)%nat)) by lia. do 2 f_equal. case_decide.
      * subst i. by rewrite list_lookup_delete_ge by lia.
      * by rewrite list_lookup_delete_lt by lia.
    + rewrite list_lookup_delete_ge in Hj by lia. rewrite list_lookup_delete_ge in Hxj by lia.
      rewrite lookup_delete_ne by (symmetry; eapply Hne; [|done]; lia).
      rewrite (H2 (S j) lj xj) by (done || lia). rewrite (decide_False (P := S (S j) = i)) by lia.
      rewrite (list_lookup_delete_ge ls i (S j)) by lia. do 2 f_equal. simpl.
      repeat case_decide; try lia; try done. by replace j with i by lia.
  - rewrite Hf. destruct i as [|i].
    + destruct ls as [|l0 ls]; [done|]. simpl in *. injection Hi as ->.
      rewrite decide_True by done. by destruct ls.
    + destruct ls as [|l0 ls]; [done|]. simpl in *. rewrite decide_False; [done|].
      intros [= ->]. by apply (Hne 0%nat l).
  - rewrite Hl, !last_lookup. replace (pred (length (delete i ls))) with (length ls - 2)%nat by lia.
    destruct (decide (S i = length ls)) as [He|He].
    + replace (pred (length ls)) with i by lia. rewrite Hi, decide_True by done.
      destruct i as [|i]; simpl.
      * destruct ls as [|? [|]]; try done.
      * rewrite list_lookup_delete_lt by lia. f_equal. lia.
    + rewrite decide_False.
      * rewrite list_lookup_delete_ge by lia. f_equal. lia.
      * intros Hp. apply (Hne (pred (length ls)) l); [lia|done|done].
  - rewrite dom_delete_L, Hdom2. apply set_eq. intros y.
    rewrite elem_of_difference, elem_of_singleton, !elem_of_list_to_set, !list_elem_of_lookup.
    split.
    + intros [[k Hk] Hyl]. assert (k ≠ i) by (intros ->; congruence).
      destruct (decide (k < i)%nat).
      * exists k. by rewrite list_lookup_delete_lt.
      * exists (pred k). rewrite list_lookup_delete_ge by lia. by replace (S (pred k)) with k by lia.
    + intros [k Hk]. destruct (decide (k < i)%nat).
      * rewrite list_lookup_delete_lt in Hk by done. split; [eauto|]. eapply Hne; [|done]. lia.
      * rewrite list_lookup_delete_ge in Hk by lia. split; [eauto|]. eapply Hne; [|done]. lia.
Qed.
End mlist.

(** ** The properties of the linked lists *)

Inductive queue_op (A : Type) := QEnqueue (x : A) | QDequeue | QExamine.
Arguments QEnqueue {A} _.
Arguments QDequeue {A}.
Arguments QExamine {A}.

Section queue_refinement.
Context {A : Type}.

Definition run_queue_op (op : queue_op A) : ST (Queue A) (list A) :=
  match op with
  | QEnqueue x => do* enqueue x; ret []
  | QDequeue => let* x := dequeue in ret [x]
  | QExamine => let* x := examine in ret [x]
  end.

Fixpoint run_queue_ops (ops : list (queue_op A)) : ST (Queue A) (list A) :=
  match ops with
  | [] => ret []
  | op :: ops =>
      let* out := run_queue_op op in
      let* rest := run_queue_ops ops in
      ret (out ++ rest)
  end.

(** The specification: a first-in first-out list; [None] when an empty
    queue is read. *)
Fixpoint fifo_ops (ops : list (queue_op A)) (xs : list A) : option (list A * list A) :=
  match ops with
  | [] => Some ([], xs)
  | QEnqueue x :: ops => fifo_ops ops (xs ++ [x])
  | QDequeue :: ops =>
      match xs with
      | [] => None
      | x :: xs => option_map (prod_map (cons x) id) (fifo_ops ops xs)
      end
  | QExamine :: ops =>
      match xs with
      | [] => None
      | x :: _ => option_map (prod_map (cons x) id) (fifo_ops ops xs)
      end
  end.

Lemma run_queue_ops_refine ops xs out xs' q :
  queue_rep q xs → zlen xs + zlen ops < 2 ^ 32 → fifo_ops ops xs = Some (out, xs') →
  wp (run_queue_ops ops) no_exit (λ r q', r = out ∧ queue_rep q' xs') q.
Proof.
  revert xs out q. induction ops as [|op ops IH]; intros xs out q Hrep Hlen Hspec; simpl in Hspec.
  - injection Hspec as <- <-. done.
  - rewrite zlen_cons in Hlen. pose proof (zlen_nonneg ops).
    cbn [run_queue_ops]. apply wp_bind. destruct op as [x| |].
    + apply wp_bind, (wp_enqueue x xs); [done|lia|]. intros q' Hrep'. apply wp_ret, wp_bind.
      eapply wp_mono; [eapply IH; [done| |done]|].
      { rewrite zlen_app. change (zlen [x]) with 1. lia. }
      by intros r q2 [-> ?].
    + destruct xs as [|x xs]; [done|].
      destruct (fifo_ops ops xs) as [[out0 xs0]|] eqn:Hf; [|done]. injection Hspec as <- <-.
      rewrite zlen_cons in Hlen.
      apply wp_bind, (wp_dequeue x xs); [done|rewrite zlen_cons; lia|]. intros q' Hrep'.
      apply wp_ret, wp_bind. eapply wp_mono; [eapply IH; [done|lia|done]|].
      by intros r q2 [-> ?].
    + destruct xs as [|x xs]; [done|].
      destruct (fifo_ops ops (x :: xs)) as [[out0 xs0]|] eqn:Hf; [|done]. injection Hspec as <- <-.
      apply wp_bind, (wp_examine x xs); [done|].
      apply wp_ret, wp_bind. eapply wp_mono; [eapply IH; [done|lia|done]|].
      by intros r q2 [-> ?].
Qed.
End queue_refinement.

(** The pointer queue refines a FIFO list.  Started with [initqueue],
    any sequence of enqueue, dequeue and examine that does not read an empty
    queue runs without dereferencing a null or freed link, returns exactly
    the items a first-in first-out list returns, and ends in a heap that
    stores the remaining items and not one link more (nothing leaks). *)
Theorem queue_refines_fifo {A} (ops : list (queue_op A)) (out xs : list A) (q : Queue A) :
  zlen ops < 2 ^ 32 → fifo_ops ops [] = Some (out, xs) →
  wp (do* initqueue; run_queue_ops ops) no_exit
     (λ r q', r = out ∧ queue_rep q' xs ∧ size (q_heap q') = length xs) q.
Proof.
  intros Hlen Hspec. apply wp_bind, wp_put.
  eapply wp_mono; [eapply run_queue_ops_refine; [apply queue_rep_init|done|done]|].
  intros r q' [-> Hrep]. split_and!; [done|done|].
  destruct Hrep as (ls & Hnd & Hc & _ & Hdom & _).
  rewrite <-size_dom, Hdom, size_list_to_set by done. by eapply chain_length.
Qed.

Lemma queue_refines_fifo_witness :
  wp (do* initqueue; run_queue_ops [QEnqueue 1; QEnqueue 2; QDequeue; QExamine; QEnqueue 3]) no_exit
     (λ r q', r = [1; 2] ∧ queue_rep q' [2; 3] ∧ size (q_heap q') = 2%nat)
     (mkqueue ∅ None None 7).
Proof.
  apply (queue_refines_fifo [QEnqueue 1; QEnqueue 2; QDequeue; QExamine; QEnqueue 3] [1; 2] [2; 3]).
  - vm_compute. done.
  - reflexivity.
Defined.

(** Removal from the doubly linked list.  For an element anywhere in an
    [m_list], [list_remove] returns its item, relinks its neighbours and the
    first and last pointers and frees exactly its link: the heap then
    represents the list without that element. *)
Theorem list_remove_unlinks {A} (m : m_list A) (ls : list loc) (xs : list A) i l x :
  mlist_rep m ls xs → ls !! i = Some l → xs !! i = Some x →
  wp (list_remove l) no_exit (λ r m', r = x ∧ mlist_rep m' (delete i ls) (delete i xs)) m.
Proof. intros. eapply wp_list_remove; eauto. Qed.

Definition mlist_example : m_list Z :=
  mkmlist {[0%nat := mkelem 10 (Some 1%nat) None; 1%nat := mkelem 20 (Some 2%nat) (Some 0%nat);
            2%nat := mkelem 30 None (Some 1%nat)]} (Some 0%nat) (Some 2%nat).

Lemma list_remove_unlinks_witness :
  wp (list_remove 1%nat) no_exit
     (λ r m', r = 20 ∧ mlist_rep m' (delete 1%nat [0; 1; 2]%nat) (delete 1%nat [10; 20; 30]))
     mlist_example.
Proof.
  eapply (list_remove_unlinks mlist_example [0; 1; 2]%nat [10; 20; 30]); [|reflexivity..].
  split_and!; try reflexivity.
  - decide_closed.
  - intros [|[|[|]]] l x Hl Hx; simpl in *; try done; injection Hl as <-; injection Hx as <-;
      reflexivity.
Defined.
