(* ===== verification/Netio.v ===== *)
(** * The queue of encrypted packets (src/src/netio.c)

    [packet_queue_to_iovec] exposes the unsent parts of the queued packets to
    [writev], [packet_queue_consume] drops what was written.  Both work on
    the pointer queue of Queue.v holding the buffers of Buffer.v.

    The specification is the byte stream still to be sent,
    [queue_bytes]: the concatenation of what remains in the queued buffers. *)

From Stdlib Require Import ZArith Lia.
From stdpp Require Import base list strings gmap.
From S2P Require Import Prelude.
From S2P Require Import Buffer.
From S2P Require Import Queue.

Definition IOV_MAX : Z := 1024.

(** [int len = writebuf->len - writebuf->pos]. *)
Definition s32 (x : Z) : Z := if u32 x <? 2 ^ 31 then u32 x else u32 x - 2 ^ 32.

Fixpoint iov_loop (n : nat) (l : option loc) : ST (Queue buffer) (list (list Z)) :=
  match n with
  | O => ret []
  | Datatypes.S n' =>
      let* q := get in
      let* k := deref (q_heap q) l in
      let writebuf := l_item k in
      let len := s32 (b_len writebuf - b_pos writebuf) in
      do* dropbear_assert (len >? 0) "len > 0";
      let* (bs, _) := on_new writebuf (let* p := buf_getptr len in mem_load p len) in
      let* rest := iov_loop n' (l_link k) in
      ret (bs :: rest)
  end.

(** The [iovec]s as the byte strings they point at; their number is the
    returned [*iov_count]. *)
Definition packet_queue_to_iovec (iov_count : Z) : ST (Queue buffer) (list (list Z)) :=
  let* q := get in
  let n := Z.min (Z.min (q_count q) IOV_MAX) iov_count in
  iov_loop (Z.to_nat n) (q_head q).

Fixpoint consume_loop (fuel : nat) (written : Z) : ST (Queue buffer) unit :=
  if written >? 0 then
    match fuel with
    | O => fault "fuel"
    | Datatypes.S fuel =>
        let* writebuf := examine in
        let len := s32 (b_len writebuf - b_pos writebuf) in
        if len >? written then
          let* (_, writebuf') := on_new writebuf (buf_incrpos written) in
          do* update_head writebuf';
          consume_loop fuel 0
        else
          do* dequeue;
          consume_loop fuel (written - len)
    end
  else ret tt.

(** Every iteration ends the loop or removes a packet, so the packet count
    bounds the iterations. *)
Definition packet_queue_consume (written : Z) : ST (Queue buffer) unit :=
  let* q := get in
  consume_loop (Datatypes.S (Z.to_nat (q_count q))) written.

(** ** Specification *)

(** A packet waiting in the queue has something left to send. *)
Definition pending_ok (b : buffer) : Prop := wf_buf b ∧ b_pos b < b_len b.

Definition queue_bytes (bufs : list buffer) : list Z := concat (map remaining bufs).

Lemma remaining_length b : wf_buf b → zlen (remaining b) = b_len b - b_pos b.
Proof. intros (?&?&?&?). unfold remaining. apply zlen_slice; lia. Qed.

Lemma pending_len b : pending_ok b → s32 (b_len b - b_pos b) = zlen (remaining b).
Proof.
  intros [Hwf Hp]. rewrite remaining_length by done. destruct Hwf as (?&?&?&?).
  unfold BUF_MAX_SIZE in *. unfold s32. rewrite u32_small by lia. by if_true.
Qed.

Lemma pending_pos b : pending_ok b → 0 < zlen (remaining b).
Proof. intros [Hwf Hp]. rewrite remaining_length by done. lia. Qed.

Lemma zlen_drop_bytes (l : list Z) n : 0 ≤ n ≤ zlen l → zlen (drop (Z.to_nat n) l) = zlen l - n.
Proof. unfold zlen. rewrite length_drop. lia. Qed.

(** Moving the cursor of a pending packet drops the bytes sent. *)
Lemma remaining_after_get n b :
  wf_buf b → 0 ≤ n → b_pos b + n ≤ b_len b →
  remaining (after_get n b) = drop (Z.to_nat n) (remaining b).
Proof.
  intros Hwf Hn Hle. unfold remaining; simpl. destruct Hwf as (?&?&?&?).
  replace (b_len b - b_pos b) with (n + (b_len b - (b_pos b + n))) by lia.
  rewrite slice_app_split by lia. symmetry. apply drop_app_length'.
  apply Nat2Z.inj. rewrite Z2Nat.id by lia. symmetry. apply (zlen_slice (b_pos b) n); lia.
Qed.

Lemma wp_iov_loop n bufs ls q p E (Q : list (list Z) → Queue buffer → Prop) :
  chain (q_heap q) p ls bufs → Forall pending_ok bufs → (n ≤ length bufs)%nat →
  Q (map remaining (take n bufs)) q → wp (iov_loop n p) E Q q.
Proof.
  revert n p ls Q. induction bufs as [|b bufs IH]; intros n p ls Q Hc Hok Hn HQ.
  - destruct n; [done|simpl in Hn; lia].
  - destruct n as [|n]; [done|]. apply Forall_cons in Hok as [Hb Hok].
    destruct ls as [|l ls]; simpl in Hc; [done|]. destruct Hc as [-> (nxt & Hl & Hc)].
    cbn [iov_loop]. apply wp_bind, wp_get, wp_bind. unfold deref. rewrite Hl. apply wp_ret. simpl l_item.
    pose proof (pending_pos b Hb). pose proof (remaining_length b (proj1 Hb)) as Hrl.
    pose proof Hb as [(?&?&?&?) Hp].
    rewrite pending_len by done. apply wp_bind, wp_assert; [lia|]. intros _.
    apply wp_bind, wp_on_new, wp_bind, wp_buf_getptr; [by destruct Hb|lia| |lia]. intros _.
    apply wp_mem_load; [lia..|]. apply wp_bind. eapply IH; [done|done|simpl in Hn; lia|].
    apply wp_ret. rewrite Hrl. exact HQ.
Qed.

Lemma wp_consume_loop fuel w bufs q :
  queue_rep q bufs → zlen bufs < 2 ^ 32 → Forall pending_ok bufs →
  0 ≤ w ≤ zlen (queue_bytes bufs) → (length bufs < fuel)%nat →
  wp (consume_loop fuel w) no_exit
     (λ _ q', ∃ bufs', queue_rep q' bufs' ∧ Forall pending_ok bufs' ∧
        queue_bytes bufs' = drop (Z.to_nat w) (queue_bytes bufs)) q.
Proof.
  revert w bufs q. induction fuel as [|fuel IH]; intros w bufs q Hrep Hlen Hok Hw Hf; [lia|].
  cbn [consume_loop]. apply wp_if; intros Hpos.
  2: { apply wp_ret. exists bufs. replace w with 0 by lia. done. }
  destruct bufs as [|b bufs]; [unfold queue_bytes, zlen in Hw; simpl in Hw; lia|].
  apply Forall_cons in Hok as [Hb Hok]. unfold queue_bytes in *. simpl in Hw |- *.
  rewrite zlen_app in Hw. pose proof (remaining_length b (proj1 Hb)) as Hrl.
  apply wp_bind, (wp_examine b bufs); [done|]. rewrite pending_len by done.
  apply wp_if; intros Hcmp.
  - apply wp_bind, wp_on_new, wp_buf_incrpos; [by destruct Hb|lia| |lia]. intros.
    apply wp_bind, (wp_update_head b (after_get w b) bufs); [done|]. intros q' Hrep'.
    destruct fuel as [|fuel]; [simpl in Hf; lia|]. simpl. apply wp_ret.
    exists (after_get w b :: bufs). split_and!; [done| |].
    + constructor; [|done]. split; [|simpl; lia]. destruct Hb. apply wf_after_get; auto with lia.
    + simpl. rewrite remaining_after_get by (destruct Hb; done || lia).
      rewrite drop_app_le; [done|]. unfold zlen in *. lia.
  - rewrite zlen_cons in Hlen. apply wp_bind, (wp_dequeue b bufs); [done|rewrite zlen_cons; lia|].
    intros q' Hrep'. pose proof (pending_pos b Hb).
    eapply wp_mono; [apply (IH _ bufs); [done|lia|done|lia|simpl in Hf; lia]|].
    intros _ q2 (bufs' & ? & ? & Heq). exists bufs'. split_and!; [done..|]. rewrite Heq.
    rewrite drop_app_ge by (unfold zlen in *; lia). f_equal. unfold zlen in *. lia.
Qed.

(** Draining the packet queue.  For a queue holding packets with unsent
    bytes, [packet_queue_to_iovec] returns the unsent parts of the first
    [min(count, IOV_MAX, iov_count)] packets in order, and after any partial
    write of [w] bytes of the queued stream [packet_queue_consume]
    terminates, without error, with a queue whose stream is the old one with
    exactly the first [w] bytes gone and no empty packet left in it. *)
Theorem packet_queue_drains (q : Queue buffer) (bufs : list buffer) (iov_count w : Z) :
  queue_rep q bufs → zlen bufs < 2 ^ 32 → Forall pending_ok bufs →
  0 ≤ iov_count → 0 ≤ w ≤ zlen (queue_bytes bufs) →
  wp (let* iov := packet_queue_to_iovec iov_count in
      do* packet_queue_consume w;
      ret iov) no_exit
     (λ iov q', iov = map remaining (take (Z.to_nat (Z.min (Z.min (zlen bufs) IOV_MAX) iov_count)) bufs) ∧
        ∃ bufs', queue_rep q' bufs' ∧ Forall pending_ok bufs' ∧
          queue_bytes bufs' = drop (Z.to_nat w) (queue_bytes bufs)) q.
Proof.
  intros Hrep Hlen Hok Hi Hw. pose proof Hrep as (ls & _ & Hc & _ & _ & Hn).
  apply wp_bind, wp_bind, wp_get. rewrite Hn. pose proof (zlen_nonneg bufs).
  eapply wp_iov_loop; [done|done|unfold zlen in *; lia|].
  apply wp_bind, wp_bind, wp_get. rewrite Hn.
  eapply wp_mono; [apply (wp_consume_loop _ w bufs); try done; unfold zlen; lia|].
  intros [] q' Hq'. by apply wp_ret.
Qed.

Lemma packet_queue_drains_witness :
  let bufs := [mkbuf [1; 2; 3] 3 1 3; mkbuf [4; 5] 2 0 2] in
  let q := mkqueue {[0%nat := mklink (mkbuf [1; 2; 3] 3 1 3) (Some 1%nat);
                     1%nat := mklink (mkbuf [4; 5] 2 0 2) None]} (Some 0%nat) (Some 1%nat) 2 in
  wp (let* iov := packet_queue_to_iovec 50 in
      do* packet_queue_consume 3;
      ret iov) no_exit
     (λ iov q', iov = [[2; 3]; [4; 5]] ∧
        ∃ bufs', queue_rep q' bufs' ∧ Forall pending_ok bufs' ∧ queue_bytes bufs' = [5]) q.
Proof.
  assert (Hwf : ∀ l p (d : list Z), 0 ≤ p < l → l = zlen d → l ≤ 3 → bytes_ok d →
            pending_ok (mkbuf d l p l)).
  { intros. unfold pending_ok, wf_buf, BUF_MAX_SIZE; simpl. split_and!; try lia; done. }
  apply (packet_queue_drains _ [mkbuf [1; 2; 3] 3 1 3; mkbuf [4; 5] 2 0 2] 50 3).
  - exists [0; 1]%nat. split_and!; try reflexivity.
    + decide_closed.
    + split; [done|]. exists (Some 1%nat). split; [done|]. split; [done|]. by exists None.
  - vm_compute. done.
  - repeat (apply Forall_cons; split); try apply Hwf; first [lia|done|decide_closed].
  - lia.
  - vm_compute. split; congruence.
Defined.
