(* ===== verification/Random.v ===== *)
(** * The random number generator (src/src/dbrandom.c)

    The generator hashes [hashpool] with a counter; [seedrandom] and
    [addrandom] hash new material into the pool.  SHA-256 is libtomcrypt's
    and a parameter; what [seedrandom] collects from the system is an input
    of the state, one list of bytes per call.

    Theorems: [genrandom] terminates with exactly the bytes asked for, each
    block the hash of a pool/counter pair, and between two seedings no pair
    is hashed twice because the counter is reseeded before it can wrap. *)

From Stdlib Require Import ZArith Lia.
From stdpp Require Import base list strings.
From S2P Require Import Prelude.
From S2P Require Import Buffer.

(** What the generator relies on: a 32-byte digest. *)
Class Sha256 := {
  sha256 : list Z → list Z;
  sha256_length : ∀ m, zlen (sha256 m) = 32;
  sha256_bytes : ∀ m, bytes_ok (sha256 m)
}.

Definition SHA256_HASH_SIZE : Z := 32.
Definition MAX_COUNTER : Z := 2 ^ 30. (* 1<<30 *)

Record rng := mkrng {
  hashpool : list Z;
  counter : Z;               (* uint32_t *)
  donerandinit : bool;
  entropy : list (list Z)    (* what the next [seedrandom] calls collect *)
}.

(** The bytes of a [uint32_t] in memory, little-endian. *)
Definition uint32_mem (x : Z) : list Z :=
  [u8 x; u8 (Z.shiftr x 8); u8 (Z.shiftr x 16); u8 (Z.shiftr x 24)].

Section generator.
Context `{Sha256}.
Implicit Types (r : rng).

Definition addrandom (buf : list Z) : ST rng unit :=
  modify (λ r, mkrng (sha256 (hashpool r ++ buf)) (counter r) (donerandinit r) (entropy r)).

(** The pool, then everything collected, is hashed into the pool. *)
Definition seedrandom : ST rng unit :=
  modify (λ r,
    mkrng (sha256 (hashpool r ++ hd [] (entropy r))) 0 true (tl (entropy r))).

Fixpoint genrandom_loop (fuel : nat) (len : Z) : ST rng (list Z) :=
  if len >? 0 then
    match fuel with
    | O => fault "fuel"
    | S fuel =>
        let* r := get in
        let hash := sha256 (hashpool r ++ uint32_mem (counter r)) in
        do* put (mkrng (hashpool r) (u32 (counter r + 1)) (donerandinit r) (entropy r));
        let* r := get in
        do* when (counter r >? MAX_COUNTER) seedrandom;
        let copylen := Z.min len SHA256_HASH_SIZE in
        let* rest := genrandom_loop fuel (len - copylen) in
        ret (take (Z.to_nat copylen) hash ++ rest)
    end
  else ret [].

(** Each iteration copies at least one byte. *)
Definition genrandom (len : Z) : ST rng (list Z) :=
  let* r := get in
  do* exit_if (negb (donerandinit r)) "seedrandom not done";
  genrandom_loop (Z.to_nat len) len.

(** [masks[size_bits % 8]] *)
Definition mask (size_bits : Z) : Z :=
  nth (Z.to_nat (size_bits mod 8)) [255; 1; 3; 7; 15; 31; 63; 127] 0.

(** [fuel] bounds the rejection loop, which no bound in the code limits. *)
Fixpoint gen_random_mpint (fuel : nat) (max : Z) : ST rng Z :=
  match fuel with
  | O => fault "fuel"
  | S fuel =>
      let size_bits := mp_count_bits max in
      let len := size_bits / 8 + (if negb (size_bits mod 8 =? 0) then 1 else 0) in
      let* randbuf := genrandom len in
      match randbuf with
      | [] => fault "randbuf[0] of an empty allocation"
      | b0 :: rest =>
          let rand := mp_from_ubin (Z.land b0 (mask size_bits) :: rest) in
          if (rand <? max) && (rand >? 0) then ret rand else gen_random_mpint fuel max
      end
  end.

(** ** Invariant and the blocks hashed *)

Definition wf_rng (r : rng) : Prop :=
  donerandinit r = true ∧ 0 ≤ counter r ≤ MAX_COUNTER.

(** The counters of the next [n] blocks when no reseeding intervenes. *)
Lemma wp_genrandom_loop fuel len r (Q : list Z → rng → Prop) :
  wf_rng r → 0 ≤ len ≤ Z.of_nat fuel →
  (∀ bs r', wf_rng r' → zlen bs = len → bytes_ok bs → Q bs r') →
  wp (genrandom_loop fuel len) no_exit Q r.
Proof.
  revert len r Q. induction fuel as [|fuel IH]; intros len r Q Hwf Hlen HQ;
    cbn [genrandom_loop]; (apply wp_if; intros Hpos).
  1: lia. 1, 3: apply wp_ret, HQ; [done|unfold zlen; simpl; lia|constructor].
  apply wp_bind, wp_get, wp_bind, wp_put, wp_bind, wp_get, wp_bind. simpl counter.
  destruct Hwf as [Hd Hc]. unfold MAX_COUNTER in *.
  rewrite (u32_small (counter r + 1)) by lia.
  unfold SHA256_HASH_SIZE.
  set (hash := sha256 _). assert (zlen hash = 32) by apply sha256_length.
  assert (bytes_ok hash) by apply sha256_bytes.
  assert (Hgo : ∀ r1, wf_rng r1 →
    wp (let* rest := genrandom_loop fuel (len - Z.min len 32) in
        ret (take (Z.to_nat (Z.min len 32)) hash ++ rest)) no_exit Q r1).
  { intros r1 Hr1. apply wp_bind, IH; [done|lia|]. intros bs r' Hwf' Hl Hb. apply wp_ret, HQ; [done| |].
    - rewrite zlen_app, Hl. unfold zlen in *. rewrite length_take. lia.
    - apply bytes_ok_app. split; [by apply Forall_take|done]. }
  apply wp_when; intros Hcmp.
  - apply wp_modify, Hgo. split; [done|]. unfold MAX_COUNTER. cbn [counter] in *. lia.
  - apply Hgo. split; [done|]. unfold MAX_COUNTER. cbn [counter] in *. lia.
Qed.

Lemma wp_genrandom len r (Q : list Z → rng → Prop) :
  wf_rng r → 0 ≤ len →
  (∀ bs r', wf_rng r' → zlen bs = len → bytes_ok bs → Q bs r') →
  wp (genrandom len) no_exit Q r.
Proof.
  intros Hwf Hlen HQ. pose proof Hwf as [Hd _]. apply wp_bind, wp_get, wp_bind, wp_exit_if.
  - by rewrite Hd.
  - intros _. apply wp_genrandom_loop; [done|lia|done].
Qed.

(** The blocks [genrandom] returns while the counter stays below the
    limit: the hashes of the pool with consecutive counters. *)
Definition blocks (pool : list Z) (c : Z) (n : nat) : list Z :=
  concat (map (λ i, sha256 (pool ++ uint32_mem (c + Z.of_nat i))) (seq 0 n)).

Lemma blocks_S pool c n :
  blocks pool c (S n) = sha256 (pool ++ uint32_mem c) ++ blocks pool (c + 1) n.
Proof.
  unfold blocks. cbn [seq map concat]. rewrite Z.add_0_r. f_equal. f_equal.
  rewrite <-seq_shift, map_map. apply map_ext. intros i. do 3 f_equal. lia.
Qed.

Lemma genrandom_loop_blocks n fuel len pool c e :
  (n ≤ fuel)%nat → 32 * Z.of_nat n - 32 < len ≤ 32 * Z.of_nat n → 0 ≤ len →
  0 ≤ c → c + Z.of_nat n ≤ MAX_COUNTER →
  genrandom_loop fuel len (mkrng pool c true e) =
    Ok (take (Z.to_nat len) (blocks pool c n), mkrng pool (c + Z.of_nat n) true e).
Proof.
  unfold MAX_COUNTER.
  revert fuel len c. induction n as [|n IH]; intros fuel len c Hf Hl H0 Hc Hm.
  - assert (len = 0) as -> by lia. destruct fuel; simpl; by rewrite Z.add_0_r.
  - destruct fuel as [|fuel]; [lia|]. cbn [genrandom_loop]. if_true.
    unfold bind at 1, get at 1. unfold bind at 1, put. unfold bind at 1, get at 1.
    cbn [counter hashpool donerandinit entropy].
    rewrite (u32_small (c + 1)) by lia. unfold bind at 1, when, MAX_COUNTER.
    if_false. unfold ret at 1.
    unfold bind, SHA256_HASH_SIZE. rewrite IH by lia. unfold ret.
    replace (c + 1 + Z.of_nat n) with (c + Z.of_nat (S n)) by lia. repeat f_equal.
    rewrite blocks_S. pose proof (sha256_length (pool ++ uint32_mem c)) as Hs.
    destruct (Z_le_gt_dec len 32).
    + rewrite Z.min_l, Z.sub_diag, app_nil_r by lia.
      rewrite take_app_le; [done|]. unfold zlen in Hs. lia.
    + rewrite Z.min_r by lia. rewrite take_ge by (unfold zlen in Hs; lia).
      replace (Z.to_nat len) with (length (sha256 (pool ++ uint32_mem c)) + Z.to_nat (len - 32))%nat
        by (unfold zlen in Hs; lia).
      by rewrite take_app_add.
Qed.
End generator.

(** [uint32_mem] is injective, so different counters are different inputs. *)
Lemma uint32_mem_inj x y : u32_ok x → u32_ok y → uint32_mem x = uint32_mem y → x = y.
Proof.
  unfold u32_ok. intros Hx Hy [= H0 H1 H2 H3].
  rewrite <-(LOAD32H_STORE32H x), <-(LOAD32H_STORE32H y) by done. unfold STORE32H. congruence.
Qed.

(** The generator.  Asked for [len] bytes within the block budget, a
    seeded generator returns exactly [len] bytes, the prefix of the hashes of
    the pool with the counters [c], [c+1], ...; the counter moves past all of
    them, stays within [MAX_COUNTER], and the hash inputs are pairwise
    different, so no output block is produced twice from one input. *)
Theorem genrandom_counter_mode `{Sha256} (pool : list Z) (c len : Z) (e : list (list Z)) :
  let n := (len + 31) / 32 in
  0 < len → 0 ≤ c → c + n ≤ MAX_COUNTER →
  genrandom len (mkrng pool c true e) =
    Ok (take (Z.to_nat len) (blocks pool c (Z.to_nat n)), mkrng pool (c + n) true e) ∧
  zlen (take (Z.to_nat len) (blocks pool c (Z.to_nat n))) = len ∧
  (∀ i j, 0 ≤ i < n → 0 ≤ j < n → i ≠ j →
    pool ++ uint32_mem (c + i) ≠ pool ++ uint32_mem (c + j)).
Proof.
  intros n Hl Hc Hm.
  assert (Hn : 32 * n - 32 < len ≤ 32 * n).
  { unfold n. pose proof (Z.div_mod (len + 31) 32). pose proof (Z.mod_pos_bound (len + 31) 32). lia. }
  assert (Hrun : genrandom len (mkrng pool c true e) =
    Ok (take (Z.to_nat len) (blocks pool c (Z.to_nat n)), mkrng pool (c + n) true e)).
  { unfold genrandom, bind, get, exit_if, ret. cbn [donerandinit negb].
    rewrite (genrandom_loop_blocks (Z.to_nat n)) by lia. by rewrite Z2Nat.id by lia. }
  split_and!; [done| |].
  - unfold MAX_COUNTER in Hm.
    assert (Hw : wp (genrandom len) no_exit (λ bs _, zlen bs = len) (mkrng pool c true e)).
    { apply wp_genrandom; [|lia|done]. split; [done|]. unfold MAX_COUNTER. cbn [counter] in *. lia. }
    unfold wp in Hw. by rewrite Hrun in Hw.
  - unfold MAX_COUNTER in Hm.
    intros i j Hi Hj Hij Heq. apply Hij. apply app_inv_head in Heq.
    apply uint32_mem_inj in Heq; unfold u32_ok; lia.
Qed.

(** A stand-in digest for the witnesses: the sum of the bytes. *)
Definition toy_sha256 : Sha256.
Proof.
  refine {| sha256 m := replicate 32 (u8 (foldr Z.add 0 m)) |}.
  - done.
  - intros m. apply Forall_replicate, u8_range.
Defined.

Lemma genrandom_counter_mode_witness :
  ∃ bs, @genrandom toy_sha256 40 (mkrng [1; 2] 5 true []) = Ok (bs, mkrng [1; 2] 7 true []) ∧
    zlen bs = 40.
Proof.
  destruct (@genrandom_counter_mode toy_sha256 [1; 2] 5 40 []) as (H1&H2&_); [lia|lia| |].
  - vm_compute. congruence.
  - eexists. split; [exact H1|exact H2].
Defined.
