(* ===== verification/Algo.v ===== *)
(** * Algorithm tables and negotiation (src/src/common-algo.c, src/src/algo.h)

    The tables [sshkex], [sshciphers], ... are lists of [algo_type] entries
    (the array up to its terminating [NULL] name).  [get_algolist] works on
    the memory of the received name-list as the code does: it overwrites the
    commas with NULs and returns pointers (offsets) into it, and
    [buf_match_algo] compares the C strings those pointers designate.

    Theorems: the two ends of a connection select the same algorithm, the
    client's first one the server also has; the outcome of a guess; an
    arbitrary received list is parsed without leaving the string; the
    command-line filter keeps the supported names in the user's order, and
    reads past the string for one that ends in a comma. *)

From Stdlib Require Import ZArith Lia.
From stdpp Require Import base list strings sets.
From S2P Require Import Prelude.
From S2P Require Import Buffer.

Record algo_type (D M : Type) := mkalgo {
  a_name : list Z;       (* identifying name *)
  a_val : Z;             (* a value for this algorithm *)
  a_data : option D;     (* algorithm specific data *)
  a_usable : bool;       (* whether we can use this algorithm *)
  a_mode : option M      (* the mode, only used for ciphers *)
}.
Arguments mkalgo {D M} _ _ _ _ _.
Arguments a_name {D M} _.
Arguments a_val {D M} _.
Arguments a_data {D M} _.
Arguments a_usable {D M} _.
Arguments a_mode {D M} _.

Definition MAX_PROPOSED_ALGO : Z := 50.
Definition COMMA : Z := 44.

(** ** C strings in memory *)

(** The C string at the start of [mem]: the bytes before the first NUL, or
    nothing when there is none. *)
Fixpoint cstr (mem : list Z) : option (list Z) :=
  match mem with
  | [] => None
  | c :: mem => if c =? 0 then Some [] else option_map (cons c) (cstr mem)
  end.

(** The C string a pointer designates. *)
Definition cstr_at (mem : list Z) (p : Z) : option (list Z) := cstr (drop (Z.to_nat p) mem).

Definition str_get (i : Z) : ST (list Z) Z := λ mem,
  match (if 0 <=? i then mem !! Z.to_nat i else None) with
  | Some c => Ok (c, mem)
  | None => Fault "read outside the string"
  end.

Definition str_set (i c : Z) : ST (list Z) unit := λ mem,
  if (0 <=? i) && (i <? zlen mem) then Ok (tt, splice i [c] mem)
  else Fault "write outside the string".

Definition bytes_eqb (a b : list Z) : bool := bool_decide (a = b).

Section tables.
Context {D M : Type}.
#[local] Abbreviation algo := (algo_type D M).
Implicit Types (localalgos algos : list algo) (b : buffer).

(** The loop of [buf_put_algolist_all]. *)
Fixpoint put_algos (localalgos : list algo) (useall donefirst : bool) : ST buffer unit :=
  match localalgos with
  | [] => ret tt
  | a :: rest =>
      if a_usable a || useall then
        do* when donefirst (buf_putbyte COMMA);
        do* buf_putbytes (a_name a);
        put_algos rest useall true
      else put_algos rest useall donefirst
  end.

Definition buf_put_algolist_all localalgos (useall : bool) : ST buffer unit :=
  let* startpos := gets b_pos in
  do* buf_putint 0;
  do* put_algos localalgos useall false;
  let* len := gets (λ b, u32 (b_pos b - startpos - 4)) in
  do* buf_setpos startpos;
  do* buf_putint len;
  buf_incrwritepos len.

Definition buf_put_algolist localalgos : ST buffer unit := buf_put_algolist_all localalgos false.

(** The loop of [get_algolist]: [n] characters are left from index [i] on,
    [ret_list] holds the [*ret_count] pointers found so far. *)
Fixpoint get_algolist_loop (n : nat) (i max_count : Z) (ret_list : list Z) :
    ST (list Z) (list Z) :=
  match n with
  | O => ret ret_list
  | S n =>
      let* c := str_get i in
      if c =? 0 then ret []
      else if c =? COMMA then
        do* exit_if (zlen ret_list >=? max_count) "Too many remote algorithms";
        do* str_set i 0;
        get_algolist_loop n (i + 1) max_count (ret_list ++ [i + 1])
      else get_algolist_loop n (i + 1) max_count ret_list
  end.

(** The state is the string [algolist] with its terminator.  The test of
    the length against [MAX_PROPOSED_ALGO*(MAX_NAME_LEN+1)] only sets
    [*ret_count] to 0, which the next assignment overwrites. *)
Definition get_algolist (algolist_len max_count : Z) : ST (list Z) (list Z) :=
  if max_count =? 0 then ret []
  else get_algolist_loop (Z.to_nat algolist_len) 0 max_count [0].

(** [algolist = buf_getstring(...); get_algolist(algolist, ...)] and the
    names behind the returned pointers. *)
Definition remote_names : ST buffer (list (list Z)) :=
  let* s := buf_getstring in
  λ b, match get_algolist (zlen s) MAX_PROPOSED_ALGO (s ++ [0]) with
       | Ok (ptrs, mem) =>
           match mapM (cstr_at mem) ptrs with
           | Some names => Ok (names, b)
           | None => Fault "unterminated name"
           end
       | Exit e => Exit e
       | Fault w => Fault w
       end.

Definition buf_has_algo (algo : list Z) : ST buffer bool :=
  let* orig_pos := gets b_pos in
  let* names := remote_names in
  do* buf_setpos orig_pos;
  ret (existsb (bytes_eqb algo) names).

Definition first_usable_algo algos : option algo := snd <$> list_find (λ a, a_usable a = true) algos.

(** [localnames]: unusable entries are [NULL]. *)
Definition local_names localalgos : list (option (list Z)) :=
  map (λ a, if a_usable a then Some (a_name a) else None) localalgos.

(** The inner loop: the index of the first [servnames] entry equal to
    [cli]. *)
Fixpoint match_serv (cli : option (list Z)) (servnames : list (option (list Z))) (j : Z) : option Z :=
  match servnames with
  | [] => None
  | serv :: rest =>
      match serv, cli with
      | Some s, Some c => if bytes_eqb s c then Some j else match_serv cli rest (j + 1)
      | _, _ => match_serv cli rest (j + 1)
      end
  end.

(** The outer loop: the first [clinames] index that matches, with the
    [servnames] index it matches. *)
Fixpoint match_cli (clinames servnames : list (option (list Z))) (i : Z) : option (Z * Z) :=
  match clinames with
  | [] => None
  | cli :: rest =>
      match match_serv cli servnames 0 with
      | Some j => Some (i, j)
      | None => match_cli rest servnames (i + 1)
      end
  end.

(** Returns the matched entry and [*goodguess]. *)
Definition buf_match_algo (isserver : bool) localalgos (kexguess2 : bool) :
    ST buffer (option algo * bool) :=
  let* names := remote_names in
  if zlen localalgos >? MAX_PROPOSED_ALGO then fault "localnames[] overflow"
  else
    let remotenames := map Some names in
    let localnames := local_names localalgos in
    let clinames := if isserver then remotenames else localnames in
    let servnames := if isserver then localnames else remotenames in
    match match_cli clinames servnames 0 with
    | None => ret (None, false)
    | Some (i, j) =>
        let goodguess := if kexguess2 then i =? 0 else (i =? 0) && (j =? 0) in
        ret (localalgos !! Z.to_nat (if isserver then j else i), goodguess)
    end.

(** [m_strdup] of the NUL-terminated list. *)
Definition algolist_string {S} algos : ST S (option (list Z)) :=
  let* b := buf_new 200 in
  let* (s, b) := on_new b
    (do* buf_put_algolist algos;
     let* b := get in
     do* buf_setpos (b_len b);
     do* buf_putbyte 0;
     do* buf_setpos 4;
     let* b := get in
     let* p := buf_getptr (u32 (b_len b - b_pos b)) in
     mem_load p (u32 (b_len b - b_pos b))) in
  ret (cstr s).

(** [strcmp(a->name, algo_name) == 0] *)
Fixpoint check_algo (algo_name : list Z) algos : option algo :=
  match algos with
  | [] => None
  | a :: rest => if bytes_eqb (a_name a) algo_name then Some a else check_algo algo_name rest
  end.

(** The loop of [check_user_algos] over the string [work_list]; [start]
    and [c] are pointers into it.  [fuel] bounds the iterations: [c]
    advances in each, and reading past the string stops the run. *)
Fixpoint check_user_loop (fuel : nat) algos (start c : Z) (new_algos : list algo) :
    ST (list Z) (list algo) :=
  match fuel with
  | O => fault "out of fuel"
  | S fuel =>
      let* oc := str_get c in
      do* exit_if (zlen new_algos >=? MAX_PROPOSED_ALGO) "Too many algorithms '%s'";
      if (oc =? COMMA) || (oc =? 0) then
        do* str_set c 0;
        let* mem := get in
        match cstr_at mem start with
        | None => fault "read outside the string"
        | Some name =>
            let new_algos :=
              match check_algo name algos with
              | Some match_algo =>
                  match check_algo name new_algos with
                  | Some _ => new_algos
                  | None => new_algos ++ [match_algo]
                  end
              | None => new_algos
              end in
            let c := c + 1 in
            if oc =? 0 then ret new_algos
            else check_user_loop fuel algos c (c + 1) new_algos
        end
      else check_user_loop fuel algos start (c + 1) new_algos
  end.

(** The [memcpy] of [n+1] entries over [algos], which has
    [length algos + 1] of them with its terminator, leaves the new list. *)
Definition check_user_algos (user_algo_list : list Z) algos : res (Z * list algo) :=
  let work_list := user_algo_list ++ [0] in
  match check_user_loop (2 + length work_list) algos 0 0 [] work_list with
  | Ok (new_algos, _) =>
      if zlen new_algos >? zlen algos then Fault "write outside algos[]"
      else Ok (zlen new_algos, new_algos)
  | Exit e => Exit e
  | Fault w => Fault w
  end.
End tables.

(** ** What the parser returns *)

(** The names of a comma-separated list; there is always at least one. *)
Fixpoint split_comma (s : list Z) : list (list Z) :=
  match s with
  | [] => [[]]
  | c :: s =>
      if c =? COMMA then [] :: split_comma s
      else match split_comma s with
           | w :: ws => (c :: w) :: ws
           | [] => [[c]]
           end
  end.

Fixpoint join_comma (names : list (list Z)) : list Z :=
  match names with
  | [] => []
  | [n] => n
  | n :: rest => n ++ COMMA :: join_comma rest
  end.

(** The bytes before the first NUL, and whether there is one. *)
Fixpoint before_nul (s : list Z) : list Z :=
  match s with [] => [] | c :: s => if c =? 0 then [] else c :: before_nul s end.

(** The string with its commas overwritten, and the pointers after them. *)
Definition nulled (s : list Z) : list Z := map (λ c, if c =? COMMA then 0 else c) s.
Fixpoint starts (i : Z) (s : list Z) : list Z :=
  match s with
  | [] => []
  | c :: s => if c =? COMMA then (i + 1) :: starts (i + 1) s else starts (i + 1) s
  end.

(** What a received list means to the parser: [None] when it leaves with
    "Too many remote algorithms". *)
Definition parse_names (s : list Z) : option (list (list Z)) :=
  if zlen (split_comma (before_nul s)) >? MAX_PROPOSED_ALGO then None
  else if existsb (Z.eqb 0) s then Some [] else Some (split_comma s).

(** A protocol name as RFC 4251 has it: not empty, no comma, no NUL. *)
Definition name_ok (n : list Z) : Prop := bytes_ok n ∧ n ≠ [] ∧ (0 ∉ n) ∧ (COMMA ∉ n).

#[global] Instance name_ok_dec n : Decision (name_ok n).
Proof. unfold name_ok. apply _. Defined.

Section names.
Implicit Types (s n pre rest : list Z).

Lemma split_comma_cons s : ∃ w ws, split_comma s = w :: ws.
Proof. destruct s as [|c s]; simpl; [eauto|]. repeat case_match; eauto. Qed.

Lemma split_comma_length s : zlen (split_comma s) = 1 + zlen (starts 0 s).
Proof.
  enough (H : ∀ i, zlen (split_comma s) = 1 + zlen (starts i s)) by apply H.
  induction s as [|c s IH]; intros i; simpl; [done|].
  destruct (split_comma_cons s) as (w&ws&Hs). specialize (IH (i + 1)).
  case_match; rewrite ?zlen_cons; rewrite Hs in *; rewrite !zlen_cons in *; lia.
Qed.

Lemma split_comma_name n : COMMA ∉ n → split_comma n = [n].
Proof.
  induction n as [|c n IH]; intros Hn; simpl; [done|].
  apply not_elem_of_cons in Hn as [??]. rewrite IH by done. by if_false.
Qed.

Lemma split_comma_app n s : COMMA ∉ n → split_comma (n ++ COMMA :: s) = n :: split_comma s.
Proof.
  induction n as [|c n IH]; intros Hn; simpl; [done|].
  apply not_elem_of_cons in Hn as [??]. rewrite IH by done. by if_false.
Qed.

Lemma split_join names :
  names ≠ [] → Forall (λ n, COMMA ∉ n) names → split_comma (join_comma names) = names.
Proof.
  intros Hne Hn. induction Hn as [|n names Hn Hns IH]; [done|].
  destruct names as [|n' names]; simpl; [by apply split_comma_name|].
  rewrite split_comma_app by done. f_equal. by apply IH.
Qed.

Lemma join_no_nul names : Forall (λ n, 0 ∉ n) names → 0 ∉ join_comma names.
Proof.
  induction 1 as [|n names Hn Hns IH]; simpl; [apply not_elem_of_nil|].
  destruct names; [done|]. unfold COMMA. rewrite elem_of_app, elem_of_cons. naive_solver.
Qed.

Lemma before_nul_id s : 0 ∉ s → before_nul s = s.
Proof.
  induction s as [|c s IH]; intros Hs; simpl; [done|].
  apply not_elem_of_cons in Hs as [??]. if_false. by rewrite IH.
Qed.

Lemma existsb_nul s : existsb (Z.eqb 0) s = bool_decide (0 ∈ s).
Proof.
  induction s as [|c s IH]; [done|]. cbn [existsb]. rewrite IH.
  destruct (Z.eqb_spec 0 c) as [<-|Hc]; cbn [orb].
  - symmetry. apply bool_decide_eq_true_2. constructor.
  - apply bool_decide_ext. rewrite elem_of_cons. tauto.
Qed.

Lemma cstr_at_app pre s p : zlen pre = p → cstr_at (pre ++ s) p = cstr s.
Proof. intros <-. unfold cstr_at, zlen. by rewrite Nat2Z.id, drop_app_length. Qed.

(** The pointers designate the names of the list. *)
Lemma cstr_split s pre :
  0 ∉ s →
  ∃ w ws, split_comma s = w :: ws ∧
    cstr (nulled s ++ [0]) = Some w ∧
    mapM (cstr_at (pre ++ nulled s ++ [0])) (starts (zlen pre) s) = Some ws.
Proof.
  revert pre. induction s as [|c s IH]; intros pre Hs; [by exists [], []|].
  apply not_elem_of_cons in Hs as [Hc Hs].
  destruct (IH (pre ++ [if c =? COMMA then 0 else c]) Hs) as (w&ws&Hsp&Hw&Hws).
  rewrite <-app_assoc, zlen_app in Hws. cbn [app] in Hws. cbn [split_comma nulled map starts].
  rewrite Hsp. change (zlen [_]) with 1 in Hws.
  destruct (Z.eqb_spec c COMMA) as [->|Hne].
  - exists [], (w :: ws). split_and!; [done|done|]. fold (nulled s). cbn [app].
    assert (Hh : cstr_at (pre ++ 0 :: nulled s ++ [0]) (zlen pre + 1) = Some w).
    { rewrite cons_middle, app_assoc, cstr_at_app; [done|]. by rewrite zlen_app. }
    simpl. rewrite Hh. simpl. by rewrite Hws.
  - exists (c :: w), ws. split_and!; [done| |done].
    cbn [app cstr]. rewrite (proj2 (Z.eqb_neq c 0)) by done. fold (nulled s). by rewrite Hw.
Qed.
End names.

Lemma wp_str_get i E Q mem :
  0 ≤ i < zlen mem → (∀ c, mem !! Z.to_nat i = Some c → Q c mem) → wp (str_get i) E Q mem.
Proof.
  intros Hi HQ. unfold wp, str_get. if_true.
  destruct (lookup_lt_is_Some_2 mem (Z.to_nat i)) as [c Hc]; [unfold zlen in *; lia|].
  rewrite Hc. by apply HQ.
Qed.

Lemma wp_str_set i c E (Q : unit → list Z → Prop) mem :
  0 ≤ i < zlen mem → Q tt (splice i [c] mem) → wp (str_set i c) E Q mem.
Proof. intros Hi HQ. unfold wp, str_set. by if_true. Qed.

Section parser.
Implicit Types (s pre rest acc mem : list Z).

Lemma wp_get_algolist_loop rest max_count pre acc :
  zlen acc ≤ max_count →
  wp (get_algolist_loop (length rest) (zlen pre) max_count acc)
    (λ _, max_count < zlen acc + zlen (starts 0 (before_nul rest)))
    (λ ptrs mem,
      zlen acc + zlen (starts 0 (before_nul rest)) ≤ max_count ∧
      (if bool_decide (0 ∈ rest) then ptrs = []
       else ptrs = acc ++ starts (zlen pre) rest ∧ mem = pre ++ nulled rest ++ [0]))
    (pre ++ rest ++ [0]).
Proof.
  assert (Hs0 : ∀ i s, zlen (starts i s) = zlen (starts 0 s)).
  { intros i s. pose proof (split_comma_length s). revert i.
    enough (∀ i j, zlen (starts i s) = zlen (starts j s)) by auto.
    clear. induction s as [|c s IH]; intros i j; simpl; [done|].
    case_match; rewrite ?zlen_cons, (IH _ (j + 1)); done. }
  revert pre acc. induction rest as [|c rest IH]; intros pre acc Hacc; cbn [length get_algolist_loop].
  { apply wp_ret. cbn [starts before_nul nulled map]. rewrite app_nil_r.
    change (zlen []) with 0. split; [lia|done]. }
  assert (Hlook : (pre ++ (c :: rest) ++ [0]) !! Z.to_nat (zlen pre) = Some c).
  { unfold zlen. rewrite Nat2Z.id, lookup_app_r by lia. by rewrite Nat.sub_diag. }
  assert (Hin : 0 ≤ zlen pre < zlen (pre ++ (c :: rest) ++ [0])).
  { pose proof (zlen_nonneg pre). pose proof (zlen_nonneg (rest ++ [0])).
    cbn [app]. rewrite zlen_app, zlen_cons. lia. }
  apply wp_bind, wp_str_get; [done|]. rewrite Hlook. intros ? [= <-]. cbn [before_nul].
  destruct (Z.eqb_spec c 0) as [->|Hc].
  { apply wp_ret. rewrite bool_decide_eq_true_2 by constructor. cbn [starts].
    change (zlen []) with 0. split; [lia|done]. }
  replace (bool_decide (0 ∈ c :: rest)) with (bool_decide (0 ∈ rest))
    by (apply bool_decide_ext; rewrite elem_of_cons; intuition congruence).
  cbn [starts]. specialize (IH (pre ++ [if c =? COMMA then 0 else c])).
  rewrite zlen_app in IH. change (zlen [_]) with 1 in IH.
  destruct (Z.eqb_spec c COMMA) as [->|Hne].
  - rewrite zlen_cons, Hs0. pose proof (zlen_nonneg (starts 0 (before_nul rest))).
    apply wp_bind, wp_exit_if; intros; [lia|]. apply wp_bind, wp_str_set; [done|].
    replace (splice _ _ _) with ((pre ++ [0]) ++ rest ++ [0])
      by (cbn [app]; rewrite <-app_assoc; symmetry; by apply (splice_app_exact _ [0] pre [COMMA])).
    specialize (IH (acc ++ [zlen pre + 1])). rewrite zlen_app in IH. change (zlen [_]) with 1 in IH.
    eapply wp_exit_mono; [eapply wp_mono; [apply IH; lia|]|].
    + intros ptrs mem [? Hp]. split; [lia|]. case_bool_decide; [done|].
      rewrite <-!app_assoc in Hp. done.
    + cbn beta. intros; lia.
  - rewrite Hs0. replace (pre ++ (c :: rest) ++ [0]) with ((pre ++ [c]) ++ rest ++ [0])
      by by rewrite <-app_assoc.
    eapply wp_mono; [by apply IH|]. intros ptrs mem [? Hp]. split; [lia|].
    case_bool_decide; [done|]. rewrite <-app_assoc in Hp. unfold nulled. cbn [map].
    rewrite (proj2 (Z.eqb_neq c COMMA)) by done. done.
Qed.

(** The parser on whatever string the peer sent. *)
Lemma wp_remote_names E Q b :
  wf_buf b → let n := LOAD32H (slice (b_pos b) 4 (b_data b)) in
  let s := slice (b_pos b + 4) n (b_data b) in
  (∀ names, b_pos b + 4 + n ≤ b_len b → 0 ≤ n ≤ MAX_STRING_LEN → parse_names s = Some names →
    Q names (after_get (4 + n) b)) →
  (parse_names s = None ∨ ¬ (b_pos b + 4 + n ≤ b_len b ∧ n ≤ MAX_STRING_LEN) → ∀ e, E e) →
  wp remote_names E Q b.
Proof.
  intros Hwf n s HQ HE. apply wp_bind, wp_buf_getstring; [done|fold n; fold s|auto].
  intros Hfit Hn. unfold wp, get_algolist. change (MAX_PROPOSED_ALGO =? 0) with false. cbn iota.
  pose proof (wp_get_algolist_loop s MAX_PROPOSED_ALGO [] [0] ltac:(done)) as Hloop.
  cbn [app] in Hloop. change (zlen []) with 0 in Hloop. change (zlen [0]) with 1 in Hloop.
  unfold zlen at 1. rewrite Nat2Z.id. unfold wp in Hloop.
  unfold parse_names in HQ, HE. rewrite existsb_nul, split_comma_length in HQ, HE.
  destruct (get_algolist_loop _ _ _ _ _) as [[ptrs mem]|e|w]; [|apply HE; left; by if_true|done].
  destruct Hloop as [Hc Hp]. case_bool_decide as Hnul.
  - subst ptrs. simpl. apply HQ; [done..|by if_false].
  - destruct Hp as [-> ->]. destruct (cstr_split s [] Hnul) as (w&ws&Hsp&Hw&Hws).
    change (zlen []) with 0 in Hws. cbn [app] in Hws.
    assert (Hm : mapM (cstr_at (nulled s ++ [0])) (0 :: starts 0 s) = Some (w :: ws)).
    { cbn [mapM]. change (cstr_at _ 0) with (cstr (nulled s ++ [0])). rewrite Hw.
      cbn [mbind option_bind]. by rewrite Hws. }
    rewrite Hm. apply HQ; [done..|]. if_false. by rewrite Hsp.
Qed.
End parser.

(** Names a table offers, and the name-list they form on the wire. *)
Definition usable_names {D M} (useall : bool) (algos : list (algo_type D M)) : list (list Z) :=
  map a_name (filter (λ a, a_usable a || useall = true) algos).
Definition algolist_wire (names : list (list Z)) : list Z :=
  STORE32H (zlen (join_comma names)) ++ join_comma names.

Section negotiation.
Context {D M : Type}.
#[local] Abbreviation algo := (algo_type D M).
Implicit Types (algos cli serv : list algo) (b : buffer).

Lemma join_bytes names : Forall bytes_ok names → bytes_ok (join_comma names).
Proof.
  induction 1 as [|n names Hn _ IH]; [constructor|]. destruct names; [done|].
  cbn [join_comma]. apply bytes_ok_app. split; [done|]. constructor; [|done].
  unfold byte_ok, COMMA. lia.
Qed.

Lemma usable_names_cons useall (a : algo) algos :
  usable_names useall (a :: algos) =
    if a_usable a || useall then a_name a :: usable_names useall algos
    else usable_names useall algos.
Proof. unfold usable_names. rewrite filter_cons. by destruct (a_usable a || useall). Qed.

Lemma usable_names_Forall (P : list Z → Prop) useall algos :
  Forall (λ a, P (a_name a)) algos → Forall P (usable_names useall algos).
Proof.
  induction 1 as [|a algos Ha _ IH]; [constructor|]. rewrite usable_names_cons.
  case_match; [by constructor|done].
Qed.

(** What the loop appends: a separator first unless nothing was written. *)
Definition put_text (donefirst : bool) (names : list (list Z)) : list Z :=
  if donefirst then concat (map (cons COMMA) names) else join_comma names.

Lemma join_put_text n names : join_comma (n :: names) = n ++ put_text true names.
Proof.
  unfold put_text. revert n. induction names as [|n' names IH]; intros n; [by rewrite app_nil_r|].
  change (join_comma (n :: n' :: names)) with (n ++ COMMA :: join_comma (n' :: names)).
  by rewrite IH.
Qed.

Lemma wp_put_algos algos useall donefirst E Q b :
  wf_buf b → Forall (λ a, bytes_ok (a_name a)) algos →
  b_pos b + zlen (put_text donefirst (usable_names useall algos)) ≤ b_size b →
  Q tt (after_put (put_text donefirst (usable_names useall algos)) b) →
  wp (put_algos algos useall donefirst) E Q b.
Proof.
  intros Hwf Ha. revert donefirst b Hwf.
  induction Ha as [|a algos Ha Has IH]; intros donefirst b Hwf Hr HQ; cbn [put_algos].
  { apply wp_ret. replace (put_text _ _) with (@nil Z) in HQ by by destruct donefirst.
    by rewrite after_put_nil in HQ. }
  rewrite usable_names_cons in *. destruct (a_usable a || useall); [|by apply IH].
  set (names := usable_names useall algos) in *.
  assert (Hsplit : put_text donefirst (a_name a :: names) =
    (if donefirst then [COMMA] else []) ++ a_name a ++ put_text true names).
  { destruct donefirst; [done|apply join_put_text]. }
  rewrite Hsplit in *. set (sep := if donefirst then [COMMA] else []) in *.
  rewrite !zlen_app in Hr.
  pose proof (zlen_nonneg sep). pose proof (zlen_nonneg (a_name a)).
  pose proof (zlen_nonneg (put_text true names)).
  assert (bytes_ok sep).
  { unfold sep. destruct donefirst; repeat constructor; unfold COMMA; lia. }
  assert (wf_buf (after_put sep b)) by (apply wf_after_put; [done..|lia]).
  rewrite !after_put_app in HQ by (rewrite ?zlen_app; cbn [b_pos b_size after_put]; done || lia).
  apply wp_bind.
  assert (Hgo : wp (do* buf_putbytes (a_name a); put_algos algos useall true) E Q (after_put sep b)).
  { apply wp_bind, wp_buf_putbytes; [done..| |simpl; lia]. simpl. intros.
    assert (wf_buf (after_put (a_name a) (after_put sep b))) by (apply wf_after_put; [done..|simpl; lia]).
    apply IH; [done|cbn [b_pos b_size after_put]; lia|done]. }
  unfold sep in *. destruct donefirst; simpl.
  - apply wp_buf_putbyte; [done|intros; exact Hgo|change (zlen [COMMA]) with 1 in *; lia].
  - rewrite after_put_nil in Hgo by done. apply Hgo.
Qed.

Lemma splice_prefix off (l1 l2 r l : list Z) :
  0 ≤ off → off + zlen (l1 ++ r) ≤ zlen l → length l1 = length l2 →
  splice off l2 (splice off (l1 ++ r) l) = splice off (l2 ++ r) l.
Proof.
  intros ? Hr Hl. rewrite zlen_app in Hr. pose proof (zlen_nonneg l1). pose proof (zlen_nonneg r).
  unfold splice at 2 3. rewrite <-!app_assoc.
  rewrite (splice_app_exact off l2 _ l1) by (unfold zlen in *; rewrite ?length_take; lia).
  rewrite !length_app, Hl. done.
Qed.

Lemma wp_buf_put_algolist_all algos useall E Q b :
  wf_buf b → Forall (λ a, bytes_ok (a_name a)) algos →
  let w := algolist_wire (usable_names useall algos) in
  b_pos b + zlen w ≤ b_size b → Q tt (after_put w b) →
  wp (buf_put_algolist_all algos useall) E Q b.
Proof.
  intros Hwf Ha w Hr HQ. pose proof Hwf as (?&?&?&?).
  unfold w, algolist_wire in *. rewrite zlen_app, STORE32H_length in Hr.
  set (j := join_comma (usable_names useall algos)) in *. pose proof (zlen_nonneg j).
  assert (bytes_ok j) by (by apply join_bytes, usable_names_Forall).
  apply wp_bind, wp_gets, wp_bind, wp_buf_putint; [done| |lia]. intros.
  assert (wf_buf (after_put (STORE32H 0) b)) by (apply wf_after_put; auto using STORE32H_bytes).
  apply wp_bind, wp_put_algos; [done..| |]; unfold put_text; fold j.
  { cbn [b_pos b_size after_put]. rewrite STORE32H_length. lia. }
  rewrite <-after_put_app by (rewrite ?zlen_app, ?STORE32H_length; done || lia).
  assert (Hw1 : wf_buf (after_put (STORE32H 0 ++ j) b)).
  { apply wf_after_put; [done| |rewrite zlen_app, STORE32H_length; lia].
    apply bytes_ok_app; auto using STORE32H_bytes. }
  apply wp_bind, wp_gets. cbn [b_pos after_put]. rewrite zlen_app, STORE32H_length.
  rewrite u32_small by (unfold BUF_MAX_SIZE in *; lia).
  replace (b_pos b + (4 + zlen j) - b_pos b - 4) with (zlen j) by lia.
  apply wp_bind, wp_buf_setpos; [|cbn [b_len after_put]; lia]. intros.
  assert (wf_buf (set_pos (b_pos b) (after_put (STORE32H 0 ++ j) b))) by (apply wf_set_pos; [done|lia]).
  apply wp_bind, wp_buf_putint; [done| |cbn [b_pos b_size set_pos after_put]; lia]. intros.
  apply wp_buf_incrwritepos; [apply wf_after_put; auto using STORE32H_bytes|lia| |
    cbn [b_pos b_size set_pos after_put]; rewrite STORE32H_length; lia].
  intros _. unfold after_put, set_pos in *. cbn [b_data b_len b_pos b_size] in *.
  rewrite splice_prefix in * by (rewrite ?zlen_app, ?STORE32H_length; lia || done).
  rewrite zlen_app, !STORE32H_length in *.
  replace (b_pos b + 4 + zlen j) with (b_pos b + (4 + zlen j)) by lia.
  replace (Z.max _ (b_pos b + (4 + zlen j))) with (Z.max (b_len b) (b_pos b + (4 + zlen j))) by lia.
  done.
Qed.

(** *** The matching loops *)

Lemma match_serv_spec c servnames k :
  match match_serv (Some c) servnames k with
  | Some j => ∃ n, j = k + Z.of_nat n ∧ servnames !! n = Some (Some c)
  | None => Some c ∉ servnames
  end.
Proof.
  revert k. induction servnames as [|[n|] rest IH]; intros k; simpl; [apply not_elem_of_nil|..].
  - unfold bytes_eqb. case_bool_decide as Hn.
    + exists 0%nat. subst. split; [lia|done].
    + specialize (IH (k + 1)). case_match; [|rewrite not_elem_of_cons; split; congruence].
      destruct IH as (m&->&Hm). exists (S m). split; [lia|done].
  - specialize (IH (k + 1)). case_match; [|rewrite not_elem_of_cons; split; congruence].
    destruct IH as (m&->&Hm). exists (S m). split; [lia|done].
Qed.

Lemma match_serv_none servnames k : match_serv None servnames k = None.
Proof. revert k. induction servnames as [|[n|] rest IH]; intros k; simpl; auto. Qed.

(** The pair of indices returned: equal names, and no earlier client name
    is a server name. *)
Lemma match_cli_spec clinames servnames k :
  match match_cli clinames servnames k with
  | Some (i, j) => ∃ n m c, i = k + Z.of_nat n ∧ j = Z.of_nat m ∧
      clinames !! n = Some (Some c) ∧ servnames !! m = Some (Some c) ∧
      (∀ n' c', (n' < n)%nat → clinames !! n' = Some (Some c') → Some c' ∉ servnames)
  | None => ∀ c, Some c ∈ clinames → Some c ∉ servnames
  end.
Proof.
  revert k. induction clinames as [|cli rest IH]; intros k; simpl.
  { intros c Hc. by apply elem_of_nil in Hc. }
  destruct cli as [c|].
  - pose proof (match_serv_spec c servnames 0) as Hs.
    destruct (match_serv _ _ _) as [j|].
    + destruct Hs as (m&->&Hm). exists 0%nat, m, c. split_and!; [lia|lia|done|done|]. lia.
    + specialize (IH (k + 1)). destruct (match_cli rest servnames (k + 1)) as [[i j]|].
      * destruct IH as (n&m&c'&->&->&Hn&Hm&Hlt). exists (S n), m, c'.
        split_and!; [lia|done|done|done|]. intros [|n'] c'' Hn'; simpl; [by intros [= <-]|].
        apply Hlt. lia.
      * intros c' [[= ->]|]%elem_of_cons; auto.
  - rewrite match_serv_none. specialize (IH (k + 1)).
    destruct (match_cli rest servnames (k + 1)) as [[i j]|].
    + destruct IH as (n&m&c'&->&->&Hn&Hm&Hlt). exists (S n), m, c'.
      split_and!; [lia|done|done|done|]. intros [|n'] c'' Hn'; simpl; [done|]. apply Hlt. lia.
    + intros c' [[=]|]%elem_of_cons; auto.
Qed.
End negotiation.

(** ** What negotiation promises (RFC 4253, section 7.1) *)

(** The first of the client's names that the server has too. *)
Definition first_common (cli serv : list (list Z)) : option (list Z) :=
  head (filter (λ c, c ∈ serv) cli).

(** The verdict on a guessed first packet, from the first name of the client
    and of the server as the end that decides sees them ([None]: a disabled
    entry, which never matches): with "kexguess2" the client's first name
    has to be one of the server's, otherwise the two first names agree. *)
Definition guess_verdict (kexguess2 : bool) (ch sh : option (list Z)) (serv : list (list Z)) : bool :=
  match ch with
  | None => false
  | Some c => if kexguess2 then bool_decide (c ∈ serv) else bool_decide (sh = Some c)
  end.

(** The verdict the two name-lists call for. *)
Definition guess_spec (kexguess2 : bool) (cli serv : list (list Z)) : bool :=
  guess_verdict kexguess2 (head cli) (head serv) serv.

(** A table as the source's are: protocol names, within the size of the
    [localnames] array, offering at least one name, in a list the peer's
    [buf_getstring] accepts. *)
Definition table_ok {D M} (t : list (algo_type D M)) : Prop :=
  Forall (λ a, name_ok (a_name a)) t ∧ zlen t ≤ MAX_PROPOSED_ALGO ∧
  usable_names false t ≠ [] ∧ zlen (join_comma (usable_names false t)) ≤ MAX_STRING_LEN.

#[global] Instance table_ok_dec {D M} (t : list (algo_type D M)) : Decision (table_ok t).
Proof. unfold table_ok. apply _. Defined.

(** The first entry of an end's own table, which a disabled entry keeps. *)
Definition first_entry {D M} (t : list (algo_type D M)) : option (list Z) :=
  match t with a :: _ => if a_usable a then Some (a_name a) else None | [] => None end.

(** One list of a KEXINIT as one side writes it and the other matches it. *)
Definition exchange {D M} (isserver : bool) (peer local : list (algo_type D M)) (kexguess2 : bool) :
    ST buffer (option (algo_type D M) * bool) :=
  let* p := gets b_pos in
  do* buf_put_algolist peer;
  do* buf_setpos p;
  buf_match_algo isserver local kexguess2.

Section agreement.
Context {D M : Type}.
#[local] Abbreviation algo := (algo_type D M).
Implicit Types (algos cli serv t : list algo) (b : buffer).

Lemma local_names_omap t : omap id (local_names t) = usable_names false t.
Proof.
  induction t as [|a t IH]; [done|]. rewrite usable_names_cons, orb_false_r, <-IH.
  unfold local_names. cbn [map]. by destruct (a_usable a).
Qed.

Lemma omap_map_Some (names : list (list Z)) : omap id (map Some names) = names.
Proof. induction names as [|n names IH]; [done|]. cbn. by rewrite IH. Qed.

Lemma elem_of_omap_id (c : list Z) (l : list (option (list Z))) : c ∈ omap id l ↔ Some c ∈ l.
Proof. rewrite list_elem_of_omap. split; [|by exists (Some c)]. by intros (x&Hx&[= <-]). Qed.

Lemma match_cli_name clinames servnames k :
  match match_cli clinames servnames k with
  | Some (i, j) => ∃ n m c, i = k + Z.of_nat n ∧ j = Z.of_nat m ∧
      clinames !! n = Some (Some c) ∧ servnames !! m = Some (Some c) ∧
      first_common (omap id clinames) (omap id servnames) = Some c
  | None => first_common (omap id clinames) (omap id servnames) = None
  end.
Proof.
  unfold first_common. revert k. induction clinames as [|cli rest IH]; intros k; [done|].
  cbn [match_cli]. destruct cli as [c|]; cbn [omap list_omap id].
  - pose proof (match_serv_spec c servnames 0) as Hs. destruct (match_serv _ _ _) as [j|].
    + destruct Hs as (m&->&Hm). exists 0%nat, m, c. split_and!; [lia|lia|done|done|].
      rewrite filter_cons_True; [done|]. apply elem_of_omap_id. by eapply list_elem_of_lookup_2.
    + rewrite filter_cons_False by (by rewrite elem_of_omap_id). specialize (IH (k + 1)).
      destruct (match_cli rest servnames (k + 1)) as [[i j]|]; [|done].
      destruct IH as (n&m&c'&->&->&Hn&Hm&Hf). exists (S n), m, c'. split_and!; [lia|done..].
  - rewrite match_serv_none. specialize (IH (k + 1)).
    destruct (match_cli rest servnames (k + 1)) as [[i j]|]; [|done].
    destruct IH as (n&m&c'&->&->&Hn&Hm&Hf). exists (S n), m, c'. split_and!; [lia|done..].
Qed.

(** The outcome of a guess, whatever the lists start with. *)
Lemma match_cli_guess (kexguess2 : bool) (clinames : list (option (list Z))) s (servnames : list (option (list Z))) :
  match match_cli clinames (s :: servnames) 0 with
  | Some (i, j) => if kexguess2 then i =? 0 else (i =? 0) && (j =? 0)
  | None => false
  end = guess_verdict kexguess2 (mjoin (head clinames)) s (omap id (s :: servnames)).
Proof.
  assert (Hlate : ∀ rest, match match_cli rest (s :: servnames) (0 + 1) with
    | Some (i, j) => if kexguess2 then i =? 0 else (i =? 0) && (j =? 0) | None => false end = false).
  { intros rest. pose proof (match_cli_spec rest (s :: servnames) (0 + 1)) as Hc.
    destruct (match_cli rest _ _) as [[i j]|]; [|done]. destruct Hc as (n&m&c'&->&->&_).
    rewrite (proj2 (Z.eqb_neq (0 + 1 + Z.of_nat n) 0)) by lia. by destruct kexguess2. }
  unfold guess_verdict. destruct clinames as [|[c|] rest]; [done| |].
  2: { cbn [match_cli head]. rewrite match_serv_none. apply Hlate. }
  cbn [match_cli head]. change (mjoin (Some (Some c))) with (Some c).
  pose proof (match_serv_spec c (s :: servnames) 0) as Hs.
  destruct (match_serv (Some c) (s :: servnames) 0) as [j|] eqn:Hj.
  - destruct Hs as (m&->&Hm). destruct kexguess2.
    + symmetry. apply bool_decide_eq_true_2, elem_of_omap_id. by eapply list_elem_of_lookup_2.
    + change (0 =? 0) with true. cbn [andb]. destruct (decide (s = Some c)) as [->|Hne].
      * cbn [match_serv] in Hj. unfold bytes_eqb in Hj. rewrite bool_decide_eq_true_2 in Hj by done.
        injection Hj as Hj. rewrite bool_decide_eq_true_2 by done. by apply Z.eqb_eq.
      * rewrite bool_decide_eq_false_2 by done. apply Z.eqb_neq. destruct m; [by simplify_eq/=|lia].
  - rewrite Hlate. symmetry. destruct kexguess2; apply bool_decide_eq_false_2; [by rewrite elem_of_omap_id|].
    intros ->. apply Hs. left.
Qed.

(** The first entry as the loops see it. *)
Lemma first_entry_local t : mjoin (head (local_names t)) = first_entry t.
Proof. by destruct t as [|a t]. Qed.

(** With its first entry enabled, an end sees the name the other one does. *)
Lemma first_entry_usable t : first_entry t ≠ None → first_entry t = head (usable_names false t).
Proof. destruct t as [|a t]; [done|]. rewrite usable_names_cons, orb_false_r. cbn. by destruct (a_usable a). Qed.

(** What [buf_match_algo] returns for the list at the cursor. *)
Lemma wp_buf_match_algo (isserver : bool) t kexguess2 names E Q b :
  wf_buf b → table_ok t → at_cursor b (algolist_wire names) →
  names ≠ [] → Forall name_ok names → zlen names ≤ MAX_PROPOSED_ALGO →
  zlen (join_comma names) ≤ MAX_STRING_LEN →
  (∀ (r : option algo) (g : bool),
    let cli := if isserver then names else usable_names false t in
    let serv := if isserver then usable_names false t else names in
    option_map a_name r = first_common cli serv →
    (∀ a, r = Some a → a ∈ t ∧ a_usable a = true) →
    g = guess_verdict kexguess2 (if isserver then head names else first_entry t)
          (if isserver then first_entry t else head names) serv →
    Q (r, g) (after_get (zlen (algolist_wire names)) b)) →
  wp (buf_match_algo isserver t kexguess2) E Q b.
Proof.
  intros Hwf (Ht&Htl&Hut&_) Hat Hne Hn Hcount Hlen HQ.
  unfold algolist_wire in *. apply at_cursor_app in Hat as [[Hl1 Hs1] [Hl2 Hs2]]; [|done].
  rewrite STORE32H_length in *. cbn [b_pos b_data b_len after_get set_pos] in *.
  rewrite zlen_app, STORE32H_length in HQ. set (j := join_comma names) in *.
  pose proof (zlen_nonneg j). unfold MAX_STRING_LEN, MAX_CMD_LEN in Hlen.
  assert (Hj : 0 ∉ j) by (apply join_no_nul; eapply Forall_impl; [done|]; intros ? (?&?&?&?); done).
  assert (Hp : parse_names j = Some names).
  { unfold parse_names. rewrite before_nul_id, existsb_nul, bool_decide_eq_false_2 by done.
    unfold j. rewrite split_join; [|done|eapply Forall_impl; [done|]; intros ? (?&?&?&?); done].
    by if_false. }
  unfold buf_match_algo. apply wp_bind, wp_remote_names; [done|..];
    rewrite Hs1, LOAD32H_STORE32H by lia; rewrite Hs2.
  2: { rewrite Hp. intros [?|[]]; [done|]. unfold MAX_STRING_LEN, MAX_CMD_LEN. lia. }
  rewrite Hp. intros ? _ _ [= <-]. if_false.
  set (cliL := if isserver then map Some names else local_names t).
  set (servL := if isserver then local_names t else map Some names).
  pose proof (match_cli_name cliL servL 0) as Hm.
  assert (Hg :
    match match_cli cliL servL 0 with
    | Some (i, j) => if kexguess2 then i =? 0 else (i =? 0) && (j =? 0)
    | None => false
    end = guess_verdict kexguess2 (if isserver then head names else first_entry t)
            (if isserver then first_entry t else head names) (omap id servL)).
  { destruct t as [|a t]; [done|]. destruct names as [|n0 names]; [done|].
    unfold cliL, servL. destruct isserver.
    - apply (match_cli_guess kexguess2 (map Some (n0 :: names))).
    - rewrite <-(first_entry_local (a :: t)). apply (match_cli_guess kexguess2). }
  replace (omap id cliL) with (if isserver then names else usable_names false t) in *
    by (unfold cliL; destruct isserver; by rewrite ?omap_map_Some, ?local_names_omap).
  replace (omap id servL) with (if isserver then usable_names false t else names) in *
    by (unfold servL; destruct isserver; by rewrite ?omap_map_Some, ?local_names_omap).
  destruct (match_cli cliL servL 0) as [[i j']|].
  - destruct Hm as (n&m&c&->&->&Hcn&Hsm&Hf).
    assert (Hloc : ∃ a, t !! (if isserver then m else n) = Some a ∧ a_name a = c ∧ a_usable a = true).
    { assert (Hx : local_names t !! (if isserver then m else n) = Some (Some c))
        by (unfold cliL, servL in *; by destruct isserver).
      unfold local_names in Hx. rewrite list_lookup_fmap in Hx.
      destruct (t !! _) as [a|]; [|done]. simpl in Hx. destruct (a_usable a) eqn:?; simplify_eq.
      eauto. }
    destruct Hloc as (a&Ha&Hname&Hus).
    replace (t !! Z.to_nat _) with (Some a) by (rewrite <-Ha; destruct isserver; f_equal; lia).
    apply wp_ret, HQ; [by rewrite Hf, <-Hname| |done].
    intros ? [= <-]. split; [by eapply list_elem_of_lookup_2|done].
  - apply wp_ret, HQ; [done|done|done].
Qed.

Lemma usable_names_count t : zlen (usable_names false t) ≤ zlen t.
Proof.
  induction t as [|a t IH]; [done|]. rewrite usable_names_cons.
  case_match; rewrite !zlen_cons; lia.
Qed.

Lemma wp_exchange (isserver : bool) (peer local : list algo) kexguess2 Q b :
  wf_buf b → table_ok peer → table_ok local →
  b_pos b + zlen (algolist_wire (usable_names false peer)) ≤ b_size b →
  (∀ (r : option algo) (g : bool) b',
    let p := usable_names false peer in let l := usable_names false local in
    let cli := if isserver then p else l in let serv := if isserver then l else p in
    option_map a_name r = first_common cli serv →
    (∀ a, r = Some a → a ∈ local ∧ a_usable a = true) →
    g = guess_verdict kexguess2 (if isserver then head p else first_entry local)
          (if isserver then first_entry local else head p) serv →
    Q (r, g) b') →
  wp (exchange isserver peer local kexguess2) no_exit Q b.
Proof.
  intros Hwf Hp Hl Hr HQ. pose proof Hp as (Hpn&Hpl&Hpne&Hplen). pose proof Hwf as (?&?&?&?).
  set (w := algolist_wire (usable_names false peer)) in *. pose proof (zlen_nonneg w).
  assert (Forall (λ a, bytes_ok (a_name a)) peer)
    by (eapply Forall_impl; [done|]; by intros ? []).
  assert (bytes_ok w).
  { apply bytes_ok_app. split; [apply STORE32H_bytes|]. by apply join_bytes, usable_names_Forall. }
  apply wp_bind, wp_gets, wp_bind, wp_buf_put_algolist_all; [done..|]. fold w.
  assert (Hw : wf_buf (after_put w b)) by (by apply wf_after_put).
  apply wp_bind, wp_buf_setpos; [|cbn [b_len after_put]; lia]. intros.
  apply (wp_buf_match_algo _ _ _ (usable_names false peer));
    [by apply wf_set_pos; [done|lia]|done|by apply at_cursor_after_put|done| | |done|].
  - by apply usable_names_Forall.
  - pose proof (usable_names_count peer). lia.
  - intros. by apply HQ.
Qed.
End agreement.

(** ** The command-line filter *)

(** The entries kept: for each requested name, the table's entry, once. *)
Fixpoint keep_user {D M} (names : list (list Z)) (algos kept : list (algo_type D M)) :
    list (algo_type D M) :=
  match names with
  | [] => kept
  | n :: names =>
      keep_user names algos
        (match check_algo n algos with
         | Some a => match check_algo n kept with Some _ => kept | None => kept ++ [a] end
         | None => kept
         end)
  end.

Section user_algos.
Context {D M : Type}.
#[local] Abbreviation algo := (algo_type D M).
Implicit Types (algos kept : list algo).

Lemma check_algo_spec n algos :
  match check_algo n algos with
  | Some a => a ∈ algos ∧ a_name a = n
  | None => n ∉ map a_name algos
  end.
Proof.
  induction algos as [|a algos IH]; simpl; [apply not_elem_of_nil|].
  unfold bytes_eqb. case_bool_decide as Hn; [by split; [constructor|]|].
  destruct (check_algo n algos); [destruct IH; split; [by constructor|done]|].
  rewrite not_elem_of_cons. split; congruence.
Qed.

(** One step of the filter. *)
Definition keep1 (n : list Z) algos kept : list algo :=
  match check_algo n algos with
  | Some a => match check_algo n kept with Some _ => kept | None => kept ++ [a] end
  | None => kept
  end.

Lemma keep1_length n algos kept : zlen (keep1 n algos kept) ≤ zlen kept + 1.
Proof. unfold keep1. repeat case_match; rewrite ?zlen_app; change (zlen [_]) with 1; lia. Qed.

Lemma keep_user_ok names algos kept :
  NoDup (map a_name kept) → Forall (λ a, a ∈ algos) kept →
  NoDup (map a_name (keep_user names algos kept)) ∧
  Forall (λ a, a ∈ algos) (keep_user names algos kept).
Proof.
  revert kept. induction names as [|n names IH]; intros kept Hnd Hin; [done|].
  cbn [keep_user]. fold (keep1 n algos kept). apply IH; unfold keep1;
    pose proof (check_algo_spec n algos) as Ha; pose proof (check_algo_spec n kept) as Hk;
    destruct (check_algo n algos) as [a|]; try done; destruct (check_algo n kept); try done;
    destruct Ha as [Ha Hname].
  - rewrite map_app. apply NoDup_app. split_and!; [done| |apply NoDup_singleton].
    simpl. intros x Hx ->%list_elem_of_singleton. by subst n.
  - apply Forall_app. split; [done|]. by constructor.
Qed.

Lemma keep_user_length names algos : zlen (keep_user names algos []) ≤ zlen algos.
Proof.
  destruct (keep_user_ok names algos []) as [Hnd Hin]; [constructor|constructor|].
  unfold zlen. rewrite <-(length_map a_name (keep_user _ _ _)), <-(length_map a_name algos).
  apply inj_le, submseteq_length, NoDup_submseteq; [done|].
  intros x (a&->&Ha)%list_elem_of_fmap. apply list_elem_of_fmap. exists a. split; [done|].
  by eapply Forall_forall in Hin.
Qed.

Lemma str_get_run (pre tl : list Z) c i :
  zlen pre = i → str_get i (pre ++ c :: tl) = Ok (c, pre ++ c :: tl).
Proof.
  intros <-. unfold str_get. pose proof (zlen_nonneg pre). if_true.
  unfold zlen. rewrite Nat2Z.id, lookup_app_r by lia. by rewrite Nat.sub_diag.
Qed.

Lemma str_get_out (mem : list Z) i : zlen mem ≤ i → str_get i mem = Fault "read outside the string".
Proof.
  intros Hi. unfold str_get. rewrite lookup_ge_None_2; [by destruct (0 <=? i)|].
  unfold zlen in Hi. lia.
Qed.

Lemma str_set_run (pre tl : list Z) c c' i :
  zlen pre = i → str_set i c' (pre ++ c :: tl) = Ok (tt, pre ++ c' :: tl).
Proof.
  intros Hi. unfold str_set. pose proof (zlen_nonneg pre). pose proof (zlen_nonneg tl).
  rewrite zlen_app, zlen_cons. if_true.
  change (c :: tl) with ([c] ++ tl). by rewrite (splice_app_exact i [c'] pre [c] tl).
Qed.

Lemma cstr_name (n tl : list Z) : 0 ∉ n → cstr (n ++ 0 :: tl) = Some n.
Proof.
  induction n as [|c n IH]; intros Hn; [done|]. apply not_elem_of_cons in Hn as [??].
  cbn [app cstr]. rewrite (proj2 (Z.eqb_neq c 0)) by done. by rewrite IH.
Qed.

(** Scanning over the characters of a name. *)
Lemma check_user_scan w2 fuel algos start pre kept tl :
  0 ∉ w2 → COMMA ∉ w2 → zlen kept < MAX_PROPOSED_ALGO →
  check_user_loop (length w2 + fuel) algos start (zlen pre) kept (pre ++ w2 ++ tl) =
  check_user_loop fuel algos start (zlen (pre ++ w2)) kept (pre ++ w2 ++ tl).
Proof.
  intros H0 H1 Hk. revert pre. induction w2 as [|c w2 IH]; intros pre; [by rewrite app_nil_r|].
  apply not_elem_of_cons in H0 as [??]. apply not_elem_of_cons in H1 as [??].
  cbn [length Nat.add check_user_loop app]. unfold bind at 1. rewrite str_get_run by done.
  unfold exit_if, bind at 1. if_false. cbn [ret].
  rewrite (proj2 (Z.eqb_neq c COMMA)), (proj2 (Z.eqb_neq c 0)) by done. cbn [orb].
  replace (zlen pre + 1) with (zlen (pre ++ [c])) by by rewrite zlen_app.
  replace (pre ++ c :: w2 ++ tl) with ((pre ++ [c]) ++ w2 ++ tl) by by rewrite <-app_assoc.
  rewrite IH by done. by rewrite <-!app_assoc.
Qed.

(** The step at the end of a name [n] that starts at [zlen pre]. *)
Lemma check_user_end fuel algos (pre n tl : list Z) kept (sep : Z) :
  0 ∉ n → zlen kept < MAX_PROPOSED_ALGO → sep = COMMA ∨ sep = 0 →
  check_user_loop (S fuel) algos (zlen pre) (zlen (pre ++ n)) kept (pre ++ n ++ sep :: tl) =
  (if sep =? 0 then ret (keep1 n algos kept)
   else check_user_loop fuel algos (zlen (pre ++ n) + 1) (zlen (pre ++ n) + 1 + 1)
          (keep1 n algos kept)) (pre ++ n ++ 0 :: tl).
Proof.
  intros Hn Hk Hsep. cbn [check_user_loop]. rewrite !app_assoc.
  unfold bind at 1. rewrite str_get_run by done. unfold exit_if, bind at 1. if_false. cbn [ret].
  assert ((sep =? COMMA) || (sep =? 0) = true) as -> by lia.
  unfold bind at 1. rewrite str_set_run by done. unfold bind at 1, get at 1.
  rewrite <-!app_assoc, cstr_at_app, cstr_name by done. fold (keep1 n algos kept).
  by destruct (sep =? 0).
Qed.

(** The whole run: from inside the first name to the end of the list, or
    past the terminator when the list ends in a comma. *)
Lemma check_user_run names fuel algos (pre w1 w2 : list Z) kept (trail : bool) :
  let tl := if trail then [COMMA; 0] else [0] in
  let text := join_comma ((w1 ++ w2) :: names) in
  Forall name_ok ((w1 ++ w2) :: names) →
  zlen kept + zlen names + 1 ≤ MAX_PROPOSED_ALGO →
  (length text + 3 ≤ length w1 + fuel)%nat →
  let run := check_user_loop fuel algos (zlen pre) (zlen (pre ++ w1)) kept (pre ++ text ++ tl) in
  if trail then run = Fault "read outside the string"
  else ∃ mem, run = Ok (keep_user ((w1 ++ w2) :: names) algos kept, mem).
Proof.
  revert fuel pre w1 w2 kept. induction names as [|n names IH];
    intros fuel pre w1 w2 kept tl text Hok Hk Hfuel run; unfold run; clear run; pose proof (zlen_nonneg kept);
    pose proof Hok as [(Hb&Hne&H0&Hc) Hrest]%Forall_cons; rewrite ?zlen_cons in Hk.
  - change (zlen []) with 0 in Hk. cbn [join_comma] in *. unfold text in *.
    assert (∃ f, fuel = (length w2 + S (S f))%nat) as [f ->].
    { exists (fuel - length w2 - 2)%nat. rewrite length_app in Hfuel. lia. }
    replace (pre ++ (w1 ++ w2) ++ tl) with ((pre ++ w1) ++ w2 ++ tl) by by rewrite !app_assoc.
    rewrite elem_of_app in H0, Hc.
    rewrite check_user_scan by (tauto || lia). rewrite <-!(app_assoc pre), (app_assoc w1).
    unfold tl. destruct trail.
    + rewrite (check_user_end _ _ pre (w1 ++ w2) [0]) by (rewrite ?elem_of_app; tauto || lia).
      cbn [Z.eqb]. change (COMMA =? 0) with false. cbn iota. cbn [check_user_loop].
      unfold bind at 1. rewrite str_get_out; [done|].
      rewrite !zlen_app. change (zlen [0; 0]) with 2. lia.
    + rewrite (check_user_end _ _ pre (w1 ++ w2) []) by (rewrite ?elem_of_app; tauto || lia).
      cbn [keep_user]. fold (keep1 (w1 ++ w2) algos kept). unfold ret. simpl (0 =? 0). cbn iota.
      eauto.
  - pose proof (zlen_nonneg names).
    change text with ((w1 ++ w2) ++ COMMA :: join_comma (n :: names)) in *.
    set (text' := join_comma (n :: names)) in *.
    assert (∃ f, fuel = (length w2 + S f)%nat) as [f ->].
    { exists (fuel - length w2 - 1)%nat. rewrite !length_app in Hfuel. simpl in Hfuel. lia. }
    replace (pre ++ ((w1 ++ w2) ++ COMMA :: text') ++ tl)
      with ((pre ++ w1) ++ w2 ++ COMMA :: text' ++ tl) by by rewrite <-!app_assoc.
    rewrite elem_of_app in H0, Hc.
    rewrite check_user_scan by (tauto || lia).
    rewrite <-!(app_assoc pre), (app_assoc w1).
    rewrite (check_user_end _ _ pre (w1 ++ w2) (text' ++ tl)) by (rewrite ?elem_of_app; tauto || lia).
    change (COMMA =? 0) with false. cbn iota.
    destruct n as [|c0 n]; [by apply Forall_cons in Hrest as [(?&?&_) _]|].
    specialize (IH f (pre ++ (w1 ++ w2) ++ [0]) [c0] n (keep1 (w1 ++ w2) algos kept)).
    cbn zeta in IH. cbn [app] in IH. fold text' in IH. fold tl in IH.
    pose proof (keep1_length (w1 ++ w2) algos kept).
    rewrite !zlen_app in IH. change (zlen [_]) with 1 in IH.
    rewrite !zlen_app. change (zlen [0]) with 1 in IH.
    replace (zlen pre + (zlen w1 + zlen w2 + 1)) with (zlen pre + (zlen w1 + zlen w2) + 1) in IH by lia.
    rewrite <-!app_assoc in IH. cbn [app] in IH. rewrite <-!app_assoc. cbn [app].
    apply IH; [done|lia|rewrite !length_app in Hfuel; simpl in *; lia].
Qed.
End user_algos.

(** ** Safety on an arbitrary received list *)

Section list_safety.
Context {D M : Type}.
Implicit Types (t : list (algo_type D M)) (b : buffer).

(** A list is consumed whole, and the rest of the buffer stays readable. *)
Lemma wp_remote_names_safe b (Q : list (list Z) → buffer → Prop) :
  wf_buf b → (∀ names n, 0 ≤ n → b_pos b + n ≤ b_len b → Q names (after_get n b)) →
  wp remote_names any_exit Q b.
Proof.
  intros Hwf HQ. apply wp_remote_names; [done| |done].
  intros names ? Hn _. apply HQ; lia.
Qed.

Lemma wp_buf_match_algo_safe isserver t kexguess2 b (Q : option (algo_type D M) * bool → buffer → Prop) :
  wf_buf b → zlen t ≤ MAX_PROPOSED_ALGO →
  (∀ r g n, (∀ a, r = Some a → a ∈ t ∧ a_usable a = true) →
    0 ≤ n → b_pos b + n ≤ b_len b → Q (r, g) (after_get n b)) →
  wp (buf_match_algo isserver t kexguess2) any_exit Q b.
Proof.
  intros Hwf Ht HQ. unfold buf_match_algo. apply wp_bind, wp_remote_names_safe; [done|].
  intros names n Hn Hfit. if_false. cbv zeta.
  set (cliL := if isserver then map Some names else local_names t).
  set (servL := if isserver then local_names t else map Some names).
  pose proof (match_cli_name cliL servL 0) as Hm.
  destruct (match_cli cliL servL 0) as [[i j]|]; apply wp_ret; [|by apply HQ].
  destruct Hm as (n'&m&c&->&->&Hcn&Hsm&Hf). apply HQ; [|done..]. intros a Ha.
  split; [by eapply list_elem_of_lookup_2|].
  assert (Hx : local_names t !! (if isserver then m else n') = Some (Some c))
    by (unfold cliL, servL in *; by destruct isserver).
  unfold local_names in Hx. rewrite list_lookup_fmap in Hx.
  replace (Z.to_nat _) with (if isserver then m else n') in Ha by (destruct isserver; lia).
  rewrite Ha in Hx. simpl in Hx. by destruct (a_usable a).
Qed.

Lemma wp_buf_has_algo_safe algo b (Q : bool → buffer → Prop) :
  wf_buf b → (∀ r, Q r b) → wp (buf_has_algo algo) any_exit Q b.
Proof.
  intros Hwf HQ. apply wp_bind, wp_gets, wp_bind, wp_remote_names_safe; [done|].
  intros names n Hn Hfit. apply wp_bind, wp_buf_setpos; [|by intros]. intros _. apply wp_ret.
  destruct b. apply HQ.
Qed.
End list_safety.

(** ** The properties of negotiation *)

(** C35: Both ends agree.  When client and server each write their table's
    name-list and match the list they receive, both select the entry with
    the same name: the first usable name of the client that is usable on the
    server (RFC 4253 7.1), or none on both sides.  Each end's verdict on a
    guessed first packet is stated in full: [guess_verdict] of the first
    name the peer listed and the first entry of the end's own table, which
    is no name when that entry is disabled.  So the two verdicts are the one
    [guess_spec] defines, and equal, when the client's first entry is enabled
    and, without "kexguess2", the server's is. *)
Theorem negotiation_agrees {D M} (cli serv : list (algo_type D M)) (kexguess2 : bool) (bs bc : buffer) :
  table_ok cli → table_ok serv → wf_buf bs → wf_buf bc →
  b_pos bs + zlen (algolist_wire (usable_names false cli)) ≤ b_size bs →
  b_pos bc + zlen (algolist_wire (usable_names false serv)) ≤ b_size bc →
  let cnames := usable_names false cli in let snames := usable_names false serv in
  let agreed := first_common cnames snames in
  ∃ rs gs bs' rc gc bc',
    exchange true cli serv kexguess2 bs = Ok ((rs, gs), bs') ∧
    exchange false serv cli kexguess2 bc = Ok ((rc, gc), bc') ∧
    option_map a_name rs = agreed ∧ option_map a_name rc = agreed ∧
    (∀ a, rs = Some a → a ∈ serv ∧ a_usable a = true) ∧ (∀ a, rc = Some a → a ∈ cli ∧ a_usable a = true) ∧
    gs = guess_verdict kexguess2 (head cnames) (first_entry serv) snames ∧
    gc = guess_verdict kexguess2 (first_entry cli) (head snames) snames ∧
    (first_entry cli ≠ None → kexguess2 = true ∨ first_entry serv ≠ None →
     gs = guess_spec kexguess2 cnames snames ∧ gc = gs).
Proof.
  intros Hc Hs Hbs Hbc Hrs Hrc cnames snames agreed.
  destruct (wp_no_exit_run (exchange true cli serv kexguess2)
    (λ r _, option_map a_name r.1 = agreed ∧ (∀ a, r.1 = Some a → a ∈ serv ∧ a_usable a = true) ∧
       r.2 = guess_verdict kexguess2 (head cnames) (first_entry serv) snames) bs)
    as ([rs gs]&bs'&Hrun&Hn&Hin&Hg); [by apply wp_exchange|].
  destruct (wp_no_exit_run (exchange false serv cli kexguess2)
    (λ r _, option_map a_name r.1 = agreed ∧ (∀ a, r.1 = Some a → a ∈ cli ∧ a_usable a = true) ∧
       r.2 = guess_verdict kexguess2 (first_entry cli) (head snames) snames) bc)
    as ([rc gc]&bc'&Hrun'&Hn'&Hin'&Hg'); [by apply wp_exchange|].
  exists rs, gs, bs', rc, gc, bc'. split_and!; [done..|].
  simpl in Hg, Hg'. subst gs gc. intros H1 H2. unfold guess_spec, guess_verdict.
  rewrite (first_entry_usable cli) by done. fold cnames. split; [|symmetry];
    (destruct kexguess2; [done|]; destruct H2 as [|H2]; [done|];
     by rewrite (first_entry_usable serv H2)).
Qed.

(** Two small tables for the witnesses. *)
Definition bstr (s : string) : list Z := map (λ c, Z.of_N (Ascii.N_of_ascii c)) (String.list_ascii_of_string s).
Definition demo_cli : list (algo_type unit unit) :=
  [mkalgo (bstr "aes128-ctr") 0 None true None; mkalgo (bstr "none") 1 None true None].
Definition demo_serv : list (algo_type unit unit) :=
  [mkalgo (bstr "none") 1 None true None; mkalgo (bstr "3des-ctr") 2 None false None;
   mkalgo (bstr "aes128-ctr") 0 None true None].

Lemma negotiation_agrees_witness :
  first_common (usable_names false demo_cli) (usable_names false demo_serv) = Some (bstr "aes128-ctr") ∧
  ∃ rs gs bs' rc gc bc',
    exchange true demo_cli demo_serv true (mkbuf (zeros 100) 0 0 100) = Ok ((rs, gs), bs') ∧
    exchange false demo_serv demo_cli true (mkbuf (zeros 100) 0 0 100) = Ok ((rc, gc), bc') ∧
    option_map a_name rs =
      first_common (usable_names false demo_cli) (usable_names false demo_serv) ∧
    option_map a_name rc = option_map a_name rs ∧ gc = gs.
Proof.
  split; [vm_compute; reflexivity|].
  destruct (negotiation_agrees demo_cli demo_serv true
    (mkbuf (zeros 100) 0 0 100) (mkbuf (zeros 100) 0 0 100))
    as (rs&gs&bs'&rc&gc&bc'&H1&H2&H3&H4&_&_&H5);
    [decide_closed|decide_closed|by apply wf_new|by apply wf_new|vm_compute; congruence..|].
  exists rs, gs, bs', rc, gc, bc'. destruct H5 as (_&_&[_ ?]); [done|by left|]. split_and!; congruence.
Defined.

(** Without "kexguess2" a disabled first entry of the server, such as the
    Ed25519 signature of a server without that host key, makes the verdicts
    differ: the server compares the client's name with the disabled entry,
    the client with the first name the server listed. *)
Definition demo_gap : list (algo_type unit unit) :=
  [mkalgo (bstr "ssh-ed25519") 0 None false None; mkalgo (bstr "rsa-sha2-256") 1 None true None].
Definition demo_plain : list (algo_type unit unit) :=
  [mkalgo (bstr "rsa-sha2-256") 1 None true None].
Example guess_differs :
  let b := mkbuf (zeros 100) 0 0 100 in
  ∃ bs bc r, exchange true demo_plain demo_gap false b = Ok ((r, false), bs) ∧
    exchange false demo_gap demo_plain false b = Ok ((r, true), bc) ∧
    option_map a_name r = Some (bstr "rsa-sha2-256").
Proof. vm_compute. by do 3 eexists. Qed.

(** The command-line filter.  For a list of at most [MAX_PROPOSED_ALGO]
    well-formed names, [check_user_algos] terminates and replaces the table
    by the entries of the requested names, in the order requested and each
    once; the entries written fit the table's array. *)
Theorem check_user_algos_filters {D M} (names : list (list Z)) (algos : list (algo_type D M)) :
  names ≠ [] → Forall name_ok names → zlen names ≤ MAX_PROPOSED_ALGO →
  let kept := keep_user names algos [] in
  check_user_algos (join_comma names) algos = Ok (zlen kept, kept) ∧
  zlen kept ≤ zlen algos ∧ NoDup (map a_name kept) ∧ Forall (λ a, a ∈ algos) kept.
Proof.
  intros Hne Hok Hl kept. destruct names as [|n names]; [done|]. rewrite zlen_cons in Hl.
  pose proof (keep_user_length (n :: names) algos) as Hkl. fold kept in Hkl.
  destruct (keep_user_ok (n :: names) algos []) as [Hnd Hin]; [constructor|constructor|].
  split_and!; [|done..]. unfold check_user_algos.
  destruct (check_user_run names (2 + length (join_comma (n :: names) ++ [0])) algos [] [] n [] false)
    as [mem Hrun]; [done|change (zlen []) with 0; lia|rewrite length_app; simpl length; lia|].
  cbn [app] in Hrun. change (zlen []) with 0 in Hrun. cbv zeta. rewrite Hrun. fold kept.
  by if_false.
Qed.

Lemma check_user_algos_filters_witness :
  check_user_algos (bstr "aes128-ctr,blowfish,none,aes128-ctr") demo_serv =
    Ok (2, [mkalgo (bstr "aes128-ctr") 0 None true None; mkalgo (bstr "none") 1 None true None]).
Proof.
  change (bstr "aes128-ctr,blowfish,none,aes128-ctr") with
    (join_comma [bstr "aes128-ctr"; bstr "blowfish"; bstr "none"; bstr "aes128-ctr"]).
  destruct (check_user_algos_filters
    [bstr "aes128-ctr"; bstr "blowfish"; bstr "none"; bstr "aes128-ctr"] demo_serv) as [H _];
    [done|decide_closed|vm_compute; congruence|].
  rewrite H. vm_compute. reflexivity.
Defined.

(** A trailing comma.  A list that ends in a comma makes
    [check_user_algos] step over the terminating NUL and read beyond the
    allocation of [work_list]: the loop skips the character after a comma
    without testing it. *)
Theorem check_user_algos_trailing_comma {D M} (names : list (list Z)) (algos : list (algo_type D M)) :
  names ≠ [] → Forall name_ok names → zlen names ≤ MAX_PROPOSED_ALGO →
  check_user_algos (join_comma names ++ [COMMA]) algos = Fault "read outside the string".
Proof.
  intros Hne Hok Hl. destruct names as [|n names]; [done|]. rewrite zlen_cons in Hl.
  unfold check_user_algos. cbv zeta.
  pose proof (check_user_run names (2 + length ((join_comma (n :: names) ++ [COMMA]) ++ [0])) algos [] [] n [] true) as Hrun.
  cbn [app] in Hrun. change (zlen []) with 0 in Hrun. rewrite <-app_assoc in *. cbn [app] in *.
  rewrite Hrun; [done|done|lia|rewrite length_app; simpl length; lia].
Qed.

Lemma check_user_algos_trailing_comma_witness :
  check_user_algos (bstr "aes128-ctr,") demo_serv = Fault "read outside the string".
Proof.
  apply (check_user_algos_trailing_comma [bstr "aes128-ctr"]); [done|decide_closed|vm_compute; congruence].
Defined.
