(* ===== verification/Cipher.v ===== *)
(** * Cipher modes (src/src/common-algo.c, src/src/chachapoly.c, src/src/gcm.c)

    [struct dropbear_cipher_mode] is a record of functions over the cipher
    state [CS]; a [NULL] function pointer is [None].  A function returns
    [None] for anything but [CRYPT_OK], and buffers processed in place are
    byte lists in, byte lists out.  The primitives under the modes (ChaCha20,
    Poly1305, GCM) are libtomcrypt's: they are the parameters [ChachaLib] and
    [GcmLib], with the properties the modes rely on as their laws.

    The interface to the packet layer is [CipherPair]: what a transmit and a
    receive state must satisfy for one side to read what the other wrote.
    Its instances are proved for the null cipher, for chacha20-poly1305 and
    for AES-GCM from the laws of the primitives. *)

From Stdlib Require Import ZArith Lia.
From stdpp Require Import base list strings.
From S2P Require Import Prelude.
From S2P Require Import Buffer.

(** ** Descriptors *)

Record ltc_hash_descriptor := mkhashdesc {
  hd_name : list Z;
  hd_hashsize : Z;
  hd_fn : list Z → list Z   (* [init], [process] of the pieces, [done] *)
}.

Record dropbear_hash := mkhash {
  h_hash_desc : option ltc_hash_descriptor;
  h_keysize : Z;
  h_hashsize : Z            (* unsigned char *)
}.

Record ltc_cipher_descriptor := mkcipherdesc { cd_name : option (list Z) }.

Record dropbear_cipher := mkcipher {
  c_cipherdesc : option ltc_cipher_descriptor;
  c_keysize : Z;
  c_blocksize : Z           (* unsigned char *)
}.

Inductive direction := LTC_ENCRYPT | LTC_DECRYPT.

Record dropbear_cipher_mode (CS : Type) := mkmode {
  (* cipher, IV, key, keylen *)
  cm_start : option (Z → list Z → list Z → Z → option CS);
  cm_encrypt : option (list Z → CS → option (list Z * CS));
  cm_decrypt : option (list Z → CS → option (list Z * CS));
  (* seq, in, len, taglen, state, direction *)
  cm_aead_crypt : option (Z → list Z → Z → Z → CS → direction → option (list Z * CS));
  (* seq, in, len, state *)
  cm_aead_getlength : option (Z → list Z → Z → CS → option (Z * CS));
  cm_aead_mac : option dropbear_hash
}.
Arguments mkmode {CS} _ _ _ _ _ _.
Arguments cm_start {CS} _.
Arguments cm_encrypt {CS} _.
Arguments cm_decrypt {CS} _.
Arguments cm_aead_crypt {CS} _.
Arguments cm_aead_getlength {CS} _.
Arguments cm_aead_mac {CS} _.

(** ** No encryption *)

Definition void_cipher {CS} (input : list Z) (state : CS) : option (list Z * CS) := Some (input, state).
Definition void_start {CS} (state : CS) (cipher : Z) (IV key : list Z) (keylen : Z) : option CS :=
  Some state.

Definition dropbear_nocipher : dropbear_cipher := mkcipher None 16 8.
Definition dropbear_nohash : dropbear_hash := mkhash None 16 0.

(** [void_start] leaves the state untouched, here [state0]. *)
Definition dropbear_mode_none {CS} (state0 : CS) : dropbear_cipher_mode CS :=
  mkmode (Some (void_start state0)) (Some void_cipher) (Some void_cipher) None None None.

(** [constant_time_memcmp]: the differences of the bytes are collected in
    [c], without an early exit.  Callers pass two arrays of [n] bytes; a
    missing byte counts as a difference. *)
Fixpoint constant_time_memcmp (xa xb : list Z) (c : Z) : Z :=
  match xa, xb with
  | x :: xa, y :: xb => constant_time_memcmp xa xb (Z.lor c (Z.lxor x y))
  | [], [] => c
  | _, _ => Z.lor c 1
  end.

Definition constant_time_eq (a b : list Z) : bool := constant_time_memcmp a b 0 =? 0.

Lemma constant_time_memcmp_zero xa xb c : constant_time_memcmp xa xb c = 0 ↔ c = 0 ∧ xa = xb.
Proof.
  revert xb c. induction xa as [|x xa IH]; intros [|y xb] c; cbn [constant_time_memcmp].
  - naive_solver.
  - rewrite Z.lor_eq_0_iff. naive_solver lia.
  - rewrite Z.lor_eq_0_iff. naive_solver lia.
  - rewrite IH, Z.lor_eq_0_iff, Z.lxor_eq_0_iff. naive_solver.
Qed.

Lemma constant_time_eq_spec a b : constant_time_eq a b = bool_decide (a = b).
Proof.
  apply Bool.eq_iff_eq_true. unfold constant_time_eq.
  rewrite Z.eqb_eq, constant_time_memcmp_zero, bool_decide_eq_true. tauto.
Qed.

(** ** chachapoly.c *)

Class ChachaLib := {
  chacha_state : Type;
  (* key, keylen, rounds *)
  chacha_setup : list Z → Z → Z → option chacha_state;
  (* the 8-byte IV and the block counter *)
  chacha_ivctr64 : chacha_state → list Z → Z → chacha_state;
  chacha_keystream : chacha_state → Z → option (list Z * chacha_state);
  chacha_crypt : chacha_state → list Z → option (list Z * chacha_state);
  poly1305 : list Z → list Z → list Z   (* key, message *)
}.

Definition CHACHA20_KEY_LEN : Z := 32.
Definition CHACHA20_BLOCKSIZE : Z := 8.
Definition POLY1305_KEY_LEN : Z := 32.
Definition POLY1305_TAG_LEN : Z := 16.

Definition dropbear_chachapoly_mac : dropbear_hash := mkhash None POLY1305_KEY_LEN POLY1305_TAG_LEN.
Definition dropbear_chachapoly : dropbear_cipher :=
  mkcipher (Some (mkcipherdesc None)) (CHACHA20_KEY_LEN * 2) CHACHA20_BLOCKSIZE.

(** [STORE64H((uint64_t)seq, seqbuf)] *)
Definition STORE64H_u32 (seq : Z) : list Z := zeros 4 ++ STORE32H seq.

Section chachapoly.
Context `{ChachaLib}.

Record dropbear_chachapoly_state := mkchachapoly {
  cp_chacha : chacha_state;
  cp_header : chacha_state
}.

Definition dropbear_chachapoly_start (cipher : Z) (IV key : list Z) (keylen : Z) :
    option dropbear_chachapoly_state :=
  if negb (keylen =? CHACHA20_KEY_LEN * 2) then None
  else
    match chacha_setup (slice 0 CHACHA20_KEY_LEN key) CHACHA20_KEY_LEN 20 with
    | None => None
    | Some chacha =>
        match chacha_setup (slice CHACHA20_KEY_LEN CHACHA20_KEY_LEN key) CHACHA20_KEY_LEN 20 with
        | None => None
        | Some header => Some (mkchachapoly chacha header)
        end
    end.

(** [in] holds [len] bytes, and the tag after them when decrypting; the
    result is what is written to [out]: [len] bytes, and the tag after them
    when encrypting. *)
Definition dropbear_chachapoly_crypt (seq : Z) (input : list Z) (len taglen : Z)
    (state : dropbear_chachapoly_state) (dir : direction) :
    option (list Z * dropbear_chachapoly_state) :=
  if (len <? 4) || negb (taglen =? POLY1305_TAG_LEN) then None
  else
    let seqbuf := STORE64H_u32 seq in
    let chacha := chacha_ivctr64 (cp_chacha state) seqbuf 0 in
    match chacha_keystream chacha POLY1305_KEY_LEN with
    | None => None
    | Some (key, chacha) =>
        let tag_ok :=
          match dir with
          | LTC_DECRYPT =>
              constant_time_eq (slice len taglen input) (poly1305 key (slice 0 len input))
          | LTC_ENCRYPT => true
          end in
        if negb tag_ok then None
        else
          let header := chacha_ivctr64 (cp_header state) seqbuf 0 in
          match chacha_crypt header (slice 0 4 input) with
          | None => None
          | Some (out0, header) =>
              let chacha := chacha_ivctr64 chacha seqbuf 1 in
              match chacha_crypt chacha (slice 4 (len - 4) input) with
              | None => None
              | Some (out1, chacha) =>
                  let out := out0 ++ out1 in
                  Some (match dir with
                        | LTC_ENCRYPT => out ++ poly1305 key out
                        | LTC_DECRYPT => out
                        end, mkchachapoly chacha header)
              end
          end
    end.

Definition dropbear_chachapoly_getlength (seq : Z) (input : list Z) (len : Z)
    (state : dropbear_chachapoly_state) : option (Z * dropbear_chachapoly_state) :=
  if len <? 4 then None
  else
    let header := chacha_ivctr64 (cp_header state) (STORE64H_u32 seq) 0 in
    match chacha_crypt header (slice 0 4 input) with
    | None => None
    | Some (buf, header) => Some (LOAD32H buf, mkchachapoly (cp_chacha state) header)
    end.

Definition dropbear_mode_chachapoly : dropbear_cipher_mode dropbear_chachapoly_state :=
  mkmode (Some dropbear_chachapoly_start) None None
    (Some dropbear_chachapoly_crypt) (Some dropbear_chachapoly_getlength)
    (Some dropbear_chachapoly_mac).
End chachapoly.

(** ** gcm.c *)

Class GcmLib := {
  gcm_key : Type;
  gcm_init : Z → list Z → Z → option gcm_key;
  (* reset, add_iv, add_aad, process and done: the output and the tag *)
  gcm_run : gcm_key → list Z → list Z → list Z → direction → option (list Z * list Z)
}.

Definition GHASH_LEN : Z := 16.
Definition GCM_NONCE_LEN : Z := 12.
Definition GCM_IVFIX_LEN : Z := 4.
Definition GCM_IVCTR_LEN : Z := 8.

Definition dropbear_ghash : dropbear_hash := mkhash None 0 GHASH_LEN.

(** [for (i = GCM_IVCTR_LEN - 1; i >= 0 && ++iv[i] == 0; i--);] over the
    counter bytes given last first. *)
Fixpoint iv_incr (rev_ctr : list Z) : list Z :=
  match rev_ctr with
  | [] => []
  | b :: rest => if u8 (b + 1) =? 0 then 0 :: iv_incr rest else u8 (b + 1) :: rest
  end.

Section gcm.
Context `{GcmLib}.

Record dropbear_gcm_state := mkgcm { g_gcm : gcm_key; g_iv : list Z }.

Definition dropbear_gcm_start (cipher : Z) (IV key : list Z) (keylen : Z) :
    option dropbear_gcm_state :=
  match gcm_init cipher (slice 0 keylen key) keylen with
  | None => None
  | Some gcm => Some (mkgcm gcm (slice 0 GCM_NONCE_LEN IV))
  end.

Definition gcm_next_iv (iv : list Z) : list Z :=
  take (Z.to_nat GCM_IVFIX_LEN) iv ++ rev (iv_incr (rev (drop (Z.to_nat GCM_IVFIX_LEN) iv))).

(** The first four bytes are authenticated and not encrypted; [out] is
    [in], so they stay as they are. *)
Definition dropbear_gcm_crypt (seq : Z) (input : list Z) (len taglen : Z)
    (state : dropbear_gcm_state) (dir : direction) : option (list Z * dropbear_gcm_state) :=
  if (len <? 4) || negb (taglen =? GHASH_LEN) then None
  else
    match gcm_run (g_gcm state) (g_iv state) (slice 0 4 input) (slice 4 (len - 4) input) dir with
    | None => None
    | Some (out, tag) =>
        let tag_ok :=
          match dir with
          | LTC_DECRYPT => constant_time_eq (slice len taglen input) tag
          | LTC_ENCRYPT => true
          end in
        if negb tag_ok then None
        else
          Some (slice 0 4 input ++ out ++ match dir with LTC_ENCRYPT => tag | LTC_DECRYPT => [] end,
                mkgcm (g_gcm state) (gcm_next_iv (g_iv state)))
    end.

Definition dropbear_gcm_getlength (seq : Z) (input : list Z) (len : Z)
    (state : dropbear_gcm_state) : option (Z * dropbear_gcm_state) :=
  if len <? 4 then None else Some (LOAD32H (slice 0 4 input), state).

Definition dropbear_mode_gcm : dropbear_cipher_mode dropbear_gcm_state :=
  mkmode (Some dropbear_gcm_start) None None
    (Some dropbear_gcm_crypt) (Some dropbear_gcm_getlength) (Some dropbear_ghash).
End gcm.

(** ** The interface to the packet layer *)

(** A stream or block mode: what [encrypt] produced from [p1 ++ p2], cut
    anywhere at a block boundary, [decrypt] turns back piece by piece. *)
Definition stream_law {CS} (mode : dropbear_cipher_mode CS) (blocksize : Z)
    (paired : CS → CS → Prop) : Prop :=
  cm_aead_crypt mode = None ∧
  ∃ enc dec, cm_encrypt mode = Some enc ∧ cm_decrypt mode = Some dec ∧
  ∀ st sr p1 p2, paired st sr → bytes_ok (p1 ++ p2) →
    zlen p1 mod blocksize = 0 → zlen p2 mod blocksize = 0 →
    ∃ c1 c2 st' sr1 sr',
      enc (p1 ++ p2) st = Some (c1 ++ c2, st') ∧ bytes_ok (c1 ++ c2) ∧
      zlen c1 = zlen p1 ∧ zlen c2 = zlen p2 ∧
      dec c1 sr = Some (p1, sr1) ∧ dec c2 sr1 = Some (p2, sr') ∧ paired st' sr'.

(** An AEAD mode: [aead_crypt] appends a tag of [macsize] bytes,
    [aead_getlength] reads the length field of the encrypted packet from its
    first bytes, and decryption accepts the packet and returns it. *)
Definition aead_law {CS} (mode : dropbear_cipher_mode CS) (macsize : Z)
    (paired : CS → CS → Prop) : Prop :=
  ∃ crypt getlength, cm_aead_crypt mode = Some crypt ∧ cm_aead_getlength mode = Some getlength ∧
  ∀ seq st sr p, paired st sr → bytes_ok p → 4 ≤ zlen p →
    ∃ c st' sr1 sr',
      crypt seq p (zlen p) macsize st LTC_ENCRYPT = Some (c, st') ∧ bytes_ok c ∧
      zlen c = zlen p + macsize ∧
      (∀ n, 4 ≤ n ≤ zlen c →
        getlength seq (slice 0 n c) n sr = Some (LOAD32H (slice 0 4 p), sr1)) ∧
      crypt seq c (zlen p) macsize sr1 LTC_DECRYPT = Some (p, sr') ∧ paired st' sr'.

Class CipherPair {CS} (mode : dropbear_cipher_mode CS) (blocksize macsize : Z) := {
  paired : CS → CS → Prop;
  pair_law : stream_law mode blocksize paired ∨ aead_law mode macsize paired
}.

(** The null cipher. *)
#[export] Instance none_pair {CS} (s0 : CS) blocksize macsize :
  CipherPair (dropbear_mode_none s0) blocksize macsize.
Proof.
  refine {| paired := λ _ _, True |}. left. split; [done|].
  exists void_cipher, void_cipher. split; [done|]. split; [done|].
  intros st sr p1 p2 _ Hb _ _. exists p1, p2, st, sr, sr. done.
Defined.

(** *** chacha20-poly1305 *)

Class ChachaLaws (L : ChachaLib) := {
  (* setting IV and counter forgets the position in the stream *)
  ivctr_ivctr s iv c iv' c' :
    chacha_ivctr64 (chacha_ivctr64 s iv c) iv' c' = chacha_ivctr64 s iv' c';
  crypt_ivctr s x y s' iv c :
    chacha_crypt s x = Some (y, s') → chacha_ivctr64 s' iv c = chacha_ivctr64 s iv c;
  keystream_ivctr s n k s' iv c :
    chacha_keystream s n = Some (k, s') → chacha_ivctr64 s' iv c = chacha_ivctr64 s iv c;
  (* with an IV set, the operations succeed *)
  keystream_ok s iv c n : is_Some (chacha_keystream (chacha_ivctr64 s iv c) n);
  crypt_ok s iv c x : bytes_ok x →
    ∃ y s', chacha_crypt (chacha_ivctr64 s iv c) x = Some (y, s') ∧
      zlen y = zlen x ∧ bytes_ok y ∧
      (* XOR with the same key stream undoes itself *)
      ∃ s'', chacha_crypt (chacha_ivctr64 s iv c) y = Some (x, s'');
  poly1305_length k m : zlen (poly1305 k m) = POLY1305_TAG_LEN;
  poly1305_bytes k m : bytes_ok (poly1305 k m)
}.

Section chachapoly_pair.
Context {L : ChachaLib} {LAWS : ChachaLaws L}.
Implicit Types (s : chacha_state) (st sr : dropbear_chachapoly_state).

(** Two states with the same key, wherever they are in the stream. *)
Definition same_key s s' : Prop := ∀ iv c, chacha_ivctr64 s iv c = chacha_ivctr64 s' iv c.
Definition cp_paired st sr : Prop :=
  same_key (cp_chacha st) (cp_chacha sr) ∧ same_key (cp_header st) (cp_header sr).

(** Encryption succeeds, appends the tag of the ciphertext, and any state
    with the same keys decrypts the result. *)
Lemma chachapoly_crypt_spec seq st p :
  bytes_ok p → 4 ≤ zlen p →
  ∃ c0 c1 t st',
    dropbear_chachapoly_crypt seq p (zlen p) POLY1305_TAG_LEN st LTC_ENCRYPT
      = Some ((c0 ++ c1) ++ t, st') ∧
    bytes_ok (c0 ++ c1) ∧ bytes_ok t ∧ zlen t = POLY1305_TAG_LEN ∧
    zlen c0 = 4 ∧ zlen (c0 ++ c1) = zlen p ∧ cp_paired st st' ∧
    (∀ sr n, cp_paired st sr → 4 ≤ n →
      ∃ sr', dropbear_chachapoly_getlength seq (slice 0 n ((c0 ++ c1) ++ t)) n sr
          = Some (LOAD32H (slice 0 4 p), sr') ∧ sr' = mkchachapoly (cp_chacha sr) (cp_header sr') ∧
        same_key (cp_header sr) (cp_header sr')) ∧
    (∀ sr, cp_paired st sr →
      ∃ sr', dropbear_chachapoly_crypt seq ((c0 ++ c1) ++ t) (zlen p) POLY1305_TAG_LEN sr LTC_DECRYPT
          = Some (p, sr') ∧ cp_paired sr sr').
Proof.
  intros Hb Hl. set (sb := STORE64H_u32 seq).
  destruct (keystream_ok (cp_chacha st) sb 0 POLY1305_KEY_LEN) as [[key ks] Hks].
  assert (Hp0 : zlen (slice 0 4 p) = 4) by (apply zlen_slice; lia).
  assert (Hp1 : zlen (slice 4 (zlen p - 4) p) = zlen p - 4) by (apply zlen_slice; lia).
  destruct (crypt_ok (cp_header st) sb 0 (slice 0 4 p)) as (c0&h'&Hc0&Hl0&Hb0&h''&Hd0);
    [by apply bytes_ok_slice|].
  destruct (crypt_ok (cp_chacha st) sb 1 (slice 4 (zlen p - 4) p)) as (c1&k'&Hc1&Hl1&Hb1&k''&Hd1);
    [by apply bytes_ok_slice|].
  assert (Hks1 : ∀ iv c, chacha_ivctr64 ks iv c = chacha_ivctr64 (cp_chacha st) iv c).
  { intros iv c. rewrite (keystream_ivctr _ _ _ _ iv c Hks). apply ivctr_ivctr. }
  set (t := poly1305 key (c0 ++ c1)).
  assert (Hsp : slice 0 4 p ++ slice 4 (zlen p - 4) p = p).
  { pose proof (slice_app_split 0 4 (zlen p - 4) p) as Hs.
    change (0 + 4) with 4 in Hs. rewrite <-Hs by lia.
    replace (4 + (zlen p - 4)) with (zlen p) by lia. apply slice_full. }
  assert (Hlc : zlen (c0 ++ c1) = zlen p) by (rewrite zlen_app; lia).
  assert (Ht : zlen t = POLY1305_TAG_LEN) by apply poly1305_length.
  exists c0, c1, t, (mkchachapoly k' h'). split_and!.
  - unfold dropbear_chachapoly_crypt. rewrite Z.eqb_refl. if_false. cbn zeta. fold sb.
    rewrite Hks. cbn [negb]. rewrite Hc0, Hks1, Hc1. done.
  - by apply bytes_ok_app.
  - apply poly1305_bytes.
  - done.
  - lia.
  - done.
  - split; intros iv c; simpl; symmetry.
    + rewrite (crypt_ivctr _ _ _ _ iv c Hc1). apply ivctr_ivctr.
    + rewrite (crypt_ivctr _ _ _ _ iv c Hc0). apply ivctr_ivctr.
  - intros sr n [_ Hhd] Hn. unfold dropbear_chachapoly_getlength. if_false. fold sb.
    assert (Hsl : slice 0 4 (slice 0 n ((c0 ++ c1) ++ t)) = c0).
    { rewrite <-app_assoc. unfold slice. change (Z.to_nat 0) with 0%nat. rewrite !drop_0, take_take.
      unfold zlen in *. rewrite take_app_le by lia. apply take_ge. lia. }
    rewrite Hsl, <-Hhd, Hd0. eexists. split; [done|]. split; [done|].
    intros iv c. simpl. rewrite (crypt_ivctr _ _ _ _ iv c Hd0), ivctr_ivctr. by rewrite Hhd.
  - intros sr [Hch Hhd]. unfold dropbear_chachapoly_crypt. rewrite Z.eqb_refl. if_false. cbn zeta. fold sb.
    rewrite <-Hch, Hks, <-Hhd.
    assert (H1 : slice (zlen p) POLY1305_TAG_LEN ((c0 ++ c1) ++ t) = t).
    { pose proof (slice_app_exact (zlen p) POLY1305_TAG_LEN (c0 ++ c1) t [] Hlc Ht) as Hx.
      by rewrite app_nil_r in Hx. }
    assert (H2 : slice 0 (zlen p) ((c0 ++ c1) ++ t) = c0 ++ c1).
    { apply (slice_app_exact 0 (zlen p) [] (c0 ++ c1) t); done. }
    assert (H3 : slice 0 4 ((c0 ++ c1) ++ t) = c0).
    { rewrite <-app_assoc. apply (slice_app_exact 0 4 [] c0); [done|lia]. }
    assert (H4 : slice 4 (zlen p - 4) ((c0 ++ c1) ++ t) = c1).
    { rewrite <-app_assoc. apply slice_app_exact; lia. }
    rewrite H1, H2, H3, H4. rewrite constant_time_eq_spec, bool_decide_eq_true_2 by done.
    cbn [negb]. rewrite Hd0, Hks1, Hd1, Hsp. eexists. split; [done|].
    split; intros iv c; simpl; symmetry.
    + rewrite (crypt_ivctr _ _ _ _ iv c Hd1), ivctr_ivctr. apply Hch.
    + rewrite (crypt_ivctr _ _ _ _ iv c Hd0), ivctr_ivctr. apply Hhd.
Qed.

Lemma chachapoly_aead_law : aead_law dropbear_mode_chachapoly POLY1305_TAG_LEN cp_paired.
Proof.
  exists dropbear_chachapoly_crypt, dropbear_chachapoly_getlength. split; [done|]. split; [done|].
  intros seq st sr p [Hch Hhd] Hb Hl.
  destruct (chachapoly_crypt_spec seq st p Hb Hl)
    as (c0&c1&t&st'&Henc&Hbc&Hbt&Ht&Hc0&Hlc&[Hst1 Hst2]&Hget&Hdec).
  destruct (Hget sr 4 (conj Hch Hhd) ltac:(lia)) as (sr1&Hg1&Hg2&Hg3).
  assert (Hp1 : cp_paired st sr1).
  { rewrite Hg2. split; intros iv c; simpl; [apply Hch|]. rewrite Hhd. apply Hg3. }
  destruct (Hdec sr1 Hp1) as (sr'&Hd&[Hd1 Hd2]).
  exists ((c0 ++ c1) ++ t), st', sr1, sr'. split_and!; [done| | | |done|].
  - by apply bytes_ok_app.
  - rewrite zlen_app. lia.
  - intros n Hn. destruct (Hget sr n (conj Hch Hhd) ltac:(lia)) as (sr2&Hs1&_&_).
    rewrite Hs1. unfold dropbear_chachapoly_getlength in Hg1, Hs1.
    rewrite (proj2 (Z.ltb_ge 4 4)) in Hg1 by lia. rewrite (proj2 (Z.ltb_ge n 4)) in Hs1 by lia.
    assert (Heq : slice 0 4 (slice 0 n ((c0 ++ c1) ++ t)) = slice 0 4 (slice 0 4 ((c0 ++ c1) ++ t))).
    { unfold slice. change (Z.to_nat 0) with 0%nat. rewrite !drop_0, !take_take. f_equal. lia. }
    rewrite Heq in Hs1. cbv zeta in *. congruence.
  - destruct Hp1 as [Hq1 Hq2]. split; intros iv c; rewrite <-?Hst1, <-?Hst2, <-?Hd1, <-?Hd2; done.
Qed.

#[export] Instance chachapoly_pair :
  CipherPair dropbear_mode_chachapoly CHACHA20_BLOCKSIZE POLY1305_TAG_LEN :=
  {| paired := cp_paired; pair_law := or_intror chachapoly_aead_law |}.
End chachapoly_pair.

(** *** AES-GCM *)

Class GcmLaws (L : GcmLib) := {
  gcm_ok k iv aad p : bytes_ok p →
    ∃ c tag, gcm_run k iv aad p LTC_ENCRYPT = Some (c, tag) ∧
      zlen c = zlen p ∧ bytes_ok c ∧ zlen tag = GHASH_LEN ∧ bytes_ok tag ∧
      gcm_run k iv aad c LTC_DECRYPT = Some (p, tag)
}.

Section gcm_pair.
Context {L : GcmLib} {LAWS : GcmLaws L}.

Lemma gcm_aead_law : aead_law dropbear_mode_gcm GHASH_LEN (λ st sr, st = sr).
Proof.
  exists dropbear_gcm_crypt, dropbear_gcm_getlength. split; [done|]. split; [done|].
  intros seq st ? p <- Hb Hl.
  assert (Hp0 : zlen (slice 0 4 p) = 4) by (apply zlen_slice; lia).
  assert (Hp1 : zlen (slice 4 (zlen p - 4) p) = zlen p - 4) by (apply zlen_slice; lia).
  destruct (gcm_ok (g_gcm st) (g_iv st) (slice 0 4 p) (slice 4 (zlen p - 4) p))
    as (c&tag&Henc&Hlc&Hbc&Hlt&Hbt&Hdec); [by apply bytes_ok_slice|].
  set (h := slice 0 4 p) in *. set (st' := mkgcm (g_gcm st) (gcm_next_iv (g_iv st))).
  assert (Hsp : h ++ slice 4 (zlen p - 4) p = p).
  { pose proof (slice_app_split 0 4 (zlen p - 4) p) as Hs. change (0 + 4) with 4 in Hs.
    unfold h. rewrite <-Hs by lia. replace (4 + (zlen p - 4)) with (zlen p) by lia. apply slice_full. }
  assert (Hh : ∀ n, 4 ≤ n → slice 0 4 (slice 0 n (h ++ c ++ tag)) = h).
  { intros n Hn. unfold slice. change (Z.to_nat 0) with 0%nat. rewrite !drop_0, take_take.
    fold h. unfold zlen in *. rewrite take_app_le by lia. apply take_ge. lia. }
  assert (H1 : slice (zlen p) GHASH_LEN (h ++ c ++ tag) = tag).
  { pose proof (slice_app_exact (zlen p) GHASH_LEN (h ++ c) tag []) as Hx.
    rewrite app_nil_r, <-app_assoc in Hx. apply Hx; [rewrite zlen_app; lia|done]. }
  assert (H2 : slice 0 4 (h ++ c ++ tag) = h) by (apply (slice_app_exact 0 4 []); done).
  assert (H3 : slice 4 (zlen p - 4) (h ++ c ++ tag) = c) by (apply slice_app_exact; lia).
  exists (h ++ c ++ tag), st', st, st'. split_and!.
  - unfold dropbear_gcm_crypt. rewrite Z.eqb_refl. if_false. fold h. rewrite Henc. done.
  - rewrite !bytes_ok_app. split_and!; [by apply bytes_ok_slice|done|done].
  - rewrite !zlen_app. lia.
  - intros n Hn. unfold dropbear_gcm_getlength. if_false. rewrite Hh by lia. done.
  - unfold dropbear_gcm_crypt. rewrite Z.eqb_refl. if_false. rewrite H1, H2, H3, Hdec.
    rewrite constant_time_eq_spec, bool_decide_eq_true_2 by done. cbn [negb].
    by rewrite app_nil_r, Hsp.
  - done.
Qed.

#[export] Instance gcm_pair blocksize : CipherPair dropbear_mode_gcm blocksize GHASH_LEN :=
  {| paired := λ st sr, st = sr; pair_law := or_intror gcm_aead_law |}.
End gcm_pair.

(** The invocation counter as a number. *)
Fixpoint le_val (l : list Z) : Z :=
  match l with [] => 0 | b :: l => b + 256 * le_val l end.

Lemma le_val_range l : bytes_ok l → 0 ≤ le_val l < 256 ^ zlen l.
Proof.
  induction 1 as [|b l Hb _ IH]; [done|]. cbn [le_val]. rewrite zlen_cons.
  pose proof (zlen_nonneg l). rewrite Z.pow_add_r by lia. unfold byte_ok in Hb. lia.
Qed.

Lemma iv_incr_length l : length (iv_incr l) = length l.
Proof. induction l as [|b l IH]; [done|]. cbn [iv_incr]. case_match; simpl; lia. Qed.

Lemma iv_incr_bytes l : bytes_ok l → bytes_ok (iv_incr l).
Proof.
  induction 1 as [|b l Hb Hl IH]; [constructor|]. cbn [iv_incr].
  case_match; constructor; try done; apply u8_range || (unfold byte_ok; lia).
Qed.

Lemma iv_incr_value l : bytes_ok l → le_val (iv_incr l) = (le_val l + 1) mod 256 ^ zlen l.
Proof.
  induction 1 as [|b l Hb Hl IH]; [done|]. cbn [iv_incr le_val]. rewrite zlen_cons.
  pose proof (zlen_nonneg l). pose proof (le_val_range l Hl) as Hr.
  rewrite Z.pow_add_r by lia. change (256 ^ 1) with 256. unfold byte_ok in Hb.
  destruct (Z.eqb_spec (u8 (b + 1)) 0) as [He|He]; cbn [le_val].
  - assert (b = 255) as ->.
    { destruct (Z.eq_dec b 255); [done|]. rewrite u8_small in He by lia. lia. }
    rewrite IH. replace (255 + 256 * le_val l + 1) with ((le_val l + 1) * 256) by lia.
    rewrite (Z.mul_comm 256 (256 ^ zlen l)), Z.mul_mod_distr_r by lia. lia.
  - assert (b < 255).
    { destruct (Z.eq_dec b 255) as [->|]; [by vm_compute in He|lia]. }
    rewrite u8_small by lia. rewrite Z.mod_small; lia.
Qed.

Lemma le_val_inj l l' :
  bytes_ok l → bytes_ok l' → length l = length l' → le_val l = le_val l' → l = l'.
Proof.
  intros Hl. revert l'. induction Hl as [|b l Hb Hl IH]; intros [|b' l'] Hl' Hlen Heq; try done.
  apply Forall_cons in Hl' as [Hb' Hl']. cbn [le_val] in Heq. unfold byte_ok in *.
  f_equal; [lia|]. apply IH; [done|simpl in Hlen; lia|lia].
Qed.

(** The nonce used by the [n]-th packet after [start]. *)
Definition gcm_nonce (iv : list Z) (n : nat) : list Z := Nat.iter n gcm_next_iv iv.

Definition wf_iv (iv : list Z) : Prop := bytes_ok iv ∧ zlen iv = GCM_NONCE_LEN.

Lemma gcm_next_iv_spec iv :
  wf_iv iv →
  wf_iv (gcm_next_iv iv) ∧ take 4 (gcm_next_iv iv) = take 4 iv ∧
  le_val (rev (drop 4 (gcm_next_iv iv))) = (le_val (rev (drop 4 iv)) + 1) mod 2 ^ 64.
Proof.
  intros [Hb Hl]. unfold GCM_NONCE_LEN, zlen in Hl. unfold gcm_next_iv, GCM_IVFIX_LEN.
  change (Z.to_nat 4) with 4%nat. set (ctr := rev (drop 4 iv)).
  assert (Hc : bytes_ok ctr) by (apply Forall_rev, Forall_drop, Hb).
  assert (Hcl : length ctr = 8%nat) by (unfold ctr; rewrite length_rev, length_drop; lia).
  assert (Ht : length (take 4 iv) = 4%nat) by (rewrite length_take; lia).
  split_and!.
  - split.
    + apply bytes_ok_app. split; [by apply Forall_take|]. by apply Forall_rev, iv_incr_bytes.
    + rewrite zlen_app. unfold zlen. rewrite length_rev, iv_incr_length, Hcl, Ht. done.
  - rewrite take_app_length' by done. done.
  - rewrite drop_app_length' by done. rewrite rev_involutive, iv_incr_value by done.
    unfold zlen. by rewrite Hcl.
Qed.

Lemma gcm_nonce_spec iv n :
  wf_iv iv → wf_iv (gcm_nonce iv n) ∧
  le_val (rev (drop 4 (gcm_nonce iv n))) = (le_val (rev (drop 4 iv)) + Z.of_nat n) mod 2 ^ 64.
Proof.
  intros Hiv. induction n as [|n [IH1 IH2]].
  - split; [done|]. rewrite Z.add_0_r, Z.mod_small; [done|]. destruct Hiv as [Hb Hl].
    pose proof (le_val_range (rev (drop 4 iv)) ltac:(apply Forall_rev, Forall_drop, Hb)) as Hr.
    replace (zlen (rev (drop 4 iv))) with 8 in Hr; [exact Hr|].
    unfold zlen, GCM_NONCE_LEN in *. rewrite length_rev, length_drop. lia.
  - destruct (gcm_next_iv_spec (gcm_nonce iv n) IH1) as (H1&_&H3). split; [exact H1|].
    change (gcm_nonce iv (S n)) with (gcm_next_iv (gcm_nonce iv n)).
    rewrite H3, IH2, Z.add_mod_idemp_l by lia. f_equal. lia.
Qed.

(** ** The properties of the cipher modes *)

(** C36: chacha20-poly1305 seals packets.  Encryption succeeds on every
    packet of at least four bytes; a receiver whose state has the same keys
    reads the same length field, accepts the packet and returns the
    plaintext, and the states stay paired.  Conversely whatever decryption
    accepts carries the Poly1305 tag of its ciphertext under the one-time key
    of its sequence number. *)
Theorem chachapoly_seals {L : ChachaLib} {LAWS : ChachaLaws L} (seq : Z)
    (st sr : dropbear_chachapoly_state) (p : list Z) :
  cp_paired st sr → bytes_ok p → 4 ≤ zlen p →
  (∃ c st' sr1 sr',
    dropbear_chachapoly_crypt seq p (zlen p) POLY1305_TAG_LEN st LTC_ENCRYPT = Some (c, st') ∧
    zlen c = zlen p + POLY1305_TAG_LEN ∧
    dropbear_chachapoly_getlength seq c (zlen c) sr = Some (LOAD32H (slice 0 4 p), sr1) ∧
    dropbear_chachapoly_crypt seq c (zlen p) POLY1305_TAG_LEN sr1 LTC_DECRYPT = Some (p, sr') ∧
    cp_paired st' sr') ∧
  (∀ c len out sr',
    dropbear_chachapoly_crypt seq c len POLY1305_TAG_LEN sr LTC_DECRYPT = Some (out, sr') →
    ∃ key s, chacha_keystream (chacha_ivctr64 (cp_chacha sr) (STORE64H_u32 seq) 0) 32 = Some (key, s) ∧
      slice len POLY1305_TAG_LEN c = poly1305 key (slice 0 len c)).
Proof.
  intros Hp Hb Hl. split.
  - destruct chachapoly_aead_law as (?&?&[= <-]&[= <-]&Hlaw).
    destruct (Hlaw seq st sr p Hp Hb Hl) as (c&st'&sr1&sr'&Henc&_&Hlc&Hget&Hdec&Hp').
    exists c, st', sr1, sr'. split_and!; [done..| |done|done].
    rewrite <-(slice_full c) at 1. apply Hget. rewrite Hlc. unfold POLY1305_TAG_LEN. lia.
  - intros c len out sr' Hc. unfold dropbear_chachapoly_crypt in Hc.
    destruct ((len <? 4) || _); [done|]. cbn zeta in Hc. fold POLY1305_KEY_LEN.
    destruct (chacha_keystream _ _) as [[key s]|] eqn:Hk; [|done].
    exists key, s. split; [done|]. rewrite constant_time_eq_spec in Hc. case_bool_decide; done.
Qed.

(** C37: GCM nonces do not repeat.  The invocation counter in the IV is a
    64-bit big-endian counter: the packets encrypted under one key use
    pairwise different nonces for any two of the first 2^64 of them. *)
Theorem gcm_nonces_distinct (iv : list Z) (i j : nat) :
  wf_iv iv → Z.of_nat i < 2 ^ 64 → Z.of_nat j < 2 ^ 64 → i ≠ j →
  gcm_nonce iv i ≠ gcm_nonce iv j.
Proof.
  intros Hiv Hi Hj Hij Heq. destruct (gcm_nonce_spec iv i Hiv) as [_ H1].
  destruct (gcm_nonce_spec iv j Hiv) as [_ H2]. rewrite Heq, H2 in H1.
  set (v := le_val (rev (drop 4 iv))) in *. apply Hij, Nat2Z.inj.
  assert (Hd : (Z.of_nat i - Z.of_nat j) mod 2 ^ 64 = 0).
  { replace (Z.of_nat i - Z.of_nat j) with ((v + Z.of_nat i) - (v + Z.of_nat j)) by lia.
    rewrite Zminus_mod, H1, Z.sub_diag. done. }
  apply Z.mod_divide in Hd as [k Hk]; [|lia]. nia.
Qed.

Lemma gcm_nonces_distinct_witness :
  gcm_nonce [0; 1; 2; 3; 0; 0; 0; 0; 0; 0; 0; 255] 1 ≠ gcm_nonce [0; 1; 2; 3; 0; 0; 0; 0; 0; 0; 0; 255] 2.
Proof. apply gcm_nonces_distinct; [split; [decide_closed|done]|lia..]. Defined.

(** A stand-in stream cipher for the witnesses: XOR with one byte derived
    from key, IV and counter. *)
Definition sum_bytes (l : list Z) : Z := u8 (foldr Z.add 0 l).
Definition toy_chacha : ChachaLib := {|
  chacha_state := list Z * list Z * Z;
  chacha_setup k _ _ := Some (k, [], 0);
  chacha_ivctr64 s iv c := (s.1.1, iv, c);
  chacha_keystream s n := Some (replicate (Z.to_nat n) (sum_bytes (s.1.1 ++ s.1.2)), s);
  chacha_crypt s x := Some (map (Z.lxor (sum_bytes (s.2 :: s.1.1 ++ s.1.2))) x, s);
  poly1305 k m := replicate 16 (sum_bytes (k ++ m))
|}.

Lemma lxor_byte a b : byte_ok a → byte_ok b → byte_ok (Z.lxor a b).
Proof.
  unfold byte_ok. intros Ha Hb. assert (0 ≤ Z.lxor a b) by (apply Z.lxor_nonneg; lia).
  split; [done|]. destruct (Z.eq_dec (Z.lxor a b) 0); [lia|].
  apply (Z.log2_lt_pow2 _ 8); [lia|]. eapply Z.le_lt_trans; [apply Z.log2_lxor; lia|].
  assert (∀ x, 0 ≤ x < 256 → Z.log2 x < 8).
  { intros x Hx. destruct (Z.eq_dec x 0) as [->|]; [done|]. apply Z.log2_lt_pow2; lia. }
  apply Z.max_lub_lt; auto.
Qed.

Definition toy_chacha_laws : ChachaLaws toy_chacha.
Proof.
  constructor; simpl; intros; simplify_eq/=; try done; try (by eexists).
  - eexists _, _. split_and!; [done|unfold zlen; by rewrite length_map| |].
    + apply Forall_map. eapply Forall_impl; [done|]. intros x' Hx. apply lxor_byte; [apply u8_range|done].
    + eexists. repeat f_equal. rewrite map_map. etransitivity; [|apply map_id].
      apply map_ext. intros x'. by rewrite <-Z.lxor_assoc, Z.lxor_nilpotent, Z.lxor_0_l.
  - apply (Forall_replicate _ 16), u8_range.
Defined.

Lemma chachapoly_seals_witness :
  ∃ c st',
    @dropbear_chachapoly_crypt toy_chacha 7 [0; 0; 0; 1; 9] 5 POLY1305_TAG_LEN
      (@mkchachapoly toy_chacha ([1], [], 0) ([2], [], 0)) LTC_ENCRYPT = Some (c, st') ∧ zlen c = 21.
Proof.
  destruct (@chachapoly_seals toy_chacha toy_chacha_laws 7
    (@mkchachapoly toy_chacha ([1], [], 0) ([2], [], 0))
    (@mkchachapoly toy_chacha ([1], [], 0) ([2], [], 0)) [0; 0; 0; 1; 9])
    as [(c&st'&sr1&sr'&H1&H2&_) _].
  - by split.
  - decide_closed.
  - vm_compute. congruence.
  - exists c, st'. split; [exact H1|exact H2].
Defined.
