(* ===== verification/KeyTypes.v ===== *)
(** * Key and signature types (src/src/signkey.h, src/src/signkey.c)

    The enumerations [signkey_type] and [signature_type] of a default build
    (RSA with SHA-256, ECDSA, Ed25519 and the security key variants; no DSS, no
    RSA with SHA-1), their names on the wire, and the conversions between
    them. *)

From Stdlib Require Import ZArith Lia.
From stdpp Require Import base list strings.
From S2P Require Import Prelude.
From S2P Require Import Algo.

Definition DROPBEAR_SIGNKEY_RSA : Z := 0.
Definition DROPBEAR_SIGNKEY_ECDSA_NISTP256 : Z := 1.
Definition DROPBEAR_SIGNKEY_ECDSA_NISTP384 : Z := 2.
Definition DROPBEAR_SIGNKEY_ECDSA_NISTP521 : Z := 3.
Definition DROPBEAR_SIGNKEY_SK_ECDSA_NISTP256 : Z := 4.
Definition DROPBEAR_SIGNKEY_ED25519 : Z := 5.
Definition DROPBEAR_SIGNKEY_SK_ED25519 : Z := 6.
Definition DROPBEAR_SIGNKEY_NUM_NAMED : Z := 7.
Definition DROPBEAR_SIGNKEY_ANY : Z := 80.
Definition DROPBEAR_SIGNKEY_NONE : Z := 90.
Definition DROPBEAR_SIGNATURE_RSA_SHA256 : Z := 101.
Definition DROPBEAR_SIGNATURE_NONE : Z := 90.

Definition SSH_SK_USER_PRESENCE_REQD : Z := 1.
Definition SSH_SK_USER_VERIFICATION_REQD : Z := 4.

Definition MAX_PUBKEY_SIZE : Z := 600.

Definition SSH_SIGNATURE_RSA_SHA256 : list Z := bstr "rsa-sha2-256".

Definition signkey_names : list (list Z) :=
  map bstr ["ssh-rsa"; "ecdsa-sha2-nistp256"; "ecdsa-sha2-nistp384"; "ecdsa-sha2-nistp521";
            "sk-ecdsa-sha2-nistp256@openssh.com"; "ssh-ed25519"; "sk-ssh-ed25519@openssh.com"]%string.

Definition signkey_name_from_type {S} (type : Z) : ST S (list Z) :=
  match signkey_names !! Z.to_nat type with
  | Some n => ret n
  | None => dropbear_exit "Bad key type %d"
  end.

Definition signkey_type_from_name (name : list Z) : Z :=
  match List.find (λ p, bytes_eqb p.2 name) (combine (map Z.of_nat (seq 0 7)) signkey_names) with
  | Some (i, _) => i
  | None => DROPBEAR_SIGNKEY_NONE
  end.

Definition signature_name_from_type {S} (type : Z) : ST S (list Z) :=
  if type =? DROPBEAR_SIGNATURE_RSA_SHA256 then ret SSH_SIGNATURE_RSA_SHA256 else signkey_name_from_type type.

Definition signature_type_from_name (name : list Z) : Z :=
  if bytes_eqb name SSH_SIGNATURE_RSA_SHA256 then DROPBEAR_SIGNATURE_RSA_SHA256 else signkey_type_from_name name.

Definition signkey_type_from_signature {S} (sigtype : Z) : ST S Z :=
  if sigtype =? DROPBEAR_SIGNATURE_RSA_SHA256 then ret DROPBEAR_SIGNKEY_RSA
  else
    do* dropbear_assert (sigtype <? DROPBEAR_SIGNKEY_NUM_NAMED)
          "(int)sigtype < (int)DROPBEAR_SIGNKEY_NUM_NAMED";
    ret sigtype.

Definition signkey_is_ecdsa (type : Z) : bool :=
  (type =? DROPBEAR_SIGNKEY_ECDSA_NISTP256) || (type =? DROPBEAR_SIGNKEY_ECDSA_NISTP384)
  || (type =? DROPBEAR_SIGNKEY_ECDSA_NISTP521).
Definition signkey_is_sk (type : Z) : bool :=
  (type =? DROPBEAR_SIGNKEY_SK_ED25519) || (type =? DROPBEAR_SIGNKEY_SK_ECDSA_NISTP256).

(** ** Names and types determine each other *)

Lemma signkey_type_from_name_cases name :
  signkey_type_from_name name = DROPBEAR_SIGNKEY_NONE ∨
  (0 ≤ signkey_type_from_name name < DROPBEAR_SIGNKEY_NUM_NAMED ∧
   signkey_names !! Z.to_nat (signkey_type_from_name name) = Some name).
Proof.
  unfold signkey_type_from_name. cbn [seq map combine signkey_names List.find snd].
  repeat match goal with |- context [if bytes_eqb ?a ?n then _ else _] =>
    let H := fresh in destruct (bytes_eqb a n) eqn:H;
    [right; apply bool_decide_eq_true in H; subst name; split; [by vm_compute|done]|] end.
  by left.
Qed.

Lemma signkey_name_type t name : 0 ≤ t → signkey_names !! Z.to_nat t = Some name → signkey_type_from_name name = t.
Proof.
  intros Ht Hn. assert (Hlt : (Z.to_nat t < 7)%nat) by (apply lookup_lt_Some in Hn; exact Hn).
  assert (Hc : t = 0 ∨ t = 1 ∨ t = 2 ∨ t = 3 ∨ t = 4 ∨ t = 5 ∨ t = 6) by lia.
  destruct Hc as [->|[->|[->|[->|[->|[->| ->]]]]]]; vm_compute in Hn; injection Hn as <-; by vm_compute.
Qed.

Lemma wp_signkey_name {S} t E (Q : list Z → S → Prop) s :
  0 ≤ t < DROPBEAR_SIGNKEY_NUM_NAMED → (∀ name, signkey_names !! Z.to_nat t = Some name → Q name s) →
  wp (signkey_name_from_type t) E Q s.
Proof.
  unfold DROPBEAR_SIGNKEY_NUM_NAMED. intros Ht HQ. unfold signkey_name_from_type.
  destruct (signkey_names !! Z.to_nat t) as [n|] eqn:Hn; [by apply wp_ret, HQ|].
  apply lookup_ge_None in Hn. change (length signkey_names) with 7%nat in Hn. lia.
Qed.
