(* ===== verification/Ecc.v ===== *)
(** * Elliptic curve keys (src/src/ecc.c)

    The NIST curves, the uncompressed encoding of points and the checks on a
    point a peer sends, and the ECDH secret.  The parameters of the curves are
    those of libtomcrypt's table; its point arithmetic is a parameter, the
    class [EccLib], with the laws the code relies on in [EccLaws].  Bignums
    are integers, their modular power and inverse the class [MpLib].

    Lemmas: encoding and decoding of points, and that nothing but a point of
    the curve with nonzero coordinates is ever accepted. *)

From Stdlib Require Import ZArith Lia.
From stdpp Require Import base list strings.
From S2P Require Import Prelude.
From S2P Require Import Buffer.
From S2P Require Import Random.
From S2P Require Import Algo.
From S2P Require Import Cipher.

(** ** Libraries *)

(** libtommath: [None] for anything but [MP_OKAY]. *)
Class MpLib := {
  mp_exptmod : Z → Z → Z → option Z;
  mp_invmod : Z → Z → option Z
}.

Class MpLaws (L : MpLib) : Prop := {
  exptmod_spec : ∀ g x p, 0 ≤ g → 0 ≤ x → 1 < p → mp_exptmod g x p = Some (g ^ x mod p);
  invmod_spec : ∀ a p b, 0 ≤ a → 1 < p → mp_invmod a p = Some b → 0 ≤ b < p ∧ (a * b) mod p = 1;
  invmod_total : ∀ a p, 0 ≤ a → 1 < p → Z.gcd a p = 1 → is_Some (mp_invmod a p)
}.

Definition mp_mulmod (a b p : Z) : Z := (a * b) mod p.

(** ** The curves *)

Inductive ecc_curve := nistp256 | nistp384 | nistp521.
#[global] Instance ecc_curve_eq_dec : EqDecision ecc_curve.
Proof. solve_decision. Defined.

(** [struct dropbear_ecc_curve] and libtomcrypt's [ltc_ecc_set_type]. *)
Definition ltc_size (c : ecc_curve) : Z :=
  match c with nistp256 => 32 | nistp384 => 48 | nistp521 => 66 end.
Definition ecc_name (c : ecc_curve) : list Z :=
  bstr (match c with nistp256 => "nistp256" | nistp384 => "nistp384" | nistp521 => "nistp521" end)%string.
Definition ecc_prime (c : ecc_curve) : Z :=
  match c with
  | nistp256 => 0xFFFFFFFF00000001000000000000000000000000FFFFFFFFFFFFFFFFFFFFFFFF
  | nistp384 => 0xFFFFFFFFFFFFFFFFFFFFFFFFFFFFFFFFFFFFFFFFFFFFFFFFFFFFFFFFFFFFFFFEFFFFFFFF0000000000000000FFFFFFFF
  | nistp521 => 0x1FFFFFFFFFFFFFFFFFFFFFFFFFFFFFFFFFFFFFFFFFFFFFFFFFFFFFFFFFFFFFFFFFFFFFFFFFFFFFFFFFFFFFFFFFFFFFFFFFFFFFFFFFFFFFFFFFFFFFFFFFFFFFFFFFF
  end.
Definition ecc_B (c : ecc_curve) : Z :=
  match c with
  | nistp256 => 0x5AC635D8AA3A93E7B3EBBD55769886BC651D06B0CC53B0F63BCE3C3E27D2604B
  | nistp384 => 0xB3312FA7E23EE7E4988E056BE3F82D19181D9C6EFE8141120314088F5013875AC656398D8A2ED19D2A85C8EDD3EC2AEF
  | nistp521 => 0x51953EB9618E1C9A1F929A21A0B68540EEA2DA725B99B315F3B8B489918EF109E156193951EC7E937B1652C0BD3BB1BF073573DF883D2C34F1EF451FD46B503F00
  end.
Definition ecc_order (c : ecc_curve) : Z :=
  match c with
  | nistp256 => 0xFFFFFFFF00000000FFFFFFFFFFFFFFFFBCE6FAADA7179E84F3B9CAC2FC632551
  | nistp384 => 0xFFFFFFFFFFFFFFFFFFFFFFFFFFFFFFFFFFFFFFFFFFFFFFFFC7634D81F4372DDF581A0DB248B0A77AECEC196ACCC52973
  | nistp521 => 0x1FFFFFFFFFFFFFFFFFFFFFFFFFFFFFFFFFFFFFFFFFFFFFFFFFFFFFFFFFFFFFFFFFA51868783BF2F966B7FCC0148F709A5D03BB5C9B8899C47AEBB6FB71E91386409
  end.

(** A point in affine coordinates. *)
Definition point : Type := Z * Z.

Class EccLib := {
  sha384_desc : ltc_hash_descriptor;
  sha512_desc : ltc_hash_descriptor;
  (* a key pair; None for anything but CRYPT_OK *)
  ecc_make_key_ex : ecc_curve → ST rng (option (Z * point));
  ecc_ptmul : ecc_curve → Z → point → option point;
  (* the point u1*G + u2*Q *)
  ecc_mul2add : ecc_curve → Z → Z → point → option point
}.

Definition sha256_desc `{Sha256} : ltc_hash_descriptor := mkhashdesc (bstr "sha256") 32 sha256.
Definition ecc_hash_desc `{Sha256} {EL : EccLib} (c : ecc_curve) : ltc_hash_descriptor :=
  match c with nistp256 => sha256_desc | nistp384 => sha384_desc | nistp521 => sha512_desc end.

(** [ecc_key]; a key read from a buffer has no private part. *)
Record ecc_key := mkecc { e_dp : ecc_curve; e_x : Z; e_y : Z; e_k : Z; e_private : bool }.
Definition set_e_k (v : Z) (k : ecc_key) : ecc_key := mkecc (e_dp k) (e_x k) (e_y k) v (e_private k).
Definition e_pub (k : ecc_key) : point := (e_x k, e_y k).

(** y^2 - x^3 + 3x = b.  The two loops that bring the remainder into range
    find it there. *)
Definition ecc_is_point (c : ecc_curve) (x y : Z) : bool :=
  let t2 := x * ((x * x) mod ecc_prime c) in
  (y * y - t2 + x + x + x) mod ecc_prime c =? ecc_B c.

(** [ecc_ansi_x963_export] of libtomcrypt. *)
Definition mp_to_padded (n v : Z) : list Z :=
  zeros (n - mp_ubin_size v) ++ mp_ubin_loop (Z.to_nat (mp_ubin_size v)) (Z.abs v) [].
Definition ecc_ansi_x963_export (key : ecc_key) (outlen : Z) : option (list Z) :=
  let numlen := ltc_size (e_dp key) in
  if (mp_ubin_size (e_x key) >? numlen) || (mp_ubin_size (e_y key) >? numlen) || (outlen <? 1 + 2 * numlen)
  then None
  else Some (4 :: mp_to_padded numlen (e_x key) ++ mp_to_padded numlen (e_y key)).

Definition buf_put_ecc_raw_pubkey_string (key : ecc_key) : ST buffer unit :=
  let len := ltc_size (e_dp key) * 2 + 1 in
  do* buf_putint len;
  let* p := buf_getwriteptr len in
  match ecc_ansi_x963_export key len with
  | None => dropbear_exit "ECC error"
  | Some bs => do* mem_store p bs; buf_incrwritepos (zlen bs)
  end.

(** [None] is the null key. *)
Definition buf_get_ecc_raw_pubkey (curve : ecc_curve) : ST buffer (option ecc_key) :=
  let size := ltc_size curve in
  do* buf_setpos 0;
  let* first := buf_getbyte in
  let* b := get in
  if (first =? 2) || (first =? 3) then ret None
  else if negb (first =? 4) || negb (b_len b =? 1 + 2 * size) then ret None
  else
    let* p := buf_getptr size in
    let* bs := mem_load p size in
    let x := mp_from_ubin bs in
    do* buf_incrpos size;
    let* p := buf_getptr size in
    let* bs := mem_load p size in
    let y := mp_from_ubin bs in
    do* buf_incrpos size;
    if negb (ecc_is_point curve x y) then ret None
    else if x =? 0 then ret None
    else if y =? 0 then ret None
    else ret (Some (mkecc curve x y 0 false)).

Definition dropbear_ecc_shared_secret {EL : EccLib} {S} (public_key private_key : ecc_key) : ST S Z :=
  if negb (e_private private_key) then dropbear_exit "ECC error"
  else if negb (bool_decide (e_dp private_key = e_dp public_key)) then dropbear_exit "ECC error"
  else match ecc_ptmul (e_dp private_key) (e_k private_key) (e_pub public_key) with
       | None => dropbear_exit "ECC error"
       | Some result => ret result.1
       end.

(** ** What the code relies on of the curve arithmetic *)

(** [base c k] is the point k*G of the curve. *)
Class EccLaws (EL : EccLib) (base : ecc_curve → Z → point) : Prop := {
  base_range : ∀ c k, 0 < k < ecc_order c →
    0 ≤ (base c k).1 < ecc_prime c ∧ 0 ≤ (base c k).2 < ecc_prime c ∧ ecc_is_point c (base c k).1 (base c k).2 = true;
  make_key_spec : ∀ c r, wf_rng r →
    wp (ecc_make_key_ex c) no_exit
      (λ o r', wf_rng r' ∧ ∀ k q, o = Some (k, q) → 0 < k < ecc_order c ∧ q = base c k) r;
  ptmul_commutes : ∀ c a b, 0 < a < ecc_order c → 0 < b < ecc_order c →
    ecc_ptmul c a (base c b) = ecc_ptmul c b (base c a) ∧ is_Some (ecc_ptmul c a (base c b));
  ptmul_range : ∀ c a q r, ecc_ptmul c a q = Some r → 0 ≤ r.1 < ecc_prime c;
  mul2add_spec : ∀ c u1 u2 x k, 0 < x < ecc_order c → 0 < k < ecc_order c →
    (u1 + u2 * x) mod ecc_order c = k → ecc_mul2add c u1 u2 (base c x) = Some (base c k)
}.

(** ** Encoding and decoding *)

Lemma mp_ubin_size_fits n v : 0 ≤ v < 2 ^ (8 * n) → 0 ≤ n → 0 ≤ mp_ubin_size v ≤ n.
Proof.
  intros Hv Hn. destruct (Z.eq_dec v 0) as [->|]; [done|].
  pose proof (mp_ubin_size_bits v ltac:(lia)). pose proof (mp_count_bits_pos v ltac:(lia)). split; [lia|].
  assert (mp_count_bits v ≤ 8 * n); [|lia]. unfold mp_count_bits. if_false. rewrite Z.abs_eq by lia.
  assert (Z.log2 v < 8 * n) by (apply Z.log2_lt_pow2; lia). lia.
Qed.

Lemma mp_from_ubin_zeros n bs : mp_from_ubin (zeros n ++ bs) = mp_from_ubin bs.
Proof.
  unfold mp_from_ubin. rewrite fold_left_app. f_equal. unfold zeros.
  induction (Z.to_nat n) as [|m IH]; [done|exact IH].
Qed.

Lemma mp_to_padded_length n v : 0 ≤ v < 2 ^ (8 * n) → 0 ≤ n → zlen (mp_to_padded n v) = n.
Proof.
  intros Hv Hn. pose proof (mp_ubin_size_fits n v Hv Hn). unfold mp_to_padded.
  rewrite zlen_app, zlen_zeros, length_mp_ubin_loop, zlen_nil by lia. lia.
Qed.

Lemma mp_to_padded_bytes n v : bytes_ok (mp_to_padded n v).
Proof. apply bytes_ok_app. split; [apply bytes_ok_zeros|apply mp_ubin_loop_bytes; constructor]. Qed.

Lemma mp_from_to_padded n v : 0 ≤ v → mp_from_ubin (mp_to_padded n v) = v.
Proof.
  intros Hv. unfold mp_to_padded. rewrite mp_from_ubin_zeros, Z.abs_eq by done.
  destruct (Z.eq_dec v 0) as [->|]; [done|]. apply mp_from_to_ubin. lia.
Qed.

Lemma ltc_size_bounds c : 0 < ltc_size c ≤ 66.
Proof. destruct c; simpl; lia. Qed.
Lemma ecc_prime_size c : 0 < ecc_prime c < 2 ^ (8 * ltc_size c).
Proof. destruct c; split; vm_compute; reflexivity. Qed.
Lemma ecc_order_size c : 0 < ecc_order c < 2 ^ (8 * ltc_size c).
Proof. destruct c; split; vm_compute; reflexivity. Qed.

(** A public key the decoder accepts. *)
Definition ecc_pub_ok (key : ecc_key) : Prop :=
  0 < e_x key < 2 ^ (8 * ltc_size (e_dp key)) ∧ 0 < e_y key < 2 ^ (8 * ltc_size (e_dp key)) ∧
  ecc_is_point (e_dp key) (e_x key) (e_y key) = true.

Definition ecc_public (key : ecc_key) : ecc_key := mkecc (e_dp key) (e_x key) (e_y key) 0 false.

Definition raw_point (key : ecc_key) : list Z :=
  4 :: mp_to_padded (ltc_size (e_dp key)) (e_x key) ++ mp_to_padded (ltc_size (e_dp key)) (e_y key).

Lemma raw_point_bytes key : bytes_ok (raw_point key).
Proof. constructor; [done|]. apply bytes_ok_app. split; apply mp_to_padded_bytes. Qed.

Lemma raw_point_length key : ecc_pub_ok key → zlen (raw_point key) = ltc_size (e_dp key) * 2 + 1.
Proof.
  intros (Hx&Hy&_). pose proof (ltc_size_bounds (e_dp key)).
  unfold raw_point. rewrite zlen_cons, zlen_app, !mp_to_padded_length by lia. lia.
Qed.

Lemma export_ok key : ecc_pub_ok key →
  ecc_ansi_x963_export key (ltc_size (e_dp key) * 2 + 1) = Some (raw_point key).
Proof.
  intros (Hx&Hy&_). pose proof (ltc_size_bounds (e_dp key)).
  unfold ecc_ansi_x963_export.
  pose proof (mp_ubin_size_fits (ltc_size (e_dp key)) (e_x key) ltac:(lia) ltac:(lia)).
  pose proof (mp_ubin_size_fits (ltc_size (e_dp key)) (e_y key) ltac:(lia) ltac:(lia)). by if_false.
Qed.

Lemma puts_blob len o bs msg :
  o = Some bs → zlen bs = len → bytes_ok bs → len < 2 ^ 32 →
  puts (do* buf_putint len;
        let* p := buf_getwriteptr len in
        match o with
        | None => dropbear_exit msg
        | Some bs => do* mem_store p bs; buf_incrwritepos (zlen bs)
        end) (STORE32H (zlen bs) ++ bs).
Proof. intros -> <- Hb Hl. exact (puts_string bs Hb Hl). Qed.

Lemma puts_raw_pubkey key : ecc_pub_ok key →
  puts (buf_put_ecc_raw_pubkey_string key) (STORE32H (zlen (raw_point key)) ++ raw_point key).
Proof.
  intros Hk. pose proof (ltc_size_bounds (e_dp key)).
  unfold buf_put_ecc_raw_pubkey_string. eapply puts_blob. 
  - exact (export_ok key Hk).
  - exact (raw_point_length key Hk).
  - apply raw_point_bytes.
  - lia.
Qed.

(** The tail of a reader that loads [n] bytes and steps over them. *)
Lemma wp_read_then {A} n (k : list Z → ST buffer A) E Q b :
  wf_buf b → 0 ≤ n →
  (b_pos b + n ≤ b_len b → wp (k (slice (b_pos b) n (b_data b))) E Q (after_get n b)) →
  (b_len b < b_pos b + n → ∀ e, E e) →
  wp (let* p := buf_getptr n in let* bs := mem_load p n in do* buf_incrpos n; k bs) E Q b.
Proof.
  intros Hwf Hn HQ HE. pose proof Hwf as (?&?&Hd&?).
  apply wp_bind, wp_buf_getptr; [done|lia| |intros; apply HE; lia]. intros.
  apply wp_bind, wp_mem_load; [lia..|]. apply wp_bind, wp_buf_incrpos; [done|lia|done|lia].
Qed.

Lemma at_cursor_self bs : at_cursor (buf_of bs) bs.
Proof. split; cbn [buf_of b_pos b_len b_data]; [lia|apply slice_full]. Qed.

(** The encoding of a point is unique. *)
Lemma mp_from_ubin_inj l l' : bytes_ok l → bytes_ok l' → zlen l = zlen l' → mp_from_ubin l = mp_from_ubin l' → l = l'.
Proof.
  revert l'. induction l as [|a l IH] using rev_ind; intros l' Hb Hb' Hl Hv.
  { destruct l' as [|c l']; [done|]. rewrite zlen_cons, zlen_nil in Hl. pose proof (zlen_nonneg l'). lia. }
  destruct l' as [|c l' _] using rev_ind.
  { rewrite zlen_app, zlen_nil in Hl. change (zlen [a]) with 1 in Hl. pose proof (zlen_nonneg l). lia. }
  apply bytes_ok_app in Hb as [Hb Ha], Hb' as [Hb' Hc]. apply Forall_inv in Ha, Hc.
  rewrite !mp_from_ubin_snoc in Hv by done. rewrite !zlen_app in Hl. change (2 ^ 8) with 256 in Hv. unfold byte_ok in Ha, Hc.
  assert (Heq : mp_from_ubin l = mp_from_ubin l' ∧ a = c) by lia. destruct Heq as [Hv' ->].
  f_equal. apply IH; [done|done| |done]. change (zlen [c]) with 1 in Hl. lia.
Qed.

Lemma mp_to_padded_from n bs : zlen bs = n → bytes_ok bs → mp_to_padded n (mp_from_ubin bs) = bs.
Proof.
  intros <- Hb. pose proof (mp_from_ubin_range bs Hb) as Hr. pose proof (zlen_nonneg bs).
  apply mp_from_ubin_inj; [apply mp_to_padded_bytes|done|by apply mp_to_padded_length|].
  apply mp_from_to_padded. lia.
Qed.

(** Whatever the bytes: a key comes out only for a point of the curve, and
    the bytes are its encoding. *)
Lemma wp_buf_get_ecc_raw_pubkey curve (Q : option ecc_key → buffer → Prop) b :
  wf_buf b →
  (∀ b', wf_buf b' → b_data b' = b_data b → b_len b' = b_len b → Q None b') →
  (∀ x y b', wf_buf b' → b_data b' = b_data b → b_len b' = b_len b →
     ecc_pub_ok (mkecc curve x y 0 false) → raw_point (mkecc curve x y 0 false) = contents b →
     Q (Some (mkecc curve x y 0 false)) b') →
  wp (buf_get_ecc_raw_pubkey curve) any_exit Q b.
Proof.
  intros Hwf HN HS. pose proof (ltc_size_bounds curve). unfold buf_get_ecc_raw_pubkey.
  apply wp_bind, wp_buf_setpos; [|done]. intros _.
  assert (Hw0 : wf_buf (set_pos 0 b)) by (apply wf_set_pos; [done|]; destruct Hwf; lia).
  apply wp_bind, wp_buf_getbyte; [done| |done]. cbn [set_pos b_pos b_len b_data]. intros Hl.
  set (b1 := after_get 1 (set_pos 0 b)). assert (Hw1 : wf_buf b1) by (apply wf_after_get; [done|lia|cbn; lia]).
  apply wp_bind, wp_get. apply wp_if; intros _; [by apply wp_ret, HN|].
  apply wp_if; intros Hlen; [by apply wp_ret, HN|].
  apply orb_false_elim in Hlen as [H4 Hlen]. apply negb_false_iff, Z.eqb_eq in H4. apply negb_false_iff, Z.eqb_eq in Hlen. cbn [b1 after_get set_pos b_len] in Hlen.
  pose proof Hwf as (?&?&Hd&Hbb).
  apply wp_read_then; [done|lia| |done]. intros Hl2.
  apply wp_read_then; [apply wf_after_get; [done|lia|done]|lia| |done]. intros Hl3.
  assert (Hw3 : wf_buf (after_get (ltc_size curve) (after_get (ltc_size curve) b1))).
  { apply wf_after_get; [apply wf_after_get; [done|lia|done]|lia|done]. }
  cbn [b1 after_get set_pos b_pos b_data] in *.
  apply wp_if; intros Hpt; [by apply wp_ret, HN|]. apply wp_if; intros Hx; [by apply wp_ret, HN|].
  apply wp_if; intros Hy; [by apply wp_ret, HN|]. apply negb_false_iff in Hpt.
  pose proof (mp_from_ubin_range _ (bytes_ok_slice (0 + 1) (ltc_size curve) _ Hbb)) as Hbx.
  pose proof (mp_from_ubin_range _ (bytes_ok_slice (0 + 1 + ltc_size curve) (ltc_size curve) _ Hbb)) as Hby.
  cbn [after_get set_pos b_len b_pos] in Hl2, Hl3. rewrite zlen_slice in Hbx, Hby by lia.
  assert (Hc : contents b = 4 :: slice (0 + 1) (ltc_size curve) (b_data b) ++ slice (0 + 1 + ltc_size curve) (ltc_size curve) (b_data b)).
  { unfold contents. rewrite Hlen. replace (1 + 2 * ltc_size curve) with (1 + (ltc_size curve + ltc_size curve)) by lia.
    rewrite (slice_app_split 0), (slice_app_split (0 + 1)) by lia.
    pose proof (zlen_slice 0 1 (b_data b) ltac:(lia) ltac:(lia)) as Hz.
    destruct (slice 0 1 (b_data b)) as [|c [|? ?]] eqn:Hs; [done| |rewrite !zlen_cons in Hz; pose proof (zlen_nonneg l); lia].
    cbn [nth] in H4. by rewrite H4. }
  apply wp_ret, HS; [done|done|done| |].
  - split_and!; cbn [e_x e_y e_dp]; [lia|lia|lia|lia|done].
  - unfold raw_point. cbn [e_x e_y e_dp]. rewrite Hc. f_equal. f_equal;
      (apply mp_to_padded_from; [rewrite zlen_slice; lia|by apply bytes_ok_slice]).
Qed.

(** Decoding an encoded point. *)
Lemma get_raw_pubkey key : ecc_pub_ok key →
  wp (buf_get_ecc_raw_pubkey (e_dp key)) no_exit
    (λ o b', o = Some (ecc_public key) ∧ b' = set_pos (zlen (raw_point key)) (buf_of (raw_point key)))
    (buf_of (raw_point key)).
Proof.
  intros Hk. pose proof (raw_point_length key Hk) as Hl. pose proof (raw_point_bytes key) as Hb.
  pose proof (ltc_size_bounds (e_dp key)) as Hs.
  destruct key as [c x y k pr]. destruct Hk as (Hx&Hy&Hpt). cbn [e_dp e_x e_y] in *.
  set (rp := raw_point (mkecc c x y k pr)) in *. set (n := ltc_size c) in *.
  assert (Hw : wf_buf (buf_of rp)) by (apply wf_buf_of; [done|unfold BUF_MAX_SIZE; lia]).
  pose proof (at_cursor_self rp) as Hat. change rp with ([4] ++ mp_to_padded n x ++ mp_to_padded n y) in Hat at 2.
  apply at_cursor_app in Hat as [[Ha1 Ha2] Hat]; [|done]. change (zlen [4]) with 1 in *.
  assert (Hw1 : wf_buf (after_get 1 (buf_of rp))) by (apply wf_after_get; [done|lia|done]).
  apply at_cursor_app in Hat as [Hax Hay]; [|done]. rewrite mp_to_padded_length in Hay by lia.
  unfold buf_get_ecc_raw_pubkey. fold n.
  apply wp_bind, wp_buf_setpos; [|cbn [buf_of b_len]; lia]. intros _.
  change (set_pos 0 (buf_of rp)) with (buf_of rp).
  apply wp_bind, wp_buf_getbyte; [done| |cbn [buf_of b_len b_pos]; lia]. intros _.
  rewrite Ha2. cbn [nth]. apply wp_bind, wp_get. apply wp_if; intros Hc; [done|]. clear Hc.
  apply wp_if; intros Hc; [cbn [after_get set_pos buf_of b_len] in Hc; lia|]. clear Hc.
  destruct Hax as [Hax1 Hax2], Hay as [Hay1 Hay2]. rewrite mp_to_padded_length in Hax1, Hax2, Hay1, Hay2 by lia.
  apply wp_read_then; [done|lia| |lia]. intros _. rewrite Hax2.
  apply wp_read_then; [apply wf_after_get; [done|lia|done]|lia| |lia]. intros _. rewrite Hay2.
  rewrite !mp_from_to_padded by lia. rewrite Hpt. cbn [negb].
  apply wp_if; intros Hc; [lia|]. apply wp_if; intros Hc'; [lia|]. apply wp_ret. split; [done|].
  rewrite !after_get_get. unfold after_get. f_equal. cbn [buf_of b_pos]. lia.
Qed.
