(* ===== verification/SignKey.v ===== *)
(** * Host and user keys (src/src/signkey.c, rsa.c, ecdsa.c, ed25519.c, sk-ecdsa.c, sk-ed25519.c)

    Reading and writing public and private keys, signing and verifying, for
    the key types of a default build: RSA (with blinding), ECDSA on the three
    NIST curves, Ed25519, and the security key variants, which can only
    verify.  Bignum and curve arithmetic and Ed25519 itself are parameters
    (Ecc.v and [Ed25519Lib]).

    Freeing and burning memory is left out; a freed key is the null pointer
    the code stores after it.  Signing draws random numbers: the state of
    those operations is the generator with the buffer that is written. *)

From Stdlib Require Import ZArith Lia.
From stdpp Require Import base list strings.
From S2P Require Import Prelude.
From S2P Require Import Buffer.
From S2P Require Import Random.
From S2P Require Import Algo.
From S2P Require Import Cipher.
From S2P Require Import KeyTypes.
From S2P Require Import Ecc.

Definition CURVE25519_LEN : Z := 32.
Definition MIN_RSA_KEYLEN : Z := 1024.
Definition SSH_SIGNKEY_RSA : list Z := bstr "ssh-rsa".
Definition SSH_SIGNKEY_ED25519 : list Z := bstr "ssh-ed25519".
Definition UINT64_MAX : Z := 2 ^ 64 - 1.

(** curve25519.c: the message, the private and public key; the message, the
    signature and the public key. *)
Class Ed25519Lib := {
  dropbear_ed25519_sign : list Z → list Z → list Z → list Z;
  dropbear_ed25519_verify : list Z → list Z → list Z → bool
}.

(** The laws of Ed25519; [pair] says that two keys belong together. *)
Class Ed25519Laws (DL : Ed25519Lib) (pair : list Z → list Z → Prop) : Prop := {
  ed_sign_length : ∀ m priv pub, zlen (dropbear_ed25519_sign m priv pub) = 64;
  ed_sign_bytes : ∀ m priv pub, bytes_ok (dropbear_ed25519_sign m priv pub);
  ed_verify_sign : ∀ m priv pub, pair priv pub → dropbear_ed25519_verify m (dropbear_ed25519_sign m priv pub) pub = true
}.

(** [data_buf->data], [data_buf->len] bytes of it. *)
Definition buf_bytes (b : buffer) : list Z := slice 0 (b_len b) (b_data b).

(** Operations that write a buffer and draw random numbers. *)
Definition on_gen {A} : ST rng A → ST (rng * buffer) A := zoom fst (λ r s, (r, s.2)).
Definition on_buf {A} : ST buffer A → ST (rng * buffer) A := zoom snd (λ b s, (s.1, b)).
(** The same on a buffer of their own, which is the result. *)
Definition with_blob (b : buffer) (m : ST (rng * buffer) unit) : ST (rng * buffer) buffer := λ s,
  match m (s.1, b) with
  | Ok (_, (r, b')) => Ok (b', (r, s.2))
  | Exit e => Exit e
  | Fault w => Fault w
  end.
(** A call that failed ends the session. *)
Definition or_exit {S A} (o : option A) (msg : string) : ST S A :=
  match o with Some a => ret a | None => dropbear_exit msg end.
Definition deref {S A} (o : option A) : ST S A :=
  match o with Some a => ret a | None => fault "null pointer" end.
(** [dropbear_assert(key != NULL)] before a key is used. *)
Definition assert_key {S A} (o : option A) : ST S A := or_exit o "Failed assertion key != NULL".

(** ** RSA (rsa.c) *)

Record dropbear_rsa_key := mkrsa { r_n : Z; r_e : Z; r_d : option Z; r_p : option Z; r_q : option Z }.
Definition set_rsa_priv (d p q : Z) (k : dropbear_rsa_key) : dropbear_rsa_key :=
  mkrsa (r_n k) (r_e k) (Some d) (Some p) (Some q).

Section rsa.
Context `{Sha256} {ML : MpLib} (fuel : nat).

Definition buf_get_rsa_pub_key : ST buffer (option dropbear_rsa_key) :=
  do* buf_incrpos (4 + zlen SSH_SIGNKEY_RSA);
  let* e := buf_getmpint in
  match e with
  | None => ret None
  | Some e =>
      let* n := buf_getmpint in
      match n with
      | None => ret None
      | Some n =>
          if mp_count_bits n <? MIN_RSA_KEYLEN then ret None
          else if mp_count_bits e >? 64 then ret None
          else ret (Some (mkrsa n e None None None))
      end
  end.

Definition buf_get_rsa_priv_key : ST buffer (option dropbear_rsa_key) :=
  let* key := buf_get_rsa_pub_key in
  match key with
  | None => ret None
  | Some key =>
      let* d := buf_getmpint in
      match d with
      | None => ret None
      | Some d =>
          let* b := get in
          if b_pos b =? b_len b then dropbear_exit "RSA key format is ancient"
          else
            let* p := buf_getmpint in
            match p with
            | None => ret None
            | Some p =>
                let* q := buf_getmpint in
                match q with
                | None => ret None
                | Some q => ret (Some (set_rsa_priv d p q key))
                end
            end
      end
  end.

Definition buf_put_rsa_pub_key (key : dropbear_rsa_key) : ST buffer unit :=
  do* buf_putstring SSH_SIGNKEY_RSA;
  do* buf_putmpint (r_e key);
  buf_putmpint (r_n key).

Definition buf_put_rsa_priv_key (key : dropbear_rsa_key) : ST buffer unit :=
  do* buf_put_rsa_pub_key key;
  let* d := deref (r_d key) in
  do* buf_putmpint d;
  do* (match r_p key with Some p => buf_putmpint p | None => ret tt end);
  match r_q key with Some q => buf_putmpint q | None => ret tt end.

(** The DER encoding of the SHA-256 algorithm identifier. *)
Definition T_sha256 : list Z :=
  [0x30; 0x31; 0x30; 0x0d; 0x06; 0x09; 0x60; 0x86; 0x48; 0x01;
   0x65; 0x03; 0x04; 0x02; 0x01; 0x05; 0x00; 0x04; 0x20].

Fixpoint rsa_pad_loop (fuel : nat) (stop : Z) : ST buffer unit :=
  let* b := get in
  if negb (b_pos b =? stop) then
    match fuel with
    | O => fault "fuel"
    | Datatypes.S fuel => do* buf_putbyte 0xff; rsa_pad_loop fuel stop
    end
  else ret tt.

(** The C [assert(0)] of the default case, which aborts the process, is an
    exit. *)
Definition rsa_pad_em {S} (key : dropbear_rsa_key) (data_buf : buffer) (sigtype : Z) : ST S Z :=
  do* dropbear_assert (sigtype =? DROPBEAR_SIGNATURE_RSA_SHA256) "0";
  let T := T_sha256 in
  let hash_desc := sha256_desc in
  let* rsa_EM := buf_new (mp_ubin_size (r_n key)) in
  let* (bs, _) := on_new rsa_EM
    (do* buf_putbyte 0x00;
     do* buf_putbyte 0x01;
     let* b := get in
     do* rsa_pad_loop (Z.to_nat (b_size b)) (u32 (b_size b - (1 + zlen T + hd_hashsize hash_desc)));
     do* buf_putbyte 0x00;
     do* buf_putbytes T;
     let* p := buf_getwriteptr (hd_hashsize hash_desc) in
     do* mem_store p (hd_fn hash_desc (buf_bytes data_buf));
     do* buf_incrwritepos (hd_hashsize hash_desc);
     let* b := get in
     do* dropbear_assert (b_pos b =? b_size b) "rsa_EM->pos == rsa_EM->size";
     do* buf_setpos 0;
     let* p := buf_getptr (b_size b) in
     mem_load p (b_size b)) in
  ret (mp_from_ubin bs).

Definition buf_rsa_verify (key : dropbear_rsa_key) (sigtype : Z) (data_buf : buffer) : ST buffer bool :=
  let* slen := buf_getint in
  if negb (slen =? u32 (mp_ubin_size (r_n key))) then ret false
  else
    let* b := get in
    let n := u32 (b_len b - b_pos b) in
    let* p := buf_getptr n in
    let* bs := mem_load p n in
    let rsa_s := mp_from_ubin bs in
    if negb (rsa_s <? r_n key) then ret false
    else
      let* rsa_em := rsa_pad_em key data_buf sigtype in
      match mp_exptmod rsa_s (r_e key) (r_n key) with
      | None => ret false
      | Some rsa_mdash => ret (rsa_em =? rsa_mdash)
      end.

Fixpoint put_zeros (n : nat) : ST buffer unit :=
  match n with O => ret tt | Datatypes.S n => do* buf_putbyte 0; put_zeros n end.

(** The blinded private operation on [em]. *)
Definition rsa_blinded (key : dropbear_rsa_key) (em : Z) : ST (rng * buffer) Z :=
  let n := r_n key in
  let* r := on_gen (gen_random_mpint fuel n) in
  let* re := or_exit (mp_exptmod r (r_e key) n) "RSA error" in
  let* r_inv := or_exit (mp_invmod r n) "RSA error" in
  let em' := mp_mulmod em re n in
  let* b := on_gen (gen_random_mpint fuel UINT64_MAX) in
  let* p := deref (r_p key) in
  let* q := deref (r_q key) in
  let phi_n := n + 1 - p - q in
  let* d := deref (r_d key) in
  let* s' := or_exit (mp_exptmod em' (d + b * phi_n) n) "RSA error" in
  ret (mp_mulmod s' r_inv n).

Definition buf_put_rsa_sign (key : dropbear_rsa_key) (sigtype : Z) (data_buf : buffer) :
    ST (rng * buffer) unit :=
  let* em := rsa_pad_em key data_buf sigtype in
  let* rsa_s := rsa_blinded key em in
  let* name := signature_name_from_type sigtype in
  do* on_buf (buf_putstring name);
  let nsize := mp_ubin_size (r_n key) in
  do* on_buf (buf_putint nsize);
  let ssize := mp_ubin_size rsa_s in
  do* dropbear_assert (ssize <=? nsize) "ssize <= nsize";
  do* on_buf (put_zeros (Z.to_nat (nsize - ssize)));
  on_buf
    (let* p := buf_getwriteptr ssize in
     let* written := or_exit (mp_to_ubin rsa_s ssize) "RSA error" in
     do* mem_store p written;
     buf_incrwritepos (zlen written)).
End rsa.

(** ** ECDSA (ecdsa.c) *)

(** The bytes of a C string. *)
Fixpoint c_str (bs : list Z) : list Z :=
  match bs with [] => [] | c :: bs => if c =? 0 then [] else c :: c_str bs end.

Section ecdsa.
Context `{Sha256} {ML : MpLib} {EL : EccLib} (fuel : nat).

Definition SK_ECDSA_NAME : list Z := bstr "sk-ecdsa-sha2-nistp256@openssh.com".
Definition ECDSA_PREFIX : list Z := bstr "ecdsa-sha2-".

(** The search through [dropbear_ecc_curves]: [memcmp] of the identifier,
    whose allocation ends with a NUL, and a name. *)
Fixpoint find_curve {S} (identifier : list Z) (curves : list ecc_curve) : ST S (option ecc_curve) :=
  match curves with
  | [] => ret None
  | c :: curves =>
      if zlen (ecc_name c) >? zlen identifier + 1 then fault "read past the identifier"
      else if bytes_eqb (slice 0 (zlen (ecc_name c)) (identifier ++ [0])) (ecc_name c) then ret (Some c)
      else find_curve identifier curves
  end.

Definition buf_get_ecdsa_pub_key : ST buffer (option ecc_key) :=
  let* key_ident := buf_getstring in
  let* identifier := buf_getstring in
  if (if bytes_eqb (c_str key_ident) SK_ECDSA_NAME then negb (bytes_eqb (c_str identifier) (bstr "nistp256"))
      else negb (zlen key_ident =? zlen identifier + zlen ECDSA_PREFIX)
           || negb (bytes_eqb (slice (zlen ECDSA_PREFIX) (zlen identifier) key_ident) identifier))
  then ret None
  else
    let* curve := find_curve identifier [nistp256; nistp384; nistp521] in
    match curve with
    | None => ret None
    | Some curve =>
        let* q_buf := buf_getstringbuf in
        let* (new_key, _) := on_new q_buf (buf_get_ecc_raw_pubkey curve) in
        ret new_key
    end.

Definition buf_get_ecdsa_priv_key : ST buffer (option ecc_key) :=
  let* new_key := buf_get_ecdsa_pub_key in
  match new_key with
  | None => ret None
  | Some new_key =>
      let* k := buf_getmpint in
      match k with
      | None => ret None
      | Some k => ret (Some (set_e_k k new_key))
      end
  end.

Definition ecdsa_ident (c : ecc_curve) : list Z := ECDSA_PREFIX ++ ecc_name c.

Definition buf_put_ecdsa_pub_key (key : ecc_key) : ST buffer unit :=
  do* buf_putstring (ecdsa_ident (e_dp key));
  do* buf_putstring (ecc_name (e_dp key));
  buf_put_ecc_raw_pubkey_string key.

Definition buf_put_ecdsa_priv_key (key : ecc_key) : ST buffer unit :=
  do* buf_put_ecdsa_pub_key key;
  buf_putmpint (e_k key).

(** The hash of the data as a number. *)
Definition ecdsa_e (c : ecc_curve) (data_buf : buffer) : Z :=
  mp_from_ubin (hd_fn (ecc_hash_desc c) (buf_bytes data_buf)).

Fixpoint ecdsa_sign_loop (fuel : nat) (key : ecc_key) (e : Z) : ST rng (Z * Z) :=
  match fuel with
  | O => fault "fuel"
  | Datatypes.S fuel =>
      let p := ecc_order (e_dp key) in
      let* R_key := ecc_make_key_ex (e_dp key) in
      let* (k, R) := or_exit R_key "ECC error" in
      let r := R.1 mod p in
      if r =? 0 then ecdsa_sign_loop fuel key e
      else
        let* k_inv := or_exit (mp_invmod k p) "ECC error" in
        let s := mp_mulmod (e_k key) r p in
        let s := (e + s) mod p in
        let s := mp_mulmod s k_inv p in
        if negb (s =? 0) then ret (r, s) else ecdsa_sign_loop fuel key e
  end.

Definition buf_put_ecdsa_sign (key : ecc_key) (data_buf : buffer) : ST (rng * buffer) unit :=
  let* (r, s) := on_gen (ecdsa_sign_loop fuel key (ecdsa_e (e_dp key) data_buf)) in
  do* on_buf (buf_putstring (ecdsa_ident (e_dp key)));
  let* sigbuf := buf_new 200 in
  let* (_, sigbuf) := on_new sigbuf (do* buf_putmpint r; buf_putmpint s) in
  on_buf (buf_putbufstring sigbuf).

Definition buf_get_ecdsa_verify_params : ST buffer (option (Z * Z)) :=
  let* sig_len := buf_getint in
  let* b := get in
  let sig_pos := b_pos b in
  let* r := buf_getmpint in
  match r with
  | None => ret None
  | Some r =>
      let* s := buf_getmpint in
      match s with
      | None => ret None
      | Some s =>
          let* b := get in
          if negb (u32 (b_pos b - sig_pos) =? sig_len) then ret None else ret (Some (r, s))
      end
  end.

Definition buf_ecdsa_verify (key : ecc_key) (data_buf : buffer) : ST buffer bool :=
  let* params := buf_get_ecdsa_verify_params in
  match params with
  | None => ret false
  | Some (r, s) =>
      let e := ecdsa_e (e_dp key) data_buf in
      let p := ecc_order (e_dp key) in
      if (r =? 0) || (s =? 0) || negb (r <? p) || negb (s <? p) then ret false
      else
        match mp_invmod s p with
        | None => ret false
        | Some w =>
            let u1 := mp_mulmod e w p in
            let u2 := mp_mulmod r w p in
            match ecc_mul2add (e_dp key) u1 u2 (e_pub key) with
            | None => ret false
            | Some mG => ret (mG.1 mod p =? r)
            end
        end
  end.
End ecdsa.

(** ** Ed25519 (ed25519.c) *)

Record dropbear_ed25519_key := mked { ed_priv : list Z; ed_pub : list Z }.

Section ed25519.
Context `{Sha256} {EL : EccLib} {DL : Ed25519Lib}.

Definition buf_get_ed25519_pub_key (expect_keytype : Z) : ST buffer (option dropbear_ed25519_key) :=
  let* keytype := buf_getstring in
  if negb (signkey_type_from_name keytype =? expect_keytype) then ret None
  else
    let* len := buf_getint in
    let* b := get in
    if negb (len =? CURVE25519_LEN) || (u32 (b_len b - b_pos b) <? len) then ret None
    else
      let* p := buf_getptr CURVE25519_LEN in
      let* pub := mem_load p CURVE25519_LEN in
      do* buf_incrpos CURVE25519_LEN;
      ret (Some (mked (zeros CURVE25519_LEN) pub)).

Definition buf_get_ed25519_priv_key : ST buffer (option dropbear_ed25519_key) :=
  do* buf_incrpos (4 + zlen SSH_SIGNKEY_ED25519);
  let* len := buf_getint in
  let* b := get in
  if negb (len =? CURVE25519_LEN * 2) || (u32 (b_len b - b_pos b) <? len) then ret None
  else
    let* p := buf_getptr CURVE25519_LEN in
    let* priv := mem_load p CURVE25519_LEN in
    do* buf_incrpos CURVE25519_LEN;
    let* p := buf_getptr CURVE25519_LEN in
    let* pub := mem_load p CURVE25519_LEN in
    do* buf_incrpos CURVE25519_LEN;
    ret (Some (mked priv pub)).

Definition buf_put_ed25519_pub_key (key : dropbear_ed25519_key) : ST buffer unit :=
  do* buf_putstring SSH_SIGNKEY_ED25519;
  buf_putstring (ed_pub key).

Definition buf_put_ed25519_priv_key (key : dropbear_ed25519_key) : ST buffer unit :=
  do* buf_putstring SSH_SIGNKEY_ED25519;
  do* buf_putint (CURVE25519_LEN * 2);
  do* buf_putbytes (ed_priv key);
  buf_putbytes (ed_pub key).

Definition buf_put_ed25519_sign (key : dropbear_ed25519_key) (data_buf : buffer) : ST buffer unit :=
  let s := dropbear_ed25519_sign (buf_bytes data_buf) (ed_priv key) (ed_pub key) in
  do* buf_putstring SSH_SIGNKEY_ED25519;
  buf_putstring s.

Definition buf_ed25519_verify (key : dropbear_ed25519_key) (data_buf : buffer) : ST buffer bool :=
  let* slen := buf_getint in
  let* b := get in
  if negb (slen =? 64) || (u32 (b_len b - b_pos b) <? slen) then ret false
  else
    let* p := buf_getptr slen in
    let* s := mem_load p slen in
    ret (dropbear_ed25519_verify (buf_bytes data_buf) s (ed_pub key)).

(** ** Security keys (sk-ecdsa.c, sk-ed25519.c) *)

(** The message a security key signs. *)
Definition sk_message {S} (app : list Z) (flags counter : Z) (data_buf : buffer) : ST S buffer :=
  let* sk_buffer := buf_new (2 * SHA256_HASH_SIZE + 5) in
  let* (_, sk_buffer) := on_new sk_buffer
    (do* buf_putbytes (sha256 app);
     do* buf_putbyte flags;
     do* buf_putint counter;
     buf_putbytes (sha256 (buf_bytes data_buf))) in
  ret sk_buffer.

(** [~flags & sk_flags_mask & SSH_SK_...] *)
Definition sk_flags_ok (flags mask : Z) : bool :=
  (Z.land (Z.land (Z.lnot flags) mask) SSH_SK_USER_PRESENCE_REQD =? 0)
  && (Z.land (Z.land (Z.lnot flags) mask) SSH_SK_USER_VERIFICATION_REQD =? 0).

Definition buf_sk_ecdsa_verify {ML : MpLib} (key : ecc_key) (data_buf : buffer) (app : list Z) (mask : Z) :
    ST buffer bool :=
  let* sig_buffer := buf_getbuf in
  let* flags := buf_getbyte in
  let* counter := buf_getint in
  let* sk_buffer := sk_message app flags counter data_buf in
  let* (ok, _) := on_new sig_buffer (buf_ecdsa_verify key sk_buffer) in
  ret (ok && sk_flags_ok flags mask).

Definition buf_sk_ed25519_verify (key : dropbear_ed25519_key) (data_buf : buffer) (app : list Z) (mask : Z) :
    ST buffer bool :=
  let* slen := buf_getint in
  let* b := get in
  if negb (slen =? 64) || (u32 (b_len b - b_pos b) <? slen) then ret false
  else
    let* p := buf_getptr slen in
    let* s := mem_load p slen in
    do* buf_incrpos slen;
    let* flags := buf_getbyte in
    let* counter := buf_getint in
    let* sk_buffer := sk_message app flags counter data_buf in
    ret (dropbear_ed25519_verify (buf_bytes sk_buffer) s (ed_pub key) && sk_flags_ok flags mask).
End ed25519.

(** ** Keys of any type (signkey.c) *)

(** [struct SIGN_key]; [sk_app] with its length. *)
Record sign_key := mksignkey {
  rsakey : option dropbear_rsa_key;
  ecckey256 : option ecc_key;
  ecckey384 : option ecc_key;
  ecckey521 : option ecc_key;
  ed25519key : option dropbear_ed25519_key;
  sk_app : list Z;
  sk_flags_mask : Z
}.

Definition set_rsakey (v : option dropbear_rsa_key) (k : sign_key) : sign_key :=
  mksignkey v (ecckey256 k) (ecckey384 k) (ecckey521 k) (ed25519key k) (sk_app k) (sk_flags_mask k).
Definition set_ed25519key (v : option dropbear_ed25519_key) (k : sign_key) : sign_key :=
  mksignkey (rsakey k) (ecckey256 k) (ecckey384 k) (ecckey521 k) v (sk_app k) (sk_flags_mask k).
Definition set_sk_app (v : list Z) (k : sign_key) : sign_key :=
  mksignkey (rsakey k) (ecckey256 k) (ecckey384 k) (ecckey521 k) (ed25519key k) v (sk_flags_mask k).
Definition set_sk_flags_mask (v : Z) (k : sign_key) : sign_key :=
  mksignkey (rsakey k) (ecckey256 k) (ecckey384 k) (ecckey521 k) (ed25519key k) (sk_app k) v.

Definition new_sign_key : sign_key := mksignkey None None None None None [] 0.

(** [*signkey_key_ptr(key, type)] and the assignment through it, for the
    types that are kept as an [ecc_key]. *)
Definition signkey_key_ptr (key : sign_key) (type : Z) : option ecc_key :=
  if type =? DROPBEAR_SIGNKEY_ECDSA_NISTP384 then ecckey384 key
  else if type =? DROPBEAR_SIGNKEY_ECDSA_NISTP521 then ecckey521 key
  else ecckey256 key.
Definition set_ecckey (type : Z) (v : option ecc_key) (k : sign_key) : sign_key :=
  if type =? DROPBEAR_SIGNKEY_ECDSA_NISTP384
  then mksignkey (rsakey k) (ecckey256 k) v (ecckey521 k) (ed25519key k) (sk_app k) (sk_flags_mask k)
  else if type =? DROPBEAR_SIGNKEY_ECDSA_NISTP521
  then mksignkey (rsakey k) (ecckey256 k) (ecckey384 k) v (ed25519key k) (sk_app k) (sk_flags_mask k)
  else mksignkey (rsakey k) v (ecckey384 k) (ecckey521 k) (ed25519key k) (sk_app k) (sk_flags_mask k).

(** The types kept as an [ecc_key] and as an Ed25519 key. *)
Definition is_ecc (type : Z) : bool := signkey_is_ecdsa type || (type =? DROPBEAR_SIGNKEY_SK_ECDSA_NISTP256).
Definition is_ed (type : Z) : bool := (type =? DROPBEAR_SIGNKEY_ED25519) || (type =? DROPBEAR_SIGNKEY_SK_ED25519).

Section signkey.
Context `{Sha256} {ML : MpLib} {EL : EccLib} {DL : Ed25519Lib} (fuel : nat).

Definition some_b {A} (o : option A) : bool := match o with Some _ => true | None => false end.

(** The result, the key and [*type] afterwards. *)
Definition buf_get_pub_key (key : sign_key) (type : Z) : ST buffer (bool * (sign_key * Z)) :=
  let* ident := buf_getstring in
  let keytype := signkey_type_from_name ident in
  if negb (type =? DROPBEAR_SIGNKEY_ANY) && negb (type =? keytype) then ret (false, (key, type))
  else
    do* buf_decrpos (u32 (zlen ident + 4));
    let* (ok, key) :=
      (if keytype =? DROPBEAR_SIGNKEY_RSA then
         let* k := buf_get_rsa_pub_key in ret (some_b k, set_rsakey k key)
       else if is_ecc keytype then
         let* k := buf_get_ecdsa_pub_key in ret (some_b k, set_ecckey keytype k key)
       else if is_ed keytype then
         let* k := buf_get_ed25519_pub_key keytype in ret (some_b k, set_ed25519key k key)
       else ret (false, key)) in
    let* key :=
      (if signkey_is_sk keytype then let* app := buf_getstring in ret (set_sk_app app key) else ret key) in
    ret (ok, (key, keytype)).

Definition buf_get_priv_key (key : sign_key) (type : Z) : ST buffer (bool * (sign_key * Z)) :=
  let* ident := buf_getstring in
  let keytype := signkey_type_from_name ident in
  if negb (type =? DROPBEAR_SIGNKEY_ANY) && negb (type =? keytype) then ret (false, (key, type))
  else
    do* buf_decrpos (u32 (zlen ident + 4));
    let* (ok, key) :=
      (if keytype =? DROPBEAR_SIGNKEY_RSA then
         let* k := buf_get_rsa_priv_key in ret (some_b k, set_rsakey k key)
       else if signkey_is_ecdsa keytype then
         let* k := buf_get_ecdsa_priv_key in ret (some_b k, set_ecckey keytype k key)
       else if keytype =? DROPBEAR_SIGNKEY_ED25519 then
         let* k := buf_get_ed25519_priv_key in ret (some_b k, set_ed25519key k key)
       else ret (false, key)) in
    ret (ok, (key, keytype)).

Definition buf_put_pub_key (key : sign_key) (type : Z) : ST buffer unit :=
  let* pubkeys := buf_new MAX_PUBKEY_SIZE in
  let* (_, pubkeys) := on_new pubkeys
    (if type =? DROPBEAR_SIGNKEY_RSA then
       let* k := assert_key (rsakey key) in buf_put_rsa_pub_key k
     else if is_ecc type then
       match signkey_key_ptr key type with Some k => buf_put_ecdsa_pub_key k | None => ret tt end
     else if is_ed type then
       let* k := assert_key (ed25519key key) in buf_put_ed25519_pub_key k
     else ret tt) in
  do* exit_if (b_len pubkeys =? 0) "Bad key types in buf_put_pub_key";
  buf_putbufstring pubkeys.

Definition buf_put_priv_key (key : sign_key) (type : Z) : ST buffer unit :=
  if type =? DROPBEAR_SIGNKEY_RSA then
    let* k := assert_key (rsakey key) in buf_put_rsa_priv_key k
  else if signkey_is_ecdsa type then
    match signkey_key_ptr key type with
    | Some k => buf_put_ecdsa_priv_key k
    | None => dropbear_exit "Bad key types in put pub key"
    end
  else if type =? DROPBEAR_SIGNKEY_ED25519 then
    let* k := assert_key (ed25519key key) in buf_put_ed25519_priv_key k
  else dropbear_exit "Bad key types in put pub key".

Definition buf_put_sign (key : sign_key) (sigtype : Z) (data_buf : buffer) : ST (rng * buffer) unit :=
  let* sigblob := buf_new MAX_PUBKEY_SIZE in
  let* keytype := signkey_type_from_signature sigtype in
  let* sigblob := with_blob sigblob
    (if keytype =? DROPBEAR_SIGNKEY_RSA then
       let* k := assert_key (rsakey key) in buf_put_rsa_sign fuel k sigtype data_buf
     else if signkey_is_ecdsa keytype then
       match signkey_key_ptr key keytype with Some k => buf_put_ecdsa_sign fuel k data_buf | None => ret tt end
     else if keytype =? DROPBEAR_SIGNKEY_ED25519 then
       let* k := assert_key (ed25519key key) in on_buf (buf_put_ed25519_sign k data_buf)
     else ret tt) in
  do* exit_if (b_len sigblob =? 0) "Non-matching signing type";
  on_buf (buf_putbufstring sigblob).

Definition buf_verify (key : sign_key) (expect_sigtype : Z) (data_buf : buffer) : ST buffer bool :=
  let* _ := buf_getint in (* blob length *)
  let* type_name := buf_getstring in
  let sigtype := signature_type_from_name type_name in
  do* exit_if (negb (expect_sigtype =? sigtype)) "Non-matching signing type";
  let* keytype := signkey_type_from_signature sigtype in
  if keytype =? DROPBEAR_SIGNKEY_RSA then
    let* k := or_exit (rsakey key) "No RSA key to verify signature" in
    buf_rsa_verify k sigtype data_buf
  else if signkey_is_ecdsa keytype then
    match signkey_key_ptr key keytype with
    | Some k => buf_ecdsa_verify k data_buf
    | None => dropbear_exit "Non-matching signing type"
    end
  else if keytype =? DROPBEAR_SIGNKEY_ED25519 then
    let* k := or_exit (ed25519key key) "No Ed25519 key to verify signature" in
    buf_ed25519_verify k data_buf
  else if keytype =? DROPBEAR_SIGNKEY_SK_ECDSA_NISTP256 then
    match signkey_key_ptr key keytype with
    | Some k => buf_sk_ecdsa_verify k data_buf (sk_app key) (sk_flags_mask key)
    | None => dropbear_exit "Non-matching signing type"
    end
  else if keytype =? DROPBEAR_SIGNKEY_SK_ED25519 then
    match ed25519key key with
    | Some k => buf_sk_ed25519_verify k data_buf (sk_app key) (sk_flags_mask key)
    | None => dropbear_exit "Non-matching signing type"
    end
  else dropbear_exit "Non-matching signing type".
End signkey.
