(* ===== verification/KeyInstances.v ===== *)
(** * Instances of the key libraries

    The bignum operations on integers ([int_mp], which is also what libtommath
    computes), and stand-ins for curve arithmetic and Ed25519 that satisfy the
    laws the development relies on; the witnesses of the key files compute
    with them. *)

From Stdlib Require Import ZArith Zpow_facts Lia.
From stdpp Require Import base list strings.
From S2P Require Import Prelude.
From S2P Require Import Buffer.
From S2P Require Import Random.
From S2P Require Import Algo.
From S2P Require Import Cipher.
From S2P Require Import Ecc.
From S2P Require Import SignKey.

(** ** Integers *)

Definition int_mp : MpLib := {|
  mp_exptmod g x p := if p =? 0 then None else Some (Zpow_mod g x p);
  mp_invmod a p := let '(u, _, d) := Z.extgcd a p in if d =? 1 then Some (u mod p) else None
|}.

Lemma int_mp_laws : MpLaws int_mp.
Proof.
  split; cbn [mp_exptmod mp_invmod int_mp].
  - intros g x p Hg Hx Hp. destruct (Z.eqb_spec p 0); [lia|]. by rewrite Zpow_mod_correct.
  - intros a p b Ha Hp. destruct (Z.extgcd a p) as [[u v] d] eqn:He. apply Z.extgcd_correct in He as [He Hd].
    destruct (Z.eqb_spec d 1) as [->|]; [|done]. intros [= <-]. split; [apply Z.mod_pos_bound; lia|].
    rewrite Z.mul_mod_idemp_r by lia. rewrite <-(Z.mod_1_l p) by lia. rewrite <-He.
    replace (u * a + v * p) with (a * u + v * p) by ring. by rewrite Z.mod_add by lia.
  - intros a p Ha Hp Hr. destruct (Z.extgcd a p) as [[u v] d] eqn:He. apply Z.extgcd_correct in He as [He Hd].
    rewrite Hr in Hd. rewrite Hd. by eexists.
Qed.

(** ** Curves *)

(** The base point of each curve, in place of every multiple of it. *)
Definition toy_base (c : ecc_curve) : point :=
  match c with
  | nistp256 => (0x6B17D1F2E12C4247F8BCE6E563A440F277037D812DEB33A0F4A13945D898C296,
                 0x4FE342E2FE1A7F9B8EE7EB4A7C0F9E162BCE33576B315ECECBB6406837BF51F5)
  | nistp384 => (0xAA87CA22BE8B05378EB1C71EF320AD746E1D3B628BA79B9859F741E082542A385502F25DBF55296C3A545E3872760AB7,
                 0x3617DE4A96262C6F5D9E98BF9292DC29F8F41DBD289A147CE9DA3113B5F0B8C00A60B1CE1D7E819D7A431D7C90EA0E5F)
  | nistp521 => (0xC6858E06B70404E9CD9E3ECB662395B4429C648139053FB521F828AF606B4D3DBAA14B5E77EFE75928FE1DC127A2FFA8DE3348B3C1856A429BF97E7E31C2E5BD66,
                 0x11839296A789A3BC0045C8A5FB42C7D1BD998F54449579B446817AFBD17273E662C97EE72995EF42640C550B9013FAD0761353C7086A272C24088BE94769FD16650)
  end.

Definition toy_desc (n : nat) : ltc_hash_descriptor :=
  mkhashdesc [] (Z.of_nat n) (λ m, replicate n (u8 (foldr Z.add 0 m))).

Definition toy_ecc : EccLib := {|
  sha384_desc := toy_desc 48;
  sha512_desc := toy_desc 64;
  ecc_make_key_ex c := ret (Some (1, toy_base c));
  ecc_ptmul c _ _ := Some (toy_base c);
  ecc_mul2add c _ _ _ := Some (toy_base c)
|}.

Lemma toy_base_ok c :
  0 < (toy_base c).1 < ecc_prime c ∧ 0 < (toy_base c).2 < ecc_prime c ∧ ecc_is_point c (toy_base c).1 (toy_base c).2 = true.
Proof. destruct c; split_and!; vm_compute; reflexivity. Qed.

Lemma toy_ecc_laws : EccLaws toy_ecc (λ c _, toy_base c).
Proof.
  split.
  - intros c k _. destruct (toy_base_ok c) as (?&?&?). split_and!; [lia..|done].
  - intros c r Hr. split; [done|]. intros k q [= <- <-]. split; [|done]. destruct c; split; vm_compute; reflexivity.
  - intros c a b _ _. split; [done|]. by eexists.
  - intros c a q r [= <-]. destruct (toy_base_ok c) as (?&?&?). lia.
  - done.
Qed.

(** ** Ed25519 *)

Definition toy_ed25519 : Ed25519Lib := {|
  dropbear_ed25519_sign m priv pub := replicate 64 (u8 (foldr Z.add 0 m));
  dropbear_ed25519_verify m s pub := bytes_eqb s (replicate 64 (u8 (foldr Z.add 0 m)))
|}.

Lemma toy_ed25519_laws : Ed25519Laws toy_ed25519 (λ _ _, True).
Proof.
  split; [done|..].
  - intros m ? ?. apply Forall_replicate, u8_range.
  - intros m ? ? _. by apply bool_decide_eq_true.
Qed.
