(* ===== verification/SignKeyRead.v ===== *)
(** * Reading and writing keys (src/src/signkey.c and the key types)

    What the readers of SignKey.v do with arbitrary bytes, and that reading a
    written public key gives the key back.  The encodings are those of
    RFC 4253 6.6 (RSA), RFC 5656 3.1 (ECDSA) and RFC 8709 4 (Ed25519). *)

From Stdlib Require Import ZArith Lia.
From stdpp Require Import base list strings.
From S2P Require Import Prelude.
From S2P Require Import Buffer.
From S2P Require Import Random.
From S2P Require Import Algo.
From S2P Require Import Cipher.
From S2P Require Import KeyTypes.
From S2P Require Import Ecc.
From S2P Require Import SignKey.

(** ** Readers on any bytes *)

Section readers.
Implicit Types (b : buffer).

Lemma wp_scan_string (Q : list Z → buffer → Prop) b :
  wf_buf b →
  (∀ s b', scanned b b' → bytes_ok s → zlen s ≤ MAX_STRING_LEN → b_pos b' = b_pos b + 4 + zlen s → Q s b') →
  wp buf_getstring any_exit Q b.
Proof.
  intros Hwf HQ. pose proof Hwf as (?&?&Hd&Hb). apply wp_buf_getstring; [done| |done].
  set (n := LOAD32H _). intros Hl Hn. assert (Hz : zlen (slice (b_pos b + 4) n (b_data b)) = n) by (apply zlen_slice; lia).
  apply HQ; [apply scanned_get; [done|lia|lia]|by apply bytes_ok_slice|lia|]. rewrite Hz. cbn [after_get set_pos b_pos]. lia.
Qed.

Lemma wp_scan_int (Q : Z → buffer → Prop) b :
  wf_buf b → (∀ v b', scanned b b' → u32_ok v → Q v b') → wp buf_getint any_exit Q b.
Proof.
  intros Hwf HQ. apply wp_buf_getint; [done| |done]. intros Hl.
  apply HQ; [by apply scanned_get|by apply slice_LOAD32H_ok].
Qed.

Lemma wp_scan_byte (Q : Z → buffer → Prop) b :
  wf_buf b → (∀ v b', scanned b b' → Q v b') → wp buf_getbyte any_exit Q b.
Proof. intros Hwf HQ. apply wp_buf_getbyte; [done| |done]. intros Hl. apply HQ, scanned_get; [done|lia|lia]. Qed.

Lemma wp_scan_incrpos n (Q : unit → buffer → Prop) b :
  wf_buf b → 0 ≤ n → (∀ b', scanned b b' → Q tt b') → wp (buf_incrpos n) any_exit Q b.
Proof. intros Hwf Hn HQ. apply wp_buf_incrpos; [done|done| |done]. intros Hl. by apply HQ, scanned_get. Qed.

Lemma wp_scan_mpint (Q : option Z → buffer → Prop) b :
  wf_buf b → (∀ o b', scanned b b' → (∀ v, o = Some v → 0 ≤ v < 2 ^ (8 * BUF_MAX_MPINT)) → Q o b') →
  wp buf_getmpint any_exit Q b.
Proof.
  intros Hwf HQ. pose proof Hwf as (?&?&Hd&Hb). apply wp_buf_getmpint; [done|..|done].
  - intros _ Hl. apply HQ; [by apply scanned_get|]. by intros v [= <-].
  - intros Hn Hl _. apply HQ; [apply scanned_get; [done|lia|lia]|]. intros v [= <-].
    pose proof (mp_from_ubin_range _ (bytes_ok_slice (b_pos b + 4) (LOAD32H (slice (b_pos b) 4 (b_data b))) _ Hb)) as [Hr1 Hr2].
    split; [done|]. eapply Z.lt_le_trans; [exact Hr2|]. apply Z.pow_le_mono_r; [lia|]. rewrite zlen_slice; lia.
  - intros Hn Hl _. apply HQ; [by apply scanned_get|done].
Qed.

Lemma wp_scan_stringbuf incllen (Q : buffer → buffer → Prop) b :
  wf_buf b → (∀ q b', scanned b b' → wf_buf q → Q q b') → wp (buf_getstringbuf_int incllen) any_exit Q b.
Proof.
  intros Hwf HQ. pose proof Hwf as (?&?&Hd&Hb). apply wp_buf_getstringbuf_int; [done| |done].
  intros Hl [Hn Hm]. unfold MAX_STRING_LEN, MAX_CMD_LEN in Hm. set (n := LOAD32H _) in *.
  assert (Hz : zlen (slice (b_pos b + 4) n (b_data b)) = n) by (apply zlen_slice; lia).
  apply HQ; [apply scanned_get; [done|lia|lia]|]. apply wf_buf_of.
  - apply bytes_ok_app. split; [destruct incllen; [apply STORE32H_bytes|constructor]|by apply bytes_ok_slice].
  - rewrite zlen_app, Hz. unfold BUF_MAX_SIZE. destruct incllen; rewrite ?STORE32H_length, ?zlen_nil; lia.
Qed.

(** Reading [n] bytes that were checked to be there. *)
Lemma wp_scan_bytes {A} n (k : list Z → ST buffer A) (Q : A → buffer → Prop) b :
  wf_buf b → 0 ≤ n →
  (∀ bs b', scanned b b' → zlen bs = n → bytes_ok bs → wp (k bs) any_exit Q b') →
  wp (let* p := buf_getptr n in let* bs := mem_load p n in do* buf_incrpos n; k bs) any_exit Q b.
Proof.
  intros Hwf Hn HQ. pose proof Hwf as (?&?&Hd&Hb). apply wp_read_then; [done|done| |done]. intros Hl.
  apply HQ; [by apply scanned_get|apply zlen_slice; lia|by apply bytes_ok_slice].
Qed.
End readers.

(** ** The keys that come out *)

Definition rsa_pub_ok (k : dropbear_rsa_key) : Prop :=
  0 ≤ r_e k ∧ mp_count_bits (r_e k) ≤ 64 ∧ 0 ≤ r_n k < 2 ^ (8 * BUF_MAX_MPINT) ∧
  MIN_RSA_KEYLEN ≤ mp_count_bits (r_n k).
Definition ecc_on_curve (c : ecc_curve) (k : ecc_key) : Prop :=
  e_dp k = c ∧ ecc_pub_ok k.
Definition ed_pub_ok (k : dropbear_ed25519_key) : Prop := zlen (ed_pub k) = CURVE25519_LEN ∧ bytes_ok (ed_pub k).

Definition curve_of_type (type : Z) : ecc_curve :=
  if type =? DROPBEAR_SIGNKEY_ECDSA_NISTP384 then nistp384
  else if type =? DROPBEAR_SIGNKEY_ECDSA_NISTP521 then nistp521 else nistp256.

(** The key holds a valid public key of the type. *)
Definition holds_key (key : sign_key) (type : Z) : Prop :=
  if type =? DROPBEAR_SIGNKEY_RSA then ∃ k, rsakey key = Some k ∧ rsa_pub_ok k
  else if is_ecc type then ∃ k, signkey_key_ptr key type = Some k ∧ ecc_on_curve (curve_of_type type) k
  else if is_ed type then ∃ k, ed25519key key = Some k ∧ ed_pub_ok k
  else False.

Section safe.
Context `{Sha256}.
Implicit Types (b : buffer).

Lemma wp_get_rsa_pub (Q : option dropbear_rsa_key → buffer → Prop) b :
  wf_buf b → (∀ o b', scanned b b' → (∀ k, o = Some k → rsa_pub_ok k) → Q o b') → wp buf_get_rsa_pub_key any_exit Q b.
Proof.
  intros Hwf HQ. apply wp_bind, wp_scan_incrpos; [done|done|]. intros b1 H1. pose proof H1 as [Hw1 _].
  apply wp_bind, wp_scan_mpint; [done|]. intros [e|] b2 H2 He; [|apply wp_ret, HQ; [by eapply scanned_trans|done]].
  specialize (He e eq_refl). pose proof H2 as [Hw2 _].
  apply wp_bind, wp_scan_mpint; [done|]. intros [n|] b3 H3 Hn;
    (assert (H13 : scanned b b3) by (eapply scanned_trans; [exact H1|by eapply scanned_trans])); [|by apply wp_ret, HQ].
  specialize (Hn n eq_refl). apply wp_if; intros Hbn; [by apply wp_ret, HQ|]. apply wp_if; intros Hbe; [by apply wp_ret, HQ|].
  apply wp_ret, HQ; [done|]. intros k [= <-]. split_and!; cbn [r_e r_n]; lia.
Qed.

Lemma find_curve_name {S} identifier c E (Q : option ecc_curve → S → Prop) (s : S) :
  identifier = ecc_name c → Q (Some c) s → wp (find_curve identifier [nistp256; nistp384; nistp521]) E Q s.
Proof. intros -> HQ. destruct c; vm_compute; exact HQ. Qed.

(** The search, when the identifier is at least as long as a name. *)
Lemma find_curve_long {S} identifier E (Q : option ecc_curve → S → Prop) (s : S) :
  8 ≤ zlen identifier → (∀ o, (∀ c, o = Some c → slice 0 8 (identifier ++ [0]) = ecc_name c) → Q o s) →
  wp (find_curve identifier [nistp256; nistp384; nistp521]) E Q s.
Proof.
  intros Hl HQ. cbn [find_curve].
  change (zlen (ecc_name nistp256)) with 8. change (zlen (ecc_name nistp384)) with 8.
  change (zlen (ecc_name nistp521)) with 8. assert (Hg : (8 >? zlen identifier + 1) = false) by lia. rewrite Hg. cbv iota.
  repeat (apply wp_if; [intros Hc; apply wp_ret, HQ; intros c [= <-]; by apply bool_decide_eq_true in Hc|intros _]).
  by apply wp_ret, HQ.
Qed.

Lemma c_str_length bs : zlen (c_str bs) ≤ zlen bs.
Proof. induction bs as [|c bs IH]; [done|]. cbn [c_str]. destruct (c =? 0); rewrite ?zlen_cons, ?zlen_nil; pose proof (zlen_nonneg bs); lia. Qed.

Lemma c_str_prefix bs n : zlen (c_str bs) = n → slice 0 n bs = c_str bs.
Proof.
  intros <-. unfold slice, zlen. rewrite Nat2Z.id. change (Z.to_nat 0) with 0%nat. rewrite drop_0.
  induction bs as [|c bs IH]; [done|]. cbn [c_str]. destruct (c =? 0); [done|]. cbn [length take]. by rewrite IH.
Qed.

Lemma ecdsa_type_name type name : is_ecc type = true → signkey_names !! Z.to_nat type = Some name →
  c_str name = name ∧
  if type =? DROPBEAR_SIGNKEY_SK_ECDSA_NISTP256 then name = SK_ECDSA_NAME
  else name = ecdsa_ident (curve_of_type type) ∧ bytes_eqb name SK_ECDSA_NAME = false.
Proof.
  unfold is_ecc, signkey_is_ecdsa. intros Ht Hn.
  assert (Hc : type = 1 ∨ type = 2 ∨ type = 3 ∨ type = 4).
  { unfold DROPBEAR_SIGNKEY_ECDSA_NISTP256, DROPBEAR_SIGNKEY_ECDSA_NISTP384, DROPBEAR_SIGNKEY_ECDSA_NISTP521,
      DROPBEAR_SIGNKEY_SK_ECDSA_NISTP256 in Ht. lia. }
  destruct Hc as [->|[->|[->| ->]]]; vm_compute in Hn; injection Hn as <-; by vm_compute.
Qed.

(** At a key blob whose first string names an ECDSA type. *)
Lemma wp_get_ecdsa_pub type name (Q : option ecc_key → buffer → Prop) b :
  wf_buf b → is_ecc type = true → signkey_names !! Z.to_nat type = Some name →
  (∀ (Q' : list Z → buffer → Prop), (∀ b', scanned b b' → Q' name b') → wp buf_getstring any_exit Q' b) →
  (∀ o b', scanned b b' → (∀ k, o = Some k → ecc_on_curve (curve_of_type type) k) → Q o b') →
  wp buf_get_ecdsa_pub_key any_exit Q b.
Proof.
  intros Hwf Ht Hname Hident HQ. destruct (ecdsa_type_name type name Ht Hname) as [Hcs Hnm].
  apply wp_bind, Hident. intros b1 H1. pose proof H1 as [Hw1 _].
  apply wp_bind, wp_scan_string; [done|]. intros identifier b2 H2 Hib Hil _. pose proof H2 as [Hw2 _].
  assert (H12 : scanned b b2) by (by eapply scanned_trans).
  rewrite Hcs. apply wp_if; intros Hm; [by apply wp_ret, HQ|].
  assert (Hcurve : 8 ≤ zlen identifier ∧ slice 0 8 (identifier ++ [0]) = ecc_name (curve_of_type type)).
  { destruct (type =? DROPBEAR_SIGNKEY_SK_ECDSA_NISTP256) eqn:Hsk.
    - subst name. unfold bytes_eqb at 1 in Hm. rewrite bool_decide_true in Hm by done.
      apply negb_false_iff, bool_decide_eq_true in Hm.
      assert (Hl8 : zlen (c_str identifier) = 8) by (by rewrite Hm). pose proof (c_str_length identifier).
      split; [lia|]. rewrite slice_app_l by lia. rewrite (c_str_prefix _ _ Hl8), Hm.
      apply Z.eqb_eq in Hsk. by rewrite Hsk.
    - destruct Hnm as [-> Hneq]. rewrite Hneq in Hm. apply orb_false_elim in Hm as [Hlen Heq].
      apply negb_false_iff, Z.eqb_eq in Hlen. apply negb_false_iff, bool_decide_eq_true in Heq.
      assert (Hid : identifier = ecc_name (curve_of_type type)).
      { rewrite <-Heq. unfold ecdsa_ident in *. rewrite zlen_app in Hlen.
        rewrite slice_app_r by lia. rewrite Z.sub_diag. replace (zlen identifier) with (zlen (ecc_name (curve_of_type type))) by lia.
        apply slice_full. }
      rewrite Hid. by destruct (curve_of_type type). }
  destruct Hcurve as [Hl8 Hcv]. apply wp_bind, find_curve_long; [done|]. intros oc Hoc.
  destruct oc as [c|]; [|by apply wp_ret, HQ]. specialize (Hoc c eq_refl). rewrite Hcv in Hoc.
  assert (Hc : c = curve_of_type type) by (destruct c, (curve_of_type type); done).
  subst c. apply wp_bind, wp_scan_stringbuf; [done|]. intros q b3 H3 Hq.
  assert (H13 : scanned b b3) by (by eapply scanned_trans).
  apply wp_bind, wp_on_new, wp_buf_get_ecc_raw_pubkey; [done|..].
  - intros q' _ _ _. by apply wp_ret, HQ.
  - intros x y q' _ _ _ Hk _. apply wp_ret, HQ; [done|]. by intros k' [= <-].
Qed.

Lemma wp_get_ed25519_pub type (Q : option dropbear_ed25519_key → buffer → Prop) b :
  wf_buf b → (∀ o b', scanned b b' → (∀ k, o = Some k → ed_pub_ok k) → Q o b') →
  wp (buf_get_ed25519_pub_key type) any_exit Q b.
Proof.
  intros Hwf HQ. apply wp_bind, wp_scan_string; [done|]. intros s b1 H1 _ _ _. pose proof H1 as [Hw1 _].
  apply wp_if; intros _; [by apply wp_ret, HQ|].
  apply wp_bind, wp_scan_int; [done|]. intros len b2 H2 _. pose proof H2 as [Hw2 _].
  assert (H12 : scanned b b2) by (by eapply scanned_trans).
  apply wp_bind, wp_get. apply wp_if; intros _; [by apply wp_ret, HQ|].
  apply wp_scan_bytes; [done|done|]. intros bs b3 H3 Hbl Hbb.
  apply wp_ret, HQ; [by eapply scanned_trans|]. intros k [= <-]. by split.
Qed.

Lemma u32_string_len (s : list Z) : zlen s ≤ MAX_STRING_LEN → u32 (zlen s + 4) = zlen s + 4.
Proof. intros. pose proof (zlen_nonneg s). apply u32_small. unfold MAX_STRING_LEN, MAX_CMD_LEN in *. lia. Qed.

(** Reading a string a second time gives the same. *)
Lemma wp_getstring_again (s : list Z) b b' (Q : list Z → buffer → Prop) :
  wf_buf b → buf_getstring b = Ok (s, b') → (scanned b b' → Q s b') → wp buf_getstring any_exit Q b.
Proof.
  intros Hwf Hs HQ. eapply wp_of_run; [exact Hs|]. apply HQ.
  assert (Hw : wp buf_getstring any_exit (λ _ b', scanned b b') b) by (apply wp_scan_string; [done|]; by intros).
  by eapply wp_Ok_inv in Hs; [|exact Hw].
Qed.

Lemma set_back b b1 n : scanned b b1 → b_pos b1 = b_pos b + n → set_pos (b_pos b1 - n) b1 = b.
Proof. intros [_ (m&Hm&->)] Hp. cbn in *. unfold set_pos. cbn. destruct b. cbn in *. f_equal. lia. Qed.
End safe.

(** Whatever keys there are, the RSA one was accepted by the reader. *)
Definition rsa_part_ok (key : sign_key) : Prop := ∀ k, rsakey key = Some k → rsa_pub_ok k.

Section signkey_safe.
Context `{Sha256} {ML : MpLib} {EL : EccLib} {DL : Ed25519Lib}.
Implicit Types (b : buffer).

Lemma holds_rsa k key : rsa_pub_ok k → holds_key (set_rsakey (Some k) key) DROPBEAR_SIGNKEY_RSA.
Proof. intros Hk. by exists k. Qed.

Lemma ptr_set_ecckey type v key app : is_ecc type = true →
  signkey_key_ptr (set_sk_app app (set_ecckey type v key)) type = v ∧ signkey_key_ptr (set_ecckey type v key) type = v.
Proof. intros _. unfold signkey_key_ptr, set_ecckey. by destruct (type =? _); [|destruct (type =? _)]. Qed.

Lemma rsakey_set_ecckey type v key : rsakey (set_ecckey type v key) = rsakey key.
Proof. unfold set_ecckey. by repeat case_match. Qed.

(** Any bytes: the reader stays inside the buffer, and a key it returns is
    valid for the type it reports, which is the one asked for. *)
Lemma wp_buf_get_pub_key key type (Q : bool * (sign_key * Z) → buffer → Prop) b :
  wf_buf b →
  (∀ ok key' t b', scanned b b' → (rsa_part_ok key → rsa_part_ok key') → (ok = true → holds_key key' t ∧ (type = DROPBEAR_SIGNKEY_ANY ∨ t = type) ∧
     0 ≤ t < DROPBEAR_SIGNKEY_NUM_NAMED) → Q (ok, (key', t)) b') →
  wp (buf_get_pub_key key type) any_exit Q b.
Proof.
  intros Hwf HQ. unfold buf_get_pub_key.
  assert (Hstr : wp buf_getstring any_exit (λ s b', buf_getstring b = Ok (s, b') ∧ scanned b b' ∧
     zlen s ≤ MAX_STRING_LEN ∧ b_pos b' = b_pos b + (zlen s + 4)) b).
  { assert (Hw : wp buf_getstring any_exit (λ s b', scanned b b' ∧ zlen s ≤ MAX_STRING_LEN ∧ b_pos b' = b_pos b + (zlen s + 4)) b).
    { apply wp_scan_string; [done|]. intros s b' Hs _ Hl Hp. split_and!; [done|done|lia]. }
    unfold wp in *. by destruct (buf_getstring b) as [[s b']|e|w]. }
  apply wp_bind. eapply wp_mono; [exact Hstr|]. clear Hstr. intros s b1 (Hrun&H1&Hl&Hp). pose proof H1 as [Hw1 _].
  cbv zeta. set (kt := signkey_type_from_name s). apply wp_if; intros Hty; [apply wp_ret; by apply HQ|].
  assert (Htype : type = DROPBEAR_SIGNKEY_ANY ∨ kt = type) by lia.
  rewrite u32_string_len by done. pose proof (zlen_nonneg s).
  apply wp_bind, wp_buf_decrpos; [done|lia| |done]. intros _. rewrite (set_back b b1 _ H1 Hp).
  destruct (signkey_type_from_name_cases s) as [Hnone|[Hrange Hname]].
  { fold kt in Hnone. rewrite Hnone. cbv beta iota delta [is_ecc is_ed signkey_is_ecdsa signkey_is_sk]. cbn.
    apply HQ; [by apply scanned_refl|done|done]. }
  fold kt in Hrange, Hname.
  assert (Hfin : ∀ ok key' b', scanned b b' → (rsa_part_ok key → rsa_part_ok key') → (ok = true → holds_key key' kt ∧ ∀ app, holds_key (set_sk_app app key') kt) →
     wp (let* key := (if signkey_is_sk kt then let* app := buf_getstring in ret (set_sk_app app key') else ret key') in
         ret (ok, (key, kt))) any_exit Q b').
  { intros ok key' b' Hs Hrk Hk. pose proof Hs as [Hw' _]. apply wp_bind, wp_if; intros _.
    - apply wp_bind, wp_scan_string; [done|]. intros app b2 H2 _ _ _. apply wp_ret, wp_ret, HQ; [by eapply scanned_trans|done|].
      intros Hok. destruct (Hk Hok) as [_ Hka]. split_and!; [apply Hka|done|lia..].
    - apply wp_ret, wp_ret, HQ; [done|done|]. intros Hok. destruct (Hk Hok) as [Hka _]. split_and!; [done|done|lia..]. }
  apply wp_bind. apply wp_if; intros Hrsa; [|apply wp_if; intros Hecc; [|apply wp_if; intros Hed]].
  - apply Z.eqb_eq in Hrsa. apply wp_bind, wp_get_rsa_pub; [done|]. intros o b2 H2 Ho. apply wp_ret, Hfin; [done|by intros _ k Hk; apply Ho|].
    destruct o as [k|]; [|done]. intros _. rewrite Hrsa. split; [|intros app]; exists k; (split; [done|by apply Ho]).
  - apply wp_bind, (wp_get_ecdsa_pub kt s); [done|done|done| |].
    { intros Q' HQ'. eapply wp_getstring_again; [done|exact Hrun|apply HQ']. }
    intros o b2 H2 Ho. apply wp_ret, Hfin; [done|intros Hr k; rewrite rsakey_set_ecckey; apply Hr|]. destruct o as [k|]; [|done]. intros _.
    unfold holds_key. rewrite Hrsa, Hecc. split; [|intros app]; exists k; (split; [by apply ptr_set_ecckey|by apply Ho]).
  - apply wp_bind, wp_get_ed25519_pub; [done|]. intros o b2 H2 Ho. apply wp_ret, Hfin; [done|done|].
    destruct o as [k|]; [|done]. intros _. unfold holds_key. rewrite Hrsa, Hecc, Hed.
    split; [|intros app]; exists k; (split; [done|by apply Ho]).
  - apply wp_ret, Hfin; [by apply scanned_refl|done|done].
Qed.
End signkey_safe.

(** ** Round trip *)

(** The types with a private part, which can be written. *)
Definition writable (type : Z) : Prop := 0 ≤ type < DROPBEAR_SIGNKEY_NUM_NAMED ∧ signkey_is_sk type = false.

Definition rsa_public (k : dropbear_rsa_key) : dropbear_rsa_key := mkrsa (r_n k) (r_e k) None None None.
Definition ed_public (k : dropbear_ed25519_key) : dropbear_ed25519_key := mked (zeros CURVE25519_LEN) (ed_pub k).

(** The public part of one type, stored into another key. *)
Definition with_public (key : sign_key) (type : Z) (into : sign_key) : sign_key :=
  if type =? DROPBEAR_SIGNKEY_RSA then set_rsakey (option_map rsa_public (rsakey key)) into
  else if is_ecc type then set_ecckey type (option_map ecc_public (signkey_key_ptr key type)) into
  else set_ed25519key (option_map ed_public (ed25519key key)) into.

(** The fields of a public key on the wire. *)
Definition pub_fields (key : sign_key) (type : Z) : list field :=
  if type =? DROPBEAR_SIGNKEY_RSA then
    match rsakey key with Some k => [FString SSH_SIGNKEY_RSA; FMpint (r_e k); FMpint (r_n k)] | None => [] end
  else if is_ecc type then
    match signkey_key_ptr key type with
    | Some k => [FString (ecdsa_ident (e_dp k)); FString (ecc_name (e_dp k)); FString (raw_point k)]
    | None => []
    end
  else
    match ed25519key key with Some k => [FString SSH_SIGNKEY_ED25519; FString (ed_pub k)] | None => [] end.
Definition pub_blob (key : sign_key) (type : Z) : list Z := enc_fields (pub_fields key type).

Section roundtrip.
Context `{Sha256} {ML : MpLib} {EL : EccLib} {DL : Ed25519Lib}.
Implicit Types (b : buffer) (key : sign_key).

Lemma writable_cases type : writable type →
  type = DROPBEAR_SIGNKEY_RSA ∨ type = DROPBEAR_SIGNKEY_ED25519 ∨
  ((type =? DROPBEAR_SIGNKEY_RSA) = false ∧ is_ecc type = true ∧ signkey_is_ecdsa type = true ∧
   (type =? DROPBEAR_SIGNKEY_SK_ECDSA_NISTP256) = false).
Proof.
  unfold writable, signkey_is_sk, is_ecc, signkey_is_ecdsa, DROPBEAR_SIGNKEY_NUM_NAMED, DROPBEAR_SIGNKEY_RSA,
    DROPBEAR_SIGNKEY_ED25519, DROPBEAR_SIGNKEY_SK_ED25519, DROPBEAR_SIGNKEY_SK_ECDSA_NISTP256,
    DROPBEAR_SIGNKEY_ECDSA_NISTP256, DROPBEAR_SIGNKEY_ECDSA_NISTP384, DROPBEAR_SIGNKEY_ECDSA_NISTP521. intros [Hr Hs].
  assert (Hc : type = 0 ∨ type = 1 ∨ type = 2 ∨ type = 3 ∨ type = 5) by lia.
  destruct Hc as [->|[->|[->|[->| ->]]]]; first [by left|by right; left|by right; right].
Qed.

Lemma curve_type_name type : is_ecc type = true → (type =? DROPBEAR_SIGNKEY_SK_ECDSA_NISTP256) = false →
  signkey_type_from_name (ecdsa_ident (curve_of_type type)) = type ∧
  signkey_names !! Z.to_nat type = Some (ecdsa_ident (curve_of_type type)).
Proof.
  unfold is_ecc, signkey_is_ecdsa, DROPBEAR_SIGNKEY_ECDSA_NISTP256, DROPBEAR_SIGNKEY_ECDSA_NISTP384,
    DROPBEAR_SIGNKEY_ECDSA_NISTP521, DROPBEAR_SIGNKEY_SK_ECDSA_NISTP256. intros Ht Hs.
  assert (Hc : type = 1 ∨ type = 2 ∨ type = 3) by lia. destruct Hc as [->|[->| ->]]; by vm_compute.
Qed.

(** The three kinds of key. *)
Lemma kind_cases key type : writable type → holds_key key type →
  (∃ k, type = DROPBEAR_SIGNKEY_RSA ∧ rsakey key = Some k ∧ rsa_pub_ok k ∧
     pub_fields key type = [FString SSH_SIGNKEY_RSA; FMpint (r_e k); FMpint (r_n k)] ∧
     ∀ into, with_public key type into = set_rsakey (Some (rsa_public k)) into) ∨
  (∃ k, type = DROPBEAR_SIGNKEY_ED25519 ∧ ed25519key key = Some k ∧ ed_pub_ok k ∧
     pub_fields key type = [FString SSH_SIGNKEY_ED25519; FString (ed_pub k)] ∧
     ∀ into, with_public key type into = set_ed25519key (Some (ed_public k)) into) ∨
  (∃ k, (type =? DROPBEAR_SIGNKEY_RSA) = false ∧ is_ecc type = true ∧ signkey_is_ecdsa type = true ∧
     (type =? DROPBEAR_SIGNKEY_SK_ECDSA_NISTP256) = false ∧
     signkey_key_ptr key type = Some k ∧ e_dp k = curve_of_type type ∧ ecc_pub_ok k ∧
     pub_fields key type = [FString (ecdsa_ident (e_dp k)); FString (ecc_name (e_dp k)); FString (raw_point k)] ∧
     ∀ into, with_public key type into = set_ecckey type (Some (ecc_public k)) into).
Proof.
  intros Hw Hk. destruct (writable_cases type Hw) as [->|[->|(Ht&He&Hec&Hsk)]].
  - left. destruct Hk as (k&Hk&Hok). exists k. unfold pub_fields, with_public. rewrite Z.eqb_refl, Hk. done.
  - right; left. destruct Hk as (k&Hk&Hok). exists k. unfold pub_fields, with_public.
    change (DROPBEAR_SIGNKEY_ED25519 =? DROPBEAR_SIGNKEY_RSA) with false. change (is_ecc DROPBEAR_SIGNKEY_ED25519) with false.
    cbv iota. rewrite Hk. done.
  - right; right. unfold holds_key in Hk. rewrite Ht, He in Hk. destruct Hk as (k&Hk&Hdp&Hok). exists k.
    unfold pub_fields, with_public. rewrite Ht, He, Hk. done.
Qed.

Lemma zlen_enc_fields_cons f fs : zlen (enc_fields (f :: fs)) = zlen (enc_field f) + zlen (enc_fields fs).
Proof. unfold enc_fields. cbn [map concat]. apply zlen_app. Qed.

Lemma at_cursor_fields f fs b : wf_buf b → at_cursor b (enc_fields (f :: fs)) →
  at_cursor b (enc_field f) ∧ at_cursor (after_get (zlen (enc_field f)) b) (enc_fields fs) ∧
  wf_buf (after_get (zlen (enc_field f)) b).
Proof.
  intros Hwf Hat. change (enc_fields (f :: fs)) with (enc_field f ++ enc_fields fs) in Hat.
  apply at_cursor_app in Hat as [H1 H2]; [|done]. split_and!; [done|done|].
  destruct H1 as [Hl _]. apply wf_after_get; [done|apply zlen_nonneg|done].
Qed.

Lemma string_field_length s : zlen (enc_field (FString s)) = 4 + zlen s.
Proof. cbn [enc_field]. by rewrite zlen_app, STORE32H_length. Qed.
Lemma mpint_field_length n : 0 ≤ n → zlen (enc_field (FMpint n)) = 4 + mpint_len n.
Proof. intros. cbn [enc_field]. by rewrite zlen_app, STORE32H_length, mpint_body_length. Qed.

Lemma short_string_ok s : bytes_ok s → zlen s ≤ MAX_PUBKEY_SIZE → field_ok (FString s).
Proof. intros. split; [done|]. unfold MAX_PUBKEY_SIZE, MAX_STRING_LEN, MAX_CMD_LEN in *. lia. Qed.

Lemma ident_bytes c : bytes_ok (ecdsa_ident c) ∧ bytes_ok (ecc_name c).
Proof. destruct c; split; decide_closed. Qed.

(** The fields fit their limits when the blob fits the buffer of the writer. *)
Lemma pub_fields_ok key type : writable type → holds_key key type → zlen (pub_blob key type) ≤ MAX_PUBKEY_SIZE →
  Forall field_ok (pub_fields key type).
Proof.
  intros Hw Hk Hl. unfold pub_blob in Hl.
  assert (Hs : ∀ s fs, zlen (enc_fields (FString s :: fs)) ≤ MAX_PUBKEY_SIZE → bytes_ok s →
    field_ok (FString s) ∧ zlen (enc_fields fs) ≤ MAX_PUBKEY_SIZE).
  { intros s fs. rewrite zlen_enc_fields_cons, string_field_length. pose proof (zlen_nonneg s).
    pose proof (zlen_nonneg (enc_fields fs)). intros. split; [apply short_string_ok; [done|lia]|lia]. }
  assert (Hm : ∀ n fs, zlen (enc_fields (FMpint n :: fs)) ≤ MAX_PUBKEY_SIZE → 0 ≤ n →
    field_ok (FMpint n) ∧ zlen (enc_fields fs) ≤ MAX_PUBKEY_SIZE).
  { intros n fs Hl' Hn. rewrite zlen_enc_fields_cons, mpint_field_length in Hl' by done. pose proof (mpint_len_nonneg n Hn).
    pose proof (mpint_pad_01 n). pose proof (zlen_nonneg (enc_fields fs)). change BUF_MAX_MPINT with 1030.
    unfold MAX_PUBKEY_SIZE in *. split; [split; [done|change BUF_MAX_MPINT with 1030; lia]|lia]. }
  destruct (kind_cases key type Hw Hk) as [(k&_&_&(Hk1&_&[Hk2 _]&_)&Hpf&_)|[(k&_&_&(_&Hk2)&Hpf&_)|(k&_&_&_&_&_&_&_&Hpf&_)]];
    rewrite Hpf in *.
  - destruct (Hs _ _ Hl ltac:(decide_closed)) as [H1 Hl1]. destruct (Hm _ _ Hl1 Hk1) as [H2 Hl2].
    destruct (Hm _ _ Hl2 Hk2) as [H3 _]. constructor; [exact H1|]. constructor; [exact H2|]. constructor; [exact H3|constructor].
  - destruct (Hs _ _ Hl ltac:(decide_closed)) as [H1 Hl1]. destruct (Hs _ _ Hl1 Hk2) as [H2 _].
    constructor; [exact H1|]. constructor; [exact H2|constructor].
  - destruct (ident_bytes (e_dp k)) as [Hb1 Hb2].
    destruct (Hs _ _ Hl Hb1) as [H1 Hl1]. destruct (Hs _ _ Hl1 Hb2) as [H2 Hl2].
    destruct (Hs _ _ Hl2 (raw_point_bytes k)) as [H3 _].
    constructor; [exact H1|]. constructor; [exact H2|]. constructor; [exact H3|constructor].
Qed.

Lemma pub_blob_bytes key type : Forall field_ok (pub_fields key type) → bytes_ok (pub_blob key type).
Proof.
  unfold pub_blob, enc_fields. induction 1 as [|f fs Hf _ IH]; [constructor|]. cbn [map concat].
  apply bytes_ok_app. split; [by apply enc_field_bytes|done].
Qed.

Lemma puts_pub_fields key type : writable type → holds_key key type → Forall field_ok (pub_fields key type) →
  puts (if type =? DROPBEAR_SIGNKEY_RSA then
          let* k := assert_key (rsakey key) in buf_put_rsa_pub_key k
        else if is_ecc type then
          match signkey_key_ptr key type with Some k => buf_put_ecdsa_pub_key k | None => ret tt end
        else if is_ed type then
          let* k := assert_key (ed25519key key) in buf_put_ed25519_pub_key k
        else ret tt) (pub_blob key type).
Proof.
  intros Hw Hk Hf. unfold pub_blob.
  assert (Hs : ∀ s, field_ok (FString s) → puts (buf_putstring s) (enc_field (FString s))).
  { intros s [Hb Hl]. apply puts_string; [done|]. unfold MAX_STRING_LEN, MAX_CMD_LEN in Hl. lia. }
  destruct (kind_cases key type Hw Hk) as [(k&->&Hk'&_&Hpf&_)|[(k&->&Hk'&_&Hpf&_)|(k&Ht&He&_&_&Hk'&_&Hp&Hpf&_)]];
    rewrite Hpf in *; inversion Hf as [|? ? H1 Hf1]; subst; inversion Hf1 as [|? ? H2 Hf2]; subst.
  - inversion Hf2 as [|? ? H3 _]; subst. destruct H2 as [H2 _], H3 as [H3 _]. rewrite Z.eqb_refl, Hk'.
    apply puts_seq; [by apply (Hs _ H1)|]. apply puts_seq; [by apply puts_mpint|].
    unfold enc_fields. cbn [map concat]. rewrite app_nil_r. by apply puts_mpint.
  - change (DROPBEAR_SIGNKEY_ED25519 =? DROPBEAR_SIGNKEY_RSA) with false. change (is_ecc DROPBEAR_SIGNKEY_ED25519) with false.
    change (is_ed DROPBEAR_SIGNKEY_ED25519) with true. cbv iota. rewrite Hk'. apply puts_seq; [by apply (Hs _ H1)|].
    unfold enc_fields. cbn [map concat]. rewrite app_nil_r. by apply (Hs _ H2).
  - rewrite Ht, He, Hk'. apply puts_seq; [by apply (Hs _ H1)|]. apply puts_seq; [by apply (Hs _ H2)|].
    unfold enc_fields. cbn [map concat]. rewrite app_nil_r. by apply puts_raw_pubkey.
Qed.

Lemma pub_blob_nonempty key type : writable type → holds_key key type → 4 ≤ zlen (pub_blob key type).
Proof.
  intros Hw Hk. unfold pub_blob.
  assert (Hs : ∀ s fs, 4 ≤ zlen (enc_fields (FString s :: fs))).
  { intros s fs. rewrite zlen_enc_fields_cons, string_field_length. pose proof (zlen_nonneg s).
    pose proof (zlen_nonneg (enc_fields fs)). lia. }
  destruct (kind_cases key type Hw Hk) as [(k&_&_&_&Hpf&_)|[(k&_&_&_&Hpf&_)|(k&_&_&_&_&_&_&_&Hpf&_)]];
    rewrite Hpf; apply Hs.
Qed.

(** Writing a public key. *)
Lemma puts_pub_key key type : writable type → holds_key key type → zlen (pub_blob key type) ≤ MAX_PUBKEY_SIZE →
  puts (buf_put_pub_key key type) (STORE32H (zlen (pub_blob key type)) ++ pub_blob key type).
Proof.
  intros Hw Hk Hl. pose proof (pub_fields_ok key type Hw Hk Hl) as Hf. pose proof (pub_blob_bytes key type Hf) as Hbb.
  pose proof (pub_blob_nonempty key type Hw Hk) as Hne. unfold MAX_PUBKEY_SIZE in Hl.
  split; [apply bytes_ok_app; split; [apply STORE32H_bytes|done]|]. intros b E Q Hwf Hr HQ. rewrite zlen_app, STORE32H_length in Hr.
  unfold buf_put_pub_key. apply wp_bind, wp_buf_new; [|unfold MAX_PUBKEY_SIZE, BUF_MAX_SIZE; lia]. intros _.
  apply wp_bind. eapply puts_fresh; [by apply puts_pub_fields|unfold MAX_PUBKEY_SIZE, BUF_MAX_SIZE; lia|].
  intros p Hacc _. pose proof Hacc as (Hwp&Hpp&Hcp). pose proof (contents_length p Hwp) as Hlp. rewrite Hcp in Hlp.
  apply wp_bind, wp_exit_if; [lia|]. intros _. unfold buf_putbufstring. fold (contents p). rewrite Hcp.
  apply wp_buf_putstring; [done|done|by intros _|lia].
Qed.

(** The same position written differently. *)
Ltac same_offset HQ :=
  match type of HQ with context [after_get ?m ?b] =>
    match goal with |- context [after_get ?n b] => replace n with m by lia; exact HQ end
  end.

(** The body of [buf_get_pub_key], at the start of the blob. *)
Definition read_key type into : ST buffer (bool * sign_key) :=
  if type =? DROPBEAR_SIGNKEY_RSA then
    let* k := buf_get_rsa_pub_key in ret (some_b k, set_rsakey k into)
  else if is_ecc type then
    let* k := buf_get_ecdsa_pub_key in ret (some_b k, set_ecckey type k into)
  else if is_ed type then
    let* k := buf_get_ed25519_pub_key type in ret (some_b k, set_ed25519key k into)
  else ret (false, into).

Lemma wp_read_named name fs type into ask E (Q : bool * (sign_key * Z) → buffer → Prop) b :
  signkey_type_from_name name = type → signkey_is_sk type = false → ask = DROPBEAR_SIGNKEY_ANY ∨ ask = type →
  field_ok (FString name) → wf_buf b → at_cursor b (enc_fields (FString name :: fs)) →
  wp (read_key type into) E (λ r, Q (r.1, (r.2, type))) b →
  wp (buf_get_pub_key into ask) E Q b.
Proof.
  intros Hn Hsk Hask Hf Hwf Hat HQ. pose proof (at_cursor_fields _ _ _ Hwf Hat) as (Hat1&_&Hw1).
  apply wp_bind. eapply wp_at_string; [done|done|exact Hat1|]. cbv zeta. rewrite Hn.
  apply wp_if; intros Hc; [lia|]. clear Hc. pose proof Hf as [_ Hlen]. rewrite u32_string_len by done.
  rewrite string_field_length in *. pose proof (zlen_nonneg name). destruct Hwf as (?&?&?&?).
  apply wp_bind, wp_buf_decrpos; [done|lia| |cbn [after_get set_pos b_pos]; lia]. intros _.
  replace (set_pos _ _) with b by (destruct b; unfold after_get, set_pos; cbn; f_equal; lia).
  apply wp_bind. eapply wp_mono; [exact HQ|]. intros [ok key'] b' HQ'. rewrite Hsk. by apply wp_bind, wp_ret, wp_ret.
Qed.

Lemma wp_read_rsa k into E (Q : bool * sign_key → buffer → Prop) b :
  let fs := [FString SSH_SIGNKEY_RSA; FMpint (r_e k); FMpint (r_n k)] in
  rsa_pub_ok k → Forall field_ok fs → wf_buf b → at_cursor b (enc_fields fs) →
  Q (true, set_rsakey (Some (rsa_public k)) into) (after_get (zlen (enc_fields fs)) b) →
  wp (read_key DROPBEAR_SIGNKEY_RSA into) E Q b.
Proof.
  intros fs (Hke&Hke2&Hkn&Hkn2) Hf Hwf Hat HQ. inversion Hf as [|? ? Hf1 Hf']; subst. inversion Hf' as [|? ? Hf2 Hf'']; subst.
  inversion Hf'' as [|? ? Hf3 _]; subst.
  apply at_cursor_fields in Hat as (Hat1&Hat&Hw1); [|done]. apply at_cursor_fields in Hat as (Hat2&Hat&Hw2); [|done].
  apply at_cursor_fields in Hat as (Hat3&_&_); [|done]. rewrite string_field_length in *.
  destruct Hat1 as [Hl1 _]. rewrite string_field_length in Hl1. unfold read_key. rewrite Z.eqb_refl.
  apply wp_bind, wp_bind, wp_buf_incrpos; [done|done| |lia]. intros _.
  apply wp_bind. eapply wp_at_mpint; [exact Hw1|exact Hf2|exact Hat2|]. cbv iota beta.
  apply wp_bind. eapply wp_at_mpint; [exact Hw2|exact Hf3|exact Hat3|]. cbv iota beta.
  apply wp_if; intros Hc; [lia|]. apply wp_if; intros Hc'; [lia|]. apply wp_ret, wp_ret. rewrite !after_get_get.
  unfold fs in HQ. rewrite !zlen_enc_fields_cons, string_field_length in HQ.
  change (zlen (enc_fields [])) with 0 in HQ. same_offset HQ.
Qed.

Lemma wp_read_ed25519 k into E (Q : bool * sign_key → buffer → Prop) b :
  let fs := [FString SSH_SIGNKEY_ED25519; FString (ed_pub k)] in
  ed_pub_ok k → Forall field_ok fs → wf_buf b → at_cursor b (enc_fields fs) →
  Q (true, set_ed25519key (Some (ed_public k)) into) (after_get (zlen (enc_fields fs)) b) →
  wp (read_key DROPBEAR_SIGNKEY_ED25519 into) E Q b.
Proof.
  intros fs [Hkl Hkb] Hf Hwf Hat HQ. inversion Hf as [|? ? Hf1 Hf']; subst. inversion Hf' as [|? ? Hf2 _]; subst.
  apply at_cursor_fields in Hat as (Hat1&Hat&Hw1); [|done].
  change (enc_fields [FString (ed_pub k)]) with (enc_field (FString (ed_pub k)) ++ []) in Hat. rewrite app_nil_r in Hat.
  apply at_cursor_app in Hat as [Hat2 Hat3]; [|done]. rewrite STORE32H_length in *. unfold read_key.
  change (DROPBEAR_SIGNKEY_ED25519 =? DROPBEAR_SIGNKEY_RSA) with false. change (is_ecc DROPBEAR_SIGNKEY_ED25519) with false.
  change (is_ed DROPBEAR_SIGNKEY_ED25519) with true. cbv iota.
  apply wp_bind, wp_bind. eapply wp_at_string; [done|exact Hf1|exact Hat1|].
  apply wp_if; intros Hc; [done|]. clear Hc.
  apply wp_bind. eapply (wp_at_int CURVE25519_LEN); [exact Hw1|by vm_compute|rewrite <-Hkl at 1; exact Hat2|].
  apply wp_bind, wp_get. destruct Hat3 as [Hl3 Hs3]. rewrite Hkl in Hl3, Hs3.
  assert (Hw2 : wf_buf (after_get 4 (after_get (zlen (enc_field (FString SSH_SIGNKEY_ED25519))) b))).
  { destruct Hat2. apply wf_after_get; [done|lia|done]. }
  rewrite u32_small by (clear -Hw2; wf_buf_lia). apply wp_if; intros Hc; [lia|]. clear Hc.
  apply wp_read_then; [done|done| |lia]. intros _. rewrite Hs3. apply wp_ret, wp_ret. rewrite !after_get_get.
  unfold fs in HQ. rewrite !zlen_enc_fields_cons, !string_field_length in HQ. rewrite string_field_length.
  change (zlen (enc_fields [])) with 0 in HQ. rewrite Hkl in HQ. same_offset HQ.
Qed.

Lemma wp_read_ecdsa type k into E (Q : bool * sign_key → buffer → Prop) b :
  let fs := [FString (ecdsa_ident (e_dp k)); FString (ecc_name (e_dp k)); FString (raw_point k)] in
  (type =? DROPBEAR_SIGNKEY_RSA) = false → is_ecc type = true →
  ecc_pub_ok k → Forall field_ok fs → wf_buf b → at_cursor b (enc_fields fs) →
  Q (true, set_ecckey type (Some (ecc_public k)) into) (after_get (zlen (enc_fields fs)) b) →
  wp (read_key type into) E Q b.
Proof.
  intros fs Ht He Hp Hf Hwf Hat HQ. inversion Hf as [|? ? Hf1 Hf']; subst. inversion Hf' as [|? ? Hf2 Hf'']; subst.
  inversion Hf'' as [|? ? Hf3 _]; subst. unfold read_key. rewrite Ht, He.
  apply at_cursor_fields in Hat as (Hat1&Hat&Hw1); [|done]. apply at_cursor_fields in Hat as (Hat2&Hat&Hw2); [|done].
  apply at_cursor_fields in Hat as (Hat3&_&_); [|done].
  apply wp_bind, wp_bind. eapply wp_at_string; [done|exact Hf1|exact Hat1|].
  apply wp_bind. eapply wp_at_string; [exact Hw1|exact Hf2|exact Hat2|].
  assert (Hid : (if bytes_eqb (c_str (ecdsa_ident (e_dp k))) SK_ECDSA_NAME then negb (bytes_eqb (c_str (ecc_name (e_dp k))) (bstr "nistp256"))
    else negb (zlen (ecdsa_ident (e_dp k)) =? zlen (ecc_name (e_dp k)) + zlen ECDSA_PREFIX)
         || negb (bytes_eqb (slice (zlen ECDSA_PREFIX) (zlen (ecc_name (e_dp k))) (ecdsa_ident (e_dp k))) (ecc_name (e_dp k)))) = false).
  { by destruct (e_dp k). }
  rewrite Hid. apply wp_bind. eapply find_curve_name; [done|].
  apply wp_bind. unfold buf_getstringbuf. pose proof Hf3 as [Hb3 Hl3].
  apply at_cursor_app in Hat3 as [[Hl31 Hs31] [Hl32 Hs32]]; [|done]. rewrite STORE32H_length in *. pose proof (zlen_nonneg (raw_point k)).
  cbn [after_get set_pos b_pos b_len b_data] in Hl31, Hs31, Hl32, Hs32.
  apply wp_buf_getstringbuf_int; [exact Hw2|..]; cbn [after_get set_pos b_pos b_len b_data];
    rewrite Hs31, LOAD32H_STORE32H by (unfold MAX_STRING_LEN, MAX_CMD_LEN in Hl3; lia); [|lia].
  intros _ _. cbn [app]. rewrite Hs32. fold (buf_of (raw_point k)).
  apply wp_bind, wp_on_new. eapply wp_mono; [eapply wp_exit_mono; [by apply get_raw_pubkey|by intros ?]|].
  intros o q [-> ->]. apply wp_ret, wp_ret.
  unfold fs in HQ. rewrite !zlen_enc_fields_cons, !string_field_length in HQ. rewrite !string_field_length.
  change (zlen (enc_fields [])) with 0 in HQ. rewrite !after_get_get. same_offset HQ.
Qed.

(** Reading it back, at any position, with the type or [DROPBEAR_SIGNKEY_ANY]
    asked for. *)
Lemma wp_get_pub_blob key type into ask E (Q : bool * (sign_key * Z) → buffer → Prop) b :
  writable type → holds_key key type → zlen (pub_blob key type) ≤ MAX_PUBKEY_SIZE →
  ask = DROPBEAR_SIGNKEY_ANY ∨ ask = type →
  wf_buf b → at_cursor b (pub_blob key type) →
  Q (true, (with_public key type into, type)) (after_get (zlen (pub_blob key type)) b) →
  wp (buf_get_pub_key into ask) E Q b.
Proof.
  intros Hw Hk Hl Hask Hwf Hat HQ. pose proof (pub_fields_ok key type Hw Hk Hl) as Hf. unfold pub_blob in *.
  pose proof Hw as [_ Hns].
  destruct (kind_cases key type Hw Hk) as [(k&->&Hk'&Hok&Hpf&Hwp)|[(k&->&Hk'&Hok&Hpf&Hwp)|(k&Ht&He&_&Hsk&Hk'&Hdp&Hp&Hpf&Hwp)]];
    rewrite Hpf in *; rewrite Hwp in *; inversion Hf as [|? ? Hf1 _]; subst.
  - eapply (wp_read_named SSH_SIGNKEY_RSA); [by vm_compute|exact Hns|exact Hask|exact Hf1|exact Hwf|exact Hat|].
    apply (wp_read_rsa k into); [exact Hok|exact Hf|exact Hwf|exact Hat|exact HQ].
  - eapply (wp_read_named SSH_SIGNKEY_ED25519); [by vm_compute|exact Hns|exact Hask|exact Hf1|exact Hwf|exact Hat|].
    apply (wp_read_ed25519 k into); [exact Hok|exact Hf|exact Hwf|exact Hat|exact HQ].
  - destruct (curve_type_name type He Hsk) as [Hnm _]. rewrite <-Hdp in Hnm.
    eapply (wp_read_named (ecdsa_ident (e_dp k)) _ type); [exact Hnm|exact Hns|exact Hask|exact Hf1|exact Hwf|exact Hat|].
    apply (wp_read_ecdsa type k into); [exact Ht|exact He|exact Hp|exact Hf|exact Hwf|exact Hat|exact HQ].
Qed.

(** C28: Public keys survive the wire.  A valid RSA, ECDSA or Ed25519 key
    that fits the buffer of the writer is written by [buf_put_pub_key] as one
    string without error, and [buf_get_pub_key] on the content of the string,
    told its type or any type, gives the same public key and its type, and
    leaves the cursor after it. *)
Theorem pub_key_roundtrip key type into ask b :
  writable type → holds_key key type → zlen (pub_blob key type) ≤ MAX_PUBKEY_SIZE →
  ask = DROPBEAR_SIGNKEY_ANY ∨ ask = type →
  wf_buf b → b_pos b + 4 + zlen (pub_blob key type) ≤ b_size b →
  wp (let* p := gets b_pos in
      do* buf_put_pub_key key type;
      do* buf_setpos (p + 4);
      buf_get_pub_key into ask) no_exit
     (λ r b', r = (true, (with_public key type into, type)) ∧
              b_pos b' = b_pos b + 4 + zlen (pub_blob key type) ∧ wf_buf b') b.
Proof.
  intros Hw Hk Hl Hask Hwf Hr. pose proof (puts_pub_key key type Hw Hk Hl) as [Hpb Hput].
  set (w := STORE32H _ ++ pub_blob key type) in *. pose proof (zlen_nonneg (pub_blob key type)).
  assert (Hwl : zlen w = 4 + zlen (pub_blob key type)) by (unfold w; by rewrite zlen_app, STORE32H_length).
  apply wp_bind, wp_gets, wp_bind, Hput; [done|lia|]. pose proof Hwf as (?&?&?&?).
  assert (Hw1 : wf_buf (after_put w b)) by (apply wf_after_put; [done|done|lia]).
  apply wp_bind, wp_buf_setpos; [|cbn [after_put b_len]; lia]. intros _.
  assert (Hat : at_cursor (set_pos (b_pos b) (after_put w b)) w) by (apply at_cursor_after_put; [done|lia]).
  assert (Hw2 : wf_buf (set_pos (b_pos b) (after_put w b))) by (apply wf_set_pos; [done|cbn [after_put b_len]; lia]).
  apply at_cursor_app in Hat as [_ Hat]; [|done]. rewrite STORE32H_length in Hat.
  assert (Hw3 : wf_buf (after_get 4 (set_pos (b_pos b) (after_put w b)))) by 
    (apply wf_after_get; [done|lia|cbn [set_pos after_put b_pos b_len]; lia]).
  eapply wp_get_pub_blob; [done..| |]; [exact Hat|]. split_and!; [done|cbn; lia|].
  destruct Hat. apply wf_after_get; [exact Hw3|lia|done].
Qed.
End roundtrip.

(** The base point of P-256 as a key. *)
Definition p256_point : sign_key :=
  set_ecckey DROPBEAR_SIGNKEY_ECDSA_NISTP256
    (Some (mkecc nistp256 0x6B17D1F2E12C4247F8BCE6E563A440F277037D812DEB33A0F4A13945D898C296
       0x4FE342E2FE1A7F9B8EE7EB4A7C0F9E162BCE33576B315ECECBB6406837BF51F5 0 false)) new_sign_key.

Lemma p256_point_holds : holds_key p256_point DROPBEAR_SIGNKEY_ECDSA_NISTP256.
Proof.
  eexists. split; [reflexivity|]. split; [reflexivity|].
  split; [split; vm_compute; reflexivity|]. split; [split; vm_compute; reflexivity|vm_compute; reflexivity].
Qed.

Lemma pub_key_roundtrip_witness :
  wp (let* p := gets b_pos in
      do* buf_put_pub_key p256_point DROPBEAR_SIGNKEY_ECDSA_NISTP256;
      do* buf_setpos (p + 4);
      buf_get_pub_key new_sign_key DROPBEAR_SIGNKEY_ANY) no_exit
     (λ r b', r = (true, (with_public p256_point DROPBEAR_SIGNKEY_ECDSA_NISTP256 new_sign_key, DROPBEAR_SIGNKEY_ECDSA_NISTP256)) ∧
              b_pos b' = 0 + 4 + zlen (pub_blob p256_point DROPBEAR_SIGNKEY_ECDSA_NISTP256) ∧ wf_buf b')
     (mkbuf (zeros 200) 0 0 200).
Proof.
  apply (pub_key_roundtrip p256_point DROPBEAR_SIGNKEY_ECDSA_NISTP256 new_sign_key DROPBEAR_SIGNKEY_ANY (mkbuf (zeros 200) 0 0 200)).
  - split; [by vm_compute|done].
  - exact p256_point_holds.
  - by vm_compute.
  - by left.
  - by apply wf_new.
  - by vm_compute.
Defined.

(** C29: Public keys from the network.  On any bytes [buf_get_pub_key] stays
    inside the buffer or ends the session; when it succeeds the key holds
    valid numbers of the type it reports, which is the one asked for: an RSA
    modulus of at least 1024 bits and an exponent of at most 64, a point of
    the named curve that is not on an axis, 32 bytes of Ed25519. *)
Theorem get_pub_key_valid (key : sign_key) (type : Z) (b : buffer) :
  wf_buf b →
  wp (buf_get_pub_key key type) any_exit
     (λ r b', scanned b b' ∧
        (r.1 = true → holds_key r.2.1 r.2.2 ∧ (type = DROPBEAR_SIGNKEY_ANY ∨ r.2.2 = type) ∧
           0 ≤ r.2.2 < DROPBEAR_SIGNKEY_NUM_NAMED)) b.
Proof. intros Hwf. apply wp_buf_get_pub_key; [done|]. by intros. Qed.

Lemma get_pub_key_valid_witness :
  wp (buf_get_pub_key new_sign_key DROPBEAR_SIGNKEY_ANY) any_exit
     (λ r b', scanned (buf_of (pub_blob p256_point DROPBEAR_SIGNKEY_ECDSA_NISTP256)) b' ∧
        (r.1 = true → holds_key r.2.1 r.2.2 ∧ (DROPBEAR_SIGNKEY_ANY = DROPBEAR_SIGNKEY_ANY ∨ r.2.2 = DROPBEAR_SIGNKEY_ANY) ∧
           0 ≤ r.2.2 < DROPBEAR_SIGNKEY_NUM_NAMED)) (buf_of (pub_blob p256_point DROPBEAR_SIGNKEY_ECDSA_NISTP256)).
Proof.
  apply (get_pub_key_valid new_sign_key DROPBEAR_SIGNKEY_ANY).
  apply wf_buf_of; [decide_closed|by vm_compute].
Defined.
