(* ===== verification/SignVerify.v ===== *)
(** * Signatures (src/src/signkey.c and the key types)

    Verification on arbitrary bytes, and on a signature blob: which signatures
    each type accepts ([rsa_valid], [ecdsa_valid]); RSA accepts exactly the
    PKCS#1 v1.5 encoding, without slack. *)

From Stdlib Require Import ZArith Lia Zpow_facts.
From stdpp Require Import base list strings.
From S2P Require Import Prelude.
From S2P Require Import Buffer.
From S2P Require Import Random.
From S2P Require Import Algo.
From S2P Require Import Cipher.
From S2P Require Import KeyTypes.
From S2P Require Import Ecc.
From S2P Require Import SignKey.
From S2P Require Import KeyInstances.
From S2P Require Import SignKeyRead.

(** ** The PKCS#1 encoding *)

Section rsa.
Context `{Sha256}.
Implicit Types (b data : buffer) (key : dropbear_rsa_key).

Definition rsa_em_bytes key (m : list Z) : list Z :=
  [0; 1] ++ replicate (Z.to_nat (mp_ubin_size (r_n key) - 54)) 255 ++ [0] ++ T_sha256 ++ sha256 m.
Definition rsa_em key (m : list Z) : Z := mp_from_ubin (rsa_em_bytes key m).

Lemma rsa_size key : rsa_pub_ok key → 128 ≤ mp_ubin_size (r_n key) ≤ BUF_MAX_MPINT ∧
  2 ^ (8 * (mp_ubin_size (r_n key) - 1)) ≤ r_n key.
Proof.
  intros (_&_&[Hn0 Hn]&Hbits). unfold MIN_RSA_KEYLEN in Hbits.
  assert (Hpos : 0 < r_n key).
  { destruct (Z.eq_dec (r_n key) 0) as [He|]; [rewrite He in Hbits; by vm_compute in Hbits|lia]. }
  pose proof (mp_ubin_size_bits (r_n key) Hpos) as Hs.
  pose proof (mp_ubin_size_fits BUF_MAX_MPINT (r_n key) ltac:(lia) ltac:(by vm_compute)) as Hf.
  split; [lia|]. unfold mp_count_bits in Hs. destruct (Z.eqb_spec (r_n key) 0); [lia|]. rewrite Z.abs_eq in Hs by lia.
  apply Z.log2_le_pow2; lia.
Qed.

Lemma rsa_em_bytes_ok key m : bytes_ok (rsa_em_bytes key m).
Proof.
  repeat (apply bytes_ok_app; split); [decide_closed|by apply Forall_replicate|decide_closed|decide_closed|apply sha256_bytes].
Qed.

Lemma rsa_em_bytes_length key m : rsa_pub_ok key → zlen (rsa_em_bytes key m) = mp_ubin_size (r_n key).
Proof.
  intros Hk. pose proof (rsa_size key Hk) as [[? _] _]. unfold rsa_em_bytes. rewrite !zlen_app, sha256_length.
  change (zlen [0; 1]) with 2. change (zlen [0]) with 1. change (zlen T_sha256) with 19.
  unfold zlen. rewrite length_replicate. lia.
Qed.

(** The encoded message is below the modulus. *)
Lemma rsa_em_range key m : rsa_pub_ok key → 0 ≤ rsa_em key m < r_n key.
Proof.
  intros Hk. pose proof (rsa_size key Hk) as [[? _] Hn]. pose proof (rsa_em_bytes_length key m Hk) as Hl.
  pose proof (rsa_em_bytes_ok key m) as Hb. unfold rsa_em, rsa_em_bytes in *.
  change ([0; 1] ++ ?l) with ([0] ++ [1] ++ l) in *. apply bytes_ok_app in Hb as [_ Hb]. rewrite zlen_app in Hl.
  change (zlen [0]) with 1 in Hl.
  match goal with |- context [mp_from_ubin ([0] ++ ?l)] => change (mp_from_ubin ([0] ++ l)) with (mp_from_ubin (zeros 1 ++ l)) end.
  rewrite mp_from_ubin_zeros.
  pose proof (mp_from_ubin_range _ Hb) as Hr. apply Z.add_move_l in Hl. rewrite Hl in Hr. lia.
Qed.

Lemma wp_rsa_pad_loop n fuel stop acc E (Q : unit → buffer → Prop) b :
  buf_acc acc b → stop = zlen acc + Z.of_nat n → stop ≤ b_size b → (n ≤ fuel)%nat →
  (∀ b', buf_acc (acc ++ replicate n 255) b' → b_size b' = b_size b → Q tt b') →
  wp (rsa_pad_loop fuel stop) E Q b.
Proof.
  revert fuel acc b. induction n as [|n IH]; intros fuel acc b Hacc Hst Hsz Hf HQ;
    pose proof (buf_acc_pos _ _ Hacc) as Hp.
  - destruct fuel; cbn [rsa_pad_loop]; apply wp_bind, wp_get; (apply wp_if; intros Hc; [lia|]);
      apply wp_ret, HQ; try done; by rewrite app_nil_r.
  - destruct fuel as [|fuel]; [lia|]. cbn [rsa_pad_loop]. apply wp_bind, wp_get. apply wp_if; intros Hc; [|lia].
    apply wp_bind. eapply (wp_acc _ [255]); [by apply puts_byte|exact Hacc|change (zlen [255]) with 1; lia|].
    intros b1 Hacc1 Hs1. eapply IH; [exact Hacc1| |lia|lia|].
    + rewrite zlen_app. change (zlen [255]) with 1. lia.
    + intros b2 Hacc2 Hs2. apply HQ; [|congruence]. by rewrite <-app_assoc in Hacc2.
Qed.

Lemma wp_rsa_pad_em {S} key data E (Q : Z → S → Prop) (s : S) :
  rsa_pub_ok key → Q (rsa_em key (contents data)) s →
  wp (rsa_pad_em key data DROPBEAR_SIGNATURE_RSA_SHA256) E Q s.
Proof.
  intros Hk HQ. pose proof (rsa_size key Hk) as [[Hs1 Hs2] _]. pose proof (rsa_em_bytes_length key (contents data) Hk) as Hl.
  set (n := mp_ubin_size (r_n key)) in *. change BUF_MAX_MPINT with 1030 in Hs2.
  unfold rsa_pad_em. apply wp_bind, wp_assert; [done|]. intros _. cbv zeta. fold n.
  apply wp_bind, wp_buf_new; [|unfold BUF_MAX_SIZE; lia]. intros _. apply wp_bind, wp_on_new.
  pose proof (buf_acc_new n ltac:(unfold BUF_MAX_SIZE; lia)) as H0.
  apply wp_bind. eapply (wp_acc _ [0]); [by apply puts_byte|exact H0|change (zlen [0]) with 1; rewrite zlen_nil; cbn; lia|]. intros b1 H1 E1.
  apply wp_bind. eapply (wp_acc _ [1]); [by apply puts_byte|exact H1|change (zlen ([] ++ [0]) + zlen [1]) with 2; rewrite E1; cbn; lia|]. intros b2 H2 E2.
  cbn [b_size] in E1. apply wp_bind, wp_get. rewrite E2, E1. change (hd_hashsize sha256_desc) with 32. change (zlen T_sha256) with 19.
  rewrite u32_small by lia. apply wp_bind. eapply (wp_rsa_pad_loop (Z.to_nat (n - 54))); [exact H2|..].
  { change (zlen (([] ++ [0]) ++ [1])) with 2. lia. } { lia. } { lia. }
  intros b3 H3 E3.
  assert (Hl3 : zlen ((([] ++ [0]) ++ [1]) ++ replicate (Z.to_nat (n - 54)) 255) = n - 52).
  { rewrite zlen_app. change (zlen (([] ++ [0]) ++ [1])) with 2. unfold zlen. rewrite length_replicate. lia. }
  assert (Heq : rsa_em_bytes key (contents data) = ((((([] ++ [0]) ++ [1]) ++ replicate (Z.to_nat (n - 54)) 255) ++ [0]) ++ T_sha256)
      ++ sha256 (contents data)) by (unfold rsa_em_bytes; fold n; cbn [app]; by rewrite <-!app_assoc).
  set (a3 := (([] ++ [0]) ++ [1]) ++ replicate (Z.to_nat (n - 54)) 255) in *.
  apply wp_bind. eapply (wp_acc _ [0]); [by apply puts_byte|exact H3|rewrite Hl3, E3, E2, E1; change (zlen [0]) with 1; lia|]. intros b4 H4 E4.
  apply wp_bind. eapply (wp_acc _ T_sha256); [apply puts_bytes; decide_closed|exact H4| |].
  { rewrite zlen_app, Hl3, E4, E3, E2, E1. change (zlen [0]) with 1. change (zlen T_sha256) with 19. lia. }
  intros b5 H5 E5. pose proof H5 as (Hw5&_). pose proof (buf_acc_pos _ _ H5) as Hp5.
  rewrite !zlen_app, Hl3 in Hp5. change (zlen [0]) with 1 in Hp5. change (zlen T_sha256) with 19 in Hp5.
  change (hd_fn sha256_desc (buf_bytes data)) with (sha256 (contents data)). pose proof (sha256_length (contents data)) as Hhl.
  apply wp_store_then; [done|apply sha256_bytes|done|rewrite E5, E4, E3, E2, E1; lia|].
  assert (H6 : buf_acc (rsa_em_bytes key (contents data)) (after_put (sha256 (contents data)) b5)).
  { rewrite Heq. apply buf_acc_put; [exact H5|apply sha256_bytes|].
    rewrite <-(buf_acc_pos _ _ H5), Hp5, Hhl, E5, E4, E3, E2, E1. lia. }
  set (b6 := after_put _ b5) in *. pose proof H6 as (Hw6&Hp6&Hc6). pose proof (buf_acc_pos _ _ H6) as Hp6'. rewrite Hl in Hp6'.
  assert (E6 : b_size b6 = n) by (change (b_size b5 = n); congruence).
  apply wp_bind, wp_get, wp_bind, wp_assert; [lia|]. intros _.
  apply wp_bind, wp_buf_setpos; [|lia]. intros _. pose proof Hw6 as (?&?&Hd6&?).
  apply wp_bind, wp_buf_getptr; [apply wf_set_pos; [done|lia]|lia| |cbn; lia]. intros _.
  apply wp_mem_load; cbn [set_pos b_pos b_data]; [lia|lia|lia|]. apply wp_ret.
  rewrite E6, <-Hp6', Hp6. fold (contents b6). rewrite Hc6. exact HQ.
Qed.
End rsa.

(** ** Verification *)

Section verify.
Context `{Sha256} {ML : MpLib} {EL : EccLib} {DL : Ed25519Lib}.
Implicit Types (b data : buffer).

(** No type of key has the number of the RSA signature type. *)
Lemma signkey_type_not_sig name : DROPBEAR_SIGNATURE_RSA_SHA256 ≠ signkey_type_from_name name.
Proof.
  unfold signkey_type_from_name. destruct (List.find _ _) as [[i n]|] eqn:Hf; [|done].
  apply List.find_some in Hf as [Hin _]. apply list_elem_of_In in Hin. cbn in Hin.
  repeat (apply elem_of_cons in Hin as [[= -> _]|Hin]; [done|]). by apply elem_of_nil in Hin.
Qed.

Lemma avail_u32 b : wf_buf b → u32 (b_len b - b_pos b) = b_len b - b_pos b.
Proof. intros. apply u32_small. wf_buf_lia. Qed.

(** Loading bytes without stepping over them. *)
Lemma wp_peek {A} n (k : list Z → ST buffer A) E Q b :
  wf_buf b → 0 ≤ n → b_pos b + n ≤ b_len b →
  wp (k (slice (b_pos b) n (b_data b))) E Q b →
  wp (let* p := buf_getptr n in let* bs := mem_load p n in k bs) E Q b.
Proof.
  intros Hwf Hn Hl HQ. pose proof Hwf as (?&?&?&?).
  apply wp_bind, wp_buf_getptr; [done|lia| |lia]. intros _. by apply wp_bind, wp_mem_load; [lia..|].
Qed.

Lemma wp_rsa_pad_em_any {S} key data sigtype (Q : Z → S → Prop) (s : S) :
  rsa_pub_ok key → Q (rsa_em key (contents data)) s → wp (rsa_pad_em key data sigtype) any_exit Q s.
Proof.
  intros Hk HQ. destruct (Z.eqb_spec sigtype DROPBEAR_SIGNATURE_RSA_SHA256) as [->|Hne]; [by apply wp_rsa_pad_em|].
  unfold rsa_pad_em. apply wp_bind. unfold dropbear_assert. by if_false.
Qed.

Lemma wp_scan_rsa_verify key sigtype data (Q : bool → buffer → Prop) b :
  rsa_pub_ok key → wf_buf b → (∀ ok b', scanned b b' → Q ok b') →
  wp (buf_rsa_verify key sigtype data) any_exit Q b.
Proof.
  intros Hk Hwf HQ. apply wp_bind, wp_scan_int; [done|]. intros slen b1 H1 _. pose proof H1 as [Hw1 _].
  pose proof Hw1 as (?&?&?&?). apply wp_if; intros _; [by apply wp_ret, HQ|]. apply wp_bind, wp_get. rewrite avail_u32 by done.
  cbv zeta. apply wp_peek; [done|lia|lia|]. apply wp_if; intros _; [by apply wp_ret, HQ|].
  apply wp_bind, wp_rsa_pad_em_any; [done|]. destruct (mp_exptmod _ _ _); by apply wp_ret, HQ.
Qed.

Lemma wp_scan_ecdsa_verify key data (Q : bool → buffer → Prop) b :
  wf_buf b → (∀ ok b', scanned b b' → Q ok b') → wp (buf_ecdsa_verify key data) any_exit Q b.
Proof.
  intros Hwf HQ. unfold buf_ecdsa_verify, buf_get_ecdsa_verify_params.
  assert (Hend : ∀ b', scanned b b' → wp (ret false) any_exit Q b') by (intros; by apply wp_ret, HQ).
  apply wp_bind, wp_bind, wp_scan_int; [done|]. intros len b1 H1 _. pose proof H1 as [Hw1 _]. apply wp_bind, wp_get.
  apply wp_bind, wp_scan_mpint; [done|]. intros [r|] b2 H2 _; pose proof H2 as [Hw2 _];
    (assert (H12 : scanned b b2) by (by eapply scanned_trans)); [|by apply wp_ret, Hend].
  apply wp_bind, wp_scan_mpint; [done|]. intros [s|] b3 H3 _;
    (assert (H13 : scanned b b3) by (by eapply scanned_trans)); [|by apply wp_ret, Hend].
  apply wp_bind, wp_get, wp_if; intros _; [by apply wp_ret, Hend|]. apply wp_ret. cbv zeta.
  apply wp_if; intros _; [by apply Hend|]. destruct (mp_invmod _ _); [|by apply Hend].
  destruct (ecc_mul2add _ _ _ _); [by apply wp_ret, HQ|by apply Hend].
Qed.

Lemma wp_sk_message {S} app flags counter data E (Q : buffer → S → Prop) (s : S) :
  (∀ sk, wf_buf sk → Q sk s) → wp (sk_message app flags counter data) E Q s.
Proof.
  intros HQ. apply wp_bind, wp_buf_new; [|by vm_compute]. intros _. apply wp_bind.
  eapply (puts_fresh _ (sha256 app ++ [u8 flags] ++ STORE32H counter ++ sha256 (buf_bytes data))).
  - apply puts_seq; [apply puts_bytes, sha256_bytes|]. apply puts_seq.
    + pose proof (puts_byte (u8 flags) (u8_range flags)) as [Hb Hm]. split; [done|]. intros b E' Q' Hwf Hr HQ'.
      apply wp_buf_putbyte; [done|by intros _|change (zlen [u8 flags]) with 1 in Hr; lia].
    + apply puts_seq; [apply puts_int|apply puts_bytes, sha256_bytes].
  - rewrite !zlen_app, !sha256_length, STORE32H_length. split; [by vm_compute|by vm_compute].
  - intros sk (Hw&_) _. by apply wp_ret, HQ.
Qed.

Lemma wp_scan_ed25519_verify key data (Q : bool → buffer → Prop) b :
  wf_buf b → (∀ ok b', scanned b b' → Q ok b') → wp (buf_ed25519_verify key data) any_exit Q b.
Proof.
  intros Hwf HQ. apply wp_bind, wp_scan_int; [done|]. intros slen b1 H1 _. pose proof H1 as [Hw1 _].
  apply wp_bind, wp_get. rewrite avail_u32 by done. apply wp_if; intros Hc; [by apply wp_ret, HQ|].
  apply wp_peek; [done|lia|lia|]. by apply wp_ret, HQ.
Qed.

Lemma wp_scan_sk_ecdsa key data app mask (Q : bool → buffer → Prop) b :
  wf_buf b → (∀ ok b', scanned b b' → Q ok b') → wp (buf_sk_ecdsa_verify key data app mask) any_exit Q b.
Proof.
  intros Hwf HQ. apply wp_bind, wp_scan_stringbuf; [done|]. intros q b1 H1 Hq. pose proof H1 as [Hw1 _].
  apply wp_bind, wp_scan_byte; [done|]. intros flags b2 H2. pose proof H2 as [Hw2 _].
  apply wp_bind, wp_scan_int; [done|]. intros counter b3 H3 _.
  apply wp_bind, wp_sk_message. intros sk _. apply wp_bind, wp_on_new, wp_scan_ecdsa_verify; [done|]. intros ok q' _.
  apply wp_ret, HQ. eapply scanned_trans; [exact H1|]. by eapply scanned_trans.
Qed.

Lemma wp_scan_sk_ed25519 key data app mask (Q : bool → buffer → Prop) b :
  wf_buf b → (∀ ok b', scanned b b' → Q ok b') → wp (buf_sk_ed25519_verify key data app mask) any_exit Q b.
Proof.
  intros Hwf HQ. apply wp_bind, wp_scan_int; [done|]. intros slen b1 H1 Hsl. pose proof H1 as [Hw1 _].
  apply wp_bind, wp_get. apply wp_if; intros _; [by apply wp_ret, HQ|].
  apply wp_scan_bytes; [done|unfold u32_ok in Hsl; lia|]. intros s b2 H2 _ _. pose proof H2 as [Hw2 _].
  apply wp_bind, wp_scan_byte; [done|]. intros flags b3 H3. pose proof H3 as [Hw3 _].
  apply wp_bind, wp_scan_int; [done|]. intros counter b4 H4 _. apply wp_bind, wp_sk_message. intros sk _.
  apply wp_ret, HQ. eapply scanned_trans; [exact H1|]. eapply scanned_trans; [exact H2|]. by eapply scanned_trans.
Qed.

(** The second half of [buf_verify], once the type of the key is known. *)
Definition verify_as key keytype sigtype data : ST buffer bool :=
  if keytype =? DROPBEAR_SIGNKEY_RSA then
    let* k := or_exit (rsakey key) "No RSA key to verify signature" in
    buf_rsa_verify k sigtype data
  else if signkey_is_ecdsa keytype then
    match signkey_key_ptr key keytype with
    | Some k => buf_ecdsa_verify k data
    | None => dropbear_exit "Non-matching signing type"
    end
  else if keytype =? DROPBEAR_SIGNKEY_ED25519 then
    let* k := or_exit (ed25519key key) "No Ed25519 key to verify signature" in
    buf_ed25519_verify k data
  else if keytype =? DROPBEAR_SIGNKEY_SK_ECDSA_NISTP256 then
    match signkey_key_ptr key keytype with
    | Some k => buf_sk_ecdsa_verify k data (sk_app key) (sk_flags_mask key)
    | None => dropbear_exit "Non-matching signing type"
    end
  else if keytype =? DROPBEAR_SIGNKEY_SK_ED25519 then
    match ed25519key key with
    | Some k => buf_sk_ed25519_verify k data (sk_app key) (sk_flags_mask key)
    | None => dropbear_exit "Non-matching signing type"
    end
  else dropbear_exit "Non-matching signing type".

Lemma buf_verify_as key expect_sigtype data :
  buf_verify key expect_sigtype data =
  (let* _ := buf_getint in
   let* type_name := buf_getstring in
   do* exit_if (negb (expect_sigtype =? signature_type_from_name type_name)) "Non-matching signing type";
   let* keytype := signkey_type_from_signature (signature_type_from_name type_name) in
   verify_as key keytype (signature_type_from_name type_name) data).
Proof. done. Qed.

Lemma wp_verify_as key keytype sigtype data (Q : bool → buffer → Prop) b :
  rsa_part_ok key → wf_buf b → (∀ ok b', scanned b b' → Q ok b') → wp (verify_as key keytype sigtype data) any_exit Q b.
Proof.
  intros Hrsa Hwf HQ. unfold verify_as. apply wp_if; intros _.
  { destruct (rsakey key) as [k|] eqn:Hk; [|done]. by apply wp_bind, wp_ret, wp_scan_rsa_verify; [apply Hrsa|..]. }
  apply wp_if; intros _; [destruct (signkey_key_ptr key keytype); [by apply wp_scan_ecdsa_verify|done]|].
  apply wp_if; intros _.
  { destruct (ed25519key key); [|done]. by apply wp_bind, wp_ret, wp_scan_ed25519_verify. }
  apply wp_if; intros _; [destruct (signkey_key_ptr key keytype); [by apply wp_scan_sk_ecdsa|done]|].
  apply wp_if; intros _; [destruct (ed25519key key); [by apply wp_scan_sk_ed25519|done]|done].
Qed.

(** Any signature blob: [buf_verify] stays inside the packet. *)
Lemma wp_buf_verify key sigtype data (Q : bool → buffer → Prop) b :
  rsa_part_ok key → wf_buf b → (∀ ok b', scanned b b' → Q ok b') → wp (buf_verify key sigtype data) any_exit Q b.
Proof.
  intros Hrsa Hwf HQ. rewrite buf_verify_as. apply wp_bind, wp_scan_int; [done|]. intros _ b1 H1 _. pose proof H1 as [Hw1 _].
  apply wp_bind, wp_scan_string; [done|]. intros name b2 H2 _ _ _. pose proof H2 as [Hw2 _].
  assert (HQ' : ∀ ok b', scanned b2 b' → Q ok b').
  { intros ok b' Hs. apply HQ. eapply scanned_trans; [exact H1|]. by eapply scanned_trans. }
  apply wp_bind, wp_exit_if; [done|]. intros _. apply wp_bind. unfold signkey_type_from_signature.
  apply wp_if; intros _; [by apply wp_ret, wp_verify_as|].
  apply wp_bind, wp_assert; [done|]. intros _. by apply wp_ret, wp_verify_as.
Qed.

(** *** On a signature blob *)

(** The key types on the wire behind a signature type. *)
Definition keytype_of (sigtype : Z) : Z :=
  if sigtype =? DROPBEAR_SIGNATURE_RSA_SHA256 then DROPBEAR_SIGNKEY_RSA else sigtype.
Definition sig_wire (name body : list Z) : list Z := enc_fields [FString name; FString body].

(** The blob is the rest of the packet, as it is in every message. *)
Definition sig_at (b : buffer) (bs : list Z) : Prop := at_cursor b bs ∧ b_len b = b_pos b + zlen bs.

Definition rsa_valid (key : dropbear_rsa_key) (m sig : list Z) : bool :=
  (zlen sig =? mp_ubin_size (r_n key)) && (mp_from_ubin sig <? r_n key)
  && match mp_exptmod (mp_from_ubin sig) (r_e key) (r_n key) with
     | Some v => rsa_em key m =? v
     | None => false
     end.

Definition ecdsa_valid (key : ecc_key) (m : list Z) (r s : Z) : bool :=
  let p := ecc_order (e_dp key) in
  (0 <? r) && (0 <? s) && (r <? p) && (s <? p)
  && match mp_invmod s p with
     | Some w =>
         match ecc_mul2add (e_dp key) (mp_mulmod (mp_from_ubin (hd_fn (ecc_hash_desc (e_dp key)) m)) w p) (mp_mulmod r w p)
                 (e_pub key) with
         | Some mG => mG.1 mod p =? r
         | None => false
         end
     | None => false
     end.

Lemma sig_at_rest f fs b : wf_buf b → sig_at b (enc_fields (f :: fs)) →
  at_cursor b (enc_field f) ∧ wf_buf (after_get (zlen (enc_field f)) b) ∧
  sig_at (after_get (zlen (enc_field f)) b) (enc_fields fs).
Proof.
  intros Hwf [Hat Hl]. apply at_cursor_fields in Hat as (H1&H2&H3); [|done]. split_and!; [done..|]. split; [done|].
  rewrite zlen_enc_fields_cons in Hl. cbn [after_get set_pos b_pos b_len]. lia.
Qed.

Lemma enc_fields_1 f : enc_fields [f] = enc_field f.
Proof. unfold enc_fields. cbn [map concat]. apply app_nil_r. Qed.

Lemma wp_rsa_verify_at key data sig E (Q : bool → buffer → Prop) b :
  rsa_pub_ok key → wf_buf b → sig_at b (enc_field (FString sig)) →
  Q (rsa_valid key (contents data) sig) (after_get 4 b) →
  wp (buf_rsa_verify key DROPBEAR_SIGNATURE_RSA_SHA256 data) E Q b.
Proof.
  intros Hk Hwf [Hat Hl] HQ. pose proof (rsa_size key Hk) as [[Hs1 Hs2] _]. change BUF_MAX_MPINT with 1030 in Hs2.
  rewrite string_field_length in Hl. pose proof (zlen_nonneg sig). pose proof Hwf as ([? ?]&[? Hbl]&?&?). unfold BUF_MAX_SIZE in Hbl.
  apply at_cursor_app in Hat as [Hat1 Hat2]; [|done]. rewrite STORE32H_length in Hat2. destruct Hat2 as [Hl2 Hs].
  apply wp_bind. eapply (wp_at_int (zlen sig)); [done|cbn [field_ok]; unfold u32_ok; lia|exact Hat1|].
  rewrite u32_small by lia. unfold rsa_valid in HQ. apply wp_if; intros Hc.
  { apply wp_ret. apply negb_true_iff in Hc. by rewrite Hc in HQ. }
  apply negb_false_iff in Hc. rewrite Hc in HQ. cbn [andb] in HQ. apply wp_bind, wp_get.
  cbn [after_get set_pos b_pos b_len b_data] in Hl2, Hs |- *. rewrite u32_small by lia. cbv zeta.
  replace (b_len b - (b_pos b + 4)) with (zlen sig) by lia.
  apply wp_peek; [by apply wf_after_get; [done|lia|lia]|lia|cbn; lia|]. cbn [after_get set_pos b_pos b_data]. rewrite Hs.
  apply wp_if; intros Hn; [apply negb_true_iff in Hn; by rewrite Hn in HQ|]. apply negb_false_iff in Hn. rewrite Hn in HQ.
  apply wp_bind, wp_rsa_pad_em; [done|]. by destruct (mp_exptmod _ _ _).
Qed.

Lemma wp_ecdsa_verify_at key data r s E (Q : bool → buffer → Prop) b :
  wf_buf b → field_ok (FMpint r) → field_ok (FMpint s) → sig_at b (enc_field (FString (enc_fields [FMpint r; FMpint s]))) →
  Q (ecdsa_valid key (contents data) r s) (after_get (zlen (enc_field (FString (enc_fields [FMpint r; FMpint s])))) b) →
  wp (buf_ecdsa_verify key data) E Q b.
Proof.
  intros Hwf Hr Hs [Hat Hl] HQ. pose proof Hr as [Hr0 _]. pose proof Hs as [Hs0 _].
  rewrite string_field_length in *. set (rs := enc_fields _) in *. pose proof (zlen_nonneg rs).
  pose proof Hwf as ([? ?]&[? Hbl]&?&?). unfold BUF_MAX_SIZE in Hbl.
  apply at_cursor_app in Hat as [Hat1 Hat2]; [|done]. rewrite STORE32H_length in Hat2.
  assert (Hw1 : wf_buf (after_get 4 b)) by (apply wf_after_get; [done|lia|lia]).
  unfold buf_ecdsa_verify, buf_get_ecdsa_verify_params. apply wp_bind, wp_bind.
  eapply (wp_at_int (zlen rs)); [done|cbn [field_ok]; unfold u32_ok; lia|exact Hat1|]. apply wp_bind, wp_get.
  apply at_cursor_fields in Hat2 as (Har&Has&Hw2); [|done]. rewrite enc_fields_1 in Has.
  apply wp_bind. eapply wp_at_mpint; [exact Hw1|exact Hr|exact Har|]. cbv iota beta.
  apply wp_bind. eapply wp_at_mpint; [exact Hw2|exact Hs|exact Has|]. cbv iota beta. apply wp_bind, wp_get.
  rewrite !after_get_get in *.
  assert (Hrs : zlen rs = zlen (enc_field (FMpint r)) + zlen (enc_field (FMpint s))).
  { unfold rs. by rewrite zlen_enc_fields_cons, enc_fields_1. }
  cbn [after_get set_pos b_pos]. rewrite <-Hrs.
  replace (b_pos b + (4 + zlen rs) - (b_pos b + 4)) with (zlen rs) by lia.
  rewrite u32_small, Z.eqb_refl by lia. cbn [negb]. apply wp_ret. cbv zeta.
  unfold ecdsa_valid in HQ. unfold ecdsa_e. fold (contents data). change (buf_bytes data) with (contents data).
  apply wp_if; intros Hc.
  - assert (Hf : (0 <? r) && (0 <? s) && (r <? ecc_order (e_dp key)) && (s <? ecc_order (e_dp key)) = false) by lia.
    rewrite Hf in HQ. by apply wp_ret.
  - assert (Hf : (0 <? r) && (0 <? s) && (r <? ecc_order (e_dp key)) && (s <? ecc_order (e_dp key)) = true) by lia.
    rewrite Hf in HQ. cbn [andb] in HQ. destruct (mp_invmod _ _); [|by apply wp_ret]. by destruct (ecc_mul2add _ _ _ _).
Qed.

Lemma wp_ed25519_verify_at key data sig E (Q : bool → buffer → Prop) b :
  wf_buf b → zlen sig = 64 → sig_at b (enc_field (FString sig)) →
  Q (dropbear_ed25519_verify (contents data) sig (ed_pub key)) (after_get 4 b) →
  wp (buf_ed25519_verify key data) E Q b.
Proof.
  intros Hwf Hz [Hat Hl] HQ. rewrite string_field_length in Hl. pose proof Hwf as ([? ?]&[? Hbl]&?&?). unfold BUF_MAX_SIZE in Hbl.
  apply at_cursor_app in Hat as [Hat1 Hat2]; [|done]. rewrite STORE32H_length in Hat2. destruct Hat2 as [Hl2 Hs].
  rewrite Hz in *. apply wp_bind. eapply (wp_at_int 64); [done|by vm_compute|exact Hat1|].
  apply wp_bind, wp_get. cbn [after_get set_pos b_pos b_len b_data] in Hl2, Hs |- *. rewrite u32_small by lia.
  apply wp_if; intros Hc; [lia|]. apply wp_peek; [by apply wf_after_get; [done|lia|lia]|lia|cbn; lia|].
  cbn [after_get set_pos b_pos b_data]. rewrite Hs. by apply wp_ret.
Qed.

(** [buf_verify] up to the check of the type. *)
Lemma wp_verify_wire key sigtype name body data E (Q : bool → buffer → Prop) b :
  signature_type_from_name name = sigtype → sigtype = DROPBEAR_SIGNATURE_RSA_SHA256 ∨ sigtype < DROPBEAR_SIGNKEY_NUM_NAMED →
  field_ok (FString name) → wf_buf b → sig_at b (enc_field (FString (sig_wire name body))) →
  (∀ n b1, b1 = after_get n b → wf_buf b1 → sig_at b1 (enc_field (FString body)) →
     wp (verify_as key (keytype_of sigtype) sigtype data) E Q b1) →
  wp (buf_verify key sigtype data) E Q b.
Proof.
  intros Hn Hst Hname Hwf [Hat Hl] HQ. rewrite buf_verify_as. rewrite string_field_length in Hl.
  pose proof (zlen_nonneg (sig_wire name body)). pose proof Hwf as ([? ?]&[? Hbl]&?&?). unfold BUF_MAX_SIZE in Hbl.
  apply at_cursor_app in Hat as [Hat1 Hat2]; [|done]. rewrite STORE32H_length in Hat2.
  assert (Hw1 : wf_buf (after_get 4 b)) by (apply wf_after_get; [done|lia|lia]).
  apply wp_bind. eapply (wp_at_int (zlen (sig_wire name body))); [done|cbn [field_ok]; unfold u32_ok; lia|exact Hat1|].
  assert (Hsig : sig_at (after_get 4 b) (sig_wire name body)) by (split; [done|cbn [after_get set_pos b_pos b_len]; lia]).
  apply sig_at_rest in Hsig as (Hat3&Hw2&Hsig); [|done]. rewrite enc_fields_1 in Hsig.
  apply wp_bind. eapply wp_at_string; [exact Hw1|exact Hname|exact Hat3|]. rewrite Hn, Z.eqb_refl.
  rewrite after_get_get in *. apply wp_bind, wp_ret, wp_bind. unfold signkey_type_from_signature. unfold keytype_of in HQ.
  apply wp_if; intros Hc; [rewrite Hc in HQ; by eapply wp_ret, HQ|]. rewrite Hc in HQ.
  apply wp_bind, wp_assert; [destruct Hst; lia|]. intros _. by eapply wp_ret, HQ.
Qed.
End verify.

(** The rest of the packet as [buf_verify] reads an RSA signature: a blob
    length, which is not looked at, the type's name, the length of the
    signature, and everything that is left as the signature. *)
Definition rsa_blob (b : buffer) (slen : Z) (sig : list Z) : Prop :=
  ∃ l, u32_ok l ∧ u32_ok slen ∧
    sig_at b (STORE32H l ++ enc_field (FString SSH_SIGNATURE_RSA_SHA256) ++ STORE32H slen ++ sig).

Section exact.
Context `{Sha256} {ML : MpLib} {MLaw : MpLaws ML}.
Implicit Types (b data : buffer).

Lemma rsa_modulus key : rsa_pub_ok key → 1 < r_n key.
Proof.
  intros Hk. pose proof (rsa_size key Hk) as [[Hs _] Hn].
  assert (2 ^ 1 ≤ 2 ^ (8 * (mp_ubin_size (r_n key) - 1))); [|lia]. apply Z.pow_le_mono_r; lia.
Qed.

Lemma sig_at_app b l1 l2 : wf_buf b → sig_at b (l1 ++ l2) → at_cursor b l1 ∧ sig_at (after_get (zlen l1) b) l2.
Proof.
  intros Hwf [Hat Hl]. pose proof (at_cursor_app _ _ _ Hwf Hat) as [H1 H2]. split; [done|]. split; [done|].
  rewrite zlen_app in Hl. cbn [after_get set_pos b_pos b_len]. lia.
Qed.

Lemma sig_at_join b l1 l2 : wf_buf b → at_cursor b l1 → sig_at (after_get (zlen l1) b) l2 → sig_at b (l1 ++ l2).
Proof.
  intros (?&?&?&?) [Hf1 Hs1] [[Hf2 Hs2] Hl]. cbn [after_get set_pos b_pos b_len b_data] in *.
  pose proof (zlen_nonneg l1). pose proof (zlen_nonneg l2). split; [split|]; rewrite zlen_app; [lia| |lia].
  rewrite slice_app_split by lia. by rewrite Hs1, Hs2.
Qed.

(** Four bytes that are there are a number. *)
Lemma at_cursor_int b : wf_buf b → b_pos b + 4 ≤ b_len b → at_cursor b (STORE32H (LOAD32H (slice (b_pos b) 4 (b_data b)))).
Proof.
  intros (?&?&Hd&?) Hf. split; rewrite STORE32H_length; [done|].
  rewrite STORE32H_LOAD32H; [done|by apply bytes_ok_slice|apply zlen_slice; lia].
Qed.

Lemma at_cursor_load b v : u32_ok v → at_cursor b (STORE32H v) → LOAD32H (slice (b_pos b) 4 (b_data b)) = v.
Proof. intros Hv [_ Hs]. rewrite STORE32H_length in Hs. rewrite Hs. by apply LOAD32H_STORE32H. Qed.

(** What the comparison of [buf_rsa_verify] says, in numbers. *)
Definition rsa_exact (key : dropbear_rsa_key) (m : list Z) (slen : Z) (sig : list Z) : Prop :=
  slen = mp_ubin_size (r_n key) ∧ mp_from_ubin sig < r_n key ∧
  mp_from_ubin sig ^ r_e key mod r_n key = mp_from_ubin
    ([0; 1] ++ replicate (Z.to_nat (mp_ubin_size (r_n key) - 54)) 255 ++ [0] ++ T_sha256 ++ sha256 m).

(** The number at the cursor, then the rest of the packet. *)
Lemma wp_rsa_verify_rest key data E (Q : bool → buffer → Prop) b :
  rsa_pub_ok key → wf_buf b → (b_len b < b_pos b + 4 → ∀ e, E e) →
  (∀ slen sig, u32_ok slen → bytes_ok sig → sig_at b (STORE32H slen ++ sig) →
     ∀ ok, (ok = true ↔ rsa_exact key (contents data) slen sig) → Q ok (after_get 4 b)) →
  wp (buf_rsa_verify key DROPBEAR_SIGNATURE_RSA_SHA256 data) E Q b.
Proof.
  intros Hk Hwf HE HQ. pose proof (rsa_size key Hk) as [[Hs1 Hs2] _]. change BUF_MAX_MPINT with 1030 in Hs2.
  pose proof Hk as (He&_). pose proof Hwf as ([? ?]&[? Hbl]&Hd&Hby). unfold BUF_MAX_SIZE in Hbl.
  apply wp_bind, wp_buf_getint; [done|intros Hfit|intros; by apply HE].
  pose proof (slice_LOAD32H_ok b (b_pos b) Hwf) as Hsl. set (slen := LOAD32H _) in *.
  set (sig := slice (b_pos b + 4) (b_len b - (b_pos b + 4)) (b_data b)).
  assert (Hb : bytes_ok sig) by by apply bytes_ok_slice.
  assert (Hzl : zlen sig = b_len b - (b_pos b + 4)) by (apply zlen_slice; lia).
  assert (Hat : sig_at b (STORE32H slen ++ sig)).
  { apply sig_at_join; [done|by apply at_cursor_int|]. rewrite STORE32H_length.
    split; [split|]; cbn [after_get set_pos b_pos b_len b_data]; rewrite ?Hzl; [lia|done|lia]. }
  pose proof (rsa_modulus key Hk) as Hn1. pose proof (mp_from_ubin_range sig Hb) as [Hpos _].
  apply wp_if; intros Hc; rewrite u32_small in Hc by lia.
  { apply wp_ret, (HQ slen sig); [done..|]. unfold rsa_exact. split; [done|lia]. }
  apply wp_bind, wp_get. cbn [after_get set_pos b_pos b_len]. rewrite u32_small by lia. cbv zeta.
  apply wp_peek; [by apply wf_after_get; [done|lia|lia]|lia|cbn; lia|]. cbn [after_get set_pos b_pos b_data]. fold sig.
  apply wp_if; intros Hn; [apply wp_ret, (HQ slen sig); [done..|unfold rsa_exact; split; [done|lia]]|].
  apply wp_bind, wp_rsa_pad_em; [done|]. rewrite exptmod_spec by lia.
  apply wp_ret, (HQ slen sig); [done..|]. unfold rsa_exact.
  change (mp_from_ubin ([0; 1] ++ _)) with (rsa_em key (contents data)). rewrite Z.eqb_eq. split; [intros ->; split_and!; lia|by intros (_&_&->)].
Qed.
End exact.

(** C27: The RSA check is exact.  On any buffer [buf_verify] with an RSA key
    and the type rsa-sha2-256 exits unless the rest of the packet is a blob
    of that type ([rsa_blob]), and otherwise answers.  It accepts exactly when
    the length given is that of the modulus and the bytes that are left form
    a number below the modulus whose power to the public exponent is the one
    PKCS#1 v1.5 encoding of the SHA-256 hash of the data: the whole padding
    and the algorithm identifier are compared, so nothing can be smuggled
    behind a shorter padding.  The bytes left are not compared with the
    length: zeros in front of the number, or fewer bytes, are accepted. *)
Theorem rsa_verify_exact `{Sha256} {ML : MpLib} {MLaw : MpLaws ML} {EL : EccLib} {DL : Ed25519Lib}
    (key : sign_key) (k : dropbear_rsa_key) (data b : buffer) :
  rsakey key = Some k → rsa_pub_ok k → wf_buf b →
  wp (buf_verify key DROPBEAR_SIGNATURE_RSA_SHA256 data)
     (λ _, ¬ ∃ slen sig, rsa_blob b slen sig)
     (λ ok _, ∃ slen sig, rsa_blob b slen sig ∧
        (ok = true ↔
         slen = mp_ubin_size (r_n k) ∧ mp_from_ubin sig < r_n k ∧
         mp_from_ubin sig ^ r_e k mod r_n k = mp_from_ubin
           ([0; 1] ++ replicate (Z.to_nat (mp_ubin_size (r_n k) - 54)) 255 ++ [0] ++ T_sha256 ++ sha256 (contents data)))) b.
Proof.
  intros Hkey Hk Hwf.
  pose proof Hwf as ([? ?]&[? Hbl]&Hd&Hby). unfold BUF_MAX_SIZE in Hbl.
  set (name := SSH_SIGNATURE_RSA_SHA256). assert (Hname : zlen name = 12) by done.
  assert (Hno : ∀ slen sig, rsa_blob b slen sig → b_pos b + 24 ≤ b_len b ∧
    LOAD32H (slice (b_pos b + 4) 4 (b_data b)) = 12 ∧ slice (b_pos b + 8) 12 (b_data b) = name).
  { intros slen sig (l&_&_&Hat). pose proof Hat as [[Hf _] _]. rewrite !zlen_app, !STORE32H_length in Hf.
    change (zlen (enc_field _)) with 16 in Hf. pose proof (zlen_nonneg sig).
    apply sig_at_app in Hat as [_ Hat]; [|done]. rewrite STORE32H_length in Hat.
    assert (Hw1 : wf_buf (after_get 4 b)) by (apply wf_after_get; [done|lia|lia]).
    cbn [enc_field] in Hat. rewrite <-app_assoc in Hat. apply sig_at_app in Hat as [Ha1 Hat]; [|done].
    apply at_cursor_load in Ha1; [|by vm_compute]. split; [lia|]. split; [exact Ha1|].
    rewrite STORE32H_length, after_get_get in Hat. change (4 + 4) with 8 in Hat.
    apply sig_at_app in Hat as [[_ Ha2] _]; [|apply wf_after_get; [done|lia|lia]]. exact Ha2. }
  rewrite buf_verify_as. apply wp_bind, wp_buf_getint; [done|intros Hl|intros Hl (slen&sig&Hr); apply Hno in Hr; lia].
  pose proof (at_cursor_int b Hwf Hl) as Hat0. pose proof (slice_LOAD32H_ok b (b_pos b) Hwf) as Hl0.
  set (l := LOAD32H (slice (b_pos b) 4 (b_data b))) in *. assert (Hw1 : wf_buf (after_get 4 b)) by (apply wf_after_get; [done|lia|lia]).
  apply wp_bind, wp_buf_getstring; [done| |]; cbn [after_get set_pos b_pos b_len b_data].
  2: { intros Hn e (slen&sig&Hr). apply Hno in Hr as (?&Hr&_). rewrite Hr in Hn. apply Hn. by split; [lia|]. }
  intros Hfit Hn. rewrite after_get_get. replace (b_pos b + 4 + 4) with (b_pos b + 8) in * by lia.
  set (n := LOAD32H (slice (b_pos b + 4) 4 (b_data b))) in *. set (str := slice (b_pos b + 8) n (b_data b)).
  apply wp_bind, wp_exit_if; intros Hc.
  { intros (slen&sig&Hr). apply Hno in Hr as (_&Hr1&Hr2). unfold str in Hc. fold n in Hr1. by rewrite Hr1, Hr2 in Hc. }
  apply negb_false_iff, Z.eqb_eq in Hc. assert (Hstr : str = name).
  { unfold signature_type_from_name in Hc. unfold bytes_eqb in Hc. case_bool_decide; [done|].
    by apply signkey_type_not_sig in Hc. }
  assert (Hn12 : n = 12) by (rewrite <-Hname, <-Hstr; unfold str; rewrite zlen_slice; lia).
  rewrite <-Hc. apply wp_bind, wp_ret. unfold verify_as. change (DROPBEAR_SIGNKEY_RSA =? DROPBEAR_SIGNKEY_RSA) with true.
  cbv iota. rewrite Hkey. apply wp_bind, wp_ret. rewrite Hn12. change (4 + (4 + 12)) with 20.
  assert (Hw2 : wf_buf (after_get 20 b)) by (apply wf_after_get; [done|lia|lia]).
  apply wp_rsa_verify_rest; [done|done| |].
  { cbn [after_get set_pos b_pos b_len]. intros Hs e (slen&sig&Hr). apply Hno in Hr. lia. }
  intros slen sig Hsl Hsig Hat ok Hok. exists slen, sig. split; [|exact Hok]. exists l. split; [done|]. split; [done|].
  apply sig_at_join; [done|done|]. rewrite STORE32H_length. apply sig_at_join; [done| |].
  - change (enc_field _) with (STORE32H 12 ++ name). split; rewrite zlen_app, Hname, STORE32H_length;
      cbn [after_get set_pos b_pos b_len b_data]; [lia|]. rewrite slice_app_split by lia. f_equal.
    + rewrite <-Hn12. unfold n. rewrite STORE32H_LOAD32H; [done|by apply bytes_ok_slice|apply zlen_slice; lia].
    + rewrite <-Hstr. unfold str. rewrite Hn12. f_equal. lia.
  - rewrite after_get_get. change (4 + zlen _) with 20. exact Hat.
Qed.

(** An RSA key in the slot, and a blob with a signature that is too short. *)
Definition toy_rsa_key : sign_key := set_rsakey (Some (mkrsa (2 ^ 1023 + 1) 3 None None None)) new_sign_key.
Definition toy_rsa_blob : buffer :=
  buf_of (STORE32H 22 ++ enc_field (FString SSH_SIGNATURE_RSA_SHA256) ++ STORE32H 2 ++ [1; 2]).

Lemma rsa_verify_exact_witness :
  wp (buf_verify (H := toy_sha256) (ML := int_mp) (EL := toy_ecc) (DL := toy_ed25519) toy_rsa_key
        DROPBEAR_SIGNATURE_RSA_SHA256 (buf_of [5]))
     (λ _, ¬ ∃ slen sig, rsa_blob toy_rsa_blob slen sig)
     (λ ok _, ∃ slen sig, rsa_blob toy_rsa_blob slen sig ∧
        (ok = true ↔
         slen = mp_ubin_size (2 ^ 1023 + 1) ∧ mp_from_ubin sig < 2 ^ 1023 + 1 ∧
         mp_from_ubin sig ^ 3 mod (2 ^ 1023 + 1) = mp_from_ubin
           ([0; 1] ++ replicate (Z.to_nat (mp_ubin_size (2 ^ 1023 + 1) - 54)) 255 ++ [0] ++ T_sha256
              ++ sha256 (Sha256 := toy_sha256) (contents (buf_of [5]))))) toy_rsa_blob.
Proof.
  apply (rsa_verify_exact (H := toy_sha256) (MLaw := int_mp_laws) toy_rsa_key (mkrsa (2 ^ 1023 + 1) 3 None None None)).
  - reflexivity.
  - split_and!; vm_compute; congruence.
  - apply wf_buf_of; [decide_closed|by vm_compute].
Defined.
