(* ===== verification/SignAgree.v ===== *)
(** * A signature made is a signature accepted (src/src/signkey.c and the key types)

    The mathematics of signing ([rsa_unblind]: the two blindings of RSA cancel;
    [ecdsa_signed_valid]: the ECDSA equations invert each other), and what
    [buf_put_sign] writes: a blob that [buf_verify] accepts with the public
    part of the key.  Signing with RSA or ECDSA draws random numbers until
    they are in range, which no bound in the code limits: the model runs out
    of fuel there, and nowhere else ([wpf]), when every draw the fuel allows
    is out of range ([unlucky]). *)

From Stdlib Require Import ZArith Zdiv Lia.
From stdpp Require Import base list strings.
From S2P Require Import Prelude.
From S2P Require Import Buffer.
From S2P Require Import Random.
From S2P Require Import Algo.
From S2P Require Import Cipher.
From S2P Require Import KeyTypes.
From S2P Require Import Ecc.
From S2P Require Import SignKey.
From S2P Require Import SignKeyRead.
From S2P Require Import SignVerify.
From S2P Require Import KeyInstances.

(** ** Congruences *)

Lemma Zpow_eqm n x y k : eqm n x y → eqm n (x ^ k) (y ^ k).
Proof.
  intros Hxy. destruct (Z.le_gt_cases 0 k) as [Hk|Hk]; [|by rewrite !Z.pow_neg_r by lia].
  revert k Hk. apply natlike_ind; [done|]. intros k Hk IH. rewrite !Z.pow_succ_r by done. by apply Zmult_eqm.
Qed.

Lemma eqm_mod n x : eqm n (x mod n) x.
Proof. apply Zmod_eqm. Qed.

Lemma eqm_via n y x z : eqm n x y → eqm n y z → eqm n x z.
Proof. unfold eqm. congruence. Qed.

(** Blinding the base and the exponent leaves the signature alone. *)
Lemma rsa_unblind n e D em r ri :
  1 < n → 0 ≤ em < n → 0 ≤ r → 0 ≤ e → 0 ≤ D →
  (∀ x, 0 ≤ x → eqm n (x ^ (e * D)) x) → eqm n (r * ri) 1 →
  (((em * (r ^ e mod n)) mod n) ^ D mod n * ri mod n) ^ e mod n = em.
Proof.
  intros Hn Hem Hr He HD Hinv Hri. transitivity (em mod n); [|by apply Z.mod_small].
  change (eqm n ((((em * (r ^ e mod n)) mod n) ^ D mod n * ri mod n) ^ e) em).
  apply (eqm_via n (((em * r ^ e) ^ D * ri) ^ e)).
  - apply Zpow_eqm. eapply eqm_via; [apply eqm_mod|]. apply Zmult_eqm; [|done]. eapply eqm_via; [apply eqm_mod|].
    apply Zpow_eqm. eapply eqm_via; [apply eqm_mod|]. apply Zmult_eqm; [done|apply eqm_mod].
  - rewrite Z.pow_mul_l, <-Z.pow_mul_r, (Z.mul_comm D e) by lia.
    apply (eqm_via n (em * r ^ e * ri ^ e)); [apply Zmult_eqm; [apply Hinv; nia|done]|].
    replace (em * r ^ e * ri ^ e) with (em * (r * ri) ^ e) by (rewrite Z.pow_mul_l; ring).
    apply (eqm_via n (em * 1 ^ e)); [apply Zmult_eqm; [done|by apply Zpow_eqm]|]. by rewrite Z.pow_1_l, Z.mul_1_r by lia.
Qed.

(** The point ECDSA verification computes is the one signing started from. *)
Lemma ecdsa_point p e x r k ki w :
  1 < p → 0 < k < p → eqm p (k * ki) 1 → eqm p ((e + x * r) * ki * w) 1 →
  (e * w + (r * w) * x) mod p = k.
Proof.
  intros Hp Hk Hki Hw. transitivity (k mod p); [|by apply Z.mod_small; lia].
  change (eqm p (e * w + r * w * x) k).
  apply (eqm_via p ((e + x * r) * w * (k * ki))).
  - replace (e * w + r * w * x) with ((e + x * r) * w * 1) by ring. by apply Zmult_eqm.
  - replace ((e + x * r) * w * (k * ki)) with ((e + x * r) * ki * w * k) by ring.
    rewrite <-(Z.mul_1_l k) at 2. by apply Zmult_eqm.
Qed.

(** ** What signing leaves *)

(** The private keys that fit their public part. *)
Definition rsa_private_ok (k : dropbear_rsa_key) : Prop :=
  ∃ d p q, r_d k = Some d ∧ r_p k = Some p ∧ r_q k = Some q ∧ 0 ≤ d ∧ p + q ≤ r_n k + 1 ∧
    ∀ x j, 0 ≤ x → 0 ≤ j → eqm (r_n k) (x ^ (r_e k * (d + j * (r_n k + 1 - p - q)))) x.

(** *** Writing *)

Lemma puts_zeros n : puts (put_zeros n) (zeros (Z.of_nat n)).
Proof.
  induction n as [|n IH].
  { split; [apply bytes_ok_zeros|]. intros b E Q Hwf _ HQ. apply wp_ret. change (zeros _) with (@nil Z) in HQ.
    by rewrite after_put_nil in HQ. }
  replace (zeros (Z.of_nat (S n))) with ([0] ++ zeros (Z.of_nat n)) by (unfold zeros; by rewrite Nat2Z.id, Nat2Z.id).
  cbn [put_zeros]. apply puts_seq; [by apply puts_byte|done].
Qed.

Lemma mp_ubin_size_nonneg v : 0 ≤ v → 0 ≤ mp_ubin_size v.
Proof.
  intros Hv. destruct (Z.eq_dec v 0) as [->|]; [done|].
  pose proof (mp_ubin_size_bits v ltac:(lia)). pose proof (mp_count_bits_pos v ltac:(lia)). lia.
Qed.

Lemma puts_ubin v : 0 ≤ v →
  puts (let* p := buf_getwriteptr (mp_ubin_size v) in
        let* written := or_exit (mp_to_ubin v (mp_ubin_size v)) "RSA error" in
        do* mem_store p written;
        buf_incrwritepos (zlen written)) (mp_ubin_loop (Z.to_nat (mp_ubin_size v)) (Z.abs v) []).
Proof.
  intros Hv. set (w := mp_ubin_loop _ _ _).
  assert (Hl : zlen w = mp_ubin_size v).
  { unfold w. rewrite length_mp_ubin_loop, zlen_nil. pose proof (mp_ubin_size_nonneg v Hv). lia. }
  assert (Hw : mp_to_ubin v (mp_ubin_size v) = Some w) by (unfold mp_to_ubin; by rewrite Z.gtb_ltb, Z.ltb_irrefl).
  rewrite Hw, <-Hl. apply puts_bytes. apply mp_ubin_loop_bytes. constructor.
Qed.

(** *** Running out of random numbers *)

Lemma wpf_bind_run {S A B} (m : ST S A) (k : A → ST S B) E F (Q : B → S → Prop) (s : S) :
  match m s with Ok (a, s') => wpf (k a) E F Q s' | Exit e => E e | Fault w => F w end →
  wpf (let* a := m in k a) E F Q s.
Proof. unfold wpf, bind. by destruct (m s) as [[a s']|e|w]. Qed.

Section unlucky.
Context `{Sha256} {ML : MpLib} {EL : EccLib}.

(** The bytes [gen_random_mpint] asks for. *)
Definition draw_bytes (max : Z) : Z :=
  mp_count_bits max / 8 + (if negb (mp_count_bits max mod 8 =? 0) then 1 else 0).

(** [n] numbers in a row are zero or not below [max]. *)
Fixpoint draws_out (n : nat) (max : Z) (r : rng) : Prop :=
  match n with
  | O => True
  | S n => ∃ b0 rest r', genrandom (draw_bytes max) r = Ok (b0 :: rest, r') ∧
      ¬ 0 < mp_from_ubin (Z.land b0 (mask (mp_count_bits max)) :: rest) < max ∧ draws_out n max r'
  end.

(** Either blinding number of RSA. *)
Definition rsa_unlucky (n : nat) (k : dropbear_rsa_key) (r : rng) : Prop :=
  draws_out n (r_n k) r ∨
  ∃ v r', gen_random_mpint n (r_n k) r = Ok (v, r') ∧ draws_out n UINT64_MAX r'.

(** [n] nonces in a row give a signature with a zero. *)
Fixpoint ecdsa_unlucky (n : nat) (k : ecc_key) (e : Z) (r : rng) : Prop :=
  match n with
  | O => True
  | S n => let p := ecc_order (e_dp k) in
      ∃ m R r', ecc_make_key_ex (e_dp k) r = Ok (Some (m, R), r') ∧
        (R.1 mod p = 0 ∨ ∃ mi, mp_invmod m p = Some mi ∧
           mp_mulmod ((e + mp_mulmod (e_k k) (R.1 mod p) p) mod p) mi p = 0) ∧ ecdsa_unlucky n k e r'
  end.
End unlucky.

Section agree.
Context `{Sha256} {ML : MpLib} {MLaw : MpLaws ML} {EL : EccLib} {base} {ELaw : EccLaws EL base}
  {DL : Ed25519Lib} {pair} {DLaw : Ed25519Laws DL pair} (fuel : nat) (E F : string → Prop).
Implicit Types (data b : buffer) (r : rng) (s : rng * buffer).

(** [E] and [F]: how signing may end without a signature. *)
Abbreviation signs m Q s := (wpf m E F Q s).

Lemma signs_on_gen {A} (m : ST rng A) (Q : A → rng * buffer → Prop) s :
  signs m (λ a r, Q a (r, s.2)) s.1 → signs (on_gen m) Q s.
Proof. intros Hm. exact (wpf_zoom fst _ m _ _ Q s Hm). Qed.

(** [puts] code appends to the blob. *)
Lemma signs_on_buf m w acc (Q : unit → rng * buffer → Prop) s :
  puts m w → buf_acc acc s.2 → zlen acc + zlen w ≤ b_size s.2 →
  (∀ b', buf_acc (acc ++ w) b' → b_size b' = b_size s.2 → Q tt (s.1, b')) → signs (on_buf m) Q s.
Proof. intros Hm Hacc Hr HQ. apply (wpf_zoom snd), (wpf_of_wp _ E F). by eapply wp_acc. Qed.

Lemma signs_or_exit {S A} (o : option A) msg (Q : A → S → Prop) (st : S) :
  E msg → (∀ a, o = Some a → Q a st) → signs (or_exit o msg) Q st.
Proof. intros Hm HQ. destruct o; [by apply wpf_ret, HQ|done]. Qed.

Section randomised.
Context (Hrsa : E "RSA error"%string) (Hecc : E "ECC error"%string).

Lemma signs_gen_random_mpint max (Q : Z → rng → Prop) r :
  (draws_out fuel max r → F "fuel"%string) → wf_rng r → 0 < max →
  (∀ v r', wf_rng r' → 0 < v < max → gen_random_mpint fuel max r = Ok (v, r') → Q v r') →
  signs (gen_random_mpint fuel max) Q r.
Proof.
  intros HF Hr Hm HQ. enough (signs (gen_random_mpint fuel max) (λ v r', wf_rng r' ∧ 0 < v < max) r) as Hs.
  { unfold wpf in *. destruct (gen_random_mpint fuel max r) as [[v r']|e|w] eqn:Hg; [|done..]. destruct Hs. by apply HQ. }
  clear HQ. revert r HF Hr. induction fuel as [|f IH]; intros r HF Hr; [by apply HF|].
  cbn [gen_random_mpint]. cbv zeta.
  pose proof (mp_count_bits_pos max Hm) as Hpos. pose proof (Z.div_mod (mp_count_bits max) 8 ltac:(lia)).
  pose proof (Z.mod_pos_bound (mp_count_bits max) 8 ltac:(lia)).
  cbn [draws_out] in HF. fold (draw_bytes max) in *. set (len := draw_bytes max) in *.
  assert (Hlen : 0 < len) by (unfold len, draw_bytes; destruct (Z.eqb_spec (mp_count_bits max mod 8) 0); cbn [negb]; lia).
  pose proof (wp_genrandom len r (λ bs r', wf_rng r' ∧ zlen bs = len) Hr ltac:(lia) ltac:(intros; by split)) as Hg.
  apply wpf_bind_run. unfold wp in Hg. destruct (genrandom len r) as [[bs r']|e|w] eqn:Hdraw; [|done..].
  destruct Hg as [Hr' Hl]. destruct bs as [|b0 rest]; [rewrite zlen_nil in Hl; lia|].
  apply wpf_if; intros Hc; [apply wpf_ret; split; [done|lia]|]. apply IH; [|done]. intros Ho. apply HF. exists b0, rest, r'.
  split_and!; [done| |done]. lia.
Qed.

(** *** RSA *)

Lemma signs_rsa_blinded k em (Q : Z → rng * buffer → Prop) s :
  (rsa_unlucky fuel k s.1 → F "fuel"%string) → rsa_pub_ok k → rsa_private_ok k → 0 ≤ em < r_n k → wf_rng s.1 →
  (∀ v r', wf_rng r' → 0 ≤ v < r_n k → v ^ r_e k mod r_n k = em → Q v (r', s.2)) → signs (rsa_blinded fuel k em) Q s.
Proof.
  intros HF Hk (d&p&q&Hd&Hp&Hq&Hd0&Hpq&Hinv) Hem Hr HQ. pose proof (rsa_modulus k Hk) as Hn. destruct Hk as (He&_).
  unfold rsa_blinded. cbv zeta. apply wpf_bind, signs_on_gen, signs_gen_random_mpint; [intros; apply HF; by left|done|lia|]. intros v r1 Hr1 Hv Hdraw.
  apply wpf_bind, signs_or_exit; [done|]. intros re Hre. rewrite exptmod_spec in Hre by lia. injection Hre as <-.
  apply wpf_bind, signs_or_exit; [done|]. intros ri Hri. apply invmod_spec in Hri as [Hri1 Hri2]; [|lia..].
  apply wpf_bind, signs_on_gen, signs_gen_random_mpint; [intros; apply HF; right; by exists v, r1|done|done|]. intros j r2 Hr2 Hj _. cbn [fst snd].
  rewrite Hp, Hq, Hd. do 3 apply wpf_bind, wpf_ret.
  pose proof (Z.mod_pos_bound (em * (v ^ r_e k mod r_n k)) (r_n k) ltac:(lia)) as Hm.
  apply wpf_bind, signs_or_exit; [done|]. intros s' Hs'. unfold mp_mulmod in *. rewrite exptmod_spec in Hs' by nia. injection Hs' as <-.
  apply wpf_ret, HQ; [done|apply Z.mod_pos_bound; lia|].
  apply rsa_unblind; [lia..|nia| |].
  - intros x Hx. apply Hinv; lia.
  - unfold eqm. by rewrite Hri2, Z.mod_1_l by lia.
Qed.

(** Both parts of a number padded to the size of the modulus. *)
Lemma padded_eq n v : 0 ≤ v → mp_to_padded n v =
  zeros (n - mp_ubin_size v) ++ mp_ubin_loop (Z.to_nat (mp_ubin_size v)) (Z.abs v) [].
Proof. done. Qed.

Lemma signs_rsa_sign k data acc (Q : unit → rng * buffer → Prop) s :
  (rsa_unlucky fuel k s.1 → F "fuel"%string) → rsa_pub_ok k → rsa_private_ok k → wf_rng s.1 → buf_acc acc s.2 →
  zlen acc + 20 + mp_ubin_size (r_n k) ≤ b_size s.2 →
  (∀ v r' b', wf_rng r' → zlen v = mp_ubin_size (r_n k) → bytes_ok v → rsa_valid k (contents data) v = true →
     buf_acc (acc ++ sig_wire SSH_SIGNATURE_RSA_SHA256 v) b' → b_size b' = b_size s.2 → Q tt (r', b')) →
  signs (buf_put_rsa_sign fuel k DROPBEAR_SIGNATURE_RSA_SHA256 data) Q s.
Proof.
  intros HF Hk Hp Hr Hacc Hroom HQ. pose proof (rsa_size k Hk) as [[Hs1 Hs2] _]. change BUF_MAX_MPINT with 1030 in Hs2.
  set (n := mp_ubin_size (r_n k)) in *. apply wpf_bind.
  eapply (wpf_of_wp _ E F), wp_rsa_pad_em; [done|]. apply wpf_bind, signs_rsa_blinded; [done|done|done|by apply rsa_em_range|done|].
  intros v r1 Hr1 Hv Hve. apply wpf_bind. unfold signature_name_from_type. rewrite Z.eqb_refl. apply wpf_ret.
  pose proof (mp_ubin_size_nonneg v ltac:(lia)) as Hsz.
  assert (Hfit : 0 ≤ v < 2 ^ (8 * n)).
  { pose proof (mp_ubin_size_bits (r_n k) ltac:(lia)) as Hb. unfold mp_count_bits in Hb.
    destruct (Z.eqb_spec (r_n k) 0); [lia|]. rewrite Z.abs_eq in Hb by lia. fold n in Hb. split; [lia|].
    assert (r_n k < 2 ^ (8 * n)); [|lia]. eapply Z.lt_le_trans; [apply Z.log2_spec; lia|]. apply Z.pow_le_mono_r; lia. }
  pose proof (mp_ubin_size_fits n v Hfit ltac:(lia)) as Hle.
  pose proof (mp_to_padded_length n v Hfit ltac:(lia)) as Hpl.
  apply wpf_bind. eapply signs_on_buf; [apply (puts_string SSH_SIGNATURE_RSA_SHA256); [decide_closed|done]|exact Hacc| |].
  { cbn [snd]. change (zlen (STORE32H (zlen SSH_SIGNATURE_RSA_SHA256) ++ SSH_SIGNATURE_RSA_SHA256)) with 16. lia. }
  cbn [fst snd]. intros b1 H1 E1. set (w1 := STORE32H _ ++ SSH_SIGNATURE_RSA_SHA256) in H1.
  assert (Hw1 : zlen w1 = 16) by done. apply wpf_bind.
  eapply signs_on_buf; [apply (puts_int n)|exact H1|cbn [snd]; rewrite zlen_app, STORE32H_length; lia|]. cbn [fst snd]. intros b2 H2 E2.
  fold n. replace (mp_ubin_size v <=? n) with true by lia. apply wpf_bind, wpf_ret.
  apply wpf_bind. eapply signs_on_buf; [apply puts_zeros|exact H2| |].
  { cbn [snd]. rewrite !zlen_app, STORE32H_length, zlen_zeros; lia. }
  cbn [fst snd]. intros b3 H3 E3. rewrite Z2Nat.id in H3 by lia.
  eapply signs_on_buf; [apply puts_ubin; lia|exact H3| |].
  { cbn [snd]. rewrite !zlen_app, STORE32H_length, zlen_zeros, length_mp_ubin_loop, zlen_nil by lia. lia. }
  cbn [fst snd]. intros b4 H4 E4. rewrite <-!app_assoc, <-padded_eq in H4 by lia.
  apply (HQ (mp_to_padded n v)); [done|done|apply mp_to_padded_bytes| | |congruence].
  - unfold rsa_valid. fold n. rewrite Hpl, Z.eqb_refl, mp_from_to_padded by lia.
    replace (v <? r_n k) with true by lia. cbn [andb].
    pose proof (rsa_modulus k Hk). destruct Hk as (?&_). rewrite exptmod_spec by lia. lia.
  - unfold sig_wire, enc_fields. cbn [map concat enc_field]. rewrite app_nil_r, Hpl. fold w1. exact H4.
Qed.

(** *** ECDSA *)

Definition ecdsa_private_ok (k : ecc_key) : Prop :=
  0 < e_k k < ecc_order (e_dp k) ∧ e_pub k = base (e_dp k) (e_k k).

Lemma ecc_order_pos c : 1 < ecc_order c < 2 ^ 528.
Proof. destruct c; split; vm_compute; reflexivity. Qed.

(** The numbers of a signature over the hash [e]. *)
Definition ecdsa_signed (k : ecc_key) (e rr ss : Z) : Prop :=
  let p := ecc_order (e_dp k) in
  0 < rr < p ∧ 0 < ss < p ∧ ∃ n ni, 0 < n < p ∧ eqm p (n * ni) 1 ∧
    rr = (base (e_dp k) n).1 mod p ∧ eqm p ss ((e + e_k k * rr) * ni).

Lemma signs_ecdsa_sign_loop n k e (Q : Z * Z → rng → Prop) r :
  (ecdsa_unlucky n k e r → F "fuel"%string) → wf_rng r →
  (∀ rr (v : Z) r', wf_rng r' → ecdsa_signed k e rr v → Q (rr, v) r') → signs (ecdsa_sign_loop n k e) Q r.
Proof.
  intros HF Hr HQ. revert r HF Hr. induction n as [|n IH]; intros r HF Hr; [by apply HF|].
  cbn [ecdsa_sign_loop ecdsa_unlucky] in *. cbv zeta in *.
  pose proof (ecc_order_pos (e_dp k)) as [Hp _]. set (p := ecc_order (e_dp k)) in *.
  pose proof (make_key_spec (e_dp k) r Hr) as Hmk.
  apply wpf_bind_run. unfold wp in Hmk.
  destruct (ecc_make_key_ex (e_dp k) r) as [[o r1]|er|w] eqn:Hdraw; [|done..]. destruct Hmk as [Hr1 Hk].
  apply wpf_bind, signs_or_exit; [done|]. intros [m R] ->. destruct (Hk m R eq_refl) as [Hm ->]. fold p in Hm.
  pose proof (Z.mod_pos_bound (base (e_dp k) m).1 p ltac:(lia)). apply wpf_if; intros Hc.
  { apply IH; [|done]. intros Hu. apply HF. exists m, (base (e_dp k) m), r1. split; [done|]. split; [left; lia|done]. }
  apply wpf_bind, signs_or_exit; [done|]. intros mi Hmi. pose proof Hmi as Hmi'. apply invmod_spec in Hmi as [Hmi1 Hmi2]; [|lia..].
  unfold mp_mulmod in *. match goal with |- signs (if negb (?v mod p =? 0) then _ else _) _ _ => pose proof (Z.mod_pos_bound v p ltac:(lia)) end.
  apply wpf_if; intros Hc'.
  2: { apply IH; [|done]. intros Hu. apply HF. exists m, (base (e_dp k) m), r1. split; [done|]. split; [right; exists mi; split; [done|lia]|done]. }
  apply wpf_ret, HQ; [done|]. split_and!; fold p; [lia..|].
  exists m, mi. split_and!; [lia|lia|unfold eqm; by rewrite Hmi2, Z.mod_1_l by lia|done|].
  eapply eqm_via; [apply eqm_mod|]. apply Zmult_eqm; [|done]. eapply eqm_via; [apply eqm_mod|].
  apply Zplus_eqm; [done|apply eqm_mod].
Qed.

Lemma ecdsa_signed_valid k data rr (s : Z) :
  ecdsa_private_ok k → ecdsa_signed k (ecdsa_e (e_dp k) data) rr s → Z.gcd s (ecc_order (e_dp k)) = 1 →
  ecdsa_valid k (contents data) rr s = true.
Proof.
  intros (Hx&Hpub) (Hrr&Hs&n&ni&Hn&Hni&Hrn&Hsn) Hrel. unfold ecdsa_valid. cbv zeta.
  pose proof (ecc_order_pos (e_dp k)) as [Hp _]. set (p := ecc_order (e_dp k)) in *.
  replace ((0 <? rr) && (0 <? s) && (rr <? p) && (s <? p)) with true by lia. cbn [andb].
  destruct (invmod_total s p ltac:(lia) Hp Hrel) as [w Hw]. rewrite Hw. apply invmod_spec in Hw as [Hw1 Hw2]; [|lia..].
  change (mp_from_ubin (hd_fn (ecc_hash_desc (e_dp k)) (contents data))) with (ecdsa_e (e_dp k) data).
  rewrite Hpub. erewrite (mul2add_spec (e_dp k) _ _ (e_k k) n); [|done|done|].
  - fold p. rewrite <-Hrn. apply Z.eqb_refl.
  - fold p. unfold mp_mulmod.
    rewrite <-(ecdsa_point p (ecdsa_e (e_dp k) data) (e_k k) rr n ni w Hp Hn Hni).
    + rewrite Zplus_mod_idemp_l. apply Zplus_eqm; [done|]. apply Zmult_eqm; [apply eqm_mod|done].
    + apply (eqm_via p (s * w)); [apply Zmult_eqm; [by symmetry|done]|]. unfold eqm. by rewrite Hw2, Z.mod_1_l by lia.
Qed.

Lemma mpint_field_fits v n : 0 ≤ v < 2 ^ (8 * n) → 0 ≤ n ≤ 100 → field_ok (FMpint v) ∧ zlen (enc_field (FMpint v)) ≤ n + 5.
Proof.
  intros Hv Hn. rewrite mpint_field_length by lia. cbn [field_ok]. change BUF_MAX_MPINT with 1030. unfold mpint_len.
  destruct (Z.eqb_spec v 0); [lia|].
  assert (Hb : mp_count_bits v ≤ 8 * n).
  { unfold mp_count_bits. if_false. rewrite Z.abs_eq by lia. assert (Z.log2 v < 8 * n) by (apply Z.log2_lt_pow2; lia). lia. }
  pose proof (Z.div_le_mono _ _ 8 ltac:(lia) Hb). rewrite (Z.mul_comm 8), Z.div_mul in * by lia. lia.
Qed.

Lemma ecdsa_body_ok k e rr (s : Z) : ecdsa_signed k e rr s →
  field_ok (FMpint rr) ∧ field_ok (FMpint s) ∧ zlen (enc_fields [FMpint rr; FMpint s]) ≤ 142 ∧
  bytes_ok (enc_fields [FMpint rr; FMpint s]).
Proof.
  intros (Hr&Hs&_). pose proof (ecc_order_pos (e_dp k)) as [_ Hp]. change 528 with (8 * 66) in Hp.
  destruct (mpint_field_fits rr 66) as [Hf1 Hl1]; [lia..|]. destruct (mpint_field_fits s 66) as [Hf2 Hl2]; [lia..|].
  rewrite zlen_enc_fields_cons, enc_fields_1. split_and!; [done|done|lia|].
  apply bytes_ok_app. split; [by apply enc_field_bytes|]. apply bytes_ok_app. split; [by apply enc_field_bytes|constructor].
Qed.

Lemma signs_ecdsa_sign k data acc (Q : unit → rng * buffer → Prop) s :
  (ecdsa_unlucky fuel k (ecdsa_e (e_dp k) data) s.1 → F "fuel"%string) → wf_rng s.1 → buf_acc acc s.2 → zlen acc + 200 ≤ b_size s.2 →
  (∀ rr (ss : Z) r' b', wf_rng r' → ecdsa_signed k (ecdsa_e (e_dp k) data) rr ss →
     buf_acc (acc ++ sig_wire (ecdsa_ident (e_dp k)) (enc_fields [FMpint rr; FMpint ss])) b' →
     b_size b' = b_size s.2 → Q tt (r', b')) →
  signs (buf_put_ecdsa_sign fuel k data) Q s.
Proof.
  intros HF Hr Hacc Hroom HQ. unfold buf_put_ecdsa_sign. apply wpf_bind, signs_on_gen, signs_ecdsa_sign_loop; [done|done|].
  intros rr ss r1 Hr1 Hsig. destruct (ecdsa_body_ok _ _ _ _ Hsig) as (Hf1&Hf2&Hl&Hb). destruct Hf1 as [Hr0 Hr2], Hf2 as [Hs0 Hs2].
  assert (Hi : zlen (ecdsa_ident (e_dp k)) = 19) by (by destruct (e_dp k)). destruct (ident_bytes (e_dp k)) as [Hib _].
  apply wpf_bind. eapply signs_on_buf; [apply (puts_string (ecdsa_ident (e_dp k))); [done|lia]|exact Hacc| |].
  { cbn [snd]. rewrite zlen_app, STORE32H_length. lia. }
  cbn [fst snd]. intros b1 H1 E1. apply wpf_bind, (wpf_of_wp _ E F), wp_buf_new; [|by vm_compute]. intros _.
  apply wpf_bind, (wpf_of_wp _ E F). eapply puts_fresh.
  { apply puts_seq; [by apply puts_mpint|by apply puts_mpint]. }
  { change (STORE32H (mpint_len rr) ++ mpint_body rr) with (enc_field (FMpint rr)).
    change (STORE32H (mpint_len ss) ++ mpint_body ss) with (enc_field (FMpint ss)).
    rewrite zlen_enc_fields_cons, enc_fields_1 in Hl. rewrite zlen_app. unfold BUF_MAX_SIZE. lia. }
  intros sb (Hwsb&_&Hcsb) _. set (body := enc_fields [FMpint rr; FMpint ss]) in *.
  assert (Hcb : contents sb = body).
  { rewrite Hcsb. unfold body, enc_fields. cbn [map concat]. by rewrite app_nil_r. }
  unfold buf_putbufstring. fold (contents sb). rewrite Hcb.
  eapply signs_on_buf; [apply (puts_string body); [done|lia]|exact H1| |].
  { cbn [snd]. rewrite !zlen_app, !STORE32H_length. lia. }
  cbn [fst snd]. intros b2 H2 E2. apply (HQ rr ss); [done|done| |congruence].
  unfold sig_wire, enc_fields at 1. cbn [map concat enc_field]. rewrite app_nil_r. by rewrite <-app_assoc in H2.
Qed.

End randomised.

(** *** Any type of signature *)

Definition sig_name (sigtype : Z) : list Z :=
  if sigtype =? DROPBEAR_SIGNATURE_RSA_SHA256 then SSH_SIGNATURE_RSA_SHA256
  else if signkey_is_ecdsa sigtype then ecdsa_ident (curve_of_type sigtype) else SSH_SIGNKEY_ED25519.

(** A private key that fits its public part. *)
Definition signs_with (key : sign_key) (sigtype : Z) : Prop :=
  if sigtype =? DROPBEAR_SIGNATURE_RSA_SHA256 then
    ∃ k, rsakey key = Some k ∧ rsa_pub_ok k ∧ rsa_private_ok k ∧ 20 + mp_ubin_size (r_n k) ≤ MAX_PUBKEY_SIZE
  else if signkey_is_ecdsa sigtype then
    ∃ k, signkey_key_ptr key sigtype = Some k ∧ ecc_on_curve (curve_of_type sigtype) k ∧ ecdsa_private_ok k
  else sigtype = DROPBEAR_SIGNKEY_ED25519 ∧
    ∃ k, ed25519key key = Some k ∧ ed_pub_ok k ∧ pair (ed_priv k) (ed_pub k).

(** The second number of an ECDSA signature is invertible, as every number
    below a prime order is. *)
Definition regular (sigtype : Z) (body : list Z) : Prop :=
  ∀ rr ss : Z, signkey_is_ecdsa sigtype = true → body = enc_fields [FMpint rr; FMpint ss] →
    0 < ss < ecc_order (curve_of_type sigtype) → Z.gcd ss (ecc_order (curve_of_type sigtype)) = 1.

(** The order of the base point is prime, as FIPS 186-4 has it for the NIST
    curves. *)
Definition prime_order (sigtype : Z) : Prop :=
  signkey_is_ecdsa sigtype = true → Z.prime (ecc_order (curve_of_type sigtype)).

Lemma prime_regular sigtype body : prime_order sigtype → regular sigtype body.
Proof.
  intros Hp rr ss He _ Hs. rewrite Z.gcd_comm. apply Z.coprime_prime_small; [by apply Hp|lia].
Qed.

(** Every random number the fuel allows is out of range. *)
Definition unlucky (key : sign_key) (sigtype : Z) (data : buffer) (r : rng) : Prop :=
  if sigtype =? DROPBEAR_SIGNATURE_RSA_SHA256 then ∃ k, rsakey key = Some k ∧ rsa_unlucky fuel k r
  else ∃ k, signkey_is_ecdsa sigtype = true ∧ signkey_key_ptr key sigtype = Some k ∧
         ecdsa_unlucky fuel k (ecdsa_e (e_dp k) data) r.

(** Whoever has the public key accepts the signature on [m]. *)
Definition accepted (key : sign_key) (sigtype : Z) (m blob : list Z) : Prop :=
  ∀ into data b, contents data = m → wf_buf b → sig_at b (enc_field (FString blob)) →
    wp (buf_verify (with_public key (keytype_of sigtype) into) sigtype data) no_exit (λ ok _, ok = true) b.

Lemma ecdsa_sigtype sigtype : signkey_is_ecdsa sigtype = true →
  (sigtype =? DROPBEAR_SIGNATURE_RSA_SHA256) = false ∧ (sigtype =? DROPBEAR_SIGNKEY_RSA) = false ∧
  is_ecc sigtype = true ∧ signature_type_from_name (ecdsa_ident (curve_of_type sigtype)) = sigtype ∧
  sigtype < DROPBEAR_SIGNKEY_NUM_NAMED ∧ keytype_of sigtype = sigtype ∧ (sigtype <? DROPBEAR_SIGNKEY_NUM_NAMED) = true.
Proof.
  unfold signkey_is_ecdsa, DROPBEAR_SIGNKEY_ECDSA_NISTP256, DROPBEAR_SIGNKEY_ECDSA_NISTP384, DROPBEAR_SIGNKEY_ECDSA_NISTP521.
  intros Ht. assert (Hc : sigtype = 1 ∨ sigtype = 2 ∨ sigtype = 3) by lia. destruct Hc as [->|[->| ->]]; by vm_compute.
Qed.

Lemma rsa_accepted key k m v : rsakey key = Some k → rsa_pub_ok k → zlen v < 2 ^ 31 → rsa_valid k m v = true →
  accepted key DROPBEAR_SIGNATURE_RSA_SHA256 m (sig_wire SSH_SIGNATURE_RSA_SHA256 v).
Proof.
  intros Hkey Hk Hl Hv into data b <- Hwf Hat. eapply (wp_verify_wire _ _ SSH_SIGNATURE_RSA_SHA256); [by vm_compute|by left|apply short_string_ok; [decide_closed|by vm_compute]|done|exact Hat|].
  intros n b1 _ Hw1 Hat1. unfold verify_as, with_public. change (keytype_of _) with DROPBEAR_SIGNKEY_RSA. rewrite Z.eqb_refl, Hkey.
  apply wp_bind, wp_ret. eapply wp_rsa_verify_at; [exact Hk|exact Hw1|exact Hat1|exact Hv].
Qed.

Lemma ecdsa_accepted key sigtype k data rr (ss : Z) :
  signkey_is_ecdsa sigtype = true → signkey_key_ptr key sigtype = Some k → e_dp k = curve_of_type sigtype →
  ecdsa_private_ok k → ecdsa_signed k (ecdsa_e (e_dp k) data) rr ss → Z.gcd ss (ecc_order (e_dp k)) = 1 →
  accepted key sigtype (contents data) (sig_wire (ecdsa_ident (e_dp k)) (enc_fields [FMpint rr; FMpint ss])).
Proof.
  intros He Hkey Hdp Hp Hs Hrel into data' b Hd Hwf Hat.
  destruct (ecdsa_sigtype sigtype He) as (Hst1&Hst2&Hec&Hnm&Hlt&Hkt&_). destruct (ecdsa_body_ok _ _ _ _ Hs) as (Hf1&Hf2&_&_).
  eapply (wp_verify_wire _ _ (ecdsa_ident (e_dp k))); [by rewrite Hdp|by right| |done|exact Hat|].
  { destruct (ident_bytes (e_dp k)). split; [done|]. by destruct (e_dp k). }
  intros n b1 _ Hw1 Hat1. unfold verify_as, with_public. rewrite Hkt, Hst2, Hec, He, Hkey.
  destruct (ptr_set_ecckey sigtype (Some (ecc_public k)) into [] Hec) as [_ Hptr]. cbn [option_map]. rewrite Hptr.
  eapply wp_ecdsa_verify_at; [exact Hw1|exact Hf1|exact Hf2|exact Hat1|].
  transitivity (ecdsa_valid k (contents data') rr ss); [done|]. rewrite Hd. by apply ecdsa_signed_valid.
Qed.

Lemma ed25519_accepted key k m : ed25519key key = Some k → pair (ed_priv k) (ed_pub k) →
  accepted key DROPBEAR_SIGNKEY_ED25519 m (sig_wire SSH_SIGNKEY_ED25519 (dropbear_ed25519_sign m (ed_priv k) (ed_pub k))).
Proof.
  intros Hkey Hp into data b <- Hwf Hat. eapply (wp_verify_wire _ _ SSH_SIGNKEY_ED25519); [by vm_compute|by right|apply short_string_ok; [decide_closed|by vm_compute]|done|exact Hat|].
  intros n b1 _ Hw1 Hat1. unfold verify_as, with_public. change (keytype_of _) with DROPBEAR_SIGNKEY_ED25519.
  change (DROPBEAR_SIGNKEY_ED25519 =? DROPBEAR_SIGNKEY_RSA) with false. change (is_ecc DROPBEAR_SIGNKEY_ED25519) with false.
  change (signkey_is_ecdsa DROPBEAR_SIGNKEY_ED25519) with false. rewrite Z.eqb_refl, Hkey.
  apply wp_bind, wp_ret. eapply wp_ed25519_verify_at; [done|apply ed_sign_length|exact Hat1|]. by apply ed_verify_sign.
Qed.

Lemma signs_with_blob blob m (Q : buffer → rng * buffer → Prop) s :
  signs m (λ _ t, Q t.2 (t.1, s.2)) (s.1, blob) → signs (with_blob blob m) Q s.
Proof.
  unfold wpf, with_blob. by destruct (m (s.1, blob)) as [[[] [r b]]|e|w].
Qed.

(** The end of [buf_put_sign]. *)
Lemma signs_put_blob blob acc sb (Q : unit → rng * buffer → Prop) s :
  buf_acc blob sb → 0 < zlen blob ≤ MAX_PUBKEY_SIZE → buf_acc acc s.2 → zlen acc + 4 + MAX_PUBKEY_SIZE ≤ b_size s.2 →
  (∀ b', buf_acc (acc ++ enc_field (FString blob)) b' → b_size b' = b_size s.2 → Q tt (s.1, b')) →
  signs (do* exit_if (b_len sb =? 0) "Non-matching signing type"; on_buf (buf_putbufstring sb)) Q s.
Proof.
  intros Hsb Hl Hacc Hroom HQ. destruct Hsb as (Hwsb&_&Hc). pose proof (contents_length sb Hwsb) as Hcl. rewrite Hc in Hcl.
  replace (b_len sb =? 0) with false by lia. apply wpf_bind, wpf_ret.
  unfold buf_putbufstring. fold (contents sb). rewrite Hc. unfold MAX_PUBKEY_SIZE in *.
  assert (Hb : bytes_ok blob) by (rewrite <-Hc; apply bytes_ok_slice, Hwsb).
  eapply signs_on_buf; [apply (puts_string blob); [done|lia]|exact Hacc| |done].
  rewrite zlen_app, STORE32H_length. lia.
Qed.

Lemma sig_wire_length name body : zlen (sig_wire name body) = 8 + zlen name + zlen body.
Proof. unfold sig_wire. rewrite zlen_enc_fields_cons, enc_fields_1, !string_field_length. lia. Qed.

(** A signature, in a buffer with room for any. *)
Lemma signs_buf_put_sign key sigtype data acc (Q : unit → rng * buffer → Prop) s :
  (sigtype ≠ DROPBEAR_SIGNKEY_ED25519 →
     E "RSA error"%string ∧ E "ECC error"%string ∧ (unlucky key sigtype data s.1 → F "fuel"%string)) →
  signs_with key sigtype → wf_rng s.1 → buf_acc acc s.2 → zlen acc + 4 + MAX_PUBKEY_SIZE ≤ b_size s.2 →
  (∀ body r' b', wf_rng r' → zlen (sig_wire (sig_name sigtype) body) ≤ MAX_PUBKEY_SIZE →
     (regular sigtype body → accepted key sigtype (contents data) (sig_wire (sig_name sigtype) body)) →
     buf_acc (acc ++ enc_field (FString (sig_wire (sig_name sigtype) body))) b' → b_size b' = b_size s.2 → Q tt (r', b')) →
  signs (buf_put_sign fuel key sigtype data) Q s.
Proof.
  intros HE Hk Hr Hacc Hroom HQ. unfold buf_put_sign. apply wpf_bind, (wpf_of_wp _ E F), wp_buf_new; [|by vm_compute]. intros _.
  pose proof (buf_acc_new MAX_PUBKEY_SIZE ltac:(by vm_compute)) as Hnew. apply wpf_bind. unfold signkey_type_from_signature.
  unfold signs_with, sig_name in *. destruct (sigtype =? DROPBEAR_SIGNATURE_RSA_SHA256) eqn:Hrsa.
  - apply Z.eqb_eq in Hrsa as ->. destruct (HE ltac:(done)) as (HE1&HE2&HF). destruct Hk as (k&Hkey&Hok&Hp&Hsz). unfold MAX_PUBKEY_SIZE in *.
    apply wpf_ret, wpf_bind, signs_with_blob. rewrite Z.eqb_refl, Hkey. apply wpf_bind, wpf_ret.
    eapply signs_rsa_sign; [done|intros; apply HF; unfold unlucky; rewrite Z.eqb_refl; by exists k|done|done|done|exact Hnew|cbn; rewrite zlen_nil; lia|]. intros v r1 b1 Hr1 Hvl Hvb Hv H1 _. cbn [fst snd].
    assert (Hw : zlen (sig_wire SSH_SIGNATURE_RSA_SHA256 v) = 20 + zlen v) by apply sig_wire_length.
    pose proof (zlen_nonneg v).
    eapply signs_put_blob; [exact H1|cbn [app]; unfold MAX_PUBKEY_SIZE; lia|exact Hacc|unfold MAX_PUBKEY_SIZE; cbn [snd]; lia|].
    intros b2 H2 E2. apply (HQ v); [done|lia| |done|done]. intros _. apply (rsa_accepted key k); [done|done|lia|done].
  - destruct (signkey_is_ecdsa sigtype) eqn:Hec.
    + destruct HE as (HE1&HE2&HF); [by intros ->|]. destruct Hk as (k&Hkey&[Hdp Hok]&Hp). destruct (ecdsa_sigtype sigtype Hec) as (_&Hst2&_&_&_&_&Hlt). rewrite Hlt.
      apply wpf_bind, wpf_ret, wpf_ret, wpf_bind, signs_with_blob. rewrite Hst2, Hec, Hkey.
      eapply signs_ecdsa_sign; [done|intros; apply HF; unfold unlucky; rewrite Hrsa; by exists k|done|exact Hnew|by vm_compute|]. intros rr ss r1 b1 Hr1 Hs H1 _. cbn [fst snd].
      pose proof Hs as (_&Hss&_).
      destruct (ecdsa_body_ok _ _ _ _ Hs) as (_&_&Hl&_). assert (Hi : zlen (ecdsa_ident (e_dp k)) = 19) by (by destruct (e_dp k)).
      pose proof (sig_wire_length (ecdsa_ident (e_dp k)) (enc_fields [FMpint rr; FMpint ss])) as Hw. rewrite Hi in Hw.
      pose proof (zlen_nonneg (enc_fields [FMpint rr; FMpint ss])).
      eapply signs_put_blob; [exact H1|cbn [app]; unfold MAX_PUBKEY_SIZE; lia|exact Hacc|cbn [snd]; lia|]. intros b2 H2 E2. rewrite <-Hdp in *.
      apply (HQ (enc_fields [FMpint rr; FMpint ss])); [done|unfold MAX_PUBKEY_SIZE; lia| |done|done].
      intros Hreg. apply ecdsa_accepted; [done|done|done|done|done|]. rewrite Hdp. by eapply Hreg; [..|rewrite <-Hdp].
    + destruct Hk as (->&k&Hkey&[Hpl Hpb]&Hp). apply wpf_bind, wpf_ret, wpf_ret, wpf_bind, signs_with_blob.
      change (DROPBEAR_SIGNKEY_ED25519 =? DROPBEAR_SIGNKEY_RSA) with false. rewrite Hec, Z.eqb_refl, Hkey.
      apply wpf_bind, wpf_ret. change (buf_bytes data) with (contents data). unfold buf_put_ed25519_sign. change (buf_bytes data) with (contents data).
      set (sig := dropbear_ed25519_sign _ _ _). assert (Hsl : zlen sig = 64) by apply ed_sign_length.
      assert (Hsb : bytes_ok sig) by apply ed_sign_bytes.
      eapply signs_on_buf; [apply puts_seq; [apply (puts_string SSH_SIGNKEY_ED25519); [decide_closed|done]|apply (puts_string sig); [done|lia]]
        |exact Hnew| |].
      { cbn [snd b_size]. rewrite zlen_nil, !zlen_app, !STORE32H_length, Hsl. by vm_compute. }
      cbn [fst snd]. intros b1 H1 _.
      assert (Hw : zlen (sig_wire SSH_SIGNKEY_ED25519 sig) = 83) by (rewrite sig_wire_length, Hsl; done).
      eapply (signs_put_blob (sig_wire SSH_SIGNKEY_ED25519 sig)); [|rewrite Hw; by vm_compute|exact Hacc|done|].
      { unfold sig_wire, enc_fields. cbn [map concat enc_field]. rewrite app_nil_r. exact H1. }
      intros b2 H2 E2. apply (HQ sig); [done|rewrite Hw; by vm_compute| |done|done]. intros _. by apply ed25519_accepted.
Qed.
End agree.

(** C26: A signature made is a signature accepted.  With a private key that
    fits its public part, [buf_put_sign] appends a signature blob to the
    buffer, and [buf_verify] with the public part of the key accepts that blob
    on the same data, wherever it is the rest of a packet: the blindings of
    RSA cancel, the ECDSA equations invert each other.  For ECDSA this takes
    that the order of the curve is prime, as it is for the NIST curves.  The
    only other outcomes are a library error (of RSA or ECDSA arithmetic) and,
    in the model, the fuel of the loops on random numbers, which runs out only
    in the case of [unlucky]: each of the numbers the fuel allows was
    out of range.  With Ed25519 there is no other outcome. *)
Theorem sign_then_verify `{Sha256} {ML : MpLib} {MLaw : MpLaws ML} {EL : EccLib} {base} {ELaw : EccLaws EL base}
    {DL : Ed25519Lib} {pair} {DLaw : Ed25519Laws DL pair}
    (fuel : nat) (key : sign_key) (sigtype : Z) (data : buffer) (acc : list Z) (r : rng) (b : buffer) :
  signs_with (base := base) (pair := pair) key sigtype → prime_order sigtype →
  wf_rng r → buf_acc acc b → zlen acc + 4 + MAX_PUBKEY_SIZE ≤ b_size b →
  match buf_put_sign fuel key sigtype data (r, b) with
  | Ok (_, (r', b')) =>
      ∃ body, let blob := sig_wire (sig_name sigtype) body in
        buf_acc (acc ++ enc_field (FString blob)) b' ∧ accepted key sigtype (contents data) blob
  | Exit e => sigtype ≠ DROPBEAR_SIGNKEY_ED25519 ∧ (e = "RSA error" ∨ e = "ECC error")%string
  | Fault w => sigtype ≠ DROPBEAR_SIGNKEY_ED25519 ∧ unlucky fuel key sigtype data r
  end.
Proof.
  intros Hk Hprime Hr Hacc Hroom.
  assert (Hs : wpf (buf_put_sign fuel key sigtype data)
    (λ e, sigtype ≠ DROPBEAR_SIGNKEY_ED25519 ∧ (e = "RSA error" ∨ e = "ECC error")%string)
    (λ w, sigtype ≠ DROPBEAR_SIGNKEY_ED25519 ∧ unlucky fuel key sigtype data r)
    (λ _ s', ∃ body, let blob := sig_wire (sig_name sigtype) body in
        buf_acc (acc ++ enc_field (FString blob)) s'.2 ∧ accepted key sigtype (contents data) blob) (r, b)).
  { eapply signs_buf_put_sign; [|exact Hk|exact Hr|exact Hacc|exact Hroom|].
    - intros Hne. split_and!; [done|by left|done|by right|done].
    - intros body r' b' _ _ Hreg Hb _. exists body. split; [done|]. by apply Hreg, prime_regular. }
  unfold wpf in Hs. by destruct (buf_put_sign fuel key sigtype data (r, b)) as [[u [r' b']]|e|w].
Qed.

(** A key of the stand-in for Ed25519. *)
Definition toy_ed_key : sign_key :=
  set_ed25519key (Some (mked (replicate 32 7) (replicate 32 9))) new_sign_key.

Lemma sign_then_verify_witness :
  match buf_put_sign (ML := int_mp) (EL := toy_ecc) (DL := toy_ed25519) (H := toy_sha256) 1 toy_ed_key
          DROPBEAR_SIGNKEY_ED25519 (buf_of [1; 2; 3]) (mkrng [1; 2] 5 true [], mkbuf (zeros 700) 0 0 700) with
  | Ok (_, (r', b')) =>
      ∃ body, let blob := sig_wire (sig_name DROPBEAR_SIGNKEY_ED25519) body in
        buf_acc ([] ++ enc_field (FString blob)) b' ∧
        accepted (H := toy_sha256) (ML := int_mp) (EL := toy_ecc) (DL := toy_ed25519) toy_ed_key
          DROPBEAR_SIGNKEY_ED25519 (contents (buf_of [1; 2; 3])) blob
  | Exit e => DROPBEAR_SIGNKEY_ED25519 ≠ DROPBEAR_SIGNKEY_ED25519 ∧ (e = "RSA error" ∨ e = "ECC error")%string
  | Fault w => DROPBEAR_SIGNKEY_ED25519 ≠ DROPBEAR_SIGNKEY_ED25519 ∧
      unlucky (H := toy_sha256) (ML := int_mp) (EL := toy_ecc) 1 toy_ed_key DROPBEAR_SIGNKEY_ED25519 (buf_of [1; 2; 3])
        (mkrng [1; 2] 5 true [])
  end.
Proof.
  apply (sign_then_verify (H := toy_sha256) (MLaw := int_mp_laws) (ELaw := toy_ecc_laws) (DLaw := toy_ed25519_laws)).
  - split; [done|]. eexists. split; [done|]. split; [|done]. split; [done|]. by apply Forall_replicate.
  - done.
  - split; [done|]. unfold MAX_COUNTER. cbn. lia.
  - by apply buf_acc_new.
  - by vm_compute.
Defined.
