(* ===== verification/Session.v ===== *)
(** * The session state (src/src/session.h, src/src/kex.h)

    [struct sshsession] with the fields the transport layer works on, grouped
    into records: the packet buffers and flags ([pktstate]), the key exchange
    state ([KEXState]), its temporaries ([kexdata]), and the world the
    process runs in (socket, clock, random generator).  Pointers that may be
    [NULL] are options; dereferencing a null one is a [Fault].

    The cipher state and the zlib stream belong to libraries: [CryptoLib]
    holds their types and the operations the code calls on them. *)

From Stdlib Require Import ZArith Lia.
From stdpp Require Import base list strings.
From S2P Require Import Prelude.
From S2P Require Import Buffer.
From S2P Require Import Queue.
From S2P Require Import Random.
From S2P Require Import Algo.
From S2P Require Import Cipher.
From S2P Require Import Ecc.

Definition Z_OK : Z := 0.
Definition Z_STREAM_ERROR : Z := -2.

(** The libraries: libtomcrypt's HMAC and lookups, and zlib.  [inflate] and
    [deflate] take the stream, the input and [avail_out], and return the
    result code, the stream, the output and what is left of [avail_in]. *)
Class CryptoLib := {
  CS : Type;
  cs_zero : CS;            (* the union as zeroed memory *)
  ZS : Type;
  lib_sha256 :: Sha256;
  (* hash_index, key, message; None for anything but CRYPT_OK *)
  hmac : Z → list Z → list Z → option (list Z);
  find_cipher : list Z → Z;
  find_hash : list Z → Z;
  inflate : ZS → list Z → Z → Z * ZS * list Z * Z;
  deflate : ZS → list Z → Z → Z * ZS * list Z * Z;
  inflateInit : option ZS;
  deflateInit2 : option ZS;
  inflateEnd : ZS → Z;
  deflateEnd : ZS → Z;
  (* the indeterminate contents of memory [realloc] adds *)
  indet : Z → Z
}.

(** What a [read] call on the socket will find. *)
Inductive read_event :=
| RData (bs : list Z)    (* that many bytes are available; none: end of file *)
| RAgain                 (* EINTR or EAGAIN *)
| RError.

(** What a [writev] call will do. *)
Inductive write_event :=
| WDone (n : Z)          (* writes that many bytes, as far as there are any *)
| WAgain
| WError.

(** Message numbers (src/src/ssh.h) *)
Definition SSH_MSG_DISCONNECT : Z := 1.
Definition SSH_MSG_IGNORE : Z := 2.
Definition SSH_MSG_UNIMPLEMENTED : Z := 3.
Definition SSH_MSG_DEBUG : Z := 4.
Definition SSH_MSG_SERVICE_REQUEST : Z := 5.
Definition SSH_MSG_SERVICE_ACCEPT : Z := 6.
Definition SSH_MSG_KEXINIT : Z := 20.
Definition SSH_MSG_NEWKEYS : Z := 21.
Definition SSH_MSG_KEXDH_INIT : Z := 30.
Definition SSH_MSG_KEXDH_REPLY : Z := 31.
Definition SSH_MSG_USERAUTH_REQUEST : Z := 50.
Definition SSH_MSG_USERAUTH_PK_OK : Z := 60.
Definition SSH_MSG_GLOBAL_REQUEST : Z := 80.
Definition SSH_MSG_REQUEST_FAILURE : Z := 82.
Definition SSH_MSG_CHANNEL_FAILURE : Z := 100.

Definition DROPBEAR_COMP_NONE : Z := 0.
Definition DROPBEAR_COMP_ZLIB : Z := 1.
Definition DROPBEAR_COMP_ZLIB_DELAY : Z := 2.

(** [struct dropbear_kem_desc]: a key encapsulation, whose routines draw on
    the generator. *)
Record dropbear_kem_desc := mkkem {
  public_len : Z;
  secret_len : Z;
  ciphertext_len : Z;
  output_len : Z;
  kem_gen : ST rng (list Z * list Z);              (* pk, sk *)
  kem_enc : list Z → ST rng (list Z * list Z);     (* pk; c, k *)
  kem_dec : list Z → list Z → list Z               (* c, sk; k *)
}.

(** [enum dropbear_kex_mode] *)
Inductive dropbear_kex_mode :=
  DROPBEAR_KEX_NORMAL_DH | DROPBEAR_KEX_ECDH | DROPBEAR_KEX_CURVE25519 | DROPBEAR_KEX_PQHYBRID.

(** What the [void *details] of a method point to. *)
Inductive kex_details := NoDetails | CurveDetails (c : ecc_curve) | KemDetails (k : dropbear_kem_desc).

(** [struct dropbear_kex]; the prime is the array with its length. *)
Record dropbear_kex := mkkex {
  k_mode : dropbear_kex_mode;
  dh_p_bytes : list Z;
  details : kex_details;
  k_hash_desc : ltc_hash_descriptor
}.

(** [struct KEXState] *)
Record KEXState := mkkexstate {
  sentkexinit : bool;
  recvkexinit : bool;
  them_firstfollows : bool;
  sentnewkeys : bool;
  recvnewkeys : bool;
  donefirstkex : bool;
  donesecondkex : bool;
  recvfirstnewkeys : bool;
  our_first_follows_matches : bool;
  strict_kex : bool;
  lastkextime : Z;
  needrekey : bool;
  datatrans : Z;
  datarecv : Z
}.

Definition set_sentkexinit (v : bool) (s : KEXState) : KEXState :=
  mkkexstate v (recvkexinit s) (them_firstfollows s) (sentnewkeys s) (recvnewkeys s) (donefirstkex s) (donesecondkex s) (recvfirstnewkeys s) (our_first_follows_matches s) (strict_kex s) (lastkextime s) (needrekey s) (datatrans s) (datarecv s).
Definition set_recvkexinit (v : bool) (s : KEXState) : KEXState :=
  mkkexstate (sentkexinit s) v (them_firstfollows s) (sentnewkeys s) (recvnewkeys s) (donefirstkex s) (donesecondkex s) (recvfirstnewkeys s) (our_first_follows_matches s) (strict_kex s) (lastkextime s) (needrekey s) (datatrans s) (datarecv s).
Definition set_them_firstfollows (v : bool) (s : KEXState) : KEXState :=
  mkkexstate (sentkexinit s) (recvkexinit s) v (sentnewkeys s) (recvnewkeys s) (donefirstkex s) (donesecondkex s) (recvfirstnewkeys s) (our_first_follows_matches s) (strict_kex s) (lastkextime s) (needrekey s) (datatrans s) (datarecv s).
Definition set_sentnewkeys (v : bool) (s : KEXState) : KEXState :=
  mkkexstate (sentkexinit s) (recvkexinit s) (them_firstfollows s) v (recvnewkeys s) (donefirstkex s) (donesecondkex s) (recvfirstnewkeys s) (our_first_follows_matches s) (strict_kex s) (lastkextime s) (needrekey s) (datatrans s) (datarecv s).
Definition set_recvnewkeys (v : bool) (s : KEXState) : KEXState :=
  mkkexstate (sentkexinit s) (recvkexinit s) (them_firstfollows s) (sentnewkeys s) v (donefirstkex s) (donesecondkex s) (recvfirstnewkeys s) (our_first_follows_matches s) (strict_kex s) (lastkextime s) (needrekey s) (datatrans s) (datarecv s).
Definition set_donefirstkex (v : bool) (s : KEXState) : KEXState :=
  mkkexstate (sentkexinit s) (recvkexinit s) (them_firstfollows s) (sentnewkeys s) (recvnewkeys s) v (donesecondkex s) (recvfirstnewkeys s) (our_first_follows_matches s) (strict_kex s) (lastkextime s) (needrekey s) (datatrans s) (datarecv s).
Definition set_donesecondkex (v : bool) (s : KEXState) : KEXState :=
  mkkexstate (sentkexinit s) (recvkexinit s) (them_firstfollows s) (sentnewkeys s) (recvnewkeys s) (donefirstkex s) v (recvfirstnewkeys s) (our_first_follows_matches s) (strict_kex s) (lastkextime s) (needrekey s) (datatrans s) (datarecv s).
Definition set_recvfirstnewkeys (v : bool) (s : KEXState) : KEXState :=
  mkkexstate (sentkexinit s) (recvkexinit s) (them_firstfollows s) (sentnewkeys s) (recvnewkeys s) (donefirstkex s) (donesecondkex s) v (our_first_follows_matches s) (strict_kex s) (lastkextime s) (needrekey s) (datatrans s) (datarecv s).
Definition set_our_first_follows_matches (v : bool) (s : KEXState) : KEXState :=
  mkkexstate (sentkexinit s) (recvkexinit s) (them_firstfollows s) (sentnewkeys s) (recvnewkeys s) (donefirstkex s) (donesecondkex s) (recvfirstnewkeys s) v (strict_kex s) (lastkextime s) (needrekey s) (datatrans s) (datarecv s).
Definition set_strict_kex (v : bool) (s : KEXState) : KEXState :=
  mkkexstate (sentkexinit s) (recvkexinit s) (them_firstfollows s) (sentnewkeys s) (recvnewkeys s) (donefirstkex s) (donesecondkex s) (recvfirstnewkeys s) (our_first_follows_matches s) v (lastkextime s) (needrekey s) (datatrans s) (datarecv s).
Definition set_lastkextime (v : Z) (s : KEXState) : KEXState :=
  mkkexstate (sentkexinit s) (recvkexinit s) (them_firstfollows s) (sentnewkeys s) (recvnewkeys s) (donefirstkex s) (donesecondkex s) (recvfirstnewkeys s) (our_first_follows_matches s) (strict_kex s) v (needrekey s) (datatrans s) (datarecv s).
Definition set_needrekey (v : bool) (s : KEXState) : KEXState :=
  mkkexstate (sentkexinit s) (recvkexinit s) (them_firstfollows s) (sentnewkeys s) (recvnewkeys s) (donefirstkex s) (donesecondkex s) (recvfirstnewkeys s) (our_first_follows_matches s) (strict_kex s) (lastkextime s) v (datatrans s) (datarecv s).
Definition set_datatrans (v : Z) (s : KEXState) : KEXState :=
  mkkexstate (sentkexinit s) (recvkexinit s) (them_firstfollows s) (sentnewkeys s) (recvnewkeys s) (donefirstkex s) (donesecondkex s) (recvfirstnewkeys s) (our_first_follows_matches s) (strict_kex s) (lastkextime s) (needrekey s) v (datarecv s).
Definition set_datarecv (v : Z) (s : KEXState) : KEXState :=
  mkkexstate (sentkexinit s) (recvkexinit s) (them_firstfollows s) (sentnewkeys s) (recvnewkeys s) (donefirstkex s) (donesecondkex s) (recvfirstnewkeys s) (our_first_follows_matches s) (strict_kex s) (lastkextime s) (needrekey s) (datatrans s) v.

Section session.
Context {CL : CryptoLib}.

(** [struct key_context_directional] *)
Record key_context_directional := mkkeydir {
  algo_crypt : option dropbear_cipher;
  crypt_mode : option (dropbear_cipher_mode CS);
  algo_mac : option dropbear_hash;
  hash_index : Z;
  algo_comp : Z;
  zstream : option ZS;
  cipher_state : CS;
  mackey : list Z;
  valid : bool
}.

Definition set_algo_crypt (v : option dropbear_cipher) (s : key_context_directional) : key_context_directional :=
  mkkeydir v (crypt_mode s) (algo_mac s) (hash_index s) (algo_comp s) (zstream s) (cipher_state s) (mackey s) (valid s).
Definition set_crypt_mode (v : option (dropbear_cipher_mode CS)) (s : key_context_directional) : key_context_directional :=
  mkkeydir (algo_crypt s) v (algo_mac s) (hash_index s) (algo_comp s) (zstream s) (cipher_state s) (mackey s) (valid s).
Definition set_algo_mac (v : option dropbear_hash) (s : key_context_directional) : key_context_directional :=
  mkkeydir (algo_crypt s) (crypt_mode s) v (hash_index s) (algo_comp s) (zstream s) (cipher_state s) (mackey s) (valid s).
Definition set_hash_index (v : Z) (s : key_context_directional) : key_context_directional :=
  mkkeydir (algo_crypt s) (crypt_mode s) (algo_mac s) v (algo_comp s) (zstream s) (cipher_state s) (mackey s) (valid s).
Definition set_algo_comp (v : Z) (s : key_context_directional) : key_context_directional :=
  mkkeydir (algo_crypt s) (crypt_mode s) (algo_mac s) (hash_index s) v (zstream s) (cipher_state s) (mackey s) (valid s).
Definition set_zstream (v : option ZS) (s : key_context_directional) : key_context_directional :=
  mkkeydir (algo_crypt s) (crypt_mode s) (algo_mac s) (hash_index s) (algo_comp s) v (cipher_state s) (mackey s) (valid s).
Definition set_cipher_state (v : CS) (s : key_context_directional) : key_context_directional :=
  mkkeydir (algo_crypt s) (crypt_mode s) (algo_mac s) (hash_index s) (algo_comp s) (zstream s) v (mackey s) (valid s).
Definition set_mackey (v : list Z) (s : key_context_directional) : key_context_directional :=
  mkkeydir (algo_crypt s) (crypt_mode s) (algo_mac s) (hash_index s) (algo_comp s) (zstream s) (cipher_state s) v (valid s).
Definition set_valid (v : bool) (s : key_context_directional) : key_context_directional :=
  mkkeydir (algo_crypt s) (crypt_mode s) (algo_mac s) (hash_index s) (algo_comp s) (zstream s) (cipher_state s) (mackey s) v.

(** [struct key_context] *)
Record key_context := mkkeys {
  k_recv : key_context_directional;
  k_trans : key_context_directional;
  algo_kex : option dropbear_kex;
  algo_hostkey : Z;
  algo_signature : Z;
  allow_compress : Z
}.

Definition set_k_recv (v : key_context_directional) (s : key_context) : key_context :=
  mkkeys v (k_trans s) (algo_kex s) (algo_hostkey s) (algo_signature s) (allow_compress s).
Definition set_k_trans (v : key_context_directional) (s : key_context) : key_context :=
  mkkeys (k_recv s) v (algo_kex s) (algo_hostkey s) (algo_signature s) (allow_compress s).
Definition set_algo_kex (v : option dropbear_kex) (s : key_context) : key_context :=
  mkkeys (k_recv s) (k_trans s) v (algo_hostkey s) (algo_signature s) (allow_compress s).
Definition set_algo_hostkey (v : Z) (s : key_context) : key_context :=
  mkkeys (k_recv s) (k_trans s) (algo_kex s) v (algo_signature s) (allow_compress s).
Definition set_algo_signature (v : Z) (s : key_context) : key_context :=
  mkkeys (k_recv s) (k_trans s) (algo_kex s) (algo_hostkey s) v (allow_compress s).
Definition set_allow_compress (v : Z) (s : key_context) : key_context :=
  mkkeys (k_recv s) (k_trans s) (algo_kex s) (algo_hostkey s) (algo_signature s) v.

(** A [m_malloc]ed, hence zeroed, context. *)
Definition MAX_MAC_LEN : Z := 32.
Definition keydir_zero : key_context_directional :=
  mkkeydir None None None 0 0 None cs_zero (zeros MAX_MAC_LEN) false.
Definition keys_zero : key_context := mkkeys keydir_zero keydir_zero None 0 0 0.

(** Packet buffers, sequence numbers and packet handling flags. The reply
    queue ([reply_queue_head]/[_tail], a linked list that is only appended to
    and emptied) is the list of its payloads. *)
Record pktstate := mkpkt {
  writepayload : buffer;
  writequeue : Queue buffer;
  writequeue_len : Z;
  readbuf : option buffer;
  payload : option buffer;
  payload_beginning : Z;
  transseq : Z;
  recvseq : Z;
  dataallowed : bool;
  requirenext : Z;
  ignorenext : bool;
  lastpacket : Z;
  reply_queue : list buffer;
  last_packet_time_keepalive_sent : Z;
  last_packet_time_keepalive_recv : Z;
  last_packet_time_any_sent : Z;
  last_packet_time_idle : Z
}.

Definition set_writepayload (v : buffer) (s : pktstate) : pktstate :=
  mkpkt v (writequeue s) (writequeue_len s) (readbuf s) (payload s) (payload_beginning s) (transseq s) (recvseq s) (dataallowed s) (requirenext s) (ignorenext s) (lastpacket s) (reply_queue s) (last_packet_time_keepalive_sent s) (last_packet_time_keepalive_recv s) (last_packet_time_any_sent s) (last_packet_time_idle s).
Definition set_writequeue (v : Queue buffer) (s : pktstate) : pktstate :=
  mkpkt (writepayload s) v (writequeue_len s) (readbuf s) (payload s) (payload_beginning s) (transseq s) (recvseq s) (dataallowed s) (requirenext s) (ignorenext s) (lastpacket s) (reply_queue s) (last_packet_time_keepalive_sent s) (last_packet_time_keepalive_recv s) (last_packet_time_any_sent s) (last_packet_time_idle s).
Definition set_writequeue_len (v : Z) (s : pktstate) : pktstate :=
  mkpkt (writepayload s) (writequeue s) v (readbuf s) (payload s) (payload_beginning s) (transseq s) (recvseq s) (dataallowed s) (requirenext s) (ignorenext s) (lastpacket s) (reply_queue s) (last_packet_time_keepalive_sent s) (last_packet_time_keepalive_recv s) (last_packet_time_any_sent s) (last_packet_time_idle s).
Definition set_readbuf (v : option buffer) (s : pktstate) : pktstate :=
  mkpkt (writepayload s) (writequeue s) (writequeue_len s) v (payload s) (payload_beginning s) (transseq s) (recvseq s) (dataallowed s) (requirenext s) (ignorenext s) (lastpacket s) (reply_queue s) (last_packet_time_keepalive_sent s) (last_packet_time_keepalive_recv s) (last_packet_time_any_sent s) (last_packet_time_idle s).
Definition set_payload (v : option buffer) (s : pktstate) : pktstate :=
  mkpkt (writepayload s) (writequeue s) (writequeue_len s) (readbuf s) v (payload_beginning s) (transseq s) (recvseq s) (dataallowed s) (requirenext s) (ignorenext s) (lastpacket s) (reply_queue s) (last_packet_time_keepalive_sent s) (last_packet_time_keepalive_recv s) (last_packet_time_any_sent s) (last_packet_time_idle s).
Definition set_payload_beginning (v : Z) (s : pktstate) : pktstate :=
  mkpkt (writepayload s) (writequeue s) (writequeue_len s) (readbuf s) (payload s) v (transseq s) (recvseq s) (dataallowed s) (requirenext s) (ignorenext s) (lastpacket s) (reply_queue s) (last_packet_time_keepalive_sent s) (last_packet_time_keepalive_recv s) (last_packet_time_any_sent s) (last_packet_time_idle s).
Definition set_transseq (v : Z) (s : pktstate) : pktstate :=
  mkpkt (writepayload s) (writequeue s) (writequeue_len s) (readbuf s) (payload s) (payload_beginning s) v (recvseq s) (dataallowed s) (requirenext s) (ignorenext s) (lastpacket s) (reply_queue s) (last_packet_time_keepalive_sent s) (last_packet_time_keepalive_recv s) (last_packet_time_any_sent s) (last_packet_time_idle s).
Definition set_recvseq (v : Z) (s : pktstate) : pktstate :=
  mkpkt (writepayload s) (writequeue s) (writequeue_len s) (readbuf s) (payload s) (payload_beginning s) (transseq s) v (dataallowed s) (requirenext s) (ignorenext s) (lastpacket s) (reply_queue s) (last_packet_time_keepalive_sent s) (last_packet_time_keepalive_recv s) (last_packet_time_any_sent s) (last_packet_time_idle s).
Definition set_dataallowed (v : bool) (s : pktstate) : pktstate :=
  mkpkt (writepayload s) (writequeue s) (writequeue_len s) (readbuf s) (payload s) (payload_beginning s) (transseq s) (recvseq s) v (requirenext s) (ignorenext s) (lastpacket s) (reply_queue s) (last_packet_time_keepalive_sent s) (last_packet_time_keepalive_recv s) (last_packet_time_any_sent s) (last_packet_time_idle s).
Definition set_requirenext (v : Z) (s : pktstate) : pktstate :=
  mkpkt (writepayload s) (writequeue s) (writequeue_len s) (readbuf s) (payload s) (payload_beginning s) (transseq s) (recvseq s) (dataallowed s) v (ignorenext s) (lastpacket s) (reply_queue s) (last_packet_time_keepalive_sent s) (last_packet_time_keepalive_recv s) (last_packet_time_any_sent s) (last_packet_time_idle s).
Definition set_ignorenext (v : bool) (s : pktstate) : pktstate :=
  mkpkt (writepayload s) (writequeue s) (writequeue_len s) (readbuf s) (payload s) (payload_beginning s) (transseq s) (recvseq s) (dataallowed s) (requirenext s) v (lastpacket s) (reply_queue s) (last_packet_time_keepalive_sent s) (last_packet_time_keepalive_recv s) (last_packet_time_any_sent s) (last_packet_time_idle s).
Definition set_lastpacket (v : Z) (s : pktstate) : pktstate :=
  mkpkt (writepayload s) (writequeue s) (writequeue_len s) (readbuf s) (payload s) (payload_beginning s) (transseq s) (recvseq s) (dataallowed s) (requirenext s) (ignorenext s) v (reply_queue s) (last_packet_time_keepalive_sent s) (last_packet_time_keepalive_recv s) (last_packet_time_any_sent s) (last_packet_time_idle s).
Definition set_reply_queue (v : list buffer) (s : pktstate) : pktstate :=
  mkpkt (writepayload s) (writequeue s) (writequeue_len s) (readbuf s) (payload s) (payload_beginning s) (transseq s) (recvseq s) (dataallowed s) (requirenext s) (ignorenext s) (lastpacket s) v (last_packet_time_keepalive_sent s) (last_packet_time_keepalive_recv s) (last_packet_time_any_sent s) (last_packet_time_idle s).
Definition set_last_packet_time_keepalive_sent (v : Z) (s : pktstate) : pktstate :=
  mkpkt (writepayload s) (writequeue s) (writequeue_len s) (readbuf s) (payload s) (payload_beginning s) (transseq s) (recvseq s) (dataallowed s) (requirenext s) (ignorenext s) (lastpacket s) (reply_queue s) v (last_packet_time_keepalive_recv s) (last_packet_time_any_sent s) (last_packet_time_idle s).
Definition set_last_packet_time_keepalive_recv (v : Z) (s : pktstate) : pktstate :=
  mkpkt (writepayload s) (writequeue s) (writequeue_len s) (readbuf s) (payload s) (payload_beginning s) (transseq s) (recvseq s) (dataallowed s) (requirenext s) (ignorenext s) (lastpacket s) (reply_queue s) (last_packet_time_keepalive_sent s) v (last_packet_time_any_sent s) (last_packet_time_idle s).
Definition set_last_packet_time_any_sent (v : Z) (s : pktstate) : pktstate :=
  mkpkt (writepayload s) (writequeue s) (writequeue_len s) (readbuf s) (payload s) (payload_beginning s) (transseq s) (recvseq s) (dataallowed s) (requirenext s) (ignorenext s) (lastpacket s) (reply_queue s) (last_packet_time_keepalive_sent s) (last_packet_time_keepalive_recv s) v (last_packet_time_idle s).
Definition set_last_packet_time_idle (v : Z) (s : pktstate) : pktstate :=
  mkpkt (writepayload s) (writequeue s) (writequeue_len s) (readbuf s) (payload s) (payload_beginning s) (transseq s) (recvseq s) (dataallowed s) (requirenext s) (ignorenext s) (lastpacket s) (reply_queue s) (last_packet_time_keepalive_sent s) (last_packet_time_keepalive_recv s) (last_packet_time_any_sent s) v.

(** Temporaries of the key exchange and what is negotiated once. *)
Record kexdata := mkkexdata {
  session_id : option buffer;
  dh_K : option Z;
  dh_K_bytes : option buffer;
  hash : option buffer;
  kexhashbuf : option buffer;
  transkexinit : option buffer;
  compress_algos_c2s : list (algo_type unit unit);
  compress_algos_s2c : list (algo_type unit unit);
  allow_ext_info : bool;
  remoteident : list Z
}.

Definition set_session_id (v : option buffer) (s : kexdata) : kexdata :=
  mkkexdata v (dh_K s) (dh_K_bytes s) (hash s) (kexhashbuf s) (transkexinit s) (compress_algos_c2s s) (compress_algos_s2c s) (allow_ext_info s) (remoteident s).
Definition set_dh_K (v : option Z) (s : kexdata) : kexdata :=
  mkkexdata (session_id s) v (dh_K_bytes s) (hash s) (kexhashbuf s) (transkexinit s) (compress_algos_c2s s) (compress_algos_s2c s) (allow_ext_info s) (remoteident s).
Definition set_dh_K_bytes (v : option buffer) (s : kexdata) : kexdata :=
  mkkexdata (session_id s) (dh_K s) v (hash s) (kexhashbuf s) (transkexinit s) (compress_algos_c2s s) (compress_algos_s2c s) (allow_ext_info s) (remoteident s).
Definition set_hash (v : option buffer) (s : kexdata) : kexdata :=
  mkkexdata (session_id s) (dh_K s) (dh_K_bytes s) v (kexhashbuf s) (transkexinit s) (compress_algos_c2s s) (compress_algos_s2c s) (allow_ext_info s) (remoteident s).
Definition set_kexhashbuf (v : option buffer) (s : kexdata) : kexdata :=
  mkkexdata (session_id s) (dh_K s) (dh_K_bytes s) (hash s) v (transkexinit s) (compress_algos_c2s s) (compress_algos_s2c s) (allow_ext_info s) (remoteident s).
Definition set_transkexinit (v : option buffer) (s : kexdata) : kexdata :=
  mkkexdata (session_id s) (dh_K s) (dh_K_bytes s) (hash s) (kexhashbuf s) v (compress_algos_c2s s) (compress_algos_s2c s) (allow_ext_info s) (remoteident s).
Definition set_compress_algos_c2s (v : list (algo_type unit unit)) (s : kexdata) : kexdata :=
  mkkexdata (session_id s) (dh_K s) (dh_K_bytes s) (hash s) (kexhashbuf s) (transkexinit s) v (compress_algos_s2c s) (allow_ext_info s) (remoteident s).
Definition set_compress_algos_s2c (v : list (algo_type unit unit)) (s : kexdata) : kexdata :=
  mkkexdata (session_id s) (dh_K s) (dh_K_bytes s) (hash s) (kexhashbuf s) (transkexinit s) (compress_algos_c2s s) v (allow_ext_info s) (remoteident s).
Definition set_allow_ext_info (v : bool) (s : kexdata) : kexdata :=
  mkkexdata (session_id s) (dh_K s) (dh_K_bytes s) (hash s) (kexhashbuf s) (transkexinit s) (compress_algos_c2s s) (compress_algos_s2c s) v (remoteident s).
Definition set_remoteident (v : list Z) (s : kexdata) : kexdata :=
  mkkexdata (session_id s) (dh_K s) (dh_K_bytes s) (hash s) (kexhashbuf s) (transkexinit s) (compress_algos_c2s s) (compress_algos_s2c s) (allow_ext_info s) v.

(** The world: the generator, the monotonic clock, what the socket will
    deliver and accept, and the bytes that went out. *)
Record world := mkworld {
  w_rng : rng;
  w_clock : Z;
  w_reads : list read_event;
  w_writes : list write_event;
  w_sent : list Z
}.

Definition set_w_rng (v : rng) (s : world) : world :=
  mkworld v (w_clock s) (w_reads s) (w_writes s) (w_sent s).
Definition set_w_clock (v : Z) (s : world) : world :=
  mkworld (w_rng s) v (w_reads s) (w_writes s) (w_sent s).
Definition set_w_reads (v : list read_event) (s : world) : world :=
  mkworld (w_rng s) (w_clock s) v (w_writes s) (w_sent s).
Definition set_w_writes (v : list write_event) (s : world) : world :=
  mkworld (w_rng s) (w_clock s) (w_reads s) v (w_sent s).
Definition set_w_sent (v : list Z) (s : world) : world :=
  mkworld (w_rng s) (w_clock s) (w_reads s) (w_writes s) v.

(** [struct sshsession] *)
Record sshsession := mkses {
  isserver : bool;
  pkt : pktstate;
  kexstate : KEXState;
  keys : option key_context;
  newkeys : option key_context;
  kexdat : kexdata;
  authdone : bool;
  wld : world
}.

Definition set_isserver (v : bool) (s : sshsession) : sshsession :=
  mkses v (pkt s) (kexstate s) (keys s) (newkeys s) (kexdat s) (authdone s) (wld s).
Definition set_pkt (v : pktstate) (s : sshsession) : sshsession :=
  mkses (isserver s) v (kexstate s) (keys s) (newkeys s) (kexdat s) (authdone s) (wld s).
Definition set_kexstate (v : KEXState) (s : sshsession) : sshsession :=
  mkses (isserver s) (pkt s) v (keys s) (newkeys s) (kexdat s) (authdone s) (wld s).
Definition set_keys (v : option key_context) (s : sshsession) : sshsession :=
  mkses (isserver s) (pkt s) (kexstate s) v (newkeys s) (kexdat s) (authdone s) (wld s).
Definition set_newkeys (v : option key_context) (s : sshsession) : sshsession :=
  mkses (isserver s) (pkt s) (kexstate s) (keys s) v (kexdat s) (authdone s) (wld s).
Definition set_kexdat (v : kexdata) (s : sshsession) : sshsession :=
  mkses (isserver s) (pkt s) (kexstate s) (keys s) (newkeys s) v (authdone s) (wld s).
Definition set_authdone (v : bool) (s : sshsession) : sshsession :=
  mkses (isserver s) (pkt s) (kexstate s) (keys s) (newkeys s) (kexdat s) v (wld s).
Definition set_wld (v : world) (s : sshsession) : sshsession :=
  mkses (isserver s) (pkt s) (kexstate s) (keys s) (newkeys s) (kexdat s) (authdone s) v.

(** Updates of a component of the session. *)
Definition on_pkt (f : pktstate → pktstate) (s : sshsession) : sshsession := set_pkt (f (pkt s)) s.
Definition on_kexstate (f : KEXState → KEXState) (s : sshsession) : sshsession :=
  set_kexstate (f (kexstate s)) s.
Definition on_kexdat (f : kexdata → kexdata) (s : sshsession) : sshsession :=
  set_kexdat (f (kexdat s)) s.
Definition on_wld (f : world → world) (s : sshsession) : sshsession := set_wld (f (wld s)) s.

(** Following a pointer. *)
Definition ptr {S A} (p : option A) : ST S A :=
  match p with Some a => ret a | None => fault "null pointer" end.

Definition on_writepayload {A} : ST buffer A → ST sshsession A :=
  zoom (λ s, writepayload (pkt s)) (λ b, on_pkt (set_writepayload b)).
Definition on_readbuf {A} : ST buffer A → ST sshsession A :=
  zoom_ptr (λ s, readbuf (pkt s)) (λ b, on_pkt (set_readbuf b)).
Definition on_payload {A} : ST buffer A → ST sshsession A :=
  zoom_ptr (λ s, payload (pkt s)) (λ b, on_pkt (set_payload b)).
Definition on_writequeue {A} : ST (Queue buffer) A → ST sshsession A :=
  zoom (λ s, writequeue (pkt s)) (λ q, on_pkt (set_writequeue q)).
Definition on_rng {A} : ST rng A → ST sshsession A :=
  zoom (λ s, w_rng (wld s)) (λ r, on_wld (set_w_rng r)).

(** [monotonic_now()] *)
Definition monotonic_now : ST sshsession Z := gets (λ s, w_clock (wld s)).

(** [read(ses.sock_in, ..., maxlen)]: [None] for EINTR or EAGAIN.  A call
    that asks for less than is available leaves the rest for the next. *)
Definition sock_read (maxlen : Z) : ST sshsession (option (list Z)) :=
  let* s := get in
  match w_reads (wld s) with
  | [] => ret None
  | RAgain :: rest => do* modify (on_wld (set_w_reads rest)); ret None
  | RError :: _ => dropbear_exit "Error reading: %s"
  | RData bs :: rest =>
      let now := take (Z.to_nat maxlen) bs in
      let later := drop (Z.to_nat maxlen) bs in
      do* modify (on_wld (set_w_reads (match later with [] => rest | _ => RData later :: rest end)));
      ret (Some now)
  end.

(** [ses.remoteclosed()]: the server's and the client's callback close the
    sockets and leave the process. *)
Definition remoteclosed {A} : ST sshsession A :=
  let* s := get in
  dropbear_exit (if isserver s then "Exited normally" else "Remote closed the connection").
End session.
