(* ===== verification/Packet.v ===== *)
(** * The binary packet protocol (src/src/packet.c)

    Reading, decrypting and checking packets, building, encrypting and
    queueing them.  Buffers processed in place are read from and stored back
    to the same region; a length computed in [unsigned int] wraps here as
    there. *)

From Stdlib Require Import ZArith Lia.
From stdpp Require Import base list strings gmap.
From S2P Require Import Prelude.
From S2P Require Import Buffer.
From S2P Require Import Queue.
From S2P Require Import Netio.
From S2P Require Import Random.
From S2P Require Import Algo.
From S2P Require Import Cipher.
From S2P Require Import Session.

Definition RECV_MAX_PAYLOAD_LEN : Z := 32768.
Definition TRANS_MAX_PAYLOAD_LEN : Z := 16384.
Definition RECV_MAX_PACKET_LEN : Z := Z.max 35000 (RECV_MAX_PAYLOAD_LEN + 100).
Definition MIN_PACKET_LEN : Z := 16.
Definition PACKET_PADDING_OFF : Z := 4.
Definition PACKET_PAYLOAD_OFF : Z := 5.
Definition INIT_READBUF : Z := 128.
Definition ZLIB_COMPRESS_EXPANSION : Z := (RECV_MAX_PAYLOAD_LEN / 16384 + 1) * 5 + 6.

Section packet.
Context {CL : CryptoLib}.
Implicit Types (s : sshsession).

(** ** Keys in use *)

(** [ses.keys->recv] and [ses.keys->trans] *)
Definition recv_keys : ST sshsession key_context_directional :=
  let* s := get in let* k := ptr (keys s) in ret (k_recv k).
Definition trans_keys : ST sshsession key_context_directional :=
  let* s := get in let* k := ptr (keys s) in ret (k_trans k).
Definition set_recv_keys (d : key_context_directional) : ST sshsession unit :=
  let* s := get in let* k := ptr (keys s) in put (set_keys (Some (set_k_recv d k)) s).
Definition set_trans_keys (d : key_context_directional) : ST sshsession unit :=
  let* s := get in let* k := ptr (keys s) in put (set_keys (Some (set_k_trans d k)) s).

(** [is_compress_trans] and [is_compress_recv] (common-kex.c) *)
Definition is_compress_trans : ST sshsession bool :=
  let* k := trans_keys in
  let* s := get in
  ret ((algo_comp k =? DROPBEAR_COMP_ZLIB) || (authdone s && (algo_comp k =? DROPBEAR_COMP_ZLIB_DELAY))).
Definition is_compress_recv : ST sshsession bool :=
  let* k := recv_keys in
  let* s := get in
  ret ((algo_comp k =? DROPBEAR_COMP_ZLIB) || (authdone s && (algo_comp k =? DROPBEAR_COMP_ZLIB_DELAY))).

(** ** Message authentication *)

(** The bytes [hmac_done] leaves in the 32-byte [output_mac]. *)
Definition make_mac (seqno : Z) (key_state : key_context_directional) (clear_len : Z) :
    ST buffer (list Z) :=
  let* algo := ptr (algo_mac key_state) in
  if h_hashsize algo >? 0 then
    if h_keysize algo >? zlen (mackey key_state) then fault "read outside mackey"
    else
      do* buf_setpos 0;
      let* p := buf_getptr clear_len in
      let* bs := mem_load p clear_len in
      match hmac (hash_index key_state) (slice 0 (h_keysize algo) (mackey key_state))
              (STORE32H seqno ++ bs) with
      | None => dropbear_exit "HMAC error"
      | Some m => ret (take (Z.to_nat MAX_MAC_LEN) m)
      end
  else ret [].

(** The first [n] bytes of [mac_bytes]; those [make_mac] did not write are
    uninitialised. *)
Definition mac_prefix {S} (mac : list Z) (n : Z) : ST S (list Z) :=
  if n >? zlen mac then fault "uninitialised mac_bytes" else ret (slice 0 n mac).

Definition checkmac : ST sshsession bool :=
  let* k := recv_keys in
  let* algo := ptr (algo_mac k) in
  let mac_size := h_hashsize algo in
  let* s := get in
  let* rb := ptr (readbuf (pkt s)) in
  let contents_len := u32 (b_len rb - mac_size) in
  do* on_readbuf (buf_setpos 0);
  let* mac_bytes := on_readbuf (make_mac (recvseq (pkt s)) k contents_len) in
  do* on_readbuf (buf_setpos contents_len);
  let* theirs := on_readbuf (let* p := buf_getptr mac_size in mem_load p mac_size) in
  let* ours := mac_prefix mac_bytes mac_size in
  ret (constant_time_eq ours theirs).

(** ** Receiving *)

(** Decrypting [len] bytes at the cursor of [readbuf] in place. *)
Definition decrypt_in_place (len : Z) : ST sshsession unit :=
  let* k := recv_keys in
  let* mode := ptr (crypt_mode k) in
  let* decrypt := ptr (cm_decrypt mode) in
  let* bs := on_readbuf (let* p := buf_getptr len in mem_load p len) in
  let* out := on_readbuf (buf_getwriteptr len) in
  match decrypt bs (cipher_state k) with
  | None => dropbear_exit "Error decrypting"
  | Some (pt, cs) =>
      do* on_readbuf (mem_store out pt);
      set_recv_keys (set_cipher_state cs k)
  end.

(** [false] is [DROPBEAR_FAILURE]: the length is not known yet. *)
Definition read_packet_init : ST sshsession bool :=
  let* k := recv_keys in
  let* crypt := ptr (algo_crypt k) in
  let* mac := ptr (algo_mac k) in
  let* mode := ptr (crypt_mode k) in
  let blocksize := c_blocksize crypt in
  let macsize := h_hashsize mac in
  let* s := get in
  do* (match readbuf (pkt s) with
       | None => let* b := buf_new INIT_READBUF in modify (on_pkt (set_readbuf (Some b)))
       | Some _ => ret tt
       end);
  let* maxlen := on_readbuf (gets (λ b, u32 (blocksize - b_pos b))) in
  let* p := on_readbuf (buf_getwriteptr maxlen) in
  let* r := sock_read maxlen in
  match r with
  | None => ret false
  | Some [] => remoteclosed
  | Some bs =>
      do* on_readbuf (mem_store p bs);
      do* on_readbuf (buf_incrwritepos (zlen bs));
      if negb (zlen bs =? maxlen) then ret false
      else
        do* on_readbuf (buf_setpos 0);
        let* (len, plen) :=
          match cm_aead_crypt mode with
          | Some _ =>
              let* getlength := ptr (cm_aead_getlength mode) in
              let* bs := on_readbuf (let* p := buf_getptr blocksize in mem_load p blocksize) in
              let* s := get in
              match getlength (recvseq (pkt s)) bs blocksize (cipher_state k) with
              | None => dropbear_exit "Error decrypting"
              | Some (plen, cs) =>
                  do* set_recv_keys (set_cipher_state cs k);
                  ret (u32 (plen + 4 + macsize), plen)
              end
          | None =>
              do* decrypt_in_place blocksize;
              let* n := on_readbuf buf_getint in
              let plen := u32 (n + 4) in
              ret (u32 (plen + macsize), plen)
          end in
        if blocksize =? 0 then fault "division by zero"
        else
          do* exit_if ((len >? RECV_MAX_PACKET_LEN) || (plen <? blocksize)
                       || negb (plen mod blocksize =? 0))
                "Integrity error (bad packet size %u)";
          let* s := get in
          let* rb := ptr (readbuf (pkt s)) in
          do* when (len >? b_size rb)
                (let* rb' := buf_resize indet len rb in modify (on_pkt (set_readbuf (Some rb'))));
          do* on_readbuf (buf_setlen len);
          do* on_readbuf (buf_setpos blocksize);
          ret true
  end.

(** The returned buffer is a new one. *)
Definition buf_decompress (len : Z) : ST sshsession buffer :=
  let* k := recv_keys in
  let* zs := ptr (zstream k) in
  let* r := buf_new (RECV_MAX_PAYLOAD_LEN + 1) in
  let* input := on_readbuf (let* p := buf_getptr len in mem_load p len) in
  let '(result, zs', out, avail_in) := inflate zs input (b_size r) in
  do* set_recv_keys (set_zstream (Some zs') k);
  let* (_, r) := on_new r (mem_store 0 out) in
  do* exit_if (negb (result =? Z_OK)) "zlib error";
  let* (_, r) := on_new r (buf_setlen (zlen out)) in
  do* exit_if ((avail_in >? 0) || (b_len r >? RECV_MAX_PAYLOAD_LEN))
        "bad packet, oversized decompressed";
  ret r.

Definition decrypt_packet : ST sshsession unit :=
  let* k := recv_keys in
  let* crypt := ptr (algo_crypt k) in
  let* mac := ptr (algo_mac k) in
  let* mode := ptr (crypt_mode k) in
  let blocksize := c_blocksize crypt in
  let macsize := h_hashsize mac in
  let* rlen := on_readbuf (gets b_len) in
  do* modify (on_kexstate (λ x, set_datarecv (u32 (datarecv x + rlen)) x));
  do* (match cm_aead_crypt mode with
       | Some aead_crypt =>
           do* on_readbuf (buf_setpos 0);
           let* len := on_readbuf (gets (λ b, u32 (b_len b - macsize - b_pos b))) in
           let* bs := on_readbuf (let* p := buf_getptr (u32 (len + macsize)) in
                                  mem_load p (u32 (len + macsize))) in
           let* out := on_readbuf (buf_getwriteptr len) in
           let* s := get in
           do* (match aead_crypt (recvseq (pkt s)) bs len macsize (cipher_state k) LTC_DECRYPT with
                | None => dropbear_exit "Error decrypting"
                | Some (pt, cs) =>
                    do* on_readbuf (mem_store out pt);
                    set_recv_keys (set_cipher_state cs k)
                end);
           on_readbuf (buf_incrpos len)
       | None =>
           do* on_readbuf (buf_setpos blocksize);
           let* len := on_readbuf (gets (λ b, u32 (b_len b - macsize - b_pos b))) in
           do* decrypt_in_place len;
           do* on_readbuf (buf_incrpos len);
           let* ok := checkmac in
           exit_if (negb ok) "Integrity error"
       end);
  do* on_readbuf (buf_setpos PACKET_PADDING_OFF);
  let* padlen := on_readbuf buf_getbyte in
  let* len := on_readbuf (gets (λ b, u32 (b_len b - padlen - 4 - 1 - macsize))) in
  do* exit_if ((len >? RECV_MAX_PAYLOAD_LEN + ZLIB_COMPRESS_EXPANSION) || (len <? 1))
        "Bad packet size %u";
  do* on_readbuf (buf_setpos PACKET_PAYLOAD_OFF);
  let* comp := is_compress_recv in
  do* (if comp then
         let* r := buf_decompress len in
         let* (_, r) := on_new r (buf_setpos 0) in
         modify (on_pkt (λ x, set_payload_beginning 0 (set_payload (Some r) x)))
       else
         let* s := get in
         let* rb := ptr (readbuf (pkt s)) in
         do* modify (on_pkt (λ x, set_payload_beginning (b_pos rb) (set_payload (Some rb) x)));
         on_payload (buf_setlen (u32 (b_pos rb + len))));
  modify (on_pkt (λ x, set_recvseq (u32 (recvseq x + 1)) (set_readbuf None x))).

(** The part of [read_packet] after the length is known. *)
Definition read_packet_rest : ST sshsession unit :=
  let* maxlen := on_readbuf (gets (λ b, u32 (b_len b - b_pos b))) in
  if maxlen =? 0 then decrypt_packet
  else
    let* p := on_readbuf (buf_getptr maxlen) in
    let* r := sock_read maxlen in
    match r with
    | None => ret tt
    | Some [] => remoteclosed
    | Some bs =>
        do* on_readbuf (mem_store p bs);
        do* on_readbuf (buf_incrpos (zlen bs));
        when (zlen bs =? maxlen) decrypt_packet
    end.

Definition read_packet : ST sshsession unit :=
  let* k := recv_keys in
  let* crypt := ptr (algo_crypt k) in
  let blocksize := c_blocksize crypt in
  let* s := get in
  let* go :=
    match readbuf (pkt s) with
    | None => read_packet_init
    | Some b => if b_len b <? blocksize then read_packet_init else ret true
    end in
  if negb go then ret tt else read_packet_rest.

(** ** Sending *)

Definition packet_is_okay_kex (type : Z) : bool :=
  if type >=? SSH_MSG_USERAUTH_REQUEST then false
  else if (type =? SSH_MSG_SERVICE_REQUEST) || (type =? SSH_MSG_SERVICE_ACCEPT) then false
  else if type =? SSH_MSG_KEXINIT then false
  else true.

Definition enqueue_reply_packet : ST sshsession unit :=
  let* s := get in
  let* item := buf_newcopy (writepayload (pkt s)) in
  do* on_writepayload (buf_setpos 0);
  do* on_writepayload (buf_setlen 0);
  modify (on_pkt (λ x, set_reply_queue (reply_queue x ++ [item]) x)).

Definition writebuf_enqueue (writebuf : buffer) : ST sshsession unit :=
  let* (_, writebuf) := on_new writebuf (buf_setpos 0) in
  do* on_writequeue (enqueue writebuf);
  modify (on_pkt (λ x, set_writequeue_len (u32 (writequeue_len x + b_len writebuf)) x)).

(** [dest] is the packet under construction, the source [ses.writepayload]. *)
Definition buf_compress (dest : buffer) (len : Z) : ST sshsession buffer :=
  let* src_pos := on_writepayload (gets b_pos) in
  let endpos := u32 (src_pos + len) in
  do* dropbear_assert (u32 (b_size dest - b_pos dest) >=? u32 (len + ZLIB_COMPRESS_EXPANSION))
        "dest->size - dest->pos >= len+ZLIB_COMPRESS_EXPANSION";
  let* k := trans_keys in
  let* zs := ptr (zstream k) in
  let n := u32 (endpos - src_pos) in
  let* input := on_writepayload (let* p := buf_getptr n in mem_load p n) in
  let avail_out := u32 (b_size dest - b_pos dest) in
  let* (out, dest) := on_new dest (buf_getwriteptr avail_out) in
  let '(result, zs', bytes, avail_in) := deflate zs input avail_out in
  do* set_trans_keys (set_zstream (Some zs') k);
  let* (_, dest) := on_new dest (mem_store out bytes) in
  do* on_writepayload (buf_setpos (u32 (endpos - avail_in)));
  let* (_, dest) := on_new dest (buf_setlen (u32 (b_size dest - (avail_out - zlen bytes)))) in
  let* (_, dest) := on_new dest (buf_setpos (b_len dest)) in
  do* exit_if (negb (result =? Z_OK)) "zlib error";
  do* dropbear_assert (avail_in =? 0) "ses.keys->trans.zstream->avail_in == 0";
  ret dest.

(** The padding length; [writebuf_len] is the length of header and payload. *)
Definition padding_len (aead : bool) (blocksize writebuf_len : Z) : Z :=
  let len := if aead then u32 (writebuf_len - 4) else writebuf_len in
  let padlen := u8 (blocksize - len mod blocksize) in
  let padlen := if padlen <? 4 then u8 (padlen + blocksize) else padlen in
  if writebuf_len + padlen <? MIN_PACKET_LEN then u8 (padlen + blocksize) else padlen.

(** Encryption in place and the MAC, on the packet with its padding. *)
Definition seal_packet (writebuf : buffer) : ST sshsession buffer :=
  let* k := trans_keys in
  let* mac := ptr (algo_mac k) in
  let* mode := ptr (crypt_mode k) in
  let mac_size := h_hashsize mac in
  let* s := get in
  match cm_aead_crypt mode with
  | Some aead_crypt =>
      let* (_, writebuf) := on_new writebuf (buf_setpos 0) in
      let len := b_len writebuf in
      let* (_, writebuf) := on_new writebuf (buf_incrlen mac_size) in
      let* (bs, writebuf) := on_new writebuf (let* p := buf_getptr len in mem_load p len) in
      let* (out, writebuf) := on_new writebuf (buf_getwriteptr (u32 (len + mac_size))) in
      match aead_crypt (transseq (pkt s)) bs len mac_size (cipher_state k) LTC_ENCRYPT with
      | None => dropbear_exit "Error encrypting"
      | Some (ct, cs) =>
          let* (_, writebuf) := on_new writebuf (mem_store out ct) in
          do* set_trans_keys (set_cipher_state cs k);
          let* (_, writebuf) := on_new writebuf (buf_incrpos (u32 (len + mac_size))) in
          ret writebuf
      end
  | None =>
      let* encrypt := ptr (cm_encrypt mode) in
      let* (mac_bytes, writebuf) := on_new writebuf (make_mac (transseq (pkt s)) k (b_len writebuf)) in
      let* (_, writebuf) := on_new writebuf (buf_setpos 0) in
      let len := b_len writebuf in
      let* (bs, writebuf) := on_new writebuf (let* p := buf_getptr len in mem_load p len) in
      let* (out, writebuf) := on_new writebuf (buf_getwriteptr len) in
      match encrypt bs (cipher_state k) with
      | None => dropbear_exit "Error encrypting"
      | Some (ct, cs) =>
          let* (_, writebuf) := on_new writebuf (mem_store out ct) in
          do* set_trans_keys (set_cipher_state cs k);
          let* (_, writebuf) := on_new writebuf (buf_incrpos len) in
          let* m := mac_prefix mac_bytes mac_size in
          let* (_, writebuf) := on_new writebuf (buf_putbytes m) in
          ret writebuf
      end
  end.

(** Header, payload and padding of the packet under construction. *)
Definition build_packet (blocksize mac_size : Z) (aead : bool) : ST sshsession buffer :=
  let* plen := on_writepayload (gets b_len) in
  let encrypt_buf_size :=
    u32 ((plen + 4 + 1) + Z.max MIN_PACKET_LEN blocksize + 3 + mac_size + ZLIB_COMPRESS_EXPANSION + 1) in
  let* writebuf := buf_new encrypt_buf_size in
  let* (_, writebuf) := on_new writebuf
    (do* buf_setlen PACKET_PAYLOAD_OFF; buf_setpos PACKET_PAYLOAD_OFF) in
  let* comp := is_compress_trans in
  let* writebuf :=
    (if comp then buf_compress writebuf plen
     else
       let* (out, writebuf) := on_new writebuf (buf_getwriteptr plen) in
       let* bs := on_writepayload (let* p := buf_getptr plen in mem_load p plen) in
       let* (_, writebuf) := on_new writebuf (do* mem_store out bs; buf_incrwritepos plen) in
       ret writebuf) in
  do* on_writepayload (buf_setpos 0);
  do* on_writepayload (buf_setlen 0);
  if blocksize =? 0 then fault "division by zero"
  else
    let padlen := padding_len aead blocksize (b_len writebuf) in
    let* (_, writebuf) := on_new writebuf (buf_setpos 0) in
    let* (_, writebuf) := on_new writebuf (buf_putint (u32 (b_len writebuf + padlen - 4))) in
    let* (_, writebuf) := on_new writebuf (buf_putbyte padlen) in
    let* (_, writebuf) := on_new writebuf (do* buf_setpos (b_len writebuf); buf_incrlen padlen) in
    let* (p, writebuf) := on_new writebuf (buf_getptr padlen) in
    let* padding := on_rng (genrandom padlen) in
    let* (_, writebuf) := on_new writebuf (mem_store p padding) in
    ret writebuf.

Definition encrypt_packet : ST sshsession unit :=
  do* on_writepayload (buf_setpos 0);
  let* packet_type := on_writepayload buf_getbyte in
  do* on_writepayload (buf_setpos 0);
  let* s := get in
  if negb (dataallowed (pkt s)) && negb (packet_is_okay_kex packet_type) then enqueue_reply_packet
  else
    let* k := trans_keys in
    let* crypt := ptr (algo_crypt k) in
    let* mac := ptr (algo_mac k) in
    let* mode := ptr (crypt_mode k) in
    let* writebuf := build_packet (c_blocksize crypt) (h_hashsize mac)
                       (match cm_aead_crypt mode with Some _ => true | None => false end) in
    let* writebuf := seal_packet writebuf in
    do* modify (on_kexstate (λ x, set_datatrans (u32 (datatrans x + b_len writebuf)) x));
    do* writebuf_enqueue writebuf;
    do* modify (on_pkt (λ x, set_transseq (u32 (transseq x + 1)) x));
    let* now := monotonic_now in
    do* modify (on_pkt (set_last_packet_time_any_sent now));
    when (negb (packet_type =? SSH_MSG_REQUEST_FAILURE) && negb (packet_type =? SSH_MSG_UNIMPLEMENTED)
          && negb (packet_type =? SSH_MSG_IGNORE))
      (modify (on_pkt (set_last_packet_time_idle now))).

Fixpoint flush_replies (items : list buffer) : ST sshsession unit :=
  match items with
  | [] => ret tt
  | item :: items =>
      do* on_writepayload (buf_putbytes (slice 0 (b_len item) (b_data item)));
      do* encrypt_packet;
      flush_replies items
  end.

Definition maybe_flush_reply_queue : ST sshsession unit :=
  let* s := get in
  if negb (dataallowed (pkt s)) then ret tt
  else
    do* flush_replies (reply_queue (pkt s));
    modify (on_pkt (set_reply_queue [])).

(** [writev] takes what it takes from the front of the iovecs. *)
Definition sock_writev (iov : list (list Z)) : ST sshsession (option Z) :=
  let* s := get in
  match w_writes (wld s) with
  | [] => ret None
  | WAgain :: rest => do* modify (on_wld (set_w_writes rest)); ret None
  | WError :: _ => dropbear_exit "Error writing: %s"
  | WDone n :: rest =>
      let out := take (Z.to_nat n) (concat iov) in
      do* modify (on_wld (λ w, set_w_sent (w_sent w ++ out) (set_w_writes rest w)));
      ret (Some (zlen out))
  end.

Definition write_packet : ST sshsession unit :=
  let* s := get in
  do* dropbear_assert (negb (isempty (writequeue (pkt s)))) "!isempty(&ses.writequeue)";
  let* iov := on_writequeue (packet_queue_to_iovec 50) in
  let* r := sock_writev iov in
  match r with
  | None => ret tt
  | Some written =>
      do* on_writequeue (packet_queue_consume written);
      do* modify (on_pkt (λ x, set_writequeue_len (u32 (writequeue_len x - written)) x));
      if written =? 0 then remoteclosed else ret tt
  end.
End packet.

(** ** What the packet layer requires of the keys and the libraries *)

Section packet_laws.
Context {CL : CryptoLib}.

(** A cipher mode has the functions its kind needs, and each writes as many
    bytes as it is documented to. *)
Definition mode_ok (mode : dropbear_cipher_mode CS) : Prop :=
  match cm_aead_crypt mode with
  | Some crypt =>
      (∃ getlength, cm_aead_getlength mode = Some getlength ∧
        ∀ seq bs n cs plen cs', getlength seq bs n cs = Some (plen, cs') → u32_ok plen) ∧
      (∀ seq bs len tag cs out cs', bytes_ok bs →
        crypt seq bs len tag cs LTC_DECRYPT = Some (out, cs') → zlen out = len ∧ bytes_ok out)
  | None =>
      (∃ decrypt, cm_decrypt mode = Some decrypt ∧
        ∀ bs cs out cs', bytes_ok bs → decrypt bs cs = Some (out, cs') →
          zlen out = zlen bs ∧ bytes_ok out) ∧
      is_Some (cm_encrypt mode)
  end.

(** The HMAC of a context yields at least [hashsize] bytes. *)
Definition mac_ok (d : key_context_directional) (mac : dropbear_hash) : Prop :=
  0 ≤ h_hashsize mac ≤ MAX_MAC_LEN ∧ 0 ≤ h_keysize mac ≤ zlen (mackey d) ∧
  ∀ key m t, hmac (hash_index d) key m = Some t → h_hashsize mac ≤ zlen t ∧ bytes_ok t.

Definition dir_is (d : key_context_directional) crypt mac mode : Prop :=
  algo_crypt d = Some crypt ∧ algo_mac d = Some mac ∧ crypt_mode d = Some mode.

(** One direction of the keys is in a usable state. *)
Definition dir_ok (d : key_context_directional) : Prop :=
  ∃ crypt mac mode, dir_is d crypt mac mode ∧ 8 ≤ c_blocksize crypt ≤ 16 ∧
    mac_ok d mac ∧ mode_ok mode ∧
    (algo_comp d = DROPBEAR_COMP_ZLIB ∨ algo_comp d = DROPBEAR_COMP_ZLIB_DELAY → is_Some (zstream d)).

(** zlib stays within the space and the input it is given. *)
Class ZlibLaws := {
  inflate_out zs input n r zs' out left :
    0 ≤ n → inflate zs input n = (r, zs', out, left) → zlen out ≤ n ∧ bytes_ok out ∧ 0 ≤ left ≤ zlen input;
  deflate_out zs input n r zs' out left :
    0 ≤ n → deflate zs input n = (r, zs', out, left) → zlen out ≤ n ∧ bytes_ok out ∧ 0 ≤ left ≤ zlen input
}.

Lemma dir_ok_cipher_state cs d : dir_ok d → dir_ok (set_cipher_state cs d).
Proof. done. Qed.

Lemma dir_ok_zstream zs d : dir_ok d → dir_ok (set_zstream (Some zs) d).
Proof.
  intros (crypt&mac&mode&His&Hb&Hm&Hmo&Hz). exists crypt, mac, mode.
  do 4 (split; [done|]). intros _. by exists zs.
Qed.
End packet_laws.
