(* ===== verification/Instances.v ===== *)
(** * Concrete instances for the witnesses

    A stand-in library (no encryption, a MAC that sums bytes, a compressor
    that copies) that satisfies the laws the theorems assume, and small
    sessions over it. *)

From Stdlib Require Import ZArith Lia.
From stdpp Require Import base list strings gmap.
From S2P Require Import Prelude.
From S2P Require Import Buffer.
From S2P Require Import Queue.
From S2P Require Import Random.
From S2P Require Import Algo.
From S2P Require Import Cipher.
From S2P Require Import Session.
From S2P Require Import Packet.

Definition toy_copy (zs : unit) (input : list Z) (n : Z) : Z * unit * list Z * Z :=
  let out := map u8 (take (Z.to_nat n) input) in (Z_OK, zs, out, zlen input - zlen out).

Definition toy_lib : CryptoLib := {|
  CS := unit;
  cs_zero := tt;
  ZS := unit;
  lib_sha256 := toy_sha256;
  hmac := λ _ k m, Some (replicate 32 (sum_bytes (k ++ m)));
  find_cipher := λ _, 0;
  find_hash := λ _, 0;
  inflate := toy_copy;
  deflate := toy_copy;
  inflateInit := Some tt;
  deflateInit2 := Some tt;
  inflateEnd := λ _, 0;
  deflateEnd := λ _, 0;
  indet := λ _, 0
|}.

Definition toy_zlib : @ZlibLaws toy_lib.
Proof.
  assert (H : ∀ input n out, 0 ≤ n → out = map u8 (take (Z.to_nat n) input) →
    zlen out ≤ n ∧ bytes_ok out ∧ 0 ≤ zlen input - zlen out ≤ zlen input).
  { intros input n out Hn ->. unfold zlen. rewrite length_map, length_take. split_and!; [lia| |lia|lia].
    apply Forall_map, Forall_true. intros. apply u8_range. }
  constructor; intros ??????? Hn [= <- <- <- <-]; by apply H.
Defined.

(** [{&sha256_desc, 32, 32}] *)
Definition toy_mac : dropbear_hash := mkhash (Some (mkhashdesc [] 32 (λ m, replicate 32 (sum_bytes m)))) 32 32.

Definition toy_dir : @key_context_directional toy_lib :=
  @mkkeydir toy_lib (Some dropbear_nocipher) (Some (dropbear_mode_none tt)) (Some toy_mac) 0 0 None tt
    (replicate 32 7) true.
Definition toy_keys : @key_context toy_lib := @mkkeys toy_lib toy_dir toy_dir None 0 0 0.

Definition toy_world (reads : list read_event) (writes : list write_event) : world :=
  mkworld (mkrng [1; 2; 3] 0 true []) 100 reads writes [].

Definition toy_kexstate : KEXState :=
  mkkexstate false false false false false true false true false false 0 false 0 0.

(** A session in the data phase with [p] as the payload to send. *)
Definition toy_session (p : list Z) (reads : list read_event) : @sshsession toy_lib :=
  @mkses toy_lib true
    (mkpkt (mkbuf (p ++ zeros 20) (zlen p) 0 (zlen p + 20)) (mkqueue ∅ None None 0) 0 None None 0 3 3
       true 0 false 0 [] 0 0 0 0)
    toy_kexstate (Some toy_keys) None
    (mkkexdata None None None None None None [] [] false []) true (toy_world reads []).

Lemma toy_mac_ok : @mac_ok toy_lib toy_dir toy_mac.
Proof.
  split; [unfold MAX_MAC_LEN; simpl; lia|]. split; [by vm_compute|].
  intros key m t [= <-]. split; [done|]. apply (Forall_replicate _ 32), u8_range.
Qed.

Lemma toy_mode_ok : @mode_ok toy_lib (dropbear_mode_none tt).
Proof.
  split; [|by eexists]. exists void_cipher. split; [done|]. by intros bs cs out cs' Hb [= <- <-].
Qed.

Lemma toy_dir_ok : @dir_ok toy_lib toy_dir.
Proof.
  exists dropbear_nocipher, toy_mac, (dropbear_mode_none tt).
  split; [done|]. split; [simpl; lia|]. split; [apply toy_mac_ok|]. split; [apply toy_mode_ok|].
  by intros [|].
Qed.

Lemma toy_payload_wf p : bytes_ok p → zlen p ≤ 1000 → wf_buf (mkbuf (p ++ zeros 20) (zlen p) 0 (zlen p + 20)).
Proof.
  intros Hp Hl. pose proof (zlen_nonneg p). split_and!; cbn [b_data b_len b_pos b_size]; try lia.
  - unfold BUF_MAX_SIZE. lia.
  - rewrite zlen_app. done.
  - apply bytes_ok_app. split; [done|apply bytes_ok_zeros].
Qed.
