(* ===== verification/PacketRecv.v ===== *)
(** * The receive path of packet.c

    Safety of [read_packet] on arbitrary input, and the functional
    specification of [decrypt_packet]: it accepts exactly what the pure
    function [open_packet] accepts. *)

From Stdlib Require Import ZArith Lia.
From stdpp Require Import base list strings gmap.
From S2P Require Import Prelude.
From S2P Require Import Buffer.
From S2P Require Import Queue.
From S2P Require Import Netio.
From S2P Require Import Random.
From S2P Require Import Algo.
From S2P Require Import Cipher.
From S2P Require Import Session.
From S2P Require Import Packet.

(** ** The receive path *)

Section receive.
Context {CL : CryptoLib} {ZL : ZlibLaws}.
Implicit Types (s : sshsession) (d : key_context_directional) (b : buffer) (rd : list read_event).

(** The session with given receive keys, read buffer and pending input. *)
Definition rv s (kc : key_context) d (rb : option buffer) rd : sshsession :=
  on_wld (set_w_reads rd) (on_pkt (set_readbuf rb) (set_keys (Some (set_k_recv d kc)) s)).

Lemma rv_self s kc :
  keys s = Some kc → s = rv s kc (k_recv kc) (readbuf (pkt s)) (w_reads (wld s)).
Proof.
  destruct s as [? pk ? ks ? ? ? w]; simpl. intros ->.
  unfold rv, on_wld, on_pkt, set_keys, set_pkt, set_wld; simpl.
  f_equal; [by destruct pk|by destruct kc|by destruct w].
Qed.

Lemma wp_recv_keys E Q s kc d rb rd : Q d (rv s kc d rb rd) → wp recv_keys E Q (rv s kc d rb rd).
Proof. done. Qed.

Lemma wp_set_recv_keys d' E Q s kc d rb rd :
  Q tt (rv s kc d' rb rd) → wp (set_recv_keys d') E Q (rv s kc d rb rd).
Proof. done. Qed.

Lemma wp_ptr {S A} (a : A) p E (Q : A → S → Prop) st : p = Some a → Q a st → wp (ptr p) E Q st.
Proof. by intros ->. Qed.

Lemma wp_on_readbuf {A} (m : ST buffer A) E Q s kc d b rd :
  wp m E (λ a b', Q a (rv s kc d (Some b') rd)) b →
  wp (on_readbuf m) E Q (rv s kc d (Some b) rd).
Proof. intros H. by eapply wp_zoom_ptr. Qed.

(** Reading at the cursor. *)
Lemma wp_load_cursor n E (Q : list Z → buffer → Prop) b :
  wf_buf b → 0 ≤ n →
  (b_pos b + n ≤ b_len b → Q (slice (b_pos b) n (b_data b)) b) →
  (b_len b < b_pos b + n → E "Bad buf_getptr"%string) →
  wp (let* p := buf_getptr n in mem_load p n) E Q b.
Proof.
  intros Hwf Hn HQ HE. apply wp_bind, wp_buf_getptr; [done..| |done]. intros.
  destruct Hwf as (?&?&?&?). apply wp_mem_load; [lia..|]. by apply HQ.
Qed.

(** A store of the right size keeps a buffer well formed. *)
Definition after_store (off : Z) (bs : list Z) b : buffer :=
  mkbuf (splice off bs (b_data b)) (b_len b) (b_pos b) (b_size b).

Lemma wf_after_store off bs b :
  wf_buf b → bytes_ok bs → 0 ≤ off → off + zlen bs ≤ b_size b → wf_buf (after_store off bs b).
Proof.
  intros (?&?&?&?) ???. unfold after_store, wf_buf. cbn [b_data b_len b_pos b_size].
  rewrite zlen_splice by lia. split_and!; try lia. by apply bytes_ok_splice.
Qed.

Lemma wp_store off bs E (Q : unit → buffer → Prop) b :
  wf_buf b → 0 ≤ off → off + zlen bs ≤ b_size b → Q tt (after_store off bs b) →
  wp (mem_store off bs) E Q b.
Proof. intros (?&?&?&?) ???. apply wp_mem_store; [lia..|done]. Qed.

(** What a read delivers: at most [maxlen] bytes, all of them bytes. *)
Definition reads_ok rd : Prop := Forall (λ e, match e with RData bs => bytes_ok bs | _ => True end) rd.

Lemma wp_sock_read maxlen s kc d rb rd (E : string → Prop) Q :
  reads_ok rd → 0 ≤ maxlen →
  (∀ rd', reads_ok rd' → Q None (rv s kc d rb rd')) →
  (∀ bs rd', reads_ok rd' → bytes_ok bs → zlen bs ≤ maxlen → Q (Some bs) (rv s kc d rb rd')) →
  (∀ e, E e) → wp (sock_read maxlen) E Q (rv s kc d rb rd).
Proof.
  intros Hrd Hm HN HS HE. apply wp_bind, wp_get.
  destruct rd as [|[bs| |] rd]; cbn [w_reads wld rv on_wld set_wld set_w_reads].
  - by apply wp_ret, HN.
  - apply Forall_cons in Hrd as [Hb Hrd]. apply wp_bind, wp_modify, wp_ret.
    assert (Hr : ∀ rd', reads_ok rd' → Q (Some (take (Z.to_nat maxlen) bs)) (rv s kc d rb rd')).
    { intros rd' Hr. apply HS; [done|by apply Forall_take|].
      unfold zlen. rewrite length_take. lia. }
    apply Hr. case_match eqn:Hd; [done|]. constructor; [|done]. rewrite <-Hd. by apply Forall_drop.
  - apply Forall_cons in Hrd as [_ Hrd]. apply wp_bind, wp_modify, wp_ret, HN, Hrd.
  - apply HE.
Qed.

(** Decrypting in place keeps the buffer and the keys well formed. *)
Lemma wp_decrypt_in_place len E Q s kc d b rd crypt mac mode :
  dir_is d crypt mac mode → mode_ok mode → cm_aead_crypt mode = None →
  wf_buf b → 0 ≤ len →
  (∀ pt cs, bytes_ok pt → zlen pt = len → b_pos b + len ≤ b_len b →
     Q tt (rv s kc (set_cipher_state cs d) (Some (after_store (b_pos b) pt b)) rd)) →
  (∀ e, E e) →
  wp (decrypt_in_place len) E Q (rv s kc d (Some b) rd).
Proof.
  intros (Hc&Hm&Hmo) Hmode Haead Hwf Hlen HQ HE. unfold mode_ok in Hmode. rewrite Haead in Hmode.
  destruct Hmode as ((dec&Hdec&Hlaw)&_). pose proof Hwf as (?&?&?&?).
  apply wp_bind, wp_recv_keys, wp_bind. eapply wp_ptr; [done|]. apply wp_bind.
  eapply wp_ptr; [done|]. apply wp_bind, wp_on_readbuf, wp_load_cursor; [done..| |by intros].
  intros Hfit. apply wp_bind, wp_on_readbuf, wp_buf_getwriteptr; [done..| |by intros]. intros _.
  destruct (dec _ _) as [[pt cs]|] eqn:Hd; [|by apply wp_exit].
  apply Hlaw in Hd as [Hpl Hpb]; [|by apply bytes_ok_slice]. rewrite zlen_slice in Hpl by lia.
  apply wp_bind, wp_on_readbuf, wp_store; [done|lia|lia|]. apply wp_set_recv_keys. by apply HQ.
Qed.

(** The read buffer while the first block is incomplete, and after. *)
Definition rb_init (blocksize : Z) (rb : option buffer) : Prop :=
  match rb with None => True | Some b => wf_buf b ∧ b_len b < blocksize ∧ b_pos b = b_len b end.
Definition rb_body (blocksize : Z) b : Prop :=
  wf_buf b ∧ blocksize ≤ b_pos b ∧ b_len b ≤ RECV_MAX_PACKET_LEN.

Definition dir_block d : Z := match algo_crypt d with Some c => c_blocksize c | None => 0 end.

(** The length field of a packet: from [aead_getlength], or from the first
    block decrypted in place. *)
Lemma wp_packet_length {A} (k : Z * Z → ST sshsession A) s kc d b rd crypt mac mode Q :
  dir_is d crypt mac mode → mode_ok mode → 0 ≤ c_blocksize crypt →
  wf_buf b → b_pos b = 0 →
  (∀ len plen cs b', wf_buf b' → b_size b' = b_size b → u32_ok len →
     wp (k (len, plen)) any_exit Q (rv s kc (set_cipher_state cs d) (Some b') rd)) →
  wp (let* lp :=
        match cm_aead_crypt mode with
        | Some _ =>
            let* getlength := ptr (cm_aead_getlength mode) in
            let* bs := on_readbuf (let* p := buf_getptr (c_blocksize crypt) in
                                   mem_load p (c_blocksize crypt)) in
            let* s := get in
            match getlength (recvseq (pkt s)) bs (c_blocksize crypt) (cipher_state d) with
            | None => dropbear_exit "Error decrypting"
            | Some (plen, cs) =>
                do* set_recv_keys (set_cipher_state cs d);
                ret (u32 (plen + 4 + h_hashsize mac), plen)
            end
        | None =>
            do* decrypt_in_place (c_blocksize crypt);
            let* n := on_readbuf buf_getint in
            let plen := u32 (n + 4) in
            ret (u32 (plen + h_hashsize mac), plen)
        end in k lp) any_exit Q (rv s kc d (Some b) rd).
Proof.
  intros His Hmode Hbs Hwf Hpos HQ. pose proof Hmode as Hmode'. unfold mode_ok in Hmode'.
  destruct (cm_aead_crypt mode) as [crypt_fn|] eqn:Ha; apply wp_bind.
  - destruct Hmode' as [(getlength&Hg&Hlaw) _]. apply wp_bind. eapply wp_ptr; [done|].
    apply wp_bind, wp_on_readbuf, wp_load_cursor; [done..| |done]. intros _.
    apply wp_bind, wp_get. destruct (getlength _ _ _ _) as [[plen cs]|] eqn:Hgl; [|done].
    apply wp_bind, wp_set_recv_keys, wp_ret, HQ; [done|done|apply u32_range].
  - apply wp_bind. eapply (wp_decrypt_in_place _ _ _ s kc d b rd crypt mac mode); [done..| |done].
    intros pt cs Hpb Hpl Hfit. pose proof Hwf as (?&?&?&?).
    assert (Hw : wf_buf (after_store (b_pos b) pt b)) by (apply wf_after_store; [done|done|lia|lia]).
    apply wp_bind, wp_on_readbuf, wp_buf_getint; [done| |done]. intros.
    apply wp_ret, HQ; [apply wf_after_get; [done|lia|done]|done|apply u32_range].
Qed.

Lemma wp_read_packet_init_safe s kc d rb rd (Q : bool → sshsession → Prop) :
  dir_ok d → rb_init (dir_block d) rb → reads_ok rd →
  (∀ rb' rd', rb_init (dir_block d) rb' → reads_ok rd' → Q false (rv s kc d rb' rd')) →
  (∀ cs b' rd', rb_body (dir_block d) b' → reads_ok rd' →
     Q true (rv s kc (set_cipher_state cs d) (Some b') rd')) →
  wp read_packet_init any_exit Q (rv s kc d rb rd).
Proof.
  intros (crypt&mac&mode&His&Hbs&Hmac&Hmode&Hz) Hrb Hrd HF HT. pose proof His as (Hc&Hm&Hmo).
  unfold dir_block in *. rewrite Hc in *. set (bs := c_blocksize crypt) in *.
  unfold read_packet_init. apply wp_bind, wp_recv_keys.
  do 3 (apply wp_bind; eapply wp_ptr; [done|]). fold bs.
  apply wp_bind, wp_get, wp_bind.
  apply (wp_mono _ _ (λ _ st, ∃ b, (wf_buf b ∧ b_len b < bs ∧ b_pos b = b_len b) ∧
    st = rv s kc d (Some b) rd)).
  { cbn [readbuf pkt rv on_wld on_pkt set_wld set_pkt set_readbuf]. destruct rb as [b|].
    - apply wp_ret. by exists b.
    - apply wp_bind, wp_buf_new; [|done]. intros. apply wp_modify.
      eexists. split; [|done]. split; [by apply wf_new|]. simpl. lia. }
  intros _ ? (b&(Hwf&Hlt&Hpos)&->).
  pose proof Hwf as (?&?&?&?).
  apply wp_bind, wp_on_readbuf, wp_gets. rewrite u32_small by lia.
  apply wp_bind, wp_on_readbuf, wp_buf_getwriteptr; [done|lia| |done]. intros Hroom.
  apply wp_bind, wp_sock_read; [done|lia|..|done].
  { intros rd' Hrd'. by apply wp_ret, HF. }
  intros data rd' Hrd' Hdb Hdl. destruct data as [|x data]; [done|].
  set (dt := x :: data) in *. pose proof (zlen_nonneg dt).
  apply wp_bind, wp_on_readbuf, wp_store; [done|lia|lia|].
  assert (Hw1 : wf_buf (after_store (b_pos b) dt b)) by (apply wf_after_store; [done|done|lia|lia]).
  apply wp_bind, wp_on_readbuf, wp_buf_incrwritepos; [done|lia| |done].
  cbn [after_store b_data b_len b_pos b_size]. intros _.
  set (b1 := mkbuf _ _ _ _).
  assert (Hw2 : wf_buf b1).
  { unfold b1. destruct Hw1 as (?&?&?&?). split_and!; cbn [after_store b_data b_len b_pos b_size] in *; try done; lia. }
  apply wp_if; intros Hcmp.
  { apply wp_ret, HF; [|done]. unfold rb_init, b1; cbn [b_len b_pos]. split_and!; [done|lia|lia]. }
  apply wp_bind, wp_on_readbuf, wp_buf_setpos; [|done]. intros Hlen1.
  assert (wf_buf (set_pos 0 b1)) by (apply wf_set_pos; [done|lia]).
  apply (wp_packet_length _ _ _ _ _ _ crypt mac mode); [done|done|lia|done|done|].
  intros len plen cs b2 Hw3 Hsz Hlen. unfold u32_ok in Hlen. cbn beta iota. if_false.
  apply wp_bind, wp_exit_if; [done|]. intros Hchk.
  apply wp_bind, wp_get, wp_bind. eapply wp_ptr; [done|].
  apply wp_bind.
  assert (Hfin : ∀ b3, wf_buf b3 →
    wp (do* on_readbuf (buf_setlen len); do* on_readbuf (buf_setpos bs); ret true) any_exit Q
      (rv s kc (set_cipher_state cs d) (Some b3) rd')).
  { intros b3 Hb3. pose proof Hb3 as (?&?&?&?). apply wp_bind, wp_on_readbuf, wp_buf_setlen; [|done]. intros Hl3.
    apply wp_bind, wp_on_readbuf, wp_buf_setpos; [|done]. cbn [b_len]. intros Hp3.
    apply wp_ret, HT; [|done]. split_and!; [|done|].
    + apply wf_set_pos; [apply wf_setlen; [done|lia]|simpl; lia].
    + cbn [set_pos b_len]. lia. }
  apply wp_when; intros Hsize; [|by apply Hfin].
  apply wp_bind, wp_buf_resize; [done|lia| |done]. intros b3 Hb3 _ _ _ _.
  apply wp_modify. change (on_pkt _ _) with (rv s kc (set_cipher_state cs d) (Some b3) rd').
  by apply Hfin.
Qed.

(** [make_mac] reads the packet and leaves it as it was, cursor aside. *)
Lemma wp_make_mac seqno d mac n (E : string → Prop) (Q : list Z → buffer → Prop) b :
  algo_mac d = Some mac → mac_ok d mac → wf_buf b → 0 ≤ n →
  (∀ m, h_hashsize mac ≤ zlen m → bytes_ok m →
    (0 < h_hashsize mac → n ≤ b_len b) → Q m (set_pos 0 b)) →
  (h_hashsize mac = 0 → Q [] b) → (∀ e, E e) →
  wp (make_mac seqno d n) E Q b.
Proof.
  intros Hm (Hh&Hk&Hlaw) Hwf Hn HQ HQ0 HE. pose proof Hwf as (?&?&?&?).
  apply wp_bind. eapply wp_ptr; [done|]. apply wp_if; intros Hpos; [|apply wp_ret, HQ0; lia].
  if_false. apply wp_bind, wp_buf_setpos; [|lia]. intros _.
  apply wp_bind_assoc.
  apply wp_bind, wp_load_cursor; [by apply wf_set_pos; [done|lia]|done| |done]. intros Hfit.
  destruct (hmac _ _ _) as [m|] eqn:Hhm; [|apply wp_exit, HE].
  apply Hlaw in Hhm as [Hml Hmb]. apply wp_ret, HQ; [| |done].
  - unfold zlen, MAX_MAC_LEN in *. rewrite length_take. lia.
  - by apply Forall_take.
Qed.

Lemma wp_mac_prefix {S} mac n E (Q : list Z → S → Prop) st :
  n ≤ zlen mac → Q (slice 0 n mac) st → wp (mac_prefix mac n) E Q st.
Proof. intros Hn HQ. unfold mac_prefix. if_false. by apply wp_ret. Qed.

Lemma wp_checkmac_safe s kc d b rd Q :
  dir_ok d → wf_buf b →
  (∀ r b', wf_buf b' → b_len b' = b_len b → Q r (rv s kc d (Some b') rd)) →
  wp checkmac any_exit Q (rv s kc d (Some b) rd).
Proof.
  intros (crypt&mac&mode&(Hc&Hm&Hmo)&Hbs&Hmac&Hmode&Hz) Hwf HQ. pose proof Hwf as (?&?&?&?).
  pose proof Hmac as (Hhs&_&_). unfold MAX_MAC_LEN in Hhs.
  apply wp_bind, wp_recv_keys, wp_bind. eapply wp_ptr; [done|].
  apply wp_bind, wp_get, wp_bind. eapply wp_ptr; [done|]. cbn zeta.
  apply wp_bind, wp_on_readbuf, wp_buf_setpos; [|lia]. intros _.
  pose proof (u32_range (b_len b - h_hashsize mac)) as Hcl. set (cl := u32 _) in *.
  assert (Hw1 : wf_buf (set_pos 0 b)) by (apply wf_set_pos; [done|lia]).
  assert (Hgo : ∀ m b1, h_hashsize mac ≤ zlen m → wf_buf b1 → b_len b1 = b_len b →
    wp (do* on_readbuf (buf_setpos cl);
        let* theirs := on_readbuf (let* p := buf_getptr (h_hashsize mac) in mem_load p (h_hashsize mac)) in
        let* ours := mac_prefix m (h_hashsize mac) in
        ret (constant_time_eq ours theirs)) any_exit Q (rv s kc d (Some b1) rd)).
  { intros m b1 Hml Hwb1 Hlb1. apply wp_bind, wp_on_readbuf, wp_buf_setpos; [|done]. intros.
    assert (wf_buf (set_pos cl b1)) by (apply wf_set_pos; [done|lia]).
    apply wp_bind, wp_on_readbuf, wp_load_cursor; [done|lia| |done]. intros.
    apply wp_bind, wp_mac_prefix; [done|]. apply wp_ret, HQ; [done|]. simpl. lia. }
  apply wp_bind, wp_on_readbuf. apply (wp_make_mac _ _ mac); [done..|lia| | |done].
  - intros m Hml Hmb _. apply Hgo; [done|by apply wf_set_pos; [done|simpl; lia]|done].
  - intros Hh0. apply Hgo; [rewrite Hh0; apply zlen_nonneg|done|done].
Qed.

(** What holds of the session between two calls of the receive path. *)
Definition recv_inv s : Prop :=
  ∃ kc, keys s = Some kc ∧ dir_ok (k_recv kc) ∧ reads_ok (w_reads (wld s)) ∧
    (rb_init (dir_block (k_recv kc)) (readbuf (pkt s)) ∨
     ∃ b, readbuf (pkt s) = Some b ∧ rb_body (dir_block (k_recv kc)) b).

(** A payload ready for [process_packet]. *)
Definition payload_ready s : Prop :=
  ∃ p, payload (pkt s) = Some p ∧ wf_buf p ∧ payload_beginning (pkt s) = b_pos p.

Lemma wp_buf_decompress_safe n s kc d b rd (Q : buffer → sshsession → Prop) :
  dir_ok d → is_Some (zstream d) → wf_buf b → 0 ≤ n →
  (∀ r zs, wf_buf r → Q r (rv s kc (set_zstream (Some zs) d) (Some b) rd)) →
  wp (buf_decompress n) any_exit Q (rv s kc d (Some b) rd).
Proof.
  intros Hd [zs Hzs] Hwf Hn HQ. apply wp_bind, wp_recv_keys, wp_bind. eapply wp_ptr; [done|].
  apply wp_bind, wp_buf_new; [|done]. intros.
  apply wp_bind, wp_on_readbuf, wp_load_cursor; [done..| |done]. intros Hfit.
  cbn [b_size]. destruct (inflate zs _ _) as [[[res zs'] out] left] eqn:Hinf.
  apply inflate_out in Hinf as (Hol&Hob&Hleft); [|by vm_compute]. apply wp_bind, wp_set_recv_keys.
  assert (Hw : wf_buf (mkbuf (zeros (RECV_MAX_PAYLOAD_LEN + 1)) 0 0 (RECV_MAX_PAYLOAD_LEN + 1))).
  { apply wf_new. unfold RECV_MAX_PAYLOAD_LEN, BUF_MAX_SIZE. lia. }
  pose proof (zlen_nonneg out).
  apply wp_bind, wp_on_new, wp_store; [done|lia|cbn [b_size]; lia|].
  apply wp_bind, wp_exit_if; [done|]. intros _.
  apply wp_bind, wp_on_new, wp_buf_setlen; [|done]. intros.
  apply wp_bind, wp_exit_if; [done|]. intros _. apply wp_ret, HQ.
  apply wf_setlen; [apply wf_after_store; [done|done|lia|cbn [b_size]; lia]|lia].
Qed.

Lemma wp_decrypt_packet_safe s kc d b rd Q :
  dir_ok d → rb_body (dir_block d) b → reads_ok rd →
  (∀ s', recv_inv s' → readbuf (pkt s') = None → payload_ready s' → Q tt s') →
  wp decrypt_packet any_exit Q (rv s kc d (Some b) rd).
Proof.
  intros Hd (Hwf&Hpos&Hmax) Hrd HQ. pose proof Hd as (crypt&mac&mode&His&Hbs&Hmac&Hmode&Hz).
  pose proof His as (Hc&Hm&Hmo). unfold dir_block in *. rewrite Hc in *.
  pose proof Hmac as (Hhs&_&_). unfold MAX_MAC_LEN in Hhs. pose proof Hwf as (?&?&?&?).
  unfold decrypt_packet. apply wp_bind, wp_recv_keys.
  do 3 (apply wp_bind; eapply wp_ptr; [done|]). cbn zeta.
  apply wp_bind, wp_on_readbuf, wp_gets. apply wp_bind, wp_modify.
  change (on_kexstate ?f (rv s kc d ?rb rd)) with (rv (on_kexstate f s) kc d rb rd).
  set (s1 := on_kexstate _ s). apply wp_bind.
  apply (wp_mono _ _ (λ _ st, ∃ cs b1, wf_buf b1 ∧ b_len b1 = b_len b ∧
    st = rv s1 kc (set_cipher_state cs d) (Some b1) rd)).
  { pose proof Hmode as Hmode'. unfold mode_ok in Hmode'.
    destruct (cm_aead_crypt mode) as [aead|] eqn:Ha.
    - destruct Hmode' as [_ Hlaw].
      apply wp_bind, wp_on_readbuf, wp_buf_setpos; [|lia]. intros _.
      assert (Hw0 : wf_buf (set_pos 0 b)) by (apply wf_set_pos; [done|lia]).
      apply wp_bind, wp_on_readbuf, wp_gets. cbn [set_pos b_len b_pos].
      pose proof (u32_range (b_len b - h_hashsize mac - 0)) as Hlr. set (len := u32 _) in *.
      pose proof (u32_range (len + h_hashsize mac)) as Hlr2.
      apply wp_bind, wp_on_readbuf, wp_load_cursor; [done|lia| |done]. intros Hfit.
      apply wp_bind, wp_on_readbuf, wp_buf_getwriteptr; [done|lia| |done].
      cbn [set_pos b_pos b_size]. intros Hfit2. apply wp_bind, wp_get, wp_bind.
      destruct (aead _ _ _ _ _ _) as [[pt cs]|] eqn:Hdec; [|done].
      apply Hlaw in Hdec as [Hpl Hpb]; [|by apply bytes_ok_slice].
      apply wp_bind, wp_on_readbuf, wp_store; [done|lia|cbn [set_pos b_size]; lia|].
      assert (Hw1 : wf_buf (after_store 0 pt (set_pos 0 b)))
        by (apply wf_after_store; [done|done|lia|cbn [set_pos b_size]; lia]).
      apply wp_set_recv_keys. apply wp_on_readbuf, wp_buf_incrpos; [done|lia| |done]. intros.
      exists cs, (after_get len (after_store 0 pt (set_pos 0 b))).
      split_and!; [apply wf_after_get; [done|lia|done]|done|done].
    - apply wp_bind, wp_on_readbuf, wp_buf_setpos; [|done]. intros Hp.
      assert (Hw0 : wf_buf (set_pos (c_blocksize crypt) b)) by (apply wf_set_pos; [done|lia]).
      apply wp_bind, wp_on_readbuf, wp_gets. cbn [set_pos b_len b_pos].
      pose proof (u32_range (b_len b - h_hashsize mac - c_blocksize crypt)) as Hlr. set (len := u32 _) in *.
      apply wp_bind. eapply (wp_decrypt_in_place _ _ _ s1 kc d _ rd crypt mac mode); [done..|lia| |done].
      cbn [set_pos b_pos]. intros pt cs Hpb Hpl Hfit. cbn [set_pos b_len] in Hfit.
      assert (Hw1 : wf_buf (after_store (c_blocksize crypt) pt (set_pos (c_blocksize crypt) b)))
        by (apply wf_after_store; [done|done|lia|cbn [set_pos b_size]; lia]).
      apply wp_bind, wp_on_readbuf, wp_buf_incrpos; [done|lia| |done]. intros.
      apply wp_bind, wp_checkmac_safe; [done|apply wf_after_get; [done|lia|done]|].
      intros r b2 Hw2 Hl2. apply wp_exit_if; [done|]. intros _.
      exists cs, b2. split_and!; [done|by rewrite Hl2|done]. }
  intros _ ? (cs&b1&Hw1&Hl1&->). set (d1 := set_cipher_state cs d).
  assert (Hd1 : dir_ok d1) by done.
  pose proof Hw1 as (?&?&?&?).
  apply wp_bind, wp_on_readbuf, wp_buf_setpos; [|done]. unfold PACKET_PADDING_OFF. intros.
  assert (wf_buf (set_pos 4 b1)) by (apply wf_set_pos; [done|lia]).
  apply wp_bind, wp_on_readbuf, wp_buf_getbyte; [done| |done]. intros Hpad.
  set (padlen := nth 0 _ 0). apply wp_bind, wp_on_readbuf, wp_gets.
  cbn [after_get set_pos b_len b_pos].
  pose proof (u32_range (b_len b1 - padlen - 4 - 1 - h_hashsize mac)) as Hlr. set (len := u32 _) in *.
  apply wp_bind, wp_exit_if; [done|]. intros Hlen.
  change (RECV_MAX_PAYLOAD_LEN + ZLIB_COMPRESS_EXPANSION) with 32789 in Hlen.
  apply wp_bind, wp_on_readbuf, wp_buf_setpos; [|done].
  unfold PACKET_PAYLOAD_OFF. cbn [after_get set_pos b_len b_pos]. intros Hoff.
  set (b2 := set_pos 5 _). assert (Hw2 : wf_buf b2).
  { unfold b2, after_get. cbn [set_pos b_pos b_len] in Hpad.
    apply wf_set_pos; [apply wf_set_pos; [done|]|]; cbn [set_pos b_pos b_len]; lia. }
  apply wp_bind, wp_bind, wp_recv_keys, wp_bind, wp_get, wp_ret, wp_bind.
  apply wp_if; intros Hcomp.
  - assert (Hzs : is_Some (zstream d1)) by (apply Hz; apply orb_prop in Hcomp as [?%Z.eqb_eq|[_ ?%Z.eqb_eq]%andb_prop]; auto).
    apply wp_bind, wp_buf_decompress_safe; [done|done|done|lia|]. intros r zs Hwr.
    pose proof Hwr as (?&?&?&?).
    apply wp_bind, wp_on_new, wp_buf_setpos; [|lia]. intros _. apply wp_modify, wp_modify, HQ.
    + exists (set_k_recv (set_zstream (Some zs) d1) kc). split_and!; [done|by apply dir_ok_zstream|done|].
      by left.
    + done.
    + exists (set_pos 0 r). split_and!; [done|apply wf_set_pos; [done|lia]|done].
  - apply wp_bind, wp_get, wp_bind. eapply wp_ptr; [done|].
    apply wp_bind, wp_modify. cbn [b2 set_pos after_get b_pos]. rewrite u32_small by lia.
    eapply wp_zoom_ptr; [done|]. apply wp_buf_setlen; [|done]. intros Hfit. apply wp_modify, HQ.
    + exists (set_k_recv d1 kc). split_and!; [done|done|done|]. by left.
    + done.
    + eexists. split_and!; [done| |].
      * apply wf_setlen; [done|lia].
      * cbn. lia.
Qed.

Lemma wp_read_packet_safe s :
  recv_inv s →
  wp read_packet any_exit
    (λ _ s', recv_inv s' ∧ (payload (pkt s') = payload (pkt s) ∨ payload_ready s')) s.
Proof.
  intros (kc&Hk&Hd&Hrd&Hrb). rewrite (rv_self s kc Hk). set (d := k_recv kc) in *.
  set (rb := readbuf (pkt s)) in *. set (rd := w_reads (wld s)) in *. clearbody rb rd.
  assert (Hinv : ∀ d' rb' rd', dir_ok d' → reads_ok rd' →
    (rb_init (dir_block d') rb' ∨ ∃ b, rb' = Some b ∧ rb_body (dir_block d') b) →
    recv_inv (rv s kc d' rb' rd')).
  { intros d' rb' rd' ???. exists (set_k_recv d' kc). done. }
  pose proof Hd as (crypt&mac&mode&(Hc&Hm&Hmo)&_). unfold read_packet.
  apply wp_bind, wp_recv_keys, wp_bind. eapply wp_ptr; [done|]. cbn zeta.
  assert (Hblk : dir_block d = c_blocksize crypt) by (unfold dir_block; by rewrite Hc).
  apply wp_bind, wp_get, wp_bind.
  apply (wp_mono _ _ (λ go st,
    (go = false ∧ ∃ rb' rd', rb_init (dir_block d) rb' ∧ reads_ok rd' ∧ st = rv s kc d rb' rd') ∨
    (go = true ∧ ∃ cs b' rd', rb_body (dir_block d) b' ∧ reads_ok rd' ∧
       st = rv s kc (set_cipher_state cs d) (Some b') rd'))).
  { assert (Hinit : rb_init (dir_block d) rb → wp read_packet_init any_exit (λ go st,
      (go = false ∧ ∃ rb' rd', rb_init (dir_block d) rb' ∧ reads_ok rd' ∧ st = rv s kc d rb' rd') ∨
      (go = true ∧ ∃ cs b' rd', rb_body (dir_block d) b' ∧ reads_ok rd' ∧
         st = rv s kc (set_cipher_state cs d) (Some b') rd')) (rv s kc d rb rd)).
    { intros. apply wp_read_packet_init_safe; [done..| |]; naive_solver. }
    cbn [readbuf pkt rv on_wld on_pkt set_wld set_pkt set_readbuf]. destruct rb as [b|]; [|by apply Hinit].
    apply wp_if; intros Hlt.
    - apply Hinit. destruct Hrb as [?|(?&[= <-]&(?&?&?&?)&?&?)]; [done|lia].
    - apply wp_ret. right. split; [done|]. exists (cipher_state d), b, rd.
      destruct Hrb as [(?&?&?)|(?&[= <-]&?)]; [lia|]. split_and!; [done|done|]. by destruct d. }
  intros go ? [(->&rb'&rd'&Hrb'&Hrd'&->)|(->&cs&b'&rd'&Hb'&Hrd'&->)]; cbn [negb].
  { apply wp_ret. split; [|by left]. apply Hinv; auto. }
  set (d' := set_cipher_state cs d). assert (Hd' : dir_ok d') by done.
  pose proof Hb' as (Hwf&Hpos&Hmax). pose proof Hwf as (?&?&?&?).
  assert (Hdec : ∀ b1 rd1, rb_body (dir_block d') b1 → reads_ok rd1 →
    wp decrypt_packet any_exit (λ _ s', recv_inv s' ∧
      (payload (pkt s') = payload (pkt (rv s kc d rb rd)) ∨ payload_ready s')) (rv s kc d' (Some b1) rd1)).
  { intros. apply wp_decrypt_packet_safe; [done..|]. auto. }
  apply wp_bind, wp_on_readbuf, wp_gets. rewrite u32_small by (unfold BUF_MAX_SIZE in *; lia).
  apply wp_if; intros Hzero; [by apply Hdec|].
  apply wp_bind, wp_on_readbuf, wp_buf_getptr; [done|lia| |done]. intros _.
  apply wp_bind, wp_sock_read; [done|lia|..|done].
  { intros rd2 Hrd2. apply wp_ret. split; [apply Hinv; eauto|by left]. }
  intros data rd2 Hrd2 Hdb Hdl. destruct data as [|x data]; [done|].
  set (dt := x :: data) in *. pose proof (zlen_nonneg dt).
  apply wp_bind, wp_on_readbuf, wp_store; [done|lia|lia|].
  assert (Hw1 : wf_buf (after_store (b_pos b') dt b')) by (apply wf_after_store; [done|done|lia|lia]).
  apply wp_bind, wp_on_readbuf, wp_buf_incrpos; [done|lia| |done]. intros Hin.
  assert (Hbody : rb_body (dir_block d') (after_get (zlen dt) (after_store (b_pos b') dt b'))).
  { split; [apply wf_after_get; [done|lia|done]|]. cbn [after_get set_pos after_store b_pos b_len] in *.
    change (dir_block d') with (dir_block d). lia. }
  apply wp_when; intros Hdone; [by apply Hdec|]. split; [apply Hinv; eauto|by left].
Qed.
End receive.

(** ** Packets as values

    [open_packet] is what a receiver accepts, [seal_packet] above what a
    sender produces, both without buffers. *)

Section packet_values.
Context {CL : CryptoLib}.
Implicit Types (s : sshsession) (d : key_context_directional) (b : buffer) (rd : list read_event).

(** The MAC over sequence number and plaintext has the value [tag]. *)
Definition mac_tag_ok d (mac : dropbear_hash) (seqno : Z) (plain tag : list Z) : bool :=
  if h_hashsize mac >? 0 then
    match hmac (hash_index d) (slice 0 (h_keysize mac) (mackey d)) (STORE32H seqno ++ plain) with
    | Some m => constant_time_eq (slice 0 (h_hashsize mac) (take (Z.to_nat MAX_MAC_LEN) m)) tag
    | None => false
    end
  else true.

(** The packet in [data] (for a stream mode its first block is decrypted
    already): the plaintext and the next cipher state, or rejection. *)
Definition open_packet d (seqno : Z) (data : list Z) : option (list Z * CS) :=
  match algo_crypt d, algo_mac d, crypt_mode d with
  | Some crypt, Some mac, Some mode =>
      let blocksize := c_blocksize crypt in
      let macsize := h_hashsize mac in
      let n := zlen data - macsize in
      match cm_aead_crypt mode with
      | Some aead_crypt =>
          if n <? 0 then None else aead_crypt seqno data n macsize (cipher_state d) LTC_DECRYPT
      | None =>
          if n <? blocksize then None
          else match cm_decrypt mode with
               | None => None
               | Some decrypt =>
                   match decrypt (slice blocksize (n - blocksize) data) (cipher_state d) with
                   | None => None
                   | Some (pt, cs) =>
                       let plain := slice 0 blocksize data ++ pt in
                       if mac_tag_ok d mac seqno plain (slice n macsize data)
                       then Some (plain, cs) else None
                   end
               end
      end
  | _, _, _ => None
  end.

(** Length of the payload in a plaintext packet. *)
Definition payload_len (plain : list Z) : Z := zlen plain - nth 4 plain 0 - 5.
Definition payload_len_ok (plain : list Z) : bool :=
  (5 <=? zlen plain) && (1 <=? payload_len plain)
  && (payload_len plain <=? RECV_MAX_PAYLOAD_LEN + ZLIB_COMPRESS_EXPANSION).

Definition compress_active s d : bool :=
  (algo_comp d =? DROPBEAR_COMP_ZLIB) || (authdone s && (algo_comp d =? DROPBEAR_COMP_ZLIB_DELAY)).

(** The session after a packet with plaintext [plain] was accepted: its
    payload is in place, the sequence number counted. *)
Definition payload_buf b (plain : list Z) : buffer :=
  mkbuf (splice 0 plain (b_data b)) (5 + payload_len plain) 5 (b_size b).
Definition accepted s kc d rd b (plain : list Z) (cs : CS) : sshsession :=
  on_pkt (λ x, set_recvseq (u32 (recvseq x + 1)) (set_readbuf None
           (set_payload_beginning 5 (set_payload (Some (payload_buf b plain)) x))))
    (rv (on_kexstate (λ x, set_datarecv (u32 (datarecv x + b_len b)) x) s)
        kc (set_cipher_state cs d) None rd).

(** The same with compression: the payload is what [inflate] made of it. *)
Definition payload_of (plain : list Z) : list Z := slice 5 (payload_len plain) plain.
Definition accepted_zip s kc d rd b (zs : ZS) (out : list Z) (cs : CS) : sshsession :=
  let size := RECV_MAX_PAYLOAD_LEN + 1 in
  on_pkt (λ x, set_recvseq (u32 (recvseq x + 1)) (set_readbuf None
           (set_payload_beginning 0 (set_payload (Some (mkbuf (splice 0 out (zeros size)) (zlen out) 0 size)) x))))
    (rv (on_kexstate (λ x, set_datarecv (u32 (datarecv x + b_len b)) x) s)
        kc (set_zstream (Some zs) (set_cipher_state cs d)) None rd).

(** What becomes of a packet that was opened: [R] of the session with its
    payload, or [bad]. *)
Definition taken s kc d rd b (plain : list Z) (cs : CS) (R : sshsession → Prop) (bad : Prop) : Prop :=
  if payload_len_ok plain then
    if compress_active s d then
      ∃ zs zs' out, zstream d = Some zs ∧
        inflate zs (payload_of plain) (RECV_MAX_PAYLOAD_LEN + 1) = (Z_OK, zs', out, 0) ∧
        zlen out ≤ RECV_MAX_PAYLOAD_LEN ∧ bytes_ok out ∧ R (accepted_zip s kc d rd b zs' out cs)
    else R (accepted s kc d rd b plain cs)
  else bad.

Lemma splice_tail off pt l :
  0 ≤ off ≤ zlen l → splice off pt l = splice 0 (slice 0 off l ++ pt) l.
Proof.
  intros H. unfold splice, slice, zlen in *. change (Z.to_nat 0) with 0%nat.
  rewrite drop_0, take_0, length_app, length_take, app_nil_l, <-app_assoc. do 3 f_equal. lia.
Qed.

Lemma wp_checkmac s kc d b rd E Q crypt mac mode :
  dir_is d crypt mac mode → mac_ok d mac → wf_buf b → h_hashsize mac ≤ b_len b →
  let n := b_len b - h_hashsize mac in
  let ok := mac_tag_ok d mac (recvseq (pkt s)) (slice 0 n (b_data b))
              (slice n (h_hashsize mac) (b_data b)) in
  (∀ p, 0 ≤ p ≤ b_len b → Q ok (rv s kc d (Some (set_pos p b)) rd)) →
  (ok = false → ∀ e, E e) →
  wp checkmac E Q (rv s kc d (Some b) rd).
Proof.
  intros (Hc&Hm&Hmo) Hmac Hwf Hle n ok HQ HE. pose proof Hwf as (?&?&?&?).
  pose proof Hmac as (Hhs&Hks&Hlaw). unfold MAX_MAC_LEN in Hhs.
  apply wp_bind, wp_recv_keys, wp_bind. eapply wp_ptr; [done|].
  apply wp_bind, wp_get, wp_bind. eapply wp_ptr; [done|]. cbn zeta.
  apply wp_bind, wp_on_readbuf, wp_buf_setpos; [|lia]. intros _.
  rewrite u32_small by (unfold BUF_MAX_SIZE in *; lia). fold n.
  assert (Hw1 : wf_buf (set_pos 0 b)) by (apply wf_set_pos; [done|lia]).
  assert (Hw2 : wf_buf (set_pos n b)) by (apply wf_set_pos; [done|lia]).
  assert (Hgo : ∀ m p, h_hashsize mac ≤ zlen m →
    constant_time_eq (slice 0 (h_hashsize mac) m) (slice n (h_hashsize mac) (b_data b)) = ok →
    wp (do* on_readbuf (buf_setpos n);
        let* theirs := on_readbuf (let* p := buf_getptr (h_hashsize mac) in mem_load p (h_hashsize mac)) in
        let* ours := mac_prefix m (h_hashsize mac) in
        ret (constant_time_eq ours theirs)) E Q (rv s kc d (Some (set_pos p b)) rd)).
  { intros m p Hml Hok. apply wp_bind, wp_on_readbuf, wp_buf_setpos; [|cbn [set_pos b_len]; lia]. intros _.
    apply wp_bind, wp_on_readbuf, wp_load_cursor; [done|lia| |cbn [set_pos b_pos b_len]; lia]. intros _.
    apply wp_bind, wp_mac_prefix; [done|]. apply wp_ret.
    change (slice (b_pos _) (h_hashsize mac) (b_data _)) with (slice n (h_hashsize mac) (b_data b)).
    rewrite Hok. apply (HQ n). lia. }
  apply wp_bind, wp_on_readbuf, wp_bind. eapply wp_ptr; [done|].
  apply wp_if; intros Hpos.
  - if_false. apply wp_bind, wp_buf_setpos; [|cbn [set_pos b_len]; lia]. intros _.
    apply wp_bind_assoc.
    apply wp_bind, wp_load_cursor; [done|lia| |cbn [set_pos b_pos b_len]; lia]. intros _.
    change (slice (b_pos _) n (b_data _)) with (slice 0 n (b_data b)).
    unfold ok, mac_tag_ok in Hgo, HE. rewrite Hpos in Hgo, HE.
    destruct (hmac _ _ _) as [m|] eqn:Hhm; [|by apply wp_exit, HE].
    apply Hlaw in Hhm as [Hml Hmb]. apply wp_ret, Hgo; [|done].
    unfold zlen, MAX_MAC_LEN in *. rewrite length_take. lia.
  - apply wp_ret, Hgo; [unfold zlen; simpl; lia|].
    assert (Hh0 : h_hashsize mac = 0) by lia. unfold ok, mac_tag_ok. rewrite Hh0. done.
Qed.

(** [decrypt_packet] accepts exactly what [open_packet] accepts. *)
(** Decryption and the integrity check, on a packet in the read buffer. *)
Definition open_step (mode : dropbear_cipher_mode CS) d (blocksize macsize : Z) : ST sshsession unit :=
  match cm_aead_crypt mode with
  | Some aead_crypt =>
      do* on_readbuf (buf_setpos 0);
      let* len := on_readbuf (gets (λ b, u32 (b_len b - macsize - b_pos b))) in
      let* bs := on_readbuf (let* p := buf_getptr (u32 (len + macsize)) in
                             mem_load p (u32 (len + macsize))) in
      let* out := on_readbuf (buf_getwriteptr len) in
      let* s := get in
      do* (match aead_crypt (recvseq (pkt s)) bs len macsize (cipher_state d) LTC_DECRYPT with
           | None => dropbear_exit "Error decrypting"
           | Some (pt, cs) =>
               do* on_readbuf (mem_store out pt);
               set_recv_keys (set_cipher_state cs d)
           end);
      on_readbuf (buf_incrpos len)
  | None =>
      do* on_readbuf (buf_setpos blocksize);
      let* len := on_readbuf (gets (λ b, u32 (b_len b - macsize - b_pos b))) in
      do* decrypt_in_place len;
      do* on_readbuf (buf_incrpos len);
      let* ok := checkmac in
      exit_if (negb ok) "Integrity error"
  end.

Lemma wp_open_step s kc d b rd (E : string → Prop) (Q : unit → sshsession → Prop) crypt mac mode
    (R : list Z → CS → Prop) :
  dir_is d crypt mac mode → mac_ok d mac → mode_ok mode → 8 ≤ c_blocksize crypt ≤ 16 →
  rb_body (c_blocksize crypt) b →
  match open_packet d (recvseq (pkt s)) (contents b) with
  | Some (plain, cs) => R plain cs
  | None => ∀ e, E e
  end →
  (∀ plain cs p, 0 ≤ p ≤ b_len b → zlen plain = b_len b - h_hashsize mac → bytes_ok plain → R plain cs →
     Q tt (rv s kc (set_cipher_state cs d) (Some (set_pos p (after_store 0 plain b))) rd)) →
  wp (open_step mode d (c_blocksize crypt) (h_hashsize mac)) E Q (rv s kc d (Some b) rd).
Proof.
  intros His Hmac Hmode Hbs (Hwf&Hpos&Hmax) HQ Hend. pose proof His as (Hc&Hm&Hmo).
  unfold open_packet in HQ. rewrite Hc, Hm, Hmo in HQ. rewrite contents_length in HQ by done.
  unfold contents in HQ.
  pose proof Hmac as (Hhs&_&_). unfold MAX_MAC_LEN in Hhs. pose proof Hwf as (?&?&?&?).
  unfold BUF_MAX_SIZE in *.
  set (macsize := h_hashsize mac) in *. set (n := b_len b - macsize) in *.
  apply (wp_mono _ _ (λ _ st, ∃ plain cs p, (0 ≤ p ≤ b_len b ∧ zlen plain = n ∧ bytes_ok plain ∧ R plain cs) ∧
    st = rv s kc (set_cipher_state cs d) (Some (set_pos p (after_store 0 plain b))) rd)).
  2: { intros [] ? (plain&cs&p&(?&?&?&?)&->). by eapply Hend. }
  unfold open_step.
  pose proof Hmode as Hmode'. unfold mode_ok in Hmode'.
  destruct (cm_aead_crypt mode) as [aead|] eqn:Ha.
  - destruct Hmode' as [_ Hlaw].
    apply wp_bind, wp_on_readbuf, wp_buf_setpos; [|lia]. intros _.
    assert (Hw0 : wf_buf (set_pos 0 b)) by (apply wf_set_pos; [done|lia]).
    apply wp_bind, wp_on_readbuf, wp_gets. cbn [set_pos b_len b_pos]. rewrite Z.sub_0_r. fold n.
    assert (Hnm : u32 (u32 n + macsize) = b_len b).
    { unfold u32. rewrite Z.add_mod_idemp_l by lia. unfold n.
      replace (b_len b - macsize + macsize) with (b_len b) by lia. apply u32_small. lia. }
    rewrite Hnm. apply wp_bind, wp_on_readbuf, wp_load_cursor; [done|lia| |cbn [set_pos b_pos b_len]; lia].
    cbn [set_pos b_pos b_data]. intros _.
    apply wp_bind, wp_on_readbuf, wp_buf_getwriteptr; [done|pose proof (u32_range n); lia| |].
    2: { cbn [set_pos b_pos b_size]. intros Hbig. destruct (Z.ltb_spec n 0); [by apply HQ|].
         rewrite u32_small in Hbig by lia. lia. }
    cbn [set_pos b_pos b_size]. intros Hfit2.
    assert (Hn0 : 0 ≤ n).
    { destruct (Z_lt_ge_dec n 0); [|lia]. rewrite u32_under in Hfit2 by lia. lia. }
    rewrite (u32_small n) in * by lia. rewrite (proj2 (Z.ltb_ge n 0)) in HQ by lia.
    apply wp_bind, wp_get, wp_bind.
    change (recvseq (pkt (rv s kc d _ rd))) with (recvseq (pkt s)).
    destruct (aead _ _ _ _ _ _) as [[pt cs]|] eqn:Hdec; [|by apply wp_exit].
    apply Hlaw in Hdec as [Hpl Hpb]; [|by apply bytes_ok_slice].
    apply wp_bind, wp_on_readbuf, wp_store; [done|lia|cbn [set_pos b_size]; lia|].
    assert (Hw1 : wf_buf (after_store 0 pt (set_pos 0 b)))
      by (apply wf_after_store; [done|done|lia|cbn [set_pos b_size]; lia]).
    apply wp_set_recv_keys. apply wp_on_readbuf, wp_buf_incrpos; [done|lia| |cbn; lia]. intros _.
    exists pt, cs, (0 + n). split; [|done]. split_and!; [lia|lia|done|done|done].
  - apply wp_bind, wp_on_readbuf, wp_buf_setpos; [|lia]. intros _.
    assert (Hw0 : wf_buf (set_pos (c_blocksize crypt) b)) by (apply wf_set_pos; [done|lia]).
    apply wp_bind, wp_on_readbuf, wp_gets. cbn [set_pos b_len b_pos]. fold n.
    destruct Hmode' as ((dec&Hdec&Hlaw)&_). rewrite Hdec in HQ.
    destruct (Z.ltb_spec n (c_blocksize crypt)) as [Hlt|Hge].
    { apply wp_bind. apply wp_exit_mono with (E := λ _, ∀ e, E e); [|auto].
      eapply (wp_decrypt_in_place _ _ _ s kc d _ rd crypt mac mode); [done..| | |done].
      - apply u32_range.
      - rewrite u32_under by lia. cbn [set_pos b_pos b_len]. intros. lia. }
    rewrite u32_small by lia. set (len := n - c_blocksize crypt) in *.
    apply wp_bind, wp_bind, wp_recv_keys, wp_bind. eapply wp_ptr; [done|]. apply wp_bind.
    eapply wp_ptr; [done|]. apply wp_bind, wp_on_readbuf, wp_load_cursor;
      [done|lia| |cbn [set_pos b_pos b_len]; lia]. cbn [set_pos b_pos b_data b_len]. intros _.
    apply wp_bind, wp_on_readbuf, wp_buf_getwriteptr; [done|lia| |cbn [set_pos b_pos b_size]; lia].
    cbn [set_pos b_pos]. intros _. change (cipher_state _) with (cipher_state d).
    assert (Hsl : slice (c_blocksize crypt) len (slice 0 (b_len b) (b_data b)) =
                  slice (c_blocksize crypt) len (b_data b)).
    { unfold slice. change (Z.to_nat 0) with 0%nat. rewrite drop_0, skipn_firstn_comm, take_take.
      f_equal. lia. }
    rewrite Hsl in HQ.
    destruct (dec _ _) as [[pt cs]|] eqn:Hd; [|by apply wp_exit].
    apply Hlaw in Hd as [Hpl Hpb]; [|by apply bytes_ok_slice]. rewrite zlen_slice in Hpl by lia.
    apply wp_bind, wp_on_readbuf, wp_store; [done|lia|cbn [set_pos b_size]; lia|].
    set (plain := slice 0 (c_blocksize crypt) (b_data b) ++ pt).
    assert (Hpln : zlen plain = n) by (unfold plain; rewrite zlen_app, zlen_slice; lia).
    assert (Hplb : bytes_ok plain) by (apply bytes_ok_app; split; [by apply bytes_ok_slice|done]).
    assert (Hst : after_store (c_blocksize crypt) pt (set_pos (c_blocksize crypt) b) =
                  set_pos (c_blocksize crypt) (after_store 0 plain b)).
    { unfold after_store, set_pos; cbn [b_data b_len b_pos b_size]. by rewrite splice_tail by lia. }
    rewrite Hst.
    assert (Hw1 : wf_buf (after_store 0 plain b)) by (apply wf_after_store; [done|done|lia|lia]).
    apply wp_set_recv_keys, wp_bind, wp_on_readbuf, wp_buf_incrpos;
      [apply wf_set_pos; [done|cbn [after_store b_len]; lia]|lia| |cbn; lia]. intros _.
    set (b2 := after_get len _). assert (Hb2 : b2 = set_pos n (after_store 0 plain b)).
    { unfold b2, after_get, set_pos; cbn [b_data b_len b_pos b_size]. f_equal. unfold len. lia. }
    rewrite Hb2. clear b2 Hb2.
    assert (Hp1 : slice 0 n (splice 0 plain (b_data b)) = plain).
    { rewrite <-Hpln. apply slice_splice_same; lia. }
    assert (Hp2 : slice n macsize (splice 0 plain (b_data b)) =
                  slice n macsize (slice 0 (b_len b) (b_data b))).
    { rewrite slice_splice_after by lia. unfold slice. change (Z.to_nat 0) with 0%nat.
      rewrite drop_0, skipn_firstn_comm, take_take. f_equal. lia. }
    assert (Hp3 : slice 0 (c_blocksize crypt) (slice 0 (b_len b) (b_data b)) =
                  slice 0 (c_blocksize crypt) (b_data b)).
    { unfold slice. change (Z.to_nat 0) with 0%nat. rewrite !drop_0, take_take. f_equal. lia. }
    rewrite Hp3 in HQ. fold plain in HQ.
    apply wp_bind. eapply (wp_checkmac _ _ _ _ _ _ _ crypt mac mode); [done|done|..].
    + apply wf_set_pos; [done|cbn [after_store b_len]; lia].
    + cbn [set_pos after_store b_len]. lia.
    + cbn [set_pos after_store b_len b_data]. fold macsize n. rewrite Hp1, Hp2.
      change (mac_tag_ok (set_cipher_state cs d)) with (mac_tag_ok d).
      intros p Hp. apply wp_exit_if; intros Hok.
      * apply negb_true_iff in Hok. change (recvseq (pkt s)) with (recvseq (pkt s)) in Hok.
        rewrite Hok in HQ. apply HQ.
      * apply negb_false_iff in Hok. change (recvseq (pkt s)) with (recvseq (pkt s)) in Hok.
        rewrite Hok in HQ. exists plain, cs, p. split; [|done]. split_and!; [lia|lia|done|done|done].
    + cbn [set_pos after_store b_len b_data]. fold macsize n. rewrite Hp1, Hp2.
      change (mac_tag_ok (set_cipher_state cs d)) with (mac_tag_ok d).
      intros Hok. by rewrite Hok in HQ.
Qed.

(** Decompression that succeeds. *)
Lemma wp_buf_decompress n s kc d b rd zs zs' (out : list Z) E (Q : buffer → sshsession → Prop) :
  let size := RECV_MAX_PAYLOAD_LEN + 1 in
  zstream d = Some zs → wf_buf b → 0 ≤ n → b_pos b + n ≤ b_len b →
  inflate zs (slice (b_pos b) n (b_data b)) size = (Z_OK, zs', out, 0) →
  zlen out ≤ RECV_MAX_PAYLOAD_LEN → bytes_ok out →
  Q (mkbuf (splice 0 out (zeros size)) (zlen out) 0 size) (rv s kc (set_zstream (Some zs') d) (Some b) rd) →
  wp (buf_decompress n) E Q (rv s kc d (Some b) rd).
Proof.
  intros size Hzs Hwf Hn Hfit Hinf Hol Hob HQ. pose proof (zlen_nonneg out).
  assert (Hsz : size = 32769) by done. change RECV_MAX_PAYLOAD_LEN with 32768 in Hol.
  apply wp_bind, wp_recv_keys, wp_bind. eapply wp_ptr; [done|].
  apply wp_bind, wp_buf_new; [|done]. intros _. fold size.
  apply wp_bind, wp_on_readbuf, wp_load_cursor; [done|done| |lia]. intros _. cbn [b_size]. rewrite Hinf.
  apply wp_bind, wp_set_recv_keys.
  apply wp_bind, wp_on_new, wp_store; [apply wf_new; unfold BUF_MAX_SIZE; lia|lia|cbn [b_size]; lia|].
  change (negb (Z_OK =? Z_OK)) with false. apply wp_bind, wp_ret.
  apply wp_bind, wp_on_new, wp_buf_setlen; [|cbn [after_store b_size]; lia]. intros _.
  cbn [after_store b_size b_len b_pos b_data]. replace (_ || _) with false by (change RECV_MAX_PAYLOAD_LEN with 32768; lia).
  apply wp_bind, wp_ret, wp_ret. rewrite Z.min_l by lia. exact HQ.
Qed.

(** The payload of the opened packet. *)
Lemma wp_decrypt_packet_gen s kc d b rd (E : string → Prop) (Q : unit → sshsession → Prop) crypt mac mode :
  dir_is d crypt mac mode → mac_ok d mac → mode_ok mode → 8 ≤ c_blocksize crypt ≤ 16 →
  rb_body (c_blocksize crypt) b →
  match open_packet d (recvseq (pkt s)) (contents b) with
  | Some (plain, cs) => taken s kc d rd b plain cs (Q tt) (∀ e, E e)
  | None => ∀ e, E e
  end →
  wp decrypt_packet E Q (rv s kc d (Some b) rd).
Proof.
  intros His Hmac Hmode Hbs Hbody HQ. pose proof His as (Hc&Hm&Hmo). pose proof Hbody as (Hwf&Hpos&Hmax).
  pose proof Hmac as (Hhs&_&_). unfold MAX_MAC_LEN in Hhs. pose proof Hwf as (?&?&?&?).
  unfold BUF_MAX_SIZE in *. unfold decrypt_packet. apply wp_bind, wp_recv_keys.
  do 3 (apply wp_bind; eapply wp_ptr; [done|]). cbn zeta.
  apply wp_bind, wp_on_readbuf, wp_gets. apply wp_bind, wp_modify.
  change (on_kexstate ?f (rv s kc d ?rb rd)) with (rv (on_kexstate f s) kc d rb rd).
  set (s1 := on_kexstate _ s). fold (open_step mode d (c_blocksize crypt) (h_hashsize mac)).
  apply wp_bind. eapply (wp_open_step s1 kc d b rd _ _ crypt mac mode); [done|done|done|done|done|exact HQ|].
  clear HQ. intros plain cs p Hp Hpn Hpb HQ.
  set (macsize := h_hashsize mac) in *. set (n := b_len b - macsize) in *. set (d1 := set_cipher_state cs d).
  unfold taken, accepted_zip in HQ.
  assert (Hw1 : wf_buf (after_store 0 plain b)) by (apply wf_after_store; [done|done|lia|lia]).
  unfold payload_len_ok, payload_len in HQ. rewrite !Hpn in HQ.
  apply wp_bind, wp_on_readbuf, wp_buf_setpos; unfold PACKET_PADDING_OFF;
    [|cbn [set_pos after_store b_len]; intros; rewrite (proj2 (Z.leb_gt 5 n)) in HQ by lia; apply HQ].
  cbn [set_pos after_store b_len]. intros Hl4.
  assert (wf_buf (set_pos 4 (after_store 0 plain b))) by (apply wf_set_pos; [done|cbn [after_store b_len]; lia]).
  apply wp_bind, wp_on_readbuf, wp_buf_getbyte; [done|cbn [set_pos after_store b_len b_pos]|
    cbn [set_pos after_store b_len b_pos]; intros; rewrite (proj2 (Z.leb_gt 5 n)) in HQ by lia; apply HQ].
  intros Hl5. set (padlen := nth 0 _ 0). apply wp_bind, wp_on_readbuf, wp_gets.
  cbn [after_get set_pos after_store b_len b_pos b_data b_size].
  assert (Hpad : byte_ok padlen).
  { apply bytes_ok_nth, bytes_ok_slice, bytes_ok_splice; [done|done]. }
  unfold byte_ok in Hpad.
  assert (Hpl : 5 ≤ n → padlen = nth 4 plain 0).
  { intros Hn5. unfold padlen. cbn [set_pos after_store b_pos b_data].
    unfold splice. change (Z.to_nat 0) with 0%nat. rewrite take_0, app_nil_l.
    rewrite slice_app_l by lia. unfold slice. change (Z.to_nat 4) with 4%nat. change (Z.to_nat 1) with 1%nat.
    destruct plain as [|x0 [|x1 [|x2 [|x3 [|x4 plain]]]]]; unfold zlen in Hpn; simpl in Hpn; try lia.
    reflexivity. }
  apply wp_bind, wp_exit_if; change (RECV_MAX_PAYLOAD_LEN + ZLIB_COMPRESS_EXPANSION) with 32789 in *.
  { intros Hbad. destruct (Z.leb_spec 5 n) as [Hn5|Hn5]; [|apply HQ]. rewrite <-Hpl in HQ by lia.
    assert (Hr : true && (1 <=? n - padlen - 5) && (n - padlen - 5 <=? 32789) = false);
      [|rewrite Hr in HQ; apply HQ].
    replace (b_len b - padlen - 4 - 1 - macsize) with (n - padlen - 5) in Hbad by lia.
    destruct (Z_lt_ge_dec (n - padlen - 5) 0); [lia|]. rewrite u32_small in Hbad by lia. lia. }
  intros Hgood. replace (b_len b - padlen - 4 - 1 - macsize) with (n - padlen - 5) in Hgood |- * by lia.
  assert (Hpos0 : 0 ≤ n - padlen - 5).
  { destruct (Z_lt_ge_dec (n - padlen - 5) 0); [|lia]. rewrite u32_under in Hgood by lia. lia. }
  rewrite u32_small in Hgood |- * by lia. rewrite <-Hpl in HQ by lia.
  assert (Hr : (5 <=? n) && (1 <=? n - padlen - 5) && (n - padlen - 5 <=? 32789) = true) by lia.
  rewrite Hr in HQ.
  apply wp_bind, wp_on_readbuf, wp_buf_setpos; unfold PACKET_PAYLOAD_OFF;
    cbn [after_get set_pos after_store b_len b_pos b_data b_size]; [|lia]. intros _.
  apply wp_bind, wp_bind, wp_recv_keys, wp_bind, wp_get, wp_ret, wp_bind.
  change ((algo_comp d1 =? _) || _) with (compress_active s d).
  set (b5 := set_pos 5 _). assert (Hw5 : wf_buf b5).
  { apply wf_set_pos; [apply wf_after_get; [done|lia|cbn; lia]|cbn; lia]. }
  destruct (compress_active s d).
  - destruct HQ as (zs&zs'&out&Hzs&Hinf&Hol&Hob&HQ). apply wp_bind.
    eapply (wp_buf_decompress _ s1 kc d1 b5 rd); [exact Hzs|done|lia|cbn; lia| |exact Hol|exact Hob|].
    { rewrite <-Hinf. f_equal. unfold payload_of, payload_len. rewrite Hpn, <-Hpl by lia.
      cbn [b5 set_pos after_get after_store b_pos b_data].
      unfold splice. change (Z.to_nat 0) with 0%nat.
      rewrite take_0, app_nil_l. apply slice_app_l; lia. }
    apply wp_bind, wp_on_new, wp_buf_setpos; [|cbn; pose proof (zlen_nonneg out); lia]. intros _.
    apply wp_modify, wp_modify. exact HQ.
  - apply wp_bind, wp_get, wp_bind. eapply wp_ptr; [done|].
    apply wp_bind, wp_modify. cbn [b5 set_pos after_get after_store b_pos]. rewrite u32_small by lia.
    eapply wp_zoom_ptr; [done|]. apply wp_buf_setlen; [|cbn [b5 after_get set_pos after_store b_size]; lia].
    intros _. apply wp_modify. unfold accepted, payload_buf, payload_len in HQ. rewrite Hpn, <-Hpl in HQ by lia.
    cbn [b5 after_get set_pos after_store b_data b_pos b_size]. rewrite Z.min_l by lia. exact HQ.
Qed.

Lemma wp_decrypt_packet s kc d b rd E Q crypt mac mode :
  dir_is d crypt mac mode → mac_ok d mac → mode_ok mode → 8 ≤ c_blocksize crypt ≤ 16 →
  rb_body (c_blocksize crypt) b → compress_active s d = false →
  match open_packet d (recvseq (pkt s)) (contents b) with
  | Some (plain, cs) =>
      if payload_len_ok plain then Q tt (accepted s kc d rd b plain cs) else ∀ e, E e
  | None => ∀ e, E e
  end →
  wp decrypt_packet E Q (rv s kc d (Some b) rd).
Proof.
  intros His Hmac Hmode Hbs Hbody Hcomp HQ. eapply (wp_decrypt_packet_gen s kc d b rd E Q crypt mac mode); [done..|].
  unfold taken. rewrite Hcomp. exact HQ.
Qed.
End packet_values.
