(* ===== verification/PacketSend.v ===== *)
(** * The send path of packet.c

    The padding rule, the layout [encrypt_packet] gives a packet, the pure
    function [seal] for what goes on the wire, and the two outcomes of
    [encrypt_packet]: the packet is queued for the socket, or held until the
    key exchange is over. *)

From Stdlib Require Import ZArith Lia.
From stdpp Require Import base list strings gmap.
From S2P Require Import Prelude.
From S2P Require Import Buffer.
From S2P Require Import Queue.
From S2P Require Import Netio.
From S2P Require Import Random.
From S2P Require Import Algo.
From S2P Require Import Cipher.
From S2P Require Import Session.
From S2P Require Import Packet.
From S2P Require Import PacketRecv.

(** ** The send path *)

Section send.
Context {CL : CryptoLib}.
Implicit Types (s : sshsession) (d : key_context_directional) (b wb : buffer).

(** The session with given transmit keys, payload under construction and
    generator. *)
Definition tv s (kc : key_context) d (pl : buffer) (r : rng) : sshsession :=
  on_wld (set_w_rng r) (on_pkt (set_writepayload pl) (set_keys (Some (set_k_trans d kc)) s)).

Lemma tv_self s kc :
  keys s = Some kc → s = tv s kc (k_trans kc) (writepayload (pkt s)) (w_rng (wld s)).
Proof.
  destruct s as [? pk ? ks ? ? ? w]; simpl. intros ->.
  unfold tv, on_wld, on_pkt, set_keys, set_pkt, set_wld; simpl.
  f_equal; [by destruct pk|by destruct kc|by destruct w].
Qed.

Lemma wp_trans_keys E Q s kc d pl r : Q d (tv s kc d pl r) → wp trans_keys E Q (tv s kc d pl r).
Proof. done. Qed.
Lemma wp_set_trans_keys d' E Q s kc d pl r :
  Q tt (tv s kc d' pl r) → wp (set_trans_keys d') E Q (tv s kc d pl r).
Proof. done. Qed.
Lemma wp_on_writepayload {A} (m : ST buffer A) E Q s kc d pl r :
  wp m E (λ a pl', Q a (tv s kc d pl' r)) pl → wp (on_writepayload m) E Q (tv s kc d pl r).
Proof. intros H. by apply wp_zoom. Qed.
Lemma wp_on_rng {A} (m : ST rng A) E Q s kc d pl r :
  wp m E (λ a r', Q a (tv s kc d pl r')) r → wp (on_rng m) E Q (tv s kc d pl r).
Proof. intros H. by apply wp_zoom. Qed.

(** *** Padding *)

(** The padding is between 4 and 41 bytes, aligns the part of the packet
    that is encrypted to the block size, and reaches the minimum length; it
    exceeds a block by more than three bytes only in a short packet. *)
Lemma padding_len_spec aead bs L :
  8 ≤ bs ≤ 16 → 6 ≤ L < 2 ^ 31 →
  let pad := padding_len aead bs L in
  (4 ≤ pad ≤ 41 ∧ (pad ≤ bs + 3 ∨ L + pad < 16 + bs)) ∧ MIN_PACKET_LEN ≤ L + pad ∧
  (L + pad - (if aead then 4 else 0)) mod bs = 0.
Proof.
  intros Hbs HL pad. unfold pad, padding_len, MIN_PACKET_LEN.
  set (len := if aead then u32 (L - 4) else L).
  assert (Hlen : len = L - (if aead then 4 else 0)).
  { unfold len. destruct aead; [rewrite u32_small; lia|lia]. }
  pose proof (Z.mod_pos_bound len bs ltac:(lia)) as Hm.
  pose proof (Z.div_mod len bs ltac:(lia)) as Hd.
  rewrite (u8_small (bs - len mod bs)) by lia.
  set (p1 := if bs - len mod bs <? 4 then _ else _).
  assert (Hp1 : 4 ≤ p1 ≤ bs + 3 ∧ ∃ q, len + p1 = bs * q).
  { unfold p1. destruct (Z.ltb_spec (bs - len mod bs) 4).
    - rewrite u8_small by lia. split; [lia|]. exists (len / bs + 2). lia.
    - split; [lia|]. exists (len / bs + 1). lia. }
  destruct Hp1 as (Hp1&q&Hq).
  assert (Hmod : ∀ x k, L + x - (if aead then 4 else 0) = bs * k →
    (L + x - (if aead then 4 else 0)) mod bs = 0).
  { intros x k ->. rewrite Z.mul_comm. apply Z.mod_mul. lia. }
  destruct (Z.ltb_spec (L + p1) 16).
  - rewrite u8_small by lia. split_and!; [lia|lia|right; lia|lia|]. apply (Hmod _ (q + 1)). lia.
  - split_and!; [lia|lia|left; lia|lia|]. apply (Hmod _ q). lia.
Qed.

(** *** The packet before encryption *)

Definition plain_packet (p pad : list Z) : list Z :=
  STORE32H (1 + zlen p + zlen pad) ++ [zlen pad] ++ p ++ pad.

Lemma plain_packet_length p pad : zlen (plain_packet p pad) = 5 + zlen p + zlen pad.
Proof. unfold plain_packet. rewrite !zlen_app. change (zlen (STORE32H _)) with 4. change (zlen [_]) with 1. lia. Qed.

Lemma splice_head (bs l2 l3 : list Z) : length bs = length l2 → splice 0 bs (l2 ++ l3) = bs ++ l3.
Proof. intros. by apply (splice_app_exact 0 bs [] l2 l3). Qed.

(** The fixed header, payload and padding fill a fresh buffer. *)
Lemma build_layout (size : Z) (p pad : list Z) :
  5 + zlen p + zlen pad ≤ size → zlen pad < 256 →
  let wb0 := after_put p (mkbuf (zeros size) 5 5 size) in
  let wb1 := after_put [u8 (zlen pad)] (after_put (STORE32H (1 + zlen p + zlen pad)) (set_pos 0 wb0)) in
  slice 0 (5 + zlen p + zlen pad) (splice (5 + zlen p) pad (b_data wb1)) = plain_packet p pad.
Proof.
  intros Hs Hp. pose proof (zlen_nonneg p). pose proof (zlen_nonneg pad). cbn zeta.
  set (rest := size - (5 + zlen p + zlen pad)).
  assert (Hz : zeros size = zeros 4 ++ zeros 1 ++ zeros (zlen p) ++ zeros (zlen pad) ++ zeros rest).
  { unfold zeros, rest. rewrite <-!replicate_add. f_equal. lia. }
  unfold after_put, set_pos. cbn [b_data b_pos b_len b_size]. change (zlen (STORE32H _)) with 4.
  rewrite Hz. change (splice 5 p (zeros 4 ++ zeros 1 ++ ?x)) with
    (splice 5 p ((zeros 4 ++ zeros 1) ++ x)).
  rewrite (splice_app_exact 5 p _ (zeros (zlen p)));
    [|done|unfold zeros, zlen; rewrite length_replicate; lia].
  rewrite <-app_assoc.
  rewrite splice_head by done.
  rewrite (splice_app_exact (0 + 4) [u8 (zlen pad)] (STORE32H _) (zeros 1)) by done.
  rewrite u8_small by lia.
  rewrite (app_assoc [zlen pad]), (app_assoc (STORE32H _)).
  rewrite (splice_app_exact (5 + zlen p) pad _ (zeros (zlen pad)));
    [|rewrite !zlen_app; change (zlen (STORE32H _)) with 4; change (zlen [_]) with 1; lia
     |unfold zeros, zlen; rewrite length_replicate; lia].
  unfold plain_packet. rewrite app_assoc.
  pose proof (slice_app_exact 0 (5 + zlen p + zlen pad) []
    ((STORE32H (1 + zlen p + zlen pad) ++ [zlen pad] ++ p) ++ pad) (zeros rest)) as Hx.
  rewrite app_nil_l in Hx. rewrite Hx; [by rewrite <-!app_assoc|done|].
  rewrite !zlen_app. change (zlen (STORE32H _)) with 4. change (zlen [_]) with 1. lia.
Qed.

Definition empty_payload b : buffer := mkbuf (b_data b) 0 0 (b_size b).

Lemma wf_empty_payload b : wf_buf b → wf_buf (empty_payload b).
Proof. unfold empty_payload. wf_buf_lia. Qed.

Lemma wp_clear_writepayload {A} (m : ST sshsession A) E Q s kc d pl r :
  wf_buf pl → wp m E Q (tv s kc d (empty_payload pl) r) →
  wp (do* on_writepayload (buf_setpos 0); do* on_writepayload (buf_setlen 0); m) E Q (tv s kc d pl r).
Proof.
  intros (?&?&?&?) Hm. apply wp_bind, wp_on_writepayload, wp_buf_setpos; [|lia]. intros _.
  apply wp_bind, wp_on_writepayload, wp_buf_setlen; [|cbn [set_pos b_size]; lia]. intros _. exact Hm.
Qed.

(** Sizes of a payload the send path has room for. *)
Definition sendable (p : list Z) : Prop := bytes_ok p ∧ 1 ≤ zlen p ≤ 1000000.

(** The room [encrypt_packet] leaves for a payload of [n] bytes in its buffer. *)
Definition packet_room (bs macsize n : Z) : Z := n + Z.max MIN_PACKET_LEN bs + 3 + macsize + ZLIB_COMPRESS_EXPANSION + 1.

(** [w] goes into the packet for the payload [p], and leaves the keys [d']:
    the payload itself, or what [deflate] makes of it. *)
Definition wired s d (room : Z) (p w : list Z) d' : Prop :=
  if compress_active s d then
    ∃ zs zs', zstream d = Some zs ∧ deflate zs p room = (Z_OK, zs', w, 0) ∧ bytes_ok w ∧
      1 ≤ zlen w ≤ zlen p + ZLIB_COMPRESS_EXPANSION ∧ d' = set_zstream (Some zs') d
  else w = p ∧ d' = d.

(** The step of [encrypt_packet] that fills in the payload. *)
Definition fill_payload (writebuf : buffer) (plen : Z) : ST sshsession buffer :=
  let* comp := is_compress_trans in
  if comp then buf_compress writebuf plen
  else
    let* (out, writebuf) := on_new writebuf (buf_getwriteptr plen) in
    let* bs := on_writepayload (let* p := buf_getptr plen in mem_load p plen) in
    let* (_, writebuf) := on_new writebuf (do* mem_store out bs; buf_incrwritepos plen) in
    ret writebuf.

Lemma wp_fill_payload room w d' E (Q : buffer → sshsession → Prop) s kc d pl r :
  let wb0 := mkbuf (zeros (5 + room)) 5 5 (5 + room) in
  wf_buf pl → b_pos pl = 0 → sendable (contents pl) → zlen (contents pl) + ZLIB_COMPRESS_EXPANSION ≤ room ≤ 2 ^ 21 →
  wired s d room (contents pl) w d' →
  (∀ pl', wf_buf pl' → empty_payload pl' = empty_payload pl → Q (after_put w wb0) (tv s kc d' pl' r)) →
  wp (fill_payload wb0 (zlen (contents pl))) E Q (tv s kc d pl r).
Proof.
  intros wb0 Hwf Hp0 [Hpb Hpl] Hroom Hw HQ. change ZLIB_COMPRESS_EXPANSION with 21 in *.
  pose proof (contents_length pl Hwf) as Hcl. pose proof Hwf as (?&?&?&?).
  assert (Hwb0 : wf_buf wb0).
  { assert (wf_buf (mkbuf (zeros (5 + room)) 0 0 (5 + room))) as (?&?&?&?) by (apply wf_new; unfold BUF_MAX_SIZE; lia).
    split_and!; cbn [wb0 b_data b_len b_pos b_size] in *; try done; lia. }
  set (p := contents pl) in *. assert (Hslice : slice 0 (zlen p) (b_data pl) = p) by (unfold p, contents in *; congruence).
  unfold fill_payload. apply wp_bind, wp_bind, wp_trans_keys, wp_bind, wp_get, wp_ret.
  change ((algo_comp d =? _) || _) with (compress_active s d). unfold wired in Hw. destruct (compress_active s d).
  - destruct Hw as (zs&zs'&Hzs&Hdef&Hwb&Hwl&->). change ZLIB_COMPRESS_EXPANSION with 21 in *. unfold buf_compress.
    apply wp_bind, wp_on_writepayload, wp_gets. rewrite Hp0. cbv zeta. cbn [wb0 b_size b_pos].
    change ZLIB_COMPRESS_EXPANSION with 21. rewrite !u32_small by (rewrite ?u32_small; lia).
    apply wp_bind, wp_assert; [lia|]. intros _. apply wp_bind, wp_trans_keys, wp_bind. eapply wp_ptr; [done|].
    apply wp_bind, wp_on_writepayload, wp_load_cursor; [done|lia| |lia]. intros _. rewrite Hp0.
    replace (0 + zlen p - 0) with (zlen p) by lia. rewrite Hslice.
    apply wp_bind, wp_on_new, wp_buf_getwriteptr; [done|lia| |cbn [wb0 b_pos b_size]; lia]. intros _.
    replace (5 + room - 5) with room by lia. rewrite Hdef.
    apply wp_bind, wp_set_trans_keys, wp_bind, wp_on_new, wp_store; [done|cbn [wb0 b_pos]; lia|cbn [wb0 b_pos b_size]; lia|].
    apply wp_bind, wp_on_writepayload, wp_buf_setpos; rewrite u32_small by lia; [|lia]. intros _.
    cbn [wb0 after_store b_pos b_data b_len b_size].
    replace (5 + room - (room - zlen w)) with (5 + zlen w) by lia. rewrite u32_small by lia.
    apply wp_bind, wp_on_new, wp_buf_setlen; [|cbn [after_store wb0 b_size]; lia]. intros _. cbn [after_store wb0 b_len b_pos b_data b_size].
    apply wp_bind, wp_on_new, wp_buf_setpos; [|cbn [b_len]; lia]. intros _. cbn [set_pos b_len b_pos b_data b_size].
    change (negb (Z_OK =? Z_OK)) with false. apply wp_bind, wp_ret. apply wp_bind, wp_assert; [done|]. intros _. apply wp_ret.
    replace (set_pos (5 + zlen w) _) with (after_put w wb0) by (unfold after_put, set_pos; cbn [wb0 b_pos b_len b_data b_size]; f_equal; lia).
    apply HQ; [apply wf_set_pos; [done|lia]|done].
  - destruct Hw as [-> ->]. apply wp_bind, wp_on_new, wp_buf_getwriteptr; [done|lia| |cbn [wb0 b_pos b_size]; lia]. intros _.
    apply wp_bind, wp_on_writepayload, wp_load_cursor; [done|lia| |lia]. intros _. rewrite Hp0, Hslice.
    apply wp_bind, wp_on_new.
    assert (Hput : wp (do* mem_store (b_pos wb0) p; buf_incrwritepos (zlen p)) E (λ _ b', b' = after_put p wb0) wb0).
    { apply wp_bind, wp_store; [done|cbn [wb0 b_pos]; lia|cbn [wb0 b_pos b_size]; lia|].
      apply wp_buf_incrwritepos; [|lia|done|cbn [wb0 after_store b_pos b_size]; lia].
      apply wf_after_store; [done|done|cbn [wb0 b_pos]; lia|cbn [wb0 b_pos b_size]; lia]. }
    eapply wp_mono; [exact Hput|]. clear Hput. intros _ wb1 ->. by apply wp_ret, HQ.
Qed.

(** The padding goes behind a payload [w] in a buffer with room for it. *)
Definition pad_packet (blocksize : Z) (aead : bool) (writebuf : buffer) : ST sshsession buffer :=
  if blocksize =? 0 then fault "division by zero"
  else
    let padlen := padding_len aead blocksize (b_len writebuf) in
    let* (_, writebuf) := on_new writebuf (buf_setpos 0) in
    let* (_, writebuf) := on_new writebuf (buf_putint (u32 (b_len writebuf + padlen - 4))) in
    let* (_, writebuf) := on_new writebuf (buf_putbyte padlen) in
    let* (_, writebuf) := on_new writebuf (do* buf_setpos (b_len writebuf); buf_incrlen padlen) in
    let* (p, writebuf) := on_new writebuf (buf_getptr padlen) in
    let* padding := on_rng (genrandom padlen) in
    let* (_, writebuf) := on_new writebuf (mem_store p padding) in
    ret writebuf.

Lemma wp_pad_packet size bs macsize (aead : bool) w E Q s kc d pl r :
  let wb0 := mkbuf (zeros size) 5 5 size in
  bytes_ok w → 1 ≤ zlen w → size < 2 ^ 22 → 44 + macsize ≤ size → zlen w + 24 + macsize ≤ size →
  8 ≤ bs ≤ 16 → 0 ≤ macsize → wf_rng r →
  (∀ wb pad r', wf_buf wb → wf_rng r' → bytes_ok pad →
     let plain := plain_packet w pad in
     contents wb = plain → b_len wb = zlen plain → b_len wb + macsize ≤ b_size wb →
     4 ≤ zlen pad ≤ 41 → MIN_PACKET_LEN ≤ zlen plain →
     (zlen plain - (if aead then 4 else 0)) mod bs = 0 →
     Q wb (tv s kc d pl r')) →
  wp (pad_packet bs aead (after_put w wb0)) E Q (tv s kc d pl r).
Proof.
  intros wb0 Hwb Hwl Hs Hs1 Hs2 Hbs Hms Hrng HQ. change MIN_PACKET_LEN with 16 in *.
  set (wb1 := after_put w wb0).
  assert (Hwb0 : wf_buf wb0).
  { assert (wf_buf (mkbuf (zeros size) 0 0 size)) as (?&?&?&?) by (apply wf_new; unfold BUF_MAX_SIZE; lia).
    split_and!; cbn [wb0 b_data b_len b_pos b_size] in *; try done; lia. }
  assert (Hwb1 : wf_buf wb1) by (apply wf_after_put; [done|done|cbn [wb0 b_pos b_size]; lia]).
  unfold pad_packet. if_false. cbv zeta.
  assert (Hl1 : b_len wb1 = 5 + zlen w) by (cbn [wb1 after_put wb0 b_len b_pos]; lia).
  rewrite Hl1. destruct (padding_len_spec aead bs (5 + zlen w)) as ((Hpad&Hpad2)&Hmin&Hmod); [lia|lia|].
  set (padlen := padding_len aead bs (5 + zlen w)) in *. clearbody padlen.
  change MIN_PACKET_LEN with 16 in Hmin.
  apply wp_bind, wp_on_new, wp_buf_setpos; [|lia]. intros _.
  assert (Hwb2 : wf_buf (set_pos 0 wb1)) by (apply wf_set_pos; [done|lia]).
  cbn [set_pos b_len]. rewrite Hl1. rewrite u32_small by lia.
  apply wp_bind, wp_on_new, wp_buf_putint; [done| |cbn [set_pos wb1 after_put wb0 b_pos b_size]; lia]. intros _.
  replace (5 + zlen w + padlen - 4) with (1 + zlen w + padlen) by lia.
  set (wb3 := after_put (STORE32H _) _).
  assert (Hwb3 : wf_buf wb3).
  { apply wf_after_put; [done|apply STORE32H_bytes|]. change (zlen (STORE32H _)) with 4.
    cbn [set_pos wb1 after_put wb0 b_pos b_size]. lia. }
  apply wp_bind, wp_on_new, wp_buf_putbyte; [done| |]; change (b_pos wb3) with (0 + 4); change (b_size wb3) with size; [|lia].
  intros _. set (wb4 := after_put [u8 padlen] wb3).
  assert (Hwb4 : wf_buf wb4).
  { apply wf_after_put; [done|repeat constructor; apply u8_range|].
    change (zlen [_]) with 1. change (b_pos wb3) with 4. change (b_size wb3) with size. lia. }
  assert (Hl4 : b_len wb4 = 5 + zlen w).
  { unfold wb4, wb3. cbn [after_put set_pos b_len b_pos]. change (zlen (STORE32H _)) with 4.
    change (zlen [_]) with 1. fold wb1. lia. }
  assert (Hs4 : b_size wb4 = size) by done.
  apply wp_bind, wp_on_new, wp_bind, wp_buf_setpos; [|lia]. intros _.
  assert (Hwb5 : wf_buf (set_pos (b_len wb4) wb4)) by (apply wf_set_pos; [done|lia]).
  apply wp_buf_incrlen; [done|lia| |cbn [set_pos b_len b_size]; lia]. cbn [set_pos b_len b_size]. intros _.
  set (wb6 := set_len _ _).
  assert (Hwb6 : wf_buf wb6).
  { apply wf_set_len; [done|]. cbn [set_pos b_pos b_size]. lia. }
  apply wp_bind, wp_on_new, wp_buf_getptr; [done|lia| |cbn [wb6 set_len set_pos b_len b_pos]; lia]. intros _.
  apply wp_bind, wp_on_rng. eapply wp_exit_mono; [apply wp_genrandom; [done|lia|]|by intros].
  intros pad r' Hr' Hpadl Hpadb.
  apply wp_bind, wp_on_new, wp_store; [done|cbn [wb6 set_len set_pos b_pos]; lia|
    cbn [wb6 set_len set_pos b_pos b_size]; lia|].
  apply wp_ret. subst padlen.
  apply (HQ _ pad); cbn [after_store wb6 set_len set_pos b_pos b_len b_size]; [|done|done|..].
  - apply wf_after_store; [done|done|cbn [wb6 set_len set_pos b_pos]; lia|
      cbn [wb6 set_len set_pos b_pos b_size]; lia].
  - unfold contents. cbn [after_store b_len b_data wb6 set_len set_pos b_pos]. rewrite Hl4.
    apply (build_layout size); lia.
  - rewrite plain_packet_length. lia.
  - rewrite Hl4, Hs4. lia.
  - lia.
  - rewrite plain_packet_length. lia.
  - rewrite plain_packet_length. exact Hmod.
Qed.

Lemma wp_build_packet bs macsize (aead : bool) w d' E Q s kc d pl r :
  wf_buf pl → b_pos pl = 0 → sendable (contents pl) → wf_rng r →
  8 ≤ bs ≤ 16 → 0 ≤ macsize ≤ MAX_MAC_LEN →
  wired s d (packet_room bs macsize (zlen (contents pl))) (contents pl) w d' →
  (∀ wb pad r', wf_buf wb → wf_rng r' → bytes_ok pad →
     let plain := plain_packet w pad in
     contents wb = plain → b_len wb = zlen plain → b_len wb + macsize ≤ b_size wb →
     4 ≤ zlen pad ≤ 41 → MIN_PACKET_LEN ≤ zlen plain →
     (zlen plain - (if aead then 4 else 0)) mod bs = 0 →
     Q wb (tv s kc d' (empty_payload pl) r')) →
  wp (build_packet bs macsize aead) E Q (tv s kc d pl r).
Proof.
  intros Hwf Hp0 Hsend Hrng Hbs Hms Hw HQ. pose proof Hsend as [Hpb Hpl]. unfold build_packet, MAX_MAC_LEN in *.
  pose proof (contents_length pl Hwf) as Hcl. unfold packet_room in Hw.
  apply wp_bind, wp_on_writepayload, wp_gets. rewrite <-Hcl. cbn zeta.
  change ZLIB_COMPRESS_EXPANSION with 21 in *. change MIN_PACKET_LEN with 16 in *. rewrite u32_small by lia.
  set (room := zlen (contents pl) + Z.max 16 bs + 3 + macsize + 21 + 1) in *.
  replace (_ + 1) with (5 + room) by (unfold room; lia).
  assert (Hroom : room = zlen (contents pl) + Z.max 16 bs + 3 + macsize + 21 + 1) by done. clearbody room.
  apply wp_bind, wp_buf_new; [|unfold BUF_MAX_SIZE; lia]. intros _. unfold PACKET_PAYLOAD_OFF.
  apply wp_bind, wp_on_new, wp_bind, wp_buf_setlen; [|cbn [b_size]; lia]. intros _.
  apply wp_buf_setpos; [|cbn [b_len]; lia]. intros _. cbn [set_pos b_data b_len b_pos b_size].
  change (set_pos 5 (mkbuf (zeros (5 + room)) 5 (Z.min 0 5) (5 + room))) with (mkbuf (zeros (5 + room)) 5 5 (5 + room)).
  apply wp_bind_assoc, wp_bind. eapply (wp_fill_payload room w d'); [done|done|done|change ZLIB_COMPRESS_EXPANSION with 21; lia|done|].
  intros pl' Hwf' He. apply wp_clear_writepayload; [done|]. rewrite He.
  assert (Hwb : bytes_ok w ∧ 1 ≤ zlen w ≤ zlen (contents pl) + 21).
  { unfold wired in Hw. destruct (compress_active s d); [by destruct Hw as (?&?&_&_&?&?&_)|destruct Hw as [-> _]; split; [done|lia]]. }
  destruct Hwb as [Hwb Hwl].
  apply (wp_pad_packet (5 + room) bs macsize aead w); [done|lia..|done|exact HQ].
Qed.

(** *** Sealing *)

(** What goes on the wire for the plaintext packet [plain]. *)
Definition seal d (seqno : Z) (plain : list Z) : option (list Z * CS) :=
  match algo_mac d, crypt_mode d with
  | Some mac, Some mode =>
      let macsize := h_hashsize mac in
      match cm_aead_crypt mode with
      | Some aead_crypt => aead_crypt seqno plain (zlen plain) macsize (cipher_state d) LTC_ENCRYPT
      | None =>
          match cm_encrypt mode with
          | None => None
          | Some encrypt =>
              match (if macsize >? 0
                     then hmac (hash_index d) (slice 0 (h_keysize mac) (mackey d)) (STORE32H seqno ++ plain)
                     else Some []),
                    encrypt plain (cipher_state d) with
              | Some m, Some (ct, cs) => Some (ct ++ slice 0 macsize (take (Z.to_nat MAX_MAC_LEN) m), cs)
              | _, _ => None
              end
          end
      end
  | _, _ => None
  end.

Lemma contents_after_store ct b :
  wf_buf b → zlen ct ≤ b_len b →
  contents (after_store 0 ct b) = ct ++ drop (length ct) (contents b).
Proof.
  intros (?&?&?&?) Hl. unfold contents, after_store, slice, splice. cbn [b_data b_len].
  change (Z.to_nat 0) with 0%nat. rewrite !drop_0, take_0, app_nil_l, Nat.add_0_l.
  unfold zlen in *. rewrite take_app_ge by lia. f_equal. by rewrite skipn_firstn_comm.
Qed.

Lemma wp_seal_packet E Q s kc d pl r wb crypt mac mode ct cs :
  dir_is d crypt mac mode → mac_ok d mac →
  wf_buf wb → b_len wb + h_hashsize mac ≤ b_size wb →
  seal d (transseq (pkt s)) (contents wb) = Some (ct, cs) →
  zlen ct = b_len wb + h_hashsize mac → bytes_ok ct →
  (∀ wb', wf_buf wb' → contents wb' = ct → b_len wb' = zlen ct →
     Q wb' (tv s kc (set_cipher_state cs d) pl r)) →
  wp (seal_packet wb) E Q (tv s kc d pl r).
Proof.
  intros (Hc&Hm&Hmo) Hmac Hwf Hroom Hseal Hctl Hctb HQ. pose proof Hwf as (?&?&?&?).
  pose proof Hmac as (Hhs&Hks&Hlaw). unfold MAX_MAC_LEN in Hhs. unfold BUF_MAX_SIZE in *.
  pose proof (contents_length wb Hwf) as Hcl. unfold seal in Hseal. rewrite Hm, Hmo, Hcl in Hseal.
  unfold seal_packet. apply wp_bind, wp_trans_keys. do 2 (apply wp_bind; eapply wp_ptr; [done|]).
  set (ms := h_hashsize mac) in *. apply wp_bind, wp_get. cbn zeta.
  change (transseq (pkt (tv s kc d pl r))) with (transseq (pkt s)).
  assert (Hw0 : wf_buf (set_pos 0 wb)) by (apply wf_set_pos; [done|lia]).
  destruct (cm_aead_crypt mode) as [aead|] eqn:Ha.
  - apply wp_bind, wp_on_new, wp_buf_setpos; [|lia]. intros _.
    apply wp_bind, wp_on_new, wp_buf_incrlen; [done|lia| |cbn [set_pos b_len b_size]; lia]. intros _.
    set (wb1 := set_len _ _).
    assert (Hw1 : wf_buf wb1) by (apply wf_set_len; [done|cbn [set_pos b_pos b_len b_size]; lia]).
    cbn [set_pos b_len].
    apply wp_bind, wp_on_new, wp_load_cursor; [done|lia| |cbn [wb1 set_len set_pos b_pos b_len]; lia]. intros _.
    change (slice (b_pos wb1) (b_len wb) (b_data wb1)) with (contents wb).
    rewrite u32_small by lia.
    apply wp_bind, wp_on_new, wp_buf_getwriteptr; [done|lia| |cbn [wb1 set_len set_pos b_pos b_size]; lia].
    intros _. rewrite Hseal.
    apply wp_bind, wp_on_new, wp_store; [done|cbn; lia|cbn [wb1 set_len set_pos b_pos b_size]; lia|].
    change (b_pos wb1) with 0. change (b_len (set_pos 0 wb)) with (b_len wb) in wb1.
    assert (Hw2 : wf_buf (after_store 0 ct wb1))
      by (apply wf_after_store; [done|done|lia|cbn [wb1 set_len set_pos b_size]; lia]).
    apply wp_bind, wp_set_trans_keys, wp_bind, wp_on_new, wp_buf_incrpos; [done|lia| |cbn; lia]. intros Hin.
    apply wp_ret, HQ.
    + apply wf_after_get; [done|lia|done].
    + change (contents (after_get _ ?x)) with (contents x).
      rewrite contents_after_store by (cbn; lia || done).
      rewrite drop_ge; [by rewrite app_nil_r|].
      pose proof (contents_length wb1 Hw1) as Hl1. cbn [wb1 set_len b_len] in Hl1. unfold zlen in *. lia.
    + cbn. lia.
  - destruct (cm_encrypt mode) as [enc|] eqn:Henc; [|done]. apply wp_bind. eapply wp_ptr; [done|].
    apply wp_bind, wp_on_new.
    set (hm := if ms >? 0 then _ else _) in Hseal.
    destruct hm as [m|] eqn:Hhm; [|done]. destruct (enc (contents wb) (cipher_state d)) as [[ct0 cs0]|] eqn:He; [|done].
    injection Hseal as Hct <-.
    assert (Hmac' : wp (make_mac (transseq (pkt s)) d (b_len wb)) E
      (λ mb b', mb = take (Z.to_nat MAX_MAC_LEN) m ∧ ∃ p, 0 ≤ p ≤ b_len wb ∧ b' = set_pos p wb) wb).
    { apply wp_bind. eapply wp_ptr; [done|]. fold ms. apply wp_if; intros Hpos; unfold hm in Hhm; rewrite Hpos in Hhm.
      - if_false. apply wp_bind, wp_buf_setpos; [|lia]. intros _.
        apply wp_bind_assoc, wp_bind, wp_load_cursor; [done|lia| |cbn; lia]. intros _.
        change (slice (b_pos (set_pos 0 wb)) (b_len wb) _) with (contents wb).
        rewrite Hhm. apply wp_ret. split; [done|]. exists 0. split; [lia|done].
      - injection Hhm as <-. apply wp_ret. split; [done|]. exists (b_pos wb). split; [lia|]. by destruct wb. }
    eapply wp_mono; [exact Hmac'|]. clear Hmac'. intros mb ? (->&p&Hp&->).
    assert (Hml : ms ≤ zlen (take (Z.to_nat MAX_MAC_LEN) m)).
    { unfold hm in Hhm. destruct (Z.gtb_spec ms 0); [|pose proof (zlen_nonneg (take (Z.to_nat MAX_MAC_LEN) m)); lia].
      apply Hlaw in Hhm as [Hml _]. unfold zlen, MAX_MAC_LEN in *. rewrite length_take. fold ms in Hml. lia. }
    assert (Htl : zlen (slice 0 ms (take (Z.to_nat MAX_MAC_LEN) m)) = ms) by (apply zlen_slice; lia).
    set (tag := slice 0 ms _) in *. rewrite <-Hct, zlen_app in Hctl. rewrite <-Hct, bytes_ok_app in Hctb.
    apply wp_bind, wp_on_new, wp_buf_setpos; [|cbn; lia]. intros _.
    change (set_pos 0 (set_pos p wb)) with (set_pos 0 wb). cbn [set_pos b_len]. cbn zeta.
    apply wp_bind, wp_on_new, wp_load_cursor; [done|lia| |cbn; lia]. intros _.
    change (slice (b_pos (set_pos 0 wb)) (b_len wb) _) with (contents wb).
    apply wp_bind, wp_on_new, wp_buf_getwriteptr; [done|lia| |cbn; lia]. intros _. rewrite He.
    apply wp_bind, wp_on_new, wp_store; [done|cbn; lia|cbn [set_pos b_pos b_size]; lia|].
    cbn [set_pos b_pos].
    assert (Hw2 : wf_buf (after_store 0 ct0 (set_pos 0 wb)))
      by (apply wf_after_store; [done|tauto|lia|cbn [set_pos b_size]; lia]).
    apply wp_bind, wp_set_trans_keys, wp_bind, wp_on_new, wp_buf_incrpos; [done|lia| |cbn; lia]. intros Hin.
    apply wp_bind, wp_mac_prefix; [done|]. fold tag.
    set (wb3 := after_get _ _).
    assert (Hw3 : wf_buf wb3) by (apply wf_after_get; [done|lia|done]).
    apply wp_bind, wp_on_new, wp_buf_putbytes; [done|tauto| |cbn; lia]. intros _. apply wp_ret, HQ.
    + apply wf_after_put; [done|tauto|cbn; lia].
    + rewrite <-Hct. unfold contents, after_put. cbn [wb3 after_get after_store set_pos b_pos b_data b_len b_size].
      rewrite Z.add_0_l, Htl, Z.max_r by lia.
      rewrite slice_app_split by lia. f_equal.
      * rewrite slice_splice_before by (rewrite ?zlen_splice; lia).
        replace (b_len wb) with (zlen ct0) by lia. apply slice_splice_same; lia.
      * rewrite <-Htl at 1. apply slice_splice_same; [lia|]. rewrite zlen_splice; lia.
    + rewrite <-Hct, zlen_app. cbn. lia.
Qed.

(** *** [encrypt_packet] *)

(** Packets whose transmission counts for the idle timeout. *)
Definition counts_idle (type : Z) : bool :=
  negb (type =? SSH_MSG_REQUEST_FAILURE) && negb (type =? SSH_MSG_UNIMPLEMENTED)
  && negb (type =? SSH_MSG_IGNORE).

(** The session after a packet of [wlen] bytes was put on the queue [q']. *)
Definition sent s kc d' pl r' (q' : Queue buffer) (wlen type : Z) : sshsession :=
  let now := w_clock (wld s) in
  on_pkt (λ x,
      let x := set_last_packet_time_any_sent now (set_transseq (u32 (transseq x + 1))
        (set_writequeue_len (u32 (writequeue_len x + wlen)) (set_writequeue q' x))) in
      if counts_idle type then set_last_packet_time_idle now x else x)
    (on_kexstate (λ x, set_datatrans (u32 (datatrans x + wlen)) x) (tv s kc d' (empty_payload pl) r')).

(** The session after a packet was kept for the end of the key exchange. *)
Definition held s kc d pl r : sshsession :=
  on_pkt (λ x, set_reply_queue (reply_queue x ++ [buf_of (contents pl)]) x)
    (tv s kc d (empty_payload pl) r).

(** What the send path needs of the session. *)
Definition send_ok s (kc : key_context) (bufs : list buffer) : Prop :=
  keys s = Some kc ∧ dir_ok (k_trans kc) ∧ wf_rng (w_rng (wld s)) ∧
  queue_rep (writequeue (pkt s)) bufs ∧ zlen bufs + 1 < 2 ^ 32 ∧ wf_buf (writepayload (pkt s)) ∧
  compress_active s (k_trans kc) = false.

(** The same, whether or not compression is active. *)
Definition send_ready s (kc : key_context) (bufs : list buffer) : Prop :=
  keys s = Some kc ∧ dir_ok (k_trans kc) ∧ wf_rng (w_rng (wld s)) ∧
  queue_rep (writequeue (pkt s)) bufs ∧ zlen bufs + 1 < 2 ^ 32 ∧ wf_buf (writepayload (pkt s)).

(** The room for the payload [p] in the packets of these keys. *)
Definition dir_room d (mac : dropbear_hash) (p : list Z) : Z := packet_room (dir_block d) (h_hashsize mac) (zlen p).

(** Encryption succeeds on the packets [encrypt_packet] makes of a payload,
    with the length the mode promises. *)
Definition can_seal d (mac : dropbear_hash) (seqno : Z) (p : list Z) : Prop :=
  ∀ pad, let plain := plain_packet p pad in
    bytes_ok pad → 4 ≤ zlen pad ≤ 41 → MIN_PACKET_LEN ≤ zlen plain →
    zlen plain mod dir_block d = (match crypt_mode d with
       | Some mode => match cm_aead_crypt mode with Some _ => 4 | None => 0 end
       | None => 0 end) mod dir_block d →
    ∃ ct cs, seal d seqno plain = Some (ct, cs) ∧ zlen ct = zlen plain + h_hashsize mac ∧ bytes_ok ct.

Lemma plain_packet_bytes p pad : bytes_ok p → bytes_ok pad → zlen pad < 256 → bytes_ok (plain_packet p pad).
Proof.
  intros. pose proof (zlen_nonneg pad). unfold plain_packet. rewrite !bytes_ok_app.
  split_and!; [apply STORE32H_bytes| |done|done]. repeat constructor; lia.
Qed.

Lemma mod_sub_eq a k bs : 0 < bs → (a - k) mod bs = 0 → a mod bs = k mod bs.
Proof.
  intros Hb H. replace a with (a - k + k) by lia. rewrite <-Z.add_mod_idemp_l, H by lia. done.
Qed.

Lemma wp_encrypt_packet_gen E Q s kc bufs type rest mac w dw :
  send_ready s kc bufs → contents (writepayload (pkt s)) = type :: rest →
  sendable (type :: rest) → algo_mac (k_trans kc) = Some mac → 
  wired s (k_trans kc) (dir_room (k_trans kc) mac (type :: rest)) (type :: rest) w dw →
  can_seal dw mac (transseq (pkt s)) w →
  (dataallowed (pkt s) = false → packet_is_okay_kex type = false →
     Q tt (held s kc (k_trans kc) (writepayload (pkt s)) (w_rng (wld s)))) →
  (dataallowed (pkt s) || packet_is_okay_kex type = true →
   ∀ pad ct cs wb q' r',
     let plain := plain_packet w pad in
     bytes_ok pad → 4 ≤ zlen pad ≤ 41 → MIN_PACKET_LEN ≤ zlen plain →
     zlen plain mod dir_block (k_trans kc) = (match crypt_mode (k_trans kc) with
       | Some mode => match cm_aead_crypt mode with Some _ => 4 | None => 0 end
       | None => 0 end) mod dir_block (k_trans kc) →
     seal dw (transseq (pkt s)) plain = Some (ct, cs) →
     zlen ct = zlen plain + h_hashsize mac →
     wf_buf wb → contents wb = ct → b_pos wb = 0 → b_len wb = zlen ct →
     queue_rep q' (bufs ++ [wb]) → wf_rng r' →
     Q tt (sent s kc (set_cipher_state cs dw) (writepayload (pkt s)) r' q' (zlen ct) type)) →
  wp encrypt_packet E Q s.
Proof.
  intros (Hk&Hd&Hr&Hq&Hql&Hwp) Hcont Hsend Hm Hwire Hseal HQ1 HQ2.
  rewrite (tv_self s kc Hk). set (d := k_trans kc) in *. set (pl := writepayload (pkt s)) in *.
  set (r := w_rng (wld s)) in *.
  pose proof Hd as (crypt&mac'&mode&His&Hbs&Hmac&_&_). pose proof His as (Hc&Hm'&Hmo).
  assert (mac' = mac) as -> by congruence.
  pose proof Hwp as (?&?&?&?). pose proof (contents_length pl Hwp) as Hcl.
  pose proof Hsend as [Hsb Hsl]. rewrite <-Hcont in Hsl. pose proof Hmac as (Hhs&_&_). unfold MAX_MAC_LEN in Hhs.
  assert (Hw0 : wf_buf (set_pos 0 pl)) by (apply wf_set_pos; [done|lia]).
  assert (Htype : nth 0 (slice 0 1 (b_data pl)) 0 = type).
  { unfold contents in Hcont. replace (b_len pl) with (1 + (b_len pl - 1)) in Hcont by lia.
    rewrite slice_app_split in Hcont by lia. pose proof (zlen_slice 0 1 (b_data pl)) as Hs1.
    destruct (slice 0 1 (b_data pl)) as [|x l]; [by specialize (Hs1 ltac:(lia) ltac:(lia) ltac:(lia))|].
    by injection Hcont. }
  unfold encrypt_packet. apply wp_bind, wp_on_writepayload, wp_buf_setpos; [|lia]. intros _.
  apply wp_bind, wp_on_writepayload, wp_buf_getbyte; [done| |cbn; lia]. cbn [set_pos b_pos b_len b_data].
  rewrite Htype. intros _.
  apply wp_bind, wp_on_writepayload, wp_buf_setpos; [|cbn; lia]. intros _.
  change (set_pos 0 (after_get 1 (set_pos 0 pl))) with (set_pos 0 pl).
  apply wp_bind, wp_get. change (dataallowed (pkt (tv s kc d _ r))) with (dataallowed (pkt s)).
  apply wp_if; intros Hkex.
  - (* held *)
    apply wp_bind, wp_get, wp_bind, wp_buf_newcopy; [done|].
    apply wp_clear_writepayload; [done|]. apply wp_modify.
    apply HQ1; destruct (dataallowed (pkt s)), (packet_is_okay_kex type); done.
  - (* sent *)
    apply wp_bind, wp_trans_keys. do 3 (apply wp_bind; eapply wp_ptr; [done|]). apply wp_bind.
    set (aead := match cm_aead_crypt mode with Some _ => true | None => false end).
    assert (Hdw : dir_is dw crypt mac mode ∧ mac_ok dw mac ∧ crypt_mode dw = crypt_mode d ∧ dir_block dw = dir_block d).
    { clear Hseal HQ2. unfold wired in Hwire. destruct (compress_active s d);
        [destruct Hwire as (?&?&_&_&_&_&->)|destruct Hwire as [_ ->]]; done. }
    destruct Hdw as (Hisw&Hmacw&Hmw&Hbw).
    apply (wp_build_packet _ _ _ w dw); [done|done| |done|done|done| |].
    { change (contents (set_pos 0 pl)) with (contents pl). by rewrite Hcont. }
    { change (contents (set_pos 0 pl)) with (contents pl). rewrite Hcont.
      unfold dir_room, dir_block in Hwire. rewrite Hc in Hwire. exact Hwire. }
    intros wb pad r' Hwb Hr' Hpadb plain Hpc Hpl Hroom Hpad Hmin Hmod.
    assert (Hal : zlen plain mod dir_block d = (match crypt_mode d with
       | Some mode => match cm_aead_crypt mode with Some _ => 4 | None => 0 end
       | None => 0 end) mod dir_block d).
    { rewrite Hmo. unfold dir_block. rewrite Hc. apply mod_sub_eq; [lia|].
      unfold aead in Hmod. by destruct (cm_aead_crypt mode). }
    destruct (Hseal pad) as (ct&cs&Hsl2&Hctl&Hctb); [done|done|done|rewrite Hmw, Hbw; exact Hal|].
    apply wp_bind. eapply (wp_seal_packet _ _ s kc dw _ r' wb crypt mac mode ct cs);
      [done|done|done|done| | |done|].
    { by rewrite Hpc. }
    { rewrite Hpl. exact Hctl. }
    intros wb' Hwb' Hcw Hlw. apply wp_bind, wp_modify.
    apply wp_bind, wp_bind, wp_on_new, wp_buf_setpos; [|pose proof (zlen_nonneg ct); lia]. intros _.
    pose proof (zlen_nonneg ct).
    apply wp_bind, wp_zoom. eapply (wp_enqueue _ bufs); [exact Hq|done|]. intros q' Hq'.
    apply wp_modify, wp_bind, wp_modify, wp_bind, wp_gets, wp_bind, wp_modify.
    cbn [set_pos b_len]. rewrite Hlw.
    assert (Hor : dataallowed (pkt s) || packet_is_okay_kex type = true)
      by (destruct (dataallowed (pkt s)), (packet_is_okay_kex type); done).
    assert (Hw' : wf_buf (set_pos 0 wb')) by (apply wf_set_pos; [done|lia]).
    specialize (HQ2 Hor pad ct cs (set_pos 0 wb') q' r' Hpadb Hpad Hmin Hal Hsl2 Hctl Hw' Hcw eq_refl Hlw Hq' Hr').
    unfold sent in HQ2. cbv zeta in HQ2. unfold when. fold (counts_idle type) in *.
    destruct (counts_idle type); [apply wp_modify|apply wp_ret]; exact HQ2.
Qed.
Lemma wp_encrypt_packet E Q s kc bufs type rest mac :
  send_ok s kc bufs → contents (writepayload (pkt s)) = type :: rest →
  sendable (type :: rest) → algo_mac (k_trans kc) = Some mac → can_seal (k_trans kc) mac (transseq (pkt s)) (type :: rest) →
  (dataallowed (pkt s) = false → packet_is_okay_kex type = false →
     Q tt (held s kc (k_trans kc) (writepayload (pkt s)) (w_rng (wld s)))) →
  (dataallowed (pkt s) || packet_is_okay_kex type = true →
   ∀ pad ct cs wb q' r',
     let plain := plain_packet (type :: rest) pad in
     bytes_ok pad → 4 ≤ zlen pad ≤ 41 → MIN_PACKET_LEN ≤ zlen plain →
     zlen plain mod dir_block (k_trans kc) = (match crypt_mode (k_trans kc) with
       | Some mode => match cm_aead_crypt mode with Some _ => 4 | None => 0 end
       | None => 0 end) mod dir_block (k_trans kc) →
     seal (k_trans kc) (transseq (pkt s)) plain = Some (ct, cs) →
     zlen ct = zlen plain + h_hashsize mac →
     wf_buf wb → contents wb = ct → b_pos wb = 0 → b_len wb = zlen ct →
     queue_rep q' (bufs ++ [wb]) → wf_rng r' →
     Q tt (sent s kc (set_cipher_state cs (k_trans kc)) (writepayload (pkt s)) r' q' (zlen ct) type)) →
  wp encrypt_packet E Q s.
Proof.
  intros (Hk&Hd&Hr&Hq&Hql&Hwp&Hcomp) Hcont Hsend Hm Hseal HQ1 HQ2.
  eapply (wp_encrypt_packet_gen E Q s kc bufs type rest mac (type :: rest) (k_trans kc)); [done|done|done|done| |done..].
  unfold wired. by rewrite Hcomp.
Qed.
End send.
