(* ===== verification/PacketStream.v ===== *)
(** * Packets over a byte stream

    A packet arriving in arbitrary pieces, the two ends of a connection, and
    the properties of the packet layer. *)

From Stdlib Require Import ZArith Lia.
From stdpp Require Import base list strings gmap.
From S2P Require Import Prelude.
From S2P Require Import Buffer.
From S2P Require Import Queue.
From S2P Require Import Netio.
From S2P Require Import Random.
From S2P Require Import Algo.
From S2P Require Import Cipher.
From S2P Require Import Session.
From S2P Require Import Packet.
From S2P Require Import PacketRecv.
From S2P Require Import PacketSend.
From S2P Require Import Instances.

(** ** Receiving a packet in pieces *)

Section chunks.
Context {CL : CryptoLib}.
Context (s : sshsession) (kc : key_context) (d : key_context_directional).
Context (crypt : dropbear_cipher) (mac : dropbear_hash) (mode : dropbear_cipher_mode CS).
(** The packet on the wire, its plaintext, and the cipher states the
    receiver goes through. *)
Context (ct plain head : list Z) (cs1 cs2 : CS).

Let bs : Z := c_blocksize crypt.
Let macsize : Z := h_hashsize mac.
Let d1 : key_context_directional := set_cipher_state cs1 d.

(** What the first block of the packet tells the receiver. *)
Definition first_block : Prop :=
  match cm_aead_crypt mode with
  | Some _ =>
      head = slice 0 bs ct ∧ (zlen plain - 4) mod bs = 0 ∧
      ∃ getlength, cm_aead_getlength mode = Some getlength ∧
        getlength (recvseq (pkt s)) (slice 0 bs ct) bs (cipher_state d) = Some (zlen plain - 4, cs1)
  | None =>
      zlen plain mod bs = 0 ∧ zlen head = bs ∧ bytes_ok head ∧ LOAD32H (slice 0 4 head) = zlen plain - 4 ∧
      ∃ decrypt, cm_decrypt mode = Some decrypt ∧
        decrypt (slice 0 bs ct) (cipher_state d) = Some (head, cs1)
  end.

(** The packet is one this receiver accepts. *)
Definition receivable : Prop :=
  dir_is d crypt mac mode ∧ mac_ok d mac ∧ mode_ok mode ∧ 8 ≤ bs ≤ 16 ∧
  bytes_ok ct ∧ zlen ct = zlen plain + macsize ∧ 16 ≤ zlen plain ∧ zlen ct ≤ RECV_MAX_PACKET_LEN ∧
  first_block ∧
  open_packet d1 (recvseq (pkt s)) (head ++ slice bs (zlen ct - bs) ct) = Some (plain, cs2) ∧
  payload_len_ok plain = true ∧
  (compress_active s d = true → ∃ zs zs' out, zstream d = Some zs ∧
     inflate zs (payload_of plain) (RECV_MAX_PAYLOAD_LEN + 1) = (Z_OK, zs', out, 0) ∧
     zlen out ≤ RECV_MAX_PAYLOAD_LEN ∧ bytes_ok out).

(** [n] bytes of the packet have arrived: within the first block, and after. *)
Definition prog_init (n : Z) (rb : option buffer) : Prop :=
  0 ≤ n < bs ∧
  match rb with
  | None => n = 0
  | Some b => wf_buf b ∧ b_size b = INIT_READBUF ∧ b_len b = n ∧ b_pos b = n ∧ contents b = slice 0 n ct
  end.
Definition prog_body (n : Z) (b : buffer) : Prop :=
  wf_buf b ∧ bs ≤ n ≤ zlen ct ∧ b_len b = zlen ct ∧ b_pos b = n ∧
  slice 0 n (b_data b) = head ++ slice bs (n - bs) ct.

Definition pieces (chunks : list (list Z)) : list read_event := map RData chunks.

(** Reading from a list of nonempty pieces. *)
Definition read_rest (maxlen : Z) (chunks : list (list Z)) : list (list Z) :=
  match chunks with
  | [] => []
  | c :: chunks => match drop (Z.to_nat maxlen) c with [] => chunks | later => later :: chunks end
  end.

Lemma wp_sock_read_piece maxlen c chunks tail d' rb E Q :
  Q (Some (take (Z.to_nat maxlen) c)) (rv s kc d' rb (pieces (read_rest maxlen (c :: chunks)) ++ tail)) →
  wp (sock_read maxlen) E Q (rv s kc d' rb (pieces (c :: chunks) ++ tail)).
Proof.
  intros HQ. apply wp_bind, wp_get. cbn [pieces map app w_reads wld rv on_wld set_wld set_w_reads].
  apply wp_bind, wp_modify, wp_ret. unfold read_rest in HQ.
  destruct (drop (Z.to_nat maxlen) c); exact HQ.
Qed.

Lemma read_rest_concat maxlen c chunks :
  concat (read_rest maxlen (c :: chunks)) = drop (Z.to_nat maxlen) c ++ concat chunks.
Proof. unfold read_rest. by destruct (drop (Z.to_nat maxlen) c). Qed.

Lemma read_rest_nonempty maxlen c chunks :
  Forall (λ c, c ≠ []) (c :: chunks) → Forall (λ c, c ≠ []) (read_rest maxlen (c :: chunks)).
Proof.
  intros [Hc Hcs]%Forall_cons. unfold read_rest. destruct (drop (Z.to_nat maxlen) c); [done|by constructor].
Qed.

(** A piece is the next bytes of the stream. *)
Lemma piece_bytes n c chunks extra k :
  0 ≤ n → n ≤ zlen ct → concat (c :: chunks) = drop (Z.to_nat n) ct ++ extra →
  0 ≤ k ≤ zlen c → n + k ≤ zlen ct →
  take (Z.to_nat k) c = slice n k ct ∧
  drop (Z.to_nat k) c ++ concat chunks = drop (Z.to_nat (n + k)) ct ++ extra.
Proof.
  intros Hn Hle Hcat Hk Hfit. cbn [concat] in Hcat.
  assert (Hcut : c ++ concat chunks = slice n k ct ++ drop (Z.to_nat (n + k)) ct ++ extra).
  { rewrite Hcat, app_assoc. f_equal. unfold slice. rewrite Z2Nat.inj_add by lia.
    rewrite <-drop_drop. symmetry. apply take_drop. }
  assert (Hls : zlen (slice n k ct) = k) by (apply zlen_slice; lia).
  rewrite <-(take_drop (Z.to_nat k) c), <-app_assoc in Hcut.
  apply app_inj_1 in Hcut as [H1 H2]; [done|].
  unfold zlen in *. rewrite length_take. lia.
Qed.

(** The first block is complete: the length is read and the buffer sized. *)
Lemma wp_first_block b tail (Q : Z * Z → sshsession → Prop) E :
  receivable → wf_buf b → b_len b = bs → b_pos b = 0 → contents b = slice 0 bs ct →
  (∀ plen b', wf_buf b' → b_size b' = b_size b → b_len b' = bs →
     contents b' = head → bs ≤ plen → plen mod bs = 0 →
     Q (zlen ct, plen) (rv s kc d1 (Some b') tail)) →
  wp (match cm_aead_crypt mode with
      | Some _ =>
          let* getlength := ptr (cm_aead_getlength mode) in
          let* bs0 := on_readbuf (let* p := buf_getptr bs in mem_load p bs) in
          let* s := get in
          match getlength (recvseq (pkt s)) bs0 bs (cipher_state d) with
          | None => dropbear_exit "Error decrypting"
          | Some (plen, cs) =>
              do* set_recv_keys (set_cipher_state cs d);
              ret (u32 (plen + 4 + macsize), plen)
          end
      | None =>
          do* decrypt_in_place bs;
          let* n := on_readbuf buf_getint in
          let plen := u32 (n + 4) in
          ret (u32 (plen + macsize), plen)
      end) E Q (rv s kc d (Some b) tail).
Proof.
  intros (His&Hmac&Hmode&Hbs&Hctb&Hctl&Hpl&Hmax&Hfb&_) Hwf Hlen Hpos Hcont HQ.
  pose proof His as (Hc&Hm&Hmo). pose proof Hmac as (Hhs&_&_). unfold MAX_MAC_LEN in Hhs. fold macsize in Hhs.
  unfold RECV_MAX_PACKET_LEN, RECV_MAX_PAYLOAD_LEN in Hmax. pose proof Hwf as (?&?&?&?).
  assert (Hraw : slice 0 bs (b_data b) = slice 0 bs ct) by (unfold contents in Hcont; congruence).
  assert (Hrl : zlen (slice 0 bs ct) = bs) by (apply zlen_slice; lia).
  unfold first_block in Hfb. destruct (cm_aead_crypt mode) as [aead|] eqn:Ha.
  - destruct Hfb as (Hh&Hmod&getlength&Hg&Hgl). apply wp_bind. eapply wp_ptr; [done|].
    apply wp_bind, wp_on_readbuf, wp_load_cursor; [done|lia| |lia]. intros _. rewrite Hpos, Hraw.
    apply wp_bind, wp_get. change (recvseq (pkt (rv s kc d _ tail))) with (recvseq (pkt s)).
    rewrite Hgl. apply wp_bind, wp_set_recv_keys, wp_ret.
    replace (u32 _) with (zlen ct) by (rewrite u32_small; lia).
    apply HQ; [done|done|done|by rewrite Hcont, Hh| |done].
    destruct (Z_lt_ge_dec (zlen plain - 4) bs); [|lia]. rewrite Z.mod_small in Hmod; lia.
  - destruct Hfb as (Hmod&Hhl&Hhb&Hld&dec&Hdec&Hd).
    apply wp_bind, wp_bind, wp_recv_keys, wp_bind. eapply wp_ptr; [done|]. apply wp_bind.
    eapply wp_ptr; [done|]. apply wp_bind, wp_on_readbuf, wp_load_cursor; [done|lia| |lia]. intros _.
    apply wp_bind, wp_on_readbuf, wp_buf_getwriteptr; [done|lia| |lia]. intros _.
    rewrite Hpos, Hraw, Hd. apply wp_bind, wp_on_readbuf, wp_store; [done|lia|lia|].
    assert (Hw1 : wf_buf (after_store 0 head b)) by (apply wf_after_store; [done|done|lia|lia]).
    assert (Hc1 : slice 0 bs (splice 0 head (b_data b)) = head).
    { rewrite <-Hhl. apply slice_splice_same; lia. }
    apply wp_set_recv_keys, wp_bind, wp_on_readbuf, wp_buf_getint; [done| |cbn; lia].
    cbn [after_store b_pos b_len b_data]. rewrite Hpos. intros _.
    assert (H4 : slice 0 4 (splice 0 head (b_data b)) = slice 0 4 head).
    { rewrite <-Hc1 at 2. unfold slice. change (Z.to_nat 0) with 0%nat. rewrite !drop_0, take_take. f_equal. lia. }
    rewrite H4, Hld. apply wp_ret. rewrite (u32_small (zlen plain - 4 + 4)) by lia.
    replace (u32 _) with (zlen ct) by (rewrite u32_small; lia).
    apply HQ; [apply wf_after_get; [done|lia|cbn; lia]|done|cbn; lia| | |].
    + unfold contents, after_get, set_pos, after_store. cbn [b_data b_len]. by rewrite Hlen.
    + lia.
    + replace (zlen plain - 4 + 4) with (zlen plain) by lia. exact Hmod.
Qed.

(** [read_packet_init] on the next piece. *)
Lemma wp_init_piece n rb c chunks tail extra E (Q : bool → sshsession → Prop) :
  receivable → prog_init n rb → c ≠ [] →
  concat (c :: chunks) = drop (Z.to_nat n) ct ++ extra →
  (∀ rb', zlen c < bs - n → prog_init (n + zlen c) rb' →
     Q false (rv s kc d rb' (pieces chunks ++ tail))) →
  (∀ b', bs - n ≤ zlen c → prog_body bs b' →
     Q true (rv s kc d1 (Some b') (pieces (read_rest (bs - n) (c :: chunks)) ++ tail))) →
  wp read_packet_init E Q (rv s kc d rb (pieces (c :: chunks) ++ tail)).
Proof.
  intros Hrv (Hn&Hrb) Hc Hcat HF HT. pose proof Hrv as (His&Hmac&Hmode&Hbs&Hctb&Hctl&Hpl&Hmax&_).
  pose proof His as (Hcr&Hm&Hmo). pose proof (zlen_nonneg c).
  pose proof Hmac as (Hhs&_&_). fold macsize in Hhs.
  assert (Hcpos : 0 < zlen c) by (destruct c; [done|rewrite zlen_cons; pose proof (zlen_nonneg c); lia]).
  unfold read_packet_init. apply wp_bind, wp_recv_keys. do 3 (apply wp_bind; eapply wp_ptr; [done|]).
  fold bs macsize. cbn zeta. apply wp_bind, wp_get, wp_bind.
  apply (wp_mono _ _ (λ _ st, ∃ b, (wf_buf b ∧ b_size b = INIT_READBUF ∧ b_len b = n ∧ b_pos b = n ∧
    contents b = slice 0 n ct) ∧ st = rv s kc d (Some b) (pieces (c :: chunks) ++ tail))).
  { cbn [readbuf pkt rv on_wld on_pkt set_wld set_pkt set_readbuf]. destruct rb as [b|].
    - apply wp_ret. by exists b.
    - subst n. apply wp_bind, wp_buf_new; [|by vm_compute]. intros. apply wp_modify.
      eexists. split; [|done]. split; [by apply wf_new|done]. }
  intros _ ? (b&(Hwf&Hsz&Hlen&Hpos&Hcont)&->). pose proof Hwf as (?&?&?&?). unfold INIT_READBUF in Hsz.
  apply wp_bind, wp_on_readbuf, wp_gets. rewrite Hpos, u32_small by lia.
  apply wp_bind, wp_on_readbuf, wp_buf_getwriteptr; [done|lia| |lia]. intros _.
  apply wp_bind, wp_sock_read_piece.
  set (k := Z.min (bs - n) (zlen c)).
  destruct (piece_bytes n c chunks extra k) as [Htk Hrest]; [lia|lia|done|lia|lia|].
  assert (Hdt : take (Z.to_nat (bs - n)) c = slice n k ct).
  { rewrite <-Htk. unfold k, zlen in *. destruct (Z_le_gt_dec (bs - n) (Z.of_nat (length c))).
    - f_equal. lia.
    - rewrite !take_ge by lia. done. }
  assert (Hdl : zlen (slice n k ct) = k) by (apply zlen_slice; lia).
  rewrite Hdt. destruct (slice n k ct) as [|x data] eqn:Hsl; [unfold zlen in Hdl; simpl in Hdl; lia|].
  rewrite <-Hsl in *. clear x data Hsl.
  apply wp_bind, wp_on_readbuf, wp_store; [done|lia|lia|].
  assert (Hw1 : wf_buf (after_store (b_pos b) (slice n k ct) b))
    by (apply wf_after_store; [done|by apply bytes_ok_slice|lia|lia]).
  apply wp_bind, wp_on_readbuf, wp_buf_incrwritepos; [done|lia| |cbn; lia].
  cbn [after_store b_data b_len b_pos b_size]. intros _. rewrite Hdl.
  set (b1 := mkbuf _ _ _ _).
  assert (Hw2 : wf_buf b1).
  { unfold b1. destruct Hw1 as (?&?&?&?). split_and!; cbn [after_store b_data b_len b_pos b_size] in *; try done; lia. }
  assert (Hc1 : contents b1 = slice 0 (n + k) ct).
  { unfold contents, b1. cbn [b_data b_len]. rewrite Hpos, Hlen. rewrite Z.max_r by lia.
    rewrite slice_app_split, (slice_app_split 0 n k ct) by lia. cbn [Z.add]. f_equal.
    - rewrite slice_splice_before by lia. rewrite <-Hcont. unfold contents. by rewrite Hlen.
    - pose proof (slice_splice_same n (slice n k ct) (b_data b)) as Hx. rewrite Hdl in Hx.
      apply Hx; lia. }
  apply wp_if; intros Hcmp.
  - (* still within the first block *)
    apply wp_ret. assert (Hlt : zlen c < bs - n) by lia.
    assert (Hk : k = zlen c) by lia.
    replace (read_rest (bs - n) (c :: chunks)) with chunks
      by (unfold read_rest; rewrite drop_ge; [done|unfold zlen in *; lia]).
    apply HF; [done|]. split; [lia|]. rewrite <-Hk. unfold b1 at 2 3 4. cbn [b_size b_len b_pos].
    split_and!; [done|done|lia|lia|done].
  - assert (Hk : k = bs - n) by lia.
    apply wp_bind, wp_on_readbuf, wp_buf_setpos; [|unfold b1; cbn [b_len]; lia]. intros _.
    assert (wf_buf (set_pos 0 b1)) by (apply wf_set_pos; [done|unfold b1; cbn [b_len]; lia]).
    apply wp_bind, wp_first_block; [done|done|cbn [set_pos b1 b_len]; lia|done| |].
    { change (contents (set_pos 0 b1)) with (contents b1). rewrite Hc1. f_equal. lia. }
    intros plen b2 Hw3 Hsz2 Hl2 Hc2 Hp1 Hp2. if_false.
    apply wp_bind, wp_exit_if.
    { rewrite Hp2. lia. }
    intros _. apply wp_bind, wp_get, wp_bind. eapply wp_ptr; [done|]. apply wp_bind.
    change (b_size (set_pos 0 b1)) with (b_size b) in Hsz2.
    assert (Hfin : ∀ b3, wf_buf b3 → zlen ct ≤ b_size b3 → slice 0 bs (b_data b3) = head →
      wp (do* on_readbuf (buf_setlen (zlen ct)); do* on_readbuf (buf_setpos bs); ret true) E Q
        (rv s kc d1 (Some b3) (pieces (read_rest (bs - n) (c :: chunks)) ++ tail))).
    { intros b3 Hb3 Hsz3 Hh3. apply wp_bind, wp_on_readbuf, wp_buf_setlen; [|lia]. intros _.
      apply wp_bind, wp_on_readbuf, wp_buf_setpos; [|cbn [b_len]; lia]. intros _.
      apply wp_ret, HT; [lia|]. split_and!; [|lia|lia|done|done|].
      - apply wf_set_pos; [apply wf_setlen; [done|lia]|cbn [b_len]; lia].
      - rewrite Z.sub_diag, slice_0, app_nil_r. exact Hh3. }
    unfold contents in Hc2. rewrite Hl2 in Hc2.
    apply wp_when; intros Hbig; [|apply Hfin; [done|lia|done]].
    apply wp_bind, wp_buf_resize; [done|lia| |
      unfold RECV_MAX_PACKET_LEN, RECV_MAX_PAYLOAD_LEN, BUF_MAX_SIZE in *; lia].
    intros b3 Hb3 Hs3 _ _ Hsame. apply wp_modify. apply Hfin; [done|lia|].
    rewrite <-Hc2. rewrite Z.min_r in Hsame by lia.
    assert (Hcut : ∀ l, slice 0 bs l = slice 0 bs (slice 0 (b_size b2) l)).
    { intros l. unfold slice. change (Z.to_nat 0) with 0%nat. rewrite !drop_0, take_take. f_equal. lia. }
    rewrite (Hcut (b_data b3)), Hsame. symmetry. apply Hcut.
Qed.

(** The packet has arrived: [decrypt_packet] accepts it, and decompresses its
    payload when compression is on. *)
Definition delivered (rd : list read_event) (s' : sshsession) : Prop :=
  ∃ b, wf_buf b ∧ b_len b = zlen ct ∧
    if compress_active s d then
      ∃ zs zs' out, zstream d = Some zs ∧
        inflate zs (payload_of plain) (RECV_MAX_PAYLOAD_LEN + 1) = (Z_OK, zs', out, 0) ∧
        s' = accepted_zip s kc d1 rd b zs' out cs2
    else s' = accepted s kc d1 rd b plain cs2.

Lemma delivered_payload rd s' : delivered rd s' → payload (pkt s') ≠ None.
Proof. intros (b&_&_&H). by destruct (compress_active s d); [destruct H as (?&?&?&_&_&->)|subst s']. Qed.

Lemma wp_decrypt_complete b rd E (Q : unit → sshsession → Prop) :
  receivable → prog_body (zlen ct) b → (∀ s', delivered rd s' → Q tt s') →
  wp decrypt_packet E Q (rv s kc d1 (Some b) rd).
Proof.
  intros (His&Hmac&Hmode&Hbs&Hctb&Hctl&Hpl&Hmax&_&Hopen&Hok&Hcomp) (Hwf&Hn&Hl&Hp&Hd) HQ.
  pose proof Hwf as (?&?&?&?).
  eapply (wp_decrypt_packet_gen s kc d1 b rd E Q crypt mac mode); [done|done|done|done| |].
  - split_and!; [done|fold bs; lia|lia].
  - unfold contents. rewrite Hl, Hd, Hopen. unfold taken, delivered in *. rewrite Hok.
    change (compress_active s d1) with (compress_active s d). destruct (compress_active s d).
    + destruct (Hcomp eq_refl) as (zs&zs'&out&Hzs&Hinf&Hol&Hob). exists zs, zs', out. split_and!; [done..|].
      apply HQ. exists b. split_and!; [done|done|]. by exists zs, zs', out.
    + apply HQ. by exists b.
Qed.

(** [read_packet] from inside the body, on the next piece. *)
Lemma wp_body_read n b c chunks tail extra E (Q : unit → sshsession → Prop) :
  receivable → prog_body n b → n < zlen ct → c ≠ [] →
  concat (c :: chunks) = drop (Z.to_nat n) ct ++ extra →
  (∀ b', zlen c < zlen ct - n → prog_body (n + zlen c) b' →
     Q tt (rv s kc d1 (Some b') (pieces chunks ++ tail))) →
  (∀ s', zlen ct - n ≤ zlen c →
     delivered (pieces (read_rest (zlen ct - n) (c :: chunks)) ++ tail) s' → Q tt s') →
  wp read_packet_rest E Q (rv s kc d1 (Some b) (pieces (c :: chunks) ++ tail)).
Proof.
  intros Hrv (Hwf&Hn&Hl&Hp&Hdat) Hlt Hc Hcat HF HT.
  pose proof Hrv as (His&Hmac&Hmode&Hbs&Hctb&Hctl&Hpl&Hmax&_). pose proof Hwf as (?&?&?&?).
  unfold BUF_MAX_SIZE in *. pose proof (zlen_nonneg c).
  assert (Hcpos : 0 < zlen c) by (destruct c; [done|rewrite zlen_cons; pose proof (zlen_nonneg c); lia]).
  apply wp_bind, wp_on_readbuf, wp_gets. rewrite Hl, Hp, u32_small by lia. if_false.
  apply wp_bind, wp_on_readbuf, wp_buf_getptr; [done|lia| |lia]. intros _. rewrite Hp.
  apply wp_bind, wp_sock_read_piece. set (k := Z.min (zlen ct - n) (zlen c)).
  destruct (piece_bytes n c chunks extra k) as [Htk Hrest]; [lia|lia|done|lia|lia|].
  assert (Hdt : take (Z.to_nat (zlen ct - n)) c = slice n k ct).
  { rewrite <-Htk. unfold k, zlen in *. destruct (Z_le_gt_dec (Z.of_nat (length ct) - n) (Z.of_nat (length c))).
    - f_equal. lia.
    - rewrite !take_ge by lia. done. }
  assert (Hdl : zlen (slice n k ct) = k) by (apply zlen_slice; lia).
  rewrite Hdt. destruct (slice n k ct) as [|x data] eqn:Hsl; [unfold zlen in Hdl; simpl in Hdl; lia|].
  rewrite <-Hsl in *. clear x data Hsl.
  apply wp_bind, wp_on_readbuf, wp_store; [done|lia|lia|].
  assert (Hw1 : wf_buf (after_store n (slice n k ct) b))
    by (apply wf_after_store; [done|by apply bytes_ok_slice|lia|lia]).
  apply wp_bind, wp_on_readbuf, wp_buf_incrpos; [done|lia| |cbn; lia]. intros _. rewrite Hdl.
  set (b1 := after_get _ _).
  assert (Hb1 : prog_body (n + k) b1).
  { split_and!; [apply wf_after_get; [done|lia|cbn; lia]|lia|lia|exact Hl|cbn; lia|].
    unfold b1. cbn [after_get set_pos after_store b_data].
    rewrite slice_app_split by lia. rewrite slice_splice_before, Hdat by lia.
    pose proof (slice_splice_same n (slice n k ct) (b_data b)) as Hx. rewrite Hdl in Hx.
    rewrite Z.add_0_l, Hx by lia. replace (n + k - bs) with ((n - bs) + k) by lia.
    rewrite (slice_app_split bs (n - bs) k) by lia. rewrite <-app_assoc. do 3 f_equal. lia. }
  apply wp_when; intros Hcmp.
  - apply wp_decrypt_complete; [done| |].
    + replace (zlen ct) with (n + k) by lia. exact Hb1.
    + intros s' Hs'. apply HT; [lia|done].
  - replace (read_rest (zlen ct - n) (c :: chunks)) with chunks
      by (unfold read_rest; rewrite drop_ge; [done|unfold zlen in *; lia]).
    replace k with (zlen c) in Hb1 by lia. apply HF; [lia|done].
Qed.

(** Where the receiver stands between two calls. *)
Definition progress (n : Z) (st : sshsession) (chunks : list (list Z)) (tail : list read_event) : Prop :=
  (∃ rb, prog_init n rb ∧ st = rv s kc d rb (pieces chunks ++ tail)) ∨
  (∃ b, prog_body n b ∧ n < zlen ct ∧ st = rv s kc d1 (Some b) (pieces chunks ++ tail)).

(** One call consumes a piece or completes the packet. *)
Lemma wp_read_piece n st c chunks tail extra E :
  receivable → progress n st (c :: chunks) tail → Forall (λ c, c ≠ []) (c :: chunks) →
  concat (c :: chunks) = drop (Z.to_nat n) ct ++ extra →
  wp read_packet E (λ _ st',
    (∃ n' chunks', n < n' < zlen ct ∧ progress n' st' chunks' tail ∧
       (length chunks' ≤ length chunks)%nat ∧ Forall (λ c, c ≠ []) chunks' ∧
       concat chunks' = drop (Z.to_nat n') ct ++ extra) ∨
    (∃ chunks', delivered (pieces chunks' ++ tail) st' ∧ concat chunks' = extra)) st.
Proof.
  intros Hrv Hpr Hne Hcat. pose proof Hrv as (His&Hmac&Hmode&Hbs&Hctb&Hctl&Hpl&Hmax&_).
  pose proof His as (Hcr&Hm&Hmo). pose proof Hmac as (Hhs&_&_). fold macsize in Hhs.
  set (Q := λ (_ : unit) st', _).
  (* the part of [read_packet] after the length is known *)
  assert (Hbody : ∀ m b cs, n ≤ m → prog_body m b → Forall (λ c, c ≠ []) cs →
    concat cs = drop (Z.to_nat m) ct ++ extra →
    (m = n ∧ cs = c :: chunks ∧ m < zlen ct ∨ n < m ∧ (length cs ≤ S (length chunks))%nat) →
    wp read_packet_rest E Q (rv s kc d1 (Some b) (pieces cs ++ tail))).
  { intros m b cs Hnm Hb Hcs Hcc Hcases. pose proof Hb as (Hwf&Hmr&Hl&Hp&_). pose proof Hwf as (?&?&?&?).
    destruct (Z.eq_dec m (zlen ct)) as [->|Hmne].
    - apply wp_bind, wp_on_readbuf, wp_gets. rewrite Hl, Hp, Z.sub_diag. cbn [u32].
      change (u32 0 =? 0) with true. cbn iota. apply wp_decrypt_complete; [done..|].
      intros s' Hs'. right. exists cs. split; [done|]. rewrite Hcc, drop_ge; [done|unfold zlen; lia].
    - destruct cs as [|c1 cs].
      { exfalso. cbn [concat] in Hcc. symmetry in Hcc. apply app_eq_nil in Hcc as [Hcc _].
        apply (f_equal length) in Hcc. rewrite length_drop in Hcc. unfold zlen in *. simpl in Hcc. lia. }
      pose proof Hcs as [Hc1 Hcs1]%Forall_cons.
      eapply (wp_body_read m b c1 cs tail extra); [done|done|lia|done|done|..].
      + intros b' Hlt Hb'. left. exists (m + zlen c1), cs.
        pose proof (zlen_nonneg c1).
        assert (0 < zlen c1) by (destruct c1; [done|rewrite zlen_cons; pose proof (zlen_nonneg c1); lia]).
        destruct (piece_bytes m c1 cs extra (zlen c1)) as [_ Hr]; [lia|lia|done|lia|lia|].
        rewrite drop_ge in Hr by (unfold zlen; lia).
        split_and!; [lia|lia|right; exists b'; split_and!; [done|lia|done]| |done|exact Hr].
        destruct Hcases as [(_&Heq&_)|[_ Hle]]; [by injection Heq as -> ->|simpl in Hle; lia].
      + intros s' Hge Hs'. right. eexists. split; [exact Hs'|].
        destruct (piece_bytes m c1 cs extra (zlen ct - m)) as [_ Hr]; [lia|lia|done|lia|lia|].
        rewrite read_rest_concat, Hr, drop_ge; [done|unfold zlen; lia]. }
  destruct Hpr as [(rb&Hinit&->)|(b&Hb&Hlt&->)]; unfold read_packet.
  - apply wp_bind, wp_recv_keys, wp_bind. eapply wp_ptr; [done|]. cbn zeta. fold bs.
    apply wp_bind, wp_get, wp_bind.
    assert (Hgo : wp read_packet_init E (λ go st', wp (if negb go then ret tt else read_packet_rest) E Q st')
      (rv s kc d rb (pieces (c :: chunks) ++ tail))); cycle 1.
    { cbn [readbuf pkt rv on_wld on_pkt set_wld set_pkt set_readbuf]. destruct rb as [b|]; [|exact Hgo].
      destruct Hinit as (?&_&_&Hbl&_). if_true. exact Hgo. }
    pose proof Hne as [Hc Hcs]%Forall_cons. pose proof Hinit as ((Hn0&Hnb)&_).
    eapply (wp_init_piece n rb c chunks tail extra); [done|done|done|done|..].
    + intros rb' Hlt' Hinit'. apply wp_ret. left. exists (n + zlen c), chunks.
      assert (0 < zlen c) by (destruct c; [done|rewrite zlen_cons; pose proof (zlen_nonneg c); lia]).
      destruct (piece_bytes n c chunks extra (zlen c)) as [_ Hr]; [lia|lia|done|lia|lia|].
      rewrite drop_ge in Hr by (unfold zlen; lia).
      split_and!; [lia|lia|left; by exists rb'|lia|done|exact Hr].
    + intros b' Hge Hb'.
      destruct (piece_bytes n c chunks extra (bs - n)) as [_ Hr]; [lia|lia|done|lia|lia|].
      apply (Hbody bs b'); [lia|done|by apply read_rest_nonempty| |].
      * rewrite read_rest_concat, Hr. do 2 f_equal. lia.
      * right. split; [lia|]. unfold read_rest. destruct (drop _ c); simpl; lia.
  - apply wp_bind, wp_recv_keys, wp_bind. eapply wp_ptr; [done|]. cbn zeta. fold bs.
    apply wp_bind, wp_get, wp_bind. pose proof Hb as (Hwf&Hmr&Hl&_).
    cbn [readbuf pkt rv on_wld on_pkt set_wld set_pkt set_readbuf]. if_false.
    apply wp_ret. cbn [negb]. apply (Hbody n b); [lia|done|done|done|]. by left.
Qed.

(** Calling [read_packet] until a payload is there. *)
Fixpoint drive (fuel : nat) : ST sshsession unit :=
  match fuel with
  | O => ret tt
  | S fuel =>
      let* st := get in
      match payload (pkt st) with
      | Some _ => ret tt
      | None => do* read_packet; drive fuel
      end
  end.

Lemma wp_drive fuel n st chunks tail extra E :
  receivable → payload (pkt s) = None → progress n st chunks tail → 0 ≤ n < zlen ct →
  Forall (λ c, c ≠ []) chunks → concat chunks = drop (Z.to_nat n) ct ++ extra →
  (length chunks ≤ fuel)%nat →
  wp (drive fuel) E (λ _ st', ∃ chunks', delivered (pieces chunks' ++ tail) st' ∧ concat chunks' = extra) st.
Proof.
  intros Hrv Hpl. revert n st chunks. induction fuel as [|fuel IH]; intros n st chunks Hpr Hn Hne Hcat Hf.
  - destruct chunks; [|simpl in Hf; lia]. exfalso. cbn [concat] in Hcat. symmetry in Hcat.
    apply app_eq_nil in Hcat as [Hc _]. apply (f_equal length) in Hc. rewrite length_drop in Hc.
    unfold zlen in *. simpl in Hc. lia.
  - cbn [drive]. apply wp_bind, wp_get.
    assert (Hnone : payload (pkt st) = None) by (by destruct Hpr as [(?&_&->)|(?&_&_&->)]). rewrite Hnone.
    destruct chunks as [|c chunks].
    { exfalso. cbn [concat] in Hcat. symmetry in Hcat. apply app_eq_nil in Hcat as [Hc _].
      apply (f_equal length) in Hc. rewrite length_drop in Hc. unfold zlen in *. simpl in Hc. lia. }
    apply wp_bind. eapply wp_mono; [eapply (wp_read_piece n st c chunks tail extra); done|].
    intros _ st' [(n'&chunks'&Hn'&Hpr'&Hlen&Hne'&Hcat')|(chunks'&Hdel&Hex)].
    + apply (IH n' st' chunks'); [done|lia|done|done|simpl in Hf; lia].
    + pose proof (delivered_payload _ _ Hdel) as Hsome. destruct fuel as [|fuel]; [apply wp_ret; by exists chunks'|].
      cbn [drive]. apply wp_bind, wp_get. destruct (payload (pkt st')); [|done]. apply wp_ret. by exists chunks'.
Qed.
End chunks.

(** ** Two ends of a connection *)

(** A deflate stream and the inflate stream at the other end.  Of zlib this
    assumes what its manual says of [Z_SYNC_FLUSH]: all input given so far
    can be recovered from the output, within the expansion that
    [ZLIB_COMPRESS_EXPANSION] allows for. *)
Class ZlibPair {CL : CryptoLib} := {
  zpaired : ZS → ZS → Prop;
  zpair_law zd zi (p : list Z) room : zpaired zd zi → bytes_ok p → 1 ≤ zlen p ≤ RECV_MAX_PAYLOAD_LEN →
    zlen p + ZLIB_COMPRESS_EXPANSION ≤ room →
    ∃ zd' zi' w, deflate zd p room = (Z_OK, zd', w, 0) ∧ bytes_ok w ∧
      1 ≤ zlen w ≤ zlen p + ZLIB_COMPRESS_EXPANSION ∧
      inflate zi w (RECV_MAX_PAYLOAD_LEN + 1) = (Z_OK, zi', p, 0) ∧ zpaired zd' zi'
}.

Section zends.
Context {CL : CryptoLib} {ZP : ZlibPair}.

(** Both ends compress, with streams that belong together, or neither. *)
Definition zlinked (S R : sshsession) (dS dR : key_context_directional) : Prop :=
  compress_active S dS = compress_active R dR ∧
  (compress_active S dS = true →
   ∃ zd zi, zstream dS = Some zd ∧ zstream dR = Some zi ∧ zpaired zd zi).

(** What the sender puts into the packet the receiver turns into the payload. *)
Lemma zlinked_wired S R dS dR p room :
  zlinked S R dS dR → bytes_ok p → 1 ≤ zlen p ≤ RECV_MAX_PAYLOAD_LEN → zlen p + ZLIB_COMPRESS_EXPANSION ≤ room →
  ∃ w dw oz, wired S dS room p w dw ∧ bytes_ok w ∧ 1 ≤ zlen w ≤ zlen p + ZLIB_COMPRESS_EXPANSION ∧
    dw = match oz with Some (zd, _) => set_zstream (Some zd) dS | None => dS end ∧
    if compress_active R dR then
      ∃ zi zd' zi', oz = Some (zd', zi') ∧ zpaired zd' zi' ∧ zstream dR = Some zi ∧
        inflate zi w (RECV_MAX_PAYLOAD_LEN + 1) = (Z_OK, zi', p, 0)
    else oz = None ∧ w = p.
Proof.
  intros [Heq Hz] Hb Hl Hr. change ZLIB_COMPRESS_EXPANSION with 21 in *. unfold wired. rewrite <-Heq.
  destruct (compress_active S dS).
  - destruct (Hz eq_refl) as (zd&zi&HzS&HzR&Hp).
    destruct (zpair_law zd zi p room Hp Hb Hl Hr) as (zd'&zi'&w&Hdef&Hwb&Hwl&Hinf&Hp').
    exists w, (set_zstream (Some zd') dS), (Some (zd', zi')). split_and!; [|done|apply Hwl|apply Hwl|done|].
    + exists zd, zd'. by split_and!; [..|apply Hwl|apply Hwl|].
    + by exists zi, zd', zi'.
  - exists p, dS, None. split_and!; try done; lia.
Qed.
End zends.

Section ends.
Context {CL : CryptoLib}.
Context (crypt : dropbear_cipher) (mac : dropbear_hash) (mode : dropbear_cipher_mode CS).
Context {P : CipherPair mode (c_blocksize crypt) (h_hashsize mac)}.

(** A transmit and a receive direction with the same algorithms and MAC key,
    and cipher states that belong together. *)
Definition linked (dS dR : key_context_directional) : Prop :=
  dir_is dS crypt mac mode ∧ dir_is dR crypt mac mode ∧ 8 ≤ c_blocksize crypt ≤ 16 ∧
  hash_index dS = hash_index dR ∧ mackey dS = mackey dR ∧ mac_ok dR mac ∧ mode_ok mode ∧
  paired (cipher_state dS) (cipher_state dR) ∧
  (0 < h_hashsize mac → cm_aead_crypt mode = None →
   ∀ m, is_Some (hmac (hash_index dS) (slice 0 (h_keysize mac) (mackey dS)) m)).

(** The alignment [encrypt_packet] gives to a packet. *)
Definition aligned (plain : list Z) : Prop :=
  zlen plain mod c_blocksize crypt =
    (match cm_aead_crypt mode with Some _ => 4 | None => 0 end) mod c_blocksize crypt.

(** What one direction seals the other opens, and they stay linked. *)
Lemma linked_seal_open dS dR seqno plain (s : sshsession) :
  linked dS dR → bytes_ok plain → 16 ≤ zlen plain → aligned plain →
  recvseq (pkt s) = seqno → LOAD32H (slice 0 4 plain) = zlen plain - 4 →
  ∃ ct head csS cs1 cs2,
    seal dS seqno plain = Some (ct, csS) ∧
    zlen ct = zlen plain + h_hashsize mac ∧ bytes_ok ct ∧
    first_block s dR crypt mode ct plain head cs1 ∧
    open_packet (set_cipher_state cs1 dR) seqno
      (head ++ slice (c_blocksize crypt) (zlen ct - c_blocksize crypt) ct) = Some (plain, cs2) ∧
    linked (set_cipher_state csS dS) (set_cipher_state cs2 dR).
Proof.
  intros (HS&HR&Hbs&Hhi&Hmk&Hmac&Hmode&Hpair&Hhm) Hb Hl Hal Hseq Hlen.
  pose proof HS as (HSc&HSm&HSmo). pose proof HR as (HRc&HRm&HRmo).
  pose proof Hmac as (Hhs&_&Hlaw). unfold MAX_MAC_LEN in Hhs.
  set (bs := c_blocksize crypt) in *. set (ms := h_hashsize mac) in *.
  unfold seal, open_packet, first_block, aligned in *. rewrite HSm, HSmo. cbn [set_cipher_state algo_crypt algo_mac crypt_mode cipher_state].
  rewrite HRc, HRm, HRmo, Hseq. fold bs ms in Hal |- *.
  destruct pair_law as [(Ha&enc&dec&He&Hd&Hsp)|(aead&getl&Ha&Hg&Hap)]; rewrite Ha in *.
  - assert (Hmod : zlen plain mod bs = 0) by (rewrite Hal; apply Z.mod_0_l; lia).
    set (p1 := slice 0 bs plain). set (p2 := slice bs (zlen plain - bs) plain).
    assert (Hp : plain = p1 ++ p2).
    { unfold p1, p2. pose proof (slice_app_split 0 bs (zlen plain - bs) plain) as Hs.
      rewrite Z.add_0_l in Hs. rewrite <-Hs by lia. replace (bs + (zlen plain - bs)) with (zlen plain) by lia.
      by rewrite slice_full. }
    assert (Hl1 : zlen p1 = bs) by (apply zlen_slice; lia).
    assert (Hl2 : zlen p2 = zlen plain - bs) by (apply zlen_slice; lia).
    destruct (Hsp (cipher_state dS) (cipher_state dR) p1 p2) as (c1&c2&csS&cs1&cs2&Henc&Hcb&Hc1&Hc2&Hd1&Hd2&Hp');
      [done|by rewrite <-Hp|rewrite Hl1; apply Z.mod_same; lia| |].
    { rewrite Hl2, Zminus_mod, Hmod, Z.mod_same by lia. done. }
    rewrite He, Hd. rewrite <-Hp in Henc. rewrite Henc.
    assert (Hm : ∃ m, (if ms >? 0 then hmac (hash_index dS) (slice 0 (h_keysize mac) (mackey dS)) (STORE32H seqno ++ plain)
                       else Some []) = Some m ∧ ms ≤ zlen m ∧ bytes_ok m).
    { destruct (Z.gtb_spec ms 0) as [Hpos|Hpos].
      - destruct (Hhm ltac:(lia) eq_refl (STORE32H seqno ++ plain)) as [m Hm]. exists m. split; [done|].
        rewrite Hhi in Hm. by apply Hlaw in Hm.
      - exists []. split_and!; [done|unfold zlen; simpl; lia|constructor]. }
    destruct Hm as (m&Hm&Hml&Hmb). rewrite Hm. set (tag := slice 0 ms (take (Z.to_nat MAX_MAC_LEN) m)).
    assert (Htl : zlen tag = ms).
    { apply zlen_slice; [lia|lia|]. unfold zlen, MAX_MAC_LEN in *. rewrite length_take. lia. }
    assert (Htb : bytes_ok tag) by (apply bytes_ok_slice, Forall_take, Hmb).
    exists ((c1 ++ c2) ++ tag), p1, csS, cs1, cs2.
    assert (Hctl : zlen ((c1 ++ c2) ++ tag) = zlen plain + ms) by (rewrite !zlen_app; lia).
    assert (Hs0 : slice 0 bs ((c1 ++ c2) ++ tag) = c1).
    { rewrite <-app_assoc. apply (slice_app_exact 0 bs []); [done|lia]. }
    assert (Hs1 : slice bs (zlen ((c1 ++ c2) ++ tag) - bs) ((c1 ++ c2) ++ tag) = c2 ++ tag).
    { rewrite Hctl, <-app_assoc. pose proof (slice_app_exact bs (zlen (c2 ++ tag)) c1 (c2 ++ tag) []) as Hx.
      rewrite app_nil_r in Hx. rewrite zlen_app in Hx.
      replace (zlen plain + ms - bs) with (zlen c2 + zlen tag) by lia. apply Hx; lia. }
    split_and!; [done|done|by apply bytes_ok_app|done|done|by apply bytes_ok_slice| |..].
    + rewrite <-Hlen. f_equal. unfold p1, slice. change (Z.to_nat 0) with 0%nat.
      rewrite !drop_0, take_take. f_equal. lia.
    + exists dec. by rewrite Hs0.
    + rewrite Hs1. assert (Hzl : zlen (p1 ++ c2 ++ tag) - ms = zlen plain) by (rewrite !zlen_app; lia).
      rewrite Hzl. if_false.
      assert (Hx1 : slice bs (zlen plain - bs) (p1 ++ c2 ++ tag) = c2) by (apply slice_app_exact; lia).
      assert (Hx2 : slice 0 bs (p1 ++ c2 ++ tag) = p1) by (apply (slice_app_exact 0 bs []); [done|lia]).
      assert (Hx3 : slice (zlen plain) ms (p1 ++ c2 ++ tag) = tag).
      { rewrite app_assoc. pose proof (slice_app_exact (zlen plain) ms (p1 ++ c2) tag []) as Hx.
        rewrite app_nil_r in Hx. apply Hx; [rewrite zlen_app; lia|done]. }
      rewrite Hx1, Hx2, Hx3, Hd2, <-Hp. unfold mac_tag_ok. cbn [set_cipher_state hash_index mackey].
      rewrite <-Hhi, <-Hmk. fold ms. destruct (ms >? 0); [|done]. rewrite Hm. fold tag.
      by rewrite constant_time_eq_spec, bool_decide_eq_true_2.
    + unfold linked. fold bs ms. split_and!; try done; try lia. intros ? _ m0. by apply Hhm.
  - destruct (Hap seqno (cipher_state dS) (cipher_state dR) plain Hpair Hb ltac:(lia))
      as (c&csS&cs1&cs2&Henc&Hcb&Hcl&Hget&Hdec&Hp').
    exists c, (slice 0 bs c), csS, cs1, cs2. rewrite Henc. fold ms in Hcl.
    assert (Hcat : slice 0 bs c ++ slice bs (zlen c - bs) c = c).
    { pose proof (slice_app_split 0 bs (zlen c - bs) c) as Hs. rewrite Z.add_0_l in Hs.
      rewrite <-Hs by lia. replace (bs + (zlen c - bs)) with (zlen c) by lia. apply slice_full. }
    split_and!; [done|done|done|done| |..].
    + rewrite Zminus_mod, Hal, Z.sub_diag. apply Z.mod_0_l. lia.
    + exists getl. split; [done|]. rewrite Hget by lia. by rewrite Hlen.
    + rewrite Hcat, Hcl. replace (zlen plain + ms - ms) with (zlen plain) by lia. if_false. exact Hdec.
    + unfold linked. fold bs ms. split_and!; try done; try lia. by rewrite Ha.
Qed.
End ends.

(** ** The properties of the packet layer *)

Fixpoint read_packets {CL : CryptoLib} (n : nat) : ST sshsession unit :=
  match n with O => ret tt | S n => do* read_packet; read_packets n end.

(** C7: The receive path is memory safe on any input.  From a session whose
    receive keys are set up, any number of [read_packet] calls on any bytes
    from the peer, cut in any way and with any length field (a wrapped one
    included), never reads or writes outside a buffer: each call returns with
    the invariant intact or leaves through [dropbear_exit]. *)
Theorem read_packet_safe {CL : CryptoLib} {ZL : ZlibLaws} (n : nat) (s : sshsession) :
  recv_inv s → wp (read_packets n) any_exit (λ _ s', recv_inv s') s.
Proof.
  revert s. induction n as [|n IH]; intros s Hs; [done|]. apply wp_bind.
  eapply wp_mono; [by apply wp_read_packet_safe|]. intros [] s' [Hs' _]. by apply IH.
Qed.

(** C8: Decryption accepts exactly the authentic packets.  With a complete
    packet in the read buffer and no compression, [decrypt_packet] returns if
    and only if the pure [open_packet] opens it (the AEAD tag, or the MAC
    over sequence number and plaintext, is right) with a payload length in
    range; the session it returns has that payload, one more received packet
    counted, and nothing else changed; everything else ends the process. *)
Theorem decrypt_packet_accepts {CL : CryptoLib} (s s' : sshsession) (kc : key_context) (b : buffer)
    crypt mac mode :
  let d := k_recv kc in
  keys s = Some kc → readbuf (pkt s) = Some b → rb_body (c_blocksize crypt) b →
  dir_is d crypt mac mode → mac_ok d mac → mode_ok mode → 8 ≤ c_blocksize crypt ≤ 16 →
  compress_active s d = false →
  decrypt_packet s = Ok (tt, s') ↔
  ∃ plain cs, open_packet d (recvseq (pkt s)) (contents b) = Some (plain, cs) ∧
    payload_len_ok plain = true ∧ s' = accepted s kc d (w_reads (wld s)) b plain cs.
Proof.
  intros d Hk Hrb Hbody His Hmac Hmode Hbs Hcomp. pose proof (rv_self s kc Hk) as Hself.
  rewrite Hrb in Hself. fold d in Hself. set (rd := w_reads (wld s)) in *.
  assert (Hrun : wp decrypt_packet
    (λ _, ∀ plain cs, open_packet d (recvseq (pkt s)) (contents b) = Some (plain, cs) → payload_len_ok plain = false)
    (λ _ s1, ∃ plain cs, open_packet d (recvseq (pkt s)) (contents b) = Some (plain, cs) ∧
      payload_len_ok plain = true ∧ s1 = accepted s kc d rd b plain cs) (rv s kc d (Some b) rd)).
  { eapply (wp_decrypt_packet s kc d b rd _ _ crypt mac mode); [done..|].
    destruct (open_packet _ _ _) as [[plain cs]|]; [|done].
    destruct (payload_len_ok plain) eqn:Hok; [by eauto|]. intros _ ? ? [= <- <-]. done. }
  rewrite <-Hself in Hrun. unfold wp in Hrun. split.
  - intros Hd. by rewrite Hd in Hrun.
  - intros (plain&cs&Hopen&Hok&->). destruct (decrypt_packet s) as [[[] s1]|e|w]; [|by rewrite (Hrun _ _ Hopen) in Hok|done].
    destruct Hrun as (plain'&cs'&Hopen'&_&->). rewrite Hopen in Hopen'. by injection Hopen' as <- <-.
Qed.

Lemma remaining_payload_buf b p pad :
  wf_buf b → zlen pad < 256 → 5 + zlen p + zlen pad ≤ b_size b →
  remaining (payload_buf b (plain_packet p pad)) = p.
Proof.
  intros (?&?&?&?) Hpad Hsz. pose proof (zlen_nonneg p). pose proof (zlen_nonneg pad).
  assert (Hpl : payload_len (plain_packet p pad) = zlen p).
  { unfold payload_len. rewrite plain_packet_length. change (nth 4 (plain_packet p pad) 0) with (zlen pad). lia. }
  unfold remaining, payload_buf. cbn [b_pos b_len b_data]. rewrite Hpl. replace (5 + zlen p - 5) with (zlen p) by lia.
  unfold splice. change (Z.to_nat 0) with 0%nat. rewrite take_0, app_nil_l.
  unfold plain_packet. rewrite (app_assoc (STORE32H _)), <-!app_assoc.
  rewrite (app_assoc (STORE32H _)). apply slice_app_exact; [done|done].
Qed.

Lemma payload_of_plain p pad : zlen pad < 256 → payload_of (plain_packet p pad) = p.
Proof.
  intros Hpad. pose proof (zlen_nonneg p). pose proof (zlen_nonneg pad).
  assert (Hpl : payload_len (plain_packet p pad) = zlen p).
  { unfold payload_len. rewrite plain_packet_length. change (nth 4 (plain_packet p pad) 0) with (zlen pad). lia. }
  unfold payload_of. rewrite Hpl. unfold plain_packet. rewrite (app_assoc (STORE32H _)). by apply slice_app_exact.
Qed.

Lemma plain_packet_header p pad :
  5 + zlen p + zlen pad < 2 ^ 32 →
  LOAD32H (slice 0 4 (plain_packet p pad)) = zlen (plain_packet p pad) - 4.
Proof.
  intros Hlt. pose proof (zlen_nonneg p). pose proof (zlen_nonneg pad).
  unfold plain_packet at 1. rewrite (slice_app_l 0 4 (STORE32H _)) by done.
  change (slice 0 4 (STORE32H ?x)) with (STORE32H x). rewrite LOAD32H_STORE32H by lia.
  rewrite plain_packet_length. lia.
Qed.

(** The packet [plain] sealed by one end reaches the other. *)
Definition crosses {CL : CryptoLib} crypt mac mode {P : CipherPair mode (c_blocksize crypt) (h_hashsize mac)}
    (R0 : sshsession) (dS dR : key_context_directional) (seqno : Z) (plain : list Z) (ct : list Z)
    (csS cs1 cs2 : CS) (head : list Z) : Prop :=
  seal dS seqno plain = Some (ct, csS) ∧
  linked crypt mac mode (set_cipher_state csS dS) (set_cipher_state cs2 dR) ∧
  receivable R0 dR crypt mac mode ct plain head cs1 cs2.

Section crossing.
Context {CL : CryptoLib} (crypt : dropbear_cipher) (mac : dropbear_hash) (mode : dropbear_cipher_mode CS).
Context {P : CipherPair mode (c_blocksize crypt) (h_hashsize mac)}.

Lemma linked_zstream z dS dR :
  linked crypt mac mode dS dR → linked crypt mac mode (set_zstream z dS) dR.
Proof. done. Qed.

(** Every packet [encrypt_packet] can build around [w] crosses. *)
Lemma linked_crosses (R0 : sshsession) dS dR seqno w pad :
  linked crypt mac mode dS dR → recvseq (pkt R0) = seqno →
  bytes_ok w → 1 ≤ zlen w ≤ RECV_MAX_PAYLOAD_LEN + ZLIB_COMPRESS_EXPANSION →
  (compress_active R0 dR = true → ∃ zs zs' out, zstream dR = Some zs ∧
     inflate zs w (RECV_MAX_PAYLOAD_LEN + 1) = (Z_OK, zs', out, 0) ∧ zlen out ≤ RECV_MAX_PAYLOAD_LEN ∧ bytes_ok out) →
  bytes_ok pad → 4 ≤ zlen pad ≤ 41 → MIN_PACKET_LEN ≤ zlen (plain_packet w pad) →
  zlen (plain_packet w pad) mod dir_block dS = (match crypt_mode dS with
     | Some mode => match cm_aead_crypt mode with Some _ => 4 | None => 0 end
     | None => 0 end) mod dir_block dS →
  ∃ ct csS cs1 cs2 head, crosses crypt mac mode R0 dS dR seqno (plain_packet w pad) ct csS cs1 cs2 head ∧
    zlen ct = zlen (plain_packet w pad) + h_hashsize mac ∧ bytes_ok ct.
Proof.
  intros Hlink Hseq Hwb Hwl Hz Hpadb Hpadl Hmin Hal.
  pose proof Hlink as ((HSc&HSm&HSmo)&HR&Hbs&_&_&HmacR&Hmode&_). pose proof HmacR as (Hhs&_). unfold MAX_MAC_LEN in Hhs.
  change (RECV_MAX_PAYLOAD_LEN + ZLIB_COMPRESS_EXPANSION) with 32789 in Hwl. unfold MIN_PACKET_LEN in Hmin.
  unfold dir_block in Hal. rewrite HSmo, HSc in Hal. pose proof (plain_packet_length w pad) as Hppl.
  destruct (linked_seal_open crypt mac mode dS dR seqno (plain_packet w pad) R0) as (ct&head&csS&cs1&cs2&Hs&Hcl&Hcb&Hfb&Hop&Hl2);
    [done|apply plain_packet_bytes; [done|done|lia]|lia|exact Hal|done|apply plain_packet_header; lia|].
  exists ct, csS, cs1, cs2, head. split_and!; [|done|done]. split_and!; [done|done|].
  unfold receivable. split_and!; try done; try lia.
  - rewrite Hcl, Hppl. change RECV_MAX_PACKET_LEN with 35000. lia.
  - by rewrite Hseq.
  - unfold payload_len_ok, payload_len. rewrite Hppl. change (nth 4 (plain_packet w pad) 0) with (zlen pad).
    change (RECV_MAX_PAYLOAD_LEN + ZLIB_COMPRESS_EXPANSION) with 32789. lia.
  - rewrite payload_of_plain by lia. exact Hz.
Qed.
End crossing.

(** The payload of an accepted packet. *)
Lemma remaining_zip size (p : list Z) : 0 ≤ zlen p ≤ size → remaining (mkbuf (splice 0 p (zeros size)) (zlen p) 0 size) = p.
Proof. intros Hl. unfold remaining. cbn [b_pos b_len b_data]. rewrite Z.sub_0_r. apply slice_splice_same; [lia|]. rewrite zlen_zeros; lia. Qed.

(** C1: Packets survive the wire.  When the transmit keys of one session and
    the receive keys of another belong together, both ends compress with
    streams that belong together or neither compresses, and their sequence
    numbers agree, then [encrypt_packet] on a payload of up to
    [RECV_MAX_PAYLOAD_LEN] bytes, of a type that may be sent now, appends one
    packet to the sender's queue, and a receiver that waits for a packet and
    gets these bytes in any pieces, with anything after them, has after at
    most one [read_packet] call per piece exactly that payload ready; the
    following bytes are left unread, both sequence numbers have advanced
    alike and keys and streams still belong together, so the next packet can
    follow. *)
Theorem packet_roundtrip {CL : CryptoLib} {ZP : ZlibPair} crypt mac mode
    {P : CipherPair mode (c_blocksize crypt) (h_hashsize mac)}
    (S0 R0 : sshsession) (kS kR : key_context) (bufs : list buffer) (type : Z) (rest : list Z) :
  let p := type :: rest in
  send_ready S0 kS bufs → linked crypt mac mode (k_trans kS) (k_recv kR) →
  zlinked S0 R0 (k_trans kS) (k_recv kR) →
  contents (writepayload (pkt S0)) = p → zlen p ≤ RECV_MAX_PAYLOAD_LEN →
  dataallowed (pkt S0) || packet_is_okay_kex type = true →
  keys R0 = Some kR → readbuf (pkt R0) = None → payload (pkt R0) = None →
  recvseq (pkt R0) = transseq (pkt S0) →
  ∃ S1 ct wb,
    encrypt_packet S0 = Ok (tt, S1) ∧
    queue_rep (writequeue (pkt S1)) (bufs ++ [wb]) ∧ remaining wb = ct ∧
    ∀ chunks extra tail,
      Forall (λ c, c ≠ []) chunks → concat chunks = ct ++ extra →
      w_reads (wld R0) = pieces chunks ++ tail →
      ∃ R1 b kS' kR' chunks',
        drive (length chunks) R0 = Ok (tt, R1) ∧
        payload (pkt R1) = Some b ∧ remaining b = p ∧
        w_reads (wld R1) = pieces chunks' ++ tail ∧ concat chunks' = extra ∧
        recvseq (pkt R1) = transseq (pkt S1) ∧
        keys S1 = Some kS' ∧ keys R1 = Some kR' ∧ linked crypt mac mode (k_trans kS') (k_recv kR') ∧
        zlinked S1 R1 (k_trans kS') (k_recv kR').
Proof.
  intros p Hsend Hlink Hzl Hcont Hpl Hda HkR Hrb Hpay Hseq.
  pose proof Hlink as ((_&HSm&_)&_&Hbs&_&_&HmacR&_). pose proof HmacR as (Hhs&_).
  pose proof Hsend as (HkS&_&_&_&_&HwfS). pose proof (contents_bytes _ HwfS) as Hpb. rewrite Hcont in Hpb.
  change RECV_MAX_PAYLOAD_LEN with 32768 in Hpl.
  assert (Hp1 : 1 ≤ zlen p) by (unfold p; rewrite zlen_cons; pose proof (zlen_nonneg rest); lia).
  destruct (zlinked_wired S0 R0 _ _ p (dir_room (k_trans kS) mac p) Hzl Hpb) as (w&dw&oz&Hw&Hwb&Hwl&Hdw&Hback);
    [change RECV_MAX_PAYLOAD_LEN with 32768; lia|unfold dir_room, packet_room, MIN_PACKET_LEN; lia|].
  change ZLIB_COMPRESS_EXPANSION with 21 in Hwl.
  assert (Hlw : linked crypt mac mode dw (k_recv kR)) by (rewrite Hdw; by destruct oz as [[zd zi]|]).
  assert (Hcross := λ pad, linked_crosses crypt mac mode R0 dw (k_recv kR) (transseq (pkt S0)) w pad Hlw Hseq Hwb).
  specialize (λ pad, Hcross pad ltac:(change (RECV_MAX_PAYLOAD_LEN + ZLIB_COMPRESS_EXPANSION) with 32789; lia)).
  assert (Hzok : compress_active R0 (k_recv kR) = true → ∃ zs zs' out, zstream (k_recv kR) = Some zs ∧
     inflate zs w (RECV_MAX_PAYLOAD_LEN + 1) = (Z_OK, zs', out, 0) ∧ zlen out ≤ RECV_MAX_PAYLOAD_LEN ∧ bytes_ok out).
  { intros Hc. rewrite Hc in Hback. destruct Hback as (zi&zd'&zi'&_&_&Hzi&Hinf). by exists zi, zi', p. }
  specialize (λ pad, Hcross pad Hzok).
  assert (Hrun : wp encrypt_packet no_exit (λ _ S1, ∃ ct wb pad csS head cs1 cs2,
    queue_rep (writequeue (pkt S1)) (bufs ++ [wb]) ∧ remaining wb = ct ∧ 4 ≤ zlen pad ≤ 41 ∧
    keys S1 = Some (set_k_trans (set_cipher_state csS dw) kS) ∧ authdone S1 = authdone S0 ∧
    transseq (pkt S1) = u32 (transseq (pkt S0) + 1) ∧
    crosses crypt mac mode R0 dw (k_recv kR) (transseq (pkt S0)) (plain_packet w pad) ct csS cs1 cs2 head) S0).
  { eapply wp_encrypt_packet_gen; [done|done|split; [done|fold p; lia]|done|exact Hw| | |].
    - intros pad plain Hpadb Hpadl Hmin Hal. destruct (Hcross pad Hpadb Hpadl Hmin Hal) as (ct&csS&cs1&cs2&head&Hx&Hcl&Hcb).
      destruct Hx as (Hs&_). by exists ct, csS.
    - intros Hd Hk. by rewrite Hd, Hk in Hda.
    - intros _ pad ct cs wb q' r' plain Hpadb Hpadl Hmin Hal Hs Hcl Hwfb Hcw Hp0 Hlen Hq' Hr'.
      assert (Hblk : dir_block dw = dir_block (k_trans kS) ∧ crypt_mode dw = crypt_mode (k_trans kS)) by (rewrite Hdw; by destruct oz as [[? ?]|]).
      destruct Hblk as [Hb1 Hb2]. rewrite <-Hb1, <-Hb2 in Hal.
      destruct (Hcross pad Hpadb Hpadl Hmin Hal) as (ct2&csS&cs1&cs2&head&Hx&_). pose proof Hx as (Hs2&_).
      assert (Heq : Some (ct, cs) = Some (ct2, csS)) by (rewrite <-Hs, <-Hs2; done). injection Heq as <- <-.
      exists ct, wb, pad, cs, head, cs1, cs2. unfold sent. cbv zeta.
      split_and!; [by destruct (counts_idle type)|unfold remaining; by rewrite Hp0, Z.sub_0_r|lia|lia|by destruct (counts_idle type)..|exact Hx]. }
  apply wp_no_exit_run in Hrun as ([]&S1&Henc&ct&wb&pad&csS&head&cs1&cs2&Hq&Hrem&Hpad&HkS1&HaS1&HtS1&Hx).
  destruct Hx as (_&Hl2&Hrv). exists S1, ct, wb. split_and!; [done..|]. intros chunks extra tail Hne Hcat Hreads.
  pose proof Hrv as (_&_&_&_&_&Hcl&H16&_).
  assert (Hdrive : wp (drive (length chunks)) no_exit (λ _ st', ∃ chunks',
    delivered R0 kR (k_recv kR) ct (plain_packet w pad) cs1 cs2 (pieces chunks' ++ tail) st' ∧
    concat chunks' = extra) R0).
  { eapply (wp_drive R0 kR (k_recv kR) crypt mac mode ct (plain_packet w pad) head cs1 cs2 _ 0);
      [exact Hrv|done| |lia|done|by rewrite Hcat|lia].
    left. exists None. split; [split; [lia|done]|]. rewrite <-Hreads, <-Hrb. by apply rv_self. }
  apply wp_no_exit_run in Hdrive as ([]&R1&Hdr&chunks'&(b&Hwfb&Hbl&Hdel)&Hex).
  assert (HcS : ∀ d, compress_active S1 d = compress_active S0 d) by (intros; unfold compress_active; by rewrite HaS1).
  pose proof (plain_packet_length w pad) as Hppl. destruct Hzl as [Hceq _].
  assert (Hsw : compress_active S0 dw = compress_active S0 (k_trans kS)) by (rewrite Hdw; by destruct oz as [[? ?]|]).
  destruct (compress_active R0 (k_recv kR)) eqn:HcR.
  - destruct Hback as (zi&zd'&zi'&->&Hzp&Hzi&Hinf). destruct Hdel as (zs&zs'&out&Hzs&Hinf2&->).
    rewrite payload_of_plain in Hinf2 by lia. assert (zs = zi) as -> by congruence. rewrite Hinf in Hinf2. injection Hinf2 as <- <-.
    eexists _, _, _, _, chunks'. split_and!; [exact Hdr|reflexivity| |reflexivity|exact Hex| |exact HkS1|reflexivity|exact Hl2|..].
    + apply remaining_zip. change RECV_MAX_PAYLOAD_LEN with 32768. lia.
    + rewrite HtS1, <-Hseq. done.
    + split; [|intros _; rewrite Hdw; by exists zd', zi'].
      rewrite HcS. etransitivity; [exact Hsw|]. rewrite Hceq. symmetry. exact HcR.
  - destruct Hback as [-> ->]. subst dw R1.
    eexists _, _, _, _, chunks'. split_and!; [exact Hdr|reflexivity| |reflexivity|exact Hex| |exact HkS1|reflexivity|exact Hl2|..].
    + apply remaining_payload_buf; [done|lia|]. destruct Hwfb as (?&?&?&?). lia.
    + rewrite HtS1, <-Hseq. done.
    + split; rewrite HcS; [etransitivity; [exact Hceq|]; symmetry; exact HcR|].
      cbn [k_trans set_k_trans]. change (compress_active S0 (set_cipher_state csS (k_trans kS))) with (compress_active S0 (k_trans kS)).
      by rewrite Hceq.
Qed.

Lemma read_packet_safe_witness :
  wp (@read_packets toy_lib 3) any_exit (λ _ s', recv_inv s')
    (@toy_session [5] [RData [255; 255; 255; 248; 1]; RAgain; RData [2; 3; 4; 5; 6; 7; 8; 9]]).
Proof.
  apply (@read_packet_safe toy_lib toy_zlib). exists toy_keys. split; [done|].
  split; [apply toy_dir_ok|]. split; [|by left]. repeat constructor; decide_closed.
Defined.

(** A packet for the toy keys: length 28, padding 8, payload "hi" and more. *)
Definition toy_plain : list Z := plain_packet [90; 104; 105] (replicate 8 0).
Definition toy_tag : list Z := replicate 32 (sum_bytes (replicate 32 7 ++ STORE32H 3 ++ toy_plain)).
Definition toy_readbuf : buffer := mkbuf (toy_plain ++ toy_tag) 48 8 48.
Definition toy_receiver : @sshsession toy_lib :=
  on_pkt (set_readbuf (Some toy_readbuf)) (toy_session [5] []).

Lemma decrypt_packet_accepts_witness :
  ∃ s', @decrypt_packet toy_lib toy_receiver = Ok (tt, s') ∧
    option_map remaining (payload (pkt s')) = Some [90; 104; 105].
Proof.
  exists (@accepted toy_lib toy_receiver toy_keys toy_dir [] toy_readbuf toy_plain tt). split.
  - apply (@decrypt_packet_accepts toy_lib toy_receiver _ toy_keys toy_readbuf
      dropbear_nocipher toy_mac (dropbear_mode_none tt)); [done|done| |done|apply toy_mac_ok|
      apply toy_mode_ok|simpl; lia|done|].
    + split; [|simpl; split; [lia|by vm_compute]].
      split_and!; simpl; try lia; [unfold BUF_MAX_SIZE; lia|done|decide_closed].
    + exists toy_plain, tt. split; [vm_compute; reflexivity|]. split; [vm_compute; reflexivity|reflexivity].
  - vm_compute. reflexivity.
Defined.

Lemma toy_send_ok p reads :
  bytes_ok p → zlen p ≤ 1000 → @send_ok toy_lib (toy_session p reads) toy_keys [].
Proof.
  intros Hp Hl. split; [done|]. split; [apply toy_dir_ok|].
  split; [split; [done|unfold MAX_COUNTER; simpl; lia]|].
  split; [exists []; split_and!; done || constructor|].
  split; [done|]. split; [by apply toy_payload_wf|done].
Qed.

Lemma toy_linked :
  @linked toy_lib dropbear_nocipher toy_mac (dropbear_mode_none tt) (none_pair tt _ _) toy_dir toy_dir.
Proof.
  split; [done|]. split; [done|]. split; [simpl; lia|]. split; [done|]. split; [done|].
  split; [apply toy_mac_ok|]. split; [apply toy_mode_ok|]. split; [done|]. intros _ _ m. by eexists.
Qed.

(** The stand-in compressor, which copies. *)
Definition toy_zpair : @ZlibPair toy_lib.
Proof.
  refine (@Build_ZlibPair toy_lib (λ _ _, True) _). intros zd zi p room _ Hb Hl Hroom.
  change ZLIB_COMPRESS_EXPANSION with 21 in *. change RECV_MAX_PAYLOAD_LEN with 32768 in *.
  assert (Hcopy : ∀ n, zlen p ≤ n → toy_copy tt p n = (Z_OK, tt, p, 0)).
  { intros n Hn. unfold toy_copy. rewrite take_ge by (unfold zlen in *; lia).
    replace (map u8 p) with p; [by rewrite Z.sub_diag|]. clear -Hb.
    induction Hb as [|x p Hx _ IH]; [done|]. cbn [map]. rewrite <-IH, u8_small; [done|exact Hx]. }
  exists tt, tt, p. destruct zd, zi. cbn [deflate inflate toy_lib].
  split_and!; [apply Hcopy; lia|done|lia|lia|apply Hcopy; lia|done].
Defined.

(** Keys with zlib compression, in both directions. *)
Definition toy_zdir : @key_context_directional toy_lib :=
  set_zstream (Some tt : option (@ZS toy_lib)) (set_algo_comp DROPBEAR_COMP_ZLIB toy_dir).
Definition toy_zkeys : @key_context toy_lib := set_k_trans toy_zdir (set_k_recv toy_zdir toy_keys).
Definition toy_zsession (p : list Z) : @sshsession toy_lib := set_keys (Some toy_zkeys) (toy_session p []).

Lemma packet_roundtrip_witness :
  compress_active (toy_zsession []) (k_trans toy_zkeys) = true ∧
  ∃ S1 ct wb,
    @encrypt_packet toy_lib (toy_zsession [90; 1; 2; 3]) = Ok (tt, S1) ∧
    queue_rep (writequeue (pkt S1)) [wb] ∧ remaining wb = ct.
Proof.
  split; [reflexivity|].
  destruct (@packet_roundtrip toy_lib toy_zpair dropbear_nocipher toy_mac (dropbear_mode_none tt) (none_pair tt _ _)
    (toy_zsession [90; 1; 2; 3]) (toy_zsession [5]) toy_zkeys toy_zkeys [] 90 [1; 2; 3])
    as (S1&ct&wb&H1&H2&H3&_).
  - destruct (toy_send_ok [90; 1; 2; 3] []) as (_&_&?&?&?&?&_); [decide_closed|vm_compute; congruence|].
    split_and!; [done| |done..]. exists dropbear_nocipher, toy_mac, (dropbear_mode_none tt).
    split; [done|]. split; [simpl; lia|]. split; [apply toy_mac_ok|]. split; [apply toy_mode_ok|]. by intros _.
  - exact toy_linked.
  - split; [reflexivity|]. intros _. by exists tt, tt.
  - vm_compute. reflexivity.
  - vm_compute. congruence.
  - reflexivity.
  - reflexivity.
  - reflexivity.
  - reflexivity.
  - reflexivity.
  - exists S1, ct, wb. split; [exact H1|]. split; [exact H2|exact H3].
Defined.

(** ** Writing to the socket *)

(** C10: The socket gets the queued stream.  Whatever part of the offered
    data [writev] takes, after [write_packet] the bytes handed to the socket
    followed by the bytes still queued are the same stream as before, no
    queued packet is empty, and [writequeue_len] still counts the queued
    bytes; a failed or empty write only leaves the process. *)
Theorem write_packet_stream {CL : CryptoLib} (s : sshsession) (bufs : list buffer) :
  queue_rep (writequeue (pkt s)) bufs → zlen bufs < 2 ^ 32 → bufs ≠ [] → Forall pending_ok bufs →
  writequeue_len (pkt s) = zlen (queue_bytes bufs) → zlen (queue_bytes bufs) < 2 ^ 32 →
  wp write_packet
    (λ _, ∃ ev rest, w_writes (wld s) = ev :: rest ∧ (ev = WError ∨ ∃ n, ev = WDone n ∧ n ≤ 0))
    (λ _ s', ∃ bufs', queue_rep (writequeue (pkt s')) bufs' ∧ Forall pending_ok bufs' ∧
       w_sent (wld s') ++ queue_bytes bufs' = w_sent (wld s) ++ queue_bytes bufs ∧
       writequeue_len (pkt s') = zlen (queue_bytes bufs')) s.
Proof.
  intros Hrep Hlen Hne Hok Hcount Hmax. pose proof Hrep as (ls&Hnd&Hc&Htl&Hdom&Hn).
  pose proof (zlen_nonneg bufs). unfold write_packet. apply wp_bind, wp_get, wp_bind, wp_assert.
  { unfold isempty. destruct bufs as [|b bufs]; [done|]. destruct ls as [|l ls]; [done|].
    destruct Hc as [-> _]. done. }
  intros _. apply wp_bind, wp_zoom, wp_bind, wp_get. rewrite Hn.
  eapply wp_iov_loop; [done|done|unfold zlen in *; lia|].
  set (k := Z.to_nat (Z.min (Z.min (zlen bufs) IOV_MAX) 50)).
  apply wp_bind, wp_bind, wp_get.
  change (w_writes (wld (on_pkt _ s))) with (w_writes (wld s)).
  destruct (w_writes (wld s)) as [|[n| |] rest] eqn:Hw.
  - apply wp_ret, wp_ret. by exists bufs.
  - apply wp_bind, wp_modify, wp_ret.
    set (out := take (Z.to_nat n) (concat (map remaining (take k bufs)))).
    assert (Hpre : queue_bytes bufs = out ++ drop (length out) (queue_bytes bufs)).
    { assert (Hq : queue_bytes bufs = concat (map remaining (take k bufs)) ++ concat (map remaining (drop k bufs))).
      { unfold queue_bytes. by rewrite <-concat_app, <-map_app, take_drop. }
      unfold out. rewrite Hq at 1. rewrite <-(take_drop (Z.to_nat n) (concat (map remaining (take k bufs)))) at 1.
      rewrite <-app_assoc. f_equal. rewrite Hq.
      destruct (decide (Z.to_nat n ≤ length (concat (map remaining (take k bufs))))%nat).
      - rewrite length_take_le by done. by rewrite drop_app_le.
      - rewrite (take_ge (concat _)), drop_ge by lia. by rewrite drop_app_length. }
    assert (Hol : zlen out + zlen (drop (length out) (queue_bytes bufs)) = zlen (queue_bytes bufs)).
    { rewrite Hpre at 2. by rewrite zlen_app. }
    pose proof (zlen_nonneg out). pose proof (zlen_nonneg (drop (length out) (queue_bytes bufs))).
    apply wp_bind, wp_zoom, wp_bind, wp_get.
    eapply wp_exit_mono; [eapply wp_mono; [apply (wp_consume_loop _ (zlen out) bufs); [done|done|done|lia|]|]|by intros].
    { change (q_count (writequeue (pkt _))) with (q_count (writequeue (pkt s))). rewrite Hn. unfold zlen. lia. }
    intros _ q' (bufs'&Hrep'&Hok'&Hb'). apply wp_bind, wp_modify. apply wp_if; intros Hz.
    + apply wp_bind, wp_get, wp_exit. exists (WDone n), rest. split; [done|]. right. exists n. split; [done|].
      destruct (Z_le_gt_dec n 0); [done|]. exfalso.
      destruct bufs as [|b bufs]; [done|]. pose proof Hok as [Hb _]%Forall_cons. apply pending_pos in Hb.
      assert (Hk : k = S (pred k)). { unfold k, IOV_MAX. rewrite zlen_cons. pose proof (zlen_nonneg bufs). lia. }
      unfold out in Hz. rewrite Hk in Hz. cbn [take map concat] in Hz. unfold zlen in Hz, Hb.
      rewrite length_take, length_app in Hz. apply Z.eqb_eq in Hz. clear Hpre Hol. lia.
    + apply wp_ret. exists bufs'. unfold zlen in Hb'. rewrite Nat2Z.id in Hb'.
      split_and!; [done|done| |].
      * cbn -[queue_bytes app]. rewrite Hb', <-app_assoc. by rewrite <-Hpre.
      * cbn -[queue_bytes u32]. rewrite Hcount, Hb', u32_small; lia.
  - apply wp_bind, wp_modify, wp_ret, wp_ret. by exists bufs.
  - apply wp_exit. exists WError, rest. split; [done|by left].
Qed.

Definition toy_writer : @sshsession toy_lib :=
  on_wld (set_w_writes [WDone 3])
    (on_pkt (λ x, set_writequeue_len 4 (set_writequeue
      (mkqueue {[0%nat := mklink (mkbuf [1; 2; 3] 3 1 3) (Some 1%nat);
                 1%nat := mklink (mkbuf [4; 5] 2 0 2) None]} (Some 0%nat) (Some 1%nat) 2) x))
      (toy_session [5] [])).

Lemma write_packet_stream_witness :
  let bufs := [mkbuf [1; 2; 3] 3 1 3; mkbuf [4; 5] 2 0 2] in
  wp (@write_packet toy_lib)
    (λ _, ∃ ev rest, w_writes (wld toy_writer) = ev :: rest ∧ (ev = WError ∨ ∃ n, ev = WDone n ∧ n ≤ 0))
    (λ _ s', ∃ bufs', queue_rep (writequeue (pkt s')) bufs' ∧ Forall pending_ok bufs' ∧
       w_sent (wld s') ++ queue_bytes bufs' = [2; 3; 4; 5] ∧
       writequeue_len (pkt s') = zlen (queue_bytes bufs')) toy_writer.
Proof.
  assert (Hwf : ∀ l p (d : list Z), 0 ≤ p < l → l = zlen d → l ≤ 3 → bytes_ok d →
            pending_ok (mkbuf d l p l)).
  { intros. unfold pending_ok, wf_buf, BUF_MAX_SIZE; simpl. split_and!; try lia; done. }
  apply (@write_packet_stream toy_lib toy_writer [mkbuf [1; 2; 3] 3 1 3; mkbuf [4; 5] 2 0 2]).
  - exists [0; 1]%nat. split_and!; try reflexivity.
    + decide_closed.
    + split; [done|]. exists (Some 1%nat). split; [done|]. split; [done|]. by exists None.
  - by vm_compute.
  - done.
  - repeat (apply Forall_cons; split); try apply Hwf; first [lia|done|decide_closed].
  - by vm_compute.
  - by vm_compute.
Defined.

(** ** Packets held during a key exchange *)

(** [ps] sealed one after the other, with consecutive sequence numbers. *)
Inductive sealed_run {CL : CryptoLib} :
    key_context_directional → Z → list (list Z) → list buffer → key_context_directional → Z → Prop :=
| SR_nil d seqno : sealed_run d seqno [] [] d seqno
| SR_cons d seqno p ps pad ct cs wb wbs d' seqno' :
    4 ≤ zlen pad → seal d seqno (plain_packet p pad) = Some (ct, cs) → remaining wb = ct →
    sealed_run (set_cipher_state cs d) (u32 (seqno + 1)) ps wbs d' seqno' →
    sealed_run d seqno (p :: ps) (wb :: wbs) d' seqno'.

Section holding.
Context {CL : CryptoLib}.
Context (d0 : key_context_directional) (mac : dropbear_hash).

(** The keys differ from [d0] in the cipher state only. *)
Definition evolves (d : key_context_directional) : Prop := ∃ cs, d = set_cipher_state cs d0.

(** Sending always succeeds with these keys, whatever their state. *)
Definition sealing : Prop :=
  algo_mac d0 = Some mac ∧
  ∀ cs seqno p, sendable p → can_seal (set_cipher_state cs d0) mac seqno p.

(** A session ready to send payloads of up to [W] bytes. *)
Definition idle (W : Z) (s : sshsession) (kc : key_context) (bufs : list buffer) : Prop :=
  send_ok s kc bufs ∧ evolves (k_trans kc) ∧
  b_len (writepayload (pkt s)) = 0 ∧ b_pos (writepayload (pkt s)) = 0 ∧ b_size (writepayload (pkt s)) = W.

(** [buf_putbytes(ses.writepayload, p); encrypt_packet();] *)
Definition send_payload (p : list Z) : ST sshsession unit :=
  do* on_writepayload (buf_putbytes p); encrypt_packet.

Lemma send_payload_eq p : send_payload p = (do* on_writepayload (buf_putbytes p); encrypt_packet).
Proof. reflexivity. Qed.

(** One payload: held when the key exchange forbids it, queued otherwise. *)
Lemma wp_send_payload W s kc bufs p type rest (Q : unit → sshsession → Prop) E :
  sealing → idle W s kc bufs → p = type :: rest → sendable p → zlen p ≤ W → zlen bufs + 2 < 2 ^ 32 →
  (dataallowed (pkt s) = false → packet_is_okay_kex type = false →
     ∀ s', idle W s' kc bufs → dataallowed (pkt s') = false → transseq (pkt s') = transseq (pkt s) →
       reply_queue (pkt s') = reply_queue (pkt s) ++ [buf_of p] → Q tt s') →
  (dataallowed (pkt s) = true →
     ∀ s' pad ct cs wb, let d' := set_cipher_state cs (k_trans kc) in
       idle W s' (set_k_trans d' kc) (bufs ++ [wb]) → dataallowed (pkt s') = true →
       transseq (pkt s') = u32 (transseq (pkt s) + 1) → reply_queue (pkt s') = reply_queue (pkt s) →
       4 ≤ zlen pad → seal (k_trans kc) (transseq (pkt s)) (plain_packet p pad) = Some (ct, cs) →
       remaining wb = ct → Q tt s') →
  (dataallowed (pkt s) = false → packet_is_okay_kex type = false) →
  wp (send_payload p) E Q s.
Proof.
  intros [Hm Hcan] (Hsend&[cs0 Hev]&Hl&Hp&Hs) Hpt Hsp HpW Hbl HQ1 HQ2 Hkex.
  pose proof Hsend as (Hk&Hd&Hr&Hq&Hql&Hw&Hc). pose proof Hsp as [Hpb Hpl].
  apply wp_bind, wp_zoom, wp_buf_putbytes; [done|done| |lia]. intros _.
  set (pl := after_put p (writepayload (pkt s))).
  set (s1 := on_pkt (set_writepayload pl) s).
  assert (Hwpl : wf_buf pl) by (apply wf_after_put; [done|done|lia]).
  assert (Hcpl : contents pl = p) by (apply contents_fresh_put; [done|done|done|lia]).
  assert (Hs1 : send_ok s1 kc bufs) by (split_and!; done).
  eapply (wp_encrypt_packet _ _ s1 kc bufs type rest mac); [done|by rewrite <-Hpt|by rewrite <-Hpt| | |..].
  - rewrite Hev. exact Hm.
  - rewrite Hev. rewrite <-Hpt. by apply Hcan.
  - intros Hda Hok. apply (HQ1 Hda Hok); [|done|done|].
    + split; [|split; [by exists cs0|done]]. split_and!; try done; [cbn; f_equal; by destruct kc|by apply wf_empty_payload].
    + cbn. by rewrite Hcpl.
  - intros Hor pad ct cs wb q' r' plain Hpadb Hpad Hmin Hal Hseal Hctl Hwb Hcw Hp0 Hlw Hq' Hr'.
    assert (Hda : dataallowed (pkt s) = true).
    { apply orb_prop in Hor as [?|Hok]; [done|]. destruct (dataallowed (pkt s)) eqn:Hd0; [done|].
      by rewrite (Hkex eq_refl) in Hok. }
    apply (HQ2 Hda _ pad ct cs wb); [|unfold sent; cbv zeta; by destruct (counts_idle type)..|lia|by rewrite Hpt|].
    + assert (Hd' : dir_ok (set_cipher_state cs (k_trans kc))) by done.
      assert (Hwe : wf_buf (empty_payload pl)) by (by apply wf_empty_payload).
      split; [|split; [exists cs; rewrite Hev; done|]].
      * unfold sent. cbv zeta. destruct (counts_idle type); (split_and!; try done; try (rewrite zlen_app; change (zlen [wb]) with 1; lia); exact Hc || exact Hk).
      * unfold sent. cbv zeta. by destruct (counts_idle type).
    + unfold remaining. rewrite Hp0, Z.sub_0_r. exact Hcw.
Qed.

Fixpoint send_payloads (ps : list (list Z)) : ST sshsession unit :=
  match ps with [] => ret tt | p :: ps => do* send_payload p; send_payloads ps end.

(** A packet that must wait for the end of the key exchange. *)
Definition must_wait (W : Z) (p : list Z) : Prop :=
  sendable p ∧ zlen p ≤ W ∧ packet_is_okay_kex (nth 0 p 0) = false.

Lemma wp_hold_payloads W ps s kc bufs E (Q : unit → sshsession → Prop) :
  sealing → idle W s kc bufs → Forall (must_wait W) ps → zlen bufs + 2 < 2 ^ 32 →
  dataallowed (pkt s) = false →
  (∀ s', idle W s' kc bufs → transseq (pkt s') = transseq (pkt s) →
     reply_queue (pkt s') = reply_queue (pkt s) ++ map buf_of ps → Q tt s') →
  wp (send_payloads ps) E Q s.
Proof.
  intros Hseal Hidle Hps Hbl. revert s Q Hidle. induction Hps as [|p ps (Hsp&HpW&Hok) _ IH];
    intros s Q Hidle Hda HQ.
  { apply wp_ret, HQ; [done|done|by rewrite app_nil_r]. }
  cbn [send_payloads]. apply wp_bind.
  destruct p as [|type rest]; [destruct Hsp as [_ Hl]; unfold zlen in Hl; simpl in Hl; lia|].
  eapply (wp_send_payload W s kc bufs); [done|done|done|done|done|done| |by rewrite Hda|done].
  intros _ _ s' Hidle' Hda' Hts Hrq. apply IH; [done|done|]. intros s2 Hi2 Ht2 Hr2.
  apply HQ; [done|congruence|]. rewrite Hr2, Hrq, <-app_assoc. done.
Qed.

Lemma wp_flush_replies W items ps s kc bufs E (Q : unit → sshsession → Prop) :
  sealing → idle W s kc bufs → items = map buf_of ps →
  Forall (λ p, sendable p ∧ zlen p ≤ W) ps → zlen bufs + zlen ps + 2 < 2 ^ 32 →
  dataallowed (pkt s) = true →
  (∀ s' kc' wbs, queue_rep (writequeue (pkt s')) (bufs ++ wbs) →
     sealed_run (k_trans kc) (transseq (pkt s)) ps wbs (k_trans kc') (transseq (pkt s')) →
     keys s' = Some kc' → Q tt s') →
  wp (flush_replies items) E Q s.
Proof.
  intros Hseal Hidle -> Hps. revert s kc bufs Q Hidle. induction Hps as [|p ps [Hsp HpW] _ IH];
    intros s kc bufs Q Hidle Hbl Hda HQ; cbn [map flush_replies].
  { destruct Hidle as ((Hk&_&_&Hq&_)&_). apply wp_ret, (HQ s kc []); [by rewrite app_nil_r|constructor|done]. }
  rewrite zlen_cons in Hbl. pose proof (zlen_nonneg ps).
  destruct p as [|type rest]; [destruct Hsp as [_ Hl]; unfold zlen in Hl; simpl in Hl; lia|].
  set (p := type :: rest) in *.
  change (slice 0 (b_len (buf_of p)) (b_data (buf_of p))) with (contents (buf_of p)). rewrite contents_buf_of.
  assert (Hgo : wp (do* send_payload p; flush_replies (map buf_of ps)) E Q s).
  { apply wp_bind. eapply (wp_send_payload W s kc bufs p type rest);
      [done|done|done|done|done|lia|by rewrite Hda| |by rewrite Hda].
    intros _ s' pad ct cs wb d' Hidle' Hda' Hts' Hrq' Hpad Hs Hrem.
    apply (IH s' (set_k_trans d' kc) (bufs ++ [wb])); [done| |done|].
    { rewrite zlen_app. change (zlen [wb]) with 1. lia. }
    intros s2 kc2 wbs Hq2 Hrun Hk2. apply (HQ s2 kc2 (wb :: wbs)); [|econstructor; [exact Hpad|exact Hs|done|]|done].
    - by rewrite <-app_assoc in Hq2.
    - rewrite Hts' in Hrun. exact Hrun. }
  rewrite send_payload_eq in Hgo. by apply wp_bind_assoc.
Qed.
End holding.

(** C9: Nothing is lost or reordered across a key exchange.  Packets that
    RFC 4253 forbids during a key exchange are not transmitted while
    [dataallowed] is unset: the outgoing queue and the sequence number stay
    as they are.  When it is set again, [maybe_flush_reply_queue] encrypts
    exactly these packets, in the order they were sent, with consecutive
    sequence numbers under the keys then in use, and empties the list. *)
Theorem kex_holds_and_flushes {CL : CryptoLib} mac (W : Z) (s : sshsession) (kc : key_context)
    (bufs : list buffer) (ps : list (list Z)) :
  sealing (k_trans kc) mac → idle (k_trans kc) W s kc bufs →
  Forall (must_wait W) ps → zlen bufs + zlen ps + 2 < 2 ^ 32 →
  dataallowed (pkt s) = false → reply_queue (pkt s) = [] →
  wp (do* send_payloads ps;
      let* s1 := get in
      do* modify (on_pkt (set_dataallowed true));
      do* maybe_flush_reply_queue;
      ret s1) no_exit
    (λ s1 s', queue_rep (writequeue (pkt s1)) bufs ∧ transseq (pkt s1) = transseq (pkt s) ∧
       reply_queue (pkt s') = [] ∧
       ∃ kc' wbs, keys s' = Some kc' ∧ queue_rep (writequeue (pkt s')) (bufs ++ wbs) ∧
         sealed_run (k_trans kc) (transseq (pkt s)) ps wbs (k_trans kc') (transseq (pkt s'))) s.
Proof.
  intros Hseal Hidle Hps Hbl Hda Hrq. pose proof (zlen_nonneg ps).
  apply wp_bind. eapply (wp_hold_payloads (k_trans kc) mac W); [done|done|done|lia|done|].
  rewrite Hrq. intros s1 Hi1 Ht1 Hr1. apply wp_bind, wp_get, wp_bind, wp_modify, wp_bind, wp_bind, wp_get.
  cbn [dataallowed pkt on_pkt set_pkt set_dataallowed negb]. cbn [reply_queue].
  pose proof Hi1 as ((Hk&Hd&Hr&Hq&Hql&Hw&Hc)&Hev&Hl&Hp&Hs).
  apply wp_bind. eapply (wp_flush_replies (k_trans kc) mac W _ ps _ kc bufs);
    [done|split_and!; done|exact Hr1| |lia|done|].
  { eapply Forall_impl; [done|]. by intros p (?&?&?). }
  intros s2 kc2 wbs Hq2 Hrun Hk2. apply wp_modify, wp_ret. split_and!; [done|done|done|].
  exists kc2, wbs. split_and!; [done|done|]. rewrite <-Ht1. exact Hrun.
Qed.

Lemma toy_sealing : @sealing toy_lib toy_dir toy_mac.
Proof.
  split; [done|]. intros [] seqno p [Hpb Hpl] pad plain Hpadb Hpad Hmin Hal.
  assert (Hb : bytes_ok plain) by (apply plain_packet_bytes; [done|done|lia]).
  unfold seal. cbn -[sum_bytes plain_packet u8 replicate]. eexists _, _. split; [done|].
  split; [by rewrite zlen_app|]. apply bytes_ok_app. split; [done|].
  apply bytes_ok_slice, Forall_take, (Forall_replicate _ 32), u8_range.
Qed.

Definition toy_in_kex : @sshsession toy_lib :=
  on_pkt (λ x, set_writepayload (mkbuf (zeros 100) 0 0 100) (set_dataallowed false x)) (toy_session [] []).

Lemma kex_holds_and_flushes_witness :
  wp (do* @send_payloads toy_lib [[94; 1]; [94; 2; 3]];
      let* s1 := get in
      do* modify (on_pkt (set_dataallowed true));
      do* maybe_flush_reply_queue;
      ret s1) no_exit
    (λ s1 s', queue_rep (writequeue (pkt s1)) [] ∧ transseq (pkt s1) = 3 ∧
       reply_queue (pkt s') = [] ∧
       ∃ kc' wbs, keys s' = Some kc' ∧ queue_rep (writequeue (pkt s')) ([] ++ wbs) ∧
         sealed_run toy_dir 3 [[94; 1]; [94; 2; 3]] wbs (k_trans kc') (transseq (pkt s'))) toy_in_kex.
Proof.
  apply (@kex_holds_and_flushes toy_lib toy_mac 100 toy_in_kex toy_keys [] [[94; 1]; [94; 2; 3]]).
  - apply toy_sealing.
  - split; [|split; [by exists tt|done]].
    destruct (toy_send_ok [] []) as (?&?&?&?&?&?&?); [constructor|done|].
    split_and!; try done. apply wf_new. unfold BUF_MAX_SIZE. lia.
  - repeat constructor; done || decide_closed || (vm_compute; congruence).
  - by vm_compute.
  - done.
  - done.
Defined.
