(* ===== verification/Transport.v ===== *)
(** * The interface of the packet layer

    What the layers above (message dispatch, channels, authentication) rely
    on when they write a message into [ses.writepayload] and call
    [encrypt_packet]: the class [Transport] states it for an abstract relation
    [ready msgs s], "[s] can send, and has been given [msgs] so far".  The
    instance [queue_transport] discharges it with the packet layer of
    Packet.v: the packets are on the outgoing queue, sealed in this order with
    consecutive sequence numbers, or held back while a key exchange forbids
    them. *)

From Stdlib Require Import ZArith Lia.
From stdpp Require Import base list strings gmap.
From S2P Require Import Prelude.
From S2P Require Import Buffer.
From S2P Require Import Queue.
From S2P Require Import Random.
From S2P Require Import Cipher.
From S2P Require Import Session.
From S2P Require Import Packet.
From S2P Require Import PacketRecv.
From S2P Require Import PacketSend.
From S2P Require Import PacketStream.

Section interface.
Context {CL : CryptoLib}.
Implicit Types (s : sshsession) (p : list Z) (msgs : list (list Z)).

(** The session without what sending a packet changes: two sessions with the
    same [quiet] part differ in the send buffers, queues, keys, sequence
    number, counters and the random generator at most. *)
Definition quiet s : sshsession :=
  mkses (isserver s)
    (let x := pkt s in
     mkpkt (mkbuf [] 0 0 0) (mkqueue ∅ None None 0) 0 (readbuf x) (payload x) (payload_beginning x) 0
       (recvseq x) (dataallowed x) (requirenext x) (ignorenext x) (lastpacket x) []
       (last_packet_time_keepalive_sent x) (last_packet_time_keepalive_recv x) 0 0)
    (set_datatrans 0 (kexstate s)) None (newkeys s) (kexdat s) (authdone s)
    (set_w_rng (mkrng [] 0 false []) (wld s)).

(** What the send path looks at. *)
Definition send_part s :=
  (writepayload (pkt s), writequeue (pkt s), transseq (pkt s), reply_queue (pkt s),
   dataallowed (pkt s), keys s, authdone s, w_rng (wld s)).

(** A message the upper layers send. *)
Definition message p : Prop := bytes_ok p ∧ 1 ≤ zlen p ≤ TRANS_MAX_PAYLOAD_LEN.

(** The empty payload buffer [ses.writepayload] of a session at rest. *)
Definition clear_to_write s : Prop :=
  let b := writepayload (pkt s) in
  wf_buf b ∧ b_len b = 0 ∧ b_pos b = 0 ∧ b_size b = TRANS_MAX_PAYLOAD_LEN.

Class Transport (ready : list (list Z) → sshsession → Prop) := {
  tr_clear : ∀ msgs s, ready msgs s → clear_to_write s;
  tr_send : ∀ msgs s p pl,
    ready msgs s → zlen msgs < 2 ^ 31 → message p →
    wf_buf pl → contents pl = p → b_size pl = TRANS_MAX_PAYLOAD_LEN →
    wp encrypt_packet no_exit (λ _ s', ready (msgs ++ [p]) s' ∧ quiet s' = quiet s)
      (on_pkt (set_writepayload pl) s);
  tr_same : ∀ msgs s s', ready msgs s → send_part s' = send_part s → ready msgs s';
  (* an abandoned message leaves no trace once the buffer is reset *)
  tr_reset : ∀ msgs s pl, ready msgs s → wf_buf pl → b_len pl = 0 → b_pos pl = 0 →
    b_size pl = TRANS_MAX_PAYLOAD_LEN → ready msgs (on_pkt (set_writepayload pl) s);
  (* the upper layers share the generator *)
  tr_rng : ∀ msgs s, ready msgs s → wf_rng (w_rng (wld s)) ∧
    ∀ r, wf_rng r → ready msgs (on_wld (set_w_rng r) s)
}.

(** ** Writing a message

    [ses.writepayload] in focus, and the code that fills it: a list of calls,
    each with the bytes it writes. *)

Definition wview s pl : sshsession := on_pkt (set_writepayload pl) s.

Definition field : Type := ST buffer unit * list Z.
Definition put_fields {A} (fs : list field) (k : ST sshsession A) : ST sshsession A :=
  foldr (λ f k, do* on_writepayload f.1; k) k fs.
Definition wire_of (fs : list field) : list Z := concat (map snd fs).

Definition filled (acc : list Z) (pl : buffer) : Prop :=
  buf_acc acc pl ∧ b_size pl = TRANS_MAX_PAYLOAD_LEN.

Lemma wp_write_fields {A} fs acc (k : ST sshsession A) E Q s pl :
  Forall (λ f, puts f.1 f.2) fs → filled acc pl → zlen acc + zlen (wire_of fs) ≤ TRANS_MAX_PAYLOAD_LEN →
  (∀ pl', filled (acc ++ wire_of fs) pl' → wp k E Q (wview s pl')) →
  wp (put_fields fs k) E Q (wview s pl).
Proof.
  intros Hfs. revert acc pl. induction Hfs as [|[m w] fs [Hw Hm] _ IH]; intros acc pl [Hacc Hsz] Hl HQ.
  { apply HQ. unfold wire_of. cbn. by rewrite app_nil_r. }
  cbn [fst snd] in *. change (wire_of ((m, w) :: fs)) with (w ++ wire_of fs) in *. rewrite zlen_app in Hl.
  pose proof (zlen_nonneg (wire_of fs)). pose proof (buf_acc_pos _ _ Hacc) as Hp.
  apply wp_bind, wp_zoom. apply Hm; [apply Hacc|change (b_pos pl + zlen w ≤ b_size pl); lia|].
  apply (IH (acc ++ w) (after_put w pl)); [split; [apply buf_acc_put; [done|done|lia]|done]|rewrite zlen_app; lia|].
  intros pl' Hpl'. apply HQ. by rewrite app_assoc.
Qed.

Lemma wview_self s : s = wview s (writepayload (pkt s)).
Proof. by destruct s as [? [] ? ? ? ? ? ?]. Qed.

Lemma clear_filled s : clear_to_write s → filled [] (writepayload (pkt s)).
Proof.
  intros (Hwf&Hl&Hp&Hs). split; [|done]. split_and!; [done|lia|]. unfold contents. by rewrite Hl, slice_0.
Qed.

(** A whole message: its fields, then [encrypt_packet]. *)
Lemma wp_message {A} {ready} {T : Transport ready} msgs fs (k : ST sshsession A) E Q s :
  ready msgs s → zlen msgs < 2 ^ 31 → Forall (λ f, puts f.1 f.2) fs →
  1 ≤ zlen (wire_of fs) ≤ TRANS_MAX_PAYLOAD_LEN →
  (∀ s', ready (msgs ++ [wire_of fs]) s' → quiet s' = quiet s → wp k E Q s') →
  wp (put_fields fs (do* encrypt_packet; k)) E Q s.
Proof.
  intros Hr Hn Hfs Hl HQ. rewrite (wview_self s). eapply wp_write_fields;
    [done|by apply clear_filled, (tr_clear msgs)|rewrite zlen_nil; lia|].
  intros pl [(Hwf&_&Hc) Hsz]. cbn [app] in *. apply wp_bind.
  eapply wp_mono; [eapply wp_exit_mono; [eapply (tr_send msgs s); try done|by intros ?]|].
  - split; [|done]. clear -Hfs. induction Hfs as [|[m w] fs [Hw _] _ IH]; [constructor|].
    by apply bytes_ok_app.
  - intros [] s' [Hr' Hq']. by apply HQ.
Qed.

Lemma wp_message_last {ready} {T : Transport ready} msgs fs E (Q : unit → sshsession → Prop) s :
  ready msgs s → zlen msgs < 2 ^ 31 → Forall (λ f, puts f.1 f.2) fs →
  1 ≤ zlen (wire_of fs) ≤ TRANS_MAX_PAYLOAD_LEN →
  (∀ s', ready (msgs ++ [wire_of fs]) s' → quiet s' = quiet s → Q tt s') →
  wp (put_fields fs encrypt_packet) E Q s.
Proof.
  intros Hr Hn Hfs Hl HQ. assert (H : wp (put_fields fs (do* encrypt_packet; ret tt)) E Q s).
  { eapply wp_message; [done..|]. intros. by apply wp_ret, HQ. }
  clear -H. revert s H. induction fs as [|f fs IH]; intros s; cbn [put_fields foldr].
  - unfold wp, bind, ret. by destruct (encrypt_packet s) as [[[] ?]|?|?].
  - unfold wp, bind. destruct (on_writepayload f.1 s) as [[[] s']|?|?]; try done. apply IH.
Qed.
End interface.

(** ** The packet layer implements the interface *)

Section queue_transport.
Context {CL : CryptoLib}.
Context (d0 : key_context_directional) (mac : dropbear_hash).

(** Messages that go out at once, also during a key exchange. *)
Definition goes_now (da : bool) (p : list Z) : bool := da || packet_is_okay_kex (nth 0 p 0).

(** [msgs] were sent since the queue held [bufs0] and the reply queue
    [held0]. *)
Definition queued (da : bool) bufs0 seq0 held0 (msgs : list (list Z)) (s : sshsession) : Prop :=
  ∃ kc wbs, send_ok s kc (bufs0 ++ wbs) ∧ evolves d0 (k_trans kc) ∧ clear_to_write s ∧
    dataallowed (pkt s) = da ∧
    sealed_run d0 seq0 (List.filter (goes_now da) msgs) wbs (k_trans kc) (transseq (pkt s)) ∧
    reply_queue (pkt s) = held0 ++ map buf_of (List.filter (λ p, negb (goes_now da p)) msgs).

Lemma sealed_run_length d seqno ps wbs d' seqno' : sealed_run d seqno ps wbs d' seqno' → length wbs = length ps.
Proof. induction 1; simpl; congruence. Qed.

Lemma sealed_run_snoc d seqno ps wbs d' seqno' p pad ct cs wb :
  sealed_run d seqno ps wbs d' seqno' → 4 ≤ zlen pad →
  seal d' seqno' (plain_packet p pad) = Some (ct, cs) → remaining wb = ct →
  sealed_run d seqno (ps ++ [p]) (wbs ++ [wb]) (set_cipher_state cs d') (u32 (seqno' + 1)).
Proof.
  intros Hrun Hpad Hs Hrem. induction Hrun as [d1 q1|d1 q1 p1 ps1 pad1 ct1 cs1 wb1 wbs1 d2 q2 Hp1 Hs1 Hr1 _ IH]; cbn [app].
  - eapply SR_cons; [exact Hpad|exact Hs|exact Hrem|constructor].
  - eapply SR_cons; [exact Hp1|exact Hs1|exact Hr1|by apply IH].
Qed.

Lemma clear_after_send pl : wf_buf pl → b_size pl = TRANS_MAX_PAYLOAD_LEN →
  let b := empty_payload pl in wf_buf b ∧ b_len b = 0 ∧ b_pos b = 0 ∧ b_size b = TRANS_MAX_PAYLOAD_LEN.
Proof. intros. split_and!; [by apply wf_empty_payload|done..]. Qed.

#[export] Instance queue_transport da bufs0 seq0 held0 :
  sealing d0 mac → zlen bufs0 < 2 ^ 31 - 1 → Transport (queued da bufs0 seq0 held0).
Proof.
  intros [Hm Hcan] Hb0. constructor.
  - by intros msgs s (kc&wbs&_&_&?&_).
  - intros msgs s p pl (kc&wbs&Hsend&[cs0 Hev]&Hclr&Hda&Hrun&Hheld) Hn [Hpb Hpl] Hwf Hc Hsz.
    pose proof Hsend as (Hk&Hd&Hr&Hq&Hql&Hw&Hcomp).
    assert (Hlen : zlen wbs ≤ zlen msgs).
    { unfold zlen. rewrite (sealed_run_length _ _ _ _ _ _ Hrun). pose proof (List.filter_length_le (goes_now da) msgs). lia. }
    destruct p as [|type rest]; [unfold zlen in Hpl; simpl in Hpl; lia|].
    assert (Hs1 : send_ok (wview s pl) kc (bufs0 ++ wbs)) by (split_and!; done).
    eapply (wp_encrypt_packet _ _ (wview s pl) kc (bufs0 ++ wbs) type rest mac); [exact Hs1|exact Hc| | | | |].
    + split; [done|]. unfold TRANS_MAX_PAYLOAD_LEN in Hpl. lia.
    + rewrite Hev. exact Hm.
    + rewrite Hev. apply Hcan. split; [done|]. unfold TRANS_MAX_PAYLOAD_LEN in Hpl. lia.
    + intros Hda' Hok. change (dataallowed (pkt s) = false) in Hda'.
      assert (Hg : goes_now da (type :: rest) = false) by (unfold goes_now; cbn [nth]; by rewrite <-Hda, Hda', Hok).
      split; [|done]. exists kc, wbs. rewrite !List.filter_app. cbn [List.filter]. rewrite Hg. cbn [negb].
      rewrite app_nil_r, map_app, app_assoc.
      split_and!; [|by exists cs0|by apply clear_after_send|done|done|].
      * split_and!; try done; [cbn; f_equal; by destruct kc|by apply wf_empty_payload].
      * cbn [held on_pkt set_pkt pkt reply_queue set_reply_queue]. unfold held, tv. cbn.
        rewrite Hheld. by rewrite Hc.
    + intros Hor pad ct cs wb q' r' plain Hpadb Hpad Hmin Hal Hseal Hctl Hwb Hcw Hp0 Hlw Hq' Hr'.
      assert (Hg : goes_now da (type :: rest) = true) by (unfold goes_now; cbn [nth]; by rewrite <-Hda).
      split; [|unfold sent; cbv zeta; by destruct (counts_idle type)].
      exists (set_k_trans (set_cipher_state cs (k_trans kc)) kc), (wbs ++ [wb]).
      rewrite !List.filter_app. cbn [List.filter]. rewrite Hg. cbn [negb]. rewrite app_nil_r, app_assoc.
      assert (Hl2 : zlen ((bufs0 ++ wbs) ++ [wb]) + 1 < 2 ^ 32).
      { rewrite !zlen_app. change (zlen [wb]) with 1. lia. }
      assert (Hd' : dir_ok (set_cipher_state cs (k_trans kc))) by done.
      unfold sent. cbv zeta. split_and!.
      * destruct (counts_idle type); split_and!; try done; try (by apply wf_empty_payload); exact Hcomp.
      * exists cs. by rewrite Hev.
      * destruct (counts_idle type); by apply clear_after_send.
      * by destruct (counts_idle type).
      * assert (Hrem : remaining wb = ct) by (unfold remaining; rewrite Hp0, Z.sub_0_r; exact Hcw).
        assert (Hpad4 : 4 ≤ zlen pad) by lia.
        pose proof (sealed_run_snoc _ _ _ _ _ _ _ _ _ _ _ Hrun Hpad4 Hseal Hrem) as Hr2.
        destruct (counts_idle type); exact Hr2.
      * destruct (counts_idle type); exact Hheld.
  - intros msgs s s' (kc&wbs&Hsend&Hev&Hclr&Hda&Hrun&Hheld) Heq. unfold send_part in Heq.
    injection Heq as Hw Hq Ht Hrq Hda' Hk Hau Hrn. exists kc, wbs.
    unfold send_ok, clear_to_write, compress_active in *. rewrite Hw, Hq, Ht, Hrq, Hda', Hk, Hau, Hrn. done.
  - intros msgs s pl (kc&wbs&Hsend&Hev&Hclr&Hda&Hrun&Hheld) Hwf Hl Hp Hsz. exists kc, wbs.
    destruct Hsend as (?&?&?&?&?&?&?). by split_and!.
  - intros msgs s (kc&wbs&Hsend&Hrest). destruct Hsend as (?&?&?&?&?&?&?). split; [done|].
    intros r Hr. exists kc, wbs. by split; [split_and!|].
Qed.
End queue_transport.
