(* ===== verification/ProcessPacket.v ===== *)
(** * Dispatch of received packets (src/src/process-packet.c)

    [process_packet] takes the payload [decrypt_packet] has left in
    [ses.payload], decides by its first byte whether the packet is ignored,
    answered with UNIMPLEMENTED, fatal, or passed to the handler the table
    [ses.packettypes] has for it.  The table (the server's or the client's) is
    an argument; it ends with an entry of type 0.

    The theorems: nothing above [MAX_UNAUTH_PACKET_TYPE] reaches a handler
    before authentication; while the key exchange requires a packet only that
    one reaches a handler.  What this means for the first key exchange under
    strict kex is in StrictKex.v. *)

From Stdlib Require Import ZArith Lia.
From stdpp Require Import base list strings gmap.
From S2P Require Import Prelude.
From S2P Require Import Buffer.
From S2P Require Import Queue.
From S2P Require Import Random.
From S2P Require Import Cipher.
From S2P Require Import Session.
From S2P Require Import Packet.
From S2P Require Import PacketRecv.
From S2P Require Import PacketSend.
From S2P Require Import PacketStream.
From S2P Require Import Instances.
From S2P Require Import Transport.

Definition MAX_UNAUTH_PACKET_TYPE : Z := SSH_MSG_USERAUTH_PK_OK.

Section process.
Context {CL : CryptoLib}.

(** [struct PacketType] *)
Record packettype := mkpackettype { pt_type : Z; pt_handler : ST sshsession unit }.

Definition recv_unimplemented : ST sshsession unit :=
  do* on_writepayload (buf_putbyte SSH_MSG_UNIMPLEMENTED);
  let* s := get in
  do* on_writepayload (buf_putint (u32 (recvseq (pkt s) - 1)));
  encrypt_packet.

(** The loop over [ses.packettypes]. *)
Fixpoint dispatch (packettypes : list packettype) (type : Z) : ST sshsession unit :=
  match packettypes with
  | [] => fault "packettypes out of range"
  | e :: rest =>
      if pt_type e =? 0 then recv_unimplemented
      else if pt_type e =? type then pt_handler e
      else dispatch rest type
  end.

(** The label [out]. *)
Definition process_out (type : Z) : ST sshsession unit :=
  modify (on_pkt (λ x, set_payload None (set_lastpacket type x))).

Definition process_packet (packettypes : list packettype) : ST sshsession unit :=
  let* s := get in
  let first_strict_kex := strict_kex (kexstate s) && negb (recvfirstnewkeys (kexstate s)) in
  let* type := on_payload buf_getbyte in
  let* now := monotonic_now in
  do* modify (on_pkt (set_last_packet_time_keepalive_recv now));
  do* exit_if (type =? SSH_MSG_DISCONNECT) "Disconnect received";
  if negb first_strict_kex
     && ((type =? SSH_MSG_IGNORE) || (type =? SSH_MSG_DEBUG) || (type =? SSH_MSG_UNIMPLEMENTED))
  then process_out type
  else
    do* when (negb ((type =? SSH_MSG_GLOBAL_REQUEST) || (type =? SSH_MSG_REQUEST_FAILURE)
                    || (type =? SSH_MSG_CHANNEL_FAILURE)))
          (modify (on_pkt (set_last_packet_time_idle now)));
    let* s := get in
    if negb (requirenext (pkt s) =? 0) && negb (requirenext (pkt s) =? type) then
      if (1 <=? type) && (type <=? 49) && negb (type =? SSH_MSG_SERVICE_REQUEST)
         && negb (type =? SSH_MSG_SERVICE_ACCEPT) && negb (type =? SSH_MSG_KEXINIT)
         && negb first_strict_kex
      then do* recv_unimplemented; process_out type
      else dropbear_exit "Unexpected packet type %d, expected %d"
    else if ignorenext (pkt s) then
      do* modify (on_pkt (set_ignorenext false)); process_out type
    else
      do* when (negb (requirenext (pkt s) =? 0) && (requirenext (pkt s) =? type))
            (modify (on_pkt (set_requirenext 0)));
      do* exit_if (negb (authdone s) && (MAX_UNAUTH_PACKET_TYPE <? type))
            "Received message %d before userauth";
      do* dispatch packettypes type;
      process_out type.

(** ** Vocabulary of the theorems *)

Implicit Types (s : sshsession) (b : buffer) (tbl : list packettype).

(** A packet of [type] has been received. *)
Definition received s b (type : Z) : Prop :=
  payload (pkt s) = Some b ∧ wf_buf b ∧ b_pos b < b_len b ∧ type = nth 0 (slice (b_pos b) 1 (b_data b)) 0.

Definition first_strict s : bool := strict_kex (kexstate s) && negb (recvfirstnewkeys (kexstate s)).

Definition ignorable (type : Z) : bool :=
  (type =? SSH_MSG_IGNORE) || (type =? SSH_MSG_DEBUG) || (type =? SSH_MSG_UNIMPLEMENTED).

(** Messages a peer may send during a key exchange (RFC 4253 7.1) that this
    program does not implement. *)
Definition kex_unknown (type : Z) : bool :=
  (1 <=? type) && (type <=? 49) && negb (type =? SSH_MSG_SERVICE_REQUEST)
  && negb (type =? SSH_MSG_SERVICE_ACCEPT) && negb (type =? SSH_MSG_KEXINIT).

Definition counts_recv_idle (type : Z) : bool :=
  negb ((type =? SSH_MSG_GLOBAL_REQUEST) || (type =? SSH_MSG_REQUEST_FAILURE)
        || (type =? SSH_MSG_CHANNEL_FAILURE)).

(** The session when the packet is classified: the type is read, the time
    stamps are set. *)
Definition stamped s b (type : Z) : sshsession :=
  let now := w_clock (wld s) in
  on_pkt (λ x,
      let x := set_last_packet_time_keepalive_recv now (set_payload (Some (after_get 1 b)) x) in
      if counts_recv_idle type then set_last_packet_time_idle now x else x) s.
Definition consumed (type : Z) s : sshsession :=
  on_pkt (λ x, set_payload None (set_lastpacket type x)) s.

(** A packet that the required one excludes. *)
Definition out_of_turn s (type : Z) : bool :=
  negb (requirenext (pkt s) =? 0) && negb (requirenext (pkt s) =? type).

(** [process_packet], classified. *)
Definition classify tbl s b (type : Z) : res (unit * sshsession) :=
  let s1 := stamped s b type in
  if type =? SSH_MSG_DISCONNECT then Exit "Disconnect received"
  else if negb (first_strict s) && ignorable type then
    Ok (tt, consumed type (on_pkt (λ x, set_last_packet_time_keepalive_recv (w_clock (wld s))
                                          (set_payload (Some (after_get 1 b)) x)) s))
  else if out_of_turn s type then
    if kex_unknown type && negb (first_strict s)
    then (do* recv_unimplemented; process_out type) s1
    else Exit "Unexpected packet type %d, expected %d"
  else if ignorenext (pkt s) then Ok (tt, consumed type (on_pkt (set_ignorenext false) s1))
  else if negb (authdone s) && (MAX_UNAUTH_PACKET_TYPE <? type) then
    Exit "Received message %d before userauth"
  else (do* dispatch tbl type; process_out type) (on_pkt (set_requirenext 0) s1).

Lemma read_type s b type :
  received s b type → on_payload buf_getbyte s = Ok (type, on_pkt (set_payload (Some (after_get 1 b))) s).
Proof.
  intros (Hp&Hwf&Hl&->). unfold on_payload, zoom_ptr. rewrite Hp.
  assert (H : wp buf_getbyte no_exit (λ a b', a = nth 0 (slice (b_pos b) 1 (b_data b)) 0 ∧ b' = after_get 1 b) b).
  { apply wp_buf_getbyte; [done|done|lia]. }
  by apply wp_no_exit_run in H as (a&b'&->&->&->).
Qed.

Lemma stamp_idle s b type :
  when (counts_recv_idle type) (modify (on_pkt (set_last_packet_time_idle (w_clock (wld s)))))
    (on_pkt (set_last_packet_time_keepalive_recv (w_clock (wld s)))
       (on_pkt (set_payload (Some (after_get 1 b))) s)) = Ok (tt, stamped s b type).
Proof. unfold stamped, when. by destruct (counts_recv_idle type). Qed.

Lemma stamped_requirenext s b type : requirenext (pkt (stamped s b type)) = requirenext (pkt s).
Proof. unfold stamped. cbv zeta. by destruct (counts_recv_idle type). Qed.
Lemma stamped_ignorenext s b type : ignorenext (pkt (stamped s b type)) = ignorenext (pkt s).
Proof. unfold stamped. cbv zeta. by destruct (counts_recv_idle type). Qed.
Lemma stamped_authdone s b type : authdone (stamped s b type) = authdone s.
Proof. done. Qed.

Lemma requirenext_self s : requirenext (pkt s) = 0 → on_pkt (set_requirenext 0) s = s.
Proof. destruct s as [? [] ? ? ? ? ? ?]. cbn. by intros ->. Qed.

(** A packet that is not out of turn leaves no requirement behind. *)
Lemma clear_required s b type : out_of_turn s type = false →
  when (negb (requirenext (pkt s) =? 0) && (requirenext (pkt s) =? type)) (modify (on_pkt (set_requirenext 0)))
    (stamped s b type) = Ok (tt, on_pkt (set_requirenext 0) (stamped s b type)).
Proof.
  unfold out_of_turn, when. intros Ho. destruct (requirenext (pkt s) =? 0) eqn:Hr; cbn [negb andb] in *.
  - rewrite requirenext_self; [done|]. rewrite stamped_requirenext. lia.
  - destruct (requirenext (pkt s) =? type); done.
Qed.

Lemma process_packet_classify tbl s b type :
  received s b type → process_packet tbl s = classify tbl s b type.
Proof.
  intros Hrec. pose proof (read_type s b type Hrec) as Hg. unfold process_packet, classify.
  unfold bind at 1. unfold get at 1. unfold bind at 1. rewrite Hg.
  unfold bind at 1, monotonic_now at 1, gets at 1. cbn [w_clock wld on_pkt set_pkt]. unfold bind at 1, modify at 1.
  unfold bind at 1, exit_if at 1. destruct (type =? SSH_MSG_DISCONNECT); [done|]. unfold ret at 1.
  fold (first_strict s) (ignorable type). destruct (negb (first_strict s) && ignorable type); [done|].
  fold (counts_recv_idle type). unfold bind at 1. rewrite stamp_idle. unfold bind at 1, get at 1.
  rewrite stamped_requirenext, stamped_ignorenext, stamped_authdone. fold (out_of_turn s type).
  destruct (out_of_turn s type) eqn:Ho; [fold (kex_unknown type); by destruct (kex_unknown type && negb (first_strict s))|].
  destruct (ignorenext (pkt s)); [done|]. unfold bind at 1. rewrite clear_required by done.
  unfold bind at 1, exit_if at 1. by destruct (negb (authdone s) && (MAX_UNAUTH_PACKET_TYPE <? type)).
Qed.

(** [recv_unimplemented] on the packet interface. *)
Lemma wp_recv_unimplemented {ready} {T : Transport ready} msgs E (Q : unit → sshsession → Prop) s :
  ready msgs s → zlen msgs < 2 ^ 31 →
  (∀ s', ready (msgs ++ [[SSH_MSG_UNIMPLEMENTED] ++ STORE32H (u32 (recvseq (pkt s) - 1))]) s' →
     quiet s' = quiet s → Q tt s') →
  wp recv_unimplemented E Q s.
Proof.
  intros Hr Hn HQ.
  set (fs := [(buf_putbyte SSH_MSG_UNIMPLEMENTED, [SSH_MSG_UNIMPLEMENTED]);
              (buf_putint (u32 (recvseq (pkt s) - 1)), STORE32H (u32 (recvseq (pkt s) - 1)))]).
  assert (H : wp (put_fields fs encrypt_packet) E Q s).
  { eapply wp_message_last; [done|done| |by vm_compute|done].
    repeat (apply Forall_cons; split); [by apply puts_byte|apply puts_int|done]. }
  revert H. unfold recv_unimplemented, put_fields, fs. cbn [foldr fst].
  unfold wp, bind. unfold on_writepayload at 1 3, zoom.
  by destruct (buf_putbyte SSH_MSG_UNIMPLEMENTED (writepayload (pkt s))) as [[[] ?]|?|?].
Qed.

Lemma stamped_ready {ready} {T : Transport ready} msgs s b type :
  ready msgs s → ready msgs (stamped s b type).
Proof.
  intros Hr. eapply tr_same; [done|]. unfold stamped, send_part. cbv zeta. by destruct (counts_recv_idle type).
Qed.

Lemma ignorable_unknown type : ignorable type = true → kex_unknown type = true.
Proof.
  unfold ignorable, kex_unknown, SSH_MSG_IGNORE, SSH_MSG_DEBUG, SSH_MSG_UNIMPLEMENTED,
    SSH_MSG_SERVICE_REQUEST, SSH_MSG_SERVICE_ACCEPT, SSH_MSG_KEXINIT. lia.
Qed.
End process.

(** C18: Before authentication only the messages of the transport and
    authentication protocols reach a handler.  While [authdone] is unset the
    handlers the table has for types above [MAX_UNAUTH_PACKET_TYPE] make no
    difference, and a packet of such a type either ends the session or is the
    one wrongly guessed packet that a key exchange discards. *)
Theorem preauth_gate {CL : CryptoLib} (tbl tbl' : list packettype) s b type :
  received s b type → authdone s = false →
  (∀ t st, t ≤ MAX_UNAUTH_PACKET_TYPE → dispatch tbl t st = dispatch tbl' t st) →
  process_packet tbl s = process_packet tbl' s ∧
  (MAX_UNAUTH_PACKET_TYPE < type →
     (∃ e, process_packet tbl s = Exit e) ∨
     (ignorenext (pkt s) = true ∧
      process_packet tbl s = Ok (tt, consumed type (on_pkt (set_ignorenext false) (stamped s b type))))).
Proof.
  intros Hrec Hau Hag. rewrite !(process_packet_classify _ s b type) by done. unfold classify. rewrite Hau.
  cbn [negb andb]. split.
  - destruct (type =? SSH_MSG_DISCONNECT), (negb (first_strict s) && ignorable type), (out_of_turn s type),
      (ignorenext (pkt s)); try done.
    destruct (Z.ltb_spec MAX_UNAUTH_PACKET_TYPE type); [done|]. unfold bind. by rewrite Hag.
  - intros Hty. assert (H60 : 60 < type) by exact Hty.
    assert (Hig : ignorable type = false)
      by (unfold ignorable, SSH_MSG_IGNORE, SSH_MSG_DEBUG, SSH_MSG_UNIMPLEMENTED; lia).
    assert (Hun : kex_unknown type = false) by (unfold kex_unknown; lia).
    rewrite Hig, Hun, andb_false_r. cbn [andb].
    destruct (type =? SSH_MSG_DISCONNECT); [eauto|]. destruct (out_of_turn s type); [eauto|].
    destruct (ignorenext (pkt s)); [by right|]. destruct (Z.ltb_spec MAX_UNAUTH_PACKET_TYPE type); [eauto|lia].
Qed.

(** While a key exchange requires a certain packet, no other packet
    reaches a handler.  DISCONNECT closes the session.  During the first
    exchange under strict kex every other packet is fatal.  Otherwise IGNORE,
    DEBUG and UNIMPLEMENTED are dropped, the remaining transport messages are
    answered with UNIMPLEMENTED carrying the sequence number of the offending
    packet, and anything else is fatal; the requirement stays in force. *)
Theorem kex_gate {CL : CryptoLib} {ready} {T : Transport ready} tbl msgs s b type :
  ready msgs s → zlen msgs < 2 ^ 31 → received s b type →
  requirenext (pkt s) ≠ 0 → type ≠ requirenext (pkt s) →
  if type =? SSH_MSG_DISCONNECT then process_packet tbl s = Exit "Disconnect received"
  else if first_strict s || negb (kex_unknown type)
  then process_packet tbl s = Exit "Unexpected packet type %d, expected %d"
  else wp (process_packet tbl) no_exit (λ _ s',
    ready (msgs ++ (if ignorable type then []
                    else [[SSH_MSG_UNIMPLEMENTED] ++ STORE32H (u32 (recvseq (pkt s) - 1))])) s' ∧
    quiet s' = quiet (consumed type (stamped s b type)) ∧
    requirenext (pkt s') = requirenext (pkt s)) s.
Proof.
  intros Hr Hn Hrec Hreq Hty. unfold wp. rewrite (process_packet_classify _ s b type) by done. unfold classify.
  destruct (type =? SSH_MSG_DISCONNECT); [done|].
  assert (Ho : out_of_turn s type = true) by (unfold out_of_turn; lia). rewrite Ho.
  destruct (ignorable type) eqn:Hig, (first_strict s) eqn:Hfs; cbn [negb andb orb];
    rewrite ?(ignorable_unknown _ Hig); cbn [negb andb orb]; rewrite ?andb_false_r, ?andb_true_r; try done.
  - rewrite app_nil_r. split_and!; [by eapply tr_same| |done].
    unfold stamped, quiet, consumed. cbv zeta. by destruct (counts_recv_idle type).
  - destruct (kex_unknown type) eqn:Hku; cbn [negb]; [|done].
    change (wp (do* recv_unimplemented; process_out type) no_exit (λ _ s',
      ready (msgs ++ [[SSH_MSG_UNIMPLEMENTED] ++ STORE32H (u32 (recvseq (pkt s) - 1))]) s' ∧
      quiet s' = quiet (consumed type (stamped s b type)) ∧
      requirenext (pkt s') = requirenext (pkt s)) (stamped s b type)).
    apply wp_bind. eapply wp_recv_unimplemented; [by apply stamped_ready|done|]. intros s' Hr' Hq.
    assert (Hseq : recvseq (pkt (stamped s b type)) = recvseq (pkt s))
      by (unfold stamped; cbv zeta; by destruct (counts_recv_idle type)).
    rewrite Hseq in Hr'. apply wp_modify. split_and!.
    + by eapply tr_same.
    + exact (f_equal (consumed type) Hq).
    + pose proof (f_equal (λ x, requirenext (pkt x)) Hq) as H. cbn in H.
      transitivity (requirenext (pkt (stamped s b type))); [exact H|]. apply stamped_requirenext.
Qed.

(** ** The first key exchange under strict kex *)

Section strict.
Context {CL : CryptoLib} (tbl : list packettype).

(** The next packet arrives and is processed. *)
Definition receive (b : buffer) : ST sshsession unit :=
  do* modify (on_pkt (λ x, set_recvseq (u32 (recvseq x + 1)) (set_payload (Some b) x)));
  process_packet tbl.

Fixpoint receive_all (bs : list buffer) : ST sshsession unit :=
  match bs with [] => ret tt | b :: bs => do* receive b; receive_all bs end.

Definition packet_type (b : buffer) : Z := nth 0 (slice (b_pos b) 1 (b_data b)) 0.
Definition packet_ok (b : buffer) : Prop := wf_buf b ∧ b_pos b < b_len b.

Lemma receive_required s b u s' :
  packet_ok b → first_strict s = true → requirenext (pkt s) ≠ 0 → receive b s = Ok (u, s') →
  packet_type b = requirenext (pkt s) ∧
  if ignorenext (pkt s)
  then first_strict s' = true ∧ requirenext (pkt s') = requirenext (pkt s) ∧ ignorenext (pkt s') = false
  else ∃ s0 s1, dispatch tbl (requirenext (pkt s)) s0 = Ok (tt, s1) ∧ s' = consumed (requirenext (pkt s)) s1 ∧
         ignorenext (pkt s0) = false ∧ first_strict s0 = true.
Proof.
  intros [Hwf Hl] Hfs Hreq. unfold receive, bind at 1, modify at 1.
  set (s2 := on_pkt _ s). intros Hrun.
  rewrite (process_packet_classify tbl s2 b (packet_type b)) in Hrun by done. unfold classify in Hrun.
  change (first_strict s2) with (first_strict s) in Hrun. rewrite Hfs in Hrun.
  destruct (packet_type b =? SSH_MSG_DISCONNECT); [done|].
  cbn [negb andb] in Hrun. rewrite andb_false_r in Hrun.
  destruct (out_of_turn s2 (packet_type b)) eqn:Ho; [done|].
  unfold out_of_turn in Ho. change (requirenext (pkt s2)) with (requirenext (pkt s)) in Ho.
  assert (Hty : packet_type b = requirenext (pkt s)) by lia. split; [done|]. rewrite Hty in Hrun.
  change (ignorenext (pkt s2)) with (ignorenext (pkt s)) in Hrun.
  assert (Hst : ∀ t, first_strict (stamped s2 b t) = true) by (intros; exact Hfs).
  destruct (ignorenext (pkt s)) eqn:Hig.
  - injection Hrun as _ <-. split_and!; [apply Hst| |done].
    transitivity (requirenext (pkt (stamped s2 b (requirenext (pkt s))))); [done|]. by rewrite stamped_requirenext.
  - destruct (negb (authdone s2) && _); [done|]. unfold bind in Hrun.
    destruct (dispatch tbl _ _) as [[[] s1]|?|?] eqn:Hd; try done. injection Hrun as _ <-.
    eexists _, s1. split; [exact Hd|]. split_and!; [done| |apply Hst].
    transitivity (ignorenext (pkt (stamped s2 b (requirenext (pkt s))))); [done|].
    rewrite stamped_ignorenext. exact Hig.
Qed.
End strict.

(** ** Witnesses *)

(** A packet of one byte has arrived at a session that requires [r]. *)
Definition toy_packet (type : Z) : buffer := mkbuf [type] 1 0 1.
Definition toy_received (auth strict ign : bool) (r type : Z) : @sshsession toy_lib :=
  set_authdone auth
    (on_kexstate (λ k, set_strict_kex strict (set_recvfirstnewkeys false k))
       (on_pkt (λ x, set_writepayload (mkbuf (zeros TRANS_MAX_PAYLOAD_LEN) 0 0 TRANS_MAX_PAYLOAD_LEN)
                 (set_requirenext r (set_ignorenext ign (set_payload (Some (toy_packet type)) x))))
          (toy_session [] []))).

Lemma toy_packet_ok type : byte_ok type → packet_ok (toy_packet type).
Proof.
  intros Ht. split; [|by vm_compute]. split_and!; cbn; try lia; [unfold BUF_MAX_SIZE; lia|done|].
  by apply Forall_singleton.
Qed.

Lemma toy_received_ok auth strict ign r type :
  byte_ok type → received (toy_received auth strict ign r type) (toy_packet type) type.
Proof. intros Ht. destruct (toy_packet_ok type Ht). by split_and!. Qed.

Definition toy_ready := @queued toy_lib toy_dir true [] 3 [].
#[export] Instance toy_transport : Transport toy_ready.
Proof. eapply queue_transport; [apply toy_sealing|by vm_compute]. Qed.

Lemma toy_clear_ready s :
  writepayload (pkt s) = mkbuf (zeros TRANS_MAX_PAYLOAD_LEN) 0 0 TRANS_MAX_PAYLOAD_LEN →
  writequeue (pkt s) = mkqueue ∅ None None 0 → transseq (pkt s) = 3 → reply_queue (pkt s) = [] →
  dataallowed (pkt s) = true → keys s = Some toy_keys → w_rng (wld s) = mkrng [1; 2; 3] 0 true [] →
  toy_ready [] s.
Proof.
  intros Hw Hq Ht Hr Hd Hk Hg. exists toy_keys, [].
  destruct (toy_send_ok [] []) as (?&?&?&?&?&?&?); [constructor|done|].
  assert (Hwf : wf_buf (mkbuf (zeros TRANS_MAX_PAYLOAD_LEN) 0 0 TRANS_MAX_PAYLOAD_LEN)).
  { apply wf_new. unfold BUF_MAX_SIZE, TRANS_MAX_PAYLOAD_LEN. lia. }
  unfold send_ok, clear_to_write. rewrite Hw, Hq, Ht, Hr, Hd, Hk, Hg. split_and!; try done; [|by exists tt|constructor].
  unfold compress_active. change (algo_comp (k_trans toy_keys)) with 0. by rewrite andb_false_r.
Qed.

Lemma preauth_gate_witness :
  process_packet [mkpackettype 90 (fault "unreachable"); mkpackettype 0 (ret tt)] (toy_received false false false 0 90)
  = process_packet [mkpackettype 0 (ret tt)] (toy_received false false false 0 90).
Proof.
  apply (preauth_gate _ [mkpackettype 0 (ret tt)] _ (toy_packet 90) 90).
  - apply toy_received_ok. unfold byte_ok. lia.
  - done.
  - intros t st Ht. change (t ≤ 60) in Ht. cbn -[recv_unimplemented]. destruct t as [|q|q]; try done.
    destruct (Pos.eqb_spec 90 q) as [<-|]; [lia|done].
Defined.

Lemma kex_gate_witness :
  let s := toy_received true false false 21 40 in
  wp (process_packet []) no_exit (λ _ s',
    toy_ready ([] ++ [[SSH_MSG_UNIMPLEMENTED] ++ STORE32H (u32 (recvseq (pkt s) - 1))]) s' ∧
    quiet s' = quiet (consumed 40 (stamped s (toy_packet 40) 40)) ∧
    requirenext (pkt s') = requirenext (pkt s)) s.
Proof.
  intros s. assert (H40 : byte_ok 40) by (unfold byte_ok; lia).
  assert (Hr : toy_ready [] s) by (by apply toy_clear_ready).
  pose proof (kex_gate (T := toy_transport) [] [] s (toy_packet 40) 40 Hr) as H.
  specialize (H ltac:(by vm_compute) (toy_received_ok _ _ _ _ _ H40) ltac:(done) ltac:(done)).
  assert (E1 : (40 =? SSH_MSG_DISCONNECT) = false) by done.
  assert (E2 : first_strict s || negb (kex_unknown 40) = false) by done.
  assert (E3 : ignorable 40 = false) by done.
  rewrite E1, E2, E3 in H. exact H.
Defined.
