(* ===== verification/Kex.v ===== *)
(** * Key exchange (src/src/common-kex.c)

    The part of the key exchange that is common to all methods and to both
    sides: the KEXINIT messages and the negotiation, the exchange hash, the
    derivation of keys (RFC 4253, 7.2) and the switch to new keys at the two
    NEWKEYS messages, with the sequence number reset of strict kex.

    The tables of algorithms, which options and user lists change at run time,
    the version string and the client's first-guess callback are in a record
    [kex_env] that the operations take as an argument.  A running hash is the
    message hashed so far. *)

From Stdlib Require Import ZArith Lia.
From stdpp Require Import base list strings.
From S2P Require Import Prelude.
From S2P Require Import Buffer.
From S2P Require Import Random.
From S2P Require Import Algo.
From S2P Require Import Cipher.
From S2P Require Import KeyTypes.
From S2P Require Import Session.
From S2P Require Import Packet.

(** ** Constants *)

Definition MAX_HASH_SIZE : Z := 64.
Definition MAX_KEY_LEN : Z := 64.
Definition MAX_IV_LEN : Z := 20.
Definition MAX_KEX_PARTS : Z := 2 * 4 + 1184 + 1088 + 32 * 2 + 68.
Definition KEXHASHBUF_MAX_INTS : Z := MAX_PUBKEY_SIZE + MAX_KEX_PARTS.

Definition KEXGUESS2_ALGO_NAME : list Z := bstr "kexguess2@matt.ucc.asn.au".
Definition SSH_EXT_INFO_C : list Z := bstr "ext-info-c".
Definition SSH_STRICT_KEX_S : list Z := bstr "kex-strict-s-v00@openssh.com".
Definition SSH_STRICT_KEX_C : list Z := bstr "kex-strict-c-v00@openssh.com".

Definition ssh_compress : list (algo_type unit unit) :=
  [mkalgo (bstr "zlib@openssh.com") DROPBEAR_COMP_ZLIB_DELAY None true None;
   mkalgo (bstr "zlib") DROPBEAR_COMP_ZLIB None true None;
   mkalgo (bstr "none") DROPBEAR_COMP_NONE None true None].
Definition ssh_nocompress : list (algo_type unit unit) :=
  [mkalgo (bstr "none") DROPBEAR_COMP_NONE None true None].

Section kex.
Context {CL : CryptoLib}.

(** What the key exchange takes from the rest of the program. *)
Record kex_env := mkenv {
  sshkex : list (algo_type dropbear_kex unit);
  sigalgs : list (algo_type unit unit);
  sshciphers : list (algo_type dropbear_cipher (dropbear_cipher_mode CS));
  sshhashes : list (algo_type dropbear_hash unit);
  opts_allow_compress : bool;
  LOCAL_IDENT : list Z;
  send_kex_first_guess : option (ST sshsession unit)   (* a callback of [ses] *)
}.

Context (env : kex_env).

Definition on_kexhashbuf {A} : ST buffer A → ST sshsession A :=
  zoom_ptr (λ s, kexhashbuf (kexdat s)) (λ b, on_kexdat (set_kexhashbuf b)).

(** An assignment to a field of [*ses.newkeys] or [*ses.keys]. *)
Definition on_newkeys (f : key_context → key_context) : ST sshsession unit :=
  let* s := get in
  let* k := ptr (newkeys s) in
  modify (set_newkeys (Some (f k))).
Definition on_keys (f : key_context → key_context) : ST sshsession unit :=
  let* s := get in
  let* k := ptr (keys s) in
  modify (set_keys (Some (f k))).

(** ** Sending KEXINIT *)

Definition send_msg_kexinit : ST sshsession unit :=
  do* on_writepayload (buf_putbyte SSH_MSG_KEXINIT);
  let* p := on_writepayload (buf_getwriteptr 16) in
  let* cookie := on_rng (genrandom 16) in
  do* on_writepayload (mem_store p cookie);
  do* on_writepayload (buf_incrwritepos 16);
  do* on_writepayload (buf_put_algolist (sshkex env));
  do* on_writepayload (buf_put_algolist (sigalgs env));
  do* on_writepayload (buf_put_algolist (sshciphers env));
  do* on_writepayload (buf_put_algolist (sshciphers env));
  do* on_writepayload (buf_put_algolist (sshhashes env));
  do* on_writepayload (buf_put_algolist (sshhashes env));
  let* s := get in
  do* on_writepayload (buf_put_algolist (compress_algos_c2s (kexdat s)));
  do* on_writepayload (buf_put_algolist (compress_algos_s2c (kexdat s)));
  do* on_writepayload (buf_putstring []);
  do* on_writepayload (buf_putstring []);
  do* on_writepayload (buf_putbyte (match send_kex_first_guess env with Some _ => 1 | None => 0 end));
  do* on_writepayload (buf_putint 0);
  let* s := get in
  let* copy := buf_newcopy (writepayload (pkt s)) in
  do* modify (on_kexdat (set_transkexinit (Some copy)));
  do* encrypt_packet;
  do* modify (on_pkt (set_dataallowed false));
  do* modify (on_kexstate (set_sentkexinit true));
  do* modify (set_newkeys (Some keys_zero));
  match send_kex_first_guess env with
  | None => ret tt
  | Some guess =>
      let* kex := ptr (first_usable_algo (sshkex env)) in
      do* on_newkeys (set_algo_kex (a_data kex));
      let* sig := ptr (first_usable_algo (sigalgs env)) in
      do* on_newkeys (set_algo_signature (a_val sig));
      let* hostkey := signkey_type_from_signature (a_val sig) in
      do* on_newkeys (set_algo_hostkey hostkey);
      guess
  end.

(** ** Compression streams *)

Definition wants_zstream (d : key_context_directional) : bool :=
  (algo_comp d =? DROPBEAR_COMP_ZLIB) || (algo_comp d =? DROPBEAR_COMP_ZLIB_DELAY).

Definition gen_new_zstream_recv : ST sshsession unit :=
  let* s := get in
  let* nk := ptr (newkeys s) in
  do* (if wants_zstream (k_recv nk) then
         match inflateInit with
         | None => dropbear_exit "zlib error"
         | Some zs => on_newkeys (λ k, set_k_recv (set_zstream (Some zs) (k_recv k)) k)
         end
       else on_newkeys (λ k, set_k_recv (set_zstream None (k_recv k)) k));
  let* s := get in
  let* k := ptr (keys s) in
  match zstream (k_recv k) with
  | None => ret tt
  | Some zs =>
      do* exit_if (inflateEnd zs =? Z_STREAM_ERROR) "Crypto error";
      on_keys (λ k, set_k_recv (set_zstream None (k_recv k)) k)
  end.

Definition gen_new_zstream_trans : ST sshsession unit :=
  let* s := get in
  let* nk := ptr (newkeys s) in
  do* (if wants_zstream (k_trans nk) then
         match deflateInit2 with
         | None => dropbear_exit "zlib error"
         | Some zs => on_newkeys (λ k, set_k_trans (set_zstream (Some zs) (k_trans k)) k)
         end
       else on_newkeys (λ k, set_k_trans (set_zstream None (k_trans k)) k));
  let* s := get in
  let* k := ptr (keys s) in
  match zstream (k_trans k) with
  | None => ret tt
  | Some zs =>
      do* exit_if (deflateEnd zs =? Z_STREAM_ERROR) "Crypto error";
      on_keys (λ k, set_k_trans (set_zstream None (k_trans k)) k)
  end.

(** ** Taking new keys into use *)

Definition kexinitialise : ST sshsession unit :=
  do* modify (on_kexstate (set_sentkexinit false));
  do* modify (on_kexstate (set_recvkexinit false));
  do* modify (on_kexstate (set_recvnewkeys false));
  do* modify (on_kexstate (set_sentnewkeys false));
  do* modify (on_kexstate (set_them_firstfollows false));
  do* modify (on_kexstate (set_datatrans 0));
  do* modify (on_kexstate (set_datarecv 0));
  do* modify (on_kexstate (set_our_first_follows_matches false));
  let* now := monotonic_now in
  modify (on_kexstate (set_lastkextime now)).

Definition kex_setup_compress : ST sshsession unit :=
  let* s := get in
  if negb (opts_allow_compress env) then
    do* modify (on_kexdat (set_compress_algos_c2s ssh_nocompress));
    modify (on_kexdat (set_compress_algos_s2c ssh_nocompress))
  else if negb (isserver s) then
    do* modify (on_kexdat (set_compress_algos_c2s ssh_compress));
    modify (on_kexdat (set_compress_algos_s2c ssh_compress))
  else
    do* modify (on_kexdat (set_compress_algos_c2s ssh_nocompress));
    modify (on_kexdat (set_compress_algos_s2c ssh_compress)).

Definition kexfirstinitialise : ST sshsession unit :=
  do* kex_setup_compress;
  kexinitialise.

(** [ses.keys->recv = ses.newkeys->recv], and the source wiped. *)
Definition move_recv : ST sshsession unit :=
  let* s := get in
  let* nk := ptr (newkeys s) in
  do* on_keys (set_k_recv (k_recv nk));
  do* on_newkeys (set_k_recv keydir_zero);
  on_newkeys (λ k, set_k_recv (set_valid false (k_recv k)) k).
Definition move_trans : ST sshsession unit :=
  let* s := get in
  let* nk := ptr (newkeys s) in
  do* on_keys (set_k_trans (k_trans nk));
  do* on_newkeys (set_k_trans keydir_zero);
  on_newkeys (λ k, set_k_trans (set_valid false (k_trans k)) k).

Definition switch_keys : ST sshsession unit :=
  let* s := get in
  let ks := kexstate s in
  do* exit_if (negb (sentkexinit ks && recvkexinit ks)) "Unexpected newkeys message";
  do* when (match keys s with None => true | Some _ => false end) (modify (set_keys (Some keys_zero)));
  let* nk := (if recvnewkeys ks then ptr (newkeys s) else ret keys_zero) in
  do* when (recvnewkeys ks && valid (k_recv nk)) (do* gen_new_zstream_recv; move_recv);
  let* s := get in
  let* nk := (if sentnewkeys ks then ptr (newkeys s) else ret keys_zero) in
  do* when (sentnewkeys ks && valid (k_trans nk)) (do* gen_new_zstream_trans; move_trans);
  when (sentnewkeys ks && recvnewkeys ks)
    (let* s := get in
     let* nk := ptr (newkeys s) in
     do* on_keys (set_algo_kex (algo_kex nk));
     do* on_keys (set_algo_hostkey (algo_hostkey nk));
     do* on_keys (set_algo_signature (algo_signature nk));
     do* on_keys (set_allow_compress 0);
     do* modify (set_newkeys None);
     kexinitialise).

(** ** Deriving keys *)

(** A digest in [tmpout]. *)
Definition hash_done {S} (hash_desc : ltc_hash_descriptor) (hs : list Z) : ST S (list Z) :=
  if hd_hashsize hash_desc >? MAX_HASH_SIZE then fault "tmpout overflow" else ret (hd_fn hash_desc hs).

(** [out] holds the [offset] bytes written so far. *)
Fixpoint hashkeys_loop {S} (fuel : nat) (hash_desc : ltc_hash_descriptor) (hs : list Z)
    (out : list Z) (offset outlen : Z) : ST S (list Z) :=
  if offset <? outlen then
    match fuel with
    | O => fault "fuel"
    | Datatypes.S fuel =>
        let* tmpout := hash_done hash_desc (hs ++ slice 0 offset out) in
        hashkeys_loop fuel hash_desc hs
          (out ++ slice 0 (Z.min (outlen - offset) (hd_hashsize hash_desc)) tmpout)
          (offset + hd_hashsize hash_desc) outlen
    end
  else ret out.

Definition hashkeys (outlen : Z) (hs : list Z) (X : Z) : ST sshsession (list Z) :=
  let* s := get in
  let* nk := ptr (newkeys s) in
  let* kex := ptr (algo_kex nk) in
  let hash_desc := k_hash_desc kex in
  let* sid := ptr (session_id (kexdat s)) in
  let* tmpout := hash_done hash_desc (hs ++ [X] ++ slice 0 (b_len sid) (b_data sid)) in
  hashkeys_loop (Z.to_nat outlen) hash_desc hs
    (slice 0 (Z.min (hd_hashsize hash_desc) outlen) tmpout) (hd_hashsize hash_desc) outlen.

(** src/src/bignum.c: the hash goes over the mpint's SSH representation. *)
Definition hash_process_mp {S} (hs : list Z) (mp : Z) : ST S (list Z) :=
  let* buf := buf_new (512 + 20) in
  let* (_, buf) := on_new buf (buf_putmpint mp) in
  ret (hs ++ slice 0 (b_len buf) (b_data buf)).

(** The cipher of one direction is keyed; [set] stores its state. *)
Definition start_cipher (d : key_context_directional) (IV key : list Z)
    (set : CS → ST sshsession unit) : ST sshsession unit :=
  let* crypt := ptr (algo_crypt d) in
  match c_cipherdesc crypt with
  | None => ret tt
  | Some desc =>
      let* cipher := match cd_name desc with
                     | None => ret (-1)
                     | Some name =>
                         do* exit_if (find_cipher name <? 0) "Crypto error";
                         ret (find_cipher name)
                     end in
      let* mode := ptr (crypt_mode d) in
      let* start := ptr (cm_start mode) in
      match start cipher IV key (c_keysize crypt) with
      | None => dropbear_exit "Crypto error"
      | Some cs => set cs
      end
  end.

(** The MAC key of one direction; [hashkeys] writes into [mackey]. *)
Definition start_mac (d : key_context_directional) (hs : list Z) (letter : Z)
    (set : list Z → Z → ST sshsession unit) : ST sshsession unit :=
  let* mac := ptr (algo_mac d) in
  match h_hash_desc mac with
  | None => ret tt
  | Some desc =>
      if h_keysize mac >? zlen (mackey d) then fault "write outside mackey"
      else
        let* key := hashkeys (h_keysize mac) hs letter in
        set (splice 0 key (mackey d)) (find_hash (hd_name desc))
  end.

(** "the dh_K and hash are the start of all hashes" *)
Definition hash_secret : ST sshsession (list Z) :=
  let* s := get in
  let* hs :=
    (match dh_K (kexdat s) with
     | None => ret []
     | Some K =>
         let* hs := hash_process_mp [] K in
         do* modify (on_kexdat (set_dh_K None));
         ret hs
     end) in
  let* hs :=
    (match dh_K_bytes (kexdat s) with
     | None => ret hs
     | Some K =>
         do* modify (on_kexdat (set_dh_K_bytes None));
         ret (hs ++ slice 0 (b_len K) (b_data K))
     end) in
  let* H := ptr (hash (kexdat s)) in
  do* modify (on_kexdat (set_hash None));
  ret (hs ++ slice 0 (b_len H) (b_data H)).

Definition gen_new_keys : ST sshsession unit :=
  let* s := get in
  let* nk := ptr (newkeys s) in
  let* kex := ptr (algo_kex nk) in
  let* hs := hash_secret in
  let client := negb (isserver s) in
  let* C2S_IV := hashkeys MAX_IV_LEN hs 65 in
  let* S2C_IV := hashkeys MAX_IV_LEN hs 66 in
  let* C2S_key := hashkeys MAX_KEY_LEN hs 67 in
  let* S2C_key := hashkeys MAX_KEY_LEN hs 68 in
  let trans_IV := if client then C2S_IV else S2C_IV in
  let recv_IV := if client then S2C_IV else C2S_IV in
  let trans_key := if client then C2S_key else S2C_key in
  let recv_key := if client then S2C_key else C2S_key in
  let mactransletter := if client then 69 else 70 in
  let macrecvletter := if client then 70 else 69 in
  do* start_cipher (k_recv nk) recv_IV recv_key
        (λ cs, on_newkeys (λ k, set_k_recv (set_cipher_state cs (k_recv k)) k));
  do* start_cipher (k_trans nk) trans_IV trans_key
        (λ cs, on_newkeys (λ k, set_k_trans (set_cipher_state cs (k_trans k)) k));
  do* start_mac (k_trans nk) hs mactransletter
        (λ key i, on_newkeys (λ k, set_k_trans (set_hash_index i (set_mackey key (k_trans k))) k));
  do* start_mac (k_recv nk) hs macrecvletter
        (λ key i, on_newkeys (λ k, set_k_recv (set_hash_index i (set_mackey key (k_recv k))) k));
  do* on_newkeys (λ k, set_k_trans (set_valid true (k_trans k)) k);
  on_newkeys (λ k, set_k_recv (set_valid true (k_recv k)) k).

(** ** The NEWKEYS messages *)

Definition send_msg_newkeys : ST sshsession unit :=
  do* on_writepayload (buf_putbyte SSH_MSG_NEWKEYS);
  do* encrypt_packet;
  do* modify (on_kexstate (set_sentnewkeys true));
  let* s := get in
  do* when (donefirstkex (kexstate s)) (modify (on_kexstate (set_donesecondkex true)));
  do* modify (on_kexstate (set_donefirstkex true));
  do* modify (on_pkt (set_dataallowed true));
  do* gen_new_keys;
  do* switch_keys;
  let* s := get in
  when (strict_kex (kexstate s)) (modify (on_pkt (set_transseq 0))).

Definition recv_msg_newkeys : ST sshsession unit :=
  do* modify (on_kexstate (set_recvnewkeys true));
  do* switch_keys;
  let* s := get in
  do* when (strict_kex (kexstate s)) (modify (on_pkt (set_recvseq 0)));
  modify (on_kexstate (set_recvfirstnewkeys true)).

(** ** Receiving KEXINIT *)

(** [goto error] when no algorithm matched. *)
Definition matched {S A} (o : option A) (erralgo : string) : ST S A :=
  match o with Some a => ret a | None => dropbear_exit ("No matching algo " +:+ erralgo) end.

(** The MAC table's match, which an AEAD cipher replaces. *)
Definition mac_or_aead {S} (cipher : algo_type dropbear_cipher (dropbear_cipher_mode CS))
    (hash_algo : option (algo_type dropbear_hash unit)) (erralgo : string) :
    ST S (option (algo_type dropbear_hash unit)) :=
  let* mode := ptr (a_mode cipher) in
  match cm_aead_crypt mode with
  | Some _ => ret None
  | None => let* h := matched hash_algo erralgo in ret (Some h)
  end.

(** The assignments to one direction of [*ses.newkeys]. *)
Definition set_algos (cipher : algo_type dropbear_cipher (dropbear_cipher_mode CS))
    (hash_algo : option (algo_type dropbear_hash unit)) (comp : algo_type unit unit)
    (d : key_context_directional) : key_context_directional :=
  set_algo_comp (a_val comp)
    (set_algo_mac (match hash_algo with
                   | None => match a_mode cipher with Some mode => cm_aead_mac mode | None => None end
                   | Some h => a_data h
                   end)
       (set_crypt_mode (a_mode cipher) (set_algo_crypt (a_data cipher) d))).

Definition read_kex_algos : ST sshsession unit :=
  do* on_payload (buf_incrpos 16);
  do* on_newkeys (λ _, keys_zero);
  let* kexguess2 := on_payload (buf_has_algo KEXGUESS2_ALGO_NAME) in
  let* s := get in
  do* when (isserver s && negb (donefirstkex (kexstate s)))
        (let* ext := on_payload (buf_has_algo SSH_EXT_INFO_C) in
         when ext (modify (on_kexdat (set_allow_ext_info true))));
  do* when (negb (donefirstkex (kexstate s)))
        (let* strict := on_payload (buf_has_algo
           (if isserver s then SSH_STRICT_KEX_C else SSH_STRICT_KEX_S)) in
         when strict (modify (on_kexstate (set_strict_kex true))));
  let srv := isserver s in
  let* (algo, goodkex) := on_payload (buf_match_algo srv (sshkex env) kexguess2) in
  let* kex := matched (match algo with Some a => a_data a | None => None end) "kex" in
  do* on_newkeys (set_algo_kex (Some kex));
  let* (algo, goodsig) := on_payload (buf_match_algo srv (sigalgs env) kexguess2) in
  let* sig := matched algo "hostkey" in
  let allgood := goodkex && goodsig in
  do* on_newkeys (set_algo_signature (a_val sig));
  let* hostkey := signkey_type_from_signature (a_val sig) in
  do* on_newkeys (set_algo_hostkey hostkey);
  let* (algo, _) := on_payload (buf_match_algo srv (sshciphers env) false) in
  let* c2s_cipher := matched algo "enc c->s" in
  let* (algo, _) := on_payload (buf_match_algo srv (sshciphers env) false) in
  let* s2c_cipher := matched algo "enc s->c" in
  let* (algo, _) := on_payload (buf_match_algo srv (sshhashes env) false) in
  let* c2s_hash := mac_or_aead c2s_cipher algo "mac c->s" in
  let* (algo, _) := on_payload (buf_match_algo srv (sshhashes env) false) in
  let* s2c_hash := mac_or_aead s2c_cipher algo "mac s->c" in
  let* (algo, _) := on_payload (buf_match_algo srv (compress_algos_c2s (kexdat s)) false) in
  let* c2s_comp := matched algo "comp c->s" in
  let* (algo, _) := on_payload (buf_match_algo srv (compress_algos_s2c (kexdat s)) false) in
  let* s2c_comp := matched algo "comp s->c" in
  do* on_payload buf_eatstring;
  do* on_payload buf_eatstring;
  let* follows := on_payload buf_getbool in
  do* when (negb (follows =? 0))
        (do* modify (on_kexstate (set_them_firstfollows true));
         when (negb allgood) (modify (on_pkt (set_ignorenext true))));
  do* on_newkeys (λ k,
        if srv then
          set_k_trans (set_algos s2c_cipher s2c_hash s2c_comp (k_trans k))
            (set_k_recv (set_algos c2s_cipher c2s_hash c2s_comp (k_recv k)) k)
        else
          set_k_trans (set_algos c2s_cipher c2s_hash c2s_comp (k_trans k))
            (set_k_recv (set_algos s2c_cipher s2c_hash s2c_comp (k_recv k)) k));
  let* _ := on_payload buf_getint in
  when (match send_kex_first_guess env with Some _ => allgood | None => false end)
    (modify (on_kexstate (set_our_first_follows_matches true))).

(** The payload from [payload_beginning] on, as a string of [kexhashbuf]. *)
Definition put_remote_kexinit : ST sshsession unit :=
  let* s := get in
  do* on_payload (buf_setpos (payload_beginning (pkt s)));
  let* bs := on_payload (let* b := get in
                         let n := u32 (b_len b - b_pos b) in
                         let* p := buf_getptr n in
                         mem_load p n) in
  on_kexhashbuf (buf_putstring bs).

(** The negotiation and the first strings of the exchange hash; [ident] is
    [ses.remoteident], [mine] the contents of [ses.transkexinit]. *)
Definition start_kexhash (ident mine : list Z) : ST sshsession unit :=
  let* s := get in
  if negb (isserver s) then
    do* read_kex_algos;
    do* on_kexhashbuf (buf_putstring (LOCAL_IDENT env));
    do* on_kexhashbuf (buf_putstring ident);
    do* on_kexhashbuf (buf_putstring mine);
    do* put_remote_kexinit;
    modify (on_pkt (set_requirenext SSH_MSG_KEXDH_REPLY))
  else
    do* read_kex_algos;
    do* on_kexhashbuf (buf_putstring ident);
    do* on_kexhashbuf (buf_putstring (LOCAL_IDENT env));
    do* put_remote_kexinit;
    do* on_kexhashbuf (buf_putstring mine);
    modify (on_pkt (set_requirenext SSH_MSG_KEXDH_INIT)).

Definition recv_msg_kexinit : ST sshsession unit :=
  let* s := get in
  do* when (negb (sentkexinit (kexstate s))) send_msg_kexinit;
  let* s := get in
  do* exit_if (recvkexinit (kexstate s)) "Unexpected KEXINIT";
  let ident := remoteident (kexdat s) in
  let* tk := ptr (transkexinit (kexdat s)) in
  let* pl := ptr (payload (pkt s)) in
  let kexhashbuf_len :=
    u32 (zlen (LOCAL_IDENT env) + zlen ident + b_len tk + b_len pl + KEXHASHBUF_MAX_INTS) in
  let* hb := buf_new kexhashbuf_len in
  do* modify (on_kexdat (set_kexhashbuf (Some hb)));
  do* start_kexhash ident (slice 0 (b_len tk) (b_data tk));
  do* modify (on_kexdat (set_transkexinit None));
  do* modify (on_kexstate (set_recvkexinit true));
  let* s := get in
  exit_if (strict_kex (kexstate s) && negb (donefirstkex (kexstate s)) && negb (recvseq (pkt s) =? 1))
    "First packet wasn't kexinit".

Definition finish_kexhashbuf : ST sshsession unit :=
  let* s := get in
  let* nk := ptr (newkeys s) in
  let* kex := ptr (algo_kex nk) in
  let hash_desc := k_hash_desc kex in
  let* bs := on_kexhashbuf (do* buf_setpos 0;
                            let* b := get in
                            let* p := buf_getptr (b_len b) in
                            mem_load p (b_len b)) in
  let* h := buf_new (hd_hashsize hash_desc) in
  let* (_, h) := on_new h
    (let* p := buf_getwriteptr (hd_hashsize hash_desc) in
     do* mem_store p (hd_fn hash_desc bs);
     buf_setlen (hd_hashsize hash_desc)) in
  do* modify (on_kexdat (set_hash (Some h)));
  do* modify (on_kexdat (set_kexhashbuf None));
  match session_id (kexdat s) with
  | Some _ => ret tt
  | None =>
      let* copy := buf_newcopy h in
      modify (on_kexdat (set_session_id (Some copy)))
  end.
End kex.
