(* ===== verification/KexKeys.v ===== *)
(** * New keys: derivation and switch-over

    Theorems about the second half of src/src/common-kex.c: [hashkeys]
    computes the key stream of RFC 4253 7.2, [gen_new_keys] gives the two ends
    of a connection matching keys for each direction, and the NEWKEYS messages
    take each direction into use separately, in either order. *)

From Stdlib Require Import ZArith Lia.
From stdpp Require Import base list strings.
From S2P Require Import Prelude.
From S2P Require Import Buffer.
From S2P Require Import Queue.
From S2P Require Import Random.
From S2P Require Import Algo.
From S2P Require Import Cipher.
From S2P Require Import Session.
From S2P Require Import Packet.
From S2P Require Import Instances.
From S2P Require Import PacketRecv.
From S2P Require Import PacketSend.
From S2P Require Import PacketStream.
From S2P Require Import Kex.

(** ** The key stream of RFC 4253, section 7.2

    K1 = HASH(K || H || X || session_id), K2 = HASH(K || H || K1),
    K3 = HASH(K || H || K1 || K2), ...; the key is the start of
    K1 || K2 || K3 || ... *)

Fixpoint key_stream (HASH : list Z → list Z) (KH : list Z) (n : nat) (acc : list Z) : list Z :=
  match n with
  | O => acc
  | S n => key_stream HASH KH n (acc ++ HASH (KH ++ acc))
  end.

Definition rfc4253_key (HASH : list Z → list Z) (KH : list Z) (X : Z) (session_id : list Z)
    (len : Z) : list Z :=
  take (Z.to_nat len) (key_stream HASH KH (Z.to_nat len) (HASH (KH ++ X :: session_id))).

(** What the code relies on of libtomcrypt's hash descriptors. *)
Definition hash_law (desc : ltc_hash_descriptor) : Prop :=
  0 < hd_hashsize desc ≤ MAX_HASH_SIZE ∧
  ∀ m, zlen (hd_fn desc m) = hd_hashsize desc ∧ bytes_ok (hd_fn desc m).

Section stream.
Context (desc : ltc_hash_descriptor) (KH : list Z).
#[local] Abbreviation stream := (key_stream (hd_fn desc) KH).

Lemma key_stream_prefix n acc : ∃ l, stream n acc = acc ++ l.
Proof.
  revert acc. induction n as [|n IH]; intros acc; [exists []; by rewrite app_nil_r|].
  destruct (IH (acc ++ hd_fn desc (KH ++ acc))) as [l Hl]. cbn [key_stream]. rewrite Hl, <-app_assoc. by eexists.
Qed.

Lemma key_stream_bytes n acc : hash_law desc → bytes_ok acc → bytes_ok (stream n acc).
Proof.
  intros [_ H]. revert acc. induction n as [|n IH]; intros acc Ha; [done|].
  apply IH, bytes_ok_app. split; [done|]. apply H.
Qed.

Lemma key_stream_length n acc :
  hash_law desc → zlen (stream n acc) = zlen acc + Z.of_nat n * hd_hashsize desc.
Proof.
  intros [_ H]. revert acc. induction n as [|n IH]; intros acc; [simpl; lia|].
  cbn [key_stream]. rewrite IH, zlen_app, (proj1 (H _)). lia.
Qed.

(** The loop: [acc] is the stream so far, [out] what fits of it. *)
Lemma hashkeys_loop_stream {S} fuel acc outlen (s : S) :
  hash_law desc → 0 ≤ outlen → outlen - zlen acc ≤ Z.of_nat fuel →
  hashkeys_loop fuel desc KH (take (Z.to_nat outlen) acc) (zlen acc) outlen s =
  Ok (take (Z.to_nat outlen) (stream fuel acc), s).
Proof.
  intros [Hs Hd]. revert acc. induction fuel as [|fuel IH]; intros acc Ho Hf.
  { cbn [hashkeys_loop key_stream]. if_false. done. }
  cbn [hashkeys_loop]. destruct (Z.ltb_spec (zlen acc) outlen) as [Hlt|Hge].
  - rewrite (take_ge acc) by (unfold zlen in *; lia). rewrite slice_full.
    unfold bind, hash_done. if_false. cbn [ret]. unfold ret.
    destruct (Hd (KH ++ acc)) as [Hl _]. specialize (IH (acc ++ hd_fn desc (KH ++ acc))).
    rewrite zlen_app, Hl in IH. cbn [key_stream]. rewrite <-IH by lia. f_equal.
    unfold slice. rewrite take_app. f_equal; [by rewrite take_ge by (unfold zlen in *; lia)|].
    change (Z.to_nat 0) with 0%nat. rewrite drop_0.
    assert (Hm : ∀ k, take (Z.to_nat (Z.min k (hd_hashsize desc))) (hd_fn desc (KH ++ acc)) =
                      take (Z.to_nat k) (hd_fn desc (KH ++ acc))).
    { intros k. destruct (Z.le_ge_cases k (hd_hashsize desc)); [by rewrite Z.min_l|].
      rewrite Z.min_r by done. unfold zlen in Hl. by rewrite !take_ge by lia. }
    rewrite Hm. f_equal. unfold zlen. lia.
  - destruct (key_stream_prefix (Datatypes.S fuel) acc) as [l ->].
    rewrite take_app_le by (unfold zlen in *; lia). done.
Qed.
End stream.

Section derivation.
Context {CL : CryptoLib}.

Lemma hashkeys_eq (s : sshsession) nk kex sid outlen hs X :
  newkeys s = Some nk → algo_kex nk = Some kex → session_id (kexdat s) = Some sid →
  hash_law (k_hash_desc kex) → 0 ≤ outlen →
  hashkeys outlen hs X s = Ok (rfc4253_key (hd_fn (k_hash_desc kex)) hs X (contents sid) outlen, s).
Proof.
  intros Hn Hk Hsid Hlaw Ho. pose proof Hlaw as [Hs Hd].
  unfold hashkeys, bind, get, ptr, hash_done, ret. rewrite Hn. cbn beta iota. rewrite Hk. cbn beta iota.
  rewrite Hsid. cbn beta iota. if_false. cbn [app]. fold (contents sid).
  set (k1 := hd_fn (k_hash_desc kex) (hs ++ X :: contents sid)).
  pose proof (proj1 (Hd (hs ++ X :: contents sid))) as Hl. fold k1 in Hl.
  assert (Hout : slice 0 (Z.min (hd_hashsize (k_hash_desc kex)) outlen) k1 = take (Z.to_nat outlen) k1).
  { unfold slice. change (Z.to_nat 0) with 0%nat. rewrite drop_0.
    destruct (Z.le_ge_cases outlen (hd_hashsize (k_hash_desc kex))); [by rewrite Z.min_r|].
    rewrite Z.min_l by done. unfold zlen in Hl. by rewrite !take_ge by lia. }
  unfold rfc4253_key. fold k1. rewrite Hout. clearbody k1. rewrite <-Hl. rewrite hashkeys_loop_stream by (done || lia).
  done.
Qed.

Lemma rfc4253_key_length desc hs X sid n :
  hash_law desc → 0 ≤ n → zlen (rfc4253_key (hd_fn desc) hs X sid n) = n ∧
                          bytes_ok (rfc4253_key (hd_fn desc) hs X sid n).
Proof.
  intros Hlaw Hn. unfold rfc4253_key. pose proof Hlaw as [? Hd]. split.
  - unfold zlen. rewrite length_take.
    pose proof (key_stream_length desc hs (Z.to_nat n) (hd_fn desc (hs ++ X :: sid)) Hlaw) as Hl.
    pose proof (zlen_nonneg (hd_fn desc (hs ++ X :: sid))). unfold zlen in *. nia.
  - apply Forall_take, key_stream_bytes; [done|]. apply Hd.
Qed.

(** *** What [gen_new_keys] computes *)

(** K || H: the shared secret in its encoding, then the exchange hash. *)
Definition kex_secret (kd : kexdata) : list Z :=
  (match dh_K kd with Some K => enc_field (FMpint K) | None => [] end ++
   match dh_K_bytes kd with Some b => contents b | None => [] end) ++
  match hash kd with Some b => contents b | None => [] end.

(** The cipher state of a direction, or nothing if the cipher refuses. *)
Definition keyed_cipher (d : key_context_directional) (IV key : list Z) : option CS :=
  match algo_crypt d, crypt_mode d with
  | Some crypt, Some mode =>
      match c_cipherdesc crypt, cm_start mode with
      | None, _ => Some (cipher_state d)
      | Some desc, Some start =>
          match cd_name desc with
          | None => start (-1) IV key (c_keysize crypt)
          | Some name =>
              if find_cipher name <? 0 then None else start (find_cipher name) IV key (c_keysize crypt)
          end
      | _, _ => None
      end
  | _, _ => None
  end.

Definition keyed_mac (d : key_context_directional) (key : Z → list Z) : key_context_directional :=
  match algo_mac d with
  | Some mac =>
      match h_hash_desc mac with
      | Some desc => set_hash_index (find_hash (hd_name desc))
                       (set_mackey (splice 0 (key (h_keysize mac)) (mackey d)) d)
      | None => d
      end
  | None => d
  end.

Definition keyed_dir (d : key_context_directional) (cs : CS) (key : Z → list Z) : key_context_directional :=
  set_valid true (keyed_mac (set_cipher_state cs d) key).

(** The MAC key fits the array it is written to. *)
Definition mac_fits (d : key_context_directional) : Prop :=
  ∃ mac, algo_mac d = Some mac ∧ 0 ≤ h_keysize mac ≤ zlen (mackey d).

(** The letters of RFC 4253 7.2: IV, key, MAC key, for either direction. *)
Definition letters (c2s : bool) : Z * Z * Z := if c2s then (65, 67, 69) else (66, 68, 70).

(** Everything the derivation needs is there. *)
Definition kex_done (s : sshsession) (nk : key_context) (kex : dropbear_kex) (sid : buffer) : Prop :=
  newkeys s = Some nk ∧ algo_kex nk = Some kex ∧ hash_law (k_hash_desc kex) ∧
  session_id (kexdat s) = Some sid ∧ is_Some (hash (kexdat s)) ∧
  (∀ K, dh_K (kexdat s) = Some K → 0 ≤ K ∧ 4 + mpint_len K ≤ 532) ∧
  mac_fits (k_recv nk) ∧ mac_fits (k_trans nk).

(** The keys of one direction, derived from the exchange. *)
Definition derive (kex : dropbear_kex) (KH sid : list Z) (X n : Z) : list Z :=
  rfc4253_key (hd_fn (k_hash_desc kex)) KH X sid n.
Definition derived_cipher (kex : dropbear_kex) (KH sid : list Z) (c2s : bool) (d : key_context_directional) :
    option CS :=
  let '(IV, key, _) := letters c2s in
  keyed_cipher d (derive kex KH sid IV MAX_IV_LEN) (derive kex KH sid key MAX_KEY_LEN).
Definition derived_dir (kex : dropbear_kex) (KH sid : list Z) (c2s : bool) (d : key_context_directional)
    (cs : CS) : key_context_directional :=
  let '(_, _, mk) := letters c2s in keyed_dir d cs (derive kex KH sid mk).

Lemma wp_hash_process_mp {S} hs K E (Q : list Z → S → Prop) s :
  0 ≤ K → 4 + mpint_len K ≤ 532 → Q (hs ++ enc_field (FMpint K)) s → wp (hash_process_mp hs K) E Q s.
Proof.
  intros HK Hl HQ. apply wp_bind, wp_buf_new; [|by unfold BUF_MAX_SIZE]. intros _.
  assert (Hw : wf_buf (mkbuf (zeros (512 + 20)) 0 0 (512 + 20))) by (apply wf_new; unfold BUF_MAX_SIZE; lia).
  apply wp_bind, wp_on_new, wp_buf_putmpint; [done| |cbn; lia]. intros _ _. apply wp_ret.
  change (slice 0 _ _) with (contents (after_put (STORE32H (mpint_len K) ++ mpint_body K) (mkbuf (zeros (512 + 20)) 0 0 (512 + 20)))).
  rewrite contents_fresh_put; [done|done|done|done|].
  rewrite zlen_app, STORE32H_length, mpint_body_length by done. cbn [b_size]. lia.
Qed.

Lemma wp_start_cipher d IV key cs set E (Q : unit → sshsession → Prop) s :
  keyed_cipher d IV key = Some cs → (cs = cipher_state d → Q tt s) → wp (set cs) E Q s →
  wp (start_cipher d IV key set) E Q s.
Proof.
  intros Hk HQ0 HQ. unfold keyed_cipher in Hk. unfold start_cipher.
  destruct (algo_crypt d) as [crypt|]; [|done]. destruct (crypt_mode d) as [mode|]; [|done].
  apply wp_bind. eapply wp_ptr; [done|].
  destruct (c_cipherdesc crypt) as [desc|]; [|injection Hk as <-; by apply wp_ret, HQ0].
  destruct (cm_start mode) as [start|] eqn:Hst; [|done]. apply wp_bind. destruct (cd_name desc) as [name|].
  - apply wp_bind, wp_exit_if; intros Hf; [by rewrite Hf in Hk|]. apply wp_ret.
    rewrite Hf in Hk. do 2 (apply wp_bind; eapply wp_ptr; [eassumption || done|]). by rewrite Hk.
  - apply wp_ret. do 2 (apply wp_bind; eapply wp_ptr; [eassumption || done|]). by rewrite Hk.
Qed.

(** [*ses.newkeys] in focus. *)
Lemma newkeys_self (s : sshsession) nk : newkeys s = Some nk → s = set_newkeys (Some nk) s.
Proof. destruct s; simpl. by intros ->. Qed.

Lemma wp_on_newkeys f E (Q : unit → sshsession → Prop) s nk :
  Q tt (set_newkeys (Some (f nk)) s) → wp (on_newkeys f) E Q (set_newkeys (Some nk) s).
Proof. done. Qed.

Lemma recv_cipher_self cs nk :
  cs = cipher_state (k_recv nk) → set_k_recv (set_cipher_state cs (k_recv nk)) nk = nk.
Proof. intros ->. destruct nk as [[] ? ? ? ? ?]. done. Qed.
Lemma trans_cipher_self cs nk :
  cs = cipher_state (k_trans nk) → set_k_trans (set_cipher_state cs (k_trans nk)) nk = nk.
Proof. intros ->. destruct nk as [? [] ? ? ? ?]. done. Qed.

Lemma wp_hashkeys n hs X E (Q : list Z → sshsession → Prop) s nk kex sid :
  newkeys s = Some nk → algo_kex nk = Some kex → session_id (kexdat s) = Some sid →
  hash_law (k_hash_desc kex) → 0 ≤ n → Q (derive kex hs (contents sid) X n) s → wp (hashkeys n hs X) E Q s.
Proof. intros. eapply wp_of_run; [by eapply hashkeys_eq|done]. Qed.

Lemma wp_start_mac d hs X set E (Q : unit → sshsession → Prop) s nk kex sid :
  newkeys s = Some nk → algo_kex nk = Some kex → session_id (kexdat s) = Some sid →
  hash_law (k_hash_desc kex) → mac_fits d →
  (keyed_mac d (derive kex hs (contents sid) X) = d → Q tt s) →
  (∀ key i, keyed_mac d (derive kex hs (contents sid) X) = set_hash_index i (set_mackey key d) →
    wp (set key i) E Q s) →
  wp (start_mac d hs X set) E Q s.
Proof.
  intros Hn Hk Hsid Hlaw (mac&Hm&Hf) HQ0 HQ. unfold start_mac, keyed_mac in *. rewrite Hm in *.
  apply wp_bind. eapply wp_ptr; [done|]. destruct (h_hash_desc mac) as [desc|]; [|by apply wp_ret, HQ0].
  if_false. apply wp_bind. eapply wp_hashkeys; [done..|lia|]. by apply HQ.
Qed.

Lemma wp_hash_secret (s : sshsession) E (Q : list Z → sshsession → Prop) :
  is_Some (hash (kexdat s)) →
  (∀ K, dh_K (kexdat s) = Some K → 0 ≤ K ∧ 4 + mpint_len K ≤ 532) →
  Q (kex_secret (kexdat s)) (on_kexdat (λ x, set_hash None (set_dh_K_bytes None (set_dh_K None x))) s) →
  wp hash_secret E Q s.
Proof.
  destruct s as [? ? ? ? ? [? K Kb H ? ? ? ? ? ?] ? ?]. unfold kex_secret, on_kexdat. cbn.
  intros [h ->] HK HQ. unfold hash_secret. apply wp_bind, wp_get, wp_bind. cbn [kexdat dh_K dh_K_bytes hash].
  destruct K as [K|]; [destruct (HK K eq_refl); apply wp_bind, wp_hash_process_mp; [done|done|];
    apply wp_bind, wp_modify, wp_ret|apply wp_ret]; apply wp_bind;
  (destruct Kb as [Kb|]; [apply wp_bind, wp_modify, wp_ret|apply wp_ret]);
  apply wp_bind; (eapply wp_ptr; [done|]); apply wp_bind, wp_modify, wp_ret; rewrite ?app_nil_r in HQ; exact HQ.
Qed.

(** The four assignments to [*ses.newkeys]; [nk] is its value at the start. *)
Lemma wp_key_recv IV key cs d E (Q : unit → sshsession → Prop) s nk :
  keyed_cipher d IV key = Some cs → k_recv nk = d →
  Q tt (set_newkeys (Some (set_k_recv (set_cipher_state cs d) nk)) s) →
  wp (start_cipher d IV key (λ cs, on_newkeys (λ k, set_k_recv (set_cipher_state cs (k_recv k)) k))) E Q
    (set_newkeys (Some nk) s).
Proof.
  intros Hc <- HQ. eapply wp_start_cipher; [done| |done]. intros ->. by rewrite recv_cipher_self in HQ.
Qed.

Lemma wp_key_trans IV key cs d E (Q : unit → sshsession → Prop) s nk :
  keyed_cipher d IV key = Some cs → k_trans nk = d →
  Q tt (set_newkeys (Some (set_k_trans (set_cipher_state cs d) nk)) s) →
  wp (start_cipher d IV key (λ cs, on_newkeys (λ k, set_k_trans (set_cipher_state cs (k_trans k)) k))) E Q
    (set_newkeys (Some nk) s).
Proof.
  intros Hc <- HQ. eapply wp_start_cipher; [done| |done]. intros ->. by rewrite trans_cipher_self in HQ.
Qed.

Lemma keyed_mac_cipher cs d key :
  keyed_mac (set_cipher_state cs d) key = set_cipher_state cs (keyed_mac d key).
Proof. unfold keyed_mac. cbn [set_cipher_state algo_mac mackey]. by repeat case_match. Qed.

Lemma wp_mac_recv hs X cs d E (Q : unit → sshsession → Prop) s nk kex sid :
  algo_kex nk = Some kex → session_id (kexdat s) = Some sid → hash_law (k_hash_desc kex) → mac_fits d →
  k_recv nk = set_cipher_state cs d →
  Q tt (set_newkeys (Some (set_k_recv (keyed_mac (set_cipher_state cs d) (derive kex hs (contents sid) X)) nk)) s) →
  wp (start_mac d hs X
        (λ key i, on_newkeys (λ k, set_k_recv (set_hash_index i (set_mackey key (k_recv k))) k))) E Q
    (set_newkeys (Some nk) s).
Proof.
  intros Hk Hsid Hlaw Hf Hd HQ. rewrite keyed_mac_cipher in HQ.
  eapply wp_start_mac; [done|done|done|done|done|..].
  - intros Hid. rewrite Hid, <-Hd in HQ. destruct nk; exact HQ.
  - intros key i Heq. rewrite Heq in HQ. apply wp_on_newkeys. by rewrite Hd.
Qed.

Lemma wp_mac_trans hs X cs d E (Q : unit → sshsession → Prop) s nk kex sid :
  algo_kex nk = Some kex → session_id (kexdat s) = Some sid → hash_law (k_hash_desc kex) → mac_fits d →
  k_trans nk = set_cipher_state cs d →
  Q tt (set_newkeys (Some (set_k_trans (keyed_mac (set_cipher_state cs d) (derive kex hs (contents sid) X)) nk)) s) →
  wp (start_mac d hs X
        (λ key i, on_newkeys (λ k, set_k_trans (set_hash_index i (set_mackey key (k_trans k))) k))) E Q
    (set_newkeys (Some nk) s).
Proof.
  intros Hk Hsid Hlaw Hf Hd HQ. rewrite keyed_mac_cipher in HQ.
  eapply wp_start_mac; [done|done|done|done|done|..].
  - intros Hid. rewrite Hid, <-Hd in HQ. destruct nk; exact HQ.
  - intros key i Heq. rewrite Heq in HQ. apply wp_on_newkeys. by rewrite Hd.
Qed.

Lemma wp_gen_new_keys (s : sshsession) nk kex sid csr cst E (Q : unit → sshsession → Prop) :
  let KH := kex_secret (kexdat s) in
  let client := negb (isserver s) in
  kex_done s nk kex sid →
  derived_cipher kex KH (contents sid) (negb client) (k_recv nk) = Some csr →
  derived_cipher kex KH (contents sid) client (k_trans nk) = Some cst →
  Q tt (set_newkeys (Some (set_k_recv (derived_dir kex KH (contents sid) (negb client) (k_recv nk) csr)
                            (set_k_trans (derived_dir kex KH (contents sid) client (k_trans nk) cst) nk)))
          (on_kexdat (λ x, set_hash None (set_dh_K_bytes None (set_dh_K None x))) s)) →
  wp gen_new_keys E Q s.
Proof.
  intros KH client (Hn&Hk&Hlaw&Hsid&[H HH]&HK&Hfr&Hft) Hcr Hct HQ.
  set (s0 := on_kexdat (λ x, set_hash None (set_dh_K_bytes None (set_dh_K None x))) s) in *.
  unfold gen_new_keys. apply wp_bind, wp_get, wp_bind. eapply wp_ptr; [done|]. apply wp_bind.
  eapply wp_ptr; [done|].
  apply wp_bind, wp_hash_secret; [by eexists|done|]. fold KH s0.
  assert (Hn0 : s0 = set_newkeys (Some nk) s0) by by apply newkeys_self.
  do 4 (apply wp_bind; eapply wp_hashkeys; [done..|by vm_compute|]).
  rewrite Hn0. unfold derived_cipher, derived_dir, letters in *.
  destruct (isserver s); cbn [negb] in client; subst client; cbn [negb] in *;
    (apply wp_bind; eapply wp_key_recv; [exact Hcr|done|]);
    (apply wp_bind; eapply wp_key_trans; [exact Hct|done|]);
    (apply wp_bind; eapply wp_mac_trans; [done|done|done|done|done|]);
    (apply wp_bind; eapply wp_mac_recv; [done|done|done|done|done|]);
    apply wp_bind, wp_on_newkeys, wp_on_newkeys; exact HQ.
Qed.
End derivation.

(** ** Taking keys into use *)

(** zlib streams can be set up and torn down. *)
Class ZlibInit {CL : CryptoLib} := {
  inflate_init : is_Some inflateInit;
  deflate_init : is_Some deflateInit2;
  inflate_end zs : inflateEnd zs ≠ Z_STREAM_ERROR;
  deflate_end zs : deflateEnd zs ≠ Z_STREAM_ERROR
}.

Section switching.
Context {CL : CryptoLib} {ZI : ZlibInit}.
Implicit Types (s : sshsession) (k nk : key_context).

Definition kv s k nk : sshsession := set_keys (Some k) (set_newkeys (Some nk) s).

Lemma kv_self s k nk : keys s = Some k → newkeys s = Some nk → s = kv s k nk.
Proof. destruct s; simpl. by intros -> ->. Qed.

(** A direction as it is taken into use, with a new compression stream. *)
Definition fresh_recv (d : key_context_directional) : key_context_directional :=
  set_zstream (if wants_zstream d then inflateInit else None) d.
Definition fresh_trans (d : key_context_directional) : key_context_directional :=
  set_zstream (if wants_zstream d then deflateInit2 else None) d.

Definition switch_recv (b : bool) k nk : key_context * key_context :=
  if b && valid (k_recv nk) then (set_k_recv (fresh_recv (k_recv nk)) k, set_k_recv keydir_zero nk)
  else (k, nk).
Definition switch_trans (b : bool) k nk : key_context * key_context :=
  if b && valid (k_trans nk) then (set_k_trans (fresh_trans (k_trans nk)) k, set_k_trans keydir_zero nk)
  else (k, nk).

(** What [switch_keys] copies when both messages are through. *)
Definition adopt k nk : key_context :=
  set_allow_compress 0 (set_algo_signature (algo_signature nk)
    (set_algo_hostkey (algo_hostkey nk) (set_algo_kex (algo_kex nk) k))).

(** The state [kexinitialise] leaves. *)
Definition kex_reset (now : Z) (ks : KEXState) : KEXState :=
  set_lastkextime now (set_our_first_follows_matches false (set_datarecv 0 (set_datatrans 0
    (set_them_firstfollows false (set_sentnewkeys false (set_recvnewkeys false
      (set_recvkexinit false (set_sentkexinit false ks)))))))).

Lemma wp_move_recv E (Q : unit → sshsession → Prop) s k nk :
  Q tt (kv s (set_k_recv (fresh_recv (k_recv nk)) k) (set_k_recv keydir_zero nk)) →
  wp (do* gen_new_zstream_recv; move_recv) E Q (kv s k nk).
Proof.
  intros HQ. apply wp_bind, wp_bind, wp_get, wp_bind. eapply wp_ptr; [done|]. apply wp_bind.
  assert (Hend : ∀ d, wp (let* s := get in let* k := ptr (keys s) in
      match zstream (k_recv k) with
      | None => ret tt
      | Some zs => do* exit_if (inflateEnd zs =? Z_STREAM_ERROR) "Crypto error";
                   on_keys (λ k, set_k_recv (set_zstream None (k_recv k)) k)
      end) E (λ _ t, ∃ k', set_k_recv d k' = set_k_recv d k ∧ t = kv s k' (set_k_recv d nk))
        (kv s k (set_k_recv d nk))).
  { intros d. apply wp_bind, wp_get, wp_bind. eapply wp_ptr; [done|]. destruct (zstream (k_recv k)) as [zs|].
    - apply wp_bind, wp_exit_if; intros Hc; [by apply Z.eqb_eq, inflate_end in Hc|].
      by exists (set_k_recv (set_zstream None (k_recv k)) k).
    - apply wp_ret. by exists k. }
  assert (Hmid : wp (if wants_zstream (k_recv nk) then
         match inflateInit with
         | None => dropbear_exit "zlib error"
         | Some zs => on_newkeys (λ k, set_k_recv (set_zstream (Some zs) (k_recv k)) k)
         end
       else on_newkeys (λ k, set_k_recv (set_zstream None (k_recv k)) k)) E
     (λ _ t, t = kv s k (set_k_recv (fresh_recv (k_recv nk)) nk)) (kv s k nk)).
  { unfold fresh_recv. destruct (wants_zstream (k_recv nk)); [|done].
    destruct inflate_init as [zs ->]. done. }
  eapply wp_mono; [exact Hmid|]. intros _ t ->. eapply wp_mono; [apply Hend|].
  intros _ t (k'&Hk'&->). apply wp_bind, wp_get, wp_bind. eapply wp_ptr; [done|].
  rewrite <-Hk' in HQ. exact HQ.
Qed.

Lemma wp_move_trans E (Q : unit → sshsession → Prop) s k nk :
  Q tt (kv s (set_k_trans (fresh_trans (k_trans nk)) k) (set_k_trans keydir_zero nk)) →
  wp (do* gen_new_zstream_trans; move_trans) E Q (kv s k nk).
Proof.
  intros HQ. apply wp_bind, wp_bind, wp_get, wp_bind. eapply wp_ptr; [done|]. apply wp_bind.
  assert (Hend : ∀ d, wp (let* s := get in let* k := ptr (keys s) in
      match zstream (k_trans k) with
      | None => ret tt
      | Some zs => do* exit_if (deflateEnd zs =? Z_STREAM_ERROR) "Crypto error";
                   on_keys (λ k, set_k_trans (set_zstream None (k_trans k)) k)
      end) E (λ _ t, ∃ k', set_k_trans d k' = set_k_trans d k ∧ t = kv s k' (set_k_trans d nk))
        (kv s k (set_k_trans d nk))).
  { intros d. apply wp_bind, wp_get, wp_bind. eapply wp_ptr; [done|]. destruct (zstream (k_trans k)) as [zs|].
    - apply wp_bind, wp_exit_if; intros Hc; [by apply Z.eqb_eq, deflate_end in Hc|].
      by exists (set_k_trans (set_zstream None (k_trans k)) k).
    - apply wp_ret. by exists k. }
  assert (Hmid : wp (if wants_zstream (k_trans nk) then
         match deflateInit2 with
         | None => dropbear_exit "zlib error"
         | Some zs => on_newkeys (λ k, set_k_trans (set_zstream (Some zs) (k_trans k)) k)
         end
       else on_newkeys (λ k, set_k_trans (set_zstream None (k_trans k)) k)) E
     (λ _ t, t = kv s k (set_k_trans (fresh_trans (k_trans nk)) nk)) (kv s k nk)).
  { unfold fresh_trans. destruct (wants_zstream (k_trans nk)); [|done].
    destruct deflate_init as [zs ->]. done. }
  eapply wp_mono; [exact Hmid|]. intros _ t ->. eapply wp_mono; [apply Hend|].
  intros _ t (k'&Hk'&->). apply wp_bind, wp_get, wp_bind. eapply wp_ptr; [done|].
  rewrite <-Hk' in HQ. exact HQ.
Qed.

Lemma wp_switch_keys E (Q : unit → sshsession → Prop) s k nk :
  let ks := kexstate s in
  sentkexinit ks = true → recvkexinit ks = true →
  let r := switch_recv (recvnewkeys ks) k nk in
  let t := switch_trans (sentnewkeys ks) r.1 r.2 in
  Q tt (if sentnewkeys ks && recvnewkeys ks
        then on_kexstate (kex_reset (w_clock (wld s))) (set_newkeys None (set_keys (Some (adopt t.1 t.2)) s))
        else kv s t.1 t.2) →
  wp switch_keys E Q (kv s k nk).
Proof.
  intros ks Hs Hr r t HQ. unfold switch_keys. apply wp_bind, wp_get.
  change (kexstate (kv s k nk)) with ks. apply wp_bind, wp_exit_if; rewrite Hs, Hr; [done|]. intros _.
  apply wp_bind. change (keys (kv s k nk)) with (Some k). cbn [when]. apply wp_ret, wp_bind.
  assert (Hnk1 : wp (if recvnewkeys ks then ptr (newkeys (kv s k nk)) else ret keys_zero) E
    (λ n st, st = kv s k nk ∧ recvnewkeys ks && valid (k_recv n) = recvnewkeys ks && valid (k_recv nk)) (kv s k nk))
    by by destruct (recvnewkeys ks).
  eapply wp_mono; [exact Hnk1|]. intros n st [-> Hn]. rewrite Hn. clear n Hn Hnk1. apply wp_bind.
  assert (H1 : wp (when (recvnewkeys ks && valid (k_recv nk)) (do* gen_new_zstream_recv; move_recv)) E
    (λ _ st, st = kv s r.1 r.2) (kv s k nk)).
  { unfold r, switch_recv. destruct (recvnewkeys ks && valid (k_recv nk)); [by apply wp_move_recv|done]. }
  eapply wp_mono; [exact H1|]. intros _ st ->. apply wp_bind, wp_get, wp_bind. cbn [newkeys kv].
  assert (Hnk2 : wp (if sentnewkeys ks then ptr (newkeys (kv s r.1 r.2)) else ret keys_zero) E
    (λ n st, st = kv s r.1 r.2 ∧ sentnewkeys ks && valid (k_trans n) = sentnewkeys ks && valid (k_trans r.2))
    (kv s r.1 r.2)) by by destruct (sentnewkeys ks).
  eapply wp_mono; [exact Hnk2|]. intros n st [-> Hn]. rewrite Hn. clear n Hn Hnk2. apply wp_bind.
  assert (H2 : wp (when (sentnewkeys ks && valid (k_trans r.2)) (do* gen_new_zstream_trans; move_trans)) E
    (λ _ st, st = kv s t.1 t.2) (kv s r.1 r.2)).
  { unfold t, switch_trans. destruct (sentnewkeys ks && valid (k_trans r.2)); [by apply wp_move_trans|done]. }
  eapply wp_mono; [exact H2|]. intros _ st ->. unfold when.
  destruct (sentnewkeys ks && recvnewkeys ks); [|by apply wp_ret].
  apply wp_bind, wp_get, wp_bind. eapply wp_ptr; [done|]. exact HQ.
Qed.
End switching.

(** ** Matching keys at both ends *)

Section matching.
Context {CL : CryptoLib}.

Definition mac_index (mac : dropbear_hash) : Z :=
  match h_hash_desc mac with Some desc => find_hash (hd_name desc) | None => 0 end.

(** A direction of [*ses.newkeys] as [read_kex_algos] leaves it. *)
Definition negotiated (d : key_context_directional) crypt mac mode : Prop :=
  dir_is d crypt mac mode ∧ mackey d = zeros MAX_MAC_LEN ∧ hash_index d = 0.

(** What the code relies on of a cipher and MAC that can be negotiated: the
    sizes fit, the cipher accepts a derived key, two states keyed alike belong
    together, and the HMAC is registered and long enough. *)
Definition suite_ok crypt mac mode {P : CipherPair mode (c_blocksize crypt) (h_hashsize mac)} : Prop :=
  8 ≤ c_blocksize crypt ≤ 16 ∧ 0 ≤ h_hashsize mac ≤ MAX_MAC_LEN ∧ 0 ≤ h_keysize mac ≤ MAX_MAC_LEN ∧
  mode_ok mode ∧
  (∃ desc start, c_cipherdesc crypt = Some desc ∧ cm_start mode = Some start ∧
     (∀ name, cd_name desc = Some name → 0 ≤ find_cipher name) ∧
     ∀ cipher IV key, zlen IV = MAX_IV_LEN → zlen key = MAX_KEY_LEN → bytes_ok IV → bytes_ok key →
       ∃ cs, start cipher IV key (c_keysize crypt) = Some cs ∧ paired cs cs) ∧
  (∀ key m t, hmac (mac_index mac) key m = Some t → h_hashsize mac ≤ zlen t ∧ bytes_ok t) ∧
  (0 < h_hashsize mac → cm_aead_crypt mode = None → ∀ key m, is_Some (hmac (mac_index mac) key m)).

Lemma negotiated_mac_fits d crypt mac mode :
  negotiated d crypt mac mode → 0 ≤ h_keysize mac ≤ MAX_MAC_LEN → mac_fits d.
Proof. intros ((_&Hm&_)&Hk&_) ?. exists mac. split; [done|]. rewrite Hk, zlen_zeros; done. Qed.

Lemma keyed_mac_index d crypt mac mode key :
  negotiated d crypt mac mode → hash_index (keyed_mac d key) = mac_index mac.
Proof. intros ((_&Hm&_)&_&Hi). unfold keyed_mac, mac_index. rewrite Hm. by case_match. Qed.

Lemma keyed_mac_algos d key :
  algo_crypt (keyed_mac d key) = algo_crypt d ∧ algo_mac (keyed_mac d key) = algo_mac d ∧
  crypt_mode (keyed_mac d key) = crypt_mode d ∧ cipher_state (keyed_mac d key) = cipher_state d.
Proof. unfold keyed_mac. repeat case_match; done. Qed.

Lemma keyed_mac_mackey dS dR crypt mac mode key :
  negotiated dS crypt mac mode → negotiated dR crypt mac mode →
  mackey (keyed_mac dS key) = mackey (keyed_mac dR key).
Proof.
  intros ((_&HmS&_)&HkS&_) ((_&HmR&_)&HkR&_). unfold keyed_mac. rewrite HmS, HmR.
  case_match; cbn [mackey set_hash_index set_mackey]; congruence.
Qed.

Lemma keyed_mac_room d crypt mac mode key :
  negotiated d crypt mac mode → 0 ≤ h_keysize mac ≤ MAX_MAC_LEN → zlen (key (h_keysize mac)) = h_keysize mac →
  zlen (mackey (keyed_mac d key)) = MAX_MAC_LEN.
Proof.
  intros ((_&Hm&_)&Hk&_) Hks Hl. unfold keyed_mac. rewrite Hm. case_match; [|by rewrite Hk].
  cbn [mackey set_hash_index set_mackey]. rewrite zlen_splice, Hk; [by vm_compute|lia|].
  rewrite Hk, Hl, zlen_zeros by done. lia.
Qed.

(** The two ends of a direction derive the same cipher state. *)
Lemma derived_cipher_ok crypt mac mode {P : CipherPair mode (c_blocksize crypt) (h_hashsize mac)}
    kex KH sid c2s d :
  suite_ok crypt mac mode → hash_law (k_hash_desc kex) → dir_is d crypt mac mode →
  ∃ cs, derived_cipher kex KH sid c2s d = Some cs ∧ paired cs cs ∧
    ∀ d', dir_is d' crypt mac mode → derived_cipher kex KH sid c2s d' = Some cs.
Proof.
  intros (_&_&_&_&(desc&start&Hdesc&Hst&Hfc&Hs)&_) Hlaw Hd.
  assert (Hgen : ∃ cs, paired cs cs ∧ ∀ d', dir_is d' crypt mac mode → derived_cipher kex KH sid c2s d' = Some cs).
  { unfold derived_cipher, letters. destruct c2s;
    match goal with |- context [keyed_cipher _ (derive _ _ _ ?a ?n) (derive _ _ _ ?b ?m)] =>
      destruct (rfc4253_key_length (k_hash_desc kex) KH a sid n Hlaw ltac:(by vm_compute)) as [HI HIb];
      destruct (rfc4253_key_length (k_hash_desc kex) KH b sid m Hlaw ltac:(by vm_compute)) as [HK HKb];
      destruct (Hs (match cd_name desc with Some name => find_cipher name | None => -1 end) _ _ HI HK HIb HKb)
        as (cs&Hcs&Hp) end;
    exists cs; (split; [done|]); intros d' (Hc'&_&Hmo'); unfold keyed_cipher; rewrite Hc', Hmo', Hdesc, Hst;
    (destruct (cd_name desc) as [name|]; [specialize (Hfc name eq_refl); if_false; exact Hcs|exact Hcs]). }
  destruct Hgen as (cs&Hp&H). exists cs. split_and!; [by apply H|done|done].
Qed.

Lemma derived_dirs_linked crypt mac mode {P : CipherPair mode (c_blocksize crypt) (h_hashsize mac)}
    kex KH sid c2s dS dR cs :
  suite_ok crypt mac mode → hash_law (k_hash_desc kex) →
  negotiated dS crypt mac mode → negotiated dR crypt mac mode → paired cs cs →
  linked crypt mac mode (derived_dir kex KH sid c2s dS cs) (derived_dir kex KH sid c2s dR cs).
Proof.
  intros (Hbs&Hhs&Hks&Hmode&_&Hlaw&Hhm) Hh HS HR Hp. unfold derived_dir. destruct (letters c2s) as [[? ?] X].
  pose proof HS as ((HcS&HmS&HoS)&_). pose proof HR as ((HcR&HmR&HoR)&_).
  unfold linked, keyed_dir. rewrite !keyed_mac_cipher.
  set (eS := keyed_mac dS _). set (eR := keyed_mac dR _).
  destruct (keyed_mac_algos dS (derive kex KH sid X)) as (H1&H2&H3&_).
  destruct (keyed_mac_algos dR (derive kex KH sid X)) as (H4&H5&H6&_). fold eS in H1, H2, H3. fold eR in H4, H5, H6.
  assert (HiS : hash_index eS = mac_index mac) by (eapply keyed_mac_index, HS).
  assert (HiR : hash_index eR = mac_index mac) by (eapply keyed_mac_index, HR).
  assert (HrR : zlen (mackey eR) = MAX_MAC_LEN).
  { eapply keyed_mac_room; [exact HR|lia|]. apply rfc4253_key_length; [done|lia]. }
  unfold dir_is, mac_ok. cbn [set_valid set_cipher_state algo_crypt algo_mac crypt_mode hash_index mackey cipher_state].
  rewrite H1, H2, H3, H4, H5, H6, HiS, HiR, HrR. split_and!; try done; try lia.
  - eapply keyed_mac_mackey; [exact HS|exact HR].
  - intros ? ? m. by apply Hhm.
Qed.
End matching.

(** C16: [hashkeys] computes the key of RFC 4253 7.2: the first [outlen] bytes
    of K1 || K2 || ..., for every length, also when it is not a multiple of
    the digest or shorter than one; the loop ends. *)
Theorem hashkeys_rfc4253 {CL : CryptoLib} (s : sshsession) nk kex sid (outlen : Z) (hs : list Z) (X : Z) :
  newkeys s = Some nk → algo_kex nk = Some kex → session_id (kexdat s) = Some sid →
  hash_law (k_hash_desc kex) → 0 ≤ outlen →
  hashkeys outlen hs X s = Ok (rfc4253_key (hd_fn (k_hash_desc kex)) hs X (contents sid) outlen, s) ∧
  zlen (rfc4253_key (hd_fn (k_hash_desc kex)) hs X (contents sid) outlen) = outlen.
Proof. intros. split; [by apply hashkeys_eq with nk|by apply rfc4253_key_length]. Qed.

(** C14: The two ends derive keys that fit together.  A client and a server
    that share the secret, the exchange hash and the session id and have
    negotiated the same algorithms for each direction both complete
    [gen_new_keys]; afterwards the client's transmit keys are linked with the
    server's receive keys and the other way round, in the sense in which
    linked keys let packets through, and both directions are marked valid. *)
Theorem derived_keys_match {CL : CryptoLib} (C S : sshsession) nkC nkS kex sidC sidS
    crypt1 mac1 mode1 {P1 : CipherPair mode1 (c_blocksize crypt1) (h_hashsize mac1)}
    crypt2 mac2 mode2 {P2 : CipherPair mode2 (c_blocksize crypt2) (h_hashsize mac2)} :
  isserver C = false → isserver S = true →
  kex_done C nkC kex sidC → kex_done S nkS kex sidS →
  kex_secret (kexdat C) = kex_secret (kexdat S) → contents sidC = contents sidS →
  suite_ok crypt1 mac1 mode1 → suite_ok crypt2 mac2 mode2 →
  negotiated (k_trans nkC) crypt1 mac1 mode1 → negotiated (k_recv nkS) crypt1 mac1 mode1 →
  negotiated (k_trans nkS) crypt2 mac2 mode2 → negotiated (k_recv nkC) crypt2 mac2 mode2 →
  ∃ C' S' nkC' nkS',
    gen_new_keys C = Ok (tt, C') ∧ gen_new_keys S = Ok (tt, S') ∧
    newkeys C' = Some nkC' ∧ newkeys S' = Some nkS' ∧
    linked crypt1 mac1 mode1 (k_trans nkC') (k_recv nkS') ∧
    linked crypt2 mac2 mode2 (k_trans nkS') (k_recv nkC') ∧
    valid (k_trans nkC') && valid (k_recv nkC') && valid (k_trans nkS') && valid (k_recv nkS') = true.
Proof.
  intros HC HS HdC HdS Hsec Hsid Hs1 Hs2 HtC HrS HtS HrC.
  pose proof HdC as (_&_&Hlaw&_). pose proof HtC as [HtC1 _]. pose proof HtS as [HtS1 _].
  destruct (derived_cipher_ok crypt1 mac1 mode1 kex (kex_secret (kexdat S)) (contents sidS) true (k_trans nkC))
    as (cs1&Hc1&Hp1&Ho1); [done..|].
  destruct (derived_cipher_ok crypt2 mac2 mode2 kex (kex_secret (kexdat S)) (contents sidS) false (k_trans nkS))
    as (cs2&Hc2&Hp2&Ho2); [done..|].
  set (dir := derived_dir kex (kex_secret (kexdat S)) (contents sidS)).
  assert (HCrun : wp gen_new_keys no_exit (λ _ s', newkeys s' =
    Some (set_k_recv (dir false (k_recv nkC) cs2) (set_k_trans (dir true (k_trans nkC) cs1) nkC))) C).
  { eapply (wp_gen_new_keys C nkC kex sidC cs2 cs1); [done|..]; rewrite HC, Hsec, Hsid; [|done|done].
    apply Ho2. apply HrC. }
  assert (HSrun : wp gen_new_keys no_exit (λ _ s', newkeys s' =
    Some (set_k_recv (dir true (k_recv nkS) cs1) (set_k_trans (dir false (k_trans nkS) cs2) nkS))) S).
  { eapply (wp_gen_new_keys S nkS kex sidS cs1 cs2); [done|..]; rewrite HS; [|done|done].
    apply Ho1. apply HrS. }
  apply wp_no_exit_run in HCrun as ([]&C'&HC'&HnC). apply wp_no_exit_run in HSrun as ([]&S'&HS'&HnS).
  eexists C', S', _, _. split_and!; [done..| | |done].
  - by apply derived_dirs_linked.
  - by apply derived_dirs_linked.
Qed.

(** ** The NEWKEYS messages *)

Section newkeys_messages.
Context {CL : CryptoLib} {ZI : ZlibInit}.
Implicit Types (s : sshsession) (kc nk : key_context).

(** A session whose key exchange has produced a secret: the NEWKEYS message
    can be sent under the old keys [kc] and the new ones can be derived. *)
Definition newkeys_ready s kc nk kex sid bufs mac csr cst : Prop :=
  let KH := kex_secret (kexdat s) in
  let client := negb (isserver s) in
  send_ok s kc bufs ∧ b_len (writepayload (pkt s)) = 0 ∧ b_pos (writepayload (pkt s)) = 0 ∧
  1 ≤ b_size (writepayload (pkt s)) ∧ algo_mac (k_trans kc) = Some mac ∧
  can_seal (k_trans kc) mac (transseq (pkt s)) [SSH_MSG_NEWKEYS] ∧
  kex_done s nk kex sid ∧ valid (k_recv nk) = false ∧ valid (k_trans nk) = false ∧
  derived_cipher kex KH (contents sid) (negb client) (k_recv nk) = Some csr ∧
  derived_cipher kex KH (contents sid) client (k_trans nk) = Some cst ∧
  sentkexinit (kexstate s) = true ∧ recvkexinit (kexstate s) = true ∧ sentnewkeys (kexstate s) = false.

(** The derived directions. *)
Definition new_recv s nk kex sid csr : key_context_directional :=
  derived_dir kex (kex_secret (kexdat s)) (contents sid) (isserver s) (k_recv nk) csr.
Definition new_trans s nk kex sid cst : key_context_directional :=
  derived_dir kex (kex_secret (kexdat s)) (contents sid) (negb (isserver s)) (k_trans nk) cst.

(** Strict kex restarts a sequence number. *)
Definition reseq s (seq : Z) : Z := if strict_kex (kexstate s) then 0 else seq.

(** The keys when both directions have switched. *)
Definition keys_switched kc nk (dR dT : key_context_directional) : key_context :=
  adopt (set_k_trans (fresh_trans dT) (set_k_recv (fresh_recv dR) kc)) nk.

Definition newkeys_queued s kc bufs s' : Prop :=
  ∃ wb pad ct cs, queue_rep (writequeue (pkt s')) (bufs ++ [wb]) ∧ remaining wb = ct ∧
    seal (k_trans kc) (transseq (pkt s)) (plain_packet [SSH_MSG_NEWKEYS] pad) = Some (ct, cs).

(** After our NEWKEYS; [both] if the peer's was there before. *)
Definition after_send (both : bool) s kc nk kex sid bufs csr cst s' : Prop :=
  let dR := new_recv s nk kex sid csr in
  let dT := new_trans s nk kex sid cst in
  newkeys_queued s kc bufs s' ∧ dataallowed (pkt s') = true ∧
  transseq (pkt s') = reseq s (u32 (transseq (pkt s) + 1)) ∧ recvseq (pkt s') = recvseq (pkt s) ∧
  keys s' = Some (if both then keys_switched kc nk dR dT else set_k_trans (fresh_trans dT) kc) ∧
  newkeys s' = (if both then None else Some (set_k_trans keydir_zero (set_k_recv dR nk))) ∧
  strict_kex (kexstate s') = strict_kex (kexstate s) ∧
  sentkexinit (kexstate s') = negb both ∧ recvkexinit (kexstate s') = negb both ∧
  sentnewkeys (kexstate s') = negb both ∧ recvnewkeys (kexstate s') = false.

Lemma derived_dir_valid kex KH sid c2s d cs : valid (derived_dir kex KH sid c2s d cs) = true.
Proof. unfold derived_dir. by destruct (letters c2s) as [[? ?] ?]. Qed.

Lemma wp_send_msg_newkeys (Q : unit → sshsession → Prop) s kc nk kex sid bufs mac csr cst :
  newkeys_ready s kc nk kex sid bufs mac csr cst →
  (∀ s', after_send (recvnewkeys (kexstate s)) s kc nk kex sid bufs csr cst s' → Q tt s') →
  wp send_msg_newkeys no_exit Q s.
Proof.
  intros (Hsend&Hl&Hp&Hsz&Hmac&Hseal&Hdone&HvR&HvT&HcR&HcT&Hsk&Hrk&Hsn) HQ.
  pose proof Hsend as (Hk&Hd&Hr&Hq&Hql&Hw&Hcomp).
  unfold send_msg_newkeys. apply wp_bind, wp_zoom, wp_buf_putbyte; [done| |lia]. intros _.
  set (pl := after_put [u8 SSH_MSG_NEWKEYS] (writepayload (pkt s))). set (s1 := on_pkt (set_writepayload pl) s).
  assert (Hwpl : wf_buf pl) by (apply wf_after_put; [done|decide_closed|change (zlen _) with 1; lia]).
  assert (Hcont : contents pl = [SSH_MSG_NEWKEYS]) by (apply contents_fresh_put; [done|done|done|change (zlen _) with 1; lia]).
  apply wp_bind. eapply (wp_encrypt_packet _ _ s1 kc bufs SSH_MSG_NEWKEYS [] mac);
    [by split_and!|done| |done|done|done|].
  { split; [decide_closed|by vm_compute]. }
  intros _ pad ct cs wb q' r' plain _ _ _ _ Hsl _ Hwb Hcw Hp0 Hlw Hq' _.
  set (s2 := sent s1 kc (set_cipher_state cs (k_trans kc)) pl r' q' (zlen ct) SSH_MSG_NEWKEYS).
  assert (Hrem : remaining wb = ct) by (unfold remaining; rewrite Hp0, Z.sub_0_r; exact Hcw).
  apply wp_bind, wp_modify, wp_bind, wp_get, wp_bind.
  assert (Hmid : wp (when (donefirstkex (kexstate (on_kexstate (set_sentnewkeys true) s2)))
      (modify (on_kexstate (set_donesecondkex true)))) no_exit
    (λ _ s3, ∃ ks, s3 = set_kexstate ks s2 ∧ sentkexinit ks = true ∧ recvkexinit ks = true ∧ sentnewkeys ks = true ∧
       recvnewkeys ks = recvnewkeys (kexstate s) ∧ strict_kex ks = strict_kex (kexstate s))
    (on_kexstate (set_sentnewkeys true) s2)).
  { apply wp_when; intros _; [apply wp_modify|]; by eexists. }
  eapply wp_mono; [exact Hmid|]. intros _ s3 (ks&->&Hks1&Hks2&Hks3&Hks4&Hks5).
  apply wp_bind, wp_modify, wp_bind, wp_modify, wp_bind.
  set (s4 := on_pkt (set_dataallowed true) (on_kexstate (set_donefirstkex true) (set_kexstate ks s2))).
  eapply (wp_gen_new_keys s4 nk kex sid csr cst); [exact Hdone|exact HcR|exact HcT|].
  change (kex_secret (kexdat s4)) with (kex_secret (kexdat s)). change (isserver s4) with (isserver s).
  rewrite Bool.negb_involutive. fold (new_recv s nk kex sid csr) (new_trans s nk kex sid cst).
  set (dR := new_recv s nk kex sid csr). set (dT := new_trans s nk kex sid cst).
  apply wp_bind. set (nk' := set_k_recv dR (set_k_trans dT nk)).
  set (s5 := on_kexdat (λ x, set_hash None (set_dh_K_bytes None (set_dh_K None x))) s4).
  change (set_newkeys (Some nk') s5) with (kv (set_newkeys (Some nk') s5) (set_k_trans (set_cipher_state cs (k_trans kc)) kc) nk').
  apply wp_switch_keys; [exact Hks1|exact Hks2|].
  change (kexstate (set_newkeys (Some nk') s5)) with (set_donefirstkex true ks).
  cbn [set_donefirstkex sentnewkeys recvnewkeys]. rewrite Hks3, Hks4. cbn [andb].
  assert (HvdR : valid dR = true) by apply derived_dir_valid.
  assert (HvdT : valid dT = true) by apply derived_dir_valid.
  unfold switch_recv, switch_trans. change (k_recv nk') with dR. rewrite HvdR, andb_true_r.
  apply wp_bind, wp_get. unfold when.
  set (q := newkeys_queued s kc bufs).
  assert (Hqueue : ∀ t, writequeue (pkt t) = q' → q t) by (intros t Ht; exists wb, pad, ct, cs; by rewrite Ht).
  unfold after_send in HQ. fold q dR dT in HQ. unfold reseq, keys_switched in HQ. rewrite <-Hks5 in HQ.
  destruct (recvnewkeys (kexstate s)); cbn [andb fst snd]; change (k_trans nk') with dT;
    try change (k_trans (set_k_recv keydir_zero nk')) with dT; rewrite ?HvdT; cbn [andb fst snd];
    (match goal with |- context [if strict_kex ?x then _ else _] => change (strict_kex x) with (strict_kex ks) end);
    destruct (strict_kex ks) eqn:Hstrict; [apply wp_modify|apply wp_ret|apply wp_modify|apply wp_ret]; apply HQ;
    split_and!; done || by apply Hqueue.
Qed.

(** After the peer's NEWKEYS, when ours was not sent yet: nothing changes but
    the receive sequence number. *)
Lemma wp_recv_newkeys_first (Q : unit → sshsession → Prop) s kc nk :
  keys s = Some kc → newkeys s = Some nk → valid (k_recv nk) = false →
  sentkexinit (kexstate s) = true → recvkexinit (kexstate s) = true → sentnewkeys (kexstate s) = false →
  Q tt (on_kexstate (λ x, set_recvfirstnewkeys true (set_recvnewkeys true x))
          (on_pkt (set_recvseq (reseq s (recvseq (pkt s)))) s)) →
  wp recv_msg_newkeys no_exit Q s.
Proof.
  intros Hk Hn Hv Hs Hr Hsn HQ. apply wp_bind, wp_modify, wp_bind.
  set (s1 := on_kexstate (set_recvnewkeys true) s). rewrite (kv_self s1 kc nk) by done.
  apply wp_switch_keys; [done|done|]. change (kexstate s1) with (set_recvnewkeys true (kexstate s)).
  cbn [set_recvnewkeys recvnewkeys sentnewkeys]. rewrite Hsn. unfold switch_recv, switch_trans. rewrite Hv. cbn [andb fst snd].
  rewrite <-(kv_self s1 kc nk) by done. apply wp_bind, wp_get. unfold reseq in HQ.
  change (strict_kex (kexstate s1)) with (strict_kex (kexstate s)).
  apply wp_bind. destruct (strict_kex (kexstate s)); cbn [when]; [exact HQ|].
  apply wp_ret, wp_modify. destruct s as [? [] ? ? ? ? ? ?]; exact HQ.
Qed.

(** After the peer's NEWKEYS, when ours was sent: the switch is complete. *)
Lemma wp_recv_newkeys_last (Q : unit → sshsession → Prop) s k nk :
  keys s = Some k → newkeys s = Some nk → valid (k_recv nk) = true → valid (k_trans nk) = false →
  sentkexinit (kexstate s) = true → recvkexinit (kexstate s) = true → sentnewkeys (kexstate s) = true →
  (∀ s', keys s' = Some (adopt (set_k_recv (fresh_recv (k_recv nk)) k) nk) → newkeys s' = None →
     pkt s' = set_recvseq (reseq s (recvseq (pkt s))) (pkt s) →
     sentkexinit (kexstate s') = false → recvkexinit (kexstate s') = false →
     sentnewkeys (kexstate s') = false → recvnewkeys (kexstate s') = false → Q tt s') →
  wp recv_msg_newkeys no_exit Q s.
Proof.
  intros Hk Hn HvR HvT Hs Hr Hsn HQ. apply wp_bind, wp_modify, wp_bind.
  set (s1 := on_kexstate (set_recvnewkeys true) s). rewrite (kv_self s1 k nk) by done.
  apply wp_switch_keys; [done|done|]. change (kexstate s1) with (set_recvnewkeys true (kexstate s)).
  cbn [set_recvnewkeys recvnewkeys sentnewkeys]. rewrite Hsn. unfold switch_recv, switch_trans. rewrite HvR.
  cbn [andb fst snd]. change (k_trans (set_k_recv keydir_zero nk)) with (k_trans nk). rewrite HvT. cbn [andb fst snd].
  apply wp_bind, wp_get. unfold reseq in HQ.
  set (s2 := on_kexstate _ _). change (strict_kex (kexstate s2)) with (strict_kex (kexstate s)).
  apply wp_bind. destruct (strict_kex (kexstate s)); cbn [when]; [|apply wp_ret, wp_modify];
    apply HQ; try done. destruct s as [? [] ? ? ? ? ? ?]; done.
Qed.
End newkeys_messages.

(** Nothing of the exchange is left. *)
Definition kex_idle {CL : CryptoLib} (s : sshsession) : Prop :=
  newkeys s = None ∧ sentkexinit (kexstate s) = false ∧ recvkexinit (kexstate s) = false ∧
  sentnewkeys (kexstate s) = false ∧ recvnewkeys (kexstate s) = false.

(** C12: The switch to the new keys.  Our NEWKEYS message goes out under the
    old keys, and from then on the transmit direction uses the derived keys.
    The receive direction switches at the later of the two messages: when ours
    goes first it keeps the old keys until the peer's message; when the peer's
    comes first neither direction switches until ours is sent.  The second of
    the two messages completes the exchange, with the same keys in either
    order.  With strict kex each sequence number restarts at 0 exactly
    at the message of its direction; without it none does. *)
Theorem newkeys_switch {CL : CryptoLib} {ZI : ZlibInit} s kc nk kex sid bufs mac csr cst :
  newkeys_ready s kc nk kex sid bufs mac csr cst → recvnewkeys (kexstate s) = false →
  let dR := new_recv s nk kex sid csr in
  let dT := new_trans s nk kex sid cst in
  wp (do* send_msg_newkeys; let* s1 := get in do* recv_msg_newkeys; ret s1) no_exit
    (λ s1 s2, newkeys_queued s kc bufs s1 ∧
       keys s1 = Some (set_k_trans (fresh_trans dT) kc) ∧
       transseq (pkt s1) = reseq s (u32 (transseq (pkt s) + 1)) ∧ recvseq (pkt s1) = recvseq (pkt s) ∧
       keys s2 = Some (keys_switched kc nk dR dT) ∧ kex_idle s2 ∧ dataallowed (pkt s2) = true ∧
       transseq (pkt s2) = transseq (pkt s1) ∧ recvseq (pkt s2) = reseq s (recvseq (pkt s))) s ∧
  wp (do* recv_msg_newkeys; let* s1 := get in do* send_msg_newkeys; ret s1) no_exit
    (λ s1 s2, keys s1 = Some kc ∧ transseq (pkt s1) = transseq (pkt s) ∧
       recvseq (pkt s1) = reseq s (recvseq (pkt s)) ∧
       newkeys_queued s kc bufs s2 ∧
       keys s2 = Some (keys_switched kc nk dR dT) ∧ kex_idle s2 ∧ dataallowed (pkt s2) = true ∧
       transseq (pkt s2) = reseq s (u32 (transseq (pkt s) + 1)) ∧ recvseq (pkt s2) = recvseq (pkt s1)) s.
Proof.
  intros Hready Hrn dR dT. pose proof Hready as ((Hk&_)&_&_&_&_&_&(Hn&_)&HvR&HvT&_&_&Hsk&Hrk&Hsn). split.
  - apply wp_bind. eapply wp_send_msg_newkeys; [done|]. rewrite Hrn.
    intros s1 (Hq&Hda&Hts&Hrs&Hk1&Hn1&Hst&Hsk1&Hrk1&Hsn1&Hrn1).
    apply wp_bind, wp_get, wp_bind.
    eapply (wp_recv_newkeys_last _ s1 _ _ Hk1 Hn1); [apply derived_dir_valid|done..|].
    intros s2 Hk2 Hn2 Hp2 ? ? ? ?. apply wp_ret. rewrite Hp2, Hk2. unfold reseq in *. rewrite Hst, Hrs.
    split_and!; done.
  - apply wp_bind. eapply wp_recv_newkeys_first; [done..|]. set (s1 := on_kexstate _ _).
    apply wp_bind, wp_get, wp_bind. eapply (wp_send_msg_newkeys _ s1); [exact Hready|].
    change (recvnewkeys (kexstate s1)) with true.
    intros s2 (Hq&Hda&Hts&Hrs&Hk1&Hn1&Hst&Hsk1&Hrk1&Hsn1&Hrn1). apply wp_ret. split_and!; try done.
Qed.

(** ** Witnesses *)

Definition toy_desc : ltc_hash_descriptor := mkhashdesc [] 32 (λ m, replicate 32 (sum_bytes m)).
Lemma toy_desc_law : hash_law toy_desc.
Proof. split; [done|]. intros m. split; [done|]. apply (Forall_replicate _ 32), u8_range. Qed.
Definition toy_kex : dropbear_kex := mkkex DROPBEAR_KEX_CURVE25519 [] NoDetails toy_desc.
(** A cipher that is looked up by name and has a key. *)
Definition toy_crypt : dropbear_cipher := mkcipher (Some (mkcipherdesc (Some (bstr "toy")))) 32 16.

Definition toy_newdir : @key_context_directional toy_lib :=
  @mkkeydir toy_lib (Some toy_crypt) (Some (dropbear_mode_none tt)) (Some toy_mac) 0 0 None tt (zeros 32) false.
Definition toy_newkeys : @key_context toy_lib := @mkkeys toy_lib toy_newdir toy_newdir (Some toy_kex) 0 0 0.

(** The exchange is done: K = 12345, H and session id given. *)
Definition toy_kexdone (server : bool) : @sshsession toy_lib :=
  @set_isserver toy_lib server (@set_newkeys toy_lib (Some toy_newkeys)
    (@on_kexstate toy_lib (λ x, set_sentkexinit true (set_recvkexinit true (set_strict_kex true x)))
      (@on_kexdat toy_lib (λ x, set_session_id (Some (buf_of (replicate 32 9))) (set_dh_K (Some 12345)
         (set_hash (Some (buf_of (replicate 32 5))) x))) (toy_session [] [])))).

Lemma toy_kexdone_ok server : @kex_done toy_lib (toy_kexdone server) toy_newkeys toy_kex (buf_of (replicate 32 9)).
Proof.
  split_and!; try done.
  - apply toy_desc_law.
  - intros K [= <-]. by vm_compute.
  - exists toy_mac. done.
  - exists toy_mac. done.
Qed.

Lemma toy_suite : @suite_ok toy_lib toy_crypt toy_mac (dropbear_mode_none tt) (none_pair tt 16 32).
Proof.
  split_and!; try done.
  - apply toy_mode_ok.
  - eexists _, _. split_and!; [done|done|done|]. intros. by exists tt.
  - intros key m t [= <-]. split; [done|]. apply (Forall_replicate _ 32), u8_range.
Qed.

Lemma hashkeys_rfc4253_witness :
  @hashkeys toy_lib 40 [1; 2] 65 (toy_kexdone true) =
    Ok (rfc4253_key (λ m, replicate 32 (sum_bytes m)) [1; 2] 65 (replicate 32 9) 40, toy_kexdone true).
Proof.
  apply (@hashkeys_rfc4253 toy_lib (toy_kexdone true) toy_newkeys toy_kex (buf_of (replicate 32 9)) 40 [1; 2] 65);
    [done|done|done|apply toy_desc_law|done].
Defined.

Lemma derived_keys_match_witness :
  ∃ C' S' nkC' nkS',
    gen_new_keys (toy_kexdone false) = Ok (tt, C') ∧ gen_new_keys (toy_kexdone true) = Ok (tt, S') ∧
    newkeys C' = Some nkC' ∧ newkeys S' = Some nkS' ∧
    @linked toy_lib toy_crypt toy_mac (dropbear_mode_none tt) (none_pair tt 16 32) (k_trans nkC') (k_recv nkS').
Proof.
  destruct (@derived_keys_match toy_lib (toy_kexdone false) (toy_kexdone true) toy_newkeys toy_newkeys toy_kex
    (buf_of (replicate 32 9)) (buf_of (replicate 32 9))
    toy_crypt toy_mac (dropbear_mode_none tt) (none_pair tt 16 32)
    toy_crypt toy_mac (dropbear_mode_none tt) (none_pair tt 16 32)) as (C'&S'&nkC'&nkS'&H1&H2&H3&H4&H5&_);
    [done|done|apply toy_kexdone_ok|apply toy_kexdone_ok|done|done|apply toy_suite|apply toy_suite|done..|].
  by exists C', S', nkC', nkS'.
Defined.

#[local] Instance toy_zinit : @ZlibInit toy_lib.
Proof. constructor; by try eexists. Qed.

Lemma toy_newkeys_ready :
  @newkeys_ready toy_lib (toy_kexdone true) toy_keys toy_newkeys toy_kex (buf_of (replicate 32 9)) [] toy_mac tt tt.
Proof.
  destruct (toy_send_ok [] []) as (H1&H2&H3&H4&H5&H6&H7); [constructor|done|].
  destruct toy_sealing as [_ Hseal].
  split; [split_and!; assumption|]. do 3 (split; [done|]). split; [reflexivity|].
  split; [apply (Hseal tt); split; [decide_closed|by vm_compute]|].
  split; [apply toy_kexdone_ok|]. split_and!; reflexivity.
Qed.

Lemma newkeys_switch_witness :
  wp (do* @send_msg_newkeys toy_lib; let* s1 := get in do* recv_msg_newkeys; ret s1) no_exit
    (λ s1 s2, transseq (pkt s1) = 0 ∧ recvseq (pkt s1) = 3 ∧ kex_idle s2 ∧ recvseq (pkt s2) = 0)
    (toy_kexdone true).
Proof.
  pose proof (@newkeys_switch toy_lib toy_zinit (toy_kexdone true) toy_keys toy_newkeys toy_kex (buf_of (replicate 32 9)) []
    toy_mac tt tt toy_newkeys_ready eq_refl) as H. cbv zeta in H. destruct H as [H _].
  eapply wp_mono; [exact H|]. cbv beta. intros s1 s2 (_&_&H1&H2&_&H3&_&_&H4).
  split; [exact H1|]. split; [exact H2|]. split; [exact H3|exact H4].
Defined.
