(* ===== verification/KexInit.v ===== *)
(** * The KEXINIT messages

    Theorems about the first half of src/src/common-kex.c: what
    [send_msg_kexinit] writes, what [recv_msg_kexinit] makes of it at the
    other end, and that no message of the peer can make it go wrong. *)

From Stdlib Require Import ZArith Lia.
From stdpp Require Import base list strings sets.
From S2P Require Import Prelude.
From S2P Require Import Buffer.
From S2P Require Import Queue.
From S2P Require Import Random.
From S2P Require Import Algo.
From S2P Require Import Cipher.
From S2P Require Import KeyTypes.
From S2P Require Import Session.
From S2P Require Import Packet.
From S2P Require Import Instances.
From S2P Require Import PacketRecv.
From S2P Require Import PacketSend.
From S2P Require Import PacketStream.
From S2P Require Import Kex.
From S2P Require Import KexKeys.

(** ** The message *)

(** The eight name-lists of a KEXINIT. *)
Record offer := mkoffer {
  o_kex : list (list Z);
  o_sig : list (list Z);
  o_cipher_c2s : list (list Z);
  o_cipher_s2c : list (list Z);
  o_mac_c2s : list (list Z);
  o_mac_s2c : list (list Z);
  o_comp_c2s : list (list Z);
  o_comp_s2c : list (list Z)
}.

Definition names_ok (names : list (list Z)) : Prop :=
  names ≠ [] ∧ Forall name_ok names ∧ zlen names ≤ MAX_PROPOSED_ALGO ∧
  zlen (join_comma names) ≤ MAX_STRING_LEN.

Definition offer_ok (o : offer) : Prop :=
  names_ok (o_kex o) ∧ names_ok (o_sig o) ∧ names_ok (o_cipher_c2s o) ∧ names_ok (o_cipher_s2c o) ∧
  names_ok (o_mac_c2s o) ∧ names_ok (o_mac_s2c o) ∧ names_ok (o_comp_c2s o) ∧ names_ok (o_comp_s2c o).

(** After the cookie; RFC 4253 7.1. *)
Definition kexinit_body (o : offer) (follows : bool) : list Z :=
  algolist_wire (o_kex o) ++ algolist_wire (o_sig o) ++
  algolist_wire (o_cipher_c2s o) ++ algolist_wire (o_cipher_s2c o) ++
  algolist_wire (o_mac_c2s o) ++ algolist_wire (o_mac_s2c o) ++
  algolist_wire (o_comp_c2s o) ++ algolist_wire (o_comp_s2c o) ++
  STORE32H 0 ++ STORE32H 0 ++ [if follows then 1 else 0] ++ STORE32H 0.

Definition kexinit_wire (cookie : list Z) (o : offer) (follows : bool) : list Z :=
  SSH_MSG_KEXINIT :: cookie ++ kexinit_body o follows.

(** ** Reading name-lists *)

Section reading.
Context {CL : CryptoLib}.
Implicit Types (s : sshsession) (b : buffer) (nk : key_context).

(** [ses.payload] and [ses.newkeys] in focus. *)
Definition qv s b nk : sshsession := set_newkeys (Some nk) (on_pkt (set_payload (Some b)) s).

Lemma qv_self s b nk : payload (pkt s) = Some b → newkeys s = Some nk → s = qv s b nk.
Proof. destruct s as [? [] ? ? ? ? ? ?]; simpl. by intros -> ->. Qed.

Lemma wp_on_payload {A} (m : ST buffer A) E (Q : A → sshsession → Prop) s b nk :
  wp m E (λ a b', Q a (qv s b' nk)) b → wp (on_payload m) E Q (qv s b nk).
Proof. intros H. by eapply wp_zoom_ptr. Qed.

Lemma wp_newkeys_qv f E (Q : unit → sshsession → Prop) s b nk :
  Q tt (qv s b (f nk)) → wp (on_newkeys f) E Q (qv s b nk).
Proof. done. Qed.

(** The entry of [t] that both sides agree on, when the peer offers [names]. *)
Definition chosen {D M} (srv : bool) (t : list (algo_type D M)) (names : list (list Z)) (a : algo_type D M) : Prop :=
  a ∈ t ∧ Some (a_name a) = first_common (if srv then names else usable_names false t)
                                          (if srv then usable_names false t else names).

Definition common {D M} (srv : bool) (t : list (algo_type D M)) (names : list (list Z)) : Prop :=
  is_Some (first_common (if srv then names else usable_names false t)
                        (if srv then usable_names false t else names)).

Lemma algolist_wire_bytes names : Forall name_ok names → bytes_ok (algolist_wire names).
Proof.
  intros H. unfold algolist_wire. apply bytes_ok_app. split; [apply STORE32H_bytes|].
  apply join_bytes. eapply Forall_impl; [exact H|]. by intros ? [? _].
Qed.

(** A well-formed list is at the cursor: what a match makes of it. *)
Lemma wp_match {D M} (srv : bool) (t : list (algo_type D M)) kg names rest E Q s b nk :
  wf_buf b → table_ok t → names_ok names → at_cursor b (algolist_wire names ++ rest) → common srv t names →
  (∀ a g b', chosen srv t names a → wf_buf b' → at_cursor b' rest → b_data b' = b_data b → b_len b' = b_len b →
     Q (Some a, g) (qv s b' nk)) →
  wp (on_payload (buf_match_algo srv t kg)) E Q (qv s b nk).
Proof.
  intros Hwf Ht (Hne&Hn&Hc&Hj) Hat Hcom HQ. apply wp_on_payload.
  pose proof (at_cursor_app _ _ _ Hwf Hat) as [Hat1 Hat2]. pose proof Hat1 as [Hfit _].
  eapply wp_buf_match_algo; [done|done|exact Hat1|done..|]. cbv zeta.
  intros r g Hr Hin _. destruct Hcom as [n Hcom]. rewrite Hcom in Hr. destruct r as [a|]; [|done].
  injection Hr as Hr. apply HQ; [|apply wf_after_get; [done|apply zlen_nonneg|done]|done|done|done].
  split; [by apply Hin|]. rewrite Hcom. by f_equal.
Qed.

(** [buf_has_algo] looks at the list and leaves the cursor. *)
Lemma wp_has_algo algo names rest E Q s b nk :
  wf_buf b → names_ok names → at_cursor b (algolist_wire names ++ rest) →
  Q (bool_decide (algo ∈ names)) (qv s b nk) → wp (on_payload (buf_has_algo algo)) E Q (qv s b nk).
Proof.
  intros Hwf (Hne&Hn&Hc&Hj) Hat HQ. apply wp_on_payload.
  pose proof (at_cursor_app _ _ _ Hwf Hat) as [Hat1 _]. unfold algolist_wire in Hat1.
  apply at_cursor_app in Hat1 as [[Hl1 Hs1] [Hl2 Hs2]]; [|done].
  rewrite STORE32H_length in *. cbn [after_get set_pos b_pos b_len b_data] in Hl2, Hs2.
  pose proof (zlen_nonneg (join_comma names)). unfold MAX_STRING_LEN, MAX_CMD_LEN in Hj.
  assert (Hp : parse_names (join_comma names) = Some names).
  { assert (Hj0 : 0 ∉ join_comma names) by (apply join_no_nul; eapply Forall_impl; [exact Hn|]; intros ? (?&?&?&?); done).
    unfold parse_names. rewrite before_nul_id, existsb_nul, bool_decide_eq_false_2 by done.
    rewrite split_join; [|done|eapply Forall_impl; [exact Hn|]; intros ? (?&?&?&?); done]. by if_false. }
  unfold buf_has_algo. apply wp_bind, wp_gets, wp_bind, wp_remote_names; [done|..];
    rewrite Hs1, LOAD32H_STORE32H by lia; rewrite Hs2, Hp.
  - intros ? _ _ [= <-]. apply wp_bind, wp_buf_setpos; [|cbn; pose proof Hwf as (?&?&?&?); lia]. intros _. apply wp_ret.
    replace (existsb (bytes_eqb algo) names) with (bool_decide (algo ∈ names)); [by destruct b|].
    apply Bool.eq_iff_eq_true. rewrite bool_decide_eq_true, existsb_exists. unfold bytes_eqb. split.
    + intros Hin. exists algo. split; [by apply list_elem_of_In|by apply bool_decide_eq_true].
    + intros (x&Hin&Hx). apply bool_decide_eq_true in Hx as ->. by apply list_elem_of_In.
  - intros [?|[]]; [done|]. unfold MAX_STRING_LEN, MAX_CMD_LEN. lia.
Qed.

Lemma wp_eat_empty rest E (Q : unit → sshsession → Prop) s b nk :
  wf_buf b → at_cursor b (STORE32H 0 ++ rest) →
  (∀ b', wf_buf b' → at_cursor b' rest → b_data b' = b_data b → b_len b' = b_len b → Q tt (qv s b' nk)) →
  wp (on_payload buf_eatstring) E Q (qv s b nk).
Proof.
  intros Hwf Hat HQ. apply wp_on_payload.
  pose proof (at_cursor_app _ _ _ Hwf Hat) as [[Hl Hs] Hat2]. change (zlen (STORE32H 0)) with 4 in *.
  apply wp_buf_eatstring; [done|..]; rewrite Hs; change (LOAD32H (STORE32H 0)) with 0; [|lia].
  intros _ _. apply HQ; [by apply wf_after_get|done..].
Qed.
End reading.

(** ** Negotiation *)

Section negotiation.
Context {CL : CryptoLib} (env : kex_env).
Implicit Types (s : sshsession) (b : buffer) (nk : key_context) (o : offer).

(** The MAC of a direction: the cipher's own for AEAD ciphers. *)
Definition mac_chosen (srv : bool) (cipher : algo_type dropbear_cipher (dropbear_cipher_mode CS))
    (names : list (list Z)) (h : option (algo_type dropbear_hash unit)) : Prop :=
  match a_mode cipher with
  | Some mode =>
      match cm_aead_crypt mode with
      | Some _ => h = None
      | None => ∃ a, h = Some a ∧ chosen srv (sshhashes env) names a
      end
  | None => False
  end.

Definition hostkey_of (sigtype : Z) : Z :=
  if sigtype =? DROPBEAR_SIGNATURE_RSA_SHA256 then DROPBEAR_SIGNKEY_RSA else sigtype.

(** [nk] holds the algorithms a side negotiates with a peer that offers [o]. *)
Definition negotiated_as (srv : bool) (kd : kexdata) o nk : Prop :=
  ∃ kexA kex sig cc sc ch sh cz sz,
    chosen srv (sshkex env) (o_kex o) kexA ∧ a_data kexA = Some kex ∧
    chosen srv (sigalgs env) (o_sig o) sig ∧
    chosen srv (sshciphers env) (o_cipher_c2s o) cc ∧ chosen srv (sshciphers env) (o_cipher_s2c o) sc ∧
    mac_chosen srv cc (o_mac_c2s o) ch ∧ mac_chosen srv sc (o_mac_s2c o) sh ∧
    chosen srv (compress_algos_c2s kd) (o_comp_c2s o) cz ∧ chosen srv (compress_algos_s2c kd) (o_comp_s2c o) sz ∧
    let c2s := set_algos cc ch cz keydir_zero in
    let s2c := set_algos sc sh sz keydir_zero in
    nk = mkkeys (if srv then c2s else s2c) (if srv then s2c else c2s) (Some kex)
           (hostkey_of (a_val sig)) (a_val sig) 0.

(** The tables are sound and an algorithm of each kind is common. *)
Definition tables_ok (kd : kexdata) : Prop :=
  table_ok (sshkex env) ∧ table_ok (sigalgs env) ∧ table_ok (sshciphers env) ∧ table_ok (sshhashes env) ∧
  table_ok (compress_algos_c2s kd) ∧ table_ok (compress_algos_s2c kd) ∧
  Forall (λ a, is_Some (a_mode a)) (sshciphers env) ∧
  Forall (λ a, a_val a = DROPBEAR_SIGNATURE_RSA_SHA256 ∨ a_val a < DROPBEAR_SIGNKEY_NUM_NAMED) (sigalgs env).

Definition all_common (srv : bool) (kd : kexdata) o : Prop :=
  common srv (sshkex env) (o_kex o) ∧ (∀ a, chosen srv (sshkex env) (o_kex o) a → is_Some (a_data a)) ∧
  common srv (sigalgs env) (o_sig o) ∧
  common srv (sshciphers env) (o_cipher_c2s o) ∧ common srv (sshciphers env) (o_cipher_s2c o) ∧
  common srv (sshhashes env) (o_mac_c2s o) ∧ common srv (sshhashes env) (o_mac_s2c o) ∧
  common srv (compress_algos_c2s kd) (o_comp_c2s o) ∧ common srv (compress_algos_s2c kd) (o_comp_s2c o).

Lemma wp_mac_or_aead {S} srv cipher ha names err E (Q : option (algo_type dropbear_hash unit) → S → Prop) (s : S) :
  is_Some (a_mode cipher) → chosen srv (sshhashes env) names ha →
  (∀ h, mac_chosen srv cipher names h → Q h s) → wp (mac_or_aead cipher (Some ha) err) E Q s.
Proof.
  intros [mode Hm] Hc HQ. unfold mac_chosen in HQ. rewrite Hm in HQ. unfold mac_or_aead. rewrite Hm.
  apply wp_bind, wp_ret. destruct (cm_aead_crypt mode); [by apply wp_ret, HQ|].
  apply wp_bind, wp_ret, wp_ret, HQ. by exists ha.
Qed.

Lemma wp_signkey_type {S} sigtype E (Q : Z → S → Prop) (s : S) :
  sigtype = DROPBEAR_SIGNATURE_RSA_SHA256 ∨ sigtype < DROPBEAR_SIGNKEY_NUM_NAMED →
  Q (hostkey_of sigtype) s → wp (signkey_type_from_signature sigtype) E Q s.
Proof.
  intros Hv HQ. unfold signkey_type_from_signature, hostkey_of in *.
  destruct (Z.eqb_spec sigtype DROPBEAR_SIGNATURE_RSA_SHA256); [by apply wp_ret|].
  apply wp_bind. unfold dropbear_assert. if_true. by apply wp_ret, wp_ret.
Qed.

Definition strict_name (srv : bool) : list Z := if srv then SSH_STRICT_KEX_C else SSH_STRICT_KEX_S.

(** What reading the peer's lists leaves: the negotiated keys, and the strict
    kex flag set when the first KEXINIT carries the peer's marker. *)
Definition read_done s b o s' : Prop :=
  ∃ b' nk' ks x ig,
    s' = qv (set_kexstate ks (on_kexdat (set_allow_ext_info x) (on_pkt (set_ignorenext ig) s))) b' nk' ∧
    wf_buf b' ∧ b_data b' = b_data b ∧ b_len b' = b_len b ∧
    negotiated_as (isserver s) (kexdat s) o nk' ∧
    strict_kex ks = strict_kex (kexstate s) ||
      (negb (donefirstkex (kexstate s)) && bool_decide (strict_name (isserver s) ∈ o_kex o)) ∧
    donefirstkex ks = donefirstkex (kexstate s) ∧ sentkexinit ks = sentkexinit (kexstate s).

(** The parts of [KEXState] the theorems speak of. *)
Definition ks_same (ks ks' : KEXState) : Prop :=
  strict_kex ks' = strict_kex ks ∧ donefirstkex ks' = donefirstkex ks ∧ sentkexinit ks' = sentkexinit ks.

Lemma kexdat_self s : s = on_kexdat (set_allow_ext_info (allow_ext_info (kexdat s))) s.
Proof. by destruct s as [? ? ? ? ? [] ? ?]. Qed.
Lemma kexstate_self s : s = set_kexstate (kexstate s) s.
Proof. by destruct s. Qed.
Lemma ignorenext_self s : s = on_pkt (set_ignorenext (ignorenext (pkt s))) s.
Proof. by destruct s as [? [] ? ? ? ? ? ?]. Qed.

Lemma wp_ext_info (c : bool) names rest E (Q : unit → sshsession → Prop) s b nk :
  wf_buf b → names_ok names → at_cursor b (algolist_wire names ++ rest) →
  (∀ x, Q tt (qv (on_kexdat (set_allow_ext_info x) s) b nk)) →
  wp (when c (let* ext := on_payload (buf_has_algo SSH_EXT_INFO_C) in
              when ext (modify (on_kexdat (set_allow_ext_info true))))) E Q (qv s b nk).
Proof.
  intros Hwf Hn Hat HQ. pose proof (HQ (allow_ext_info (kexdat s))) as Hq. rewrite <-kexdat_self in Hq.
  destruct c; [|by apply wp_ret]. apply wp_bind. eapply wp_has_algo; [done..|].
  case_bool_decide; [apply wp_modify, (HQ true)|by apply wp_ret].
Qed.

Lemma wp_strict_kex (c : bool) marker names rest E (Q : unit → sshsession → Prop) s b nk :
  wf_buf b → names_ok names → at_cursor b (algolist_wire names ++ rest) →
  (∀ ks, strict_kex ks = strict_kex (kexstate s) || (c && bool_decide (marker ∈ names)) →
     donefirstkex ks = donefirstkex (kexstate s) → sentkexinit ks = sentkexinit (kexstate s) →
     Q tt (qv (set_kexstate ks s) b nk)) →
  wp (when c (let* strict := on_payload (buf_has_algo marker) in
              when strict (modify (on_kexstate (set_strict_kex true))))) E Q (qv s b nk).
Proof.
  intros Hwf Hn Hat HQ.
  assert (Hsame : c && bool_decide (marker ∈ names) = false → Q tt (qv s b nk)).
  { intros Hf. rewrite (kexstate_self s). apply HQ; [by rewrite Hf, orb_false_r|done|done]. }
  destruct c; [|by apply wp_ret, Hsame]. apply wp_bind. eapply wp_has_algo; [done..|].
  case_bool_decide; [|by apply wp_ret, Hsame]. apply wp_modify.
  apply (HQ (set_strict_kex true (kexstate s))); [by rewrite orb_true_r|done|done].
Qed.

Lemma wp_first_follows (c allgood : bool) E (Q : unit → sshsession → Prop) s b nk :
  (∀ ks ig, ks_same (kexstate s) ks → Q tt (qv (set_kexstate ks (on_pkt (set_ignorenext ig) s)) b nk)) →
  wp (when c (do* modify (on_kexstate (set_them_firstfollows true));
              when (negb allgood) (modify (on_pkt (set_ignorenext true))))) E Q (qv s b nk).
Proof.
  intros HQ. destruct c.
  - apply wp_bind, wp_modify. destruct allgood.
    + pose proof (HQ (set_them_firstfollows true (kexstate s)) (ignorenext (pkt s))) as Hq.
      rewrite <-ignorenext_self in Hq. by apply wp_ret, Hq.
    + by apply wp_modify, (HQ (set_them_firstfollows true (kexstate s)) true).
  - pose proof (HQ (kexstate s) (ignorenext (pkt s))) as Hq. rewrite <-ignorenext_self, <-kexstate_self in Hq.
    by apply wp_ret, Hq.
Qed.

Lemma wp_read_kex_algos E (Q : unit → sshsession → Prop) s b nk0 cookie o follows :
  wf_buf b → zlen cookie = 16 → at_cursor b (cookie ++ kexinit_body o follows) →
  tables_ok (kexdat s) → offer_ok o → all_common (isserver s) (kexdat s) o →
  (∀ s', read_done s b o s' → Q tt s') →
  wp (read_kex_algos env) E Q (qv s b nk0).
Proof.
  intros Hwf Hck Hat (Htk&Hts&Htc&Hth&Htz1&Htz2&Hmodes&Hsigs) (Hok&Hos&Hoc1&Hoc2&Hom1&Hom2&Hoz1&Hoz2)
    (Ck&Ckd&Cs&Cc1&Cc2&Cm1&Cm2&Cz1&Cz2) HQ.
  unfold read_kex_algos. pose proof (at_cursor_app _ _ _ Hwf Hat) as [[Hfit _] Hat1]. rewrite Hck in *.
  apply wp_bind, wp_on_payload, wp_buf_incrpos; [done|lia| |lia]. intros _.
  assert (Hwf1 : wf_buf (after_get 16 b)) by (apply wf_after_get; [done|lia|done]).
  set (b1 := after_get 16 b) in *. unfold kexinit_body in Hat1.
  apply wp_bind, wp_newkeys_qv.
  apply wp_bind. eapply wp_has_algo; [done|exact Hok|exact Hat1|]. set (kexguess2 := bool_decide _).
  apply wp_bind, wp_get. change (isserver (qv s b1 keys_zero)) with (isserver s).
  change (kexstate (qv s b1 keys_zero)) with (kexstate s). change (kexdat (qv s b1 keys_zero)) with (kexdat s).
  apply wp_bind. eapply wp_ext_info; [done|exact Hok|exact Hat1|]. intros x.
  apply wp_bind. eapply wp_strict_kex; [done|exact Hok|exact Hat1|]. intros ks1 Hst Hdf Hsk.
  change (kexstate (on_kexdat (set_allow_ext_info x) s)) with (kexstate s) in *.
  set (s1 := set_kexstate ks1 _). set (srv := isserver s) in *.
  apply wp_bind. eapply (wp_match srv); [done|exact Htk|exact Hok|exact Hat1|done|].
  intros kexA g1 b2 HkA Hwf2 Hat2 Hd2 Hl2.
  change (b_data b1) with (b_data b) in Hd2. change (b_len b1) with (b_len b) in Hl2. destruct (Ckd kexA HkA) as [kex Hkd]. rewrite Hkd.
  apply wp_bind, wp_ret, wp_bind, wp_newkeys_qv.
  apply wp_bind. eapply (wp_match srv); [done|exact Hts|exact Hos|exact Hat2|done|].
  intros sig g2 b3 Hsig Hwf3 Hat3 Hd3 Hl3.
  assert (Hsv : a_val sig = DROPBEAR_SIGNATURE_RSA_SHA256 ∨ a_val sig < DROPBEAR_SIGNKEY_NUM_NAMED)
    by (rewrite Forall_forall in Hsigs; apply Hsigs, Hsig).
  apply wp_bind, wp_ret, wp_bind, wp_newkeys_qv, wp_bind, wp_signkey_type; [done|].
  apply wp_bind, wp_newkeys_qv.
  apply wp_bind. eapply (wp_match srv); [done|exact Htc|exact Hoc1|exact Hat3|done|].
  intros cc gx b4 Hcc Hwf4 Hat4 Hd4 Hl4. apply wp_bind, wp_ret.
  apply wp_bind. eapply (wp_match srv); [done|exact Htc|exact Hoc2|exact Hat4|done|].
  intros sc gx2 b5 Hsc Hwf5 Hat5 Hd5 Hl5. apply wp_bind, wp_ret.
  assert (Hmc : is_Some (a_mode cc)) by (rewrite Forall_forall in Hmodes; apply Hmodes, Hcc).
  assert (Hms : is_Some (a_mode sc)) by (rewrite Forall_forall in Hmodes; apply Hmodes, Hsc).
  apply wp_bind. eapply (wp_match srv); [done|exact Hth|exact Hom1|exact Hat5|done|].
  intros ha1 gx3 b6 Hha1 Hwf6 Hat6 Hd6 Hl6. apply wp_bind. eapply wp_mac_or_aead; [done|exact Hha1|]. intros ch Hch.
  apply wp_bind. eapply (wp_match srv); [done|exact Hth|exact Hom2|exact Hat6|done|].
  intros ha2 gx4 b7 Hha2 Hwf7 Hat7 Hd7 Hl7. apply wp_bind. eapply wp_mac_or_aead; [done|exact Hha2|]. intros sh Hsh.
  apply wp_bind. eapply (wp_match srv); [done|exact Htz1|exact Hoz1|exact Hat7|done|].
  intros cz gx5 b8 Hcz Hwf8 Hat8 Hd8 Hl8. apply wp_bind, wp_ret.
  apply wp_bind. eapply (wp_match srv); [done|exact Htz2|exact Hoz2|exact Hat8|done|].
  intros sz gx6 b9 Hsz Hwf9 Hat9 Hd9 Hl9. apply wp_bind, wp_ret.
  apply wp_bind. eapply wp_eat_empty; [done|exact Hat9|]. intros b10 Hwf10 Hat10 Hd10 Hl10.
  apply wp_bind. eapply wp_eat_empty; [done|exact Hat10|]. intros b11 Hwf11 Hat11 Hd11 Hl11.
  apply at_cursor_app in Hat11 as [[Hl12 _] Hat12]; [|done].
  apply wp_bind, wp_on_payload, wp_bind, wp_buf_getbyte; [done| |change (zlen _) with 1 in Hl12; lia].
  intros _. apply wp_ret. change (zlen [_]) with 1 in *.
  assert (Hwf12 : wf_buf (after_get 1 b11)) by by apply wf_after_get.
  apply wp_bind, wp_first_follows. intros ks2 ig (Hst2&Hdf2&Hsk2).
  apply wp_bind, wp_newkeys_qv. destruct Hat12 as [Hl13 _]. change (zlen (STORE32H 0)) with 4 in Hl13.
  apply wp_bind, wp_on_payload, wp_buf_getint; [done| |lia]. intros _.
  assert (Hwf13 : wf_buf (after_get 4 (after_get 1 b11))) by by apply wf_after_get.
  set (nkF := if srv then _ else _).
  assert (Hneg : negotiated_as srv (kexdat s) o nkF).
  { exists kexA, kex, sig, cc, sc, ch, sh, cz, sz. split_and!; try done. unfold nkF. by destruct srv. }
  assert (Hfin : ∀ ks, ks_same ks2 ks →
    Q tt (qv (set_kexstate ks (on_kexdat (set_allow_ext_info x) (on_pkt (set_ignorenext ig) s)))
           (after_get 4 (after_get 1 b11)) nkF)).
  { intros ks (H1&H2&H3). apply HQ. eexists _, nkF, ks, x, ig. split_and!; try done; try congruence.
    - change (b_data b11 = b_data b). congruence.
    - change (b_len b11 = b_len b). congruence.
    - rewrite H1, Hst2. exact Hst.
    - rewrite H2, Hdf2. exact Hdf.
    - rewrite H3, Hsk2. exact Hsk. }
  unfold when. destruct (match send_kex_first_guess env with Some _ => _ | None => _ end); [apply wp_modify|apply wp_ret].
  - by apply (Hfin (set_our_first_follows_matches true ks2)).
  - by apply (Hfin ks2).
Qed.
End negotiation.

(** ** The exchange hash *)

(** One string of the exchange hash. *)
Definition hash_string (str : list Z) : list Z := STORE32H (zlen str) ++ str.

Section hashing.
Context {CL : CryptoLib} (env : kex_env).
Implicit Types (s : sshsession) (b : buffer) (nk : key_context) (o : offer).

Definition hv s hb : sshsession := on_kexdat (set_kexhashbuf (Some hb)) s.

Lemma wp_hash_putstring str acc E (Q : unit → sshsession → Prop) s hb :
  buf_acc acc hb → bytes_ok str → zlen acc + (4 + zlen str) ≤ b_size hb →
  (∀ hb', buf_acc (acc ++ hash_string str) hb' → b_size hb' = b_size hb → Q tt (hv s hb')) →
  wp (on_kexhashbuf (buf_putstring str)) E Q (hv s hb).
Proof.
  intros Hacc Hb Hr HQ. eapply wp_zoom_ptr; [done|]. pose proof (buf_acc_pos _ _ Hacc) as Hp.
  apply wp_buf_putstring; [apply Hacc|done| |lia]. intros _.
  apply (HQ (after_put (STORE32H (zlen str) ++ str) hb)); [|done].
  apply buf_acc_put; [done|by apply bytes_ok_app; split; [apply STORE32H_bytes|]|].
  rewrite zlen_app, STORE32H_length. lia.
Qed.

Lemma wp_put_remote acc E (Q : unit → sshsession → Prop) s hb b pb :
  payload (pkt s) = Some b → payload_beginning (pkt s) = pb → wf_buf b → 0 ≤ pb ≤ b_len b →
  let I := slice pb (b_len b - pb) (b_data b) in
  buf_acc acc hb → zlen acc + (4 + (b_len b - pb)) ≤ b_size hb →
  (∀ hb', buf_acc (acc ++ hash_string I) hb' → b_size hb' = b_size hb →
     Q tt (hv (on_pkt (set_payload (Some (set_pos pb b))) s) hb')) →
  wp put_remote_kexinit E Q (hv s hb).
Proof.
  intros Hpl Hpb Hwf Hb I Hacc Hr HQ. pose proof Hwf as (?&?&?&?). unfold BUF_MAX_SIZE in *.
  apply wp_bind, wp_get, wp_bind. eapply wp_zoom_ptr; [exact Hpl|].
  change (payload_beginning (pkt (hv s hb))) with (payload_beginning (pkt s)). rewrite Hpb.
  apply wp_buf_setpos; [|lia]. intros _. apply wp_bind. eapply wp_zoom_ptr; [done|].
  apply wp_bind, wp_get. cbn [b_len b_pos set_pos]. rewrite u32_small by lia.
  assert (Hwf' : wf_buf (set_pos pb b)) by (apply wf_set_pos; [done|lia]).
  apply wp_bind, wp_buf_getptr; [done|lia| |cbn; lia]. intros _. apply wp_mem_load; cbn; [lia|lia|lia|]. fold I.
  assert (HIl : zlen I = b_len b - pb) by (apply zlen_slice; lia).
  apply (wp_hash_putstring I acc E Q (on_pkt (set_payload (Some (set_pos pb b))) s) hb);
    [done|by apply bytes_ok_slice|lia|done].
Qed.

(** A session that has sent its KEXINIT [mine] and has the peer's in
    [ses.payload], the cursor after the message type. *)
Definition kexinit_ready s b nk mine cookie o follows : Prop :=
  let theirs := kexinit_wire cookie o follows in
  let pb := payload_beginning (pkt s) in
  sentkexinit (kexstate s) = true ∧ recvkexinit (kexstate s) = false ∧ newkeys s = Some nk ∧
  (∃ tk, transkexinit (kexdat s) = Some tk ∧ wf_buf tk ∧ contents tk = mine) ∧
  payload (pkt s) = Some b ∧ wf_buf b ∧ 0 ≤ pb ∧ b_pos b = pb + 1 ∧ b_len b = pb + zlen theirs ∧
  slice pb (zlen theirs) (b_data b) = theirs ∧ zlen cookie = 16 ∧
  bytes_ok (LOCAL_IDENT env) ∧ bytes_ok (remoteident (kexdat s)) ∧
  zlen (LOCAL_IDENT env) + zlen (remoteident (kexdat s)) + zlen mine + b_len b + KEXHASHBUF_MAX_INTS ≤ BUF_MAX_SIZE ∧
  tables_ok env (kexdat s) ∧ offer_ok o ∧ all_common env (isserver s) (kexdat s) o.

(** V_C, V_S, I_C, I_S, in this order on both sides. *)
Definition hash_prefix (VC VS IC IS : list Z) : list Z :=
  hash_string VC ++ hash_string VS ++ hash_string IC ++ hash_string IS.

Definition recv_done s mine theirs o s' : Prop :=
  let V := LOCAL_IDENT env in
  let V' := remoteident (kexdat s) in
  ∃ nk' hb, newkeys s' = Some nk' ∧ negotiated_as env (isserver s) (kexdat s) o nk' ∧
    kexhashbuf (kexdat s') = Some hb ∧
    buf_acc (if isserver s then hash_prefix V' V theirs mine else hash_prefix V V' mine theirs) hb ∧
    recvkexinit (kexstate s') = true ∧
    requirenext (pkt s') = (if isserver s then SSH_MSG_KEXDH_INIT else SSH_MSG_KEXDH_REPLY) ∧
    strict_kex (kexstate s') = strict_kex (kexstate s) ||
      (negb (donefirstkex (kexstate s)) && bool_decide (strict_name (isserver s) ∈ o_kex o)).

Definition first_strict s o : bool :=
  negb (donefirstkex (kexstate s)) &&
  (strict_kex (kexstate s) || bool_decide (strict_name (isserver s) ∈ o_kex o)).

Lemma kexinit_cursor b pb cookie o follows :
  let theirs := kexinit_wire cookie o follows in
  wf_buf b → 0 ≤ pb → b_pos b = pb + 1 → b_len b = pb + zlen theirs →
  slice pb (zlen theirs) (b_data b) = theirs → at_cursor b (cookie ++ kexinit_body o follows).
Proof.
  intros theirs Hwf Hpb Hpos Hlen Hs. pose proof (zlen_nonneg theirs).
  assert (Hat : at_cursor (set_pos pb b) ([SSH_MSG_KEXINIT] ++ cookie ++ kexinit_body o follows))
    by (split; [cbn [set_pos b_pos b_len]; rewrite Hlen; done|exact Hs]).
  apply at_cursor_app in Hat as [_ Hat]; [|apply wf_set_pos; [done|lia]].
  change (zlen [SSH_MSG_KEXINIT]) with 1 in Hat.
  replace (after_get 1 (set_pos pb b)) with b in Hat; [done|].
  destruct b; cbn in *. subst. done.
Qed.

Lemma hash_string_length x : zlen (hash_string x) = 4 + zlen x.
Proof. unfold hash_string. by rewrite zlen_app, STORE32H_length. Qed.

(** [start_kexhash], given what reading the lists leads to. *)
Lemma wp_start_kexhash E (P : sshsession → Prop) (Q : unit → sshsession → Prop) s hb b pb ident mine :
  let I := slice pb (b_len b - pb) (b_data b) in
  let V := LOCAL_IDENT env in
  payload_beginning (pkt s) = pb → wf_buf b → 0 ≤ pb ≤ b_len b →
  buf_acc [] hb → bytes_ok V → bytes_ok ident → bytes_ok mine →
  zlen V + zlen ident + zlen mine + b_len b + 16 ≤ b_size hb →
  wp (read_kex_algos env) E (λ _ s', ∃ s1 b', s' = hv s1 hb ∧ P s1 ∧
    payload (pkt s1) = Some b' ∧ wf_buf b' ∧ b_data b' = b_data b ∧ b_len b' = b_len b ∧
    payload_beginning (pkt s1) = pb) (hv s hb) →
  (∀ s1 b' hb', P s1 →
     buf_acc (if isserver s then hash_prefix ident V I mine else hash_prefix V ident mine I) hb' →
     Q tt (on_pkt (set_requirenext (if isserver s then SSH_MSG_KEXDH_INIT else SSH_MSG_KEXDH_REPLY))
             (hv (on_pkt (set_payload (Some b')) s1) hb'))) →
  wp (start_kexhash env ident mine) E Q (hv s hb).
Proof.
  intros I V Hpb Hwf Hb Hacc HV HV' Hm Hroom Hread HQ.
  pose proof (zlen_nonneg V). pose proof (zlen_nonneg ident). pose proof (zlen_nonneg mine).
  pose proof Hwf as (?&?&?&?). assert (HI : zlen I = b_len b - pb) by (apply zlen_slice; lia).
  unfold hash_prefix in HQ. apply wp_bind, wp_get. change (isserver (hv s hb)) with (isserver s).
  destruct (isserver s); cbn [negb]; apply wp_bind; (eapply wp_mono; [exact Hread|]);
    intros _ st (s1&b'&->&HP&Hpl&Hwf'&Hd'&Hl'&Hpb').
  - apply wp_bind. eapply wp_hash_putstring; [done|done|rewrite zlen_nil; lia|]. intros h1 Ha1 Hs1.
    apply wp_bind. eapply wp_hash_putstring; [done|done|rewrite !zlen_app, !hash_string_length, zlen_nil; fold V; lia|].
    intros h2 Ha2 Hs2.
    apply wp_bind. eapply wp_put_remote; [exact Hpl|exact Hpb'|done|lia|done|
      rewrite !zlen_app, !hash_string_length, zlen_nil; fold V; lia|].
    rewrite Hd', Hl'. fold I. intros h3 Ha3 Hs3.
    apply wp_bind. eapply wp_hash_putstring; [done|done|rewrite !zlen_app, !hash_string_length, zlen_nil; fold V; lia|].
    intros h4 Ha4 Hs4. apply wp_modify, HQ; [done|]. by rewrite <-!app_assoc in Ha4.
  - apply wp_bind. eapply wp_hash_putstring; [done|done|rewrite zlen_nil; fold V; lia|]. intros h1 Ha1 Hs1.
    apply wp_bind. eapply wp_hash_putstring; [done|done|rewrite !zlen_app, !hash_string_length, zlen_nil; fold V; lia|].
    intros h2 Ha2 Hs2.
    apply wp_bind. eapply wp_hash_putstring; [done|done|rewrite !zlen_app, !hash_string_length, zlen_nil; fold V; lia|].
    intros h3 Ha3 Hs3.
    apply wp_bind. eapply wp_put_remote; [exact Hpl|exact Hpb'|done|lia|done|
      rewrite !zlen_app, !hash_string_length, zlen_nil; fold V; lia|].
    rewrite Hd', Hl'. fold I. intros h4 Ha4 Hs4. apply wp_modify, HQ; [done|]. by rewrite <-!app_assoc in Ha4.
Qed.

(** The state after the lists were read, with the hash buffer in focus. *)
Definition lists_read s ks x ig b nk : sshsession :=
  qv (set_kexstate ks (on_kexdat (set_allow_ext_info x) (on_pkt (set_ignorenext ig) s))) b nk.

Lemma lists_read_hv s hb ks x ig b nk : lists_read (hv s hb) ks x ig b nk = hv (lists_read s ks x ig b nk) hb.
Proof. by destruct s as [? [] ? ? ? [] ? ?]. Qed.

Lemma wp_read_lists E s hb b nk cookie o follows :
  payload (pkt s) = Some b → newkeys s = Some nk →
  wf_buf b → zlen cookie = 16 → at_cursor b (cookie ++ kexinit_body o follows) →
  tables_ok env (kexdat s) → offer_ok o → all_common env (isserver s) (kexdat s) o →
  wp (read_kex_algos env) E (λ _ s', ∃ s1 b', s' = hv s1 hb ∧
    (∃ b2 nk' ks x ig, s1 = lists_read s ks x ig b2 nk' ∧
       negotiated_as env (isserver s) (kexdat s) o nk' ∧
       strict_kex ks = strict_kex (kexstate s) ||
         (negb (donefirstkex (kexstate s)) && bool_decide (strict_name (isserver s) ∈ o_kex o)) ∧
       donefirstkex ks = donefirstkex (kexstate s)) ∧
    payload (pkt s1) = Some b' ∧ wf_buf b' ∧ b_data b' = b_data b ∧ b_len b' = b_len b ∧
    payload_beginning (pkt s1) = payload_beginning (pkt s)) (hv s hb).
Proof.
  intros Hpl Hn Hwf Hck Hat Htab Hoff Hcom. pattern (hv s hb) at 1. rewrite (qv_self (hv s hb) b nk) by done.
  eapply (wp_read_kex_algos env E _ (hv s hb) b nk cookie o follows); [done..|].
  intros s' (b'&nk'&ks&x&ig&->&Hwf'&Hd'&Hl'&Hneg&Hst&Hdf&_).
  exists (lists_read s ks x ig b' nk'), b'. split; [apply lists_read_hv|]. split_and!; try done.
  by exists b', nk', ks, x, ig.
Qed.

(** The end of [recv_msg_kexinit]: the check of strict kex. *)
Lemma wp_kexinit_end E (Q : unit → sshsession → Prop) s s1 o :
  strict_kex (kexstate s1) = strict_kex (kexstate s) ||
    (negb (donefirstkex (kexstate s)) && bool_decide (strict_name (isserver s) ∈ o_kex o)) →
  donefirstkex (kexstate s1) = donefirstkex (kexstate s) → recvseq (pkt s1) = recvseq (pkt s) →
  (first_strict s o = true → recvseq (pkt s) ≠ 1 → E "First packet wasn't kexinit"%string) →
  ((first_strict s o = true → recvseq (pkt s) = 1) →
     Q tt (on_kexstate (set_recvkexinit true) (on_kexdat (set_transkexinit None) s1))) →
  wp (do* modify (on_kexdat (set_transkexinit None));
      do* modify (on_kexstate (set_recvkexinit true));
      let* s := get in
      exit_if (strict_kex (kexstate s) && negb (donefirstkex (kexstate s)) && negb (recvseq (pkt s) =? 1))
        "First packet wasn't kexinit") E Q s1.
Proof.
  intros Hst Hdf Hrs HE HQ. apply wp_bind, wp_modify, wp_bind, wp_modify, wp_bind, wp_get.
  set (sF := on_kexstate _ _) in *.
  assert (Hstrict : strict_kex (kexstate sF) && negb (donefirstkex (kexstate sF)) = first_strict s o).
  { change (strict_kex (kexstate s1) && negb (donefirstkex (kexstate s1)) = first_strict s o).
    rewrite Hst, Hdf. unfold first_strict.
    by destruct (strict_kex (kexstate s)), (donefirstkex (kexstate s)), (bool_decide _). }
  change (recvseq (pkt sF)) with (recvseq (pkt s1)). rewrite Hstrict, Hrs. apply wp_exit_if; intros Hc.
  - apply andb_true_iff in Hc as [Hc1 Hc2]. apply HE; [done|]. lia.
  - apply HQ. intros Hf. rewrite Hf in Hc. simpl in Hc. lia.
Qed.

Lemma wp_recv_msg_kexinit E (Q : unit → sshsession → Prop) s b nk mine cookie o follows :
  kexinit_ready s b nk mine cookie o follows →
  (first_strict s o = true → recvseq (pkt s) ≠ 1 → E "First packet wasn't kexinit"%string) →
  ((first_strict s o = true → recvseq (pkt s) = 1) →
    ∀ s', recv_done s mine (kexinit_wire cookie o follows) o s' → Q tt s') →
  wp (recv_msg_kexinit env) E Q s.
Proof.
  intros (Hsk&Hrk&Hn&(tk&Htk&Hwtk&Hmine)&Hpl&Hwf&Hpb&Hpos&Hlen&Hs&Hck&HV&HV'&Hsize&Htab&Hoff&Hcom) HE HQ.
  set (theirs := kexinit_wire cookie o follows) in *. set (V := LOCAL_IDENT env) in *.
  set (V' := remoteident (kexdat s)) in *. set (pb := payload_beginning (pkt s)) in *.
  assert (Hkl : b_len tk = zlen mine) by by rewrite <-Hmine, contents_length.
  pose proof (zlen_nonneg V). pose proof (zlen_nonneg V'). pose proof (zlen_nonneg mine). pose proof Hwf as (?&?&?&?).
  unfold KEXHASHBUF_MAX_INTS, MAX_PUBKEY_SIZE, MAX_KEX_PARTS, BUF_MAX_SIZE in *.
  unfold recv_msg_kexinit. apply wp_bind, wp_get, wp_bind. rewrite Hsk. cbn [negb when]. apply wp_ret.
  apply wp_bind, wp_get, wp_bind, wp_exit_if; rewrite Hrk; [done|]. intros _.
  apply wp_bind. eapply wp_ptr; [exact Htk|]. apply wp_bind. eapply wp_ptr; [exact Hpl|].
  change (slice 0 (b_len tk) (b_data tk)) with (contents tk). rewrite Hmine, Hkl. fold V V'. rewrite u32_small by (unfold KEXHASHBUF_MAX_INTS, MAX_PUBKEY_SIZE, MAX_KEX_PARTS; lia).
  set (n := zlen V + zlen V' + zlen mine + b_len b + KEXHASHBUF_MAX_INTS).
  assert (Hn0 : zlen V + zlen V' + zlen mine + b_len b + 16 ≤ n ∧ n ≤ BUF_MAX_SIZE)
    by (unfold n, BUF_MAX_SIZE, KEXHASHBUF_MAX_INTS, MAX_PUBKEY_SIZE, MAX_KEX_PARTS; lia).
  apply wp_bind, wp_buf_new; [|lia]. intros _. set (hb0 := mkbuf (zeros n) 0 0 n).
  apply wp_bind, wp_modify. change (on_kexdat (set_kexhashbuf (Some hb0)) s) with (hv s hb0).
  apply wp_bind. eapply (wp_start_kexhash E _ _ s hb0 b pb V' mine);
    [done|done|lia|apply buf_acc_new; lia|done|done|rewrite <-Hmine; by apply contents_bytes|
     fold V; change (b_size hb0) with n; lia|
     eapply (wp_read_lists E s hb0 b nk cookie o follows); try done; by apply (kexinit_cursor b pb)|].
  replace (b_len b - pb) with (zlen theirs) by lia. rewrite Hs.
  intros s1 b' hb' (b2&nk'&ks&x&ig&->&Hneg&Hst&Hdf) Hacc.
  eapply wp_kexinit_end; [exact Hst|exact Hdf|done|exact HE|]. intros Hseq. apply HQ; [done|].
  exists nk', hb'. by split_and!.
Qed.
End hashing.

(** ** Writing the message *)

Lemma puts_algolist {D M} (t : list (algo_type D M)) :
  table_ok t → puts (buf_put_algolist t) (algolist_wire (usable_names false t)).
Proof.
  intros (Ht&_&_&_). split.
  - apply algolist_wire_bytes, usable_names_Forall. done.
  - intros b E Q Hwf Hr HQ. apply wp_buf_put_algolist_all; [done| |done|done].
    eapply Forall_impl; [exact Ht|]. by intros ? [? _].
Qed.

Section sending.
Context {CL : CryptoLib} (env : kex_env).
Implicit Types (s : sshsession) (b pl : buffer).

Lemma wp_put_step m w wire rest E (Q : unit → sshsession → Prop) s kc d pl r :
  puts m w → filling wire (w ++ rest) pl →
  (∀ pl', filling wire rest pl' → b_size pl' = b_size pl → Q tt (tv s kc d pl' r)) →
  wp (on_writepayload m) E Q (tv s kc d pl r).
Proof.
  intros [Hb Hm] Hf HQ. apply wp_on_writepayload. destruct (filling_put w wire rest pl Hf Hb) as (Hwf&Hr&Hf').
  apply Hm; [done|done|]. by apply HQ.
Qed.

(** The random cookie, written through a pointer. *)
Lemma wp_put_cookie (k : ST sshsession unit) wire_of E (Q : unit → sshsession → Prop) s kc d pl r acc :
  buf_acc acc pl → wf_rng r → (∀ c, zlen c = 16 → zlen (acc ++ c ++ wire_of) ≤ b_size pl) →
  (∀ cookie pl' r', zlen cookie = 16 → bytes_ok cookie → wf_rng r' →
     filling (acc ++ cookie ++ wire_of) wire_of pl' → b_size pl' = b_size pl →
     wp k E Q (tv s kc d pl' r')) →
  wp (let* p := on_writepayload (buf_getwriteptr 16) in
      let* cookie := on_rng (genrandom 16) in
      do* on_writepayload (mem_store p cookie);
      do* on_writepayload (buf_incrwritepos 16);
      k) E Q (tv s kc d pl r).
Proof.
  intros Hacc Hr Hroom HQ. pose proof Hacc as (Hwf&Hpl&_). pose proof Hwf as (?&?&?&?).
  pose proof (buf_acc_pos _ _ Hacc) as Hp. pose proof (zlen_nonneg wire_of).
  pose proof (Hroom (zeros 16) eq_refl) as H16. rewrite !zlen_app in H16. change (zlen (zeros 16)) with 16 in H16.
  apply wp_bind, wp_on_writepayload, wp_buf_getwriteptr; [done|lia| |lia]. intros _.
  apply wp_bind, wp_on_rng. eapply wp_exit_mono; [apply (wp_genrandom 16); [done|lia|]|by intros ? []].
  intros cookie r' Hr' Hcl Hcb. apply wp_bind, wp_on_writepayload, wp_mem_store; [lia|lia|].
  apply wp_bind, wp_on_writepayload, wp_buf_incrwritepos.
  { split_and!; cbn [b_data b_len b_pos b_size]; try lia; [rewrite zlen_splice; lia|by apply bytes_ok_splice]. }
  { lia. }
  2: { cbn [b_data b_len b_pos b_size]. lia. }
  cbn [b_data b_len b_pos b_size]. intros _.
  assert (Hput : mkbuf (splice (b_pos pl) cookie (b_data pl)) (Z.max (b_len pl) (b_pos pl + 16)) (b_pos pl + 16) (b_size pl)
                 = after_put cookie pl) by (unfold after_put; by rewrite Hcl).
  rewrite Hput. apply (HQ cookie); try done. exists (acc ++ cookie). split_and!.
  - apply buf_acc_put; [done|done|lia].
  - by rewrite <-app_assoc.
  - by apply Hroom.
Qed.

(** What a side offers. *)
Definition offer_of (kd : kexdata) : offer :=
  mkoffer (usable_names false (sshkex env)) (usable_names false (sigalgs env))
    (usable_names false (sshciphers env)) (usable_names false (sshciphers env))
    (usable_names false (sshhashes env)) (usable_names false (sshhashes env))
    (usable_names false (compress_algos_c2s kd)) (usable_names false (compress_algos_s2c kd)).

Definition follows : bool := match send_kex_first_guess env with Some _ => true | None => false end.

(** The writes of [send_msg_kexinit]. *)
Definition write_kexinit (k : ST sshsession unit) : ST sshsession unit :=
  do* on_writepayload (buf_put_algolist (sshkex env));
  do* on_writepayload (buf_put_algolist (sigalgs env));
  do* on_writepayload (buf_put_algolist (sshciphers env));
  do* on_writepayload (buf_put_algolist (sshciphers env));
  do* on_writepayload (buf_put_algolist (sshhashes env));
  do* on_writepayload (buf_put_algolist (sshhashes env));
  let* s := get in
  do* on_writepayload (buf_put_algolist (compress_algos_c2s (kexdat s)));
  do* on_writepayload (buf_put_algolist (compress_algos_s2c (kexdat s)));
  do* on_writepayload (buf_putstring []);
  do* on_writepayload (buf_putstring []);
  do* on_writepayload (buf_putbyte (match send_kex_first_guess env with Some _ => 1 | None => 0 end));
  do* on_writepayload (buf_putint 0);
  k.

Lemma wp_write_kexinit k E (Q : unit → sshsession → Prop) s kc d pl r wire :
  tables_ok env (kexdat s) → filling wire (kexinit_body (offer_of (kexdat s)) follows) pl →
  (∀ pl', buf_acc wire pl' → b_size pl' = b_size pl → wp k E Q (tv s kc d pl' r)) →
  wp (write_kexinit k) E Q (tv s kc d pl r).
Proof.
  intros (Htk&Hts&Htc&Hth&Htz1&Htz2&_) Hf HQ. unfold kexinit_body, offer_of in Hf.
  cbn [o_kex o_sig o_cipher_c2s o_cipher_s2c o_mac_c2s o_mac_s2c o_comp_c2s o_comp_s2c] in Hf.
  apply wp_bind. eapply wp_put_step; [by apply puts_algolist|exact Hf|]. intros p1 H1 E1.
  apply wp_bind. eapply wp_put_step; [by apply puts_algolist|exact H1|]. intros p2 H2 E2.
  apply wp_bind. eapply wp_put_step; [by apply puts_algolist|exact H2|]. intros p3 H3 E3.
  apply wp_bind. eapply wp_put_step; [by apply puts_algolist|exact H3|]. intros p4 H4 E4.
  apply wp_bind. eapply wp_put_step; [by apply puts_algolist|exact H4|]. intros p5 H5 E5.
  apply wp_bind. eapply wp_put_step; [by apply puts_algolist|exact H5|]. intros p6 H6 E6.
  apply wp_bind, wp_get. change (kexdat (tv s kc d p6 r)) with (kexdat s).
  apply wp_bind. eapply wp_put_step; [by apply puts_algolist|exact H6|]. intros p7 H7 E7.
  apply wp_bind. eapply wp_put_step; [by apply puts_algolist|exact H7|]. intros p8 H8 E8.
  apply wp_bind. eapply wp_put_step; [apply puts_empty_string|exact H8|]. intros p9 H9 E9.
  apply wp_bind. eapply wp_put_step; [apply puts_empty_string|exact H9|]. intros p10 H10 E10.
  assert (Hb : puts (buf_putbyte (match send_kex_first_guess env with Some _ => 1 | None => 0 end))
                    [if follows then 1 else 0]).
  { unfold follows. destruct (send_kex_first_guess env); by apply puts_byte. }
  apply wp_bind. eapply wp_put_step; [exact Hb|exact H10|]. intros p11 H11 E11.
  apply wp_bind. eapply (wp_put_step _ _ _ []); [apply puts_int|by rewrite app_nil_r|]. intros p12 H12 E12.
  destruct H12 as (acc&Hacc&<-&_). rewrite app_nil_r in HQ. apply HQ; [done|congruence].
Qed.

(** What sending KEXINIT leaves, with the message on the queue. *)
Definition kexinit_sent s kc bufs s' : Prop :=
  ∃ cookie wb pad ct cs, let wire := kexinit_wire cookie (offer_of (kexdat s)) follows in
    zlen cookie = 16 ∧ queue_rep (writequeue (pkt s')) (bufs ++ [wb]) ∧ remaining wb = ct ∧
    seal (k_trans kc) (transseq (pkt s)) (plain_packet wire pad) = Some (ct, cs) ∧
    transkexinit (kexdat s') = Some (buf_of wire) ∧ newkeys s' = Some keys_zero ∧
    sentkexinit (kexstate s') = true ∧ dataallowed (pkt s') = false ∧
    keys s' = Some (set_k_trans (set_cipher_state cs (k_trans kc)) kc) ∧
    transseq (pkt s') = u32 (transseq (pkt s) + 1).

Lemma wp_send_msg_kexinit E (Q : unit → sshsession → Prop) s kc bufs mac :
  send_ok s kc bufs → b_len (writepayload (pkt s)) = 0 → b_pos (writepayload (pkt s)) = 0 →
  tables_ok env (kexdat s) → algo_mac (k_trans kc) = Some mac →
  (∀ p, sendable p → can_seal (k_trans kc) mac (transseq (pkt s)) p) →
  17 + zlen (kexinit_body (offer_of (kexdat s)) follows) ≤ Z.min (b_size (writepayload (pkt s))) 1000000 →
  send_kex_first_guess env = None → dataallowed (pkt s) = true →
  (∀ s', kexinit_sent s kc bufs s' → Q tt s') →
  wp (send_msg_kexinit env) E Q s.
Proof.
  intros Hsend Hl0 Hp0 Htab Hmac Hseal Hroom Hguess Hda HQ.
  pose proof Hsend as (Hk&Hd&Hr&Hq&Hql&Hwf&Hcomp). set (body := kexinit_body _ _) in *.
  rewrite (tv_self s kc Hk). set (d := k_trans kc) in *. set (pl := writepayload (pkt s)) in *.
  assert (Hacc : buf_acc [] pl) by (split_and!; [done|lia|unfold contents; rewrite Hl0; apply slice_0]).
  pose proof (zlen_nonneg body). unfold send_msg_kexinit.
  apply wp_bind, wp_on_writepayload, wp_buf_putbyte; [done| |lia]. intros _.
  change (u8 SSH_MSG_KEXINIT) with SSH_MSG_KEXINIT.
  assert (Hacc1 : buf_acc [SSH_MSG_KEXINIT] (after_put [SSH_MSG_KEXINIT] pl)).
  { apply (buf_acc_put [] [SSH_MSG_KEXINIT]); [done|decide_closed|]. change (0 + 1 ≤ b_size pl). lia. }
  eapply (wp_put_cookie _ body); [exact Hacc1|exact Hr| |].
  { intros c Hc. rewrite !zlen_app, Hc. change (1 + (16 + zlen body) ≤ b_size pl). lia. }
  intros cookie pl1 r1 Hck Hcb Hr1 Hf1 Hs1. set (wire := [SSH_MSG_KEXINIT] ++ cookie ++ body) in *.
  eapply (wp_write_kexinit _ E Q s kc d pl1 r1 wire); [done|exact Hf1|]. intros pl2 Hacc2 Hs2.
  pose proof Hacc2 as (Hwf2&_&Hc2). apply wp_bind, wp_get, wp_bind, wp_buf_newcopy; [exact Hwf2|].
  change (writepayload (pkt (tv s kc d pl2 r1))) with pl2. rewrite Hc2.
  apply wp_bind, wp_modify. set (s1 := on_kexdat (set_transkexinit (Some (buf_of wire))) (tv s kc d pl2 r1)).
  assert (Hwl : zlen wire = 17 + zlen body) by (unfold wire; rewrite !zlen_app, Hck; change (zlen [SSH_MSG_KEXINIT]) with 1; lia).
  assert (Hsd : sendable wire) by (split; [rewrite <-Hc2; by apply contents_bytes|lia]).
  apply wp_bind. eapply (wp_encrypt_packet _ _ s1 kc bufs SSH_MSG_KEXINIT (cookie ++ body) mac);
    [|exact Hc2|exact Hsd|done|by apply Hseal|by change (dataallowed (pkt s1)) with (dataallowed (pkt s)); rewrite Hda|].
  { split_and!; try done. change (keys s1) with (Some (set_k_trans d kc)). by destruct kc. }
  intros _ pad ct cs wb q' r' plain _ _ _ _ Hsl _ Hwb Hcw Hp Hlw Hq' _.
  apply wp_bind, wp_modify, wp_bind, wp_modify, wp_bind, wp_modify. rewrite Hguess. apply wp_ret, HQ.
  exists cookie, wb, pad, ct, cs. split_and!; try done.
  unfold remaining. rewrite Hp, Z.sub_0_r. exact Hcw.
Qed.
End sending.

(** ** Agreement *)

Section agreement.
Context {CL : CryptoLib}.

(** Two tables that mean the same algorithms by the same names, as the tables
    of two Dropbear programs do whatever their options select. *)
Definition same_meaning {D M} (t t' : list (algo_type D M)) : Prop :=
  ∀ a a', a ∈ t → a' ∈ t' → a_name a = a_name a' →
    a_val a = a_val a' ∧ a_data a = a_data a' ∧ a_mode a = a_mode a'.

Lemma chosen_agree {D M} (t t' : list (algo_type D M)) a a' :
  same_meaning t t' → chosen false t (usable_names false t') a → chosen true t' (usable_names false t) a' →
  a_val a = a_val a' ∧ a_data a = a_data a' ∧ a_mode a = a_mode a'.
Proof.
  intros Hs [Ha Hn] [Ha' Hn']. apply Hs; [done|done|].
  assert (H : Some (a_name a) = Some (a_name a')) by (rewrite Hn, Hn'; done). by injection H.
Qed.

Lemma set_algos_agree c c' h h' z z' :
  a_data c = a_data c' → a_mode c = a_mode c' → option_map a_data h = option_map a_data h' →
  a_val z = a_val z' → set_algos c h z keydir_zero = set_algos c' h' z' keydir_zero.
Proof.
  intros Hd Hm Hh Hz. unfold set_algos. rewrite Hd, Hm, Hz.
  destruct h, h'; simpl in Hh; try discriminate; [injection Hh as ->|]; done.
Qed.

Definition same_tables (envC envS : kex_env) (kdC kdS : kexdata) : Prop :=
  same_meaning (sshkex envC) (sshkex envS) ∧ same_meaning (sigalgs envC) (sigalgs envS) ∧
  same_meaning (sshciphers envC) (sshciphers envS) ∧ same_meaning (sshhashes envC) (sshhashes envS) ∧
  same_meaning (compress_algos_c2s kdC) (compress_algos_c2s kdS) ∧
  same_meaning (compress_algos_s2c kdC) (compress_algos_s2c kdS).

Lemma mac_agree envC envS c c' h h' :
  same_meaning (sshhashes envC) (sshhashes envS) → a_mode c = a_mode c' →
  mac_chosen envC false c (usable_names false (sshhashes envS)) h →
  mac_chosen envS true c' (usable_names false (sshhashes envC)) h' →
  option_map a_data h = option_map a_data h'.
Proof.
  intros Hs Hm HC HS. unfold mac_chosen in *. rewrite Hm in HC. destruct (a_mode c') as [mode|]; [|done].
  destruct (cm_aead_crypt mode); [by subst|]. destruct HC as (a&->&Ha), HS as (a'&->&Ha').
  cbn [option_map]. f_equal. eapply chosen_agree; done.
Qed.

Lemma negotiated_agree envC envS kdC kdS nkC nkS :
  same_tables envC envS kdC kdS →
  negotiated_as envC false kdC (offer_of envS kdS) nkC → negotiated_as envS true kdS (offer_of envC kdC) nkS →
  k_trans nkC = k_recv nkS ∧ k_recv nkC = k_trans nkS ∧ algo_kex nkC = algo_kex nkS ∧
  algo_hostkey nkC = algo_hostkey nkS ∧ algo_signature nkC = algo_signature nkS.
Proof.
  intros (Mk&Ms&Mc&Mh&Mz1&Mz2)
    (kA&kex&sig&cc&sc&ch&sh&cz&sz&HkA&Hkd&Hsig&Hcc&Hsc&Hch&Hsh&Hcz&Hsz&->)
    (kA'&kex'&sig'&cc'&sc'&ch'&sh'&cz'&sz'&HkA'&Hkd'&Hsig'&Hcc'&Hsc'&Hch'&Hsh'&Hcz'&Hsz'&->).
  cbn [offer_of o_kex o_sig o_cipher_c2s o_cipher_s2c o_mac_c2s o_mac_s2c o_comp_c2s o_comp_s2c] in *.
  destruct (chosen_agree _ _ _ _ Mk HkA HkA') as (_&Hk&_). rewrite Hkd, Hkd' in Hk. injection Hk as ->.
  destruct (chosen_agree _ _ _ _ Ms Hsig Hsig') as (Hv&_&_). rewrite Hv.
  destruct (chosen_agree _ _ _ _ Mc Hcc Hcc') as (_&Hd1&Hm1).
  destruct (chosen_agree _ _ _ _ Mc Hsc Hsc') as (_&Hd2&Hm2).
  destruct (chosen_agree _ _ _ _ Mz1 Hcz Hcz') as (Hz1&_&_).
  destruct (chosen_agree _ _ _ _ Mz2 Hsz Hsz') as (Hz2&_&_).
  cbn [k_trans k_recv algo_kex algo_hostkey algo_signature].
  split_and!; [| |done|done|done]; apply set_algos_agree; try done.
  - eapply mac_agree; [exact Mh|exact Hm1|exact Hch|exact Hch'].
  - eapply mac_agree; [exact Mh|exact Hm2|exact Hsh|exact Hsh'].
Qed.
End agreement.

(** ** Safety on any message *)

Section safety.
Context {CL : CryptoLib} (env : kex_env).
Implicit Types (s : sshsession) (b : buffer) (nk : key_context).

(** The tables fit the arrays of the matcher, and ciphers have a mode. *)
Definition tables_fit (kd : kexdata) : Prop :=
  zlen (sshkex env) ≤ MAX_PROPOSED_ALGO ∧ zlen (sigalgs env) ≤ MAX_PROPOSED_ALGO ∧
  zlen (sshciphers env) ≤ MAX_PROPOSED_ALGO ∧ zlen (sshhashes env) ≤ MAX_PROPOSED_ALGO ∧
  zlen (compress_algos_c2s kd) ≤ MAX_PROPOSED_ALGO ∧ zlen (compress_algos_s2c kd) ≤ MAX_PROPOSED_ALGO ∧
  Forall (λ a, is_Some (a_mode a)) (sshciphers env).

(** The buffer after some reading. *)
Definition still (b b' : buffer) : Prop := wf_buf b' ∧ b_data b' = b_data b ∧ b_len b' = b_len b.

Lemma still_trans b b' b'' : still b b' → still b' b'' → still b b''.
Proof. intros (_&?&?) (?&?&?). split_and!; [done|congruence|congruence]. Qed.

Lemma still_get n b : wf_buf b → 0 ≤ n → b_pos b + n ≤ b_len b → still b (after_get n b).
Proof. intros. split_and!; [by apply wf_after_get|done|done]. Qed.

Lemma wp_match_safe {D M} (t : list (algo_type D M)) srv kg (Q : option (algo_type D M) * bool → sshsession → Prop) s b0 b nk :
  still b0 b → zlen t ≤ MAX_PROPOSED_ALGO →
  (∀ r g b', (∀ a, r = Some a → a ∈ t) → still b0 b' → Q (r, g) (qv s b' nk)) →
  wp (on_payload (buf_match_algo srv t kg)) any_exit Q (qv s b nk).
Proof.
  intros Hst Ht HQ. pose proof Hst as (Hwf&_). apply wp_on_payload, wp_buf_match_algo_safe; [done|done|].
  intros r g n Hr Hn Hfit. apply HQ; [intros a Ha; by apply Hr|]. by eapply still_trans, still_get.
Qed.

Lemma wp_has_safe algo (Q : bool → sshsession → Prop) s b nk :
  wf_buf b → (∀ r, Q r (qv s b nk)) → wp (on_payload (buf_has_algo algo)) any_exit Q (qv s b nk).
Proof. intros Hwf HQ. apply wp_on_payload, wp_buf_has_algo_safe; done. Qed.

Lemma wp_matched_safe {S A} (o : option A) err (Q : A → S → Prop) (s : S) :
  (∀ a, o = Some a → Q a s) → wp (matched o err) any_exit Q s.
Proof. intros HQ. destruct o; [by apply wp_ret, HQ|done]. Qed.

Lemma wp_mac_or_aead_safe {S} cipher ha err (Q : option (algo_type dropbear_hash unit) → S → Prop) (s : S) :
  is_Some (a_mode cipher) → (∀ h, Q h s) → wp (mac_or_aead cipher ha err) any_exit Q s.
Proof.
  intros [mode Hm] HQ. unfold mac_or_aead. rewrite Hm. apply wp_bind, wp_ret.
  destruct (cm_aead_crypt mode); [by apply wp_ret|]. apply wp_bind, wp_matched_safe. intros. by apply wp_ret.
Qed.

Lemma wp_signkey_safe {S} sigtype (Q : Z → S → Prop) (s : S) :
  (∀ v, Q v s) → wp (signkey_type_from_signature sigtype) any_exit Q s.
Proof.
  intros HQ. unfold signkey_type_from_signature. destruct (sigtype =? _); [by apply wp_ret|].
  apply wp_bind. unfold dropbear_assert. destruct (sigtype <? _); [by apply wp_ret, wp_ret|done].
Qed.

Lemma wp_eat_safe (Q : unit → sshsession → Prop) s b0 b nk :
  still b0 b → (∀ b', still b0 b' → Q tt (qv s b' nk)) → wp (on_payload buf_eatstring) any_exit Q (qv s b nk).
Proof.
  intros Hst HQ. pose proof Hst as (Hwf&_). apply wp_on_payload, wp_buf_eatstring; [done| |done].
  intros Hfit Hn. apply HQ. eapply still_trans, still_get; [done|done|lia|lia].
Qed.

(** The flags at the start, on any first list. *)
Lemma wp_flags_safe srv df marker (Q : unit → sshsession → Prop) s b nk (k : ST sshsession unit) :
  wf_buf b →
  (∀ ks x, wp k any_exit Q (qv (set_kexstate ks (on_kexdat (set_allow_ext_info x) s)) b nk)) →
  wp (do* when (srv && negb df)
        (let* ext := on_payload (buf_has_algo SSH_EXT_INFO_C) in
         when ext (modify (on_kexdat (set_allow_ext_info true))));
      do* when (negb df)
        (let* strict := on_payload (buf_has_algo marker) in
         when strict (modify (on_kexstate (set_strict_kex true))));
      k) any_exit Q (qv s b nk).
Proof.
  intros Hwf HQ.
  assert (Hk : ∀ x, wp (do* when (negb df)
        (let* strict := on_payload (buf_has_algo marker) in
         when strict (modify (on_kexstate (set_strict_kex true))));
      k) any_exit Q (qv (on_kexdat (set_allow_ext_info x) s) b nk)).
  { intros x. pose proof (HQ (kexstate s) x) as Hsame.
    change (kexstate s) with (kexstate (on_kexdat (set_allow_ext_info x) s)) in Hsame. rewrite <-kexstate_self in Hsame.
    apply wp_bind. destruct df; cbn [negb when]; [by apply wp_ret|].
    apply wp_bind, wp_has_safe; [done|]. intros []; cbn [when]; [apply wp_modify, (HQ (set_strict_kex true (kexstate s)) x)|by apply wp_ret]. }
  pose proof (Hk (allow_ext_info (kexdat s))) as Hsame. rewrite <-kexdat_self in Hsame.
  apply wp_bind. destruct (srv && negb df); cbn [when]; [|by apply wp_ret].
  apply wp_bind, wp_has_safe; [done|]. intros []; cbn [when]; [apply wp_modify, (Hk true)|by apply wp_ret].
Qed.

Lemma wp_read_kex_algos_safe (Q : unit → sshsession → Prop) s b nk0 :
  wf_buf b → tables_fit (kexdat s) →
  (∀ ks x ig b' nk', still b b' → Q tt (lists_read s ks x ig b' nk')) →
  wp (read_kex_algos env) any_exit Q (qv s b nk0).
Proof.
  intros Hwf (Htk&Hts&Htc&Hth&Htz1&Htz2&Hmodes) HQ. rewrite Forall_forall in Hmodes.
  unfold read_kex_algos. apply wp_bind, wp_on_payload, wp_buf_incrpos; [done|lia| |done]. intros Hfit.
  assert (Hb1 : still b (after_get 16 b)) by (apply still_get; [done|lia|done]). set (b1 := after_get 16 b) in *.
  apply wp_bind, wp_newkeys_qv, wp_bind, wp_has_safe; [apply Hb1|]. intros kg. apply wp_bind, wp_get.
  change (isserver (qv s b1 keys_zero)) with (isserver s).
  change (kexstate (qv s b1 keys_zero)) with (kexstate s). change (kexdat (qv s b1 keys_zero)) with (kexdat s).
  apply wp_flags_safe; [apply Hb1|]. intros ks x. set (s1 := set_kexstate ks _). set (srv := isserver s).
  apply wp_bind. eapply wp_match_safe; [exact Hb1|done|]. intros kexA g1 b2 _ Hb2.
  apply wp_bind, wp_matched_safe. intros kex _. apply wp_bind, wp_newkeys_qv.
  apply wp_bind. eapply wp_match_safe; [exact Hb2|done|]. intros sigA g2 b3 _ Hb3.
  apply wp_bind, wp_matched_safe. intros sig _. apply wp_bind, wp_newkeys_qv, wp_bind, wp_signkey_safe.
  intros hk. apply wp_bind, wp_newkeys_qv.
  apply wp_bind. eapply wp_match_safe; [exact Hb3|done|]. intros ccA g3 b4 Hcc Hb4.
  apply wp_bind, wp_matched_safe. intros cc Hcc'. apply Hcc in Hcc'.
  apply wp_bind. eapply wp_match_safe; [exact Hb4|done|]. intros scA g4 b5 Hsc Hb5.
  apply wp_bind, wp_matched_safe. intros sc Hsc'. apply Hsc in Hsc'.
  apply wp_bind. eapply wp_match_safe; [exact Hb5|done|]. intros h1 g5 b6 _ Hb6.
  apply wp_bind, wp_mac_or_aead_safe; [by apply Hmodes|]. intros ch.
  apply wp_bind. eapply wp_match_safe; [exact Hb6|done|]. intros h2 g6 b7 _ Hb7.
  apply wp_bind, wp_mac_or_aead_safe; [by apply Hmodes|]. intros sh.
  apply wp_bind. eapply wp_match_safe; [exact Hb7|done|]. intros z1 g7 b8 _ Hb8.
  apply wp_bind, wp_matched_safe. intros cz _.
  apply wp_bind. eapply wp_match_safe; [exact Hb8|done|]. intros z2 g8 b9 _ Hb9.
  apply wp_bind, wp_matched_safe. intros sz _.
  apply wp_bind. eapply wp_eat_safe; [exact Hb9|]. intros b10 Hb10.
  apply wp_bind. eapply wp_eat_safe; [exact Hb10|]. intros b11 Hb11.
  apply wp_bind, wp_on_payload, wp_bind, wp_buf_getbyte; [apply Hb11| |done]. intros Hf11. apply wp_ret.
  assert (Hb12 : still b (after_get 1 b11)) by (eapply still_trans, still_get; [exact Hb11|apply Hb11|lia|lia]).
  apply wp_bind, wp_first_follows. intros ks2 ig _. apply wp_bind, wp_newkeys_qv.
  apply wp_bind, wp_on_payload, wp_buf_getint; [apply Hb12| |done]. intros Hf12.
  set (nkF := if srv then _ else _).
  assert (Hfin : ∀ ks, Q tt (lists_read s ks x ig (after_get 4 (after_get 1 b11)) nkF)).
  { intros. apply HQ. eapply still_trans, still_get; [exact Hb12|apply Hb12|lia|done]. }
  unfold when. destruct (match send_kex_first_guess env with Some _ => _ | None => _ end); [apply wp_modify|apply wp_ret].
  - apply (Hfin (set_our_first_follows_matches true ks2)).
  - apply (Hfin ks2).
Qed.

(** A session that awaits the peer's KEXINIT and has some payload. *)
Definition kexinit_awaited s b nk tk : Prop :=
  sentkexinit (kexstate s) = true ∧ newkeys s = Some nk ∧
  transkexinit (kexdat s) = Some tk ∧ wf_buf tk ∧
  payload (pkt s) = Some b ∧ wf_buf b ∧ 0 ≤ payload_beginning (pkt s) ≤ b_len b ∧
  bytes_ok (LOCAL_IDENT env) ∧ bytes_ok (remoteident (kexdat s)) ∧
  zlen (LOCAL_IDENT env) + zlen (remoteident (kexdat s)) + b_len tk + b_len b + KEXHASHBUF_MAX_INTS ≤ BUF_MAX_SIZE ∧
  tables_fit (kexdat s).
End safety.

(** ** The properties of the KEXINIT exchange *)

(** C13: The KEXINIT exchange agrees, in the first key exchange of a session
    (the KEXINIT is the first packet received).  When client and server each have sent a
    KEXINIT with the lists of their tables and process the other's, and an
    algorithm of each kind is common, both complete [recv_msg_kexinit] with
    the same key exchange method and host key algorithm, with the client's
    transmit direction set up exactly as the server's receive direction and
    the other way round, and both have put the same bytes into the exchange
    hash: V_C, V_S, I_C, I_S. *)
Theorem kexinit_agreement {CL : CryptoLib} (envC envS : kex_env) (C S : sshsession) bC bS nkC0 nkS0
    cookieC cookieS :
  let oC := offer_of envC (kexdat C) in
  let oS := offer_of envS (kexdat S) in
  let IC := kexinit_wire cookieC oC (follows envC) in
  let IS := kexinit_wire cookieS oS (follows envS) in
  isserver C = false → isserver S = true →
  kexinit_ready envC C bC nkC0 IC cookieS oS (follows envS) →
  kexinit_ready envS S bS nkS0 IS cookieC oC (follows envC) →
  remoteident (kexdat C) = LOCAL_IDENT envS → remoteident (kexdat S) = LOCAL_IDENT envC →
  same_tables envC envS (kexdat C) (kexdat S) →
  recvseq (pkt C) = 1 → recvseq (pkt S) = 1 →
  ∃ C' S' nkC nkS hC hS,
    recv_msg_kexinit envC C = Ok (tt, C') ∧ recv_msg_kexinit envS S = Ok (tt, S') ∧
    newkeys C' = Some nkC ∧ newkeys S' = Some nkS ∧
    k_trans nkC = k_recv nkS ∧ k_recv nkC = k_trans nkS ∧ algo_kex nkC = algo_kex nkS ∧
    algo_hostkey nkC = algo_hostkey nkS ∧ algo_signature nkC = algo_signature nkS ∧
    kexhashbuf (kexdat C') = Some hC ∧ kexhashbuf (kexdat S') = Some hS ∧
    contents hC = hash_prefix (LOCAL_IDENT envC) (LOCAL_IDENT envS) IC IS ∧ contents hS = contents hC ∧
    requirenext (pkt C') = SSH_MSG_KEXDH_REPLY ∧ requirenext (pkt S') = SSH_MSG_KEXDH_INIT.
Proof.
  intros oC oS IC IS HC HS HrC HrS HiC HiS Htab HqC HqS.
  destruct (wp_no_exit_run (recv_msg_kexinit envC) (λ _ s', recv_done envC C IC IS oS s') C)
    as ([]&C'&HrunC&nkC&hC&HnC&HnegC&HhC&HaccC&_&HreqC&_).
  { eapply wp_recv_msg_kexinit; [exact HrC|by rewrite HqC|by intros _]. }
  destruct (wp_no_exit_run (recv_msg_kexinit envS) (λ _ s', recv_done envS S IS IC oC s') S)
    as ([]&S'&HrunS&nkS&hS&HnS&HnegS&HhS&HaccS&_&HreqS&_).
  { eapply wp_recv_msg_kexinit; [exact HrS|by rewrite HqS|by intros _]. }
  rewrite HC in HnegC, HaccC, HreqC. rewrite HS in HnegS, HaccS, HreqS. rewrite HiC in HaccC. rewrite HiS in HaccS.
  destruct (negotiated_agree _ _ _ _ _ _ Htab HnegC HnegS) as (H1&H2&H3&H4&H5).
  destruct HaccC as (_&_&HcC), HaccS as (_&_&HcS).
  exists C', S', nkC, nkS, hC, hS. rewrite HcC, HcS. split_and!; done.
Qed.

(** Strict kex starts with KEXINIT.  When the peer's first KEXINIT carries
    the strict kex marker (or strict kex is on already) and any packet came
    before it, [recv_msg_kexinit] ends the session; otherwise it completes. *)
Theorem strict_kex_first_packet {CL : CryptoLib} (env : kex_env) (s : sshsession) b nk mine cookie o flw :
  kexinit_ready env s b nk mine cookie o flw →
  if first_strict s o && negb (recvseq (pkt s) =? 1)
  then recv_msg_kexinit env s = Exit "First packet wasn't kexinit"
  else ∃ s', recv_msg_kexinit env s = Ok (tt, s') ∧ recvkexinit (kexstate s') = true ∧
         (negb (donefirstkex (kexstate s)) = true → strict_kex (kexstate s') = first_strict s o).
Proof.
  intros Hr.
  pose proof (wp_recv_msg_kexinit env (λ e, e = "First packet wasn't kexinit"%string ∧
      first_strict s o && negb (recvseq (pkt s) =? 1) = true)
    (λ _ s', first_strict s o && negb (recvseq (pkt s) =? 1) = false ∧
       recv_done env s mine (kexinit_wire cookie o flw) o s') s b nk mine cookie o flw Hr) as H.
  assert (Hwp : wp (recv_msg_kexinit env) (λ e, e = "First packet wasn't kexinit"%string ∧
      first_strict s o && negb (recvseq (pkt s) =? 1) = true)
    (λ _ s', first_strict s o && negb (recvseq (pkt s) =? 1) = false ∧
       recv_done env s mine (kexinit_wire cookie o flw) o s') s).
  { apply H.
    - intros Hf Hq. split; [done|]. rewrite Hf. by rewrite (proj2 (Z.eqb_neq _ _) Hq).
    - intros Hq s' Hd. split; [|done]. destruct (first_strict s o); [|done]. by rewrite Hq. }
  unfold wp in Hwp. destruct (recv_msg_kexinit env s) as [[[] s']|e|w]; [|destruct Hwp as [-> ->]; done|done].
  destruct Hwp as [-> (nk'&hb&_&_&_&_&Hrk&_&Hst)]. exists s'. split_and!; [done|done|].
  intros Hd. rewrite Hst, Hd. unfold first_strict. by rewrite Hd.
Qed.

(** [send_msg_kexinit] sends the message of RFC 4253 7.1: one packet goes
    on the queue, sealed under the keys in use, whose payload is the message
    type, a 16-byte random cookie, the lists of the tables, two empty language
    lists, the guess flag and a zero word.  The same bytes are kept for the
    exchange hash, and no data packets are allowed until the new keys. *)
Theorem kexinit_offered {CL : CryptoLib} (env : kex_env) (s : sshsession) kc bufs mac :
  send_ok s kc bufs → b_len (writepayload (pkt s)) = 0 → b_pos (writepayload (pkt s)) = 0 →
  tables_ok env (kexdat s) → algo_mac (k_trans kc) = Some mac →
  (∀ p, sendable p → can_seal (k_trans kc) mac (transseq (pkt s)) p) →
  17 + zlen (kexinit_body (offer_of env (kexdat s)) (follows env)) ≤ Z.min (b_size (writepayload (pkt s))) 1000000 →
  send_kex_first_guess env = None → dataallowed (pkt s) = true →
  wp (send_msg_kexinit env) no_exit (λ _ s', kexinit_sent env s kc bufs s') s.
Proof. intros. by eapply wp_send_msg_kexinit. Qed.

(** C15: No KEXINIT of a peer can make the program misbehave, once the program
    has sent its own (as both do before they read the first packet; a later
    exchange that the peer starts is not covered).  Whatever bytes the message
    holds, [recv_msg_kexinit] stays inside its buffers (the one
    for the exchange hash is large enough) and either ends the session or
    returns with the exchange started. *)
Theorem recv_kexinit_safe {CL : CryptoLib} (env : kex_env) (s : sshsession) b nk tk :
  kexinit_awaited env s b nk tk →
  wp (recv_msg_kexinit env) any_exit
    (λ _ s', recvkexinit (kexstate s') = true ∧ is_Some (newkeys s') ∧
       ∃ hb, kexhashbuf (kexdat s') = Some hb ∧ wf_buf hb) s.
Proof.
  intros (Hsk&Hn&Htk&Hwtk&Hpl&Hwf&Hpb&HV&HV'&Hsize&Hfit).
  set (V := LOCAL_IDENT env) in *. set (V' := remoteident (kexdat s)) in *.
  pose proof (zlen_nonneg V). pose proof (zlen_nonneg V'). pose proof Hwf as (?&?&?&?). pose proof Hwtk as (?&?&?&?).
  unfold recv_msg_kexinit. apply wp_bind, wp_get, wp_bind. rewrite Hsk. cbn [negb when]. apply wp_ret.
  apply wp_bind, wp_get, wp_bind, wp_exit_if; [done|]. intros _.
  apply wp_bind. eapply wp_ptr; [exact Htk|]. apply wp_bind. eapply wp_ptr; [exact Hpl|].
  change (slice 0 (b_len tk) (b_data tk)) with (contents tk). fold V V'.
  unfold KEXHASHBUF_MAX_INTS, MAX_PUBKEY_SIZE, MAX_KEX_PARTS, BUF_MAX_SIZE in *. rewrite u32_small by lia.
  set (n := zlen V + zlen V' + b_len tk + b_len b + _). apply wp_bind, wp_buf_new; [|done]. intros Hnmax. set (hb0 := mkbuf (zeros n) 0 0 n).
  apply wp_bind, wp_modify. change (on_kexdat (set_kexhashbuf (Some hb0)) s) with (hv s hb0).
  apply wp_bind. eapply (wp_start_kexhash env any_exit (λ s1, is_Some (newkeys s1)) _ s hb0 b
    (payload_beginning (pkt s)) V' (contents tk));
    [done|done|lia|apply buf_acc_new; unfold n, BUF_MAX_SIZE; lia|done|done|by apply contents_bytes| | |].
  { rewrite contents_length by done. fold V. change (b_size hb0) with n. unfold n. lia. }
  { pattern (hv s hb0) at 1. rewrite (qv_self (hv s hb0) b nk) by done.
    eapply (wp_read_kex_algos_safe env); [done|exact Hfit|]. intros ks x ig b' nk' (Hwf'&Hd'&Hl').
    rewrite lists_read_hv. exists (lists_read s ks x ig b' nk'), b'. split_and!; done. }
  intros s1 b' hb' Hnk Hacc. apply wp_bind, wp_modify, wp_bind, wp_modify, wp_bind, wp_get, wp_exit_if; [done|].
  intros _. split_and!; [done|exact Hnk|]. exists hb'. split; [done|]. apply Hacc.
Qed.

(** The session once the exchange hash is [H]. *)
Definition hashed {CL : CryptoLib} (H : list Z) (s : sshsession) : sshsession :=
  on_kexdat (λ x, (match session_id x with Some _ => id | None => set_session_id (Some (buf_of H)) end)
                    (set_kexhashbuf None (set_hash (Some (buf_of H)) x))) s.

Lemma wp_finish_kexhashbuf {CL : CryptoLib} E (Q : unit → sshsession → Prop) (s : sshsession) nk kex hb :
  newkeys s = Some nk → algo_kex nk = Some kex → hash_law (k_hash_desc kex) →
  kexhashbuf (kexdat s) = Some hb → wf_buf hb →
  Q tt (hashed (hd_fn (k_hash_desc kex) (contents hb)) s) → wp finish_kexhashbuf E Q s.
Proof.
  intros Hn Hk [Hsz Hlaw] Hhb Hwf HQ. destruct (Hlaw (contents hb)) as [Hl Hb].
  unfold MAX_HASH_SIZE in Hsz. set (desc := k_hash_desc kex) in *. set (H := hd_fn desc (contents hb)) in *.
  pose proof Hwf as (?&?&?&?).
  apply wp_bind, wp_get, wp_bind. eapply wp_ptr; [exact Hn|]. apply wp_bind. eapply wp_ptr; [exact Hk|].
  fold desc. apply wp_bind. eapply wp_zoom_ptr; [exact Hhb|].
  apply wp_bind, wp_buf_setpos; [|lia]. intros _. apply wp_bind, wp_get. cbn [set_pos b_len].
  assert (Hw0 : wf_buf (set_pos 0 hb)) by (apply wf_set_pos; [done|lia]).
  apply wp_bind, wp_buf_getptr; [done|lia| |cbn [set_pos b_pos b_len]; lia]. intros _.
  apply wp_mem_load; cbn [set_pos b_pos b_len b_data]; [lia|lia|lia|]. fold (contents hb).
  apply wp_bind, wp_buf_new; [|unfold BUF_MAX_SIZE; lia]. intros _.
  set (n := hd_hashsize desc) in *. assert (Hwn : wf_buf (mkbuf (zeros n) 0 0 n)) by (apply wf_new; unfold BUF_MAX_SIZE; lia).
  apply wp_bind, wp_on_new, wp_bind, wp_buf_getwriteptr; [done|lia| |cbn [b_pos b_size]; lia]. intros _.
  apply wp_bind, wp_mem_store; cbn [b_pos b_data]; [lia|rewrite zlen_zeros; fold H; lia|]. fold H.
  apply wp_buf_setlen; cbn [b_pos b_data b_len b_size]; [|lia]. intros _.
  assert (Hspl : splice 0 H (zeros n) = H) by (rewrite <-Hl; apply splice_zeros). rewrite Hspl.
  replace (mkbuf H n _ n) with (buf_of H) by (unfold buf_of; rewrite Hl; f_equal; lia).
  assert (Hch : contents (buf_of H) = H) by apply slice_full.
  apply wp_bind, wp_modify, wp_bind, wp_modify. unfold hashed in HQ. destruct s as [? ? ? ? ? [sid ? ? ? ? ? ? ? ? ?] ? ?].
  cbn [kexdat session_id] in *. destruct sid as [sid|]; [exact HQ|].
  apply wp_bind, wp_buf_newcopy; [|rewrite Hch; exact HQ].
  apply wf_buf_of; [done|unfold BUF_MAX_SIZE; lia].
Qed.

(** The exchange hash and the session id.  [finish_kexhashbuf] hashes
    exactly the collected bytes with the negotiated hash into [ses.hash]; the
    hash of the first exchange becomes the session id, and later exchanges
    leave the session id as it is. *)
Theorem session_id_is_first_hash {CL : CryptoLib} (s : sshsession) nk kex hb :
  newkeys s = Some nk → algo_kex nk = Some kex → hash_law (k_hash_desc kex) →
  kexhashbuf (kexdat s) = Some hb → wf_buf hb →
  let H := hd_fn (k_hash_desc kex) (contents hb) in
  ∃ s' h, finish_kexhashbuf s = Ok (tt, s') ∧ hash (kexdat s') = Some h ∧ contents h = H ∧
    kexhashbuf (kexdat s') = None ∧
    session_id (kexdat s') = match session_id (kexdat s) with Some sid => Some sid | None => Some (buf_of H) end.
Proof.
  intros Hn Hk Hlaw Hhb Hwf H.
  assert (Hwp : wp finish_kexhashbuf no_exit (λ _ s', s' = hashed H s) s) by (by eapply wp_finish_kexhashbuf).
  apply wp_no_exit_run in Hwp as ([]&s'&Hrun&->). exists (hashed H s), (buf_of H).
  split; [done|]. clear. unfold hashed. destruct s as [? ? ? ? ? [[] ? ? ? ? ? ? ? ? ?] ? ?]; cbn [kexdat session_id on_kexdat];
    (split_and!; [done|apply slice_full|done|done]).
Qed.

(** ** Witnesses *)

Lemma table_names_ok {D M} (t : list (algo_type D M)) : table_ok t → names_ok (usable_names false t).
Proof.
  intros (Ht&Hl&Hne&Hj). split_and!; [done| | |done].
  - by apply usable_names_Forall.
  - pose proof (usable_names_count t). lia.
Qed.

Lemma tables_offer_ok {CL : CryptoLib} env kd : tables_ok env kd → offer_ok (offer_of env kd).
Proof. intros (?&?&?&?&?&?&_). split_and!; by apply table_names_ok. Qed.

Definition toy_env : @kex_env toy_lib :=
  @mkenv toy_lib
    [mkalgo (bstr "toykex") 0 (Some toy_kex) true None;
     mkalgo SSH_STRICT_KEX_S 0 None true None; mkalgo SSH_STRICT_KEX_C 0 None true None]
    [mkalgo (bstr "ssh-ed25519") 5 None true None]
    [mkalgo (bstr "toy") 0 (Some toy_crypt) true (Some (dropbear_mode_none tt))]
    [mkalgo (bstr "hmac-toy") 0 (Some toy_mac) true None]
    false (bstr "SSH-2.0-toy") None.

Definition toy_kexdat : kexdata :=
  mkkexdata None None None None None None ssh_nocompress ssh_nocompress false (bstr "SSH-2.0-toy").
Definition toy_offer : offer := offer_of toy_env toy_kexdat.
Definition toy_kexinit : list Z := kexinit_wire (zeros 16) toy_offer false.

(** A fresh session that has sent its KEXINIT and received [msg] as packet
    number [seq - 1]. *)
Definition toy_awaiting (server : bool) (seq : Z) (msg : list Z) : @sshsession toy_lib :=
  @mkses toy_lib server
    (mkpkt (mkbuf (zeros 2000) 0 0 2000) (mkqueue ∅ None None 0) 0 None
       (Some (mkbuf msg (zlen msg) 1 (zlen msg))) 0 1 seq false 0 false 0 [] 0 0 0 0)
    (mkkexstate true false false false false false false false false false 0 false 0 0)
    (Some toy_keys) (Some keys_zero)
    (set_transkexinit (Some (buf_of toy_kexinit)) toy_kexdat) false (toy_world [] []).

Lemma toy_tables kd :
  compress_algos_c2s kd = ssh_nocompress → compress_algos_s2c kd = ssh_nocompress → @tables_ok toy_lib toy_env kd.
Proof.
  intros H1 H2. unfold tables_ok. rewrite H1, H2. split_and!; decide_closed.
Qed.

Lemma toy_common srv : @all_common toy_lib toy_env srv toy_kexdat toy_offer.
Proof.
  split; [by destruct srv; eexists|]. split; [|by destruct srv; split_and!; eexists].
  intros a [Ha Hn]. unfold toy_env in Ha; cbn [sshkex] in Ha.
  apply elem_of_cons in Ha as [->|Ha]; [by eexists|].
  exfalso. assert (Hf : Some (a_name a) = Some (bstr "toykex")) by (rewrite Hn; by destruct srv).
  apply elem_of_cons in Ha as [->|Ha]; [by vm_compute in Hf|]. apply list_elem_of_singleton in Ha as ->. by vm_compute in Hf.
Qed.

Lemma toy_kexinit_ready server seq :
  @kexinit_ready toy_lib toy_env (toy_awaiting server seq toy_kexinit)
    (mkbuf toy_kexinit (zlen toy_kexinit) 1 (zlen toy_kexinit)) keys_zero toy_kexinit (zeros 16) toy_offer false.
Proof.
  do 3 (split; [done|]). split.
  { exists (buf_of toy_kexinit). split_and!; [done|decide_closed|apply contents_buf_of]. }
  split; [done|]. split; [decide_closed|]. do 5 (split; [done|]).
  do 2 (split; [decide_closed|]). split; [by vm_compute|].
  split; [by apply toy_tables|]. split; [by apply tables_offer_ok, toy_tables|]. apply toy_common.
Qed.

Lemma same_meaning_self {D M} (t : list (algo_type D M)) : NoDup (map a_name t) → same_meaning t t.
Proof.
  intros Hnd a a' Ha Ha' Hn. assert (a = a') as ->; [|done].
  induction t as [|x t IH]; [by apply not_elem_of_nil in Ha|]. simpl in Hnd. apply NoDup_cons in Hnd as [Hx Hnd].
  assert (Hin : ∀ y, y ∈ t → a_name y ∈ map a_name t) by (intros y Hy; by apply (list_elem_of_fmap_2 a_name)).
  apply elem_of_cons in Ha as [->|Ha], Ha' as [->|Ha']; [done| | |by apply IH].
  - exfalso. apply Hx. rewrite Hn. by apply Hin.
  - exfalso. apply Hx. rewrite <-Hn. by apply Hin.
Qed.

Lemma toy_offer_eq server seq msg :
  @offer_of toy_lib toy_env (kexdat (toy_awaiting server seq msg)) = toy_offer.
Proof. reflexivity. Qed.

Lemma toy_same_tables : @same_tables toy_lib toy_env toy_env
  (kexdat (toy_awaiting false 1 toy_kexinit)) (kexdat (toy_awaiting true 1 toy_kexinit)).
Proof. split_and!; apply same_meaning_self; decide_closed. Qed.

Lemma kexinit_agreement_witness :
  ∃ C' S' nkC nkS,
    recv_msg_kexinit toy_env (toy_awaiting false 1 toy_kexinit) = Ok (tt, C') ∧
    recv_msg_kexinit toy_env (toy_awaiting true 1 toy_kexinit) = Ok (tt, S') ∧
    newkeys C' = Some nkC ∧ newkeys S' = Some nkS ∧ k_trans nkC = k_recv nkS ∧ k_recv nkC = k_trans nkS.
Proof.
  pose proof (@kexinit_agreement toy_lib toy_env toy_env (toy_awaiting false 1 toy_kexinit) (toy_awaiting true 1 toy_kexinit)
    (mkbuf toy_kexinit (zlen toy_kexinit) 1 (zlen toy_kexinit)) (mkbuf toy_kexinit (zlen toy_kexinit) 1 (zlen toy_kexinit))
    keys_zero keys_zero (zeros 16) (zeros 16)) as H.
  cbv zeta in H. rewrite !toy_offer_eq in H. change (follows toy_env) with false in H. fold toy_kexinit in H.
  specialize (H eq_refl eq_refl (toy_kexinit_ready false 1) (toy_kexinit_ready true 1) eq_refl eq_refl
    toy_same_tables eq_refl eq_refl).
  destruct H as (C'&S'&nkC&nkS&hC&hS&H1&H2&H3&H4&H5&H6&_). exists C', S', nkC, nkS.
  exact (conj H1 (conj H2 (conj H3 (conj H4 (conj H5 H6))))).
Defined.

Lemma strict_kex_first_packet_witness :
  recv_msg_kexinit toy_env (toy_awaiting true 2 toy_kexinit) = Exit "First packet wasn't kexinit".
Proof.
  exact (@strict_kex_first_packet toy_lib toy_env (toy_awaiting true 2 toy_kexinit) _ _ _ _ _ _ (toy_kexinit_ready true 2)).
Defined.

Lemma recv_kexinit_safe_witness :
  wp (recv_msg_kexinit toy_env) any_exit
    (λ _ s', recvkexinit (kexstate s') = true ∧ is_Some (newkeys s') ∧
       ∃ hb, kexhashbuf (kexdat s') = Some hb ∧ wf_buf hb)
    (toy_awaiting true 1 (20 :: replicate 16 0 ++ [0; 0; 0; 200; 44; 44; 97])).
Proof.
  apply (@recv_kexinit_safe toy_lib toy_env _
    (mkbuf (20 :: replicate 16 0 ++ [0; 0; 0; 200; 44; 44; 97]) 24 1 24) keys_zero (buf_of toy_kexinit)).
  do 3 (split; [done|]). split; [decide_closed|]. split; [done|]. split; [decide_closed|].
  split; [by vm_compute|]. do 2 (split; [decide_closed|]). split; [by vm_compute|].
  split_and!; try by vm_compute. repeat constructor; by eexists.
Defined.

Lemma session_id_is_first_hash_witness :
  ∃ s', @finish_kexhashbuf toy_lib (on_kexdat (set_kexhashbuf (Some (buf_of [1; 2; 3])))
          (set_newkeys (Some toy_newkeys) (toy_session [] []))) = Ok (tt, s') ∧
        session_id (kexdat s') = Some (buf_of (replicate 32 6)).
Proof.
  destruct (@session_id_is_first_hash toy_lib (on_kexdat (set_kexhashbuf (Some (buf_of [1; 2; 3])))
    (set_newkeys (Some toy_newkeys) (toy_session [] []))) toy_newkeys toy_kex (buf_of [1; 2; 3]))
    as (s'&h&H1&_&_&_&H2); [done|done|apply toy_desc_law|done|decide_closed|].
  exists s'. split; [exact H1|exact H2].
Defined.

Lemma kexinit_offered_witness :
  let s := on_pkt (set_dataallowed true) (toy_awaiting true 0 []) in
  wp (send_msg_kexinit toy_env) no_exit (λ _ s', kexinit_sent toy_env s toy_keys [] s') s.
Proof.
  intros s. destruct toy_sealing as [_ Hseal].
  apply (@kexinit_offered toy_lib toy_env s toy_keys [] toy_mac); try done.
  - split_and!; try done.
    + apply toy_dir_ok.
    + exists []. split_and!; done || constructor.
    + apply wf_new. unfold BUF_MAX_SIZE. lia.
  - by apply toy_tables.
  - intros p Hp. by apply (Hseal tt).
Defined.
