(* ===== verification/KexMethods.v ===== *)
(** * The key exchange methods (src/src/kex-dh.c, kex-ecdh.c, kex-x25519.c, kex-pqhybrid.c)

    Generating our share of an exchange, and combining it with the peer's:
    the shared secret [ses.dh_K] or [ses.dh_K_bytes], and the end of the
    exchange hash.  Diffie-Hellman modulo a prime, on the NIST curves, on
    Curve25519, and Curve25519 with a key encapsulation.

    Freeing and burning parameters is left out.  The multiplication on
    Curve25519 and the encapsulations are parameters, the class
    [Curve25519Lib] and [dropbear_kem_desc]. *)

From Stdlib Require Import ZArith Lia.
From stdpp Require Import base list strings.
From S2P Require Import Prelude.
From S2P Require Import Buffer.
From S2P Require Import Random.
From S2P Require Import Algo.
From S2P Require Import Cipher.
From S2P Require Import KeyTypes.
From S2P Require Import Ecc.
From S2P Require Import SignKey.
From S2P Require Import Session.
From S2P Require Import Packet.
From S2P Require Import Kex.

Definition DH_G_VAL : Z := 2.

(** The scalar, the point. *)
Class Curve25519Lib := {
  dropbear_curve25519_scalarmult : list Z → list Z → list Z
}.

Record kex_dh_param := mkdh { dh_pub : Z; dh_priv : Z }.
Record kex_ecdh_param := mkecdh { ecdh_key : ecc_key }.
Record kex_curve25519_param := mk25519 { c_priv : list Z; c_pub : list Z }.
Record kex_pqhybrid_param := mkpq {
  curve25519 : kex_curve25519_param;
  concat_public : option buffer;
  kem_cli_secret : option buffer
}.

(** [constant_time_memcmp] with a result of 0 *)
Definition memequal (a b : list Z) : bool := bytes_eqb a b.

Section methods.
Context {CL : CryptoLib} {ML : MpLib} {EL : EccLib} {XL : Curve25519Lib} (fuel : nat).

(** [ses.newkeys->algo_kex] and [ses.newkeys->algo_hostkey] *)
Definition newkeys_kex : ST sshsession dropbear_kex :=
  let* s := get in
  let* nk := ptr (newkeys s) in
  ptr (algo_kex nk).
Definition newkeys_hostkey : ST sshsession Z :=
  let* s := get in
  let* nk := ptr (newkeys s) in
  ret (algo_hostkey nk).
Definition kex_curve : ST sshsession ecc_curve :=
  let* kex := newkeys_kex in
  match details kex with CurveDetails c => ret c | _ => fault "details of another type" end.
Definition kex_kem : ST sshsession dropbear_kem_desc :=
  let* kex := newkeys_kex in
  match details kex with KemDetails k => ret k | _ => fault "details of another type" end.

(** The public values in the order of the exchange hash. *)
Definition client_first {A} (s : sshsession) (us them : A) : A * A :=
  if negb (isserver s) then (us, them) else (them, us).

(** ** Diffie-Hellman modulo a prime *)

Definition load_dh_p : ST sshsession Z :=
  let* kex := newkeys_kex in
  ret (mp_from_ubin (dh_p_bytes kex)).

Definition gen_kexdh_param : ST sshsession kex_dh_param :=
  let* dh_p := load_dh_p in
  let dh_q := Z.quot (dh_p - 1) 2 in
  let* priv := on_rng (gen_random_mpint fuel dh_q) in
  let* pub := or_exit (mp_exptmod DH_G_VAL priv dh_p) "Diffie-Hellman error" in
  ret (mkdh pub priv).

Definition kexdh_comb_key (param : kex_dh_param) (dh_pub_them : Z) (hostkey : sign_key) : ST sshsession unit :=
  let* dh_p := load_dh_p in
  let dh_p_min1 := dh_p - 1 in
  do* exit_if (negb (dh_pub_them <? dh_p_min1) || negb (dh_pub_them >? 1)) "Diffie-Hellman error";
  let* K := or_exit (mp_exptmod dh_pub_them (dh_priv param) dh_p) "Diffie-Hellman error" in
  do* modify (on_kexdat (set_dh_K (Some K)));
  let* s := get in
  let (dh_e, dh_f) := client_first s (dh_pub param) dh_pub_them in
  let* type := newkeys_hostkey in
  do* on_kexhashbuf (buf_put_pub_key hostkey type);
  do* on_kexhashbuf (buf_putmpint dh_e);
  do* on_kexhashbuf (buf_putmpint dh_f);
  do* on_kexhashbuf (buf_putmpint K);
  finish_kexhashbuf.

(** ** The NIST curves *)

Definition gen_kexecdh_param : ST sshsession kex_ecdh_param :=
  let* curve := kex_curve in
  let* key := on_rng (ecc_make_key_ex curve) in
  let* (k, (x, y)) := or_exit key "ECC error" in
  ret (mkecdh (mkecc curve x y k true)).

Definition kexecdh_comb_key (param : kex_ecdh_param) (pub_them : buffer) (hostkey : sign_key) : ST sshsession unit :=
  let* curve := kex_curve in
  let* (Q_them, _) := on_new pub_them (buf_get_ecc_raw_pubkey curve) in
  let* Q_them := or_exit Q_them "ECC error" in
  let* K := dropbear_ecc_shared_secret Q_them (ecdh_key param) in
  do* modify (on_kexdat (set_dh_K (Some K)));
  let* s := get in
  let (Q_C, Q_S) := client_first s (ecdh_key param) Q_them in
  let* type := newkeys_hostkey in
  do* on_kexhashbuf (buf_put_pub_key hostkey type);
  do* on_kexhashbuf (buf_put_ecc_raw_pubkey_string Q_C);
  do* on_kexhashbuf (buf_put_ecc_raw_pubkey_string Q_S);
  do* on_kexhashbuf (buf_putmpint K);
  finish_kexhashbuf.

(** ** Curve25519 *)

Definition basepoint : list Z := 9 :: zeros 31.

Definition gen_kexcurve25519_param : ST sshsession kex_curve25519_param :=
  let* priv := on_rng (genrandom CURVE25519_LEN) in
  ret (mk25519 priv (dropbear_curve25519_scalarmult priv basepoint)).

Definition kexcurve25519_derive {S} (param : kex_curve25519_param) (buf_pub_them : buffer) : ST S (list Z) :=
  do* exit_if (negb (b_len buf_pub_them =? CURVE25519_LEN)) "Bad curve25519";
  let out := dropbear_curve25519_scalarmult (c_priv param) (slice 0 CURVE25519_LEN (b_data buf_pub_them)) in
  do* exit_if (memequal (zeros CURVE25519_LEN) out) "Bad curve25519";
  ret out.

Definition kexcurve25519_comb_key (param : kex_curve25519_param) (buf_pub_them : buffer) (hostkey : sign_key) :
    ST sshsession unit :=
  let* out := kexcurve25519_derive param buf_pub_them in
  let K := mp_from_ubin out in
  do* modify (on_kexdat (set_dh_K (Some K)));
  let* s := get in
  let (Q_C, Q_S) := client_first s (c_pub param) (slice 0 CURVE25519_LEN (b_data buf_pub_them)) in
  let* type := newkeys_hostkey in
  do* on_kexhashbuf (buf_put_pub_key hostkey type);
  do* on_kexhashbuf (buf_putstring Q_C);
  do* on_kexhashbuf (buf_putstring Q_S);
  do* on_kexhashbuf (buf_putmpint K);
  finish_kexhashbuf.

(** ** Curve25519 and a key encapsulation *)

(** A library routine writes [bs] at the cursor. *)
Definition buf_fill (bs : list Z) (len : Z) : ST buffer unit :=
  let* p := buf_getwriteptr len in
  do* mem_store p bs;
  buf_incrwritepos len.

Definition gen_kexpqhybrid_param : ST sshsession kex_pqhybrid_param :=
  let* kem := kex_kem in
  let* c := gen_kexcurve25519_param in
  let* s := get in
  if negb (isserver s) then
    let* secret := buf_new (secret_len kem) in
    let* public := buf_new (public_len kem + CURVE25519_LEN) in
    let* (pk, sk) := on_rng (kem_gen kem) in
    let* (_, public) := on_new public (do* buf_fill pk (public_len kem); buf_putbytes (c_pub c)) in
    let* (_, secret) := on_new secret (do* buf_fill sk (secret_len kem); buf_setpos 0) in
    ret (mkpq c (Some public) (Some secret))
  else ret (mkpq c None None).

(** The parameter with what the call stores into it. *)
Definition kexpqhybrid_comb_key (param : kex_pqhybrid_param) (buf_pub : buffer) (hostkey : sign_key) :
    ST sshsession kex_pqhybrid_param :=
  let* kem := kex_kem in
  let* kex := newkeys_kex in
  let hash_desc := k_hash_desc kex in
  let* s := get in
  let client := negb (isserver s) in
  let remote_len := if client then ciphertext_len kem else public_len kem in
  let* (r, buf_pub) := on_new buf_pub
    (let* p := buf_getptr remote_len in
     let* remote_pub_kem := mem_load p remote_len in
     do* buf_incrpos remote_len;
     let* pub_25519 := buf_getptrcopy CURVE25519_LEN in
     do* buf_incrpos CURVE25519_LEN;
     ret (remote_pub_kem, pub_25519)) in
  let (remote_pub_kem, pub_25519) := r in
  do* exit_if (negb (b_pos buf_pub =? b_len buf_pub)) "Bad sntrup";
  let* k_out := buf_new (output_len kem + CURVE25519_LEN) in
  let* (k_pq, param) :=
    (if client then
       let* secret := ptr (kem_cli_secret param) in
       let* (sk, _) := on_new secret (let* p := buf_getptr (secret_len kem) in mem_load p (secret_len kem)) in
       ret (kem_dec kem remote_pub_kem sk, mkpq (curve25519 param) (concat_public param) None)
     else
       do* (match concat_public param with None => ret tt | Some _ => fault "assert(param->concat_public == NULL)" end);
       let* public := buf_new (ciphertext_len kem + CURVE25519_LEN) in
       let* (ct, k) := on_rng (kem_enc kem remote_pub_kem) in
       let* (_, public) := on_new public (do* buf_fill ct (ciphertext_len kem); buf_putbytes (c_pub (curve25519 param))) in
       ret (k, mkpq (curve25519 param) (Some public) (kem_cli_secret param))) in
  let* (_, k_out) := on_new k_out (buf_fill k_pq (output_len kem)) in
  let* out := kexcurve25519_derive (curve25519 param) pub_25519 in
  let* (_, k_out) := on_new k_out (buf_fill out CURVE25519_LEN) in
  let* dh_K_bytes := buf_new (4 + hd_hashsize hash_desc) in
  let* (_, dh_K_bytes) := on_new dh_K_bytes
    (do* buf_putint (hd_hashsize hash_desc);
     buf_fill (hd_fn hash_desc (buf_bytes k_out)) (hd_hashsize hash_desc)) in
  do* modify (on_kexdat (set_dh_K_bytes (Some dh_K_bytes)));
  let* public := ptr (concat_public param) in
  let (Q_C, Q_S) := client_first s public buf_pub in
  let* type := newkeys_hostkey in
  do* on_kexhashbuf (buf_put_pub_key hostkey type);
  do* on_kexhashbuf (buf_putbufstring Q_C);
  do* on_kexhashbuf (buf_putbufstring Q_S);
  do* on_kexhashbuf (buf_putbytes (buf_bytes dh_K_bytes));
  do* finish_kexhashbuf;
  ret param.
End methods.
