(* ===== verification/KexShare.v ===== *)
(** * What the key exchange methods compute

    The four methods of src/src/kex-*.c against one specification: [derives]
    says which shared secret follows from our parameter and the peer's public
    value, [combined] is the session with that secret and the hash of the
    exchange, and [kex_agreement] that both ends derive the same secret from
    each other's public values.  One lemma per method connects the code to
    it. *)

From Stdlib Require Import ZArith Lia Zpow_facts.
From stdpp Require Import base list strings.
From S2P Require Import Prelude.
From S2P Require Import Buffer.
From S2P Require Import Random.
From S2P Require Import Algo.
From S2P Require Import Cipher.
From S2P Require Import KeyTypes.
From S2P Require Import Ecc.
From S2P Require Import SignKey.
From S2P Require Import SignKeyRead.
From S2P Require Import SignVerify.
From S2P Require Import Session.
From S2P Require Import Packet.
From S2P Require Import PacketRecv.
From S2P Require Import Kex.
From S2P Require Import KexKeys.
From S2P Require Import KexInit.
From S2P Require Import KexMethods.

(** ** The laws of the libraries *)

Class Curve25519Laws (XL : Curve25519Lib) : Prop := {
  x25519_length : ∀ k u, zlen (dropbear_curve25519_scalarmult k u) = CURVE25519_LEN;
  x25519_bytes : ∀ k u, bytes_ok (dropbear_curve25519_scalarmult k u);
  x25519_commutes : ∀ a b, zlen a = CURVE25519_LEN → zlen b = CURVE25519_LEN →
    dropbear_curve25519_scalarmult a (dropbear_curve25519_scalarmult b basepoint) =
    dropbear_curve25519_scalarmult b (dropbear_curve25519_scalarmult a basepoint)
}.

(** What a public key and a secret key share, by the relation [pair]: what
    is encapsulated to the one the other takes out again. *)
Definition encapsulates (kem : dropbear_kem_desc) (pair : list Z → list Z → Prop) (pk ct k : list Z) : Prop :=
  ∀ sk, pair pk sk → kem_dec kem ct sk = k.

Record kem_law (kem : dropbear_kem_desc) (pair : list Z → list Z → Prop) : Prop := {
  kem_lengths : 0 ≤ public_len kem ≤ 2000 ∧ 0 ≤ secret_len kem ≤ 10000 ∧
    0 ≤ ciphertext_len kem ≤ 2000 ∧ 0 ≤ output_len kem ≤ 1000;
  kem_gen_spec : ∀ r, wf_rng r →
    wp (kem_gen kem) no_exit (λ '(pk, sk) r', wf_rng r' ∧ pair pk sk ∧
      (zlen pk = public_len kem ∧ bytes_ok pk) ∧ zlen sk = secret_len kem ∧ bytes_ok sk) r;
  kem_enc_spec : ∀ pk r, wf_rng r → zlen pk = public_len kem → bytes_ok pk →
    wp (kem_enc kem pk) no_exit (λ '(ct, k) r', wf_rng r' ∧ encapsulates kem pair pk ct k ∧
      (zlen ct = ciphertext_len kem ∧ bytes_ok ct) ∧ zlen k = output_len kem ∧ bytes_ok k) r;
  kem_dec_spec : ∀ ct sk, zlen (kem_dec kem ct sk) = output_len kem ∧ bytes_ok (kem_dec kem ct sk)
}.

(** ** The specification *)

(** The parameter of an exchange, of the method's type. *)
Inductive kex_param :=
  | DhParam (a : kex_dh_param)
  | EcdhParam (a : kex_ecdh_param)
  | X25519Param (a : kex_curve25519_param)
  | HybridParam (a : kex_pqhybrid_param).

(** The secret, as a number or as a hash, and how it is hashed. *)
Inductive secret := SecretInt (K : Z) | SecretBytes (h : list Z).
Definition secret_field (x : secret) : Buffer.field :=
  match x with SecretInt K => FMpint K | SecretBytes h => FString h end.

Section spec.
Context {CL : CryptoLib} {ML : MpLib} {EL : EccLib} {XL : Curve25519Lib}
  (base : ecc_curve → Z → point) (kem_pair : dropbear_kem_desc → list Z → list Z → Prop).
Implicit Types (s : sshsession).

Definition dh_prime (kex : dropbear_kex) : Z := mp_from_ubin (dh_p_bytes kex).

(** The methods the tables of common-algo.c define. *)
Definition method_ok (kex : dropbear_kex) : Prop :=
  hash_law (k_hash_desc kex) ∧
  match k_mode kex with
  | DROPBEAR_KEX_NORMAL_DH => 3 < dh_prime kex ∧ mp_count_bits (dh_prime kex) ≤ 8192
  | DROPBEAR_KEX_ECDH => ∃ c, details kex = CurveDetails c
  | DROPBEAR_KEX_CURVE25519 => True
  | DROPBEAR_KEX_PQHYBRID => ∃ kem, details kex = KemDetails kem ∧ kem_law kem (kem_pair kem)
  end.

(** The raw output of Curve25519, unless it is zero. *)
Definition x25519_shared (a : kex_curve25519_param) (u out : list Z) : Prop :=
  zlen u = CURVE25519_LEN ∧ out = dropbear_curve25519_scalarmult (c_priv a) u ∧ out ≠ zeros CURVE25519_LEN.

(** From our parameter and [them], the value of the peer, our own public
    value is [us] and the secret is [sec].  The range of a Diffie-Hellman
    value is RFC 4253 8's, the point has to be one of the curve, and in the
    hybrid exchange a server encapsulates and a client decapsulates. *)
Definition derives (client : bool) (kex : dropbear_kex) (p : kex_param) (us them : Buffer.field) (sec : secret) : Prop :=
  match k_mode kex, p, them with
  | DROPBEAR_KEX_NORMAL_DH, DhParam a, FMpint e =>
      1 < e < dh_prime kex - 1 ∧ us = FMpint (dh_pub a) ∧ sec = SecretInt (e ^ dh_priv a mod dh_prime kex)
  | DROPBEAR_KEX_ECDH, EcdhParam a, FString bs =>
      ∃ Q pt, details kex = CurveDetails (e_dp Q) ∧ ecc_pub_ok Q ∧ raw_point Q = bs ∧
        ecc_ptmul (e_dp Q) (e_k (ecdh_key a)) (e_pub Q) = Some pt ∧
        us = FString (raw_point (ecdh_key a)) ∧ sec = SecretInt pt.1
  | DROPBEAR_KEX_CURVE25519, X25519Param a, FString bs =>
      ∃ out, x25519_shared a bs out ∧ us = FString (c_pub a) ∧ sec = SecretInt (mp_from_ubin out)
  | DROPBEAR_KEX_PQHYBRID, HybridParam a, FString bs =>
      ∃ kem x u y k out, details kex = KemDetails kem ∧ bs = x ++ u ∧
        x25519_shared (curve25519 a) u out ∧ us = FString (y ++ c_pub (curve25519 a)) ∧
        sec = SecretBytes (hd_fn (k_hash_desc kex) (k ++ out)) ∧
        if client then
          zlen x = ciphertext_len kem ∧ zlen y = public_len kem ∧
          ∃ sk, option_map contents (kem_cli_secret a) = Some sk ∧ k = kem_dec kem x sk ∧
                option_map contents (concat_public a) = Some (y ++ c_pub (curve25519 a))
        else
          zlen x = public_len kem ∧ zlen y = ciphertext_len kem ∧ encapsulates kem (kem_pair kem) x y k
  | _, _, _ => False
  end.

(** A coordinate fits the encoding of the curve. *)
Definition ecc_fits (key : ecc_key) : Prop :=
  0 ≤ e_x key < 2 ^ (8 * ltc_size (e_dp key)) ∧ 0 ≤ e_y key < 2 ^ (8 * ltc_size (e_dp key)).

Definition x25519_made (a : kex_curve25519_param) : Prop :=
  zlen (c_priv a) = CURVE25519_LEN ∧ c_pub a = dropbear_curve25519_scalarmult (c_priv a) basepoint.

(** The parameter is one that [gen_kex*_param] makes. *)
Definition made (client : bool) (kex : dropbear_kex) (p : kex_param) : Prop :=
  match k_mode kex, p with
  | DROPBEAR_KEX_NORMAL_DH, DhParam a =>
      0 ≤ dh_priv a ∧ dh_pub a = DH_G_VAL ^ dh_priv a mod dh_prime kex
  | DROPBEAR_KEX_ECDH, EcdhParam a =>
      details kex = CurveDetails (e_dp (ecdh_key a)) ∧ e_private (ecdh_key a) = true ∧
      0 < e_k (ecdh_key a) < ecc_order (e_dp (ecdh_key a)) ∧ ecc_fits (ecdh_key a) ∧
      e_pub (ecdh_key a) = base (e_dp (ecdh_key a)) (e_k (ecdh_key a))
  | DROPBEAR_KEX_CURVE25519, X25519Param a => x25519_made a
  | DROPBEAR_KEX_PQHYBRID, HybridParam a =>
      x25519_made (curve25519 a) ∧
      if client then
        ∃ kem pk sk pb sb, details kex = KemDetails kem ∧ kem_pair kem pk sk ∧
          zlen pk = public_len kem ∧ bytes_ok pk ∧ zlen sk = secret_len kem ∧
          concat_public a = Some pb ∧ wf_buf pb ∧ contents pb = pk ++ c_pub (curve25519 a) ∧
          kem_cli_secret a = Some sb ∧ wf_buf sb ∧ b_pos sb = 0 ∧ contents sb = sk
      else concat_public a = None
  | _, _ => False
  end.

(** What the client sends of its parameter. *)
Definition client_share (p : kex_param) : Buffer.field :=
  match p with
  | DhParam a => FMpint (dh_pub a)
  | EcdhParam a => FString (raw_point (ecdh_key a))
  | X25519Param a => FString (c_pub a)
  | HybridParam a => FString (match concat_public a with Some b => contents b | None => [] end)
  end.

(** The values an implementation refuses although the library may make
    them: a Diffie-Hellman value of 1 or p - 1, a coordinate of 0. *)
Definition acceptable (kex : dropbear_kex) (f : Buffer.field) : Prop :=
  match k_mode kex, f with
  | DROPBEAR_KEX_NORMAL_DH, FMpint e => 1 < e < dh_prime kex - 1
  | DROPBEAR_KEX_ECDH, FString bs => ∃ Q, details kex = CurveDetails (e_dp Q) ∧ ecc_pub_ok Q ∧ raw_point Q = bs
  | _, _ => True
  end.

(** The end of the exchange hash, RFC 4253 8 and RFC 5656 4, and the session
    once it is computed: [acc] is what the hash buffer held. *)
Definition transcript (server : bool) (blob : list Z) (us them : Buffer.field) (sec : secret) : list Z :=
  enc_fields [FString blob; if server then them else us; if server then us else them; secret_field sec].
Definition store (sec : secret) s : sshsession :=
  match sec with
  | SecretInt K => on_kexdat (set_dh_K (Some K)) s
  | SecretBytes h =>
      let w := enc_field (FString h) in on_kexdat (set_dh_K_bytes (Some (mkbuf w (zlen w) (zlen w) (zlen w)))) s
  end.
Definition exchange_hash (kex : dropbear_kex) (acc : list Z) (server : bool) blob us them sec : list Z :=
  hd_fn (k_hash_desc kex) (acc ++ transcript server blob us them sec).
Definition combined (kex : dropbear_kex) acc blob us them sec s : sshsession :=
  hashed (exchange_hash kex acc (isserver s) blob us them sec) (store sec s).

(** The exchange hash buffer has room for the rest. *)
Definition hash_room (acc : list Z) (hb : buffer) blob us them sec : Prop :=
  zlen blob ≤ MAX_PUBKEY_SIZE ∧ zlen acc + zlen (transcript false blob us them sec) ≤ b_size hb.
End spec.

(** ** Both ends derive the same secret *)

Lemma raw_point_inj k k' : e_dp k = e_dp k' → ecc_fits k → ecc_fits k' → raw_point k = raw_point k' → e_pub k = e_pub k'.
Proof.
  unfold raw_point, ecc_fits. intros Hdp (Hx&Hy) (Hx'&Hy') Heq. rewrite <-Hdp in *. pose proof (ltc_size_bounds (e_dp k)).
  injection Heq as Heq. apply app_inj_1 in Heq as [H1 H2].
  - unfold e_pub. f_equal; [apply (f_equal mp_from_ubin) in H1; rewrite !mp_from_to_padded in H1 by lia; exact H1|].
    apply (f_equal mp_from_ubin) in H2. rewrite !mp_from_to_padded in H2 by lia. exact H2.
  - apply Nat2Z.inj. fold (zlen (mp_to_padded (ltc_size (e_dp k)) (e_x k))). fold (zlen (mp_to_padded (ltc_size (e_dp k)) (e_x k'))).
    by rewrite !mp_to_padded_length by lia.
Qed.

Lemma pub_ok_fits k : ecc_pub_ok k → ecc_fits k.
Proof. intros (?&?&_). split; lia. Qed.

(** A list that ends in 32 bytes splits in one way. *)
Lemma app_tail_inj (x x' u u' : list Z) : x ++ u = x' ++ u' → zlen u = zlen u' → x = x' ∧ u = u'.
Proof. intros Heq Hl. apply app_inj_2 in Heq; [done|]. by apply Nat2Z.inj. Qed.

Section agreement.
Context {ML : MpLib} {EL : EccLib} {XL : Curve25519Lib} {XLaw : Curve25519Laws XL}
  {base : ecc_curve → Z → point} {ELaw : EccLaws EL base} {kem_pair : dropbear_kem_desc → list Z → list Z → Prop}.
#[local] Abbreviation derives := (derives kem_pair).
#[local] Abbreviation made := (made base kem_pair).

Lemma x25519_agree a b out : x25519_made a → x25519_made b →
  x25519_shared a (c_pub b) out → x25519_shared b (c_pub a) out.
Proof.
  intros [Ha Hpa] [Hb Hpb] (_&->&Hne). split_and!.
  - rewrite Hpa. apply x25519_length.
  - rewrite Hpa, Hpb. by apply x25519_commutes.
  - exact Hne.
Qed.

(** What the server derives from the client's value, the client derives from
    the server's. *)
Lemma kex_agreement kex ps pc us sec :
  method_ok kem_pair kex → made false kex ps → made true kex pc →
  derives false kex ps us (client_share pc) sec → acceptable kex us →
  derives true kex pc (client_share pc) us sec.
Proof.
  intros [_ Hm]. unfold KexShare.derives, KexShare.made, acceptable. destruct (k_mode kex), ps as [b|b|b|b], pc as [a|a|a|a]; try done.
  - intros [Hb Hpb] [Ha Hpa] (_&->&->) Hf. split_and!; [lia|lia|done|]. f_equal. rewrite Hpa, Hpb.
    rewrite <-!Zpower_mod, <-!Z.pow_mul_r, (Z.mul_comm (dh_priv a)) by lia. done.
  - intros (Hd&Hpr&Hk&Hf&Hp) (Hd'&Hpr'&Hk'&Hf'&Hp') (Q&pt&HdQ&HQ&Hraw&Hmul&->&->) (Q'&HdQ'&HQ'&Hraw').
    rewrite Hd in Hd', HdQ, HdQ'. injection Hd' as Hc. injection HdQ as Hc1. injection HdQ' as Hc2.
    assert (Hpub : e_pub Q = e_pub (ecdh_key a)) by (apply raw_point_inj; [congruence|by apply pub_ok_fits|done|done]).
    assert (Hpub' : e_pub Q' = e_pub (ecdh_key b)) by (apply raw_point_inj; [congruence|by apply pub_ok_fits|done|done]).
    destruct (ptmul_commutes (e_dp (ecdh_key b)) (e_k (ecdh_key b)) (e_k (ecdh_key a)) Hk) as [Hcomm _]; [by rewrite Hc|].
    exists Q', pt. split_and!; [congruence|done|done| |done|done].
    rewrite <-Hc2, Hpub', Hp, <-Hcomm, <-Hmul, Hpub, Hp'. by rewrite <-Hc1, <-Hc.
  - intros Hb Ha (out&Hsh&->&->) _. exists out. split_and!; [|done|done]. by apply x25519_agree.
  - destruct Hm as (kem0&Hkem0&[Hlen]). intros [Hb _] [Ha (kem&pk&sk&pb&sb&Hkem&Hpair&Hpk&_&Hsk&Hcp&_&Hpb&Hcs&_&_&Hsb)].
    intros (kem'&x&u&y&k&out&Hkem'&Hus&Hsh&->&->&Hx&Hy&Henc) _. cbn [client_share] in Hus. rewrite Hcp, Hpb in Hus.
    assert (Hu : zlen u = zlen (c_pub (curve25519 a))).
    { destruct Ha as [_ ->], Hsh as [-> _]. by rewrite x25519_length. }
    apply app_tail_inj in Hus as [<- <-]; [|done]. rewrite Hkem in Hkem'. injection Hkem' as <-.
    exists kem, y, (c_pub (curve25519 b)), pk, k, out. cbn [client_share]. rewrite Hcp, Hcs, Hpb. cbn [option_map].
    split_and!; try done; [by apply x25519_agree|]. exists sk. rewrite Hpb, Hsb. split_and!; [done| |done].
    symmetry. by apply Henc.
Qed.

(** The client has no choice in what it derives. *)
Lemma client_derives_fun kex p us us' them sec sec' :
  derives true kex p us them sec → derives true kex p us' them sec' → us = us' ∧ sec = sec'.
Proof.
  unfold KexShare.derives. destruct (k_mode kex), p as [a|a|a|a], them as [?|?|?|bs|?]; try done.
  - by intros (_&->&->) (_&->&->).
  - intros (Q&pt&Hd&HQ&Hr&Hmul&->&->) (Q'&pt'&Hd'&HQ'&Hr'&Hmul'&->&->). split; [done|].
    rewrite Hd in Hd'. injection Hd' as Hc.
    assert (Hp : e_pub Q = e_pub Q') by (apply raw_point_inj; [done|by apply pub_ok_fits|by apply pub_ok_fits|congruence]).
    rewrite Hc, Hp, Hmul' in Hmul. by injection Hmul as <-.
  - by intros (out&(_&->&_)&->&->) (out'&(_&->&_)&->&->).
  - intros (kem&x&u&y&k&out&Hkem&->&Hsh&->&->&Hx&Hy&sk&Hsk&->&Hcp) (kem'&x'&u'&y'&k'&out'&Hkem'&Hbs&Hsh'&->&->&Hx'&Hy'&sk'&Hsk'&->&Hcp').
    rewrite Hkem in Hkem'. injection Hkem' as <-. apply app_tail_inj in Hbs as [<- <-]; [|destruct Hsh as [-> _], Hsh' as [-> _]; done].
    rewrite Hsk in Hsk'. injection Hsk' as <-. rewrite Hcp in Hcp'. injection Hcp' as Hcp'. rewrite Hcp'.
    by destruct Hsh as (_&->&_), Hsh' as (_&->&_).
Qed.
End agreement.

(** ** Writing into the exchange hash *)

Lemma export_fits key : ecc_fits key →
  ecc_ansi_x963_export key (ltc_size (e_dp key) * 2 + 1) = Some (raw_point key) ∧
  zlen (raw_point key) = ltc_size (e_dp key) * 2 + 1.
Proof.
  intros (Hx&Hy). pose proof (ltc_size_bounds (e_dp key)). unfold ecc_ansi_x963_export.
  pose proof (mp_ubin_size_fits (ltc_size (e_dp key)) (e_x key) ltac:(lia) ltac:(lia)).
  pose proof (mp_ubin_size_fits (ltc_size (e_dp key)) (e_y key) ltac:(lia) ltac:(lia)). split; [by if_false|].
  unfold raw_point. rewrite zlen_cons, zlen_app, !mp_to_padded_length by lia. lia.
Qed.

Lemma appends_blob len o bs msg : o = Some bs → zlen bs = len → bytes_ok bs →
  appends (do* buf_putint len;
           let* p := buf_getwriteptr len in
           match o with
           | None => dropbear_exit msg
           | Some bs => do* mem_store p bs; buf_incrwritepos (zlen bs)
           end) (enc_field (FString bs)).
Proof. intros -> <- Hb. exact (appends_string bs Hb). Qed.

Lemma appends_raw_point key : ecc_fits key →
  appends (buf_put_ecc_raw_pubkey_string key) (enc_field (FString (raw_point key))).
Proof.
  intros Hk. destruct (export_fits key Hk) as [He Hl]. unfold buf_put_ecc_raw_pubkey_string.
  eapply appends_blob; [exact He|exact Hl|apply raw_point_bytes].
Qed.

Section hash.
Context {CL : CryptoLib} {ML : MpLib} {EL : EccLib} {DL : Ed25519Lib}.
Implicit Types (s : sshsession) (b : buffer).

(** A public key of any type, a security key included. *)
Lemma appends_pub_fields key type : holds_key key type →
  appends (if type =? DROPBEAR_SIGNKEY_RSA then
             let* k := assert_key (rsakey key) in buf_put_rsa_pub_key k
           else if is_ecc type then
             match signkey_key_ptr key type with Some k => buf_put_ecdsa_pub_key k | None => ret tt end
           else if is_ed type then
             let* k := assert_key (ed25519key key) in buf_put_ed25519_pub_key k
           else ret tt) (pub_blob key type).
Proof.
  unfold holds_key, pub_blob, pub_fields, enc_fields. destruct (type =? DROPBEAR_SIGNKEY_RSA).
  { intros (k&->&He&_&[Hn _]&_). cbn [map concat]. rewrite app_nil_r.
    apply appends_seq; [apply appends_string; decide_closed|]. apply appends_seq; by apply appends_mpint. }
  destruct (is_ecc type).
  { intros (k&->&_&Hk). cbn [map concat]. rewrite app_nil_r. destruct (ident_bytes (e_dp k)) as [Hb1 Hb2].
    apply appends_seq; [by apply appends_string|]. apply appends_seq; [by apply appends_string|].
    by apply appends_raw_point, pub_ok_fits. }
  destruct (is_ed type); [|done]. intros (k&->&_&Hb). cbn [map concat]. rewrite app_nil_r.
  apply appends_seq; [apply appends_string; decide_closed|by apply appends_string].
Qed.

Lemma pub_blob_size key type : holds_key key type → 4 ≤ zlen (pub_blob key type).
Proof.
  unfold holds_key, pub_blob, pub_fields.
  assert (Hs : ∀ str fs, 4 ≤ zlen (enc_fields (FString str :: fs))).
  { intros str fs. rewrite zlen_enc_fields_cons, string_field_length. pose proof (zlen_nonneg str).
    pose proof (zlen_nonneg (enc_fields fs)). lia. }
  destruct (type =? DROPBEAR_SIGNKEY_RSA); [by intros (k&->&_)|]. destruct (is_ecc type); [by intros (k&->&_)|].
  destruct (is_ed type); [by intros (k&->&_)|done].
Qed.

Lemma wp_put_pub_key key type acc E (Q : unit → buffer → Prop) b :
  holds_key key type → buf_acc acc b →
  (∀ b', zlen (pub_blob key type) ≤ MAX_PUBKEY_SIZE → buf_acc (acc ++ enc_field (FString (pub_blob key type))) b' →
     b_size b' = b_size b → Q tt b') →
  (¬ (zlen (pub_blob key type) ≤ MAX_PUBKEY_SIZE ∧ zlen acc + (4 + zlen (pub_blob key type)) ≤ b_size b) → ∀ e, E e) →
  wp (buf_put_pub_key key type) E Q b.
Proof.
  intros Hk Hacc HQ HE. pose proof (pub_blob_size key type Hk). unfold buf_put_pub_key.
  apply wp_bind, wp_buf_new; [|by vm_compute]. intros _. destruct (appends_pub_fields key type Hk) as [Hb Hm].
  apply wp_bind, wp_on_new. eapply Hm; [apply buf_acc_new; by vm_compute| |].
  - intros p (Hwp&_&Hc) Hsz. cbn [app b_size] in *. pose proof (contents_length p Hwp) as Hl. rewrite Hc in Hl.
    apply wp_bind, wp_exit_if; [lia|]. intros _. unfold buf_putbufstring. fold (contents p). rewrite Hc.
    eapply (proj2 (appends_string _ Hb)); [exact Hacc| |].
    + intros b' Hb' Hs'. apply HQ; [destruct Hwp as (?&?&_); lia|exact Hb'|exact Hs'].
    + rewrite zlen_app, STORE32H_length. intros. apply HE. lia.
  - cbn [b_size]. rewrite zlen_nil. intros. apply HE. lia.
Qed.

Lemma wp_hash_step {A} m w acc (k : ST sshsession A) E Q s hb :
  appends m w → buf_acc acc hb →
  (∀ hb', buf_acc (acc ++ w) hb' → b_size hb' = b_size hb → wp k E Q (hv s hb')) →
  (b_size hb < zlen acc + zlen w → ∀ e, E e) →
  wp (do* on_kexhashbuf m; k) E Q (hv s hb).
Proof.
  intros [_ Hm] Hacc HQ HE. apply wp_bind. eapply wp_zoom_ptr; [done|]. eapply Hm; [exact Hacc|exact HQ|exact HE].
Qed.

(** The host key, both values and the secret. *)
Lemma wp_hash_transcript {A} hk m2 m3 m4 w2 w3 w4 acc (t : ST sshsession A) E Q s nk hb :
  newkeys s = Some nk → kexhashbuf (kexdat s) = Some hb → buf_acc acc hb → holds_key hk (algo_hostkey nk) →
  appends m2 w2 → appends m3 w3 → appends m4 w4 →
  let blob := pub_blob hk (algo_hostkey nk) in
  let w := enc_field (FString blob) ++ w2 ++ w3 ++ w4 in
  (∀ hb', zlen blob ≤ MAX_PUBKEY_SIZE → zlen acc + zlen w ≤ b_size hb → buf_acc (acc ++ w) hb' → wp t E Q (hv s hb')) →
  (¬ (zlen blob ≤ MAX_PUBKEY_SIZE ∧ zlen acc + zlen w ≤ b_size hb) → ∀ e, E e) →
  wp (let* type := newkeys_hostkey in
      do* on_kexhashbuf (buf_put_pub_key hk type);
      do* on_kexhashbuf m2; do* on_kexhashbuf m3; do* on_kexhashbuf m4; t) E Q s.
Proof.
  intros Hn Hhb Hacc Hk H2 H3 H4 blob w HQ HE.
  assert (Hs : s = hv s hb) by (unfold hv, on_kexdat; destruct s as [? ? ? ? ? [] ? ?]; cbn in *; by rewrite <-Hhb).
  assert (Hw : zlen w = (4 + zlen blob) + zlen w2 + zlen w3 + zlen w4).
  { unfold w. rewrite !zlen_app, string_field_length. lia. }
  pose proof (zlen_nonneg w2). pose proof (zlen_nonneg w3). pose proof (zlen_nonneg w4).
  assert (Hbl : zlen (enc_field (FString blob)) = 4 + zlen blob) by apply string_field_length.
  unfold newkeys_hostkey. apply wp_bind, wp_bind, wp_get, wp_bind. eapply wp_ptr; [exact Hn|]. apply wp_ret.
  rewrite Hs. apply wp_bind. eapply wp_zoom_ptr; [done|].
  eapply wp_put_pub_key; [exact Hk|exact Hacc| |intros Hno; apply HE; change (pub_blob hk (algo_hostkey nk)) with blob in Hno; lia]. fold blob. intros h1 Hfit A1 E1.
  eapply (wp_hash_step _ _ _ _ _ _ s); [exact H2|exact A1| |rewrite zlen_app, E1; intros; apply HE; lia]. intros h2 H2' E2.
  eapply wp_hash_step; [exact H3|exact H2'| |rewrite !zlen_app, E2, E1; intros; apply HE; lia]. intros h3 H3' E3.
  eapply wp_hash_step; [exact H4|exact H3'| |rewrite !zlen_app, E3, E2, E1; intros; apply HE; lia]. intros h4 H4' E4.
  pose proof H4' as (Hw4&_&Hc4). pose proof (contents_length h4 Hw4) as Hl4. rewrite Hc4, !zlen_app in Hl4. destruct Hw4 as (?&?&_).
  apply HQ; [exact Hfit|lia|]. unfold w. by rewrite !app_assoc in *.
Qed.
End hash.

(** ** The methods compute what the specification says *)

Lemma client_first_eq {CL : CryptoLib} {A} (s : sshsession) (us them : A) :
  client_first s us them = (if isserver s then them else us, if isserver s then us else them).
Proof. unfold client_first. by destruct (isserver s). Qed.

Lemma zlen_transcript server blob us them sec :
  zlen (transcript server blob us them sec) = zlen (transcript false blob us them sec).
Proof.
  unfold transcript. destruct server; [|done]. rewrite !zlen_enc_fields_cons. lia.
Qed.

Section methods.
Context {CL : CryptoLib} {ML : MpLib} {MLaw : MpLaws ML} {EL : EccLib} {DL : Ed25519Lib}
  {XL : Curve25519Lib} {XLaw : Curve25519Laws XL}
  {base : ecc_curve → Z → point} {ELaw : EccLaws EL base} {kem_pair : dropbear_kem_desc → list Z → list Z → Prop}.
Implicit Types (s : sshsession) (b : buffer).
#[local] Abbreviation derives := (derives kem_pair).
#[local] Abbreviation made := (made base kem_pair).

(** The exchange is negotiated, and the hash buffer holds [acc]. *)
Definition exchanging s nk kex (acc : list Z) (hb : buffer) (hk : sign_key) : Prop :=
  newkeys s = Some nk ∧ algo_kex nk = Some kex ∧ method_ok kem_pair kex ∧
  kexhashbuf (kexdat s) = Some hb ∧ buf_acc acc hb ∧ holds_key hk (algo_hostkey nk).

Lemma wp_newkeys_kex E (Q : dropbear_kex → sshsession → Prop) s nk kex :
  newkeys s = Some nk → algo_kex nk = Some kex → Q kex s → wp newkeys_kex E Q s.
Proof. intros Hn Hk HQ. apply wp_bind, wp_get, wp_bind. eapply wp_ptr; [exact Hn|]. eapply wp_ptr; [exact Hk|done]. Qed.

(** The rest of every method, once the secret is known; [t] is
    [finish_kexhashbuf], or that with more after it. *)
Lemma wp_finish_exchange {A} m2 m3 m4 us them sec (t : ST sshsession A) E Q R s nk kex acc hb hk :
  (∀ s1, wp finish_kexhashbuf E R s1 → wp t E Q s1) →
  exchanging s nk kex acc hb hk →
  appends m2 (enc_field (if isserver s then them else us)) → appends m3 (enc_field (if isserver s then us else them)) →
  appends m4 (enc_field (secret_field sec)) →
  let blob := pub_blob hk (algo_hostkey nk) in
  (hash_room acc hb blob us them sec → R tt (combined kex acc blob us them sec s)) →
  (¬ hash_room acc hb blob us them sec → ∀ e, E e) →
  wp (let* type := newkeys_hostkey in
      do* on_kexhashbuf (buf_put_pub_key hk type);
      do* on_kexhashbuf m2; do* on_kexhashbuf m3; do* on_kexhashbuf m4; t) E Q (store sec s).
Proof.
  intros Ht (Hn&Hk&[Hlaw _]&Hhb&Hacc&Hkey) H2 H3 H4 blob HQ HE. set (s' := store sec s).
  assert (Hn' : newkeys s' = Some nk) by (by destruct sec). assert (Hhb' : kexhashbuf (kexdat s') = Some hb) by (by destruct sec).
  assert (Hw : enc_field (FString blob) ++ enc_field (if isserver s then them else us) ++
               enc_field (if isserver s then us else them) ++ enc_field (secret_field sec) = transcript (isserver s) blob us them sec).
  { unfold transcript, enc_fields. cbn [map concat]. by rewrite app_nil_r. }
  pose proof (zlen_transcript (isserver s) blob us them sec) as Hz.
  eapply wp_hash_transcript; [exact Hn'|exact Hhb'|exact Hacc|exact Hkey|exact H2|exact H3|exact H4| |]; fold blob; rewrite Hw, Hz.
  - intros h4 Hfit Hroom H5. apply Ht.
    eapply wp_finish_kexhashbuf; [exact Hn'|exact Hk|exact Hlaw|reflexivity|apply H5|].
    destruct H5 as (_&_&Hc). rewrite Hc. exact (HQ (conj Hfit Hroom)).
  - intros Hno. by apply HE.
Qed.

Lemma wp_kexdh_comb_key a e hk (E : string → Prop) (Q : unit → sshsession → Prop) s nk kex acc hb :
  exchanging s nk kex acc hb hk → k_mode kex = DROPBEAR_KEX_NORMAL_DH →
  made (negb (isserver s)) kex (DhParam a) →
  let blob := pub_blob hk (algo_hostkey nk) in
  (∀ us sec, derives (negb (isserver s)) kex (DhParam a) us (FMpint e) sec →
     (hash_room acc hb blob us (FMpint e) sec → Q tt (combined kex acc blob us (FMpint e) sec s)) ∧
     (¬ hash_room acc hb blob us (FMpint e) sec → ∀ m, E m)) →
  ((¬ ∃ us sec, derives (negb (isserver s)) kex (DhParam a) us (FMpint e) sec) → E "Diffie-Hellman error"%string) →
  wp (kexdh_comb_key a e hk) E Q s.
Proof.
  intros Hex Hmode Hmade blob HQ HE. pose proof Hex as (Hn&Hk&[_ Hm]&_). unfold KexShare.made in Hmade. unfold method_ok in Hm.
  rewrite Hmode in Hm, Hmade. destruct Hm as [Hm _], Hmade as [Hpriv Hpub]. unfold kexdh_comb_key, load_dh_p.
  apply wp_bind, wp_bind. eapply wp_newkeys_kex; [exact Hn|exact Hk|]. apply wp_ret. fold (dh_prime kex). set (p := dh_prime kex) in *.
  apply wp_bind, wp_exit_if; intros Hrange.
  { apply HE. intros (us&sec&Hd). unfold KexShare.derives in Hd. rewrite Hmode in Hd. fold p in Hd. lia. }
  set (sec := SecretInt (e ^ dh_priv a mod p)).
  destruct (HQ (FMpint (dh_pub a)) sec) as [HQ1 HQ2].
  { unfold KexShare.derives. rewrite Hmode. fold p. split_and!; [lia|lia|done|done]. }
  apply wp_bind. rewrite exptmod_spec by lia. apply wp_ret, wp_bind, wp_modify, wp_bind, wp_get.
  change (on_kexdat _ s) with (store sec s). rewrite client_first_eq. change (isserver (store sec s)) with (isserver s). cbn beta iota.
  assert (0 ≤ e ^ dh_priv a mod p) by (apply Z.mod_pos_bound; lia).
  assert (0 ≤ dh_pub a) by (rewrite Hpub; apply Z.mod_pos_bound; lia).
  eapply wp_finish_exchange with (R := Q) (us := FMpint (dh_pub a)) (them := FMpint e); [done|exact Hex| | | |exact HQ1|exact HQ2].
  - destruct (isserver s); apply appends_mpint; lia.
  - destruct (isserver s); apply appends_mpint; lia.
  - by apply appends_mpint.
Qed.

(** A string of the peer, as it was read. *)
Definition peer_string (bs : list Z) : Prop := bytes_ok bs ∧ zlen bs ≤ MAX_STRING_LEN.

Lemma wf_peer bs : peer_string bs → wf_buf (buf_of bs).
Proof. intros [Hb Hl]. apply wf_buf_of; [done|]. unfold MAX_STRING_LEN, MAX_CMD_LEN, BUF_MAX_SIZE in *. lia. Qed.

Lemma wp_parse_point {S} c bs E (Q : option ecc_key * buffer → S → Prop) (s : S) :
  peer_string bs →
  (∀ key b', e_dp key = c → ecc_pub_ok key → raw_point key = bs → Q (Some key, b') s) →
  ((¬ ∃ key, e_dp key = c ∧ ecc_pub_ok key ∧ raw_point key = bs) → (∀ e, E e) ∧ ∀ b', Q (None, b') s) →
  wp (on_new (buf_of bs) (buf_get_ecc_raw_pubkey c)) E Q s.
Proof.
  intros Hbs HS HN. apply wp_on_new. pose proof (wf_peer bs Hbs) as Hwf.
  assert (Hsafe : wp (buf_get_ecc_raw_pubkey c) any_exit
    (λ o _, match o with Some key => e_dp key = c ∧ ecc_pub_ok key ∧ raw_point key = bs | None => True end) (buf_of bs)).
  { apply wp_buf_get_ecc_raw_pubkey; [done|done|]. intros x y b' _ _ _ Hok Hc. split_and!; [done|done|].
    by rewrite Hc, contents_buf_of. }
  assert (Hhonest : ∀ key, e_dp key = c → ecc_pub_ok key → raw_point key = bs →
    ∃ b', buf_get_ecc_raw_pubkey c (buf_of bs) = Ok (Some (ecc_public key), b')).
  { intros key <- Hok <-. destruct (wp_no_exit_run _ _ _ (get_raw_pubkey key Hok)) as (o&b'&Hrun&->&_). by exists b'. }
  unfold wp in *. destruct (buf_get_ecc_raw_pubkey c (buf_of bs)) as [[[key|] b']|e|w] eqn:Hrun; [| | |done].
  - destruct Hsafe as (?&?&?). by apply HS.
  - apply HN. intros (key&Hdp&Hok&Hraw). by destruct (Hhonest key Hdp Hok Hraw).
  - apply HN. intros (key&Hdp&Hok&Hraw). by destruct (Hhonest key Hdp Hok Hraw).
Qed.

(** What a method has to do with the peer's string [bs]. *)
Definition comb_rule (p : kex_param) (m : ST sshsession unit) (bs : list Z) (hk : sign_key) s nk kex acc hb : Prop :=
  ∀ (E : string → Prop) (Q : unit → sshsession → Prop),
  let blob := pub_blob hk (algo_hostkey nk) in
  (∀ us sec, derives (negb (isserver s)) kex p us (FString bs) sec →
     (hash_room acc hb blob us (FString bs) sec → Q tt (combined kex acc blob us (FString bs) sec s)) ∧
     (¬ hash_room acc hb blob us (FString bs) sec → ∀ e, E e)) →
  ((¬ ∃ us sec, derives (negb (isserver s)) kex p us (FString bs) sec) → ∀ e, E e) →
  wp m E Q s.

Lemma wp_kexecdh_comb_key a bs hk s nk kex acc hb :
  exchanging s nk kex acc hb hk → k_mode kex = DROPBEAR_KEX_ECDH → peer_string bs →
  made (negb (isserver s)) kex (EcdhParam a) →
  comb_rule (EcdhParam a) (kexecdh_comb_key a (buf_of bs) hk) bs hk s nk kex acc hb.
Proof.
  intros Hex Hmode Hbs Hmade E Q blob HQ HE. pose proof Hex as (Hn&Hk&_). unfold KexShare.made in Hmade. rewrite Hmode in Hmade.
  destruct Hmade as (Hdet&Hpriv&Hrange&Hfits&_). unfold kexecdh_comb_key, kex_curve.
  apply wp_bind, wp_bind. eapply wp_newkeys_kex; [exact Hn|exact Hk|]. rewrite Hdet. apply wp_ret.
  assert (Hd : ∀ us sec, derives (negb (isserver s)) kex (EcdhParam a) us (FString bs) sec ↔
    ∃ Q' pt, details kex = CurveDetails (e_dp Q') ∧ ecc_pub_ok Q' ∧ raw_point Q' = bs ∧
        ecc_ptmul (e_dp Q') (e_k (ecdh_key a)) (e_pub Q') = Some pt ∧
        us = FString (raw_point (ecdh_key a)) ∧ sec = SecretInt pt.1) by (intros; unfold KexShare.derives; by rewrite Hmode).
  apply wp_bind, wp_parse_point; [done| |].
  2:{ intros Hno. assert (HE' : ∀ e, E e); [|split; [exact HE'|]].
      - apply HE. intros (us&sec&Hder). apply Hd in Hder as (Q'&pt&HdQ&Hok&Hraw&_). apply Hno. exists Q'.
        split_and!; [congruence|done|done].
      - intros b'. apply wp_bind, wp_exit, HE'. }
  intros key b' Hdp Hok Hraw. apply wp_bind, wp_ret. unfold dropbear_ecc_shared_secret. rewrite Hpriv. cbn [negb].
  rewrite bool_decide_eq_true_2 by done. cbn [negb]. rewrite <-Hdp in *.
  destruct (ecc_ptmul _ _ _) as [pt|] eqn:Hmul.
  2:{ apply wp_bind, wp_exit, HE. intros (us&sec&Hder). apply Hd in Hder as (Q'&pt&HdQ&Hok'&Hraw'&Hmul'&_).
      assert (Hp : e_pub Q' = e_pub key) by (apply raw_point_inj; [congruence|by apply pub_ok_fits|by apply pub_ok_fits|congruence]).
      rewrite Hdet in HdQ. injection HdQ as HdQ. rewrite <-HdQ, Hp, Hmul in Hmul'. done. }
  set (sec := SecretInt pt.1). apply wp_bind, wp_ret, wp_bind, wp_modify, wp_bind, wp_get.
  destruct (HQ (FString (raw_point (ecdh_key a))) sec) as [HQ1 HQ2].
  { apply Hd. exists key, pt. by split_and!. }
  change (on_kexdat _ s) with (store sec s). rewrite client_first_eq. change (isserver (store sec s)) with (isserver s). cbn beta iota.
  pose proof (pub_ok_fits key Hok) as Hfk. pose proof (ptmul_range _ _ _ _ Hmul) as Hr. subst bs.
  eapply wp_finish_exchange with (R := Q) (us := FString (raw_point (ecdh_key a))) (them := FString (raw_point key));
    [done|exact Hex| | | |exact HQ1|exact HQ2].
  - destruct (isserver s); by apply appends_raw_point.
  - destruct (isserver s); by apply appends_raw_point.
  - apply appends_mpint. lia.
Qed.

Lemma slice_peer bs n : zlen bs = n → slice 0 n (b_data (buf_of bs)) = bs.
Proof. intros <-. apply slice_full. Qed.

Lemma wp_derive {S} a bs E (Q : list Z → S → Prop) (s : S) :
  (∀ out, x25519_shared a bs out → Q out s) → ((¬ ∃ out, x25519_shared a bs out) → E "Bad curve25519"%string) →
  wp (kexcurve25519_derive a (buf_of bs)) E Q s.
Proof.
  intros HQ HE. unfold kexcurve25519_derive. cbn [buf_of b_len].
  apply wp_bind, wp_exit_if; intros Hl; [apply HE; intros (out&Hl'&_); lia|]. apply negb_false_iff, Z.eqb_eq in Hl.
  change (slice 0 CURVE25519_LEN bs) with (slice 0 CURVE25519_LEN (b_data (buf_of bs))). rewrite slice_peer by done.
  apply wp_bind, wp_exit_if; intros Hz.
  - apply HE. intros (out&_&->&Hne). apply bool_decide_eq_true in Hz. by rewrite <-Hz in Hne.
  - apply wp_ret, HQ. split_and!; [done|done|]. apply bool_decide_eq_false in Hz. by intros Heq; apply Hz.
Qed.

Lemma wp_kexcurve25519_comb_key a bs hk s nk kex acc hb :
  exchanging s nk kex acc hb hk → k_mode kex = DROPBEAR_KEX_CURVE25519 → peer_string bs →
  made (negb (isserver s)) kex (X25519Param a) →
  comb_rule (X25519Param a) (kexcurve25519_comb_key a (buf_of bs) hk) bs hk s nk kex acc hb.
Proof.
  intros Hex Hmode [Hbb _] Hmade E Q blob HQ HE. pose proof Hex as (Hn&Hk&_). unfold KexShare.made in Hmade. rewrite Hmode in Hmade.
  assert (Hd : ∀ us sec, derives (negb (isserver s)) kex (X25519Param a) us (FString bs) sec ↔
    ∃ out, x25519_shared a bs out ∧ us = FString (c_pub a) ∧ sec = SecretInt (mp_from_ubin out))
    by (intros; unfold KexShare.derives; by rewrite Hmode).
  apply wp_bind, wp_derive; [|intros Hno; apply HE; intros (us&sec&Hder); apply Hd in Hder as (out&Ho&_); by apply Hno; exists out].
  intros out Hout. set (sec := SecretInt (mp_from_ubin out)). apply wp_bind, wp_modify, wp_bind, wp_get.
  destruct (HQ (FString (c_pub a)) sec) as [HQ1 HQ2]; [apply Hd; by exists out|]. pose proof Hout as (Hl&Heq&_).
  change (on_kexdat _ s) with (store sec s). rewrite slice_peer, client_first_eq by done.
  change (isserver (store sec s)) with (isserver s). cbn beta iota.
  assert (Hpb : bytes_ok (c_pub a)) by (destruct Hmade as [_ ->]; apply x25519_bytes).
  assert (Hob : bytes_ok out) by (rewrite Heq; apply x25519_bytes).
  eapply wp_finish_exchange with (R := Q) (us := FString (c_pub a)) (them := FString bs); [done|exact Hex| | | |exact HQ1|exact HQ2].
  - destruct (isserver s); by apply appends_string.
  - destruct (isserver s); by apply appends_string.
  - apply appends_mpint. by apply mp_from_ubin_range.
Qed.

(** *** The hybrid method *)

Lemma wp_split_share {S} n bs E (Q : (list Z * buffer) * buffer → S → Prop) (s : S) :
  peer_string bs → 0 ≤ n →
  (∀ x u, zlen x = n → zlen u = CURVE25519_LEN → n + CURVE25519_LEN ≤ zlen bs → slice 0 (n + CURVE25519_LEN) bs = x ++ u →
     bytes_ok x → bytes_ok u → Q ((x, buf_of u), set_pos (n + CURVE25519_LEN) (buf_of bs)) s) →
  (zlen bs < n + CURVE25519_LEN → ∀ e, E e) →
  wp (on_new (buf_of bs)
       (let* p := buf_getptr n in
        let* x := mem_load p n in
        do* buf_incrpos n;
        let* u := buf_getptrcopy CURVE25519_LEN in
        do* buf_incrpos CURVE25519_LEN;
        ret (x, u))) E Q s.
Proof.
  intros Hbs Hn HQ HE. pose proof (wf_peer bs Hbs) as Hwf. pose proof Hwf as (?&?&Hd&Hb). cbn [buf_of b_pos b_len b_size b_data] in *.
  assert (HL : CURVE25519_LEN = 32) by done. apply wp_on_new.
  apply wp_bind, wp_buf_getptr; [done|done| |cbn [buf_of b_pos b_len]; intros; apply HE; lia]. cbn [buf_of b_pos b_len b_data]. intros Hl.
  apply wp_bind, wp_mem_load; cbn [buf_of b_data]; [lia..|].
  apply wp_bind, wp_buf_incrpos; [done|done| |cbn [buf_of b_pos b_len]; lia]. intros _.
  assert (Hw1 : wf_buf (after_get n (buf_of bs))) by (apply wf_after_get; [done|done|exact Hl]).
  apply wp_bind, wp_buf_getptrcopy; [done|by rewrite HL| |cbn [after_get set_pos buf_of b_pos b_len]; intros; apply HE; lia]. cbn [after_get set_pos buf_of b_pos b_len b_data]. intros Hl2.
  apply wp_bind, wp_buf_incrpos; [done|by rewrite HL| |cbn [after_get set_pos buf_of b_pos b_len]; lia]. intros _. apply wp_ret.
  rewrite after_get_get. unfold after_get. cbn [b_pos]. rewrite (Z.add_0_l (n + _)).
  apply (HQ (slice 0 n bs)); rewrite ?Z.add_0_l.
  - apply zlen_slice; lia.
  - apply zlen_slice; lia.
  - lia.
  - rewrite slice_app_split by lia. by rewrite Z.add_0_l.
  - by apply bytes_ok_slice.
  - by apply bytes_ok_slice.
Qed.

Lemma appends_fill bs n : bytes_ok bs → zlen bs = n → appends (buf_fill bs n) bs.
Proof. intros Hb <-. exact (appends_bytes bs Hb). Qed.

Lemma wp_new_filled {S} m w acc b E (Q : unit * buffer → S → Prop) (s : S) :
  appends m w → buf_acc acc b → zlen acc + zlen w ≤ b_size b →
  (∀ b', buf_acc (acc ++ w) b' → b_size b' = b_size b → Q (tt, b') s) → wp (on_new b m) E Q s.
Proof. intros [_ Hm] Hacc Hr HQ. apply wp_on_new. eapply Hm; [exact Hacc|exact HQ|lia]. Qed.

(** A buffer filled to the last byte. *)
Lemma full_buffer w b : buf_acc w b → b_size b = zlen w → b = mkbuf w (zlen w) (zlen w) (zlen w).
Proof.
  intros (Hwf&Hp&Hc) Hs. pose proof (contents_length b Hwf) as Hl. rewrite Hc in Hl. destruct Hwf as (_&_&Hsz&_).
  destruct b as [d l p sz]. unfold contents in Hc. cbn [b_data b_len b_pos b_size] in *.
  assert (Hld : l = zlen d) by lia. rewrite Hld, slice_full in Hc. congruence.
Qed.

(** The encapsulated part: [k] is the secret, [y] what we send for it. *)
Definition hybrid_out (client : bool) (kem : dropbear_kem_desc) (a a' : kex_pqhybrid_param) (x y k : list Z) : Prop :=
  zlen k = output_len kem ∧ bytes_ok k ∧ curve25519 a' = curve25519 a ∧ bytes_ok (y ++ c_pub (curve25519 a)) ∧
  (∃ pb, concat_public a' = Some pb ∧ contents pb = y ++ c_pub (curve25519 a)) ∧
  if client then
    zlen y = public_len kem ∧ ∃ sk, option_map contents (kem_cli_secret a) = Some sk ∧ k = kem_dec kem x sk ∧
      option_map contents (concat_public a) = Some (y ++ c_pub (curve25519 a))
  else zlen y = ciphertext_len kem ∧ encapsulates kem (kem_pair kem) x y k.

Lemma wp_client_decapsulates kem a x E (Q : list Z * kex_pqhybrid_param → sshsession → Prop) s kex :
  k_mode kex = DROPBEAR_KEX_PQHYBRID → details kex = KemDetails kem → kem_law kem (kem_pair kem) →
  made true kex (HybridParam a) →
  (∀ y k a', hybrid_out true kem a a' x y k → Q (k, a') s) →
  wp (let* secret := ptr (kem_cli_secret a) in
      let* (sk, _) := on_new secret (let* p := buf_getptr (secret_len kem) in mem_load p (secret_len kem)) in
      ret (kem_dec kem x sk, mkpq (curve25519 a) (concat_public a) None)) E Q s.
Proof.
  intros Hmode Hkem [Hlen _ _ Hdec] Hmade HQ. unfold KexShare.made in Hmade. rewrite Hmode in Hmade.
  destruct Hmade as ([_ Hx]&kem'&pk&sk&pb&sb&Hkem'&_&Hpk&Hpkb&Hskl&Hcp&Hwp&Hpb&Hcs&Hws&Hps&Hsb).
  rewrite Hkem in Hkem'. injection Hkem' as <-. pose proof (contents_length sb Hws) as Hl. rewrite Hsb in Hl. pose proof Hws as (?&?&?&?).
  apply wp_bind. eapply wp_ptr; [exact Hcs|].
  apply wp_bind, wp_on_new, wp_bind, wp_buf_getptr; [done|lia| |lia]. intros _.
  apply wp_mem_load; [lia..|]. apply wp_ret. rewrite Hps.
  replace (slice 0 (secret_len kem) (b_data sb)) with sk by (rewrite <-Hsb; unfold contents; f_equal; lia).
  destruct (Hdec x sk) as [Hk1 Hk2]. apply (HQ pk). split_and!; [done|done|done| | |done|].
  - apply bytes_ok_app. split; [done|]. rewrite Hx. apply x25519_bytes.
  - by exists pb.
  - exists sk. rewrite Hcs, Hcp. cbn [option_map]. by rewrite Hsb, Hpb.
Qed.

Lemma wp_server_encapsulates kem a x E (Q : list Z * kex_pqhybrid_param → sshsession → Prop) s kex :
  k_mode kex = DROPBEAR_KEX_PQHYBRID → details kex = KemDetails kem → kem_law kem (kem_pair kem) →
  made false kex (HybridParam a) → wf_rng (w_rng (wld s)) → zlen x = public_len kem → bytes_ok x →
  (∀ y k a' r, hybrid_out false kem a a' x y k → wf_rng r → Q (k, a') (on_wld (set_w_rng r) s)) →
  wp (do* (match concat_public a with None => ret tt | Some _ => fault "assert(param->concat_public == NULL)" end);
      let* public := buf_new (ciphertext_len kem + CURVE25519_LEN) in
      let* (ct, k) := on_rng (kem_enc kem x) in
      let* (_, public) := on_new public (do* buf_fill ct (ciphertext_len kem); buf_putbytes (c_pub (curve25519 a))) in
      ret (k, mkpq (curve25519 a) (Some public) (kem_cli_secret a))) E Q s.
Proof.
  intros Hmode Hkem [Hlen _ Henc _] Hmade Hr Hx Hxb HQ. unfold KexShare.made in Hmade. rewrite Hmode in Hmade.
  destruct Hmade as ([_ Hp]&Hcp). rewrite Hcp. apply wp_bind, wp_ret.
  assert (HL : CURVE25519_LEN = 32) by done. assert (HM : BUF_MAX_SIZE = 1000000000) by done.
  apply wp_bind, wp_buf_new; [|lia]. intros _. apply wp_bind, wp_zoom.
  eapply wp_mono; [eapply wp_exit_mono; [by apply (Henc x)|by intros]|]. intros [ct k] r (Hr'&Hen&[Hctl Hctb]&Hkl&Hkb).
  assert (Hpb : bytes_ok (c_pub (curve25519 a))) by (rewrite Hp; apply x25519_bytes).
  assert (Hpl : zlen (c_pub (curve25519 a)) = 32) by (rewrite Hp; apply x25519_length).
  apply wp_bind. eapply wp_new_filled; [apply appends_seq; [by apply appends_fill|by apply appends_bytes]|apply buf_acc_new; lia| |].
  { cbn [b_size]. rewrite zlen_nil, zlen_app. lia. }
  intros pb (Hwp&_&Hc) _. apply wp_ret. apply (HQ ct); [|done]. split_and!; [done|done|done| |by exists pb|done|done].
  by apply bytes_ok_app.
Qed.

Lemma appends_bufstring b str : contents b = str → bytes_ok str → appends (buf_putbufstring b) (enc_field (FString str)).
Proof. intros <- Hb. exact (appends_string (contents b) Hb). Qed.

(** The hash of both parts, kept as a string. *)
Lemma wp_hybrid_secret {A} kex k out kem a u (t : buffer → list Z → ST sshsession A) E Q s :
  hash_law (k_hash_desc kex) → kem_law kem (kem_pair kem) → zlen k = output_len kem → bytes_ok k → bytes_ok u →
  (∀ o, x25519_shared a u o → let h := hd_fn (k_hash_desc kex) (k ++ o) in
     wp (do* modify (on_kexdat (set_dh_K_bytes (Some (mkbuf (enc_field (FString h)) (4 + zlen h) (4 + zlen h) (4 + zlen h))))); t
          (mkbuf (enc_field (FString h)) (4 + zlen h) (4 + zlen h) (4 + zlen h)) o) E Q s) →
  ((¬ ∃ o, x25519_shared a u o) → E "Bad curve25519"%string) →
  out = mkbuf (zeros (output_len kem + CURVE25519_LEN)) 0 0 (output_len kem + CURVE25519_LEN) →
  wp (let* (_, k_out) := on_new out (buf_fill k (output_len kem)) in
      let* o := kexcurve25519_derive a (buf_of u) in
      let* (_, k_out) := on_new k_out (buf_fill o CURVE25519_LEN) in
      let* dh_K_bytes := buf_new (4 + hd_hashsize (k_hash_desc kex)) in
      let* (_, dh_K_bytes) := on_new dh_K_bytes
        (do* buf_putint (hd_hashsize (k_hash_desc kex));
         buf_fill (hd_fn (k_hash_desc kex) (buf_bytes k_out)) (hd_hashsize (k_hash_desc kex))) in
      do* modify (on_kexdat (set_dh_K_bytes (Some dh_K_bytes)));
      t dh_K_bytes o) E Q s.
Proof.
  intros [Hsz Hh] [Hlen _ _ _] Hk Hkb Hu HQ HE ->. unfold MAX_HASH_SIZE in Hsz.
  assert (HL : CURVE25519_LEN = 32) by done. assert (HM : BUF_MAX_SIZE = 1000000000) by done.
  apply wp_bind. eapply wp_new_filled; [by apply appends_fill|apply buf_acc_new; lia|cbn [b_size]; rewrite zlen_nil; lia|].
  cbn [app b_size]. intros b1 H1 E1. apply wp_bind, wp_derive; [|exact HE]. intros o Ho.
  assert (Hol : zlen o = 32 ∧ bytes_ok o) by (destruct Ho as (_&->&_); split; [apply x25519_length|apply x25519_bytes]).
  destruct Hol as [Hol Hob].
  apply wp_bind. eapply wp_new_filled; [by apply appends_fill|exact H1|lia|]. intros b2 (_&_&Hc2) _.
  change (buf_bytes b2) with (contents b2). rewrite Hc2. destruct (Hh (k ++ o)) as [Hhl Hhb].
  apply wp_bind, wp_buf_new; [|lia]. intros _.
  apply wp_bind. eapply wp_new_filled; [apply appends_seq; [apply appends_int|by apply appends_fill]|apply buf_acc_new; lia| |].
  { cbn [b_size]. rewrite zlen_nil, zlen_app, STORE32H_length. lia. }
  cbn [app b_size]. intros b3 H3 E3. rewrite <-Hhl in H3. fold (enc_field (FString (hd_fn (k_hash_desc kex) (k ++ o)))) in H3.
  rewrite (full_buffer _ _ H3) by (rewrite string_field_length; lia). rewrite string_field_length. by apply HQ.
Qed.

(** What a hybrid exchange has to do, from any generator [r]. *)
Definition hybrid_rule a bs hk (E : string → Prop) (Q : kex_pqhybrid_param → sshsession → Prop) s nk kex acc hb : Prop :=
  let blob := pub_blob hk (algo_hostkey nk) in
  (∀ us sec a' r, derives (negb (isserver s)) kex (HybridParam a) us (FString bs) sec → wf_rng r →
     (isserver s = false → on_wld (set_w_rng r) s = s) → (∃ pb, concat_public a' = Some pb ∧ us = FString (contents pb) ∧ bytes_ok (contents pb)) →
     (hash_room acc hb blob us (FString bs) sec → Q a' (combined kex acc blob us (FString bs) sec (on_wld (set_w_rng r) s))) ∧
     (¬ hash_room acc hb blob us (FString bs) sec → ∀ e, E e)) ∧
  ((¬ ∃ us sec, derives (negb (isserver s)) kex (HybridParam a) us (FString bs) sec) → ∀ e, E e).

(** What follows once the encapsulated secret is known. *)
Lemma wp_hybrid_rest a bs hk E Q s nk kex acc hb kem x u y k a' r n :
  exchanging s nk kex acc hb hk → k_mode kex = DROPBEAR_KEX_PQHYBRID → details kex = KemDetails kem → kem_law kem (kem_pair kem) →
  peer_string bs → bs = x ++ u → bytes_ok u → zlen u = CURVE25519_LEN →
  zlen x = (if negb (isserver s) then ciphertext_len kem else public_len kem) →
  hybrid_rule a bs hk E Q s nk kex acc hb →
  hybrid_out (negb (isserver s)) kem a a' x y k → wf_rng r → (isserver s = false → on_wld (set_w_rng r) s = s) →
  wp (let* (_, k_out) := on_new (mkbuf (zeros (output_len kem + CURVE25519_LEN)) 0 0 (output_len kem + CURVE25519_LEN)) (buf_fill k (output_len kem)) in
      let* out := kexcurve25519_derive (curve25519 a') (buf_of u) in
      let* (_, k_out) := on_new k_out (buf_fill out CURVE25519_LEN) in
      let* dh_K_bytes := buf_new (4 + hd_hashsize (k_hash_desc kex)) in
      let* (_, dh_K_bytes) := on_new dh_K_bytes
        (do* buf_putint (hd_hashsize (k_hash_desc kex));
         buf_fill (hd_fn (k_hash_desc kex) (buf_bytes k_out)) (hd_hashsize (k_hash_desc kex))) in
      do* modify (on_kexdat (set_dh_K_bytes (Some dh_K_bytes)));
      let* public := ptr (concat_public a') in
      let (Q_C, Q_S) := client_first s public (set_pos n (buf_of bs)) in
      let* type := newkeys_hostkey in
      do* on_kexhashbuf (buf_put_pub_key hk type);
      do* on_kexhashbuf (buf_putbufstring Q_C);
      do* on_kexhashbuf (buf_putbufstring Q_S);
      do* on_kexhashbuf (buf_putbytes (buf_bytes dh_K_bytes));
      do* finish_kexhashbuf;
      ret a') E Q (on_wld (set_w_rng r) s).
Proof.
  intros Hex Hmode Hkem Hkl [Hbb _] Hxu Hub Hu Hx [HQ HE] (Hkl'&Hkb&Hca&Hyb&(pb&Hcp&Hpb)&Hout) Hr' Hsame.
  pose proof Hex as (_&_&[Hlaw _]&_). rewrite Hca.
  eapply (wp_hybrid_secret kex k _ kem (curve25519 a) u (λ dh_K_bytes _, _)); [exact Hlaw|exact Hkl|exact Hkl'|exact Hkb|exact Hub| | |reflexivity].
  2:{ intros Hno. apply HE. intros (us&sec&Hder). apply Hno. unfold KexShare.derives in Hder. rewrite Hmode in Hder.
      destruct Hder as (kem'&x'&u'&y'&k'&o&_&Heq&Hsh&_). exists o. pose proof Hsh as [Hu' _].
      rewrite Hxu in Heq. apply app_tail_inj in Heq as [_ ->]; [done|congruence]. }
  intros o Ho h. set (sec := SecretBytes h). set (us := FString (y ++ c_pub (curve25519 a))).
  destruct (HQ us sec a' r) as [HQ1 HQ2]; [|done|done|exists pb; rewrite Hpb; by split_and!|].
  { unfold KexShare.derives. rewrite Hmode. exists kem, x, u, y, k, o. fold h.
    destruct (negb (isserver s)); split_and!; try done; apply Hout. }
  apply wp_bind, wp_modify, wp_bind. eapply wp_ptr; [exact Hcp|]. rewrite client_first_eq. cbn beta iota.
  set (w := enc_field (FString h)). assert (Hwl : zlen w = 4 + zlen h) by apply string_field_length.
  assert (Hstore : on_kexdat (set_dh_K_bytes (Some (mkbuf w (4 + zlen h) (4 + zlen h) (4 + zlen h)))) (on_wld (set_w_rng r) s)
    = store sec (on_wld (set_w_rng r) s)) by (unfold store, sec; fold w; by rewrite Hwl).
  assert (Hw : buf_bytes (mkbuf w (4 + zlen h) (4 + zlen h) (4 + zlen h)) = w).
  { unfold buf_bytes. cbn [b_len b_data]. rewrite <-Hwl. apply slice_full. }
  rewrite Hstore, Hw. destruct Hlaw as [Hsz Hh]. destruct (Hh (k ++ o)) as [Hhl Hhb]. fold h in Hhl, Hhb.
  eapply wp_finish_exchange with (R := λ _ s', Q a' s') (us := us) (them := FString bs) (s := on_wld (set_w_rng r) s)
    (nk := nk) (kex := kex) (acc := acc) (hb := hb); [|exact Hex| | | |exact HQ1|exact HQ2].
  - intros s1 Hf. apply wp_bind. exact Hf.
  - change (isserver (on_wld (set_w_rng r) s)) with (isserver s).
    destruct (isserver s); apply appends_bufstring; [apply slice_full|done|done|done].
  - change (isserver (on_wld (set_w_rng r) s)) with (isserver s).
    destruct (isserver s); apply appends_bufstring; [done|done|apply slice_full|done].
  - apply appends_bytes, enc_field_bytes. split; [done|]. unfold MAX_HASH_SIZE, MAX_STRING_LEN, MAX_CMD_LEN in *. lia.
Qed.

Lemma wp_kexpqhybrid_comb_key a bs hk (E : string → Prop) (Q : kex_pqhybrid_param → sshsession → Prop) s nk kex acc hb :
  exchanging s nk kex acc hb hk → k_mode kex = DROPBEAR_KEX_PQHYBRID → peer_string bs →
  made (negb (isserver s)) kex (HybridParam a) → wf_rng (w_rng (wld s)) → hybrid_rule a bs hk E Q s nk kex acc hb →
  wp (kexpqhybrid_comb_key a (buf_of bs) hk) E Q s.
Proof.
  intros Hex Hmode Hbs Hmade Hr HQ. pose proof HQ as [_ HE]. pose proof Hex as (Hn&Hk&[_ Hm]&_).
  rewrite Hmode in Hm. destruct Hm as (kem&Hkem&Hkl). pose proof Hkl as [Hlen _ _ _]. unfold kexpqhybrid_comb_key, kex_kem.
  apply wp_bind, wp_bind. eapply wp_newkeys_kex; [exact Hn|exact Hk|]. rewrite Hkem. apply wp_ret.
  apply wp_bind. eapply wp_newkeys_kex; [exact Hn|exact Hk|]. apply wp_bind, wp_get.
  set (n := if negb (isserver s) then ciphertext_len kem else public_len kem).
  assert (HL : CURVE25519_LEN = 32) by done. assert (HM : BUF_MAX_SIZE = 1000000000) by done.
  assert (Hd : ∀ us sec, derives (negb (isserver s)) kex (HybridParam a) us (FString bs) sec → zlen bs = n + CURVE25519_LEN).
  { intros us sec Hder. unfold KexShare.derives in Hder. rewrite Hmode in Hder.
    destruct Hder as (kem'&x&u&y&k&o&Hkem'&->&[Hu _]&_&_&Hx). rewrite Hkem in Hkem'. injection Hkem' as <-.
    rewrite zlen_app, Hu. unfold n. by destruct (negb (isserver s)), Hx as [-> _]. }
  apply wp_bind, wp_split_share; [done|unfold n; destruct (negb (isserver s)); lia| |].
  2:{ intros Hshort. apply HE. intros (us&sec&Hder). apply Hd in Hder. lia. }
  intros x u Hx Hu Hlbs Hxu Hxb Hub. apply wp_bind, wp_exit_if; cbn [set_pos buf_of b_pos b_len]; intros Hend.
  { apply HE. intros (us&sec&Hder). apply Hd in Hder. lia. }
  assert (Hbsl : zlen bs = n + CURVE25519_LEN) by lia. rewrite <-Hbsl, slice_full in Hxu.
  apply wp_bind, wp_buf_new; [|lia]. intros _.
  assert (Hrest := λ y k a' r, wp_hybrid_rest a bs hk E Q s nk kex acc hb kem x u y k a' r (n + CURVE25519_LEN)
    Hex Hmode Hkem Hkl Hbs Hxu Hub Hu Hx HQ).
  apply wp_bind. unfold n in *. destruct (isserver s) eqn:Hsrv; cbn [negb] in *.
  - eapply wp_server_encapsulates; [exact Hmode|exact Hkem|exact Hkl|exact Hmade|exact Hr|exact Hx|exact Hxb|]. intros y k a' r Ho Hr'.
    eapply Hrest; [exact Ho|exact Hr'|done].
  - eapply wp_client_decapsulates; [exact Hmode|exact Hkem|exact Hkl|exact Hmade|]. intros y k a' Ho.
    assert (Hself : on_wld (set_w_rng (w_rng (wld s))) s = s) by (by destruct s as [? ? ? ? ? ? ? []]).
    specialize (Hrest y k a' (w_rng (wld s)) Ho Hr (λ _, Hself)). rewrite Hself in Hrest. exact Hrest.
Qed.
End methods.
