(* ===== verification/Channel.v ===== *)
(** * Channels (src/src/common-channel.c, src/src/channel.h)

    The channels multiplexed over a connection: the table [ses.channels], the
    flow control windows in both directions, the transfer between the wire and
    the file descriptors, and the EOF/CLOSE handshake.

    A pointer to a channel is its index in the table; dereferencing a free
    slot is a [Fault] (the structure has been freed).  A pointer to a
    [struct ChanType], which is static data, is a number, and the functions
    take the table [chantype] that maps it to the structure with its
    callbacks.  File descriptors belong to a small world [fdworld]: what
    [read] and [writev] will return, and a log of the calls.  The part of the
    session below is Session.v's. *)

From Stdlib Require Import ZArith Lia.
From stdpp Require Import base list strings.
From S2P Require Import Prelude.
From S2P Require Import Buffer.
From S2P Require Import CircBuffer.
From S2P Require Import Algo.
From S2P Require Import Session.
From S2P Require Import Packet.

Definition SSH_MSG_REQUEST_SUCCESS : Z := 81.
Definition SSH_MSG_CHANNEL_OPEN : Z := 90.
Definition SSH_MSG_CHANNEL_OPEN_CONFIRMATION : Z := 91.
Definition SSH_MSG_CHANNEL_OPEN_FAILURE : Z := 92.
Definition SSH_MSG_CHANNEL_WINDOW_ADJUST : Z := 93.
Definition SSH_MSG_CHANNEL_DATA : Z := 94.
Definition SSH_MSG_CHANNEL_EXTENDED_DATA : Z := 95.
Definition SSH_MSG_CHANNEL_EOF : Z := 96.
Definition SSH_MSG_CHANNEL_CLOSE : Z := 97.
Definition SSH_MSG_CHANNEL_REQUEST : Z := 98.
Definition SSH_MSG_CHANNEL_SUCCESS : Z := 99.
Definition SSH_EXTENDED_DATA_STDERR : Z := 1.

Definition SSH_OPEN_CONNECT_FAILED : Z := 2.
Definition SSH_OPEN_UNKNOWN_CHANNEL_TYPE : Z := 3.
Definition SSH_OPEN_RESOURCE_SHORTAGE : Z := 4.
Definition SSH_OPEN_IN_PROGRESS : Z := 99.

Definition MAX_NAME_LEN : Z := 64.
Definition MAX_CHANNELS : Z := 1000.
Definition CHAN_EXTEND_SIZE : Z := 3.
Definition MAX_RECV_WINDOW : Z := 10 * 1024 * 1024.
Definition RECV_MAX_CHANNEL_DATA_LEN : Z := RECV_MAX_PAYLOAD_LEN - (1 + 4 + 4).

Definition FD_UNINIT : Z := -2.
Definition FD_CLOSED : Z := -1.
Definition STDOUT_FILENO : Z := 1.
Definition SHUT_RD : Z := 0.
Definition SHUT_WR : Z := 1.
Definition SHUT_RDWR : Z := 2.
Definition DROPBEAR_PRIO_NORMAL : Z := 0.
Definition DROPBEAR_PRIO_LOWDELAY : Z := 1.

(** ** File descriptors *)

(** What a [read] will return. *)
Inductive fd_read :=
| FRData (bs : list Z)   (* bytes; none: end of file *)
| FRIntr                 (* EINTR *)
| FRError.               (* any other error *)

Inductive fd_op :=
| FClose (fd : Z)
| FShutdown (fd how : Z)
| FWrite (fd : Z) (bs : list Z)
| FPrio (fd prio : Z)
| FNonblock (fd : Z).

(** [fd_pending] is the outcome of [fd_read_pending], [fd_close_fails] tells
    for which descriptors [close] reports an I/O error. *)
Record fdworld := mkfds {
  fd_reads : list fd_read;
  fd_writes : list write_event;
  fd_pending : Z → bool;
  fd_close_fails : Z → bool;
  fd_log : list fd_op
}.

Definition set_fd_reads (v : list fd_read) (s : fdworld) : fdworld :=
  mkfds v (fd_writes s) (fd_pending s) (fd_close_fails s) (fd_log s).
Definition set_fd_writes (v : list write_event) (s : fdworld) : fdworld :=
  mkfds (fd_reads s) v (fd_pending s) (fd_close_fails s) (fd_log s).
Definition set_fd_log (v : list fd_op) (s : fdworld) : fdworld :=
  mkfds (fd_reads s) (fd_writes s) (fd_pending s) (fd_close_fails s) v.

(** [struct Channel], without [typedata] and [initconn], which only the
    channel types use. *)
Record Channel := mkchan {
  ch_index : Z;
  remotechan : Z;
  recvwindow : Z;
  transwindow : Z;
  recvdonelen : Z;
  recvmaxpacket : Z;
  transmaxpacket : Z;
  writefd : Z;
  readfd : Z;
  errfd : Z;
  bidir_fd : bool;
  writebuf : option circbuffer;
  extrabuf : option circbuffer;
  sent_close : bool;
  recv_close : bool;
  recv_eof : bool;
  sent_eof : bool;
  flushing : bool;
  conn_pending : option Z;
  await_open : bool;
  read_mangler : bool;
  ch_type : Z;
  prio : Z
}.

Definition set_remotechan (v : Z) (s : Channel) : Channel :=
  mkchan (ch_index s) v (recvwindow s) (transwindow s) (recvdonelen s) (recvmaxpacket s) (transmaxpacket s) (writefd s) (readfd s) (errfd s) (bidir_fd s) (writebuf s) (extrabuf s) (sent_close s) (recv_close s) (recv_eof s) (sent_eof s) (flushing s) (conn_pending s) (await_open s) (read_mangler s) (ch_type s) (prio s).
Definition set_recvwindow (v : Z) (s : Channel) : Channel :=
  mkchan (ch_index s) (remotechan s) v (transwindow s) (recvdonelen s) (recvmaxpacket s) (transmaxpacket s) (writefd s) (readfd s) (errfd s) (bidir_fd s) (writebuf s) (extrabuf s) (sent_close s) (recv_close s) (recv_eof s) (sent_eof s) (flushing s) (conn_pending s) (await_open s) (read_mangler s) (ch_type s) (prio s).
Definition set_transwindow (v : Z) (s : Channel) : Channel :=
  mkchan (ch_index s) (remotechan s) (recvwindow s) v (recvdonelen s) (recvmaxpacket s) (transmaxpacket s) (writefd s) (readfd s) (errfd s) (bidir_fd s) (writebuf s) (extrabuf s) (sent_close s) (recv_close s) (recv_eof s) (sent_eof s) (flushing s) (conn_pending s) (await_open s) (read_mangler s) (ch_type s) (prio s).
Definition set_recvdonelen (v : Z) (s : Channel) : Channel :=
  mkchan (ch_index s) (remotechan s) (recvwindow s) (transwindow s) v (recvmaxpacket s) (transmaxpacket s) (writefd s) (readfd s) (errfd s) (bidir_fd s) (writebuf s) (extrabuf s) (sent_close s) (recv_close s) (recv_eof s) (sent_eof s) (flushing s) (conn_pending s) (await_open s) (read_mangler s) (ch_type s) (prio s).
Definition set_transmaxpacket (v : Z) (s : Channel) : Channel :=
  mkchan (ch_index s) (remotechan s) (recvwindow s) (transwindow s) (recvdonelen s) (recvmaxpacket s) v (writefd s) (readfd s) (errfd s) (bidir_fd s) (writebuf s) (extrabuf s) (sent_close s) (recv_close s) (recv_eof s) (sent_eof s) (flushing s) (conn_pending s) (await_open s) (read_mangler s) (ch_type s) (prio s).
Definition set_writefd (v : Z) (s : Channel) : Channel :=
  mkchan (ch_index s) (remotechan s) (recvwindow s) (transwindow s) (recvdonelen s) (recvmaxpacket s) (transmaxpacket s) v (readfd s) (errfd s) (bidir_fd s) (writebuf s) (extrabuf s) (sent_close s) (recv_close s) (recv_eof s) (sent_eof s) (flushing s) (conn_pending s) (await_open s) (read_mangler s) (ch_type s) (prio s).
Definition set_readfd (v : Z) (s : Channel) : Channel :=
  mkchan (ch_index s) (remotechan s) (recvwindow s) (transwindow s) (recvdonelen s) (recvmaxpacket s) (transmaxpacket s) (writefd s) v (errfd s) (bidir_fd s) (writebuf s) (extrabuf s) (sent_close s) (recv_close s) (recv_eof s) (sent_eof s) (flushing s) (conn_pending s) (await_open s) (read_mangler s) (ch_type s) (prio s).
Definition set_errfd (v : Z) (s : Channel) : Channel :=
  mkchan (ch_index s) (remotechan s) (recvwindow s) (transwindow s) (recvdonelen s) (recvmaxpacket s) (transmaxpacket s) (writefd s) (readfd s) v (bidir_fd s) (writebuf s) (extrabuf s) (sent_close s) (recv_close s) (recv_eof s) (sent_eof s) (flushing s) (conn_pending s) (await_open s) (read_mangler s) (ch_type s) (prio s).
Definition set_bidir_fd (v : bool) (s : Channel) : Channel :=
  mkchan (ch_index s) (remotechan s) (recvwindow s) (transwindow s) (recvdonelen s) (recvmaxpacket s) (transmaxpacket s) (writefd s) (readfd s) (errfd s) v (writebuf s) (extrabuf s) (sent_close s) (recv_close s) (recv_eof s) (sent_eof s) (flushing s) (conn_pending s) (await_open s) (read_mangler s) (ch_type s) (prio s).
Definition set_writebuf (v : option circbuffer) (s : Channel) : Channel :=
  mkchan (ch_index s) (remotechan s) (recvwindow s) (transwindow s) (recvdonelen s) (recvmaxpacket s) (transmaxpacket s) (writefd s) (readfd s) (errfd s) (bidir_fd s) v (extrabuf s) (sent_close s) (recv_close s) (recv_eof s) (sent_eof s) (flushing s) (conn_pending s) (await_open s) (read_mangler s) (ch_type s) (prio s).
Definition set_extrabuf (v : option circbuffer) (s : Channel) : Channel :=
  mkchan (ch_index s) (remotechan s) (recvwindow s) (transwindow s) (recvdonelen s) (recvmaxpacket s) (transmaxpacket s) (writefd s) (readfd s) (errfd s) (bidir_fd s) (writebuf s) v (sent_close s) (recv_close s) (recv_eof s) (sent_eof s) (flushing s) (conn_pending s) (await_open s) (read_mangler s) (ch_type s) (prio s).
Definition set_sent_close (v : bool) (s : Channel) : Channel :=
  mkchan (ch_index s) (remotechan s) (recvwindow s) (transwindow s) (recvdonelen s) (recvmaxpacket s) (transmaxpacket s) (writefd s) (readfd s) (errfd s) (bidir_fd s) (writebuf s) (extrabuf s) v (recv_close s) (recv_eof s) (sent_eof s) (flushing s) (conn_pending s) (await_open s) (read_mangler s) (ch_type s) (prio s).
Definition set_recv_close (v : bool) (s : Channel) : Channel :=
  mkchan (ch_index s) (remotechan s) (recvwindow s) (transwindow s) (recvdonelen s) (recvmaxpacket s) (transmaxpacket s) (writefd s) (readfd s) (errfd s) (bidir_fd s) (writebuf s) (extrabuf s) (sent_close s) v (recv_eof s) (sent_eof s) (flushing s) (conn_pending s) (await_open s) (read_mangler s) (ch_type s) (prio s).
Definition set_recv_eof (v : bool) (s : Channel) : Channel :=
  mkchan (ch_index s) (remotechan s) (recvwindow s) (transwindow s) (recvdonelen s) (recvmaxpacket s) (transmaxpacket s) (writefd s) (readfd s) (errfd s) (bidir_fd s) (writebuf s) (extrabuf s) (sent_close s) (recv_close s) v (sent_eof s) (flushing s) (conn_pending s) (await_open s) (read_mangler s) (ch_type s) (prio s).
Definition set_sent_eof (v : bool) (s : Channel) : Channel :=
  mkchan (ch_index s) (remotechan s) (recvwindow s) (transwindow s) (recvdonelen s) (recvmaxpacket s) (transmaxpacket s) (writefd s) (readfd s) (errfd s) (bidir_fd s) (writebuf s) (extrabuf s) (sent_close s) (recv_close s) (recv_eof s) v (flushing s) (conn_pending s) (await_open s) (read_mangler s) (ch_type s) (prio s).
Definition set_conn_pending (v : option Z) (s : Channel) : Channel :=
  mkchan (ch_index s) (remotechan s) (recvwindow s) (transwindow s) (recvdonelen s) (recvmaxpacket s) (transmaxpacket s) (writefd s) (readfd s) (errfd s) (bidir_fd s) (writebuf s) (extrabuf s) (sent_close s) (recv_close s) (recv_eof s) (sent_eof s) (flushing s) v (await_open s) (read_mangler s) (ch_type s) (prio s).
Definition set_await_open (v : bool) (s : Channel) : Channel :=
  mkchan (ch_index s) (remotechan s) (recvwindow s) (transwindow s) (recvdonelen s) (recvmaxpacket s) (transmaxpacket s) (writefd s) (readfd s) (errfd s) (bidir_fd s) (writebuf s) (extrabuf s) (sent_close s) (recv_close s) (recv_eof s) (sent_eof s) (flushing s) (conn_pending s) v (read_mangler s) (ch_type s) (prio s).

(** [ERRFD_IS_READ], [ERRFD_IS_WRITE] *)
Definition errfd_is_read (c : Channel) : bool := match extrabuf c with None => true | Some _ => false end.
Definition errfd_is_write (c : Channel) : bool := negb (errfd_is_read c).

Section channels.
Context {CL : CryptoLib}.

(** The session with its channel fields.  [ses.chansize] is the length of
    [channels].  [cancelled] are the pending connections whose callback
    [cancel_connect] has disabled. *)
Record chses := mkchses {
  tp : sshsession;
  channels : list (option Channel);
  chancount : Z;
  channel_signal_pending : bool;
  sock_out : Z;
  socket_prio : Z;
  maxfd : Z;
  cancelled : list Z;
  fds : fdworld
}.

Definition set_tp (v : sshsession) (s : chses) : chses :=
  mkchses v (channels s) (chancount s) (channel_signal_pending s) (sock_out s) (socket_prio s) (maxfd s) (cancelled s) (fds s).
Definition set_channels (v : list (option Channel)) (s : chses) : chses :=
  mkchses (tp s) v (chancount s) (channel_signal_pending s) (sock_out s) (socket_prio s) (maxfd s) (cancelled s) (fds s).
Definition set_chancount (v : Z) (s : chses) : chses :=
  mkchses (tp s) (channels s) v (channel_signal_pending s) (sock_out s) (socket_prio s) (maxfd s) (cancelled s) (fds s).
Definition set_socket_prio (v : Z) (s : chses) : chses :=
  mkchses (tp s) (channels s) (chancount s) (channel_signal_pending s) (sock_out s) v (maxfd s) (cancelled s) (fds s).
Definition set_maxfd (v : Z) (s : chses) : chses :=
  mkchses (tp s) (channels s) (chancount s) (channel_signal_pending s) (sock_out s) (socket_prio s) v (cancelled s) (fds s).
Definition set_cancelled (v : list Z) (s : chses) : chses :=
  mkchses (tp s) (channels s) (chancount s) (channel_signal_pending s) (sock_out s) (socket_prio s) (maxfd s) v (fds s).
Definition set_fds (v : fdworld) (s : chses) : chses :=
  mkchses (tp s) (channels s) (chancount s) (channel_signal_pending s) (sock_out s) (socket_prio s) (maxfd s) (cancelled s) v.

Definition chansize (s : chses) : Z := zlen (channels s).

(** [struct ChanType]; a channel argument is an index. *)
Record ChanType := mkchantype {
  ct_name : list Z;
  ct_inithandler : option (nat → ST chses Z);
  ct_check_close : option (nat → ST chses bool);
  ct_reqhandler : option (nat → ST chses unit);
  ct_closehandler : option (nat → ST chses unit);
  ct_cleanup : option (nat → ST chses unit)
}.

(** What the channel code takes from the rest of the program: the static
    channel types, [ses.chantypes], [opts.recv_window], the client's escape
    handler [read_mangler] (it returns the new length) and the listeners. *)
Record chan_env := mkchanenv {
  chantype : Z → ChanType;
  chantypes : list Z;
  recv_window : Z;
  clichansess : Z;
  mangle : nat → list Z → ST chses Z;
  handle_listeners : (Z → bool) → ST chses unit
}.

Context (env : chan_env).

Definition RECV_WINDOWEXTEND : Z := recv_window env / 3.

Definition on_tp {A} : ST sshsession A → ST chses A := zoom tp set_tp.
Definition on_fds {A} : ST fdworld A → ST chses A := zoom fds set_fds.
(** A channel through its pointer. *)
Definition on_chan {A} (i : nat) : ST Channel A → ST chses A :=
  zoom_ptr (λ s, mjoin (channels s !! i)) (λ c s, set_channels (<[i := c]> (channels s)) s).
Definition chan (i : nat) : ST chses Channel := on_chan i get.
Definition set_chan (i : nat) (f : Channel → Channel) : ST chses unit := on_chan i (modify f).

(** One of the two buffers of a channel through its pointer. *)
Inductive chbuf := WRITEBUF | EXTRABUF.
Definition the_buf (w : chbuf) (c : Channel) : option circbuffer :=
  match w with WRITEBUF => writebuf c | EXTRABUF => extrabuf c end.
Definition set_buf (w : chbuf) (b : option circbuffer) (c : Channel) : Channel :=
  match w with WRITEBUF => set_writebuf b c | EXTRABUF => set_extrabuf b c end.
Definition on_buf {A} (i : nat) (w : chbuf) (m : ST circbuffer A) : ST chses A :=
  on_chan i (zoom_ptr (the_buf w) (set_buf w) m).

(** System calls. *)
Definition log_fd (op : fd_op) : ST chses unit := on_fds (modify (λ f, set_fd_log (fd_log f ++ [op]) f)).

(** [m_close] (src/src/dbutil.c) retries [close] after EINTR. *)
Definition m_close (fd : Z) : ST chses unit :=
  if fd <? 0 then ret tt
  else
    do* log_fd (FClose fd);
    let* s := get in
    exit_if (fd_close_fails (fds s) fd) "Error closing fd %d, %s".

(** [read(fd, ..., maxlen)] *)
Definition fd_read_call (maxlen : Z) : ST chses fd_read :=
  let* s := get in
  match fd_reads (fds s) with
  | [] => ret FRError
  | FRData bs :: rest =>
      do* on_fds (modify (set_fd_reads rest));
      ret (FRData (take (Z.to_nat maxlen) bs))
  | e :: rest => do* on_fds (modify (set_fd_reads rest)); ret e
  end.

(** [writev(fd, iov, ...)]: the number of bytes written, or the error. *)
Definition fd_writev (fd : Z) (iov : list (list Z)) : ST chses write_event :=
  let* s := get in
  let bs := concat iov in
  match fd_writes (fds s) with
  | [] => ret WAgain
  | WDone n :: rest =>
      let n := Z.max 0 (Z.min n (zlen bs)) in
      do* on_fds (modify (set_fd_writes rest));
      do* log_fd (FWrite fd (take (Z.to_nat n) bs));
      ret (WDone n)
  | e :: rest => do* on_fds (modify (set_fd_writes rest)); ret e
  end.

(** ** The table *)

Definition chaninitialise : ST chses unit :=
  modify (λ s, set_chancount 0 (set_channels [None] s)).

(** [update_channel_prio] (src/src/common-session.c) *)
Definition wanted_prio (l : list (option Channel)) : Z :=
  let used := omap id l in
  match used with
  | [] => DROPBEAR_PRIO_LOWDELAY
  | _ => if existsb (λ c, prio c =? DROPBEAR_PRIO_LOWDELAY) used
         then DROPBEAR_PRIO_LOWDELAY else DROPBEAR_PRIO_NORMAL
  end.
Definition update_channel_prio : ST chses unit :=
  let* s := get in
  if sock_out s <? 0 then ret tt
  else
    let new_prio := wanted_prio (channels s) in
    when (negb (new_prio =? socket_prio s))
      (do* log_fd (FPrio (sock_out s) new_prio);
       modify (set_socket_prio new_prio)).

(** The first free slot, or the length of the table. *)
Fixpoint free_slot (l : list (option Channel)) : nat :=
  match l with
  | [] => 0
  | None :: _ => 0
  | Some _ :: l => S (free_slot l)
  end.

Definition newchannel (remote type transwin transmax : Z) : ST chses (option nat) :=
  let* s := get in
  let i := free_slot (channels s) in
  if (Z.of_nat i =? chansize s) && (chansize s >=? MAX_CHANNELS) then ret None
  else
    do* when (Z.of_nat i =? chansize s)
          (modify (set_channels (channels s ++ replicate (Z.to_nat CHAN_EXTEND_SIZE) None)));
    let* wb := cbuf_new (recv_window env) in
    let c := mkchan (Z.of_nat i) remote (recv_window env) transwin 0 RECV_MAX_CHANNEL_DATA_LEN transmax
               FD_UNINIT FD_UNINIT FD_CLOSED false (Some wb) None false false false false false
               None false false type DROPBEAR_PRIO_NORMAL in
    do* modify (λ s, set_channels (<[i := Some c]> (channels s)) s);
    do* modify (λ s, set_chancount (u32 (chancount s + 1)) s);
    ret (Some i).

Definition getchannel_msg (kind : option string) : ST chses nat :=
  let* chan := on_tp (on_payload buf_getint) in
  let* s := get in
  if (chan >=? chansize s) || (match channels s !! Z.to_nat chan with Some (Some _) => false | _ => true end)
  then dropbear_exit (match kind with Some k => k +:+ " for unknown channel %d" | None => "Unknown channel %d" end)
  else ret (Z.to_nat chan).
Definition getchannel : ST chses nat := getchannel_msg None.

Definition remove_channel (i : nat) : ST chses unit :=
  let* c := chan i in
  let* _ := ptr (writebuf c) in
  do* set_chan i (set_writebuf None);
  do* set_chan i (set_extrabuf None);
  let* c := chan i in
  let* s := get in
  do* when (isserver (tp s) || negb (writefd c =? STDOUT_FILENO))
        (do* m_close (writefd c); do* m_close (readfd c); m_close (errfd c));
  do* match ct_cleanup (chantype env (ch_type c)) with Some f => f i | None => ret tt end;
  let* c := chan i in
  do* match conn_pending c with
      | Some p => modify (λ s, set_cancelled (p :: cancelled s) s)
      | None => ret tt
      end;
  do* modify (λ s, set_channels (<[Z.to_nat (ch_index c) := None]> (channels s)) s);
  do* modify (λ s, set_chancount (u32 (chancount s - 1)) s);
  update_channel_prio.

Fixpoint chancleanup_loop (n : nat) (i : nat) : ST chses unit :=
  match n with
  | O => ret tt
  | S n =>
      let* s := get in
      do* match channels s !! i with Some (Some _) => remove_channel i | _ => ret tt end;
      chancleanup_loop n (S i)
  end.
Definition chancleanup : ST chses unit :=
  let* s := get in
  do* chancleanup_loop (length (channels s)) 0;
  modify (set_channels []).

(** ** Messages *)

Definition put_tp (m : ST buffer unit) : ST chses unit := on_tp (on_writepayload m).

Definition send_msg_channel_eof (i : nat) : ST chses unit :=
  let* c := chan i in
  do* put_tp (buf_putbyte SSH_MSG_CHANNEL_EOF);
  do* put_tp (buf_putint (remotechan c));
  do* on_tp encrypt_packet;
  set_chan i (set_sent_eof true).

Definition send_msg_channel_window_adjust (i : nat) (incr : Z) : ST chses unit :=
  let* c := chan i in
  do* put_tp (buf_putbyte SSH_MSG_CHANNEL_WINDOW_ADJUST);
  do* put_tp (buf_putint (remotechan c));
  do* put_tp (buf_putint incr);
  on_tp encrypt_packet.

Definition send_msg_channel_failure (i : nat) : ST chses unit :=
  let* c := chan i in
  if sent_close c then ret tt
  else
    do* put_tp (buf_putbyte SSH_MSG_CHANNEL_FAILURE);
    do* put_tp (buf_putint (remotechan c));
    on_tp encrypt_packet.

Definition send_msg_channel_success (i : nat) : ST chses unit :=
  let* c := chan i in
  if sent_close c then ret tt
  else
    do* put_tp (buf_putbyte SSH_MSG_CHANNEL_SUCCESS);
    do* put_tp (buf_putint (remotechan c));
    on_tp encrypt_packet.

Definition send_msg_channel_open_failure (remote reason : Z) (text lang : list Z) : ST chses unit :=
  do* put_tp (buf_putbyte SSH_MSG_CHANNEL_OPEN_FAILURE);
  do* put_tp (buf_putint remote);
  do* put_tp (buf_putint reason);
  do* put_tp (buf_putstring text);
  do* put_tp (buf_putstring lang);
  on_tp encrypt_packet.

Definition send_msg_channel_open_confirmation (i : nat) (window maxpacket : Z) : ST chses unit :=
  let* c := chan i in
  do* put_tp (buf_putbyte SSH_MSG_CHANNEL_OPEN_CONFIRMATION);
  do* put_tp (buf_putint (remotechan c));
  do* put_tp (buf_putint (ch_index c));
  do* put_tp (buf_putint window);
  do* put_tp (buf_putint maxpacket);
  on_tp encrypt_packet.

Definition send_msg_request_success : ST chses unit :=
  do* put_tp (buf_putbyte SSH_MSG_REQUEST_SUCCESS);
  on_tp encrypt_packet.
Definition send_msg_request_failure : ST chses unit :=
  do* put_tp (buf_putbyte SSH_MSG_REQUEST_FAILURE);
  on_tp encrypt_packet.

Definition start_send_channel_request (i : nat) (type : list Z) : ST chses unit :=
  let* c := chan i in
  do* put_tp (buf_putbyte SSH_MSG_CHANNEL_REQUEST);
  do* put_tp (buf_putint (remotechan c));
  put_tp (buf_putstring type).

(** ** Closing *)

(** The references to [fd] that [close_chan_fd] drops. *)
Definition drop_fd (closein closeout : bool) (fd : Z) (c : Channel) : Channel :=
  let c := if closeout && (fd =? readfd c) then set_readfd FD_CLOSED c else c in
  let c := if closeout && errfd_is_read c && (fd =? errfd c) then set_errfd FD_CLOSED c else c in
  let c := if closein && (fd =? writefd c) then set_writefd FD_CLOSED c else c in
  if closein && errfd_is_write c && (fd =? errfd c) then set_errfd FD_CLOSED c else c.

Definition close_chan_fd (i : nat) (fd how : Z) : ST chses unit :=
  let* c := chan i in
  let* (closein, closeout) :=
    if bidir_fd c then
      do* log_fd (FShutdown fd how);
      ret (if how =? 0 then (false, true) else (true, false))
    else do* m_close fd; ret (true, true) in
  do* set_chan i (drop_fd closein closeout fd);
  let* c := chan i in
  when (bidir_fd c && (readfd c =? FD_CLOSED) && (writefd c =? FD_CLOSED) && (errfd c =? FD_CLOSED))
    (m_close fd).

Definition send_msg_channel_close (i : nat) : ST chses unit :=
  let* c := chan i in
  do* match ct_closehandler (chantype env (ch_type c)) with Some f => f i | None => ret tt end;
  let* c := chan i in
  do* put_tp (buf_putbyte SSH_MSG_CHANNEL_CLOSE);
  do* put_tp (buf_putint (remotechan c));
  do* on_tp encrypt_packet;
  do* set_chan i (set_sent_eof true);
  do* set_chan i (set_sent_close true);
  let* c := chan i in
  do* close_chan_fd i (readfd c) SHUT_RD;
  let* c := chan i in
  do* close_chan_fd i (errfd c) SHUT_RDWR;
  let* c := chan i in
  close_chan_fd i (writefd c) SHUT_WR.

Definition used_of (b : option circbuffer) : Z := match b with Some cb => cbuf_getused cb | None => 0 end.

Definition write_pending (i : nat) : ST chses bool :=
  let* c := chan i in
  let* wb := if writefd c >=? 0 then ptr (writebuf c) else ret (mkcbuf 0 0 0 0 None) in
  if (writefd c >=? 0) && (cbuf_getused wb >? 0) then ret true
  else ret ((errfd c >=? 0) && (used_of (extrabuf c) >? 0)).

Definition check_close (i : nat) : ST chses unit :=
  let* c := chan i in
  let type := chantype env (ch_type c) in
  let* close_allowed :=
    match ct_check_close type with
    | None => ret true
    | Some f => if sent_close c then ret true else f i
    end in
  let* c := chan i in
  do* when (flushing c)
        (let* s := get in
         do* when ((readfd c >=? 0) && negb (fd_pending (fds s) (readfd c)))
               (close_chan_fd i (readfd c) SHUT_RD);
         let* c := chan i in
         when (errfd_is_read c && (errfd c >=? 0) && negb (fd_pending (fds s) (errfd c)))
           (close_chan_fd i (errfd c) SHUT_RD));
  let* c := chan i in
  let* pending := write_pending i in
  if recv_close c && negb pending && close_allowed then
    do* when (negb (sent_close c)) (send_msg_channel_close i);
    remove_channel i
  else
    do* when ((recv_eof c && negb pending)
              || (negb (writefd c =? FD_UNINIT)
                  && (match ct_check_close type with Some _ => true | None => false end) && close_allowed))
          (close_chan_fd i (writefd c) SHUT_WR);
    let* c := chan i in
    do* when (negb (sent_eof c) && (readfd c =? FD_CLOSED) && (errfd_is_write c || (errfd c =? FD_CLOSED)))
          (send_msg_channel_eof i);
    let* c := chan i in
    let* pending := write_pending i in
    when ((readfd c =? FD_CLOSED) && (writefd c =? FD_CLOSED)
          && (errfd_is_write c || (errfd c =? FD_CLOSED))
          && negb (sent_close c) && close_allowed && negb pending)
      (send_msg_channel_close i).

(** ** Data towards the program *)

Definition nonempty (bs : list Z) : list (list Z) := match bs with [] => [] | _ => [bs] end.

(** [moredata] and [*morelen] are one argument; the second result is the new
    [*morelen]. *)
Definition writechannel_writev (i : nat) (fd : Z) (w : chbuf) (moredata : option (list Z)) :
    ST chses (bool * Z) :=
  let* (circ1, circ2) := on_buf i w cbuf_read_segments in
  let iov := nonempty circ1 ++ nonempty circ2 ++ (match moredata with Some m => [m] | None => [] end) in
  match iov with
  | [] => ret (true, 0)
  | _ =>
      let* written := fd_writev fd iov in
      match written with
      | WError => do* close_chan_fd i fd SHUT_WR; ret (false, 0)
      | WAgain => ret (true, 0)
      | WDone written =>
          let cbuf_written := Z.min (zlen circ1 + zlen circ2) written in
          do* on_buf i w (cbuf_incrread cbuf_written);
          do* set_chan i (λ c, set_recvdonelen (u32 (recvdonelen c + written)) c);
          ret (true, written - cbuf_written)
      end
  end.

(** The window adjust handling at the end of [writechannel]. *)
Definition adjust_window (i : nat) : ST chses unit :=
  let* c := chan i in
  do* when (recvdonelen c >=? RECV_WINDOWEXTEND)
        (do* send_msg_channel_window_adjust i (recvdonelen c);
         do* set_chan i (λ c, set_recvwindow (u32 (recvwindow c + recvdonelen c)) c);
         set_chan i (set_recvdonelen 0));
  let* c := chan i in
  do* dropbear_assert (recvwindow c <=? recv_window env) "channel->recvwindow <= opts.recv_window";
  let* wb := ptr (writebuf c) in
  do* dropbear_assert (recvwindow c <=? cbuf_getavail wb)
        "channel->recvwindow <= cbuf_getavail(channel->writebuf)";
  dropbear_assert (match extrabuf c with None => true | Some eb => recvwindow c <=? cbuf_getavail eb end)
    "channel->extrabuf == NULL || channel->recvwindow <= cbuf_getavail(channel->extrabuf)".

Definition writechannel (i : nat) (fd : Z) (w : chbuf) (moredata : option (list Z)) : ST chses (bool * Z) :=
  let* (res, morelen) := writechannel_writev i fd w moredata in
  do* adjust_window i;
  ret (res, morelen).

(** The loop that moves the rest of the packet to the circular buffer. *)
Fixpoint recv_data_loop (fuel : nat) (i : nat) (w : chbuf) (len : Z) : ST chses unit :=
  if len <=? 0 then ret tt
  else match fuel with
  | O => fault "out of fuel"
  | S fuel =>
      let* buflen := on_buf i w cbuf_writelen in
      let buflen := Z.min buflen len in
      let* p := on_buf i w (cbuf_writeptr buflen) in
      let* bs := on_tp (on_payload (let* q := buf_getptr buflen in mem_load q buflen)) in
      do* on_buf i w (cbuf_store p bs);
      do* on_buf i w (cbuf_incrwrite buflen);
      do* on_tp (on_payload (buf_incrpos buflen));
      recv_data_loop fuel i w (u32 (len - buflen))
  end.

Definition common_recv_msg_channel_data (i : nat) (fd : Z) (w : chbuf) : ST chses unit :=
  let* c := chan i in
  do* exit_if (recv_eof c) "Received data after eof";
  match the_buf w c with
  | None => ret tt
  | Some cbuf =>
      if fd <? 0 then ret tt
      else
        let* datalen := on_tp (on_payload buf_getint) in
        let maxdata := cbuf_getavail cbuf in
        do* exit_if (datalen >? maxdata) "Oversized packet";
        do* dropbear_assert (recvwindow c >=? datalen) "channel->recvwindow >= datalen";
        do* set_chan i (λ c, set_recvwindow (u32 (recvwindow c - datalen)) c);
        let* c := chan i in
        do* dropbear_assert (recvwindow c <=? recv_window env) "channel->recvwindow <= opts.recv_window";
        let* data := on_tp (on_payload (let* q := buf_getptr datalen in mem_load q datalen)) in
        let* (res, consumed) := writechannel i fd w (Some data) in
        let datalen := u32 (datalen - consumed) in
        do* on_tp (on_payload (buf_incrpos consumed));
        when res (recv_data_loop (Z.to_nat datalen) i w datalen)
  end.

Definition recv_msg_channel_data : ST chses unit :=
  let* i := getchannel in
  let* c := chan i in
  common_recv_msg_channel_data i (writefd c) WRITEBUF.

(** src/src/cli-channel.c *)
Definition recv_msg_channel_extended_data : ST chses unit :=
  let* i := getchannel in
  let* c := chan i in
  if negb (ch_type c =? clichansess env) then ret tt
  else
    let* datatype := on_tp (on_payload buf_getint) in
    if negb (datatype =? SSH_EXTENDED_DATA_STDERR) then ret tt
    else common_recv_msg_channel_data i (errfd c) EXTRABUF.

(** ** Data towards the wire *)

Definition send_msg_channel_data (i : nat) (isextended : bool) : ST chses unit :=
  let* c := chan i in
  do* dropbear_assert (negb (sent_close c)) "!channel->sent_close";
  let fd := if isextended then errfd c else readfd c in
  do* dropbear_assert (fd >=? 0) "fd >= 0";
  let* s := get in
  let maxlen := Z.min (transwindow c) (transmaxpacket c) in
  let maxlen := Z.min maxlen
    (u32 (b_size (writepayload (pkt (tp s))) - 1 - 4 - 4 - (if isextended then 4 else 0))) in
  if maxlen =? 0 then ret tt
  else
    do* put_tp (buf_putbyte (if isextended then SSH_MSG_CHANNEL_EXTENDED_DATA else SSH_MSG_CHANNEL_DATA));
    do* put_tp (buf_putint (remotechan c));
    do* when isextended (put_tp (buf_putint SSH_EXTENDED_DATA_STDERR));
    let* s := get in
    let size_pos := b_pos (writepayload (pkt (tp s))) in
    do* put_tp (buf_putint 0);
    let* p := on_tp (on_writepayload (buf_getwriteptr maxlen)) in
    let* r := fd_read_call maxlen in
    let abandon := do* put_tp (buf_setpos 0); put_tp (buf_setlen 0) in
    match r with
    | FRIntr => abandon
    | FRError | FRData [] => do* close_chan_fd i fd SHUT_RD; abandon
    | FRData bs =>
        do* on_tp (on_writepayload (mem_store p bs));
        let* len := if read_mangler c then mangle env i bs else ret (zlen bs) in
        if len =? 0 then abandon
        else
          do* put_tp (buf_incrwritepos len);
          do* put_tp (buf_setpos size_pos);
          do* put_tp (buf_putint len);
          do* set_chan i (λ c, set_transwindow (u32 (transwindow c - len)) c);
          on_tp encrypt_packet
    end.

(** ** Received messages *)

Definition recv_msg_channel_eof : ST chses unit :=
  let* i := getchannel_msg (Some "EOF"%string) in
  do* set_chan i (set_recv_eof true);
  check_close i.

Definition recv_msg_channel_close : ST chses unit :=
  let* i := getchannel_msg (Some "Close"%string) in
  do* set_chan i (set_recv_eof true);
  do* set_chan i (set_recv_close true);
  check_close i.

Definition recv_msg_channel_request : ST chses unit :=
  let* i := getchannel in
  let* c := chan i in
  match ct_reqhandler (chantype env (ch_type c)) with
  | Some f => f i
  | None =>
      do* on_tp (on_payload buf_eatstring);
      let* wantreply := on_tp (on_payload buf_getbool) in
      when (negb (wantreply =? 0)) (send_msg_channel_failure i)
  end.

Definition recv_msg_channel_window_adjust : ST chses unit :=
  let* i := getchannel in
  let* incr := on_tp (on_payload buf_getint) in
  set_chan i (λ c,
    let newwin := u32 (transwindow c + incr) in
    set_transwindow (if newwin <? transwindow c then 4294967295 else newwin) c).

(** [strcmp(type, chantype->name)]; [buf_getstring] has added a NUL. *)
Definition names_type (type : list Z) (t : Z) : bool :=
  match cstr (type ++ [0]) with Some s => bytes_eqb s (ct_name (chantype env t)) | None => false end.

Definition recv_msg_channel_open : ST chses unit :=
  let* type := on_tp (on_payload buf_getstring) in
  let* remote := on_tp (on_payload buf_getint) in
  let* transwin := on_tp (on_payload buf_getint) in
  let* transmax := on_tp (on_payload buf_getint) in
  let transmax := Z.min transmax TRANS_MAX_PAYLOAD_LEN in
  let failure errtype := send_msg_channel_open_failure remote errtype [] [] in
  if zlen type >? MAX_NAME_LEN then failure SSH_OPEN_UNKNOWN_CHANNEL_TYPE
  else match List.find (names_type type) (chantypes env) with
  | None => failure SSH_OPEN_UNKNOWN_CHANNEL_TYPE
  | Some t =>
      let* channel := newchannel remote t transwin transmax in
      match channel with
      | None => failure SSH_OPEN_RESOURCE_SHORTAGE
      | Some i =>
          let* r := match ct_inithandler (chantype env t) with Some f => f i | None => ret 0 end in
          let has := match ct_inithandler (chantype env t) with Some _ => true | None => false end in
          if has && (r =? SSH_OPEN_IN_PROGRESS) then ret tt
          else if has && (r >? 0) then do* remove_channel i; failure r
          else
            do* update_channel_prio;
            let* c := chan i in
            send_msg_channel_open_confirmation i (recvwindow c) (recvmaxpacket c)
      end
  end.

(** [result == DROPBEAR_SUCCESS] is [true]. *)
Definition channel_connect_done (result : bool) (sock : Z) (i : nat) (errstring : list Z) : ST chses unit :=
  if result then
    do* set_chan i (λ c, set_conn_pending None (set_bidir_fd true (set_readfd sock (set_writefd sock c))));
    let* c := chan i in
    send_msg_channel_open_confirmation i (recvwindow c) (recvmaxpacket c)
  else
    let* c := chan i in
    do* send_msg_channel_open_failure (remotechan c) SSH_OPEN_CONNECT_FAILED errstring [];
    remove_channel i.

(** The caller adds the type specific fields and sends the packet. *)
Definition send_msg_channel_open_init (fd type : Z) : ST chses bool :=
  let* chan := newchannel 0 type 0 0 in
  match chan with
  | None => ret false
  | Some i =>
      do* log_fd (FNonblock fd);
      do* set_chan i (λ c, set_readfd fd (set_writefd fd c));
      do* modify (λ s, set_maxfd (Z.max (maxfd s) fd) s);
      do* set_chan i (λ c, set_await_open true (set_bidir_fd true c));
      do* put_tp (buf_putbyte SSH_MSG_CHANNEL_OPEN);
      do* put_tp (buf_putstring (ct_name (chantype env type)));
      do* put_tp (buf_putint (Z.of_nat i));
      do* put_tp (buf_putint (recv_window env));
      do* put_tp (buf_putint RECV_MAX_CHANNEL_DATA_LEN);
      ret true
  end.

Definition recv_msg_channel_open_confirmation : ST chses unit :=
  let* i := getchannel in
  let* c := chan i in
  do* exit_if (negb (await_open c)) "Unexpected channel reply";
  do* set_chan i (set_await_open false);
  let* remote := on_tp (on_payload buf_getint) in
  do* set_chan i (set_remotechan remote);
  let* transwin := on_tp (on_payload buf_getint) in
  do* set_chan i (set_transwindow transwin);
  let* transmax := on_tp (on_payload buf_getint) in
  do* set_chan i (set_transmaxpacket transmax);
  match ct_inithandler (chantype env (ch_type c)) with
  | None => update_channel_prio
  | Some f =>
      let* r := f i in
      if r >? 0 then remove_channel i else update_channel_prio
  end.

Definition recv_msg_channel_open_failure : ST chses unit :=
  let* i := getchannel in
  let* c := chan i in
  do* exit_if (negb (await_open c)) "Unexpected channel reply";
  do* set_chan i (set_await_open false);
  remove_channel i.

(** ** The main loop's part *)

(** The body of the loop of [channelio]. *)
Definition channelio_one (readfds writefds : Z → bool) (i : nat) : ST chses unit :=
  let* c := chan i in
  let rd := (readfd c >=? 0) && readfds (readfd c) in
  do* when rd (send_msg_channel_data i false);
  let* c := chan i in
  let er := errfd_is_read c && (errfd c >=? 0) && readfds (errfd c) in
  do* when er (send_msg_channel_data i true);
  let* c := chan i in
  let wr := (writefd c >=? 0) && writefds (writefd c) in
  do* when wr (let* _ := writechannel i (writefd c) WRITEBUF None in ret tt);
  let* c := chan i in
  let ew := errfd_is_write c && (errfd c >=? 0) && writefds (errfd c) in
  do* when ew (let* _ := writechannel i (errfd c) EXTRABUF None in ret tt);
  let* s := get in
  when (rd || er || wr || ew || channel_signal_pending s) (check_close i).

Fixpoint channelio_loop (fuel : nat) (readfds writefds : Z → bool) (i : nat) : ST chses unit :=
  let* s := get in
  if chansize s <=? Z.of_nat i then ret tt
  else match fuel with
  | O => fault "out of fuel"
  | S fuel =>
      do* match channels s !! i with
          | Some (Some _) => channelio_one readfds writefds i
          | _ => ret tt
          end;
      channelio_loop fuel readfds writefds (S i)
  end.

(** The table never grows beyond [MAX_CHANNELS - 1 + CHAN_EXTEND_SIZE]. *)
Definition max_chansize : nat := Z.to_nat (MAX_CHANNELS - 1 + CHAN_EXTEND_SIZE).

Definition channelio (readfds writefds : Z → bool) : ST chses unit :=
  do* channelio_loop max_chansize readfds writefds 0;
  handle_listeners env readfds.

(** The descriptors one channel adds to the two sets. *)
Definition chan_readfds (dataallowed allow_reads : bool) (c : Channel) : list Z :=
  if (transwindow c >? 0) && ((dataallowed && allow_reads) || read_mangler c) then
    (if readfd c >=? 0 then [readfd c] else [])
    ++ (if errfd_is_read c && (errfd c >=? 0) then [errfd c] else [])
  else [].
Definition chan_writefds (c : Channel) : list Z :=
  (if (writefd c >=? 0) && (used_of (writebuf c) >? 0) then [writefd c] else [])
  ++ (if errfd_is_write c && (errfd c >=? 0) && (used_of (extrabuf c) >? 0) then [errfd c] else []).

Definition setchannelfds (allow_reads : bool) (s : chses) : list Z * list Z :=
  let used := omap id (channels s) in
  (concat (map (chan_readfds (dataallowed (pkt (tp s))) allow_reads) used),
   concat (map chan_writefds used)).

Definition get_any_ready_channel (s : chses) : option Channel :=
  if chancount s =? 0 then None
  else List.find (λ c, negb (sent_eof c || recv_eof c) && negb (await_open c)) (omap id (channels s)).
End channels.
