(* ===== verification/ChannelData.v ===== *)
(** * Data on channels

    The two directions of a channel's data.  Towards the program: what the
    peer sends is written to the descriptor in order, what does not fit is
    kept in the circular buffer, and the window accounting balances.  Towards
    the wire: what is read from the descriptor goes into one message within
    the peer's window and packet size. *)

From Stdlib Require Import ZArith Lia.
From stdpp Require Import base list strings gmap.
From S2P Require Import Prelude.
From S2P Require Import Buffer.
From S2P Require Import CircBuffer.
From S2P Require Import Queue.
From S2P Require Import Random.
From S2P Require Import Algo.
From S2P Require Import Session.
From S2P Require Import Packet.
From S2P Require Import PacketRecv.
From S2P Require Import PacketStream.
From S2P Require Import Instances.
From S2P Require Import Transport.
From S2P Require Import ProcessPacket.
From S2P Require Import Channel.

(** ** Channels through their pointers *)

Section focus.
Context {CL : CryptoLib}.
Implicit Types (s : chses) (c : Channel) (i : nat).

(** Channel [i] of the table is [c]. *)
Definition has_chan s i c : Prop := channels s !! i = Some (Some c).

(** The session with channel [i] replaced. *)
Definition cv s i c : chses := set_channels (<[i := Some c]> (channels s)) s.

Lemma cv_self s i c : has_chan s i c → cv s i c = s.
Proof. intros H. unfold cv. rewrite list_insert_id by done. by destruct s. Qed.
Lemma cv_cv s i c c' : cv (cv s i c) i c' = cv s i c'.
Proof. unfold cv. cbn. by rewrite list_insert_insert_eq. Qed.
Lemma cv_has s i c c' : has_chan s i c → has_chan (cv s i c') i c'.
Proof. intros H. apply list_lookup_insert_eq. by eapply lookup_lt_Some. Qed.
Lemma cv_other s i j c : i ≠ j → channels (cv s i c) !! j = channels s !! j.
Proof. intros. by apply list_lookup_insert_ne. Qed.
Lemma cv_set_tp s i c t : cv (set_tp t s) i c = set_tp t (cv s i c).
Proof. done. Qed.
Lemma cv_set_fds s i c f : cv (set_fds f s) i c = set_fds f (cv s i c).
Proof. done. Qed.
Lemma cv_size s i c : chansize (cv s i c) = chansize s.
Proof. unfold chansize, zlen, cv. cbn. by rewrite length_insert. Qed.

Lemma wp_on_chan {A} (m : ST Channel A) E (Q : A → chses → Prop) s i c :
  has_chan s i c → wp m E (λ a c', Q a (cv s i c')) c → wp (on_chan i m) E Q s.
Proof. intros Hc H. eapply wp_zoom_ptr; [by rewrite Hc|]. exact H. Qed.

Lemma wp_chan E (Q : Channel → chses → Prop) s i c : has_chan s i c → Q c s → wp (chan i) E Q s.
Proof. intros Hc HQ. eapply wp_on_chan; [done|]. apply wp_get. by rewrite cv_self. Qed.

Lemma wp_set_chan f E (Q : unit → chses → Prop) s i c :
  has_chan s i c → Q tt (cv s i (f c)) → wp (set_chan i f) E Q s.
Proof. intros Hc HQ. by eapply wp_on_chan. Qed.

Lemma wp_on_buf {A} (m : ST circbuffer A) E (Q : A → chses → Prop) s i c w cb :
  has_chan s i c → the_buf w c = Some cb →
  wp m E (λ a cb', Q a (cv s i (set_buf w (Some cb') c))) cb → wp (on_buf i w m) E Q s.
Proof. intros Hc Hb H. eapply wp_on_chan; [done|]. by eapply wp_zoom_ptr. Qed.

Lemma set_buf_self w c cb : the_buf w c = Some cb → set_buf w (Some cb) c = c.
Proof. destruct w, c; cbn; by intros ->. Qed.

Lemma wp_on_tp {A} (m : ST sshsession A) E (Q : A → chses → Prop) s :
  wp m E (λ a t, Q a (set_tp t s)) (tp s) → wp (on_tp m) E Q s.
Proof. apply wp_zoom. Qed.

Lemma set_tp_self s : set_tp (tp s) s = s.
Proof. by destruct s. Qed.

Lemma wp_log_fd op E (Q : unit → chses → Prop) s :
  Q tt (set_fds (set_fd_log (fd_log (fds s) ++ [op]) (fds s)) s) → wp (log_fd op) E Q s.
Proof. done. Qed.
End focus.

(** ** Messages of the channel layer *)

Section messages.
Context {CL : CryptoLib} {ready : list (list Z) → sshsession → Prop} {T : Transport ready}.
Implicit Types (s : chses) (fs : list field) (msgs : list (list Z)).

Definition put_fields_tp {A} fs (k : ST chses A) : ST chses A := foldr (λ f k, do* put_tp f.1; k) k fs.

Lemma put_fields_on_tp {A} fs (m : ST sshsession unit) (k : ST chses A) s :
  put_fields_tp fs (do* on_tp m; k) s = (do* on_tp (put_fields fs m); k) s.
Proof.
  revert s. induction fs as [|[p w] fs IH]; intros s; [done|].
  change (put_fields_tp ((p, w) :: fs) (do* on_tp m; k)) with (do* put_tp p; put_fields_tp fs (do* on_tp m; k)).
  change (put_fields ((p, w) :: fs) m) with (do* on_writepayload p; put_fields fs m).
  unfold bind at 1 3. unfold put_tp, on_tp at 1 3, zoom, bind.
  by destruct (on_writepayload p (tp s)) as [[[] t]|e|x].
Qed.

(** Sending one message. *)
Lemma wp_tp_message {A} fs msgs (k : ST chses A) E Q s :
  ready msgs (tp s) → zlen msgs < 2 ^ 31 → Forall (λ f, puts f.1 f.2) fs →
  1 ≤ zlen (wire_of fs) ≤ TRANS_MAX_PAYLOAD_LEN →
  (∀ t, ready (msgs ++ [wire_of fs]) t → quiet t = quiet (tp s) → wp k E Q (set_tp t s)) →
  wp (put_fields_tp fs (do* on_tp encrypt_packet; k)) E Q s.
Proof.
  intros Hr Hn Hfs Hl HQ. unfold wp. rewrite put_fields_on_tp.
  change (wp (do* on_tp (put_fields fs encrypt_packet); k) E Q s). apply wp_bind, wp_on_tp.
  by eapply wp_message_last.
Qed.

Lemma wp_tp_message_last fs msgs E (Q : unit → chses → Prop) s :
  ready msgs (tp s) → zlen msgs < 2 ^ 31 → Forall (λ f, puts f.1 f.2) fs →
  1 ≤ zlen (wire_of fs) ≤ TRANS_MAX_PAYLOAD_LEN →
  (∀ t, ready (msgs ++ [wire_of fs]) t → quiet t = quiet (tp s) → Q tt (set_tp t s)) →
  wp (put_fields_tp fs (on_tp encrypt_packet)) E Q s.
Proof.
  intros Hr Hn Hfs Hl HQ.
  assert (H : wp (put_fields_tp fs (do* on_tp encrypt_packet; ret tt)) E Q s).
  { eapply wp_tp_message; [done..|]. intros. by apply wp_ret, HQ. }
  clear -H. revert s H. induction fs as [|f fs IH]; intros s; cbn [put_fields_tp foldr].
  - unfold wp, bind, ret. by destruct (on_tp encrypt_packet s) as [[[] ?]|?|?].
  - unfold wp, bind. destruct (put_tp f.1 s) as [[[] s']|?|?]; try done. apply IH.
Qed.
End messages.

Ltac fields_ok := repeat (apply Forall_cons; split); first [apply puts_int | by apply puts_byte | done].

(** ** Descriptors *)

Section descriptors.
Context {CL : CryptoLib}.
Implicit Types (s : chses) (c : Channel) (i : nat) (f : fdworld).

(** The bytes written to [fd]. *)
Definition fd_out (fd : Z) (l : list fd_op) : list Z :=
  concat (map (λ op, match op with FWrite fd' bs => if fd' =? fd then bs else [] | _ => [] end) l).

Lemma fd_out_app fd l1 l2 : fd_out fd (l1 ++ l2) = fd_out fd l1 ++ fd_out fd l2.
Proof. unfold fd_out. by rewrite map_app, concat_app. Qed.

(** [f] with further calls that write nothing. *)
Definition logged f (l : list fd_op) : fdworld := set_fd_log (fd_log f ++ l) f.
Definition silent (l : list fd_op) : Prop := ∀ fd, fd_out fd l = [].

Lemma logged_nil f : logged f [] = f.
Proof. unfold logged. rewrite app_nil_r. by destruct f. Qed.
Lemma logged_app f l1 l2 : logged (logged f l1) l2 = logged f (l1 ++ l2).
Proof. unfold logged. cbn. by rewrite app_assoc. Qed.
Lemma silent_nil : silent [].
Proof. done. Qed.
Lemma silent_app l1 l2 : silent l1 → silent l2 → silent (l1 ++ l2).
Proof. intros H1 H2 fd. by rewrite fd_out_app, H1, H2. Qed.

Definition close_error : string := "Error closing fd %d, %s".

Lemma set_fds_self s : set_fds (fds s) s = s.
Proof. by destruct s. Qed.

Lemma wp_m_close fd E (Q : unit → chses → Prop) s :
  E close_error → (∀ l, silent l → Q tt (set_fds (logged (fds s) l) s)) → wp (m_close fd) E Q s.
Proof.
  intros HE HQ. unfold m_close. apply wp_if; intros _.
  - apply wp_ret. specialize (HQ [] silent_nil). by rewrite logged_nil, set_fds_self in HQ.
  - apply wp_bind, wp_log_fd, wp_bind, wp_get, wp_exit_if; intros _; [done|]. by apply (HQ [FClose fd]).
Qed.

(** The channel without its descriptors. *)
Definition fdless c : Channel := set_errfd 0 (set_readfd 0 (set_writefd 0 c)).

(** Which directions [close_chan_fd] closes. *)
Definition closes c (how : Z) : bool * bool :=
  if bidir_fd c then (if how =? 0 then (false, true) else (true, false)) else (true, true).

Lemma drop_fd_fdless ci co fd c : fdless (drop_fd ci co fd c) = fdless c.
Proof.
  destruct c. unfold drop_fd, errfd_is_write, errfd_is_read; cbn.
  repeat (case_match; cbn in *); done.
Qed.

Lemma wp_close_chan_fd fd how E (Q : unit → chses → Prop) s i c :
  has_chan s i c → E close_error →
  (∀ l, silent l →
     Q tt (set_fds (logged (fds s) l) (cv s i (drop_fd (closes c how).1 (closes c how).2 fd c)))) →
  wp (close_chan_fd i fd how) E Q s.
Proof.
  intros Hc HE HQ. unfold close_chan_fd. apply wp_bind. eapply wp_chan; [done|].
  set (c' := drop_fd (closes c how).1 (closes c how).2 fd c) in *.
  assert (Hrest : ∀ l, silent l →
    wp (do* set_chan i (drop_fd (closes c how).1 (closes c how).2 fd);
        let* c := chan i in
        when (bidir_fd c && (readfd c =? FD_CLOSED) && (writefd c =? FD_CLOSED) && (errfd c =? FD_CLOSED))
          (m_close fd)) E Q (set_fds (logged (fds s) l) s)).
  { intros l Hl. apply wp_bind. eapply wp_set_chan; [exact Hc|]. rewrite cv_set_fds. fold c'.
    apply wp_bind. eapply wp_chan; [by eapply cv_has|]. apply wp_when; intros _.
    - apply wp_m_close; [done|]. intros l' Hl'. cbn [fds set_fds]. rewrite logged_app.
      apply (HQ (l ++ l')). by apply silent_app.
    - by apply (HQ l). }
  apply wp_bind. unfold closes in Hrest. apply wp_if; intros Hb; rewrite Hb in Hrest.
  - apply wp_bind, wp_log_fd, wp_ret. specialize (Hrest [FShutdown fd how]).
    destruct (how =? 0); by apply Hrest.
  - apply wp_bind, wp_m_close; [done|]. intros l Hl. by apply wp_ret, Hrest.
Qed.
End descriptors.

(** ** Flow control towards the program *)

Section flow.
Context {CL : CryptoLib} {ready : list (list Z) → sshsession → Prop} {T : Transport ready}.
Context (env : chan_env).
Implicit Types (s : chses) (c : Channel) (i : nat) (f : fdworld) (msgs : list (list Z)).

#[local] Abbreviation W := (recv_window env).

(** [parse_recv_window] keeps the option in this range. *)
Definition window_option : Prop := 0 < W ≤ MAX_RECV_WINDOW.

Definition cbuf_ok (cb : circbuffer) : Prop := wf_cbuf cb ∧ cb_size cb = W.
(** The bytes in the two buffers of a channel, and the sum that the flow
    control conserves: what the peer may still send, what is buffered, and
    what was delivered but not yet given back to the peer. *)
Definition buffered c : Z := used_of (writebuf c) + used_of (extrabuf c).
Definition balance c : Z := recvwindow c + recvdonelen c + buffered c.

Definition windows_ok c : Prop :=
  (∃ wb, writebuf c = Some wb ∧ cbuf_ok wb) ∧ (∀ eb, extrabuf c = Some eb → cbuf_ok eb) ∧
  0 ≤ recvwindow c ∧ 0 ≤ recvdonelen c.

Lemma used_nonneg (b : option circbuffer) : (∀ cb, b = Some cb → cbuf_ok cb) → 0 ≤ used_of b ≤ W ∨ b = None ∧ used_of b = 0.
Proof. destruct b as [cb|]; [|by right]. intros H. left. destruct (H cb eq_refl) as [(_&_&_&?&_) <-]. done. Qed.

Lemma windows_used c : windows_ok c →
  0 ≤ used_of (writebuf c) ∧ 0 ≤ used_of (extrabuf c).
Proof.
  intros ((wb&Hw&Hok)&He&_). split.
  - rewrite Hw. destruct Hok as [(_&_&_&?&_) _]. cbn. unfold cbuf_getused. lia.
  - destruct (used_nonneg (extrabuf c)); [done|lia..].
Qed.

Lemma avail_of cb : window_option → cbuf_ok cb → cbuf_getavail cb = W - cb_used cb.
Proof.
  unfold window_option, MAX_RECV_WINDOW. intros HW [(_&_&_&?&_) Hs]. unfold cbuf_getavail. rewrite Hs.
  apply u32_small. lia.
Qed.

Lemma the_buf_ok w c cb : windows_ok c → the_buf w c = Some cb → cbuf_ok cb.
Proof. intros ((wb&Hw&Hok)&He&_) Hb. destruct w; cbn in Hb; [congruence|by apply He]. Qed.

(** Replacing one of the buffers. *)
Lemma set_buf_windows w c cb cb' :
  windows_ok c → the_buf w c = Some cb → cbuf_ok cb' →
  windows_ok (set_buf w (Some cb') c) ∧
  buffered (set_buf w (Some cb') c) = buffered c + cb_used cb' - cb_used cb.
Proof.
  intros ((wb&Hw&Hok)&He&Hr&Hd) Hb Hcb. unfold buffered. destruct w; cbn in *.
  - rewrite Hb in *. cbn. unfold cbuf_getused. split; [|lia]. split_and!; [by eexists|done..].
  - rewrite Hb in *. cbn. unfold cbuf_getused. split; [|lia].
    split_and!; [by eexists| |done|done]. by intros eb [= <-].
Qed.

(** *** The window adjust message *)

Definition adjust_msg (remote incr : Z) : list Z :=
  [SSH_MSG_CHANNEL_WINDOW_ADJUST] ++ STORE32H remote ++ STORE32H incr.

(** A third of the window has been delivered. *)
Definition adjust_due c : bool := recvdonelen c >=? RECV_WINDOWEXTEND env.
Definition settled c : Channel :=
  if adjust_due c then set_recvdonelen 0 (set_recvwindow (recvwindow c + recvdonelen c) c) else c.
Definition settle_msgs c : list (list Z) :=
  if adjust_due c then [adjust_msg (remotechan c) (recvdonelen c)] else [].

Lemma settled_balance c : balance (settled c) = balance c.
Proof. unfold settled, balance, buffered. destruct (adjust_due c); cbn; lia. Qed.
Lemma settled_windows c : windows_ok c → windows_ok (settled c).
Proof.
  intros (Hw&He&Hr&Hd). unfold settled. destruct (adjust_due c); [|done].
  split_and!; [done|done|cbn; lia|cbn; lia].
Qed.
Lemma settled_buf w c : the_buf w (settled c) = the_buf w c.
Proof. unfold settled. by destruct (adjust_due c), w. Qed.

Lemma wp_window_adjust n msgs E (Q : unit → chses → Prop) s i c :
  ready msgs (tp s) → zlen msgs < 2 ^ 31 → has_chan s i c →
  (∀ t, ready (msgs ++ [adjust_msg (remotechan c) n]) t → quiet t = quiet (tp s) → Q tt (set_tp t s)) →
  wp (send_msg_channel_window_adjust i n) E Q s.
Proof.
  intros Hr Hn Hc HQ. unfold send_msg_channel_window_adjust. apply wp_bind. eapply wp_chan; [done|].
  eapply (wp_tp_message_last [(buf_putbyte SSH_MSG_CHANNEL_WINDOW_ADJUST, [SSH_MSG_CHANNEL_WINDOW_ADJUST]);
    (buf_putint (remotechan c), STORE32H (remotechan c)); (buf_putint n, STORE32H n)]);
    [done|done|fields_ok|by vm_compute|]. exact HQ.
Qed.

(** The end of [writechannel]: the adjust message and the assertions. *)
Lemma wp_adjust_window msgs E (Q : unit → chses → Prop) s i c :
  window_option → ready msgs (tp s) → zlen msgs < 2 ^ 31 → has_chan s i c → windows_ok c → balance c ≤ W →
  (∀ t, ready (msgs ++ settle_msgs c) t → quiet t = quiet (tp s) → Q tt (set_tp t (cv s i (settled c)))) →
  wp (adjust_window env i) E Q s.
Proof.
  intros HW Hr Hn Hc Hok Hbal HQ. pose proof (windows_used c Hok) as [Hu1 Hu2].
  assert (HW' : 0 < W ≤ 10485760) by exact HW.
  pose proof (settled_windows c Hok) as Hok'. pose proof (settled_balance c) as Hb'.
  assert (Hgo : ∀ t, ready (msgs ++ settle_msgs c) t → quiet t = quiet (tp s) →
    wp (let* c := chan i in
        do* dropbear_assert (recvwindow c <=? recv_window env) "channel->recvwindow <= opts.recv_window";
        let* wb := ptr (writebuf c) in
        do* dropbear_assert (recvwindow c <=? cbuf_getavail wb)
              "channel->recvwindow <= cbuf_getavail(channel->writebuf)";
        dropbear_assert (match extrabuf c with None => true | Some eb => recvwindow c <=? cbuf_getavail eb end)
          "channel->extrabuf == NULL || channel->recvwindow <= cbuf_getavail(channel->extrabuf)")
      E Q (set_tp t (cv s i (settled c)))).
  { intros t Ht Hqt. pose proof (windows_used _ Hok') as [Hv1 Hv2].
    pose proof Hok' as ((wb&Hwb&Hwbok)&Heb&Hr'&Hd'). unfold balance, buffered in Hbal, Hb'.
    rewrite <-Hb' in Hbal. pose proof (avail_of wb HW Hwbok) as Hav.
    apply wp_bind. eapply wp_chan; [by eapply (cv_has s)|].
    apply wp_bind, wp_assert; [lia|]. intros _. apply wp_bind. eapply wp_ptr; [done|].
    rewrite Hwb in *. cbn [used_of] in *. unfold cbuf_getused in *.
    apply wp_bind, wp_assert; [rewrite Hav; lia|]. intros _.
    apply wp_assert; [|intros _; by apply HQ].
    destruct (extrabuf (settled c)) as [eb|] eqn:He; [|done]. cbn [used_of] in *. unfold cbuf_getused in *.
    rewrite (avail_of eb HW (Heb eb eq_refl)). lia. }
  apply wp_bind. eapply wp_chan; [done|]. change (recvdonelen c >=? RECV_WINDOWEXTEND env) with (adjust_due c).
  apply wp_bind. unfold settled, settle_msgs in Hgo. apply wp_when; intros Hdue; rewrite Hdue in Hgo.
  - apply wp_bind. eapply wp_window_adjust; [done|done|done|]. intros t Ht Hqt.
    apply wp_bind. eapply wp_set_chan; [exact Hc|]. eapply wp_set_chan; [by eapply (cv_has s)|].
    rewrite cv_set_tp. rewrite !cv_set_tp, cv_cv.
    unfold balance, buffered in Hbal. destruct Hok as (_&_&?&?).
    rewrite u32_small by lia. by apply Hgo.
  - rewrite app_nil_r in Hgo. specialize (Hgo (tp s) Hr eq_refl). rewrite cv_self in Hgo by done.
    by rewrite set_tp_self in Hgo.
Qed.

(** *** [writechannel] *)

(** How many of [total] bytes the next [writev] takes. *)
Definition write_count s (total : Z) : Z :=
  match fd_writes (fds s) with WDone k :: _ => Z.max 0 (Z.min k total) | _ => 0 end.

(** The descriptors after [fd] took [bs]. *)
Definition wrote fd (bs : list Z) f f' : Prop :=
  (∀ fd', fd_out fd' (fd_log f') = fd_out fd' (fd_log f) ++ (if fd =? fd' then bs else [])) ∧
  (fd_writes f' = fd_writes f ∨ fd_writes f' = tail (fd_writes f)) ∧ fd_reads f' = fd_reads f.

Lemma wrote_nil fd f f' :
  (∀ fd', fd_out fd' (fd_log f') = fd_out fd' (fd_log f)) →
  (fd_writes f' = fd_writes f ∨ fd_writes f' = tail (fd_writes f)) → fd_reads f' = fd_reads f → wrote fd [] f f'.
Proof. intros H Hw Hr. split; [|done]. intros fd'. by destruct (fd =? fd'); rewrite app_nil_r. Qed.

Lemma concat_iov circ1 circ2 (more : option (list Z)) :
  concat (nonempty circ1 ++ nonempty circ2 ++ (match more with Some m => [m] | None => [] end)) =
  (circ1 ++ circ2) ++ default [] more.
Proof. rewrite <-app_assoc. destruct circ1, circ2, more; cbn; rewrite ?app_nil_r; done. Qed.

Lemma wp_fd_writev fd iov E (Q : write_event → chses → Prop) s :
  (∀ f, (∀ fd', fd_out fd' (fd_log f) = fd_out fd' (fd_log (fds s))) → fd_writes (fds s) = WError :: fd_writes f →
     fd_reads f = fd_reads (fds s) →
     Q WError (set_fds f s)) →
  (∀ f, wrote fd [] (fds s) f → write_count s (zlen (concat iov)) = 0 → Q WAgain (set_fds f s)) →
  (∀ f, let n := write_count s (zlen (concat iov)) in
     wrote fd (take (Z.to_nat n) (concat iov)) (fds s) f → Q (WDone n) (set_fds f s)) →
  wp (fd_writev fd iov) E Q s.
Proof.
  intros H1 H2 H3. apply wp_bind, wp_get. unfold write_count in *.
  destruct (fd_writes (fds s)) as [|[k| |] rest] eqn:Hw.
  - apply wp_ret. specialize (H2 (fds s)). rewrite set_fds_self in H2. apply H2; [|done]. apply wrote_nil; [done|by left|done].
  - apply wp_bind, wp_zoom, wp_modify, wp_bind, wp_log_fd, wp_ret. cbn [fds set_fds].
    apply H3. split_and!; [|right; cbn; by rewrite Hw|done]. intros fd'. cbn [fd_log set_fd_log set_fd_writes]. rewrite fd_out_app.
    f_equal. unfold fd_out. cbn. by rewrite app_nil_r.
  - apply wp_bind, wp_zoom, wp_modify, wp_ret. apply H2; [|done]. apply wrote_nil; [done|right; cbn; by rewrite Hw|done].
  - apply wp_bind, wp_zoom, wp_modify, wp_ret. by apply H1.
Qed.

Lemma cbuf_drop n cb cb' : wf_cbuf cb → 0 ≤ n →
  cbuf_contents cb' = drop (Z.to_nat (Z.min (cb_used cb) n)) (cbuf_contents cb) →
  cbuf_contents cb' = drop (Z.to_nat n) (cbuf_contents cb).
Proof.
  intros Hwf Hn ->. pose proof (cbuf_contents_length cb Hwf) as Hl. unfold zlen in Hl.
  destruct (Z.le_gt_cases n (cb_used cb)); [by rewrite Z.min_r by lia|].
  rewrite Z.min_l by lia. rewrite !drop_ge; [done|lia|lia].
Qed.

(** The channel after [n] bytes went to the descriptor. *)
Definition delivered w cb' (n : Z) c : Channel :=
  set_recvdonelen (recvdonelen c + n) (set_buf w (Some cb') c).

Lemma delivered_windows w cb cb' n c :
  windows_ok c → the_buf w c = Some cb → cbuf_ok cb' → 0 ≤ n →
  windows_ok (delivered w cb' n c) ∧
  balance (delivered w cb' n c) = balance c + n + cb_used cb' - cb_used cb.
Proof.
  intros Hok Hb Hcb Hn. destruct (set_buf_windows w c cb cb' Hok Hb Hcb) as [Hok' Hbuf].
  assert (Hd : recvdonelen (set_buf w (Some cb') c) = recvdonelen c ∧
               recvwindow (set_buf w (Some cb') c) = recvwindow c) by (by destruct w).
  destruct Hd as [Hd Hw]. destruct Hok' as (H1&H2&H3&H4). unfold delivered, balance in *.
  split.
  - split_and!; [destruct w; exact H1|destruct w; exact H2|destruct w; exact H3|].
    destruct Hok as (_&_&_&?). destruct w; cbn; lia.
  - assert (Hs : buffered (set_recvdonelen (recvdonelen c + n) (set_buf w (Some cb') c)) =
                 buffered (set_buf w (Some cb') c)) by (by destruct w).
    rewrite Hs, Hbuf. destruct w; cbn; lia.
Qed.

(** Closing descriptors leaves the windows alone. *)
Lemma fdless_windows c c' : fdless c' = fdless c → windows_ok c → windows_ok c'.
Proof.
  intros H. unfold windows_ok.
  pose proof (f_equal writebuf H) as H1. pose proof (f_equal extrabuf H) as H2.
  pose proof (f_equal recvwindow H) as H3. pose proof (f_equal recvdonelen H) as H4.
  cbn in *. by rewrite H1, H2, H3, H4.
Qed.
Lemma fdless_balance c c' : fdless c' = fdless c → balance c' = balance c.
Proof.
  intros H. unfold balance, buffered.
  pose proof (f_equal writebuf H) as H1. pose proof (f_equal extrabuf H) as H2.
  pose proof (f_equal recvwindow H) as H3. pose proof (f_equal recvdonelen H) as H4.
  cbn in *. by rewrite H1, H2, H3, H4.
Qed.

Lemma wp_writechannel fd w more msgs E (Q : bool * Z → chses → Prop) s i c cb :
  window_option → ready msgs (tp s) → zlen msgs < 2 ^ 31 → has_chan s i c → windows_ok c →
  the_buf w c = Some cb → balance c + zlen (default [] more) ≤ W →
  (∀ rest, fd_writes (fds s) = WError :: rest → E close_error) →
  (let q := cbuf_contents cb ++ default [] more in
   let n := write_count s (zlen q) in
   ∀ cb' f t, cbuf_ok cb' → cbuf_contents cb' = drop (Z.to_nat n) (cbuf_contents cb) →
     cb_used cb' = cb_used cb - Z.min (cb_used cb) n →
     wrote fd (take (Z.to_nat n) q) (fds s) f →
     let c1 := delivered w cb' n c in
     ready (msgs ++ settle_msgs c1) t → quiet t = quiet (tp s) →
     Q (true, n - Z.min (cb_used cb) n) (set_tp t (set_fds f (cv s i (settled c1))))) →
  (∀ c1 f t, fdless c1 = fdless c → wrote fd [] (fds s) f →
     (∃ rest, fd_writes (fds s) = WError :: rest) →
     c1 = drop_fd (closes c SHUT_WR).1 (closes c SHUT_WR).2 fd c →
     ready (msgs ++ settle_msgs c1) t → quiet t = quiet (tp s) →
     Q (false, 0) (set_tp t (set_fds f (cv s i (settled c1))))) →
  wp (writechannel env i fd w more) E Q s.
Proof.
  intros HW Hr Hn Hc Hok Hb Hbal HE HQ HF. pose proof (the_buf_ok w c cb Hok Hb) as [Hwf Hsz].
  pose proof (cbuf_contents_length cb Hwf) as Hcl. pose proof (zlen_nonneg (default [] more)) as Hm0.
  pose proof Hwf as (_&_&_&Hu&_&_).
  set (q := cbuf_contents cb ++ default [] more) in *. cbv zeta in HQ. set (n := write_count s (zlen q)) in *.
  assert (Hq : zlen q = cb_used cb + zlen (default [] more)) by (unfold q; rewrite zlen_app; lia).
  assert (Hnr : 0 ≤ n ≤ zlen q).
  { unfold n, write_count. destruct (fd_writes (fds s)) as [|[]]; lia. }
  assert (Hend : ∀ r c1 f, has_chan (set_fds f (cv s i c1)) i c1 → windows_ok c1 → balance c1 ≤ W →
    (∀ t, ready (msgs ++ settle_msgs c1) t → quiet t = quiet (tp s) →
       Q r (set_tp t (set_fds f (cv s i (settled c1))))) →
    wp (let* (res, morelen) := ret r in do* adjust_window env i; ret (res, morelen)) E Q (set_fds f (cv s i c1))).
  { intros [res morelen] c1 f Hc1 Hok1 Hb1 HQ1. apply wp_bind, wp_ret, wp_bind.
    eapply wp_adjust_window; [done|exact Hr|done|exact Hc1|done|done|]. intros t Ht Hqt. apply wp_ret.
    rewrite cv_set_fds, cv_cv. by apply HQ1. }
  assert (Hnone : ∀ f, wrote fd [] (fds s) f → n = 0 →
    wp (let* (res, morelen) := ret (true, 0) in do* adjust_window env i; ret (res, morelen)) E Q (set_fds f s)).
  { intros f Hf Hn0. assert (Hc1 : delivered w cb 0 c = c).
    { unfold delivered. rewrite set_buf_self by done. rewrite Z.add_0_r. by destruct c. }
    rewrite <-(cv_self s i c) by done. apply Hend; [by eapply (cv_has s)|done|lia|].
    intros t Ht Hqt. rewrite Hn0 in HQ. specialize (HQ cb f t). rewrite Hc1 in HQ.
    rewrite Z.min_r, Z.sub_0_r in HQ by lia. by apply HQ. }
  change (wp (let* r := writechannel_writev i fd w more in
              let* (res, morelen) := ret r in do* adjust_window env i; ret (res, morelen)) E Q s).
  apply wp_bind. unfold writechannel_writev. apply wp_bind.
  eapply (wp_on_buf _ _ _ s i c w cb); [done|done|]. apply wp_cbuf_read_segments; [done|].
  intros s1 s2 Hs12. rewrite set_buf_self, cv_self by done.
  pose proof (concat_iov s1 s2 more) as Hiov. rewrite Hs12 in Hiov. fold q in Hiov.
  assert (Hs12l : zlen s1 + zlen s2 = cb_used cb) by (rewrite <-zlen_app, Hs12; lia).
  destruct (nonempty s1 ++ nonempty s2 ++ _) as [|x iov].
  { apply wp_ret. specialize (Hnone (fds s)). rewrite set_fds_self in Hnone. cbn [concat] in Hiov. apply Hnone.
    - apply wrote_nil; [done|by left|done].
    - rewrite <-Hiov in Hnr. change (zlen []) with 0 in Hnr. lia. }
  apply wp_bind, wp_fd_writev; rewrite ?Hiov; fold n.
  - intros f Hf Hw Hrds. apply wp_bind. eapply (wp_close_chan_fd _ _ _ _ (set_fds f s)); [exact Hc|by eapply HE|].
    intros l Hl. apply wp_ret. cbn [fds set_fds].
    set (c1 := drop_fd (closes c SHUT_WR).1 (closes c SHUT_WR).2 fd c).
    pose proof (drop_fd_fdless (closes c SHUT_WR).1 (closes c SHUT_WR).2 fd c) as Hfl. fold c1 in Hfl.
    apply Hend; [by eapply (cv_has s)|exact (fdless_windows c c1 Hfl Hok)| |].
    + rewrite (fdless_balance c c1 Hfl). lia.
    + intros t Ht Hqt. apply HF; [done| |by exists (fd_writes f)|done|done|done].
      apply wrote_nil; [|right; cbn; by rewrite Hw|exact Hrds].
      intros fd'. unfold logged. cbn [fd_log set_fd_log]. by rewrite fd_out_app, Hl, Hf, app_nil_r.
  - by apply Hnone.
  - cbv zeta. intros f Hf. apply wp_bind.
    eapply (wp_on_buf _ _ _ (set_fds f s) i c w cb); [exact Hc|done|].
    apply wp_cbuf_incrread; [done|lia| |lia]. intros _ cb' Hwf' Hsz' Hu' Hct'. rewrite Hs12l in *.
    assert (Hcb' : cbuf_ok cb') by (split; [done|congruence]).
    apply wp_bind. eapply wp_set_chan; [by eapply (cv_has s)|]. apply wp_ret.
    destruct (delivered_windows w cb cb' n c Hok Hb Hcb' ltac:(lia)) as [Hok1 Hb1].
    assert (Hdl : recvdonelen (set_buf w (Some cb') c) = recvdonelen c) by (by destruct w).
    assert (Hrd : 0 ≤ recvdonelen c + n < 2 ^ 32).
    { pose proof (windows_used c Hok). unfold balance, buffered in Hbal. destruct Hok as (_&_&?&?).
      unfold window_option, MAX_RECV_WINDOW in HW.
      assert (cb_used cb ≤ used_of (writebuf c) + used_of (extrabuf c)).
      { destruct w; cbn in Hb; rewrite Hb; cbn; unfold cbuf_getused; rewrite Hb in *; cbn in *; lia. }
      lia. }
    rewrite Hdl, u32_small by lia. rewrite cv_cv, cv_set_fds. fold (delivered w cb' n c).
    apply Hend; [by eapply (cv_has s)|done|lia|]. intros t Ht Hqt.
    apply HQ; [done|apply (cbuf_drop n cb cb'); [done|lia|exact Hct']|lia|done|done|done].
Qed.

(** *** Received data *)

(** [ses.payload] replaced. *)
Definition pv s b : chses := set_tp (on_pkt (set_payload (Some b)) (tp s)) s.
Definition has_payload s b : Prop := payload (pkt (tp s)) = Some b ∧ wf_buf b.

Lemma pv_self s b : payload (pkt (tp s)) = Some b → pv s b = s.
Proof. destruct s as [[? [] ? ? ? ? ? ?] ? ? ? ? ? ? ? ?]. cbn. by intros ->. Qed.

Lemma wp_payload {A} (m : ST buffer A) E (Q : A → chses → Prop) s b :
  payload (pkt (tp s)) = Some b → wp m E (λ a b', Q a (pv s b')) b → wp (on_tp (on_payload m)) E Q s.
Proof. intros Hb H. apply wp_on_tp. by eapply wp_zoom_ptr. Qed.

(** One round of the copy loop. *)
Lemma wp_recv_round {A} (k : Z → ST chses A) len E (Q : A → chses → Prop) s i c w cb b :
  has_chan s i c → the_buf w c = Some cb → cbuf_ok cb → has_payload s b →
  0 ≤ len → b_pos b + len ≤ b_len b →
  (let n := Z.min (cbuf_room cb) len in
   ∀ cb', cbuf_ok cb' → cb_readpos cb' = cb_readpos cb → cb_used cb' = cb_used cb + n →
     cbuf_contents cb' = cbuf_contents cb ++ slice (b_pos b) n (b_data b) →
     wp (k n) E Q (pv (cv s i (set_buf w (Some cb') c)) (after_get n b))) →
  wp (let* buflen := on_buf i w cbuf_writelen in
      let buflen := Z.min buflen len in
      let* p := on_buf i w (cbuf_writeptr buflen) in
      let* bs := on_tp (on_payload (let* q := buf_getptr buflen in mem_load q buflen)) in
      do* on_buf i w (cbuf_store p bs);
      do* on_buf i w (cbuf_incrwrite buflen);
      do* on_tp (on_payload (buf_incrpos buflen));
      k buflen) E Q s.
Proof.
  intros Hc Hb [Hwf Hsz] [Hp Hwb] Hlen Hfit HQ. pose proof (cbuf_room_bounds cb Hwf) as [Hroom _].
  apply wp_bind. eapply (wp_on_buf _ _ _ s i c w cb); [done|done|]. apply wp_cbuf_writelen; [done|].
  rewrite set_buf_self, cv_self by done. set (n := Z.min (cbuf_room cb) len) in *. cbv zeta in *.
  set (bs := slice (b_pos b) n (b_data b)) in *. pose proof Hwb as (?&?&?&?).
  assert (Hbs : zlen bs = n) by (unfold bs; rewrite zlen_slice; lia).
  assert (Hwr : wp (cbuf_write bs) E (λ _ cb', cbuf_ok cb' ∧ cb_readpos cb' = cb_readpos cb ∧
    cb_used cb' = cb_used cb + n ∧ cbuf_contents cb' = cbuf_contents cb ++ bs) cb).
  { apply wp_cbuf_write; [done|by apply bytes_ok_slice| |lia].
    intros _ cb' Hwf' Hs' Hr' Hu' Hc'. split_and!; [split; [done|congruence]|done|lia|done]. }
  unfold cbuf_write in Hwr. rewrite Hbs in Hwr. apply wp_bind_inv in Hwr.
  apply wp_bind. eapply (wp_on_buf _ _ _ s i c w cb); [done|done|].
  eapply wp_mono; [exact Hwr|]. clear Hwr. intros p cb1 Hwr. cbv beta in Hwr. apply wp_bind_inv in Hwr.
  assert (Hb1 : ∀ cb1, the_buf w (set_buf w (Some cb1) c) = Some cb1) by (by destruct w).
  apply wp_bind. eapply wp_payload; [exact Hp|]. apply wp_load_cursor; [done|lia| |lia]. intros _.
  rewrite pv_self by exact Hp. apply wp_bind.
  eapply (wp_on_buf _ _ _ _ i (set_buf w (Some cb1) c) w cb1); [by eapply cv_has|apply Hb1|].
  eapply wp_mono; [exact Hwr|]. clear Hwr. intros [] cb2 Hwr. cbv beta in Hwr. rewrite cv_cv.
  assert (Hss : ∀ cb1 cb2, set_buf w (Some cb2) (set_buf w (Some cb1) c) = set_buf w (Some cb2) c) by (by destruct w).
  rewrite Hss. apply wp_bind.
  eapply (wp_on_buf _ _ _ _ i (set_buf w (Some cb2) c) w cb2); [by eapply cv_has|apply Hb1|].
  eapply wp_mono; [exact Hwr|]. intros [] cb3 (Hok3&Hr3&Hu3&Hc3). rewrite cv_cv, Hss.
  apply wp_bind. eapply wp_payload; [exact Hp|]. apply wp_buf_incrpos; [done|lia| |lia]. intros _.
  by apply HQ.
Qed.

Lemma after_get_0 b : after_get 0 b = b.
Proof. destruct b. unfold after_get, set_pos. cbn. by rewrite Z.add_0_r. Qed.
Lemma recv_data_loop_0 fuel i w : recv_data_loop fuel i w 0 = ret tt.
Proof. by destruct fuel. Qed.

(** When the rest fits without wrapping, one round is enough. *)
Lemma wp_recv_one fuel len E (Q : unit → chses → Prop) s i c w cb b :
  window_option → has_chan s i c → the_buf w c = Some cb → cbuf_ok cb → has_payload s b →
  0 ≤ len ≤ cbuf_room cb → b_pos b + len ≤ b_len b → Z.min 1 len ≤ Z.of_nat fuel →
  (∀ cb', cbuf_ok cb' → cb_used cb' = cb_used cb + len →
     cbuf_contents cb' = cbuf_contents cb ++ slice (b_pos b) len (b_data b) →
     Q tt (pv (cv s i (set_buf w (Some cb') c)) (after_get len b))) →
  wp (recv_data_loop fuel i w len) E Q s.
Proof.
  intros HW Hc Hb Hcb Hp Hlen Hfit Hfuel HQ. destruct (Z.eq_dec len 0) as [->|Hl0].
  { rewrite recv_data_loop_0. apply wp_ret. specialize (HQ cb Hcb).
    rewrite slice_0, app_nil_r, set_buf_self, cv_self, after_get_0, pv_self in HQ by (done || apply Hp).
    apply HQ; [lia|done]. }
  destruct fuel as [|fuel]; [lia|]. cbn [recv_data_loop]. if_false.
  eapply (wp_recv_round (λ n, recv_data_loop fuel i w (u32 (len - n)))); [done|done|done|done|lia|done|].
  cbv zeta. rewrite Z.min_r by lia. intros cb' Hcb' _ Hu' Hc'. rewrite Z.sub_diag.
  change (u32 0) with 0. rewrite recv_data_loop_0. by apply wp_ret, HQ.
Qed.

(** Otherwise the buffer wraps around, and a second round finishes. *)
Lemma wp_recv_data_loop fuel len E (Q : unit → chses → Prop) s i c w cb b :
  window_option → has_chan s i c → the_buf w c = Some cb → cbuf_ok cb → has_payload s b →
  0 ≤ len ≤ W - cb_used cb → b_pos b + len ≤ b_len b → Z.min 2 len ≤ Z.of_nat fuel →
  (∀ cb', cbuf_ok cb' → cb_used cb' = cb_used cb + len →
     cbuf_contents cb' = cbuf_contents cb ++ slice (b_pos b) len (b_data b) →
     Q tt (pv (cv s i (set_buf w (Some cb') c)) (after_get len b))) →
  wp (recv_data_loop fuel i w len) E Q s.
Proof.
  intros HW Hc Hb Hcb Hp Hlen Hfit Hfuel HQ.
  destruct (Z.le_gt_cases len (cbuf_room cb)) as [Hr|Hr]; [by eapply wp_recv_one; try done; lia|].
  pose proof Hcb as [Hwf Hsz]. pose proof (cbuf_room_bounds cb Hwf) as [Hr0 Hrpos].
  assert (Hroom : 0 < cbuf_room cb) by (apply Hrpos; lia).
  destruct fuel as [|fuel]; [lia|]. cbn [recv_data_loop]. if_false.
  eapply (wp_recv_round (λ n, recv_data_loop fuel i w (u32 (len - n)))); [done|done|done|done|lia|done|].
  cbv zeta. rewrite Z.min_l by lia. set (n := cbuf_room cb) in *. intros cb1 Hcb1 Hrp Hu1 Hc1.
  assert (HW' : 0 < W ≤ 10485760) by exact HW. pose proof Hwf as (_&_&_&Hu&_). rewrite u32_small by lia.
  assert (Hroom1 : cbuf_room cb1 = cb_size cb1 - cb_used cb1).
  { apply (cbuf_room_after cb); [done|apply Hcb1| |done|done]. destruct Hcb1. congruence. }
  pose proof (Hcb1) as [_ Hs1]. destruct Hp as [Hp Hwb]. pose proof Hwb as (?&?&?&?).
  assert (Hwb1 : wf_buf (after_get n b)) by (apply wf_set_pos; [done|lia]).
  eapply (wp_recv_one fuel (len - n) E Q _ i (set_buf w (Some cb1) c) w cb1 (after_get n b));
    [done|by eapply (cv_has s)|by destruct w|done|done|lia|cbn; lia|lia|].
  intros cb2 Hcb2 Hu2 Hc2. rewrite after_get_get. replace (n + (len - n)) with len by lia.
  assert (Hst : pv (cv (pv (cv s i (set_buf w (Some cb1) c)) (after_get n b)) i
                  (set_buf w (Some cb2) (set_buf w (Some cb1) c))) (after_get len b) =
                pv (cv s i (set_buf w (Some cb2) c)) (after_get len b)).
  { transitivity (pv (cv (cv s i (set_buf w (Some cb1) c)) i (set_buf w (Some cb2) (set_buf w (Some cb1) c)))
                     (after_get len b)); [done|]. rewrite cv_cv. by destruct w. }
  rewrite Hst. apply HQ; [done|lia|]. rewrite Hc2, Hc1, <-app_assoc. f_equal.
  cbn [after_get set_pos b_pos b_data]. rewrite <-slice_app_split by lia. f_equal. lia.
Qed.

(** The payload holds the string [ds] at the cursor. *)
Definition string_at b (ds : list Z) : Prop :=
  bytes_ok ds ∧ b_pos b + 4 + zlen ds ≤ b_len b ∧
  slice (b_pos b) 4 (b_data b) = STORE32H (zlen ds) ∧ slice (b_pos b + 4) (zlen ds) (b_data b) = ds.

(** The window was extended by [k], with the message for it. *)
Definition extended (remote k : Z) (new : list (list Z)) : Prop :=
  new = [] ∧ k = 0 ∨ new = [adjust_msg remote k].

(** What receiving [ds] does when the descriptor takes bytes: they go out in
    order, the rest is buffered, and the peer's window is accounted for. *)
Definition data_taken s s' msgs i fd w c cb ds : Prop :=
  ∃ c' cb' k new, let q := cbuf_contents cb ++ ds in let n := write_count s (zlen q) in
    has_chan s' i c' ∧ the_buf w c' = Some cb' ∧ cbuf_contents cb' = drop (Z.to_nat n) q ∧
    wrote fd (take (Z.to_nat n) q) (fds s) (fds s') ∧
    windows_ok c' ∧ balance c' = balance c ∧ recvwindow c' = recvwindow c - zlen ds + k ∧
    extended (remotechan c) k new ∧ ready (msgs ++ new) (tp s').

(** When writing fails, the descriptor is closed and the data are dropped. *)
Definition data_dropped s s' msgs i fd w c (ds : list Z) : Prop :=
  ∃ c' k new, (∃ rest, fd_writes (fds s) = WError :: rest) ∧
    has_chan s' i c' ∧ wrote fd [] (fds s) (fds s') ∧ the_buf w c' = the_buf w c ∧
    windows_ok c' ∧ balance c' = balance c - zlen ds ∧
    extended (remotechan c) k new ∧ ready (msgs ++ new) (tp s').

Lemma settled_extended c :
  ∃ k, extended (remotechan c) k (settle_msgs c) ∧ recvwindow (settled c) = recvwindow c + k.
Proof.
  unfold settled, settle_msgs. destruct (adjust_due c).
  - exists (recvdonelen c). split; [by right|done].
  - exists 0. split; [by left|lia].
Qed.

(** The part after the checks: write, then buffer what is left. *)
Definition take_data i fd w (datalen : Z) : ST chses unit :=
  let* data := on_tp (on_payload (let* q := buf_getptr datalen in mem_load q datalen)) in
  let* (res, consumed) := writechannel env i fd w (Some data) in
  let datalen := u32 (datalen - consumed) in
  do* on_tp (on_payload (buf_incrpos consumed));
  when res (recv_data_loop (Z.to_nat datalen) i w datalen).

Lemma wp_take_data fd w ds msgs (Q : unit → chses → Prop) s i c cb b :
  window_option → ready msgs (tp s) → zlen msgs < 2 ^ 31 → has_chan s i c → windows_ok c →
  the_buf w c = Some cb → has_payload s b → bytes_ok ds → b_pos b + zlen ds ≤ b_len b →
  slice (b_pos b) (zlen ds) (b_data b) = ds → balance c + zlen ds ≤ W →
  (∀ s', data_taken s s' msgs i fd w (set_recvwindow (recvwindow c + zlen ds) c) cb ds → Q tt s') →
  (∀ s', data_dropped s s' msgs i fd w (set_recvwindow (recvwindow c + zlen ds) c) ds → Q tt s') →
  wp (take_data i fd w (zlen ds)) (λ e, e = close_error) Q s.
Proof.
  intros HW Hr Hn Hc Hok Hb [Hp Hwb] Hds Hfit Hs Hbal HQ HF.
  pose proof (the_buf_ok w c cb Hok Hb) as Hcb. pose proof Hcb as [Hwf Hsz]. pose proof Hwf as (_&_&_&Hu&_).
  pose proof (cbuf_contents_length cb Hwf) as Hcl. pose proof (zlen_nonneg ds). pose proof Hwb as (?&?&?&?).
  assert (HW' : 0 < W ≤ 10485760) by exact HW.
  assert (Hused : cb_used cb + recvwindow c + recvdonelen c ≤ balance c).
  { pose proof (windows_used c Hok). unfold balance, buffered. destruct w; cbn in Hb; rewrite Hb in *; cbn in *;
      unfold cbuf_getused in *; lia. }
  pose proof Hok as (_&_&Hrw&Hrd).
  unfold take_data. apply wp_bind. eapply wp_payload; [exact Hp|].
  apply wp_load_cursor; [done|lia| |lia]. intros _. rewrite Hs, pv_self by done.
  apply wp_bind. eapply (wp_writechannel fd w (Some ds)); [done|done|done|done|done|done|cbn; lia|done| |].
  - cbn [default from_option id]. cbv zeta. set (q := cbuf_contents cb ++ ds).
    set (n := write_count s (zlen q)). intros cb1 f t Hcb1 Hc1 Hu1 Hwr Ht Hqt.
    assert (Hq : zlen q = cb_used cb + zlen ds) by (unfold q; rewrite zlen_app; lia).
    assert (Hnr : 0 ≤ n ≤ zlen q) by (unfold n, write_count; destruct (fd_writes (fds s)) as [|[]]; lia).
    set (m := n - Z.min (cb_used cb) n) in *. assert (Hm : 0 ≤ m ≤ zlen ds) by lia.
    set (c1 := delivered w cb1 n c) in *.
    destruct (delivered_windows w cb cb1 n c Hok Hb Hcb1 ltac:(lia)) as [Hok1 Hb1]. fold c1 in Hok1, Hb1.
    assert (Hpt : payload (pkt t) = Some b).
    { pose proof (f_equal (λ x, payload (pkt x)) Hqt) as Hpe. cbn in Hpe. congruence. }
    rewrite u32_small by lia. apply wp_bind. eapply wp_payload; [exact Hpt|].
    apply wp_buf_incrpos; [done|lia| |lia]. intros _. cbn [when].
    assert (Hwb1 : wf_buf (after_get m b)) by (apply wf_set_pos; [done|lia]).
    assert (Hbf : the_buf w (settled c1) = Some cb1) by (rewrite settled_buf; by destruct w).
    pose proof Hcb1 as [Hwf1 Hsz1]. pose proof Hwf1 as (_&_&_&Hu1'&_).
    eapply (wp_recv_data_loop _ (zlen ds - m) _ _ _ i (settled c1) w cb1 (after_get m b));
      [done|by eapply (cv_has s)|done|done|done|lia|cbn; lia|lia|].
    intros cb2 Hcb2 Hu2 Hc2. cbn [after_get set_pos b_pos b_data] in Hc2.
    apply HQ. destruct (settled_extended c1) as (k&Hk&Hrwk).
    destruct (set_buf_windows w (settled c1) cb1 cb2 (settled_windows c1 Hok1) Hbf Hcb2) as [Hok2 Hbuf2].
    exists (set_buf w (Some cb2) (settled c1)), cb2, k, (settle_msgs c1). cbv zeta. fold q n.
    pose proof (settled_balance c1) as Hsb.
    assert (Hrd2 : recvdonelen (set_buf w (Some cb2) (settled c1)) = recvdonelen (settled c1)) by (by destruct w).
    assert (Hrw2 : recvwindow (set_buf w (Some cb2) (settled c1)) = recvwindow (settled c1)) by (by destruct w).
    assert (Hrc1 : recvwindow c1 = recvwindow c) by (by destruct w).
    split_and!; [by eapply (cv_has (cv s i (settled c1))), (cv_has s)|by destruct w| |done|done| | | |].
    + rewrite Hc2, Hc1. unfold q. rewrite drop_app. f_equal. unfold zlen in Hcl.
      replace (Z.to_nat n - length (cbuf_contents cb))%nat with (Z.to_nat m) by lia.
      transitivity (drop (Z.to_nat m) (slice (b_pos b) (zlen ds) (b_data b))); [|by rewrite Hs].
      unfold slice. rewrite skipn_firstn_comm, drop_drop. f_equal; [lia|]. f_equal. lia.
    + unfold balance in *. rewrite Hrd2, Hrw2, Hbuf2. unfold buffered in *. cbn. lia.
    + rewrite Hrw2, Hrwk, Hrc1. cbn. lia.
    + assert (Hrem : remotechan c1 = remotechan c) by (by destruct w). rewrite Hrem in Hk. exact Hk.
    + eapply tr_same; [exact Ht|done].
  - intros c1 f t Hfl Hwr Hex Hcl1 Ht Hqt.
    assert (Hpt : payload (pkt t) = Some b).
    { pose proof (f_equal (λ x, payload (pkt x)) Hqt) as Hpe. cbn in Hpe. congruence. }
    rewrite Z.sub_0_r, u32_small by lia. apply wp_bind. eapply wp_payload; [exact Hpt|].
    apply wp_buf_incrpos; [done|lia| |lia]. intros _. cbn [when]. apply wp_ret, HF.
    destruct (settled_extended c1) as (k&Hk&Hrwk).
    exists (settled c1), k, (settle_msgs c1). split_and!; [done|by eapply (cv_has s)|done| | | | |].
    + rewrite settled_buf. destruct w; [exact (f_equal writebuf Hfl)|exact (f_equal extrabuf Hfl)].
    + by apply settled_windows, (fdless_windows c).
    + rewrite settled_balance, (fdless_balance c c1 Hfl). unfold balance, buffered. cbn. lia.
    + assert (Hrem : remotechan c1 = remotechan c) by exact (f_equal remotechan Hfl). rewrite Hrem in Hk. exact Hk.
    + eapply tr_same; [exact Ht|done].
Qed.
End flow.

(** C20: Data of a peer reaches the program unchanged and in order, and the
    windows balance.  For data within the window, what the descriptor takes
    are the first bytes of the buffered data followed by the new data, and
    the circular buffer holds the rest, also when it wraps around.  The sum of
    the window, the buffered bytes and the delivered bytes not yet given back
    stays the same, and the window the peer sees grows exactly by the
    increment of the message it is sent.  If writing fails the data are
    dropped and the descriptor is closed.  No assertion of the code fails and
    the copy loop ends. *)
Theorem channel_data_delivery {CL : CryptoLib} {ready} {T : Transport ready} (env : chan_env) msgs s i c cb w fd b ds :
  window_option env → ready msgs (tp s) → zlen msgs < 2 ^ 31 →
  has_chan s i c → windows_ok env c → balance c ≤ recv_window env → the_buf w c = Some cb →
  recv_eof c = false → 0 ≤ fd → has_payload s b → string_at b ds → zlen ds ≤ recvwindow c →
  wp (common_recv_msg_channel_data env i fd w) (λ e, e = close_error)
    (λ _ s', data_taken (ready := ready) env s s' msgs i fd w c cb ds ∨
             data_dropped (ready := ready) env s s' msgs i fd w c ds) s.
Proof.
  intros HW Hr Hn Hc Hok Hbal Hb Heof Hfd [Hp Hwb] (Hds&Hfit&Hlen&Hdat) Hwin.
  pose proof (the_buf_ok env w c cb Hok Hb) as Hcb. pose proof (zlen_nonneg ds). pose proof Hwb as (?&?&?&?).
  pose proof Hcb as [(_&_&_&Hu0&_) _]. pose proof (windows_used env c Hok) as [Hu1 Hu2]. pose proof Hok as (_&_&Hrw&Hrd).
  assert (HW' : 0 < recv_window env ≤ 10485760) by exact HW.
  assert (Hused : recvwindow c + cb_used cb ≤ recv_window env).
  { unfold balance, buffered in Hbal. destruct w; cbn in Hb; rewrite Hb in *; cbn in *; unfold cbuf_getused in *; lia. }
  unfold common_recv_msg_channel_data. apply wp_bind. eapply wp_chan; [done|].
  apply wp_bind, wp_exit_if; [by rewrite Heof|]. intros _. rewrite Hb. if_false.
  apply wp_bind. eapply wp_payload; [exact Hp|]. apply wp_buf_getint; [done| |lia]. intros _.
  rewrite Hlen, LOAD32H_STORE32H by lia. apply wp_bind, wp_exit_if; [rewrite (avail_of env) by done; lia|].
  intros _. apply wp_bind, wp_assert; [lia|]. intros _.
  apply wp_bind. eapply wp_set_chan; [exact Hc|]. rewrite u32_small by lia.
  apply wp_bind. eapply wp_chan; [by eapply (cv_has s)|]. apply wp_bind, wp_assert; [cbn; lia|]. intros _.
  set (c1 := set_recvwindow (recvwindow c - zlen ds) c).
  assert (Hc1 : set_recvwindow (recvwindow c1 + zlen ds) c1 = c).
  { transitivity (set_recvwindow (recvwindow c - zlen ds + zlen ds) c); [done|]. rewrite Z.sub_add. by destruct c. }
  assert (Hwb1 : wf_buf (after_get 4 b)) by (apply wf_set_pos; [done|lia]).
  change (wp (take_data env i fd w (zlen ds)) (λ e, e = close_error) (λ _ s',
    data_taken (ready := ready) env s s' msgs i fd w c cb ds ∨
    data_dropped (ready := ready) env s s' msgs i fd w c ds) (pv (cv s i c1) (after_get 4 b))).
  eapply (wp_take_data env fd w ds msgs _ (pv (cv s i c1) (after_get 4 b)) i c1 cb (after_get 4 b));
    [done|by eapply tr_same|done|by eapply (cv_has s)| |by destruct w|done|done|cbn; lia|exact Hdat| | |].
  - destruct Hok as (Ho1&Ho2&Ho3&Ho4). split_and!; [exact Ho1|exact Ho2|cbn; lia|exact Ho4].
  - unfold balance, buffered in *. cbn. lia.
  - intros s' Ht. left. rewrite Hc1 in Ht. exact Ht.
  - intros s' Ht. right. rewrite Hc1 in Ht. exact Ht.
Qed.

(** ** Progress *)

Section progress.
Context {CL : CryptoLib} {ready : list (list Z) → sshsession → Prop} {T : Transport ready}.
Context (env : chan_env).
Implicit Types (s : chses) (c : Channel).

(** [channelio] finds the descriptor writable [n] times. *)
Fixpoint write_rounds (n : nat) (i : nat) (fd : Z) : ST chses unit :=
  match n with
  | O => ret tt
  | S n => let* _ := writechannel env i fd WRITEBUF None in write_rounds n i fd
  end.

(** Every write takes at least one byte. *)
Definition accepting s : Prop := Forall (λ e, ∃ k, e = WDone k ∧ 1 ≤ k) (fd_writes (fds s)).

Lemma settled_done c : windows_ok env c → 0 ≤ recvdonelen (settled env c) ∧
  (recvdonelen (settled env c) < RECV_WINDOWEXTEND env ∨ recvdonelen (settled env c) = 0).
Proof.
  intros (_&_&_&Hd). unfold settled. destruct (adjust_due env c) eqn:Ha; cbn; [lia|].
  unfold adjust_due in Ha. lia.
Qed.

Lemma wp_write_rounds n fd msgs (Q : unit → chses → Prop) s i c wb :
  window_option env → ready msgs (tp s) → zlen msgs + Z.of_nat n < 2 ^ 31 → has_chan s i c → windows_ok env c →
  balance c ≤ recv_window env → writebuf c = Some wb → accepting s →
  cb_used wb ≤ Z.of_nat n ≤ zlen (fd_writes (fds s)) → (1 ≤ n)%nat →
  (∀ s' c', has_chan s' i c' → windows_ok env c' → balance c' = balance c → extrabuf c' = extrabuf c →
     used_of (writebuf c') = 0 →
     (recvdonelen c' < RECV_WINDOWEXTEND env ∨ recvdonelen c' = 0) →
     fd_out fd (fd_log (fds s')) = fd_out fd (fd_log (fds s)) ++ cbuf_contents wb → Q tt s') →
  wp (write_rounds n i fd) no_exit Q s.
Proof.
  intros HW. revert msgs s c wb Q. induction n as [|n IH]; [lia|].
  intros msgs s c wb Q Hr Hn Hc Hok Hbal Hwb Hacc [Hu Hlen] _ HQ. cbn [write_rounds]. apply wp_bind.
  pose proof (the_buf_ok env WRITEBUF c wb Hok Hwb) as Hcb. pose proof Hcb as [Hwf Hsz].
  pose proof Hwf as (_&_&_&Hu0&_). pose proof (cbuf_contents_length wb Hwf) as Hcl.
  assert (Hhead : write_count s (cb_used wb) = 0 → cb_used wb = 0).
  { unfold write_count. unfold accepting in Hacc. destruct (fd_writes (fds s)) as [|e l].
    - change (zlen []) with 0 in Hlen. lia.
    - apply Forall_cons in Hacc as [(k&->&Hk) _]. lia. }
  assert (Hrange : 0 ≤ write_count s (cb_used wb) ≤ cb_used wb)
    by (unfold write_count; destruct (fd_writes (fds s)) as [|[]]; lia).
  eapply (wp_writechannel env fd WRITEBUF None msgs); [done|done|lia|done|done|done|change (balance c + 0 ≤ recv_window env); lia| | |].
  { intros rest Hw. unfold accepting in Hacc. rewrite Hw in Hacc. apply Forall_cons in Hacc as [(k&?&_) _]. done. }
  2: { intros c1 f t _ _ (rest&Hw). unfold accepting in Hacc. rewrite Hw in Hacc.
       apply Forall_cons in Hacc as [(k&?&_) _]. done. }
  cbn [default]. rewrite app_nil_r, Hcl. cbv zeta. set (m := write_count s (cb_used wb)) in *.
  intros cb1 f t Hcb1 Hc1 Hu1 (Hwr&Hfw&_) Ht _. set (c1 := delivered WRITEBUF cb1 m c) in *.
  destruct (delivered_windows env WRITEBUF wb cb1 m c Hok Hwb Hcb1 ltac:(lia)) as [Hok1 Hb1]. fold c1 in Hok1, Hb1.
  pose proof (settled_windows env c1 Hok1) as Hok2. pose proof (settled_balance env c1) as Hb2.
  rewrite Z.min_r in Hu1 by lia. specialize (Hwr fd). rewrite Z.eqb_refl in Hwr.
  assert (Hwb2 : writebuf (settled env c1) = Some cb1) by (unfold settled; by destruct (adjust_due env c1)).
  assert (Heb2 : extrabuf (settled env c1) = extrabuf c) by (unfold settled; by destruct (adjust_due env c1)).
  assert (Hc2 : has_chan (set_tp t (set_fds f (cv s i (settled env c1)))) i (settled env c1)) by (by eapply (cv_has s)).
  destruct n as [|n].
  - apply wp_ret, (HQ _ (settled env c1)); [done|done|lia|done| |by apply settled_done|].
    + rewrite Hwb2. cbn. unfold cbuf_getused. lia.
    + cbn [fds set_tp set_fds]. rewrite Hwr. f_equal. apply take_ge. unfold zlen in Hcl. lia.
  - eapply (IH (msgs ++ settle_msgs env c1) _ (settled env c1) cb1);
      [done| |done|done|lia|done| | |lia|].
    + rewrite zlen_app. assert (zlen (settle_msgs env c1) ≤ 1) by (unfold settle_msgs; by destruct (adjust_due env c1)). lia.
    + unfold accepting. cbn [fds set_tp set_fds].
      destruct Hfw as [->| ->]; [done|]. unfold accepting in Hacc. by destruct Hacc.
    + cbn [fds set_tp set_fds]. split; [lia|].
      destruct Hfw as [->| ->]; [lia|]. unfold zlen in *. destruct (fd_writes (fds s)); cbn in *; lia.
    + intros s' c' Hc' Hok' Hb' He' Hu' Hd' Hout. apply (HQ s' c'); [done|done|lia|congruence|done|done|].
      cbn [fds set_tp set_fds] in Hout. rewrite Hout, Hwr, <-app_assoc, Hc1. by rewrite take_drop.
Qed.
End progress.

(** C23: Flow control does not stall.  If nothing was dropped on a channel and
    its descriptor keeps taking bytes, then after as many writes as there are
    buffered bytes everything has been written, in order, and the peer is
    left with at least two thirds of the window to send into. *)
Theorem window_reopens {CL : CryptoLib} {ready} {T : Transport ready} (env : chan_env) n fd msgs s i c wb :
  window_option env → ready msgs (tp s) → zlen msgs + Z.of_nat n < 2 ^ 31 → has_chan s i c → windows_ok env c →
  balance c = recv_window env → writebuf c = Some wb → used_of (extrabuf c) = 0 → accepting s →
  cb_used wb ≤ Z.of_nat n ≤ zlen (fd_writes (fds s)) → (1 ≤ n)%nat →
  wp (write_rounds env n i fd) no_exit (λ _ s', ∃ c', has_chan s' i c' ∧ buffered c' = 0 ∧
    0 < recvwindow c' ∧ 2 * recv_window env ≤ 3 * recvwindow c' ∧
    fd_out fd (fd_log (fds s')) = fd_out fd (fd_log (fds s)) ++ cbuf_contents wb) s.
Proof.
  intros HW Hr Hn Hc Hok Hbal Hwb Heb Hacc Hlen Hn1.
  eapply (wp_write_rounds env n fd msgs); [done|done|done|done|done|lia|done|done|done|done|].
  intros s' c' Hc' Hok' Hb' He' Hu' Hd' Hout. exists c'. unfold window_option, MAX_RECV_WINDOW in HW.
  assert (Hbuf : buffered c' = 0) by (unfold buffered; rewrite He'; lia).
  unfold balance in Hb'. rewrite Hbuf in Hb'. fold (balance c) in Hb'.
  assert (H3 : 3 * RECV_WINDOWEXTEND env ≤ recv_window env)
    by (unfold RECV_WINDOWEXTEND; apply Z.mul_div_le; lia).
  destruct Hok' as (_&_&?&?). split_and!; [done|done|lia|lia|done].
Qed.

(** C24: The copy loop ends.  The rest of a packet that fits into the circular
    buffer is copied in at most two rounds, one round per byte for less (one up to the end of the ring, one
    from its start), whatever the fill of the ring: the bytes are appended in
    order, the cursor of the payload moves behind them, and nothing fails. *)
Theorem copy_loop_two_rounds {CL : CryptoLib} (env : chan_env) fuel len s i c w cb b :
  window_option env → has_chan s i c → the_buf w c = Some cb → cbuf_ok env cb → has_payload s b →
  0 ≤ len ≤ recv_window env - cb_used cb → b_pos b + len ≤ b_len b → Z.min 2 len ≤ Z.of_nat fuel →
  ∃ cb', recv_data_loop fuel i w len s = Ok (tt, pv (cv s i (set_buf w (Some cb') c)) (after_get len b)) ∧
    cbuf_ok env cb' ∧ cbuf_contents cb' = cbuf_contents cb ++ slice (b_pos b) len (b_data b).
Proof.
  intros HW Hc Hb Hcb Hp Hlen Hfit Hfuel.
  assert (H : wp (recv_data_loop fuel i w len) no_exit (λ _ s', ∃ cb',
    s' = pv (cv s i (set_buf w (Some cb') c)) (after_get len b) ∧ cbuf_ok env cb' ∧
    cbuf_contents cb' = cbuf_contents cb ++ slice (b_pos b) len (b_data b)) s).
  { eapply wp_recv_data_loop; [done..|]. intros cb' H1 _ H3. by exists cb'. }
  apply wp_no_exit_run in H as ([]&s'&Hrun&cb'&->&H1&H2). by exists cb'.
Qed.

(** ** Witnesses *)

(** A program of one channel type without callbacks, a window of nine bytes. *)
Definition toy_chan_env : @chan_env toy_lib :=
  @mkchanenv toy_lib (λ _, @mkchantype toy_lib (bstr "session") None None None None None) [0] 9 5
    (λ _ bs, ret (zlen bs)) (λ _, ret tt).

(** A channel with two bytes in its ring buffer, which wraps at the end. *)
Definition toy_ring : circbuffer := mkcbuf 9 7 0 2 (Some [0; 0; 0; 0; 0; 0; 0; 7; 8]).
Definition toy_chan (win done : Z) : Channel :=
  mkchan 0 42 win 100 done 32768 50 4 3 FD_CLOSED false (Some toy_ring) None
    false false false false false None false false 0 DROPBEAR_PRIO_NORMAL.
Definition toy_chses (chs : list (option Channel)) (pl : buffer) (reads : list fd_read) (writes : list write_event) : @chses toy_lib :=
  @mkchses toy_lib (on_pkt (set_payload (Some pl)) (toy_received true false false 0 0)) chs (zlen (omap id chs))
    false (-1) 0 0 [] (mkfds reads writes (λ _, false) (λ _, false) []).

Lemma toy_chses_ready chs pl reads writes : toy_ready [] (tp (toy_chses chs pl reads writes)).
Proof. by apply toy_clear_ready. Qed.

Lemma toy_ring_ok : @cbuf_ok toy_lib toy_chan_env toy_ring.
Proof.
  split; [|done]. split_and!; cbn [toy_ring cb_size cb_readpos cb_writepos cb_used cb_data]; unfold MAX_CBUF_SIZE; try lia.
  split; [done|]. repeat (apply Forall_cons; split); try done; unfold byte_ok; lia.
Qed.

Lemma toy_windows win done : 0 ≤ win → 0 ≤ done → @windows_ok toy_lib toy_chan_env (toy_chan win done).
Proof. intros. split_and!; [|done..]. exists toy_ring. split; [done|apply toy_ring_ok]. Qed.

Definition toy_data : buffer := mkbuf [0; 0; 0; 3; 5; 6; 1] 7 0 7.
Lemma toy_data_wf : wf_buf toy_data.
Proof.
  split_and!; cbn [toy_data b_size b_pos b_len b_data]; try (unfold BUF_MAX_SIZE; lia); try done.
  repeat (apply Forall_cons; split); try done; unfold byte_ok; lia.
Qed.

Lemma channel_data_delivery_witness :
  let s := toy_chses [Some (toy_chan 7 0)] toy_data [] [WDone 4] in
  wp (common_recv_msg_channel_data toy_chan_env 0 4 WRITEBUF) (λ e, e = close_error) (λ _ s',
    data_taken (ready := toy_ready) toy_chan_env s s' [] 0 4 WRITEBUF (toy_chan 7 0) toy_ring [5; 6; 1] ∨
    data_dropped (ready := toy_ready) toy_chan_env s s' [] 0 4 WRITEBUF (toy_chan 7 0) [5; 6; 1]) s.
Proof.
  intros s. apply (channel_data_delivery (T := toy_transport) toy_chan_env [] s 0 (toy_chan 7 0) toy_ring WRITEBUF 4 toy_data [5; 6; 1]);
    [done|apply toy_chses_ready|done|done|apply toy_windows; lia|done|done|done|lia|by split; [|apply toy_data_wf]| |done].
  split_and!; [|done..]. repeat (apply Forall_cons; split); try done; unfold byte_ok; lia.
Defined.

Lemma window_reopens_witness :
  let s := toy_chses [Some (toy_chan 6 1)] toy_data [] [WDone 1; WDone 1] in
  wp (write_rounds toy_chan_env 2 0 4) no_exit (λ _ s', ∃ c', has_chan s' 0 c' ∧ buffered c' = 0 ∧
    0 < recvwindow c' ∧ 2 * recv_window toy_chan_env ≤ 3 * recvwindow c' ∧
    fd_out 4 (fd_log (fds s')) = fd_out 4 (fd_log (fds s)) ++ cbuf_contents toy_ring) s.
Proof.
  intros s. apply (window_reopens (T := toy_transport) toy_chan_env 2 4 [] s 0 (toy_chan 6 1) toy_ring);
    [done|apply toy_chses_ready|done|done|apply toy_windows; lia|done|done|done| |done|lia].
  repeat (apply Forall_cons; split); [..|done]; by exists 1.
Defined.

Lemma copy_loop_two_rounds_witness :
  let s := toy_chses [Some (toy_chan 6 0)] (set_pos 4 toy_data) [] [] in
  ∃ cb', recv_data_loop 2 0 WRITEBUF 3 s =
      Ok (tt, pv (cv s 0 (set_buf WRITEBUF (Some cb') (toy_chan 6 0))) (after_get 3 (set_pos 4 toy_data))) ∧
    cbuf_ok toy_chan_env cb' ∧ cbuf_contents cb' = [7; 8; 5; 6; 1].
Proof.
  intros s. apply (copy_loop_two_rounds toy_chan_env 2 3 s 0 (toy_chan 6 0) WRITEBUF toy_ring (set_pos 4 toy_data));
    [done|done|done|apply toy_ring_ok| |done|done|lia].
  split; [done|]. apply wf_set_pos; [apply toy_data_wf|done].
Defined.
