(* ===== verification/ChannelSend.v ===== *)
(** * Data towards the wire, and window adjustments

    [send_msg_channel_data] turns what a descriptor has to say into one data
    message that respects the peer's window and packet size, and
    [recv_msg_channel_window_adjust] enlarges that window without wrapping. *)

From Stdlib Require Import ZArith Lia.
From stdpp Require Import base list strings gmap.
From S2P Require Import Prelude.
From S2P Require Import Buffer.
From S2P Require Import CircBuffer.
From S2P Require Import Queue.
From S2P Require Import Random.
From S2P Require Import Algo.
From S2P Require Import Session.
From S2P Require Import Packet.
From S2P Require Import PacketRecv.
From S2P Require Import PacketStream.
From S2P Require Import Instances.
From S2P Require Import Transport.
From S2P Require Import ProcessPacket.
From S2P Require Import Channel.
From S2P Require Import ChannelData.

Section getchannel.
Context {CL : CryptoLib}.
Implicit Types (s : chses) (b : buffer).

(** The channel number at the cursor of the payload. *)
Definition chan_number b : Z := LOAD32H (slice (b_pos b) 4 (b_data b)).

Lemma chan_number_range b : wf_buf b → b_pos b + 4 ≤ b_len b → u32_ok (chan_number b).
Proof.
  intros (?&?&?&?) Hl. by apply LOAD32H_range, bytes_ok_slice.
Qed.

Definition unknown_channel (kind : option string) : string :=
  match kind with Some k => k +:+ " for unknown channel %d" | None => "Unknown channel %d" end.

Lemma wp_getchannel kind E (Q : nat → chses → Prop) s b :
  has_payload s b →
  (∀ c, b_pos b + 4 ≤ b_len b → has_chan s (Z.to_nat (chan_number b)) c →
     Q (Z.to_nat (chan_number b)) (pv s (after_get 4 b))) →
  (b_pos b + 4 ≤ b_len b → (∀ c, ¬ has_chan s (Z.to_nat (chan_number b)) c) → E (unknown_channel kind)) →
  (b_len b < b_pos b + 4 → E "Bad buf_getptr"%string) →
  wp (getchannel_msg kind) E Q s.
Proof.
  intros [Hp Hwf] HQ HE HE2. unfold getchannel_msg. apply wp_bind. eapply wp_payload; [exact Hp|].
  apply wp_buf_getint; [done| |done]. intros Hl. fold (chan_number b).
  apply wp_bind, wp_get. unfold chansize. cbn [channels pv set_tp].
  destruct (channels s !! Z.to_nat (chan_number b)) as [[c|]|] eqn:Hc.
  - pose proof (chan_number_range b Hwf Hl) as [Hn0 _]. apply lookup_lt_Some in Hc as Hlt.
    unfold zlen. if_false. by eapply wp_ret, HQ.
  - rewrite orb_true_r. apply wp_exit, HE; [done|]. intros c. unfold has_chan. by rewrite Hc.
  - rewrite orb_true_r. apply wp_exit, HE; [done|]. intros c. unfold has_chan. by rewrite Hc.
Qed.

Lemma wp_exit_run {S A} (m : ST S A) e (s : S) : wp m (λ e', e' = e) (λ _ _, False) s → m s = Exit e.
Proof. unfold wp. destruct (m s) as [[a s']|e'|w]; [done|by intros ->|done]. Qed.

Lemma sat_add x y : u32_ok x → u32_ok y →
  (if u32 (x + y) <? x then 4294967295 else u32 (x + y)) = Z.min (x + y) (2 ^ 32 - 1).
Proof.
  unfold u32_ok. intros Hx Hy. destruct (Z.lt_ge_cases (x + y) (2 ^ 32)).
  - rewrite u32_small by lia. if_false. lia.
  - rewrite u32_over by lia. if_true. lia.
Qed.
End getchannel.

(** C25: A window adjustment saturates.  The transmit window of the named
    channel becomes the sum of the old window and the increment, or 2^32-1
    when the 32-bit addition overflows, and nothing else changes; a message
    for a channel that does not exist ends the session. *)
Theorem window_adjust_saturates {CL : CryptoLib} s b :
  has_payload s b → b_pos b + 8 ≤ b_len b →
  let i := Z.to_nat (chan_number b) in
  let incr := chan_number (after_get 4 b) in
  match mjoin (channels s !! i) with
  | None => recv_msg_channel_window_adjust s = Exit "Unknown channel %d"
  | Some c => u32_ok (transwindow c) →
      recv_msg_channel_window_adjust s =
      Ok (tt, pv (cv s i (set_transwindow (Z.min (transwindow c + incr) (2 ^ 32 - 1)) c)) (after_get 8 b))
  end.
Proof.
  intros Hpay Hl i incr. pose proof Hpay as [Hp Hwf]. pose proof Hwf as (?&?&?&?).
  assert (Hwf1 : wf_buf (after_get 4 b)) by (apply wf_set_pos; [done|lia]).
  destruct (channels s !! i) as [[c|]|] eqn:Hc; cbn [mjoin option_join].
  - intros Ht.
    assert (H' : wp recv_msg_channel_window_adjust no_exit (λ _ s', s' =
      pv (cv s i (set_transwindow (Z.min (transwindow c + incr) (2 ^ 32 - 1)) c)) (after_get 8 b)) s).
    { apply wp_bind. eapply wp_getchannel; [exact Hpay| | |lia].
      2: { intros _ Hno. by destruct (Hno c). }
      intros c' _ Hc'. apply wp_bind. eapply wp_payload; [done|].
      apply wp_buf_getint; [done| |cbn; lia]. intros Hl2. rewrite after_get_get.
      eapply wp_set_chan; [exact Hc|]. change (LOAD32H _) with incr. cbv zeta.
      rewrite sat_add; [done|done|]. by apply chan_number_range. }
    apply wp_no_exit_run in H' as ([]&s'&Hrun&->). exact Hrun.
  - apply wp_exit_run. apply wp_bind. eapply wp_getchannel; [exact Hpay| |done|lia].
    intros c _ Hc'. unfold has_chan in Hc'. fold i in Hc'. congruence.
  - apply wp_exit_run. apply wp_bind. eapply wp_getchannel; [exact Hpay| |done|lia].
    intros c _ Hc'. unfold has_chan in Hc'. fold i in Hc'. congruence.
Qed.

(** ** Sending data *)

Section send_data.
Context {CL : CryptoLib} {ready : list (list Z) → sshsession → Prop} {T : Transport ready}.
Context (env : chan_env).
Implicit Types (s : chses) (c : Channel) (i : nat) (pl : buffer) (msgs : list (list Z)).

(** [ses.writepayload] replaced. *)
Definition wv s pl : chses := set_tp (wview (tp s) pl) s.

Lemma wp_put_fields_tp {A} fs acc (k : ST chses A) E Q s pl :
  Forall (λ f, puts f.1 f.2) fs → filled acc pl → zlen acc + zlen (wire_of fs) ≤ TRANS_MAX_PAYLOAD_LEN →
  (∀ pl', filled (acc ++ wire_of fs) pl' → wp k E Q (wv s pl')) →
  wp (put_fields_tp fs k) E Q (wv s pl).
Proof.
  intros Hfs. revert acc pl. induction Hfs as [|[m w] fs [Hw Hm] _ IH]; intros acc pl [Hacc Hsz] Hl HQ.
  { apply HQ. unfold wire_of. cbn. by rewrite app_nil_r. }
  cbn [fst snd] in *. change (wire_of ((m, w) :: fs)) with (w ++ wire_of fs) in *. rewrite zlen_app in Hl.
  pose proof (zlen_nonneg (wire_of fs)). pose proof (buf_acc_pos _ _ Hacc) as Hp.
  apply wp_bind, wp_on_tp, wp_zoom. apply Hm; [apply Hacc|change (b_pos pl + zlen w ≤ b_size pl); lia|].
  apply (IH (acc ++ w) (after_put w pl)); [split; [apply buf_acc_put; [done|done|lia]|done]|rewrite zlen_app; lia|].
  intros pl' Hpl'. apply HQ. by rewrite app_assoc.
Qed.

Lemma wv_self s : wv s (writepayload (pkt (tp s))) = s.
Proof. by destruct s as [[? [] ? ? ? ? ? ?] ? ? ? ? ? ? ? ?]. Qed.

(** The header of a data message, without the length of the data. *)
Definition data_head (ext : bool) (remote : Z) : list Z :=
  [if ext then SSH_MSG_CHANNEL_EXTENDED_DATA else SSH_MSG_CHANNEL_DATA] ++ STORE32H remote ++
  (if ext then STORE32H SSH_EXTENDED_DATA_STDERR else []).
Definition data_msg (ext : bool) (remote : Z) (bs : list Z) : list Z :=
  data_head ext remote ++ STORE32H (zlen bs) ++ bs.

Lemma data_head_length ext remote : zlen (data_head ext remote) = if ext then 9 else 5.
Proof. by destruct ext. Qed.

(** Reading into the buffer behind the header, then filling in the length. *)
Definition data_filled (head : Z) (bs : list Z) pl : buffer :=
  after_put (STORE32H (zlen bs))
    (set_pos head (mkbuf (splice (b_pos pl) bs (b_data pl)) (b_pos pl + zlen bs) (b_pos pl + zlen bs) (b_size pl))).

Lemma data_filled_ok h bs pl :
  filled (h ++ STORE32H 0) pl → bytes_ok h → bytes_ok bs → zlen h + 4 + zlen bs ≤ TRANS_MAX_PAYLOAD_LEN →
  wf_buf (data_filled (zlen h) bs pl) ∧ contents (data_filled (zlen h) bs pl) = h ++ STORE32H (zlen bs) ++ bs ∧
  b_size (data_filled (zlen h) bs pl) = TRANS_MAX_PAYLOAD_LEN.
Proof.
  intros [(Hwf&Hpl&Hc) Hsz] Hh Hb Hl. pose proof (contents_length pl Hwf) as Hcl. rewrite Hc, zlen_app, STORE32H_length in Hcl.
  pose proof Hwf as (Hs&Hp&Hd&Hby). pose proof (zlen_nonneg bs). pose proof (zlen_nonneg h).
  set (d1 := splice (b_pos pl) bs (b_data pl)).
  assert (Hd1 : zlen d1 = zlen (b_data pl)) by (unfold d1; rewrite zlen_splice; lia).
  assert (Hb1 : bytes_ok d1) by (by apply bytes_ok_splice).
  split_and!; [| |done].
  - apply wf_after_put; [|apply STORE32H_bytes|cbn; rewrite STORE32H_length; lia].
    unfold wf_buf. cbn. fold d1. split_and!; try lia; done.
  - unfold contents, data_filled. cbn [after_put set_pos b_pos b_len b_data b_size]. fold d1.
    rewrite STORE32H_length. replace (Z.max _ _) with (zlen h + (4 + zlen bs)) by lia.
    rewrite !slice_app_split by lia. rewrite Z.add_0_l. f_equal; [|f_equal].
    + rewrite slice_splice_before by (rewrite ?STORE32H_length; lia). unfold d1.
      rewrite slice_splice_before by lia. unfold contents in Hc.
      replace (b_len pl) with (zlen h + 4) in Hc by lia. rewrite slice_app_split in Hc by lia.
      apply app_inj_1 in Hc as [Hc _]; [done|]. apply Nat2Z.inj.
      change (zlen (slice 0 (zlen h) (b_data pl)) = zlen h). rewrite zlen_slice; lia.
    + rewrite <-(STORE32H_length (zlen bs)) at 1. apply slice_splice_same; rewrite ?STORE32H_length; lia.
    + rewrite slice_splice_after by (rewrite ?STORE32H_length; lia). unfold d1.
      replace (zlen h + 4) with (b_pos pl) by lia. apply slice_splice_same; lia.
Qed.

(** The client's escape handler swallows a character or lets it pass. *)
Definition mangle_law (E : string → Prop) : Prop :=
  ∀ i bs s, wp (mangle env i bs) E (λ r s', s' = s ∧ (r = 0 ∨ r = zlen bs)) s.

(** The most that may be sent at once. *)
Definition send_limit (ext : bool) c : Z :=
  Z.min (Z.min (transwindow c) (transmaxpacket c)) (TRANS_MAX_PAYLOAD_LEN - (if ext then 13 else 9)).

Definition data_fd (ext : bool) c : Z := if ext then errfd c else readfd c.

(** The descriptors after reading at most: nothing written. *)
Definition no_output s (f : fdworld) : Prop :=
  (∃ l, fd_log f = fd_log (fds s) ++ l ∧ silent l) ∧ ∃ k, fd_reads f = drop k (fd_reads (fds s)).
Definition read_from s (f : fdworld) : Prop :=
  fd_log f = fd_log (fds s) ∧ ∃ k, fd_reads f = drop k (fd_reads (fds s)).

(** What [send_msg_channel_data] leads to. *)
Inductive send_outcome s msgs i c (ext : bool) : chses → Prop :=
| SO_nothing s' f t :
    ready msgs t → quiet t = quiet (tp s) → no_output s f →
    s' = set_tp t (set_fds f s) → send_outcome s msgs i c ext s'
| SO_closed s' f t :
    ready msgs t → quiet t = quiet (tp s) → no_output s f →
    s' = set_tp t (set_fds f (cv s i (drop_fd (closes c SHUT_RD).1 (closes c SHUT_RD).2 (data_fd ext c) c))) →
    send_outcome s msgs i c ext s'
| SO_sent s' f t bs rest :
    fd_reads (fds s) = FRData bs :: rest →
    let ds := take (Z.to_nat (send_limit ext c)) bs in
    1 ≤ zlen ds ≤ send_limit ext c →
    ready (msgs ++ [data_msg ext (remotechan c) ds]) t → quiet t = quiet (tp s) →
    no_output s f →
    s' = set_tp t (set_fds f (cv s i (set_transwindow (transwindow c - zlen ds) c))) →
    send_outcome s msgs i c ext s'.

Definition reads_ok s : Prop := Forall (λ e, match e with FRData bs => bytes_ok bs | _ => True end) (fd_reads (fds s)).

Lemma quiet_wview (t : sshsession) pl : quiet (wview t pl) = quiet t.
Proof. done. Qed.

Lemma wp_put_wv (m : ST buffer unit) E (Q : unit → chses → Prop) s pl :
  wp m E (λ a pl', Q a (wv s pl')) pl → wp (put_tp m) E Q (wv s pl).
Proof. intros H. by apply wp_on_tp, wp_zoom. Qed.

(** Giving up: the payload buffer is reset. *)
Lemma wp_abandon msgs E (Q : unit → chses → Prop) s pl :
  ready msgs (tp s) → wf_buf pl → b_size pl = TRANS_MAX_PAYLOAD_LEN →
  (∀ t, ready msgs t → quiet t = quiet (tp s) → Q tt (set_tp t s)) →
  wp (do* put_tp (buf_setpos 0); put_tp (buf_setlen 0)) E Q (wv s pl).
Proof.
  intros Hr Hwf Hsz HQ. pose proof Hwf as (?&?&?&?).
  apply wp_bind, wp_on_tp, wp_zoom, wp_buf_setpos; [|cbn; lia]. intros _.
  apply wp_on_tp, wp_zoom, wp_buf_setlen; [|cbn; lia]. intros _.
  apply HQ; [|done]. apply (tr_reset msgs (tp s) (mkbuf (b_data pl) 0 0 (b_size pl))); try done.
  unfold wf_buf. cbn. split_and!; try lia; done.
Qed.

(** Sending what was read. *)
Lemma wp_send_read h msgs bs E (Q : unit → chses → Prop) s i c pl :
  ready msgs (tp s) → zlen msgs < 2 ^ 31 → has_chan s i c → filled (h ++ STORE32H 0) pl →
  bytes_ok h → bytes_ok bs → 1 ≤ zlen h → zlen h + 4 + zlen bs ≤ TRANS_MAX_PAYLOAD_LEN →
  1 ≤ zlen bs ≤ transwindow c → u32_ok (transwindow c) →
  (∀ t, ready (msgs ++ [h ++ STORE32H (zlen bs) ++ bs]) t → quiet t = quiet (tp s) →
     Q tt (set_tp t (cv s i (set_transwindow (transwindow c - zlen bs) c)))) →
  wp (do* put_tp (buf_incrwritepos (zlen bs));
      do* put_tp (buf_setpos (zlen h));
      do* put_tp (buf_putint (zlen bs));
      do* set_chan i (λ c, set_transwindow (u32 (transwindow c - zlen bs)) c);
      on_tp encrypt_packet) E Q (wv s (mkbuf (splice (b_pos pl) bs (b_data pl)) (b_len pl) (b_pos pl) (b_size pl))).
Proof.
  intros Hr Hn Hc Hf Hh Hb Hh1 Hl Hwin Hu HQ. unfold u32_ok in Hu.
  destruct (data_filled_ok h bs pl Hf Hh Hb Hl) as (Hwf'&Hc'&Hsz').
  destruct Hf as [(Hwf&Hpl&Hct) Hsz]. pose proof (contents_length pl Hwf) as Hcl.
  rewrite Hct, zlen_app, STORE32H_length in Hcl. pose proof Hwf as (?&?&Hd&?).
  assert (Hwf1 : wf_buf (mkbuf (splice (b_pos pl) bs (b_data pl)) (b_len pl) (b_pos pl) (b_size pl))).
  { unfold wf_buf. cbn. rewrite zlen_splice by lia. split_and!; try lia. by apply bytes_ok_splice. }
  apply wp_bind, wp_put_wv, wp_buf_incrwritepos; [done|lia| |cbn; lia]. intros _. cbn [b_data b_len b_pos b_size].
  rewrite Z.max_r by lia. apply wp_bind, wp_put_wv, wp_buf_setpos; [|cbn; lia]. intros _.
  apply wp_bind, wp_put_wv, wp_buf_putint; [| |cbn; lia].
  { unfold wf_buf. cbn. rewrite zlen_splice by lia. split_and!; try lia. by apply bytes_ok_splice. }
  intros _. fold (data_filled (zlen h) bs pl).
  apply wp_bind. eapply wp_set_chan; [exact Hc|]. rewrite u32_small by lia.
  apply wp_on_tp. eapply wp_mono; [eapply wp_exit_mono; [eapply (tr_send msgs (tp s) _ (data_filled (zlen h) bs pl))|by intros ?]|].
  - done.
  - done.
  - assert (Hz : zlen (h ++ STORE32H (zlen bs) ++ bs) = zlen h + (4 + zlen bs))
      by (rewrite !zlen_app, STORE32H_length; lia).
    split; [|rewrite Hz; lia]. apply bytes_ok_app. split; [exact Hh|].
    apply bytes_ok_app. split; [apply STORE32H_bytes|exact Hb].
  - done.
  - exact Hc'.
  - done.
  - intros [] t [Ht Hq]. by apply HQ.
Qed.

Lemma wp_fd_read maxlen E (Q : fd_read → chses → Prop) s :
  reads_ok s →
  (∀ f, read_from s f → Q FRIntr (set_fds f s)) →
  (∀ f, read_from s f → Q FRError (set_fds f s)) →
  (∀ f bs rest, read_from s f → fd_reads (fds s) = FRData bs :: rest → bytes_ok bs →
     Q (FRData (take (Z.to_nat maxlen) bs)) (set_fds f s)) →
  wp (fd_read_call maxlen) E Q s.
Proof.
  intros Hok H1 H2 H3. apply wp_bind, wp_get. unfold reads_ok in Hok.
  unfold read_from in *.
  destruct (fd_reads (fds s)) as [|[bs| |] rest] eqn:Hr.
  - apply wp_ret. rewrite <-(set_fds_self s). apply H2. split; [done|by exists 0%nat].
  - apply Forall_cons in Hok as [Hb _]. apply wp_bind, wp_zoom, wp_modify, wp_ret. eapply H3; [split; [done|by exists 1%nat]|done|done].
  - apply wp_bind, wp_zoom, wp_modify, wp_ret. apply H1. split; [done|by exists 1%nat].
  - apply wp_bind, wp_zoom, wp_modify, wp_ret. apply H2. split; [done|by exists 1%nat].
Qed.

(** The fields before the data. *)
Definition head_fields (ext : bool) (remote : Z) : list field :=
  [(buf_putbyte (if ext then SSH_MSG_CHANNEL_EXTENDED_DATA else SSH_MSG_CHANNEL_DATA),
    [if ext then SSH_MSG_CHANNEL_EXTENDED_DATA else SSH_MSG_CHANNEL_DATA]);
   (buf_putint remote, STORE32H remote)] ++
  (if ext then [(buf_putint SSH_EXTENDED_DATA_STDERR, STORE32H SSH_EXTENDED_DATA_STDERR)] else []).

Lemma head_wire ext remote : wire_of (head_fields ext remote) = data_head ext remote.
Proof. by destruct ext. Qed.

Lemma head_puts ext remote : Forall (λ f, puts f.1 f.2) (head_fields ext remote).
Proof. destruct ext; fields_ok. Qed.

(** From the header on. *)
Definition send_rest i c (ext : bool) (maxlen : Z) : ST chses unit :=
  let* s := get in
  let size_pos := b_pos (writepayload (pkt (tp s))) in
  do* put_tp (buf_putint 0);
  let* p := on_tp (on_writepayload (buf_getwriteptr maxlen)) in
  let* r := fd_read_call maxlen in
  let abandon := do* put_tp (buf_setpos 0); put_tp (buf_setlen 0) in
  match r with
  | FRIntr => abandon
  | FRError | FRData [] => do* close_chan_fd i (data_fd ext c) SHUT_RD; abandon
  | FRData bs =>
      do* on_tp (on_writepayload (mem_store p bs));
      let* len := if read_mangler c then mangle env i bs else ret (zlen bs) in
      if len =? 0 then abandon
      else
        do* put_tp (buf_incrwritepos len);
        do* put_tp (buf_setpos size_pos);
        do* put_tp (buf_putint len);
        do* set_chan i (λ c, set_transwindow (u32 (transwindow c - len)) c);
        on_tp encrypt_packet
  end.

Lemma wp_send_rest msgs (E : string → Prop) (Q : unit → chses → Prop) s i c ext pl :
  ready msgs (tp s) → zlen msgs < 2 ^ 31 → has_chan s i c → filled (data_head ext (remotechan c)) pl →
  u32_ok (transwindow c) → 0 ≤ transmaxpacket c → reads_ok s → E close_error → mangle_law E →
  send_limit ext c ≠ 0 →
  (∀ s', send_outcome s msgs i c ext s' → Q tt s') →
  wp (send_rest i c ext (send_limit ext c)) E Q (wv s pl).
Proof.
  intros Hr Hn Hc Hf Hu Htm Hrd HE Hmg Hlim HQ. unfold u32_ok in Hu.
  set (h := data_head ext (remotechan c)) in *. set (m := send_limit ext c) in *.
  pose proof (data_head_length ext (remotechan c)) as Hhl. fold h in Hhl.
  assert (Hm : 0 < m ≤ TRANS_MAX_PAYLOAD_LEN - zlen h - 4 ∧ m ≤ transwindow c).
  { unfold m, send_limit in *. rewrite Hhl. unfold TRANS_MAX_PAYLOAD_LEN in *. destruct ext; lia. }
  assert (Hhb : bytes_ok h).
  { unfold h, data_head. rewrite !bytes_ok_app. split_and!; [by destruct ext; apply Forall_singleton|apply STORE32H_bytes|].
    destruct ext; [apply STORE32H_bytes|constructor]. }
  pose proof (buf_acc_pos h pl (proj1 Hf)) as Hpos.
  apply wp_bind, wp_get. change (b_pos (writepayload (pkt (tp (wv s pl))))) with (b_pos pl). rewrite Hpos.
  apply wp_bind, wp_put_wv. destruct (puts_int 0) as [Hz0 Hput]. destruct Hf as [Hacc Hsz].
  assert (Hz : zlen (STORE32H 0) = 4) by done.
  apply Hput; [apply Hacc|rewrite Hz; destruct ext; lia|]. set (pl1 := after_put (STORE32H 0) pl).
  assert (Hf1 : filled (h ++ STORE32H 0) pl1).
  { split; [apply buf_acc_put; [done|done|rewrite Hz; destruct ext; lia]|done]. }
  pose proof Hf1 as [Hacc1 Hsz1]. pose proof (buf_acc_pos _ _ Hacc1) as Hpos1. rewrite zlen_app, Hz in Hpos1.
  pose proof Hacc1 as (Hwf1&Hpl1&_). pose proof Hwf1 as (?&?&Hdl&?).
  apply wp_bind, wp_on_tp, wp_zoom, wp_buf_getwriteptr; [done|lia| |].
  2: { change (b_size pl1 < b_pos pl1 + m → E "Bad buf_getwriteptr"%string). lia. }
  intros _. change (b_pos (writepayload (pkt (tp (wv s pl1))))) with (b_pos pl1).
  change (wp (let* r := fd_read_call m in
              let abandon := do* put_tp (buf_setpos 0); put_tp (buf_setlen 0) in
              match r with
              | FRIntr => abandon
              | FRError | FRData [] => do* close_chan_fd i (data_fd ext c) SHUT_RD; abandon
              | FRData bs =>
                  do* on_tp (on_writepayload (mem_store (b_pos pl1) bs));
                  let* len := if read_mangler c then mangle env i bs else ret (zlen bs) in
                  if len =? 0 then abandon
                  else
                    do* put_tp (buf_incrwritepos len);
                    do* put_tp (buf_setpos (zlen h));
                    do* put_tp (buf_putint len);
                    do* set_chan i (λ c, set_transwindow (u32 (transwindow c - len)) c);
                    on_tp encrypt_packet
              end) E Q (wv s pl1)).
  assert (Hsame : ∀ f, read_from s f → no_output s f)
    by (intros f [Hl Hk]; split; [exists []; by rewrite app_nil_r|exact Hk]).
  assert (Hclose : ∀ f, read_from s f →
    wp (do* close_chan_fd i (data_fd ext c) SHUT_RD; do* put_tp (buf_setpos 0); put_tp (buf_setlen 0)) E Q
      (set_fds f (wv s pl1))).
  { intros f [Hlog Hk]. apply wp_bind. eapply (wp_close_chan_fd _ _ _ _ (set_fds f (wv s pl1))); [exact Hc|done|].
    intros l Hl. set (c1 := drop_fd _ _ _ c). cbn [fds set_fds].
    change (set_fds (logged f l) (cv (set_fds f (wv s pl1)) i c1)) with (wv (set_fds (logged f l) (cv s i c1)) pl1).
    eapply (wp_abandon msgs); [exact Hr|exact Hwf1|exact Hsz1|]. intros t Ht Hqt.
    apply HQ. eapply SO_closed; [done|done| |done]. split; [|exact Hk]. exists l. split; [by cbn; rewrite Hlog|done]. }
  apply wp_bind, wp_fd_read; [exact Hrd| | |].
  - intros f Hlog. change (set_fds f (wv s pl1)) with (wv (set_fds f s) pl1).
    eapply (wp_abandon msgs); [exact Hr|exact Hwf1|exact Hsz1|]. intros t Ht Hqt.
    apply HQ. eapply SO_nothing; [done|done|by apply Hsame|done].
  - intros f Hlog. by apply Hclose.
  - intros f bs rest Hlog Hrds Hbs. destruct (take (Z.to_nat m) bs) as [|x ds0] eqn:Hds; [by apply Hclose|].
    set (ds := x :: ds0) in *. cbv zeta.
    assert (Hdl1 : 1 ≤ zlen ds ≤ m).
    { split; [unfold ds; rewrite zlen_cons; pose proof (zlen_nonneg ds0); lia|].
      rewrite <-Hds. unfold zlen. rewrite length_take. lia. }
    assert (Hdb : bytes_ok ds) by (rewrite <-Hds; by apply Forall_take).
    assert (Hfit : b_pos pl1 + zlen ds ≤ b_size pl1) by lia.
    set (pl2 := mkbuf (splice (b_pos pl1) ds (b_data pl1)) (b_len pl1) (b_pos pl1) (b_size pl1)).
    assert (Hwf2 : wf_buf pl2) by (apply wf_after_store; [done|done|lia|lia]).
    apply wp_bind, wp_on_tp, wp_zoom, wp_mem_store; [lia| |].
    { change (b_pos pl1 + zlen ds ≤ zlen (b_data pl1)). lia. }
    assert (Hgo : ∀ len, len = 0 ∨ len = zlen ds →
      wp (if len =? 0 then do* put_tp (buf_setpos 0); put_tp (buf_setlen 0)
          else
            do* put_tp (buf_incrwritepos len);
            do* put_tp (buf_setpos (zlen h));
            do* put_tp (buf_putint len);
            do* set_chan i (λ c, set_transwindow (u32 (transwindow c - len)) c);
            on_tp encrypt_packet) E Q (wv (set_fds f s) pl2)).
    { intros len [->| ->].
      - cbn [Z.eqb]. eapply (wp_abandon msgs); [exact Hr|exact Hwf2|exact Hsz1|]. intros t Ht Hqt.
        apply HQ. eapply SO_nothing; [done|done|by apply Hsame|done].
      - if_false. eapply (wp_send_read h msgs ds _ _ (set_fds f s) i c pl1);
          [exact Hr|exact Hn|exact Hc|exact Hf1|exact Hhb|exact Hdb|destruct ext; lia|lia|lia|exact Hu|].
        intros t Ht Hqt. apply HQ. rewrite <-Hds in *.
        eapply (SO_sent s msgs i c ext _ f t bs rest); [done|exact Hdl1|exact Ht|exact Hqt|by apply Hsame|done]. }
    apply wp_bind. destruct (read_mangler c).
    + eapply wp_mono; [apply Hmg|]. intros len s' [-> Hlen]. by apply Hgo.
    + apply wp_ret, Hgo. by right.
Qed.

Lemma limit_of_size (ext : bool) : u32 (TRANS_MAX_PAYLOAD_LEN - 1 - 4 - 4 - (if ext then 4 else 0)) =
  TRANS_MAX_PAYLOAD_LEN - (if ext then 13 else 9).
Proof. by destruct ext. Qed.

Lemma wp_send_msg_channel_data msgs (E : string → Prop) (Q : unit → chses → Prop) s i c ext :
  ready msgs (tp s) → zlen msgs < 2 ^ 31 → has_chan s i c → sent_close c = false → 0 ≤ data_fd ext c →
  u32_ok (transwindow c) → 0 ≤ transmaxpacket c → reads_ok s → E close_error → mangle_law E →
  (∀ s', send_outcome s msgs i c ext s' → Q tt s') →
  wp (send_msg_channel_data env i ext) E Q s.
Proof.
  intros Hr Hn Hc Hsc Hfd Hu Htm Hrd HE Hmg HQ. unfold send_msg_channel_data.
  apply wp_bind. eapply wp_chan; [done|]. rewrite Hsc. apply wp_bind, wp_assert; [done|]. intros _.
  fold (data_fd ext c). apply wp_bind, wp_assert; [lia|]. intros _. apply wp_bind, wp_get.
  pose proof (tr_clear msgs (tp s) Hr) as Hclr. pose proof (clear_filled _ Hclr) as Hf0.
  destruct Hclr as (_&_&_&Hsz). rewrite Hsz, limit_of_size. fold (send_limit ext c).
  destruct (Z.eqb_spec (send_limit ext c) 0) as [Hl|Hl].
  - apply wp_ret, HQ. eapply (SO_nothing _ _ _ _ _ _ (fds s) (tp s)); [done|done| |by destruct s].
    split; [exists []; by rewrite app_nil_r|by exists 0%nat].
  - rewrite <-(wv_self s) at 1.
    assert (Hgo : wp (put_fields_tp (head_fields ext (remotechan c)) (send_rest i c ext (send_limit ext c))) E Q
      (wv s (writepayload (pkt (tp s))))).
    { eapply wp_put_fields_tp; [apply head_puts|exact Hf0| |].
      - rewrite head_wire, data_head_length. by destruct ext.
      - rewrite head_wire. cbn [app]. intros pl' Hf. by eapply wp_send_rest. }
    destruct ext; exact Hgo.
Qed.
End send_data.

(** C21: A data message respects the peer's limits and carries what was read.
    Sending from an open descriptor leads to one of three outcomes: nothing
    to send (no window, an interrupted read, or a swallowed escape
    character), the descriptor closed at its end of file, or one data message
    with exactly the first bytes that were read, at most as many as the
    peer's window, its packet size and the payload buffer allow, while the
    window shrinks by that number.  The payload buffer is clear again in
    every case and no assertion fails. *)
Theorem channel_data_sent {CL : CryptoLib} {ready} {T : Transport ready} (env : chan_env) msgs (E : string → Prop) s i c ext :
  ready msgs (tp s) → zlen msgs < 2 ^ 31 → has_chan s i c → sent_close c = false → 0 ≤ data_fd ext c →
  u32_ok (transwindow c) → 0 ≤ transmaxpacket c → reads_ok s → E close_error → mangle_law env E →
  wp (send_msg_channel_data env i ext) E (λ _ s', send_outcome (ready := ready) s msgs i c ext s') s.
Proof. intros. eapply wp_send_msg_channel_data; eauto. Qed.

(** ** Witnesses *)

Definition toy_adjust : buffer := mkbuf [0; 0; 0; 0; 255; 255; 255; 255] 8 0 8.
Lemma toy_adjust_wf : wf_buf toy_adjust.
Proof.
  split_and!; cbn [toy_adjust b_size b_pos b_len b_data]; try (unfold BUF_MAX_SIZE; lia); try done.
  repeat (apply Forall_cons; split); try done; unfold byte_ok; lia.
Qed.

Lemma window_adjust_saturates_witness :
  let s := toy_chses [Some (toy_chan 7 0)] toy_adjust [] [] in
  recv_msg_channel_window_adjust s =
  Ok (tt, pv (cv s 0 (set_transwindow 4294967295 (toy_chan 7 0))) (after_get 8 toy_adjust)).
Proof.
  intros s. apply (window_adjust_saturates s toy_adjust); [by split; [|apply toy_adjust_wf]|done|].
  unfold u32_ok. cbn [transwindow toy_chan]. lia.
Defined.

Lemma toy_mangle E : mangle_law toy_chan_env E.
Proof. intros i bs s. apply wp_ret. auto. Qed.

Lemma channel_data_sent_witness :
  let s := toy_chses [Some (toy_chan 7 0)] toy_adjust [FRData [1; 2; 3]] [] in
  wp (send_msg_channel_data toy_chan_env 0 false) (λ e, e = close_error)
    (λ _ s', send_outcome (ready := toy_ready) s [] 0 (toy_chan 7 0) false s') s.
Proof.
  intros s. apply (channel_data_sent (T := toy_transport) toy_chan_env [] (λ e, e = close_error) s 0 (toy_chan 7 0) false);
    [apply toy_chses_ready|done|done|done|done| |done| |done|apply toy_mangle].
  - unfold u32_ok. cbn [transwindow toy_chan]. lia.
  - apply Forall_singleton. repeat (apply Forall_cons; split); try done; unfold byte_ok; lia.
Defined.
