(* ===== verification/ChannelTable.v ===== *)
(** * The channel table: allocation, closing, and the invariant

    What holds of every channel at all times ([chan_ok]), and that no message
    of a peer and no event on a descriptor can break it, reach freed memory or
    trip one of the program's own assertions.  The callbacks of the channel
    types are assumed to keep the invariant ([ChanCallbacks]). *)

From Stdlib Require Import ZArith Lia.
From stdpp Require Import base list strings gmap.
From S2P Require Import Prelude.
From S2P Require Import Buffer.
From S2P Require Import CircBuffer.
From S2P Require Import Queue.
From S2P Require Import Random.
From S2P Require Import Algo.
From S2P Require Import Session.
From S2P Require Import Packet.
From S2P Require Import PacketRecv.
From S2P Require Import PacketStream.
From S2P Require Import Instances.
From S2P Require Import Transport.
From S2P Require Import ProcessPacket.
From S2P Require Import Channel.
From S2P Require Import ChannelData.
From S2P Require Import ChannelSend.

Section table.
Context {CL : CryptoLib} {ready : list (list Z) → sshsession → Prop} {T : Transport ready}.
Context (env : chan_env).
Implicit Types (s : chses) (c : Channel) (i j : nat) (msgs new : list (list Z)).

(** Exits that do not come from an assertion of the program; the one about
    the receive window is up to the peer. *)
Definition lawful (e : string) : Prop :=
  ∀ x, e = ("Failed assertion " +:+ x)%string → x = "channel->recvwindow >= datalen"%string.

(** The descriptors of a channel that has sent CLOSE are closed for reading. *)
Definition closed_ok c : Prop :=
  (bidir_fd c = true → errfd c < 0) ∧
  (sent_close c = true → sent_eof c = true ∧ readfd c < 0 ∧ (errfd_is_read c = true → errfd c < 0)).

Definition chan_ok i c : Prop :=
  ch_index c = Z.of_nat i ∧ windows_ok env c ∧ balance c ≤ recv_window env ∧
  u32_ok (transwindow c) ∧ u32_ok (transmaxpacket c) ∧ closed_ok c.

(** The table, with the channel [hole] possibly being taken apart. *)
Definition table_ok (hole : option nat) s : Prop :=
  zlen (channels s) ≤ MAX_CHANNELS + 2 ∧ chancount s = zlen (omap id (channels s)) ∧
  ∀ i c, has_chan s i c → Some i ≠ hole → chan_ok i c.

Definition inv (hole : option nat) msgs s : Prop :=
  ready msgs (tp s) ∧ table_ok hole s ∧ reads_ok s ∧ (∀ b, payload (pkt (tp s)) = Some b → wf_buf b).

(** ** Bookkeeping *)

Lemma zlen_used (o : option Channel) l :
  zlen (omap id (o :: l)) = (match o with Some _ => 1 | None => 0 end) + zlen (omap id l).
Proof. destruct o; [apply zlen_cons|done]. Qed.

(** Replacing an entry of the table changes the number of channels by what
    the entry counts. *)
Lemma zlen_used_insert (l : list (option Channel)) i o o' :
  l !! i = Some o →
  zlen (omap id (<[i := o']> l)) =
  zlen (omap id l) + (match o' with Some _ => 1 | None => 0 end) - (match o with Some _ => 1 | None => 0 end).
Proof.
  revert i. induction l as [|x l IH]; intros [|i] H; [done|done| |].
  - injection H as ->. change (<[0%nat := o']> (o :: l)) with (o' :: l). rewrite !zlen_used. lia.
  - change (<[S i := o']> (x :: l)) with (x :: <[i := o']> l). rewrite !zlen_used, (IH i H). lia.
Qed.

Lemma zlen_used_le (l : list (option Channel)) : zlen (omap id l) ≤ zlen l.
Proof. induction l as [|x l IH]; [done|]. rewrite zlen_used, zlen_cons. destruct x; lia. Qed.

Lemma table_upd hole s i c c' :
  table_ok hole s → has_chan s i c → (Some i ≠ hole → chan_ok i c') → table_ok hole (cv s i c').
Proof.
  intros (Hl&Hn&Hall) Hc Hok. split_and!.
  - unfold cv. cbn. unfold zlen. rewrite length_insert. exact Hl.
  - cbn. rewrite (zlen_used_insert _ _ (Some c)) by done. lia.
  - intros j d Hd Hj. unfold has_chan, cv in Hd. cbn in Hd.
    apply list_lookup_insert_Some in Hd as [(<-&[= <-]&_)|[? Hd]]; [by apply Hok|by apply Hall].
Qed.

Lemma inv_cv hole msgs s i c c' :
  inv hole msgs s → has_chan s i c → (Some i ≠ hole → chan_ok i c') → inv hole msgs (cv s i c').
Proof. intros (Hr&Ht&Hrd&Hp) Hc Hok. split_and!; [done|by eapply table_upd|done|done]. Qed.

Lemma inv_chan msgs s i c : inv None msgs s → has_chan s i c → chan_ok i c.
Proof. intros (_&(_&_&H)&_&_) Hc. by apply H. Qed.

(** The transport part and the descriptors may change underneath. *)
Lemma inv_set_tp hole msgs msgs' s t :
  inv hole msgs s → ready msgs' t → quiet t = quiet (tp s) → inv hole msgs' (set_tp t s).
Proof.
  intros (Hr&Ht&Hrd&Hp) Hr' Hq. split_and!; [done|done|done|].
  intros b Hb. apply Hp. pose proof (f_equal (λ x, payload (pkt x)) Hq) as He. cbn in He. cbn in Hb. congruence.
Qed.

Lemma inv_set_fds hole msgs s f :
  inv hole msgs s → fd_reads f = fd_reads (fds s) → inv hole msgs (set_fds f s).
Proof. intros (Hr&Ht&Hrd&Hp) Hf. split_and!; [done|done| |done]. unfold reads_ok. cbn. by rewrite Hf. Qed.

Lemma inv_pv hole msgs s b : inv hole msgs s → wf_buf b → inv hole msgs (pv s b).
Proof. intros (Hr&Ht&Hrd&Hp) Hb. split_and!; [by eapply tr_same|done|done|]. intros b' [= <-]. done. Qed.

Lemma inv_logged hole msgs s l : inv hole msgs s → inv hole msgs (set_fds (logged (fds s) l) s).
Proof. intros H. by apply inv_set_fds. Qed.

(** ** Allocation *)

Lemma free_slot_spec (l : list (option Channel)) :
  (free_slot l ≤ length l)%nat ∧ (∀ j, (j < free_slot l)%nat → ∃ c, l !! j = Some (Some c)) ∧
  ((free_slot l < length l)%nat → l !! free_slot l = Some None).
Proof.
  induction l as [|[c|] l (IH1&IH2&IH3)]; cbn [free_slot length].
  - split_and!; [done|lia|lia].
  - split_and!; [lia| |].
    + intros [|j] Hj; [by exists c|]. apply IH2. lia.
    + intros Hl. apply IH3. lia.
  - split_and!; [lia|lia|done].
Qed.

(** The table [newchannel] allocates in: extended when every slot is used. *)
Definition grown s : list (option Channel) :=
  if Z.of_nat (free_slot (channels s)) =? chansize s then channels s ++ replicate 3 None else channels s.

Definition fresh_chan i (remote type tw tm : Z) : Channel :=
  mkchan (Z.of_nat i) remote (recv_window env) tw 0 RECV_MAX_CHANNEL_DATA_LEN tm
    FD_UNINIT FD_UNINIT FD_CLOSED false (Some (mkcbuf (recv_window env) 0 0 0 None)) None
    false false false false false None false false type DROPBEAR_PRIO_NORMAL.

Lemma grown_slot s : grown s !! free_slot (channels s) = Some None.
Proof.
  destruct (free_slot_spec (channels s)) as (H1&H2&H3). unfold grown, chansize, zlen.
  destruct (Z.eqb_spec (Z.of_nat (free_slot (channels s))) (Z.of_nat (length (channels s)))) as [He|He].
  - rewrite lookup_app_r by lia. replace (_ - _)%nat with 0%nat by lia. done.
  - apply H3. lia.
Qed.

Lemma grown_other s j : grown s !! j = channels s !! j ∨ channels s !! j = None ∧ (grown s !! j = Some None ∨ grown s !! j = None).
Proof.
  unfold grown. destruct (_ =? _); [|by left].
  destruct (Nat.lt_ge_cases j (length (channels s))); [left; by apply lookup_app_l|].
  right. split; [by apply lookup_ge_None|]. rewrite lookup_app_r by done.
  destruct (j - length (channels s))%nat as [|[|[|]]]; cbn; auto.
Qed.

Definition table_full s : bool :=
  (Z.of_nat (free_slot (channels s)) =? chansize s) && (chansize s >=? MAX_CHANNELS).

Lemma newchannel_run s remote type tw tm :
  window_option env →
  newchannel env remote type tw tm s =
  if table_full s then Ok (None, s)
  else let i := free_slot (channels s) in
    Ok (Some i, set_chancount (u32 (chancount s + 1))
                  (set_channels (<[i := Some (fresh_chan i remote type tw tm)]> (grown s)) s)).
Proof.
  unfold window_option, MAX_RECV_WINDOW. intros HW. unfold newchannel, bind at 1, get at 1. fold (table_full s).
  destruct (table_full s); [done|]. unfold grown, when.
  destruct (Z.of_nat (free_slot (channels s)) =? chansize s); unfold bind, modify, ret, cbuf_new, exit_if, MAX_CBUF_SIZE.
  - assert (H : (recv_window env >? 100000000) = false) by lia. by rewrite H.
  - assert (H : (recv_window env >? 100000000) = false) by lia. rewrite H. by destruct s.
Qed.

Lemma fresh_chan_ok i remote type tw tm :
  window_option env → u32_ok tw → u32_ok tm → chan_ok i (fresh_chan i remote type tw tm).
Proof.
  intros HW Htw Htm. assert (HW' : 0 < recv_window env ≤ 10485760) by exact HW.
  assert (Hcb : cbuf_ok env (mkcbuf (recv_window env) 0 0 0 None)).
  { split; [|done]. apply wf_cbuf_new. unfold MAX_CBUF_SIZE. lia. }
  split_and!; try done.
  - split_and!; [by eexists|done|cbn; lia|cbn; lia].
  - unfold balance, buffered. cbn. lia.
Qed.

Lemma used_grown s : zlen (omap id (grown s)) = zlen (omap id (channels s)).
Proof.
  unfold grown. destruct (_ =? _); [|done]. rewrite omap_app. cbn. by rewrite app_nil_r.
Qed.

Lemma grown_length s : table_full s = false → zlen (channels s) ≤ MAX_CHANNELS + 2 → zlen (grown s) ≤ MAX_CHANNELS + 2.
Proof.
  unfold table_full, grown, chansize. destruct (_ =? _); cbn [andb]; [|done].
  intros Hf Hl. rewrite zlen_app. change (zlen (replicate 3 None)) with 3. lia.
Qed.

Lemma wp_newchannel msgs remote type tw tm E (Q : option nat → chses → Prop) s :
  window_option env → inv None msgs s → u32_ok tw → u32_ok tm →
  Q None s →
  (∀ s' i, inv None msgs s' → has_chan s' i (fresh_chan i remote type tw tm) → tp s' = tp s → Q (Some i) s') →
  wp (newchannel env remote type tw tm) E Q s.
Proof.
  intros HW (Hr&(Hl&Hn&Hall)&Hrd&Hp) Htw Htm HQ1 HQ2. unfold wp. rewrite newchannel_run by done.
  destruct (table_full s) eqn:Hfull; [done|]. cbv zeta. set (i := free_slot (channels s)).
  pose proof (grown_slot s) as Hslot. fold i in Hslot.
  assert (Hlt : (i < length (grown s))%nat) by (by eapply lookup_lt_Some).
  pose proof (grown_length s Hfull Hl) as Hgl.
  pose proof (zlen_used_le (channels s)) as Hul. unfold MAX_CHANNELS in *.
  apply HQ2; [split_and!; [done| |done|done]|by apply list_lookup_insert_eq|done].
  split_and!.
  - cbn. unfold zlen in *. rewrite length_insert. exact Hgl.
  - cbn. rewrite (zlen_used_insert _ _ None) by done. rewrite used_grown, Hn.
    pose proof (zlen_nonneg (omap id (channels s))). rewrite u32_small by lia. lia.
  - intros j c Hc _. unfold has_chan in Hc. cbn in Hc.
    apply list_lookup_insert_Some in Hc as [(<-&[= <-]&_)|[Hne Hc]]; [by apply fresh_chan_ok|].
    apply Hall; [|done]. destruct (grown_other s j) as [He|[He [He2|He2]]]; [unfold has_chan; congruence|congruence..].
Qed.

(** ** Callbacks *)

(** After [k] more messages at most, the invariant holds and channel [i] is
    still there. *)
Definition keeps i msgs (k : Z) s' : Prop :=
  ∃ new, zlen new ≤ k ∧ inv None (msgs ++ new) s' ∧ ∃ c', has_chan s' i c'.

Definition well_behaved {A} i (m : ST chses A) : Prop :=
  ∀ msgs s, inv None msgs s → zlen msgs + 4 ≤ 2 ^ 31 → (∃ c, has_chan s i c) →
    wp m lawful (λ _ s', keeps i msgs 4 s') s.

(** What the channel code relies on: the callbacks of every channel type keep
    the invariant and the channel, and send at most four messages.  [cleanup]
    gets a channel whose buffers are gone and does not change it. *)
Class ChanCallbacks := {
  cb_init : ∀ ty f i, ct_inithandler (chantype env ty) = Some f → well_behaved i (f i);
  cb_check : ∀ ty f i, ct_check_close (chantype env ty) = Some f → well_behaved i (f i);
  cb_request : ∀ ty f i, ct_reqhandler (chantype env ty) = Some f → well_behaved i (f i);
  cb_close : ∀ ty f i, ct_closehandler (chantype env ty) = Some f → well_behaved i (f i);
  cb_cleanup : ∀ ty f i c msgs s, ct_cleanup (chantype env ty) = Some f →
    inv (Some i) msgs s → zlen msgs + 4 ≤ 2 ^ 31 → has_chan s i c →
    wp (f i) lawful (λ _ s', ∃ new, zlen new ≤ 4 ∧ inv (Some i) (msgs ++ new) s' ∧ has_chan s' i c) s;
  cb_mangle : mangle_law env lawful;
  cb_listeners : ∀ fdset msgs s, inv None msgs s → zlen msgs + 1000 ≤ 2 ^ 31 →
    wp (handle_listeners env fdset) lawful (λ _ s', ∃ new, zlen new ≤ 1000 ∧ inv None (msgs ++ new) s') s
}.

(** ** Closing descriptors *)

Lemma lawful_close : lawful close_error.
Proof. intros x H. discriminate H. Qed.

Lemma drop_readfd ci co fd c : readfd (drop_fd ci co fd c) = if co && (fd =? readfd c) then FD_CLOSED else readfd c.
Proof.
  destruct c. unfold drop_fd, errfd_is_write, errfd_is_read; cbn. repeat (case_match; cbn in *); congruence || done.
Qed.

Lemma drop_errfd ci co fd c :
  errfd (drop_fd ci co fd c) =
  if ((co && errfd_is_read c) || (ci && errfd_is_write c)) && (fd =? errfd c) then FD_CLOSED else errfd c.
Proof.
  destruct c as [ix rc rw tw rd rm tm wfd rfd efd bi wb eb sc rcl re se fl cp ao rm' ty pr].
  unfold drop_fd, errfd_is_write, errfd_is_read; cbn.
  destruct ci, co, eb; cbn; destruct (fd =? rfd) eqn:H1, (fd =? efd) eqn:H2, (fd =? wfd) eqn:H3; cbn;
    rewrite ?H1, ?H2, ?H3; cbn; rewrite ?H1, ?H2, ?H3; done || (by destruct (fd =? FD_CLOSED)).
Qed.

Lemma drop_errfd_is_read ci co fd c : errfd_is_read (drop_fd ci co fd c) = errfd_is_read c.
Proof.
  unfold errfd_is_read. by rewrite (f_equal extrabuf (drop_fd_fdless ci co fd c) : extrabuf (drop_fd _ _ _ _) = extrabuf c).
Qed.

Lemma chan_ok_drop i ci co fd c : chan_ok i c → chan_ok i (drop_fd ci co fd c).
Proof.
  intros (Hi&Hw&Hb&Ht&Hm&[Hbi Hsc]). pose proof (drop_fd_fdless ci co fd c) as Hf.
  assert (Hfd : FD_CLOSED < 0) by done.
  split_and!.
  - by rewrite (f_equal ch_index Hf : ch_index (drop_fd _ _ _ _) = ch_index c).
  - by eapply fdless_windows.
  - by rewrite (fdless_balance _ _ Hf).
  - by rewrite (f_equal transwindow Hf : transwindow (drop_fd _ _ _ _) = transwindow c).
  - by rewrite (f_equal transmaxpacket Hf : transmaxpacket (drop_fd _ _ _ _) = transmaxpacket c).
  - split.
    + rewrite (f_equal bidir_fd Hf : bidir_fd (drop_fd _ _ _ _) = bidir_fd c), drop_errfd.
      intros H. by case_match; [|apply Hbi].
    + rewrite (f_equal sent_close Hf : sent_close (drop_fd _ _ _ _) = sent_close c),
        (f_equal sent_eof Hf : sent_eof (drop_fd _ _ _ _) = sent_eof c),
        drop_readfd, drop_errfd, drop_errfd_is_read.
      intros H. destruct (Hsc H) as (H1&H2&H3). split_and!; [done|by case_match|]. intros Hr. case_match; [done|by apply H3].
Qed.

Lemma wp_close_inv msgs fd how (Q : unit → chses → Prop) s i c :
  inv None msgs s → has_chan s i c →
  (∀ s', inv None msgs s' → has_chan s' i (drop_fd (closes c how).1 (closes c how).2 fd c) →
     tp s' = tp s → Q tt s') →
  wp (close_chan_fd i fd how) lawful Q s.
Proof.
  intros Hinv Hc HQ. eapply wp_close_chan_fd; [exact Hc|apply lawful_close|]. intros l Hl.
  apply HQ; [|by eapply (cv_has s)|done]. apply (inv_logged None msgs (cv s i _) l).
  eapply inv_cv; [done|done|]. intros _. by eapply chan_ok_drop, inv_chan.
Qed.

(** ** Removal *)

Lemma table_hole s i c : table_ok None s → has_chan s i c → table_ok (Some i) s.
Proof. intros (Hl&Hn&Hall) _. split_and!; [done|done|]. intros j d Hd _. by apply Hall. Qed.

Lemma table_free s i c n :
  table_ok (Some i) s → has_chan s i c → n = chancount s - 1 →
  table_ok None (set_chancount n (set_channels (<[i := None]> (channels s)) s)).
Proof.
  intros (Hl&Hn&Hall) Hc ->. split_and!.
  - cbn. unfold zlen in *. rewrite length_insert. exact Hl.
  - cbn. rewrite (zlen_used_insert _ _ (Some c)) by done. lia.
  - intros j d Hd _. unfold has_chan in Hd. cbn in Hd.
    apply list_lookup_insert_Some in Hd as [(_&?&_)|[Hne Hd]]; [done|]. apply Hall; [done|congruence].
Qed.

Lemma wp_update_prio hole msgs E (Q : unit → chses → Prop) s :
  inv hole msgs s →
  (∀ s', inv hole msgs s' → channels s' = channels s → tp s' = tp s → Q tt s') → wp update_channel_prio E Q s.
Proof.
  intros Hinv HQ. apply wp_bind, wp_get. apply wp_if; intros _; [by apply wp_ret, HQ|].
  apply wp_when; intros _; [|by apply HQ]. apply wp_bind, wp_log_fd, wp_modify. by apply HQ.
Qed.

Lemma wp_m_close_inv hole msgs fd (Q : unit → chses → Prop) s :
  inv hole msgs s →
  (∀ s', inv hole msgs s' → channels s' = channels s → chancount s' = chancount s → Q tt s') → wp (m_close fd) lawful Q s.
Proof. intros Hinv HQ. apply wp_m_close; [apply lawful_close|]. intros l _. apply HQ; [by apply inv_logged|done|done]. Qed.

Context {CB : ChanCallbacks}.

(** The end of [remove_channel], once the descriptors are closed. *)
Lemma wp_remove_end msgs (Q : unit → chses → Prop) s i c :
  inv (Some i) msgs s → zlen msgs + 4 ≤ 2 ^ 31 → has_chan s i c → ch_index c = Z.of_nat i →
  (∀ s' new, zlen new ≤ 4 → inv None (msgs ++ new) s' → Q tt s') →
  wp (do* match ct_cleanup (chantype env (ch_type c)) with Some f => f i | None => ret tt end;
      let* c := chan i in
      do* match conn_pending c with
          | Some p => modify (λ s, set_cancelled (p :: cancelled s) s)
          | None => ret tt
          end;
      do* modify (λ s, set_channels (<[Z.to_nat (ch_index c) := None]> (channels s)) s);
      do* modify (λ s, set_chancount (u32 (chancount s - 1)) s);
      update_channel_prio) lawful Q s.
Proof.
  intros Hinv Hn Hc Hi HQ. apply wp_bind.
  assert (Hgo : ∀ new s', zlen new ≤ 4 → inv (Some i) (msgs ++ new) s' → has_chan s' i c →
    wp (let* c := chan i in
        do* match conn_pending c with
            | Some p => modify (λ s, set_cancelled (p :: cancelled s) s)
            | None => ret tt
            end;
        do* modify (λ s, set_channels (<[Z.to_nat (ch_index c) := None]> (channels s)) s);
        do* modify (λ s, set_chancount (u32 (chancount s - 1)) s);
        update_channel_prio) lawful Q s').
  { intros new s' Hnew Hinv' Hc'. apply wp_bind. eapply wp_chan; [exact Hc'|]. rewrite Hi, Nat2Z.id.
    assert (Hrest : ∀ s2, inv (Some i) (msgs ++ new) s2 → has_chan s2 i c →
      wp (do* modify (λ s, set_channels (<[i := None]> (channels s)) s);
          do* modify (λ s, set_chancount (u32 (chancount s - 1)) s); update_channel_prio) lawful Q s2).
    { intros s2 (Hr&Ht&Hrd&Hp) Hc2. apply wp_bind, wp_modify, wp_bind, wp_modify. cbn [chancount set_channels].
      eapply (wp_update_prio None (msgs ++ new)); [|intros; by eapply HQ].
      split_and!; [done| |done|done]. eapply table_free; [exact Ht|exact Hc2|].
      destruct Ht as (Hl&Hcount&_). pose proof (zlen_used_le (channels s2)). unfold MAX_CHANNELS in Hl.
      pose proof (zlen_used_insert (channels s2) i (Some c) None Hc2) as Hu. cbv iota in Hu.
      pose proof (zlen_nonneg (omap id (<[i:=None]> (channels s2)))). apply u32_small. lia. }
    apply wp_bind. destruct (conn_pending c); [apply wp_modify|apply wp_ret]; by apply Hrest. }
  destruct (ct_cleanup (chantype env (ch_type c))) as [f|] eqn:Hcl.
  - eapply wp_mono; [by eapply cb_cleanup|]. intros [] s' (new&Hnew&Hinv'&Hc'). by eapply Hgo.
  - apply wp_ret. apply (Hgo []); [done|by rewrite app_nil_r|done].
Qed.

Lemma wp_remove_channel msgs (Q : unit → chses → Prop) s i c :
  inv None msgs s → zlen msgs + 4 ≤ 2 ^ 31 → has_chan s i c →
  (∀ s' new, zlen new ≤ 4 → inv None (msgs ++ new) s' → Q tt s') →
  wp (remove_channel env i) lawful Q s.
Proof.
  intros Hinv Hn Hc HQ. pose proof (inv_chan _ _ _ _ Hinv Hc) as (Hi&((wb&Hwb&_)&_)&_).
  unfold remove_channel. apply wp_bind. eapply wp_chan; [done|]. apply wp_bind. eapply wp_ptr; [done|].
  apply wp_bind. eapply wp_set_chan; [done|]. apply wp_bind. eapply wp_set_chan; [by eapply cv_has|]. rewrite cv_cv.
  set (c1 := set_extrabuf None (set_writebuf None c)).
  assert (Hinv1 : inv (Some i) msgs (cv s i c1)).
  { destruct Hinv as (Hr&Ht&Hrd&Hp). split_and!; [done| |done|done].
    eapply table_upd; [by eapply table_hole|done|done]. }
  apply wp_bind. eapply wp_chan; [by eapply cv_has|]. apply wp_bind, wp_get.
  assert (Hend : ∀ s', inv (Some i) msgs s' → channels s' = channels (cv s i c1) →
    wp (do* match ct_cleanup (chantype env (ch_type c1)) with Some f => f i | None => ret tt end;
        let* c := chan i in
        do* match conn_pending c with
            | Some p => modify (λ s, set_cancelled (p :: cancelled s) s)
            | None => ret tt
            end;
        do* modify (λ s, set_channels (<[Z.to_nat (ch_index c) := None]> (channels s)) s);
        do* modify (λ s, set_chancount (u32 (chancount s - 1)) s);
        update_channel_prio) lawful Q s').
  { intros s' Hinv' Hch. eapply (wp_remove_end msgs _ s' i c1); [done|done| |exact Hi|done].
    unfold has_chan. rewrite Hch. by eapply (cv_has s). }
  apply wp_bind, wp_when; intros _; [|by apply Hend].
  apply wp_bind. eapply wp_m_close_inv; [exact Hinv1|]. intros s1 Hi1 Hc1 _.
  apply wp_bind. eapply wp_m_close_inv; [exact Hi1|]. intros s2 Hi2 Hc2 _.
  eapply wp_m_close_inv; [exact Hi2|]. intros s3 Hi3 Hc3 _. apply Hend; [done|congruence].
Qed.

(** ** Messages *)

Lemma wp_msg_inv {A} hole fs msgs (k : ST chses A) E Q s :
  inv hole msgs s → zlen msgs < 2 ^ 31 → Forall (λ f, puts f.1 f.2) fs →
  1 ≤ zlen (wire_of fs) ≤ TRANS_MAX_PAYLOAD_LEN →
  (∀ s', inv hole (msgs ++ [wire_of fs]) s' → channels s' = channels s → wp k E Q s') →
  wp (put_fields_tp fs (do* on_tp encrypt_packet; k)) E Q s.
Proof.
  intros Hinv Hn Hfs Hl HQ. eapply wp_tp_message; [apply Hinv|done|done|done|].
  intros t Ht Hq. apply HQ; [by eapply inv_set_tp|done].
Qed.

Lemma wp_msg_inv_last hole fs msgs E (Q : unit → chses → Prop) s :
  inv hole msgs s → zlen msgs < 2 ^ 31 → Forall (λ f, puts f.1 f.2) fs →
  1 ≤ zlen (wire_of fs) ≤ TRANS_MAX_PAYLOAD_LEN →
  (∀ s', inv hole (msgs ++ [wire_of fs]) s' → channels s' = channels s → Q tt s') →
  wp (put_fields_tp fs (on_tp encrypt_packet)) E Q s.
Proof.
  intros Hinv Hn Hfs Hl HQ. eapply wp_tp_message_last; [apply Hinv|done|done|done|].
  intros t Ht Hq. apply HQ; [by eapply inv_set_tp|done].
Qed.

(** A message that consists of its type and the peer's channel number. *)
Definition short_msg (type remote : Z) : list Z := [type] ++ STORE32H remote.
Definition short_fields (type remote : Z) : list field :=
  [(buf_putbyte type, [type]); (buf_putint remote, STORE32H remote)].

Lemma short_fields_ok type remote : byte_ok type → Forall (λ f, puts f.1 f.2) (short_fields type remote).
Proof. intros. fields_ok. Qed.

Lemma chan_ok_eof i c : chan_ok i c → chan_ok i (set_sent_eof true c).
Proof.
  intros (Hi&Hw&Hb&Ht&Hm&[Hbi Hsc]). split_and!; try done. split; [done|]. intros H. by destruct (Hsc H) as (_&?&?).
Qed.

Lemma wp_send_eof msgs E (Q : unit → chses → Prop) s i c :
  inv None msgs s → zlen msgs < 2 ^ 31 → has_chan s i c →
  (∀ s', inv None (msgs ++ [short_msg SSH_MSG_CHANNEL_EOF (remotechan c)]) s' → has_chan s' i (set_sent_eof true c) → Q tt s') →
  wp (send_msg_channel_eof i) E Q s.
Proof.
  intros Hinv Hn Hc HQ. apply wp_bind. eapply wp_chan; [done|].
  eapply (wp_msg_inv _ (short_fields SSH_MSG_CHANNEL_EOF (remotechan c))); [done|done|by apply short_fields_ok|by vm_compute|].
  intros s' Hinv' Hch. assert (Hc' : has_chan s' i c) by (unfold has_chan; by rewrite Hch).
  eapply wp_set_chan; [done|]. apply HQ; [|by eapply cv_has].
  eapply inv_cv; [exact Hinv'|done|]. intros _. by eapply chan_ok_eof, inv_chan.
Qed.

(** The three descriptors closed by [send_msg_channel_close]. *)
Definition all_closed c : Channel :=
  let c := drop_fd (closes c SHUT_RD).1 (closes c SHUT_RD).2 (readfd c) c in
  let c := drop_fd (closes c SHUT_RDWR).1 (closes c SHUT_RDWR).2 (errfd c) c in
  drop_fd (closes c SHUT_WR).1 (closes c SHUT_WR).2 (writefd c) c.

Lemma drop_neg_readfd ci co fd c : readfd c < 0 → readfd (drop_fd ci co fd c) < 0.
Proof. intros H. rewrite drop_readfd. by case_match. Qed.
Lemma drop_neg_errfd ci co fd c : errfd c < 0 → errfd (drop_fd ci co fd c) < 0.
Proof. intros H. rewrite drop_errfd. by case_match. Qed.

Lemma closes_rd c : (closes c SHUT_RD).2 = true.
Proof. unfold closes. by destruct (bidir_fd c). Qed.

(** The fields that closing descriptors leaves alone. *)
Lemma fdless_fields c c' : fdless c = fdless c' →
  ch_index c = ch_index c' ∧ transwindow c = transwindow c' ∧ transmaxpacket c = transmaxpacket c' ∧
  bidir_fd c = bidir_fd c' ∧ sent_eof c = sent_eof c' ∧ ch_type c = ch_type c'.
Proof.
  intros H. split_and!; [exact (f_equal ch_index H)|exact (f_equal transwindow H)|exact (f_equal transmaxpacket H)|
    exact (f_equal bidir_fd H)|exact (f_equal sent_eof H)|exact (f_equal ch_type H)].
Qed.

Lemma all_closed_fdless c : fdless (all_closed c) = fdless c.
Proof. unfold all_closed. cbv zeta. by rewrite !drop_fd_fdless. Qed.

Lemma all_closed_readfd c : readfd (all_closed c) < 0.
Proof.
  unfold all_closed. cbv zeta. do 2 apply drop_neg_readfd. by rewrite drop_readfd, closes_rd, Z.eqb_refl.
Qed.

Lemma all_closed_errfd c : (bidir_fd c = true → errfd c < 0) → errfd (all_closed c) < 0.
Proof.
  intros Hbi. unfold all_closed. cbv zeta.
  pose proof (drop_fd_fdless (closes c SHUT_RD).1 (closes c SHUT_RD).2 (readfd c) c) as Hf1.
  assert (He1 : bidir_fd c = true → errfd (drop_fd (closes c SHUT_RD).1 (closes c SHUT_RD).2 (readfd c) c) < 0)
    by (intros; by apply drop_neg_errfd, Hbi).
  generalize dependent (drop_fd (closes c SHUT_RD).1 (closes c SHUT_RD).2 (readfd c) c). intros c1 Hf1 He1.
  apply drop_neg_errfd. rewrite drop_errfd, Z.eqb_refl, andb_true_r.
  destruct (fdless_fields _ _ Hf1) as (_&_&_&Hb&_&_). unfold closes at 1 2. rewrite Hb.
  destruct (bidir_fd c); [specialize (He1 eq_refl); by case_match|].
  unfold errfd_is_write. by destruct (errfd_is_read c1).
Qed.

Lemma chan_ok_fdless i c c' : fdless c' = fdless c →
  ch_index c = Z.of_nat i ∧ windows_ok env c ∧ balance c ≤ recv_window env ∧
    u32_ok (transwindow c) ∧ u32_ok (transmaxpacket c) →
  closed_ok c' → chan_ok i c'.
Proof.
  intros Hf (Hi&Hw&Hb&Ht&Hm) Hcl. destruct (fdless_fields _ _ Hf) as (H1&H2&H3&_).
  unfold chan_ok. rewrite H1, H2, H3, (fdless_balance _ _ Hf). split_and!; try done. by eapply fdless_windows.
Qed.

Lemma all_closed_ok i c : chan_ok i c → chan_ok i (all_closed (set_sent_close true (set_sent_eof true c))).
Proof.
  intros (Hi&Hw&Hb&Ht&Hm&[Hbi _]). set (c0 := set_sent_close true (set_sent_eof true c)).
  assert (Hbi0 : bidir_fd c0 = true → errfd c0 < 0) by exact Hbi.
  pose proof (all_closed_fdless c0) as Hf. pose proof (all_closed_errfd c0 Hbi0) as Her.
  destruct (fdless_fields _ _ Hf) as (_&_&_&_&Heof&_).
  eapply (chan_ok_fdless i c0); [exact Hf|by split_and!|]. split; [by intros _|]. intros _.
  split_and!; [by rewrite Heof|apply all_closed_readfd|by intros _].
Qed.

Lemma wp_close_raw fd how (Q : unit → chses → Prop) s i c :
  has_chan s i c →
  (∀ l c', c' = drop_fd (closes c how).1 (closes c how).2 fd c → Q tt (set_fds (logged (fds s) l) (cv s i c'))) →
  wp (close_chan_fd i fd how) lawful Q s.
Proof. intros Hc HQ. eapply wp_close_chan_fd; [exact Hc|apply lawful_close|]. intros l _. by apply HQ. Qed.

Lemma set_fds_set_fds s f g : set_fds f (set_fds g s) = set_fds f s.
Proof. done. Qed.

(** [send_msg_channel_close] after the handler of the channel type. *)
Definition send_close_rest i : ST chses unit :=
  let* c := chan i in
  do* put_tp (buf_putbyte SSH_MSG_CHANNEL_CLOSE);
  do* put_tp (buf_putint (remotechan c));
  do* on_tp encrypt_packet;
  do* set_chan i (set_sent_eof true);
  do* set_chan i (set_sent_close true);
  let* c := chan i in
  do* close_chan_fd i (readfd c) SHUT_RD;
  let* c := chan i in
  do* close_chan_fd i (errfd c) SHUT_RDWR;
  let* c := chan i in
  close_chan_fd i (writefd c) SHUT_WR.

Definition closed_chan c : Channel := all_closed (set_sent_close true (set_sent_eof true c)).

Lemma wp_send_close_rest msgs (Q : unit → chses → Prop) s i c :
  inv None msgs s → zlen msgs < 2 ^ 31 → has_chan s i c →
  (∀ s', inv None (msgs ++ [short_msg SSH_MSG_CHANNEL_CLOSE (remotechan c)]) s' →
     channels s' = <[i := Some (closed_chan c)]> (channels s) → chancount s' = chancount s →
     sock_out s' = sock_out s → Q tt s') →
  wp (send_close_rest i) lawful Q s.
Proof.
  intros Hinv Hn Hc HQ. apply wp_bind. eapply wp_chan; [done|].
  eapply (wp_tp_message (short_fields SSH_MSG_CHANNEL_CLOSE (remotechan c)) msgs);
    [apply Hinv|done|by apply short_fields_ok|by vm_compute|].
  intros t Ht Hqt. set (s2 := set_tp t s). assert (Hc2 : has_chan s2 i c) by exact Hc.
  assert (Hinv2 : inv None (msgs ++ [short_msg SSH_MSG_CHANNEL_CLOSE (remotechan c)]) s2) by (by eapply inv_set_tp).
  assert (Hs2 : channels s2 = channels s ∧ chancount s2 = chancount s ∧ sock_out s2 = sock_out s) by done.
  clearbody s2. destruct Hs2 as (Hch&Hcnt&Hso).
  apply wp_bind. eapply wp_set_chan; [done|]. apply wp_bind. eapply wp_set_chan; [by eapply cv_has|]. rewrite cv_cv.
  set (c2 := set_sent_close true (set_sent_eof true c)).
  pose proof (cv_has s2 i c c2 Hc2) as Hh2. unfold closed_chan in HQ. fold c2 in HQ.
  assert (HX : ∀ f, fd_reads f = fd_reads (fds s2) → Q tt (set_fds f (cv s2 i (all_closed c2)))).
  { intros f Hf. apply HQ; [|exact (f_equal _ Hch)|exact Hcnt|exact Hso].
    apply (inv_set_fds None _ (cv s2 i (all_closed c2))); [|exact Hf].
    eapply inv_cv; [exact Hinv2|exact Hc2|]. intros _. apply all_closed_ok. by eapply inv_chan. }
  apply wp_bind. eapply wp_chan; [exact Hh2|]. apply wp_bind. eapply wp_close_raw; [exact Hh2|]. intros l1 c3 H3.
  rewrite cv_cv. pose proof (cv_has s2 i c c3 Hc2) as Hh3.
  apply wp_bind. eapply wp_chan; [exact Hh3|]. apply wp_bind. eapply wp_close_raw; [exact Hh3|]. intros l2 c4 H4.
  rewrite cv_set_fds, cv_cv. pose proof (cv_has s2 i c c4 Hc2) as Hh4.
  apply wp_bind. eapply wp_chan; [exact Hh4|]. eapply wp_close_raw; [exact Hh4|]. intros l3 c5 H5.
  rewrite !cv_set_fds, cv_cv, !set_fds_set_fds.
  assert (Hall : all_closed c2 = c5) by (unfold all_closed; cbv zeta; by rewrite <-H3, <-H4, <-H5).
  rewrite <-Hall. by apply HX.
Qed.

(** After [send_msg_channel_close]: CLOSE is the last of the new messages, and
    all descriptors of the channel are closed. *)
Lemma wp_send_close msgs (Q : unit → chses → Prop) s i c :
  inv None msgs s → zlen msgs + 5 ≤ 2 ^ 31 → has_chan s i c →
  (∀ s' new c', zlen new ≤ 4 → has_chan s' i (closed_chan c') →
     inv None (msgs ++ new ++ [short_msg SSH_MSG_CHANNEL_CLOSE (remotechan c')]) s' → Q tt s') →
  wp (send_msg_channel_close env i) lawful Q s.
Proof.
  intros Hinv Hn Hc HQ. apply wp_bind. eapply wp_chan; [done|]. apply wp_bind.
  assert (Hgo : ∀ s1 new c1, zlen new ≤ 4 → inv None (msgs ++ new) s1 → has_chan s1 i c1 →
    wp (send_close_rest i) lawful Q s1).
  { intros s1 new c1 Hnew Hinv1 Hc1. eapply wp_send_close_rest; [exact Hinv1|rewrite zlen_app; lia|done|].
    intros s' Hinv' Hch _ _. eapply (HQ _ new c1); [done| |by rewrite app_assoc].
    unfold has_chan. rewrite Hch. by eapply (cv_has s1). }
  destruct (ct_closehandler (chantype env (ch_type c))) as [f|] eqn:Hcl.
  - eapply wp_mono; [eapply cb_close; [exact Hcl|exact Hinv|lia|by eexists]|].
    intros [] s' (new&Hnew&Hinv'&(c'&Hc')). by eapply Hgo.
  - apply wp_ret. eapply (Hgo _ []); [done|by rewrite app_nil_r|done].
Qed.

Lemma wp_write_pending E (Q : bool → chses → Prop) s i c :
  has_chan s i c → (∃ wb, writebuf c = Some wb) → (∀ b, Q b s) → wp (write_pending i) E Q s.
Proof.
  intros Hc [wb Hwb] HQ. apply wp_bind. eapply wp_chan; [done|]. apply wp_bind.
  apply wp_if; intros _; [eapply wp_ptr; [done|]|apply wp_ret];
    (apply wp_if; intros _; apply wp_ret, HQ).
Qed.

(** ** [check_close] *)

(** Descriptors of a flushing channel that have nothing to read. *)
Lemma wp_flush_fds msgs (Q : unit → chses → Prop) s i c :
  inv None msgs s → has_chan s i c →
  (∀ s' c', inv None msgs s' → has_chan s' i c' → Q tt s') →
  wp (when (flushing c)
        (let* s := get in
         do* when ((readfd c >=? 0) && negb (fd_pending (fds s) (readfd c)))
               (close_chan_fd i (readfd c) SHUT_RD);
         let* c := chan i in
         when (errfd_is_read c && (errfd c >=? 0) && negb (fd_pending (fds s) (errfd c)))
           (close_chan_fd i (errfd c) SHUT_RD))) lawful Q s.
Proof.
  intros Hinv Hc HQ. apply wp_when; intros _; [|by eapply HQ]. apply wp_bind, wp_get, wp_bind.
  assert (Hgo : ∀ s1 c1, inv None msgs s1 → has_chan s1 i c1 →
    wp (let* c := chan i in
        when (errfd_is_read c && (errfd c >=? 0) && negb (fd_pending (fds s) (errfd c)))
          (close_chan_fd i (errfd c) SHUT_RD)) lawful Q s1).
  { intros s1 c1 Hinv1 Hc1. apply wp_bind. eapply wp_chan; [done|]. apply wp_when; intros _; [|by eapply HQ].
    eapply wp_close_inv; [done|done|]. intros s2 Hinv2 Hc2 _. by eapply HQ. }
  apply wp_when; intros _; [|by eapply Hgo]. eapply wp_close_inv; [done|done|]. intros s2 Hinv2 Hc2 _. by eapply Hgo.
Qed.

(** The part of [check_close] for a channel that stays. *)
Lemma wp_check_tail (cond close_allowed : bool) msgs (Q : unit → chses → Prop) s i c :
  inv None msgs s → zlen msgs + 6 ≤ 2 ^ 31 → has_chan s i c →
  (∀ s' new, zlen new ≤ 6 → inv None (msgs ++ new) s' → Q tt s') →
  wp (do* when cond (close_chan_fd i (writefd c) SHUT_WR);
      let* c := chan i in
      do* when (negb (sent_eof c) && (readfd c =? FD_CLOSED) && (errfd_is_write c || (errfd c =? FD_CLOSED)))
            (send_msg_channel_eof i);
      let* c := chan i in
      let* pending := write_pending i in
      when ((readfd c =? FD_CLOSED) && (writefd c =? FD_CLOSED)
            && (errfd_is_write c || (errfd c =? FD_CLOSED))
            && negb (sent_close c) && close_allowed && negb pending)
        (send_msg_channel_close env i)) lawful Q s.
Proof.
  intros Hinv Hn Hc HQ. apply wp_bind.
  assert (Hlast : ∀ s1 new c1, zlen new ≤ 1 → inv None (msgs ++ new) s1 → has_chan s1 i c1 →
    wp (let* c := chan i in
        let* pending := write_pending i in
        when ((readfd c =? FD_CLOSED) && (writefd c =? FD_CLOSED)
              && (errfd_is_write c || (errfd c =? FD_CLOSED))
              && negb (sent_close c) && close_allowed && negb pending)
          (send_msg_channel_close env i)) lawful Q s1).
  { intros s1 new c1 Hnew Hinv1 Hc1. apply wp_bind. eapply wp_chan; [done|].
    pose proof (inv_chan _ _ _ _ Hinv1 Hc1) as (_&((wb&Hwb&_)&_)&_).
    apply wp_bind. eapply wp_write_pending; [done|by eexists|]. intros pending.
    apply wp_when; intros _; [|by eapply (HQ _ new); [lia|]].
    eapply wp_send_close; [done|rewrite zlen_app; lia|done|]. intros s2 new2 c2 Hnew2 _ Hinv2.
    eapply (HQ _ (new ++ new2 ++ [short_msg SSH_MSG_CHANNEL_CLOSE (remotechan c2)])); [|by rewrite <-app_assoc in Hinv2].
    rewrite !zlen_app, zlen_cons, zlen_nil. lia. }
  assert (Heof : ∀ s1 c1, inv None msgs s1 → has_chan s1 i c1 →
    wp (let* c := chan i in
        do* when (negb (sent_eof c) && (readfd c =? FD_CLOSED) && (errfd_is_write c || (errfd c =? FD_CLOSED)))
              (send_msg_channel_eof i);
        let* c := chan i in
        let* pending := write_pending i in
        when ((readfd c =? FD_CLOSED) && (writefd c =? FD_CLOSED)
              && (errfd_is_write c || (errfd c =? FD_CLOSED))
              && negb (sent_close c) && close_allowed && negb pending)
          (send_msg_channel_close env i)) lawful Q s1).
  { intros s1 c1 Hinv1 Hc1. apply wp_bind. eapply wp_chan; [done|]. apply wp_bind, wp_when; intros _.
    - eapply wp_send_eof; [done|lia|done|]. intros s2 Hinv2 Hc2. eapply Hlast; [|exact Hinv2|exact Hc2]. done.
    - eapply (Hlast _ []); [done|by rewrite app_nil_r|done]. }
  apply wp_when; intros _; [|by eapply Heof]. eapply wp_close_inv; [done|done|]. intros s2 Hinv2 Hc2 _. by eapply Heof.
Qed.

Lemma wp_check_close msgs (Q : unit → chses → Prop) s i c :
  inv None msgs s → zlen msgs + 16 ≤ 2 ^ 31 → has_chan s i c →
  (∀ s' new, zlen new ≤ 16 → inv None (msgs ++ new) s' → Q tt s') →
  wp (check_close env i) lawful Q s.
Proof.
  intros Hinv Hn Hc HQ. unfold check_close. apply wp_bind. eapply wp_chan; [done|].
  set (type := chantype env (ch_type c)).
  set (has := match ct_check_close type with Some _ => true | None => false end).
  assert (Hgo : ∀ (close_allowed : bool) s1 new c1, zlen new ≤ 4 → inv None (msgs ++ new) s1 → has_chan s1 i c1 →
    wp (let* c := chan i in
        do* when (flushing c)
              (let* s := get in
               do* when ((readfd c >=? 0) && negb (fd_pending (fds s) (readfd c)))
                     (close_chan_fd i (readfd c) SHUT_RD);
               let* c := chan i in
               when (errfd_is_read c && (errfd c >=? 0) && negb (fd_pending (fds s) (errfd c)))
                 (close_chan_fd i (errfd c) SHUT_RD));
        let* c := chan i in
        let* pending := write_pending i in
        if recv_close c && negb pending && close_allowed then
          do* when (negb (sent_close c)) (send_msg_channel_close env i);
          remove_channel env i
        else
          do* when ((recv_eof c && negb pending) || (negb (writefd c =? FD_UNINIT) && has && close_allowed))
                (close_chan_fd i (writefd c) SHUT_WR);
          let* c := chan i in
          do* when (negb (sent_eof c) && (readfd c =? FD_CLOSED) && (errfd_is_write c || (errfd c =? FD_CLOSED)))
                (send_msg_channel_eof i);
          let* c := chan i in
          let* pending := write_pending i in
          when ((readfd c =? FD_CLOSED) && (writefd c =? FD_CLOSED)
                && (errfd_is_write c || (errfd c =? FD_CLOSED))
                && negb (sent_close c) && close_allowed && negb pending)
            (send_msg_channel_close env i)) lawful Q s1).
  { intros close_allowed s1 new c1 Hnew Hinv1 Hc1. apply wp_bind. eapply wp_chan; [done|].
    apply wp_bind. eapply wp_flush_fds; [done|done|]. intros s2 c2 Hinv2 Hc2.
    apply wp_bind. eapply wp_chan; [done|]. pose proof (inv_chan _ _ _ _ Hinv2 Hc2) as (_&((wb&Hwb&_)&_)&_).
    apply wp_bind. eapply wp_write_pending; [done|by eexists|]. intros pending.
    apply wp_if; intros _.
    - apply wp_bind, wp_when; intros _.
      + eapply wp_send_close; [done|rewrite zlen_app; lia|done|]. intros s3 new3 c3 Hnew3 Hc3 Hinv3.
        eapply wp_remove_channel; [exact Hinv3|rewrite !zlen_app, zlen_cons, zlen_nil; lia|exact Hc3|]. intros s4 new4 Hnew4 Hinv4.
        eapply (HQ _ (new ++ (new3 ++ [short_msg SSH_MSG_CHANNEL_CLOSE (remotechan c3)]) ++ new4));
          [rewrite !zlen_app, zlen_cons, zlen_nil; lia|by rewrite <-!app_assoc in *].
      + eapply wp_remove_channel; [exact Hinv2|rewrite zlen_app; lia|exact Hc2|]. intros s4 new4 Hnew4 Hinv4.
        eapply (HQ _ (new ++ new4)); [rewrite zlen_app; lia|by rewrite app_assoc].
    - eapply wp_check_tail; [done|rewrite zlen_app; lia|done|]. intros s4 new4 Hnew4 Hinv4.
      eapply (HQ _ (new ++ new4)); [rewrite zlen_app; lia|by rewrite app_assoc]. }
  apply wp_bind. unfold has in Hgo. destruct (ct_check_close type) as [f|] eqn:Hck.
  - destruct (sent_close c).
    + apply wp_ret. eapply (Hgo true _ []); [done|by rewrite app_nil_r|done].
    + eapply wp_mono; [eapply cb_check; [exact Hck|exact Hinv|lia|by eexists]|].
      intros b s' (new&Hnew&Hinv'&(c'&Hc')). by eapply Hgo.
  - apply wp_ret. eapply (Hgo true _ []); [done|by rewrite app_nil_r|done].
Qed.

(** ** The handshake, for a channel type without callbacks *)

Definition plain_type (ty : Z) : Prop :=
  let t := chantype env ty in
  ct_check_close t = None ∧ ct_closehandler t = None ∧ ct_cleanup t = None.

(** Something waits to be written to the program. *)
Definition waiting c : bool :=
  (writefd c >=? 0) && (used_of (writebuf c) >? 0) || (errfd c >=? 0) && (used_of (extrabuf c) >? 0).

Lemma wp_write_pending_is E (Q : bool → chses → Prop) s i c :
  has_chan s i c → (∃ wb, writebuf c = Some wb) → Q (waiting c) s → wp (write_pending i) E Q s.
Proof.
  intros Hc [wb Hwb] HQ. unfold waiting in HQ. rewrite Hwb in HQ. cbn [used_of] in HQ.
  apply wp_bind. eapply wp_chan; [done|]. apply wp_bind.
  apply wp_if; intros Hw; rewrite Hw in HQ; [eapply wp_ptr; [done|]|apply wp_ret]; rewrite ?Hw; cbn [andb orb] in *.
  - destruct (cbuf_getused wb >? 0); by apply wp_ret.
  - by apply wp_ret.
Qed.

(** What a channel that stays may have sent. *)
Definition only_eof c (new : list (list Z)) : Prop := new = [] ∨ new = [short_msg SSH_MSG_CHANNEL_EOF (remotechan c)].

(** The flags of the handshake, and the data that waits. *)
Definition same_close c c' : Prop :=
  recv_close c' = recv_close c ∧ sent_close c' = sent_close c ∧ writebuf c' = writebuf c ∧ extrabuf c' = extrabuf c.

Lemma drop_same_close ci co fd c : same_close c (drop_fd ci co fd c).
Proof.
  pose proof (drop_fd_fdless ci co fd c) as H. split_and!;
    [exact (f_equal recv_close H)|exact (f_equal sent_close H)|exact (f_equal writebuf H)|exact (f_equal extrabuf H)].
Qed.

(** The end of [check_close] when the channel may not be closed yet. *)
Lemma wp_check_stays (cond close_allowed : bool) msgs (Q : unit → chses → Prop) s i c :
  inv None msgs s → zlen msgs < 2 ^ 31 → has_chan s i c →
  (close_allowed = false ∨ (cond = false ∧ waiting c = true)) →
  (∀ s' c' new, has_chan s' i c' → same_close c c' → only_eof c new → inv None (msgs ++ new) s' → Q tt s') →
  wp (do* when cond (close_chan_fd i (writefd c) SHUT_WR);
      let* c := chan i in
      do* when (negb (sent_eof c) && (readfd c =? FD_CLOSED) && (errfd_is_write c || (errfd c =? FD_CLOSED)))
            (send_msg_channel_eof i);
      let* c := chan i in
      let* pending := write_pending i in
      when ((readfd c =? FD_CLOSED) && (writefd c =? FD_CLOSED)
            && (errfd_is_write c || (errfd c =? FD_CLOSED))
            && negb (sent_close c) && close_allowed && negb pending)
        (send_msg_channel_close env i)) lawful Q s.
Proof.
  intros Hinv Hn Hc Hstay HQ. apply wp_bind.
  assert (Hgo : ∀ s1 c1, inv None msgs s1 → has_chan s1 i c1 → same_close c c1 → remotechan c1 = remotechan c →
    (close_allowed = false ∨ waiting c1 = true) →
    wp (let* c := chan i in
        do* when (negb (sent_eof c) && (readfd c =? FD_CLOSED) && (errfd_is_write c || (errfd c =? FD_CLOSED)))
              (send_msg_channel_eof i);
        let* c := chan i in
        let* pending := write_pending i in
        when ((readfd c =? FD_CLOSED) && (writefd c =? FD_CLOSED)
              && (errfd_is_write c || (errfd c =? FD_CLOSED))
              && negb (sent_close c) && close_allowed && negb pending)
          (send_msg_channel_close env i)) lawful Q s1).
  { intros s1 c1 Hinv1 Hc1 Hsame Hrem Hst. apply wp_bind. eapply wp_chan; [done|].
    assert (Hlast : ∀ s2 c2 new, inv None (msgs ++ new) s2 → has_chan s2 i c2 → same_close c c2 → only_eof c new →
      (close_allowed = false ∨ waiting c2 = true) →
      wp (let* c := chan i in
          let* pending := write_pending i in
          when ((readfd c =? FD_CLOSED) && (writefd c =? FD_CLOSED)
                && (errfd_is_write c || (errfd c =? FD_CLOSED))
                && negb (sent_close c) && close_allowed && negb pending)
            (send_msg_channel_close env i)) lawful Q s2).
    { intros s2 c2 new Hinv2 Hc2 Hs2 Heof Hst2. apply wp_bind. eapply wp_chan; [done|].
      pose proof (inv_chan _ _ _ _ Hinv2 Hc2) as (_&((wb&Hwb&_)&_)&_).
      apply wp_bind. eapply wp_write_pending_is; [done|by exists wb|].
      replace (_ && close_allowed && negb (waiting c2)) with false
        by (destruct Hst2 as [-> | ->]; cbn [negb]; by rewrite ?andb_false_r).
      apply wp_ret. by eapply HQ. }
    apply wp_bind, wp_when; intros _.
    - eapply wp_send_eof; [done|done|done|]. rewrite Hrem. intros s2 Hinv2 Hc2.
      eapply Hlast; [exact Hinv2|exact Hc2|exact Hsame|by right|exact Hst].
    - eapply (Hlast _ c1 []); [by rewrite app_nil_r|done|done|by left|done]. }
  apply wp_when; intros Hcond.
  - destruct Hstay as [Hna|[? _]]; [|congruence].
    eapply wp_close_inv; [done|done|]. intros s2 Hinv2 Hc2 _.
    eapply Hgo; [exact Hinv2|exact Hc2|apply drop_same_close| |by left].
    exact (f_equal remotechan (drop_fd_fdless _ _ _ c)).
  - eapply Hgo; [exact Hinv|exact Hc|done|done|]. destruct Hstay as [?|[_ ?]]; [by left|by right].
Qed.

Lemma wp_prio_raw E (Q : unit → chses → Prop) s :
  (∀ s', channels s' = channels s → chancount s' = chancount s → tp s' = tp s → Q tt s') → wp update_channel_prio E Q s.
Proof.
  intros HQ. apply wp_bind, wp_get. apply wp_if; intros _; [by apply wp_ret, HQ|].
  apply wp_when; intros _; [|by apply HQ]. apply wp_bind, wp_log_fd, wp_modify. by apply HQ.
Qed.

Lemma wp_remove_plain (Q : unit → chses → Prop) s i c :
  has_chan s i c → (∃ wb, writebuf c = Some wb) → ch_index c = Z.of_nat i → ct_cleanup (chantype env (ch_type c)) = None →
  (∀ s', channels s' = <[i := None]> (channels s) → chancount s' = u32 (chancount s - 1) → tp s' = tp s → Q tt s') →
  wp (remove_channel env i) lawful Q s.
Proof.
  intros Hc [wb Hwb] Hi Hcl HQ.
  unfold remove_channel. apply wp_bind. eapply wp_chan; [done|]. apply wp_bind. eapply wp_ptr; [done|].
  apply wp_bind. eapply wp_set_chan; [done|]. apply wp_bind. eapply wp_set_chan; [by eapply cv_has|]. rewrite cv_cv.
  set (c1 := set_extrabuf None (set_writebuf None c)). pose proof (cv_has s i c c1 Hc) as Hc1.
  apply wp_bind. eapply wp_chan; [done|]. apply wp_bind, wp_get.
  change (ch_type c1) with (ch_type c). rewrite Hcl.
  assert (Hend : ∀ s', channels s' = channels (cv s i c1) → chancount s' = chancount s → tp s' = tp s →
    wp (do* ret tt;
        let* c := chan i in
        do* match conn_pending c with
            | Some p => modify (λ s, set_cancelled (p :: cancelled s) s)
            | None => ret tt
            end;
        do* modify (λ s, set_channels (<[Z.to_nat (ch_index c) := None]> (channels s)) s);
        do* modify (λ s, set_chancount (u32 (chancount s - 1)) s);
        update_channel_prio) lawful Q s').
  { intros s' H1 H2 H3. apply wp_bind, wp_ret, wp_bind. eapply wp_chan; [unfold has_chan; by rewrite H1|].
    change (ch_index c1) with (ch_index c). rewrite Hi, Nat2Z.id. apply wp_bind.
    assert (Hlast : ∀ s2, channels s2 = channels s' → chancount s2 = chancount s' → tp s2 = tp s' →
      wp (do* modify (λ s, set_channels (<[i := None]> (channels s)) s);
          do* modify (λ s, set_chancount (u32 (chancount s - 1)) s); update_channel_prio) lawful Q s2).
    { intros s2 G1 G2 G3. apply wp_bind, wp_modify, wp_bind, wp_modify, wp_prio_raw. intros s3 F1 F2 F3.
      apply HQ; rewrite ?F1, ?F2, ?F3; cbn [channels set_chancount set_channels chancount tp].
      - rewrite G1, H1. unfold cv. cbn. by rewrite list_insert_insert_eq.
      - by rewrite G2, H2.
      - by rewrite G3. }
    destruct (conn_pending c1); [apply wp_modify|apply wp_ret]; by apply Hlast. }
  apply wp_bind, wp_when; intros _; [|by apply Hend].
  apply wp_bind, wp_m_close; [apply lawful_close|]. intros l1 _.
  apply wp_bind, wp_m_close; [apply lawful_close|]. intros l2 _.
  apply wp_m_close; [apply lawful_close|]. intros l3 _. by apply Hend.
Qed.

Lemma drop_type ci co fd c : ch_type (drop_fd ci co fd c) = ch_type c.
Proof. exact (f_equal ch_type (drop_fd_fdless ci co fd c)). Qed.

Lemma closed_chan_type c : ch_type (closed_chan c) = ch_type c.
Proof. unfold closed_chan, all_closed. rewrite !drop_type. done. Qed.

Lemma count_removed msgs s i c :
  inv None msgs s → has_chan s i c → u32 (chancount s - 1) = chancount s - 1.
Proof.
  intros (_&(Hsz&Hcnt&_)&_) Hc. pose proof (zlen_used_le (channels s)). unfold MAX_CHANNELS in Hsz.
  pose proof (zlen_used_insert (channels s) i (Some c) None Hc) as Hu. cbv iota in Hu.
  pose proof (zlen_nonneg (omap id (<[i:=None]> (channels s)))). apply u32_small. lia.
Qed.

(** The messages that answer CLOSE. *)
Definition close_reply c : list (list Z) :=
  if sent_close c then [] else [short_msg SSH_MSG_CHANNEL_CLOSE (remotechan c)].

Lemma wp_check_close_plain msgs (Q : unit → chses → Prop) s i c :
  inv None msgs s → zlen msgs < 2 ^ 31 → has_chan s i c → plain_type (ch_type c) → waiting c = false →
  flushing c = false → recv_close c = true →
  (∀ s', channels s' = <[i := None]> (channels s) → chancount s' = chancount s - 1 →
     ready (msgs ++ close_reply c) (tp s') → Q tt s') →
  wp (check_close env i) lawful Q s.
Proof.
  intros Hinv Hn Hc (Hck&Hcl&Hcu) Hdr Hfl Hrc HQ. pose proof (inv_chan _ _ _ _ Hinv Hc) as (Hix&((wb&Hwb&_)&_)&_).
  pose proof (count_removed _ _ _ _ Hinv Hc) as Hcount.
  unfold check_close. apply wp_bind. eapply wp_chan; [exact Hc|]. rewrite Hck.
  apply wp_bind, wp_ret, wp_bind. eapply wp_chan; [exact Hc|]. rewrite Hfl.
  apply wp_bind, wp_when; [done|]. intros _. apply wp_bind. eapply wp_chan; [exact Hc|].
  apply wp_bind. eapply wp_write_pending_is; [exact Hc|by exists wb|].
  rewrite Hrc, Hdr. cbn [negb andb]. apply wp_bind. unfold close_reply in HQ.
  destruct (sent_close c); cbn [negb when].
  - apply wp_ret. eapply wp_remove_plain; [exact Hc|by exists wb|exact Hix|exact Hcu|].
    intros s' G1 G2 G3. apply HQ; [done|congruence|rewrite G3, app_nil_r; apply Hinv].
  - apply wp_bind. eapply wp_chan; [exact Hc|]. rewrite Hcl. apply wp_bind, wp_ret.
    change (wp (send_close_rest i) lawful (λ _ s', wp (remove_channel env i) lawful Q s') s).
    eapply (wp_send_close_rest msgs); [exact Hinv|done|exact Hc|]. intros s3 Hinv3 G1 G2 _.
    assert (Hc3 : has_chan s3 i (closed_chan c)) by (unfold has_chan; rewrite G1; by eapply (cv_has s)).
    pose proof (inv_chan _ _ _ _ Hinv3 Hc3) as (Hix3&((wb3&Hwb3&_)&_)&_).
    eapply wp_remove_plain; [exact Hc3|by exists wb3|exact Hix3|by rewrite closed_chan_type|].
    intros s' F1 F2 F3. apply HQ; [|congruence|rewrite F3; apply Hinv3].
    rewrite F1, G1. apply list_insert_insert_eq.
Qed.
(** A channel that may not be closed: data waits, or the type's
    [check_close] refuses. *)
Definition not_yet (i : nat) c : Prop :=
  plain_type (ch_type c) ∧ waiting c = true ∨
  sent_close c = false ∧ ∃ f, ct_check_close (chantype env (ch_type c)) = Some f ∧ ∀ s, f i s = Ok (false, s).

Lemma wp_check_close_stays msgs (Q : unit → chses → Prop) s i c :
  inv None msgs s → zlen msgs < 2 ^ 31 → has_chan s i c → flushing c = false → not_yet i c →
  (∀ s' c' new, has_chan s' i c' → same_close c c' → only_eof c new → inv None (msgs ++ new) s' → Q tt s') →
  wp (check_close env i) lawful Q s.
Proof.
  intros Hinv Hn Hc Hfl Hny HQ. pose proof (inv_chan _ _ _ _ Hinv Hc) as (_&((wb&Hwb&_)&_)&_).
  unfold check_close. apply wp_bind. eapply wp_chan; [exact Hc|]. apply wp_bind.
  destruct Hny as [[(Hck&_&_) Hw]|(Hsc&f&Hck&Hf)]; rewrite Hck.
  - apply wp_ret, wp_bind. eapply wp_chan; [exact Hc|]. rewrite Hfl. apply wp_bind, wp_ret, wp_bind.
    eapply wp_chan; [exact Hc|]. apply wp_bind. eapply wp_write_pending_is; [exact Hc|by exists wb|]. rewrite Hw.
    cbn [negb]. rewrite !andb_false_r. cbn [andb orb]. rewrite ?andb_false_r. cbn [orb].
    eapply wp_check_stays; [exact Hinv|done|exact Hc|right; split; [done|exact Hw]|exact HQ].
  - rewrite Hsc. unfold wp at 1. rewrite Hf. apply wp_bind. eapply wp_chan; [exact Hc|]. rewrite Hfl.
    apply wp_bind, wp_ret, wp_bind. eapply wp_chan; [exact Hc|]. apply wp_bind.
    eapply wp_write_pending_is; [exact Hc|by exists wb|]. rewrite andb_false_r.
    eapply wp_check_stays; [exact Hinv|done|exact Hc|by left|exact HQ].
Qed.

(** The handler up to [check_close]. *)
Lemma wp_recv_close_start msgs (Q : unit → chses → Prop) s b i c :
  inv None msgs s → has_payload s b → b_pos b + 4 ≤ b_len b → Z.to_nat (chan_number b) = i → has_chan s i c →
  (∀ s1, inv None msgs s1 → has_chan s1 i (set_recv_close true (set_recv_eof true c)) →
     channels s1 = <[i := Some (set_recv_close true (set_recv_eof true c))]> (channels s) →
     chancount s1 = chancount s → wp (check_close env i) lawful Q s1) →
  wp (recv_msg_channel_close env) lawful Q s.
Proof.
  intros Hinv Hp Hl Hi Hc HQ. apply wp_bind. eapply wp_getchannel; [exact Hp| | |lia].
  2: { intros _ Hno. rewrite Hi in Hno. by destruct (Hno c). }
  intros c' _ _. rewrite Hi in *. pose proof Hp as [_ Hwf].
  assert (Hwf' : wf_buf (after_get 4 b)) by (apply wf_set_pos; [done|pose proof Hwf as (?&?&?&?); lia]).
  assert (Hinv1 : inv None msgs (pv s (after_get 4 b))) by (by apply inv_pv).
  assert (Hc1 : has_chan (pv s (after_get 4 b)) i c) by exact Hc.
  assert (Hch1 : channels (pv s (after_get 4 b)) = channels s ∧ chancount (pv s (after_get 4 b)) = chancount s) by done.
  destruct Hch1 as [Hch1 Hcnt1]. generalize dependent (pv s (after_get 4 b)). intros s1 Hinv1 Hc1 Hch1 Hcnt1.
  apply wp_bind. eapply wp_set_chan; [exact Hc1|]. apply wp_bind. eapply wp_set_chan; [by eapply cv_has|]. rewrite cv_cv.
  apply HQ; [|by eapply cv_has|unfold cv; cbn [channels]; by rewrite <-Hch1|exact Hcnt1].
  eapply inv_cv; [exact Hinv1|exact Hc1|]. intros _. exact (inv_chan _ _ _ _ Hinv1 Hc1).
Qed.
End table.

(** C22: The CLOSE handshake.  A channel of a type without callbacks (the
    forwarded connections) is freed exactly when the peer has closed it and
    nothing waits to be written to the program.  When CLOSE arrives and
    nothing waits, the answer is one CLOSE message for the peer's channel,
    unless one was sent before, and the slot of the channel becomes free, the
    other channels untouched.  When data waits, no CLOSE is sent, at most an
    EOF, and the channel keeps its slot and its data; so it does for a type
    whose [check_close] refuses, as that of a session whose program still
    runs.  And a later [check_close] on a closed channel on which nothing
    waits any more sends the answer and frees the slot.  So each side sends
    exactly one CLOSE per channel, and a channel number is reused only after
    both have been exchanged. *)
Theorem close_handshake {CL : CryptoLib} {ready} {T : Transport ready} (env : chan_env) msgs s i c :
  inv (ready := ready) env None msgs s → zlen msgs < 2 ^ 31 → has_chan s i c → flushing c = false →
  let freed s' := channels s' = <[i := None]> (channels s) ∧ chancount s' = chancount s - 1 ∧
    ready (msgs ++ (if sent_close c then [] else [short_msg SSH_MSG_CHANNEL_CLOSE (remotechan c)])) (tp s') in
  (∀ b, has_payload s b → b_pos b + 4 ≤ b_len b → Z.to_nat (chan_number b) = i →
     (plain_type env (ch_type c) → waiting c = false →
        wp (recv_msg_channel_close env) lawful (λ _ s', freed s') s) ∧
     (not_yet env i c →
        wp (recv_msg_channel_close env) lawful (λ _ s', ∃ c' new, has_chan s' i c' ∧
          recv_close c' = true ∧ sent_close c' = sent_close c ∧ writebuf c' = writebuf c ∧ extrabuf c' = extrabuf c ∧
          only_eof c new ∧ ready (msgs ++ new) (tp s')) s)) ∧
  (plain_type env (ch_type c) → recv_close c = true → waiting c = false →
     wp (check_close env i) lawful (λ _ s', freed s') s).
Proof.
  intros Hinv Hn Hc Hfl freed. split; [intros b Hp Hl Hi; split|].
  - intros Hpt Hw. eapply wp_recv_close_start; [exact Hinv|exact Hp|exact Hl|exact Hi|exact Hc|].
    intros s1 Hinv1 Hc1 Hch Hcnt. eapply (wp_check_close_plain env msgs); [exact Hinv1|done|exact Hc1|exact Hpt|exact Hw|exact Hfl|done|].
    intros s' G1 G2 G3. split_and!; [|by rewrite G2, Hcnt|exact G3]. rewrite G1, Hch. apply list_insert_insert_eq.
  - intros Hny. eapply wp_recv_close_start; [exact Hinv|exact Hp|exact Hl|exact Hi|exact Hc|].
    intros s1 Hinv1 Hc1 _ _. eapply (wp_check_close_stays env msgs); [exact Hinv1|done|exact Hc1|exact Hfl|exact Hny|].
    intros s' c' new Hc' (H1&H2&H3&H4) Heof Hinv'. exists c', new. split_and!; try done. apply Hinv'.
  - intros Hpt Hrc Hw. eapply (wp_check_close_plain env msgs); [exact Hinv|done|exact Hc|exact Hpt|exact Hw|exact Hfl|done|].
    intros s' G1 G2 G3. by split_and!.
Qed.

(** A new channel takes the first free slot.  The smallest free index of
    the table is used, and only when every slot is taken the table is extended
    by three slots; at [MAX_CHANNELS] slots the request is refused and
    nothing changes.  The new channel has the full receive window, an empty
    buffer of the size of the window, and no descriptors; all other channels
    keep their place. *)
Theorem newchannel_slot {CL : CryptoLib} (env : chan_env) s remote type tw tm :
  window_option env → zlen (channels s) ≤ MAX_CHANNELS + 2 → chancount s = zlen (omap id (channels s)) →
  (newchannel env remote type tw tm s = Ok (None, s) ∧
     (∀ j, (j < length (channels s))%nat → ∃ c, has_chan s j c) ∧ MAX_CHANNELS ≤ chansize s) ∨
  ∃ i s', newchannel env remote type tw tm s = Ok (Some i, s') ∧
    has_chan s' i (fresh_chan env i remote type tw tm) ∧
    (∀ j, (j < i)%nat → ∃ c, has_chan s j c) ∧ (∀ c, ¬ has_chan s i c) ∧
    (∀ j, j ≠ i → mjoin (channels s' !! j) = mjoin (channels s !! j)) ∧
    chancount s' = chancount s + 1 ∧
    chansize s' = (if (i <? length (channels s))%nat then chansize s else chansize s + CHAN_EXTEND_SIZE) ∧
    chansize s' ≤ MAX_CHANNELS + 2.
Proof.
  intros HW Hsz Hcnt. rewrite newchannel_run by done. destruct (free_slot_spec (channels s)) as (H1&H2&H3).
  destruct (table_full s) eqn:Hfull; [left|right].
  - unfold table_full, chansize, zlen in *. split_and!; [done| |unfold chansize, zlen; lia]. intros j Hj. apply H2. lia.
  - cbv zeta. set (i := free_slot (channels s)) in *. eexists i, _.
    pose proof (grown_slot s) as Hslot. fold i in Hslot.
    assert (Hlt : (i < length (grown s))%nat) by (by eapply lookup_lt_Some).
    pose proof (grown_length s Hfull Hsz) as Hgl. pose proof (zlen_used_le (channels s)).
    pose proof (zlen_nonneg (omap id (channels s))). unfold MAX_CHANNELS in *.
    split_and!; [done|by apply list_lookup_insert_eq|done| | | | |].
    + intros c Hc. unfold has_chan in Hc. apply lookup_lt_Some in Hc as Hl. specialize (H3 Hl). congruence.
    + intros j Hj. cbn [channels set_chancount set_channels]. rewrite list_lookup_insert_ne by done.
      destruct (grown_other s j) as [->|[-> [->| ->]]]; done.
    + cbn [chancount set_chancount]. apply u32_small. lia.
    + unfold chansize, grown, chansize, zlen. cbn [channels set_chancount set_channels]. rewrite length_insert.
      fold i. destruct (Nat.ltb_spec i (length (channels s))); [by if_false|]. if_true.
      rewrite length_app. cbn. unfold CHAN_EXTEND_SIZE. lia.
    + unfold chansize, zlen. cbn [channels set_chancount set_channels]. rewrite length_insert. exact Hgl.
Qed.

(** ** Witnesses *)

Definition toy_open_chan : Channel := @fresh_chan toy_lib toy_chan_env 0 42 0 100 50.
Definition toy_number : buffer := mkbuf [0; 0; 0; 0] 4 0 4.
Lemma toy_number_wf : wf_buf toy_number.
Proof.
  split_and!; cbn [toy_number b_size b_pos b_len b_data]; try (unfold BUF_MAX_SIZE; lia); try done.
  repeat (apply Forall_cons; split); try done; unfold byte_ok; lia.
Qed.

Definition toy_one_channel : @chses toy_lib := toy_chses [Some toy_open_chan; None] toy_number [] [].

Lemma toy_one_inv : inv (ready := toy_ready) toy_chan_env None [] toy_one_channel.
Proof.
  split_and!; [apply toy_chses_ready| |by apply Forall_nil|by intros b [= <-]; apply toy_number_wf].
  split_and!; [done|done|]. intros [|[|i]] c Hc; [|done|done]. injection Hc as <-. intros _.
  apply fresh_chan_ok; [done|unfold u32_ok; lia..].
Qed.

Lemma toy_number_in : has_payload toy_one_channel toy_number ∧ b_pos toy_number + 4 ≤ b_len toy_number ∧
  Z.to_nat (chan_number toy_number) = 0%nat.
Proof. split; [by split; [|apply toy_number_wf]|]. by vm_compute. Qed.

Lemma toy_plain : plain_type toy_chan_env (ch_type toy_open_chan).
Proof. done. Qed.

Lemma close_handshake_witness :
  wp (recv_msg_channel_close toy_chan_env) lawful
    (λ _ s', channels s' = [None; None] ∧ chancount s' = 0 ∧
       toy_ready [[SSH_MSG_CHANNEL_CLOSE; 0; 0; 0; 42]] (tp s')) toy_one_channel.
Proof.
  destruct toy_number_in as (Hp&Hl&Hi).
  assert (Hc : has_chan toy_one_channel 0 toy_open_chan) by done.
  assert (Hf : flushing toy_open_chan = false) by done. assert (Hw : waiting toy_open_chan = false) by done.
  destruct (close_handshake (T := toy_transport) toy_chan_env [] toy_one_channel 0 toy_open_chan toy_one_inv eq_refl Hc Hf) as [H _].
  destruct (H toy_number Hp Hl Hi) as [Hfree _]. exact (Hfree toy_plain Hw).
Defined.

Lemma newchannel_slot_witness :
  ∃ s', newchannel toy_chan_env 9 0 10 20 toy_one_channel = Ok (Some 1%nat, s') ∧ chancount s' = 2.
Proof.
  destruct (newchannel_slot toy_chan_env toy_one_channel 9 0 10 20) as [[H _]|(i&s'&Hrun&_&_&_&_&Hn&_)];
    [done|done|done|by rewrite (newchannel_run toy_chan_env) in H|].
  exists s'. rewrite (newchannel_run toy_chan_env) in Hrun by done. injection Hrun as <- <-. split; [|exact Hn].
  by rewrite (newchannel_run toy_chan_env).
Defined.
