(* ===== verification/ChannelEvents.v ===== *)
(** * No event breaks the channels

    Every message handler of the channel layer and the descriptor loop keep
    the invariant of ChannelTable.v, whatever the peer sends. *)

From Stdlib Require Import ZArith Lia.
From stdpp Require Import base list strings gmap.
From S2P Require Import Prelude.
From S2P Require Import Buffer.
From S2P Require Import CircBuffer.
From S2P Require Import Queue.
From S2P Require Import Random.
From S2P Require Import Algo.
From S2P Require Import Session.
From S2P Require Import Packet.
From S2P Require Import PacketRecv.
From S2P Require Import PacketStream.
From S2P Require Import Instances.
From S2P Require Import Transport.
From S2P Require Import ProcessPacket.
From S2P Require Import Channel.
From S2P Require Import ChannelData.
From S2P Require Import ChannelSend.
From S2P Require Import ChannelTable.

(** An exit message that is no assertion. *)
Ltac lawful_msg := let x := fresh "x" in let H := fresh "H" in intros x H; discriminate H.

(** ** Reading fields of a message *)

Section fields.
Context {CL : CryptoLib}.
Implicit Types (s : chses) (b : buffer).

Lemma lawful_getptr : lawful "Bad buf_getptr".
Proof. lawful_msg. Qed.

Lemma lawful_window : lawful ("Failed assertion " +:+ "channel->recvwindow >= datalen").
Proof. intros x H. cbn in H. by simplify_eq. Qed.

(** Every buffer operation a handler uses leaves a well-formed payload. *)
Definition reads {A} (m : ST buffer A) (P : A → Prop) : Prop :=
  ∀ b, wf_buf b → wp m lawful (λ a b', P a ∧ wf_buf b') b.

Lemma reads_int : reads buf_getint u32_ok.
Proof.
  intros b Hwf. apply wp_buf_getint; [done| |intros _; apply lawful_getptr].
  intros Hl. split; [by apply chan_number_range|by apply wf_after_get].
Qed.

Lemma reads_bool : reads buf_getbool (λ _, True).
Proof.
  intros b Hwf. apply wp_bind, wp_buf_getbyte; [done| |intros _; lawful_msg].
  intros Hl. apply wp_ret. split; [done|]. apply wf_after_get; [done|lia|lia].
Qed.

Lemma reads_eatstring : reads buf_eatstring (λ _, True).
Proof.
  intros b Hwf. apply wp_bind, wp_buf_getint; [done| |intros _; apply lawful_getptr]. intros Hl.
  pose proof (chan_number_range b Hwf Hl) as [Hn _].
  apply wp_buf_incrpos; [by apply wf_after_get|done| |intros _; lawful_msg].
  intros Hl2. split; [done|]. by apply wf_after_get; [apply wf_after_get|..].
Qed.

Lemma reads_string : reads buf_getstring bytes_ok.
Proof.
  intros b Hwf. apply wp_bind, wp_buf_getint; [done| |intros _; apply lawful_getptr]. intros Hl.
  pose proof (chan_number_range b Hwf Hl) as [Hn _]. unfold chan_number in Hn.
  apply wp_bind, wp_exit_if; [intros _; lawful_msg|]. intros _.
  assert (Hwf4 : wf_buf (after_get 4 b)) by (by apply wf_after_get).
  apply wp_bind, wp_buf_getptr; [done|done| |intros _; apply lawful_getptr]. intros Hl2.
  pose proof Hwf as (?&?&?&?). cbn [after_get set_pos b_pos b_len] in *.
  apply wp_bind, wp_mem_load; [cbn; lia|lia|cbn; lia|]. 
  apply wp_bind, wp_buf_incrpos; [done|done| |intros _; lawful_msg]. intros _. apply wp_ret.
  split; [by apply bytes_ok_slice|]. by apply wf_after_get.
Qed.

Lemma wp_read_field {A} (m : ST buffer A) P (Q : A → chses → Prop) s b :
  reads m P → has_payload s b → (∀ a b', P a → wf_buf b' → Q a (pv s b')) → wp (on_tp (on_payload m)) lawful Q s.
Proof.
  intros Hm [Hp Hwf] HQ. eapply wp_payload; [exact Hp|]. eapply wp_mono; [by apply Hm|].
  intros a b' [Ha Hb']. by apply HQ.
Qed.
End fields.

Section events.
Context {CL : CryptoLib} {ready : list (list Z) → sshsession → Prop} {T : Transport ready}.
Context (env : chan_env) {CB : ChanCallbacks (ready := ready) env}.
Implicit Types (s : chses) (c : Channel) (i : nat) (msgs new : list (list Z)) (b : buffer).

#[local] Abbreviation inv := (inv (ready := ready) env).

(** The invariant with at most [k] more messages. *)
Definition safe (k : Z) msgs s' : Prop := ∃ new, zlen new ≤ k ∧ inv None (msgs ++ new) s'.

Lemma safe_now k msgs s : 0 ≤ k → inv None msgs s → safe k msgs s.
Proof. intros Hk H. exists []. by rewrite app_nil_r. Qed.

Lemma safe_more k k' msgs new s' : zlen new + k ≤ k' → safe k (msgs ++ new) s' → safe k' msgs s'.
Proof. intros Hk (n2&Hl&H). exists (new ++ n2). rewrite app_assoc, zlen_app. split; [lia|done]. Qed.

Lemma safe_more_wp {A} k k' new (m : ST chses A) E msgs s :
  zlen new + k ≤ k' → wp m E (λ _ s', safe k (msgs ++ new) s') s → wp m E (λ _ s', safe k' msgs s') s.
Proof. intros Hk H. eapply wp_mono; [exact H|]. intros a s' Hs. by eapply safe_more. Qed.

Lemma wp_handler_chan kind msgs k (h : nat → ST chses unit) s b :
  inv None msgs s → has_payload s b → lawful (unknown_channel kind) →
  (∀ i c b', inv None msgs (pv s b') → wf_buf b' → has_chan (pv s b') i c →
     wp (h i) lawful (λ _ s', safe k msgs s') (pv s b')) →
  wp (let* i := getchannel_msg kind in h i) lawful (λ _ s', safe k msgs s') s.
Proof.
  intros Hinv Hp Hk Hh. apply wp_bind. eapply wp_getchannel; [exact Hp| | |].
  - intros c Hl Hc. destruct Hp as [_ Hwf]. assert (Hwf' : wf_buf (after_get 4 b)) by (by apply wf_after_get).
    eapply Hh; [by apply inv_pv|done|exact Hc].
  - by intros _ _.
  - intros _. apply lawful_getptr.
Qed.

Lemma pv_payload s b : wf_buf b → has_payload (pv s b) b.
Proof. done. Qed.
Lemma pv_pv s b b' : pv (pv s b) b' = pv s b'.
Proof. done. Qed.

(** *** EOF and CLOSE *)

Lemma chan_ok_recv i c (f : Channel → Channel) :
  chan_ok env i c → f = set_recv_eof true ∨ f = set_recv_close true ∨ f = set_await_open false →
  chan_ok env i (f c).
Proof. intros H [->|[->| ->]]; exact H. Qed.

Lemma safe_eof msgs s b :
  inv None msgs s → has_payload s b → zlen msgs + 16 ≤ 2 ^ 31 →
  wp (recv_msg_channel_eof env) lawful (λ _ s', safe 16 msgs s') s.
Proof.
  intros Hinv Hp Hn. eapply wp_handler_chan; [done|exact Hp|lawful_msg|]. intros i c b' Hinv' Hb' Hc.
  apply wp_bind. eapply wp_set_chan; [exact Hc|].
  eapply (wp_check_close env msgs); [|done|by eapply cv_has|intros; by eexists].
  eapply inv_cv; [exact Hinv'|exact Hc|]. intros _. apply chan_ok_recv; [by eapply inv_chan|by left].
Qed.

Lemma safe_close msgs s b :
  inv None msgs s → has_payload s b → zlen msgs + 16 ≤ 2 ^ 31 →
  wp (recv_msg_channel_close env) lawful (λ _ s', safe 16 msgs s') s.
Proof.
  intros Hinv Hp Hn. eapply wp_handler_chan; [done|exact Hp|lawful_msg|]. intros i c b' Hinv' Hb' Hc.
  apply wp_bind. eapply wp_set_chan; [exact Hc|]. apply wp_bind. eapply wp_set_chan; [by eapply cv_has|].
  rewrite cv_cv. eapply (wp_check_close env msgs); [|done|by eapply cv_has|intros; by eexists].
  eapply inv_cv; [exact Hinv'|exact Hc|]. intros _. apply chan_ok_recv; [|by right; left].
  apply chan_ok_recv; [by eapply inv_chan|by left].
Qed.

(** *** Requests and window adjustments *)

Lemma wp_short_msg type msgs E (Q : unit → chses → Prop) s i c :
  inv None msgs s → zlen msgs < 2 ^ 31 → has_chan s i c → byte_ok type →
  (∀ s', safe 1 msgs s' → Q tt s') →
  wp (do* put_tp (buf_putbyte type); do* put_tp (buf_putint (remotechan c)); on_tp encrypt_packet) E Q s.
Proof.
  intros Hinv Hn Hc Hb HQ.
  eapply (wp_msg_inv_last env None (short_fields type (remotechan c)) msgs);
    [done|done|by apply short_fields_ok|by vm_compute|].
  intros s' Hinv' _. apply HQ. eexists. split; [|exact Hinv']. done.
Qed.

Lemma safe_request msgs s b :
  inv None msgs s → has_payload s b → zlen msgs + 4 ≤ 2 ^ 31 →
  wp (recv_msg_channel_request env) lawful (λ _ s', safe 4 msgs s') s.
Proof.
  intros Hinv Hp Hn. eapply wp_handler_chan; [done|exact Hp|lawful_msg|]. intros i c b' Hinv' Hb' Hc.
  apply wp_bind. eapply wp_chan; [exact Hc|].
  destruct (ct_reqhandler (chantype env (ch_type c))) as [f|] eqn:Hf.
  - eapply wp_mono; [eapply (cb_request env); [exact Hf|exact Hinv'|done|by eexists]|].
    intros [] s' (new&Hnew&Hinv2&_). by exists new.
  - apply wp_bind. eapply wp_read_field; [apply reads_eatstring|by apply pv_payload|]. intros _ b2 _ Hb2. rewrite pv_pv.
    apply wp_bind. eapply wp_read_field; [apply reads_bool|by apply pv_payload|]. intros r b3 _ Hb3. rewrite pv_pv.
    assert (Hinv3 : inv None msgs (pv s b3)) by (by apply inv_pv).
    apply wp_when; intros _; [|by apply safe_now]. unfold send_msg_channel_failure.
    apply wp_bind. eapply wp_chan; [exact Hc|]. apply wp_if; intros _; [by apply wp_ret, safe_now|].
    eapply wp_short_msg; [exact Hinv3|lia|exact Hc|done|]. intros s' (new&Hl&H). exists new. split; [lia|done].
Qed.

Lemma chan_ok_transwindow i c v : chan_ok env i c → u32_ok v → chan_ok env i (set_transwindow v c).
Proof. intros (Hi&Hw&Hb&Ht&Hm&Hc) Hv. by split_and!. Qed.
Lemma chan_ok_transmax i c v : chan_ok env i c → u32_ok v → chan_ok env i (set_transmaxpacket v c).
Proof. intros (Hi&Hw&Hb&Ht&Hm&Hc) Hv. by split_and!. Qed.

Lemma safe_window_adjust msgs s b :
  inv None msgs s → has_payload s b →
  wp recv_msg_channel_window_adjust lawful (λ _ s', safe 0 msgs s') s.
Proof.
  intros Hinv Hp. eapply wp_handler_chan; [done|exact Hp|lawful_msg|]. intros i c b' Hinv' Hb' Hc.
  apply wp_bind. eapply wp_read_field; [apply reads_int|by apply pv_payload|]. intros v b2 Hv Hb2. rewrite pv_pv.
  eapply wp_set_chan; [exact Hc|]. cbv zeta. pose proof (inv_chan _ _ _ _ _ Hinv' Hc) as Hok.
  pose proof Hok as (_&_&_&Ht&_). rewrite sat_add by done.
  apply safe_now; [done|]. eapply inv_cv; [by apply inv_pv|exact Hc|]. intros _. apply chan_ok_transwindow; [done|].
  unfold u32_ok in *. lia.
Qed.

(** *** Opening *)

Lemma wp_open_failure remote reason msgs E (Q : unit → chses → Prop) s :
  inv None msgs s → zlen msgs < 2 ^ 31 → (∀ s', safe 1 msgs s' → Q tt s') →
  wp (send_msg_channel_open_failure remote reason [] []) E Q s.
Proof.
  intros Hinv Hn HQ.
  eapply (wp_msg_inv_last env None
    [(buf_putbyte SSH_MSG_CHANNEL_OPEN_FAILURE, [SSH_MSG_CHANNEL_OPEN_FAILURE]); (buf_putint remote, STORE32H remote);
     (buf_putint reason, STORE32H reason); (buf_putstring [], STORE32H 0); (buf_putstring [], STORE32H 0)] msgs);
    [done|done| |by vm_compute|].
  - repeat (apply Forall_cons; split); first [apply puts_int|apply puts_empty_string|by apply puts_byte|done].
  - intros s' Hinv' _. apply HQ. eexists. split; [|exact Hinv']. done.
Qed.

Lemma wp_open_confirmation win maxp msgs E (Q : unit → chses → Prop) s i c :
  inv None msgs s → zlen msgs < 2 ^ 31 → has_chan s i c → (∀ s', safe 1 msgs s' → Q tt s') →
  wp (send_msg_channel_open_confirmation i win maxp) E Q s.
Proof.
  intros Hinv Hn Hc HQ. apply wp_bind. eapply wp_chan; [done|].
  eapply (wp_msg_inv_last env None
    [(buf_putbyte SSH_MSG_CHANNEL_OPEN_CONFIRMATION, [SSH_MSG_CHANNEL_OPEN_CONFIRMATION]);
     (buf_putint (remotechan c), STORE32H (remotechan c)); (buf_putint (ch_index c), STORE32H (ch_index c));
     (buf_putint win, STORE32H win); (buf_putint maxp, STORE32H maxp)] msgs);
    [done|done|fields_ok|by vm_compute|].
  intros s' Hinv' _. apply HQ. eexists. split; [|exact Hinv']. done.
Qed.

(** A channel that was just opened by the peer: the type's set-up, then the
    answer. *)
Lemma wp_open_new t remote msgs s i c :
  inv None msgs s → zlen msgs + 9 ≤ 2 ^ 31 → has_chan s i c →
  wp (let* r := match ct_inithandler (chantype env t) with Some f => f i | None => ret 0 end in
      let has := match ct_inithandler (chantype env t) with Some _ => true | None => false end in
      if has && (r =? SSH_OPEN_IN_PROGRESS) then ret tt
      else if has && (r >? 0) then
        do* remove_channel env i; send_msg_channel_open_failure remote r [] []
      else
        do* update_channel_prio;
        let* c := chan i in
        send_msg_channel_open_confirmation i (recvwindow c) (recvmaxpacket c)) lawful (λ _ s', safe 9 msgs s') s.
Proof.
  intros Hinv Hn Hc. apply wp_bind.
  assert (Hgo : ∀ (has : bool) r s1 new c1, zlen new ≤ 4 → inv None (msgs ++ new) s1 → has_chan s1 i c1 →
    wp (if has && (r =? SSH_OPEN_IN_PROGRESS) then ret tt
        else if has && (r >? 0) then
          do* remove_channel env i; send_msg_channel_open_failure remote r [] []
        else
          do* update_channel_prio;
          let* c := chan i in
          send_msg_channel_open_confirmation i (recvwindow c) (recvmaxpacket c)) lawful (λ _ s', safe 9 msgs s') s1).
  { intros has r s1 new c1 Hnew Hinv1 Hc1. apply wp_if; intros _; [|apply wp_if; intros _].
    - apply wp_ret, (safe_more 0 _ _ new); [lia|by apply safe_now].
    - apply wp_bind. eapply (wp_remove_channel env); [exact Hinv1|rewrite zlen_app; lia|exact Hc1|].
      intros s2 new2 Hnew2 Hinv2. eapply wp_open_failure; [exact Hinv2|rewrite !zlen_app; lia|].
      intros s3 Hs3. rewrite <-app_assoc in Hs3. eapply safe_more; [|exact Hs3]. rewrite zlen_app. lia.
    - apply wp_bind. eapply wp_update_prio; [exact Hinv1|]. intros s2 Hinv2 Hch _.
      assert (Hc2 : has_chan s2 i c1) by (unfold has_chan; by rewrite Hch).
      apply wp_bind. eapply wp_chan; [exact Hc2|].
      eapply wp_open_confirmation; [exact Hinv2|rewrite zlen_app; lia|exact Hc2|].
      intros s3 Hs3. eapply safe_more; [|exact Hs3]. lia. }
  destruct (ct_inithandler (chantype env t)) as [f|] eqn:Hf.
  - eapply wp_mono; [eapply (cb_init env); [exact Hf|exact Hinv|lia|by eexists]|].
    intros r s' (new&Hnew&Hinv'&(c'&Hc')). by eapply Hgo.
  - apply wp_ret. eapply (Hgo false 0 _ []); [done|by rewrite app_nil_r|done].
Qed.

Lemma safe_open msgs s b :
  window_option env → inv None msgs s → has_payload s b → zlen msgs + 9 ≤ 2 ^ 31 →
  wp (recv_msg_channel_open env) lawful (λ _ s', safe 9 msgs s') s.
Proof.
  intros HW Hinv Hp Hn. unfold recv_msg_channel_open.
  apply wp_bind. eapply wp_read_field; [apply reads_string|exact Hp|]. intros type b1 _ Hb1.
  apply wp_bind. eapply wp_read_field; [apply reads_int|by apply pv_payload|]. intros remote b2 _ Hb2.
  apply wp_bind. eapply wp_read_field; [apply reads_int|by apply pv_payload|]. intros tw b3 Htw Hb3.
  apply wp_bind. eapply wp_read_field; [apply reads_int|by apply pv_payload|]. intros tm b4 Htm Hb4.
  rewrite !pv_pv. assert (Hinv4 : inv None msgs (pv s b4)) by (by apply inv_pv).
  assert (Hfail : ∀ errtype s', inv None msgs s' →
    wp (send_msg_channel_open_failure remote errtype [] []) lawful (λ _ s', safe 9 msgs s') s').
  { intros errtype s' Hinv'. eapply wp_open_failure; [exact Hinv'|lia|]. intros s3 (new&Hl&H). exists new. split; [lia|done]. }
  cbv zeta. apply wp_if; intros _; [by apply Hfail|].
  destruct (List.find (names_type env type) (chantypes env)) as [t|]; [|by apply Hfail].
  apply wp_bind. eapply (wp_newchannel env msgs); [done|done|done| |by apply Hfail|].
  { unfold u32_ok, TRANS_MAX_PAYLOAD_LEN in *. lia. }
  intros s' i Hinv' Hc' _. by eapply wp_open_new.
Qed.

Lemma safe_open_failure msgs s b :
  inv None msgs s → has_payload s b → zlen msgs + 4 ≤ 2 ^ 31 →
  wp (recv_msg_channel_open_failure env) lawful (λ _ s', safe 4 msgs s') s.
Proof.
  intros Hinv Hp Hn. eapply wp_handler_chan; [done|exact Hp|lawful_msg|]. intros i c b' Hinv' Hb' Hc.
  apply wp_bind. eapply wp_chan; [exact Hc|]. apply wp_bind, wp_exit_if; intros _; [lawful_msg|].
  apply wp_bind. eapply wp_set_chan; [exact Hc|].
  eapply (wp_remove_channel env msgs); [|done|by eapply cv_has|intros; by eexists].
  eapply inv_cv; [exact Hinv'|exact Hc|]. intros _. apply chan_ok_recv; [by eapply inv_chan|by right; right].
Qed.

Lemma safe_open_confirmation msgs s b :
  inv None msgs s → has_payload s b → zlen msgs + 8 ≤ 2 ^ 31 →
  wp (recv_msg_channel_open_confirmation env) lawful (λ _ s', safe 8 msgs s') s.
Proof.
  intros Hinv Hp Hn. eapply wp_handler_chan; [done|exact Hp|lawful_msg|]. intros i c b' Hinv' Hb' Hc.
  pose proof (inv_chan _ _ _ _ _ Hinv' Hc) as Hok.
  apply wp_bind. eapply wp_chan; [exact Hc|]. apply wp_bind, wp_exit_if; intros _; [lawful_msg|].
  apply wp_bind. eapply wp_set_chan; [exact Hc|].
  apply wp_bind. eapply wp_read_field; [apply reads_int|done|]. intros remote b2 _ Hb2.
  apply wp_bind. eapply wp_set_chan; [by eapply (cv_has s)|].
  apply wp_bind. eapply wp_read_field; [apply reads_int|done|]. intros tw b3 Htw Hb3.
  apply wp_bind. eapply wp_set_chan; [by eapply (cv_has (cv s i _)), (cv_has s)|].
  apply wp_bind. eapply wp_read_field; [apply reads_int|done|]. intros tm b4 Htm Hb4.
  apply wp_bind. eapply wp_set_chan; [by eapply (cv_has (cv (cv s i _) i _)), (cv_has (cv s i _)), (cv_has s)|].
  set (c1 := set_transmaxpacket tm _). set (s1 := cv _ i c1).
  assert (Hs1 : s1 = pv (cv s i c1) b4).
  { unfold s1. transitivity (pv (cv (cv (cv (cv s i (set_await_open false c)) i
      (set_remotechan remote (set_await_open false c))) i
      (set_transwindow tw (set_remotechan remote (set_await_open false c)))) i c1) b4); [done|]. by rewrite !cv_cv. }
  assert (Hc1 : has_chan s1 i c1) by (rewrite Hs1; by eapply (cv_has s)).
  assert (Hinv1 : inv None msgs s1).
  { rewrite Hs1. apply inv_pv; [|done]. eapply inv_cv; [done|exact Hc|]. intros _.
    apply chan_ok_transmax; [|done]. apply chan_ok_transwindow; [|done]. exact Hok. }
  destruct (ct_inithandler (chantype env (ch_type c))) as [f|] eqn:Hf.
  - apply wp_bind. eapply wp_mono; [eapply (cb_init env); [exact Hf|exact Hinv1|lia|by eexists]|].
    intros r s' (new&Hnew&Hinv2&(c'&Hc')). apply wp_if; intros _.
    + eapply (wp_remove_channel env); [exact Hinv2|rewrite zlen_app; lia|exact Hc'|]. intros s3 new3 Hnew3 Hinv3.
      eapply (safe_more 4 _ _ new); [lia|]. by exists new3.
    + eapply wp_update_prio; [exact Hinv2|]. intros s3 Hinv3 _ _. eapply (safe_more 0 _ _ new); [lia|by apply safe_now].
  - eapply wp_update_prio; [exact Hinv1|]. intros s3 Hinv3 _ _. by apply safe_now.
Qed.

(** *** Data *)

(** The fields flow control does not touch decide the rest of [chan_ok]. *)
Definition core c : Channel :=
  set_recvwindow 0 (set_recvdonelen 0 (set_buf WRITEBUF None (set_extrabuf (match extrabuf c with Some _ => Some (mkcbuf 0 0 0 0 None) | None => None end) c))).

Lemma chan_ok_core i c c' :
  core c' = core c → windows_ok env c' → balance c' ≤ recv_window env → chan_ok env i c → chan_ok env i c'.
Proof.
  intros Hc Hw Hb (Hi&_&_&Ht&Hm&[Hbi Hsc]).
  assert (He : errfd_is_read c' = errfd_is_read c).
  { pose proof (f_equal extrabuf Hc) as H. cbn in H. unfold errfd_is_read.
    by destruct (extrabuf c'), (extrabuf c). }
  pose proof (f_equal ch_index Hc) as H1. pose proof (f_equal transwindow Hc) as H2.
  pose proof (f_equal transmaxpacket Hc) as H3. pose proof (f_equal bidir_fd Hc) as H4.
  pose proof (f_equal errfd Hc) as H5. pose proof (f_equal readfd Hc) as H6.
  pose proof (f_equal sent_close Hc) as H7. pose proof (f_equal sent_eof Hc) as H8. cbn in *.
  unfold chan_ok, closed_ok. rewrite H1, H2, H3, H4, H5, H6, H7, H8, He. by split_and!.
Qed.

Lemma core_set_buf w c cb cb' : the_buf w c = Some cb → core (set_buf w (Some cb') c) = core c.
Proof. destruct c, w; cbn; intros Hb; [done|]. by rewrite Hb. Qed.
Lemma core_settled c : core (settled env c) = core c.
Proof. unfold settled. by destruct (adjust_due env c). Qed.
Lemma core_delivered w c cb cb' n : the_buf w c = Some cb → core (delivered w cb' n c) = core c.
Proof. intros Hb. rewrite <-(core_set_buf w c cb cb' Hb). by destruct w. Qed.

Lemma settle_msgs_le c : zlen (settle_msgs env c) ≤ 1.
Proof. unfold settle_msgs. by destruct (adjust_due env c). Qed.

Lemma wp_writechannel_inv fd w more msgs (Q : bool * Z → chses → Prop) s i c cb :
  window_option env → inv None msgs s → zlen msgs < 2 ^ 31 → has_chan s i c →
  the_buf w c = Some cb → balance c + zlen (default [] more) ≤ recv_window env →
  (∀ s' (res : bool) consumed new c' cb', zlen new ≤ 1 → inv None (msgs ++ new) s' → has_chan s' i c' →
     payload (pkt (tp s')) = payload (pkt (tp s)) → 0 ≤ consumed ≤ zlen (default [] more) →
     (res = true → the_buf w c' = Some cb' ∧ balance c' + (zlen (default [] more) - consumed) ≤ recv_window env) →
     Q (res, consumed) s') →
  wp (writechannel env i fd w more) lawful Q s.
Proof.
  intros HW Hinv Hn Hc Hb Hbal HQ. pose proof (inv_chan _ _ _ _ _ Hinv Hc) as Hok.
  pose proof Hok as (_&Hw&_). pose proof (the_buf_ok env w c cb Hw Hb) as [Hwf _].
  pose proof (cbuf_contents_length cb Hwf) as Hcl. pose proof Hwf as (_&_&_&Hu&_).
  pose proof (zlen_nonneg (default [] more)) as Hm0.
  eapply (wp_writechannel env fd w more msgs); [done|apply Hinv|done|done|done|done|done|intros; apply lawful_close| |].
  - cbv zeta. set (q := cbuf_contents cb ++ default [] more). set (n := write_count s (zlen q)).
    assert (Hq : zlen q = cb_used cb + zlen (default [] more)) by (unfold q; rewrite zlen_app; lia).
    assert (Hnr : 0 ≤ n ≤ zlen q) by (unfold n, write_count; destruct (fd_writes (fds s)) as [|[]]; lia).
    intros cb1 f t Hcb1 Hc1 Hu1 (_&_&Hrd) Ht Hqt. set (c1 := delivered w cb1 n c) in *.
    destruct (delivered_windows env w cb cb1 n c Hw Hb Hcb1 ltac:(lia)) as [Hok1 Hb1]. fold c1 in Hok1, Hb1.
    assert (Hck : chan_ok env i (settled env c1)).
    { eapply (chan_ok_core i c); [|by apply settled_windows| |done].
      - rewrite core_settled. by eapply core_delivered.
      - rewrite settled_balance. lia. }
    apply (HQ _ true _ (settle_msgs env c1) (settled env c1) cb1).
    + apply settle_msgs_le.
    + eapply (inv_set_tp env None msgs _ (set_fds f (cv s i (settled env c1)))); [|exact Ht|exact Hqt].
      apply (inv_set_fds env None msgs (cv s i (settled env c1))); [|exact Hrd].
      eapply inv_cv; [exact Hinv|exact Hc|]. done.
    + by eapply (cv_has s).
    + exact (f_equal (λ x, payload (pkt x)) Hqt).
    + lia.
    + intros _. split; [rewrite settled_buf; by destruct w|]. rewrite settled_balance. lia.
  - intros c1 f t Hfl (_&_&Hrd) _ Hc1 Ht Hqt.
    assert (Hck : chan_ok env i (settled env c1)).
    { eapply (chan_ok_core i c1); [apply core_settled|..].
      - apply settled_windows. by eapply fdless_windows.
      - rewrite settled_balance, (fdless_balance _ _ Hfl). lia.
      - rewrite Hc1. by apply chan_ok_drop. }
    apply (HQ _ false 0 (settle_msgs env c1) (settled env c1) cb); [apply settle_msgs_le| |by eapply (cv_has s)| |lia|done].
    + eapply (inv_set_tp env None msgs _ (set_fds f (cv s i (settled env c1)))); [|exact Ht|exact Hqt].
      apply (inv_set_fds env None msgs (cv s i (settled env c1))); [|exact Hrd].
      eapply inv_cv; [exact Hinv|exact Hc|]. done.
    + exact (f_equal (λ x, payload (pkt x)) Hqt).
Qed.

Lemma wp_common_recv_data fd w msgs s b i c :
  window_option env → inv None msgs s → has_payload s b → zlen msgs + 1 ≤ 2 ^ 31 → has_chan s i c →
  wp (common_recv_msg_channel_data env i fd w) lawful (λ _ s', safe 1 msgs s') s.
Proof.
  intros HW Hinv Hp Hn Hc. pose proof (inv_chan _ _ _ _ _ Hinv Hc) as Hok. pose proof Hok as (_&Hw&Hbal&_).
  assert (HW' : 0 < recv_window env ≤ 10485760) by exact HW.
  unfold common_recv_msg_channel_data. apply wp_bind. eapply wp_chan; [done|].
  apply wp_bind, wp_exit_if; intros _; [lawful_msg|].
  destruct (the_buf w c) as [cb|] eqn:Hb; [|by apply wp_ret, safe_now].
  apply wp_if; intros _; [by apply wp_ret, safe_now|].
  apply wp_bind. eapply wp_read_field; [apply reads_int|exact Hp|]. intros n b1 Hn1 Hb1. unfold u32_ok in Hn1.
  apply wp_bind, wp_exit_if; intros Hmax; [lawful_msg|].
  apply wp_bind, wp_assert; [intros _; apply lawful_window|]. intros Hwin.
  apply wp_bind. eapply wp_set_chan; [exact Hc|]. pose proof Hw as (Hw1&Hw2&Hw3&Hw4).
  pose proof (windows_used env c Hw) as [Hu1 Hu2]. unfold balance, buffered in Hbal.
  rewrite u32_small by lia. set (c1 := set_recvwindow (recvwindow c - n) c).
  apply wp_bind. eapply wp_chan; [by eapply (cv_has s)|]. apply wp_bind, wp_assert; [cbn; lia|]. intros _.
  assert (Hw' : windows_ok env c1) by (split_and!; [exact Hw1|exact Hw2|cbn; lia|exact Hw4]).
  assert (Hbal1 : balance c1 + n ≤ recv_window env) by (unfold balance, buffered; cbn; lia).
  assert (Hinv1 : inv None msgs (cv (pv s b1) i c1)).
  { eapply inv_cv; [by apply inv_pv|exact Hc|]. intros _. eapply (chan_ok_core i c); [done|done|lia|done]. }
  apply wp_bind. eapply wp_payload; [done|]. apply wp_load_cursor; [done|lia| |intros _; apply lawful_getptr].
  intros Hfit. pose proof Hb1 as (?&?&?&?). set (ds := slice (b_pos b1) n (b_data b1)).
  assert (Hds : zlen ds = n) by (unfold ds; rewrite zlen_slice; lia).
  rewrite pv_self by done.
  apply wp_bind. eapply (wp_writechannel_inv fd w (Some ds)); [done|exact Hinv1|lia|by eapply (cv_has s)| |cbn; lia|].
  { by destruct w. }
  cbn [default from_option id]. rewrite Hds.
  intros s2 res consumed new c2 cb2 Hnew Hinv2 Hc2 Hpay Hcons Hres. rewrite u32_small by lia.
  apply wp_bind. eapply wp_payload; [exact Hpay|]. apply wp_buf_incrpos; [done|lia| |lia]. intros _.
  assert (Hwf2 : wf_buf (after_get consumed b1)) by (apply wf_after_get; [done|lia|lia]).
  assert (Hinv3 : inv None (msgs ++ new) (pv s2 (after_get consumed b1))) by (by apply inv_pv).
  assert (Hexit : safe 1 msgs (pv s2 (after_get consumed b1)))
    by (eapply (safe_more 0 _ _ new); [lia|by apply safe_now]).
  destruct res; cbn [when]; [|by apply wp_ret]. destruct (Hres eq_refl) as [Hb2 Hbal2].
  pose proof (inv_chan _ _ _ _ _ Hinv2 Hc2) as Hok2. pose proof Hok2 as (_&Hw2'&_).
  pose proof (the_buf_ok env w c2 cb2 Hw2' Hb2) as Hcb2. pose proof (windows_used env c2 Hw2') as [Hv1 Hv2].
  assert (Hused : cb_used cb2 ≤ balance c2).
  { destruct Hw2' as (_&_&?&?). unfold balance, buffered. destruct w; cbn in Hb2; rewrite Hb2 in *; cbn in *;
      unfold cbuf_getused in *; lia. }
  eapply (wp_recv_data_loop env _ (n - consumed) _ _ (pv s2 (after_get consumed b1)) i c2 w cb2);
    [done|exact Hc2|done|done|by apply pv_payload|lia|cbn; lia|lia|].
  intros cb3 Hcb3 Hu3 _. rewrite after_get_get.
  destruct (set_buf_windows env w c2 cb2 cb3 Hw2' Hb2 Hcb3) as [Hok3 Hbuf3].
  eapply (safe_more 0 _ _ new); [lia|]. apply safe_now; [done|].
  apply inv_pv; [|apply wf_after_get; [done|lia|lia]].
  eapply inv_cv; [exact Hinv3|exact Hc2|]. intros _. eapply (chan_ok_core i c2); [by eapply core_set_buf|done| |done].
  unfold balance in *. rewrite Hbuf3. destruct w; cbn; lia.
Qed.

Lemma safe_data msgs s b :
  window_option env → inv None msgs s → has_payload s b → zlen msgs + 1 ≤ 2 ^ 31 →
  wp (recv_msg_channel_data env) lawful (λ _ s', safe 1 msgs s') s.
Proof.
  intros HW Hinv Hp Hn. eapply wp_handler_chan; [done|exact Hp|lawful_msg|]. intros i c b' Hinv' Hb' Hc.
  apply wp_bind. eapply wp_chan; [exact Hc|].
  eapply wp_common_recv_data; [done|exact Hinv'|by apply pv_payload|done|exact Hc].
Qed.

Lemma safe_extended_data msgs s b :
  window_option env → inv None msgs s → has_payload s b → zlen msgs + 1 ≤ 2 ^ 31 →
  wp (recv_msg_channel_extended_data env) lawful (λ _ s', safe 1 msgs s') s.
Proof.
  intros HW Hinv Hp Hn. eapply wp_handler_chan; [done|exact Hp|lawful_msg|]. intros i c b' Hinv' Hb' Hc.
  apply wp_bind. eapply wp_chan; [exact Hc|]. apply wp_if; intros _; [by apply wp_ret, safe_now|].
  apply wp_bind. eapply wp_read_field; [apply reads_int|by apply pv_payload|]. intros v b2 _ Hb2. rewrite pv_pv.
  assert (Hinv2 : inv None msgs (pv s b2)) by (by apply inv_pv).
  apply wp_if; intros _; [by apply wp_ret, safe_now|].
  eapply wp_common_recv_data; [done|exact Hinv2|by apply pv_payload|done|exact Hc].
Qed.

(** *** The descriptors *)

Lemma reads_ok_drop s f : reads_ok s → no_output s f → reads_ok (set_fds f s).
Proof. intros Hr [_ [k Hk]]. unfold reads_ok. cbn. rewrite Hk. by apply Forall_drop. Qed.

Lemma inv_no_output msgs s f : inv None msgs s → no_output s f → inv None msgs (set_fds f s).
Proof. intros (Hr&Ht&Hrd&Hp) Hf. split_and!; [done|done|by apply reads_ok_drop|done]. Qed.

(** What an action on channel [i] keeps, with at most one more message. *)
Definition stays i msgs k s' : Prop := ∃ new c', zlen new ≤ k ∧ inv None (msgs ++ new) s' ∧ has_chan s' i c'.

Lemma stays_send ext msgs s i c :
  inv None msgs s → zlen msgs < 2 ^ 31 → has_chan s i c → 0 ≤ data_fd ext c →
  (ext = true → errfd_is_read c = true) →
  wp (send_msg_channel_data env i ext) lawful (λ _ s', stays i msgs 1 s') s.
Proof.
  intros Hinv Hn Hc Hfd Hext. pose proof (inv_chan _ _ _ _ _ Hinv Hc) as Hok. pose proof Hok as (_&_&_&Ht&Hm&[_ Hcl]).
  pose proof Hinv as (Hr&_&Hrd&_).
  eapply (wp_send_msg_channel_data env msgs); [done|done|exact Hc| |done|done|apply Hm|done|apply lawful_close|apply (cb_mangle env)|].
  - destruct (sent_close c); [|done]. destruct (Hcl eq_refl) as (_&H1&H2). unfold data_fd in Hfd.
    destruct ext; [specialize (H2 (Hext eq_refl))|]; lia.
  - intros s' [s1 f t Hrt Hqt Hf ->|s1 f t Hrt Hqt Hf ->|s1 f t bs rest _ ds Hds Hrt Hqt Hf ->].
    + exists [], c. rewrite app_nil_r. split_and!; [done| |exact Hc].
      eapply (inv_set_tp env None msgs); [by apply inv_no_output|done|done].
    + eexists [], _. rewrite app_nil_r. split_and!; [done| |by eapply (cv_has s)].
      eapply (inv_set_tp env None msgs); [|done|done]. apply inv_no_output; [|exact Hf].
      eapply inv_cv; [exact Hinv|exact Hc|]. intros _. by apply chan_ok_drop.
    + eexists [_], _. split_and!; [done| |by eapply (cv_has s)].
      eapply (inv_set_tp env None msgs); [|exact Hrt|done]. apply inv_no_output; [|exact Hf].
      eapply inv_cv; [exact Hinv|exact Hc|]. intros _. apply chan_ok_transwindow; [done|].
      unfold u32_ok, send_limit in *. lia.
Qed.

Lemma stays_write fd w msgs s i c cb :
  window_option env → inv None msgs s → zlen msgs < 2 ^ 31 → has_chan s i c → the_buf w c = Some cb →
  wp (let* _ := writechannel env i fd w None in ret tt) lawful (λ _ s', stays i msgs 1 s') s.
Proof.
  intros HW Hinv Hn Hc Hb. pose proof (inv_chan _ _ _ _ _ Hinv Hc) as (_&_&Hbal&_).
  apply wp_bind. eapply (wp_writechannel_inv fd w None); [done|done|done|exact Hc|exact Hb|change (balance c + 0 ≤ recv_window env); lia|].
  intros s' res n new c' cb' Hnew Hinv' Hc' _ _ _. apply wp_ret. by exists new, c'.
Qed.

(** One guarded action of the loop body, then the rest. *)
Lemma wp_stage {A} (cond : bool) (m : ST chses unit) (k : ST chses A) E msgs n (Q : A → chses → Prop) s i c :
  inv None msgs s → has_chan s i c → 0 ≤ n →
  (cond = true → wp m E (λ _ s', stays i msgs n s') s) →
  (∀ s' new c', zlen new ≤ n → inv None (msgs ++ new) s' → has_chan s' i c' → wp k E Q s') →
  wp (do* when cond m; k) E Q s.
Proof.
  intros Hinv Hc Hn Hm HQ. apply wp_bind, wp_when; intros Hcond.
  - eapply wp_mono; [by apply Hm|]. intros [] s' (new&c'&H1&H2&H3). by eapply HQ.
  - eapply (HQ _ []); [done|by rewrite app_nil_r|exact Hc].
Qed.

Lemma safe_channelio_one readfds writefds msgs s i c :
  window_option env → inv None msgs s → zlen msgs + 20 ≤ 2 ^ 31 → has_chan s i c →
  wp (channelio_one env readfds writefds i) lawful (λ _ s', safe 20 msgs s') s.
Proof.
  intros HW Hinv Hn Hc. apply wp_bind. eapply wp_chan; [exact Hc|].
  eapply (wp_stage _ _ _ _ msgs 1); [done|exact Hc|done| |].
  { intros Hcond. eapply stays_send; [done|lia|exact Hc|cbn; lia|done]. }
  intros s1 n1 c1 Hn1 Hinv1 Hc1. apply wp_bind. eapply wp_chan; [exact Hc1|].
  eapply (wp_stage _ _ _ _ (msgs ++ n1) 1); [done|exact Hc1|done| |].
  { intros Hcond. eapply stays_send; [done|rewrite zlen_app; lia|exact Hc1|cbn; lia|]. intros _.
    by destruct (errfd_is_read c1). }
  intros s2 n2 c2 Hn2 Hinv2 Hc2. apply wp_bind. eapply wp_chan; [exact Hc2|].
  eapply (wp_stage _ _ _ _ ((msgs ++ n1) ++ n2) 1); [done|exact Hc2|done| |].
  { intros _. pose proof (inv_chan _ _ _ _ _ Hinv2 Hc2) as (_&((wb&Hwb&_)&_)&_).
    eapply (stays_write _ WRITEBUF); [done|done|rewrite !zlen_app; lia|exact Hc2|exact Hwb]. }
  intros s3 n3 c3 Hn3 Hinv3 Hc3. apply wp_bind. eapply wp_chan; [exact Hc3|].
  eapply (wp_stage _ _ _ _ (((msgs ++ n1) ++ n2) ++ n3) 1); [done|exact Hc3|done| |].
  { intros Hcond. destruct (extrabuf c3) as [eb|] eqn:Heb.
    - eapply (stays_write _ EXTRABUF); [done|done|rewrite !zlen_app; lia|exact Hc3|exact Heb].
    - unfold errfd_is_write, errfd_is_read in Hcond. by rewrite Heb in Hcond. }
  intros s4 n4 c4 Hn4 Hinv4 Hc4. rewrite <-!app_assoc in Hinv4.
  apply (safe_more_wp 16 20 (n1 ++ n2 ++ n3 ++ n4)); [rewrite !zlen_app; lia|].
  apply wp_bind, wp_get, wp_when; intros _; [|by apply safe_now].
  eapply (wp_check_close env); [exact Hinv4|rewrite !zlen_app; lia|exact Hc4|intros; by eexists].
Qed.

Lemma safe_channelio_loop readfds writefds fuel i msgs s :
  window_option env → inv None msgs s → zlen msgs + 20 * Z.of_nat fuel ≤ 2 ^ 31 →
  MAX_CHANNELS + 2 ≤ Z.of_nat fuel + Z.of_nat i →
  wp (channelio_loop env fuel readfds writefds i) lawful (λ _ s', safe (20 * Z.of_nat fuel) msgs s') s.
Proof.
  intros HW. revert i msgs s. induction fuel as [|fuel IH]; intros i msgs s Hinv Hn Hi;
    pose proof Hinv as (_&(Hl&_)&_); apply wp_bind, wp_get, wp_if; unfold chansize; intros Hsz;
    try (by apply wp_ret, safe_now; [lia|]); [lia|].
  apply wp_bind.
  assert (Hgo : ∀ s', safe 20 msgs s' →
    wp (channelio_loop env fuel readfds writefds (S i)) lawful (λ _ s', safe (20 * Z.of_nat (S fuel)) msgs s') s').
  { intros s' (new&Hnew&Hinv'). apply (safe_more_wp (20 * Z.of_nat fuel) _ new); [lia|].
    apply IH; [done|rewrite zlen_app; lia|lia]. }
  destruct (channels s !! i) as [[c|]|] eqn:Hc.
  - eapply wp_mono; [eapply safe_channelio_one; [done|exact Hinv|lia|exact Hc]|]. intros [] ?. apply Hgo.
  - apply wp_ret, Hgo. by apply safe_now.
  - apply wp_ret, Hgo. by apply safe_now.
Qed.

(** What one round of the loop may send at most. *)
Definition event_msgs : Z := 20 * (MAX_CHANNELS + 2) + 1000.

Lemma safe_channelio readfds writefds msgs s :
  window_option env → inv None msgs s → zlen msgs + event_msgs ≤ 2 ^ 31 →
  wp (channelio env readfds writefds) lawful (λ _ s', safe event_msgs msgs s') s.
Proof.
  intros HW Hinv Hn. unfold event_msgs, MAX_CHANNELS in Hn.
  apply wp_bind. eapply wp_mono; [apply safe_channelio_loop; [done|exact Hinv| |]|].
  - change (zlen msgs + 20040 ≤ 2 ^ 31). lia.
  - by vm_compute.
  - intros [] s' (new&Hnew&Hinv'). change (zlen new ≤ 20040) in Hnew.
    eapply wp_mono; [apply (cb_listeners env); [exact Hinv'|rewrite zlen_app; lia]|].
    intros [] s2 (new2&Hnew2&Hinv2). exists (new ++ new2).
    split; [rewrite zlen_app; unfold event_msgs, MAX_CHANNELS; lia|by rewrite app_assoc].
Qed.

(** ** Sequences of events *)

(** The channel part of [svr_packettypes] (src/src/svr-session.c) and
    [cli_packettypes] (src/src/cli-session.c). *)
Definition channel_packettypes (server : bool) : list (Z * ST chses unit) :=
  [(SSH_MSG_CHANNEL_DATA, recv_msg_channel_data env)] ++
  (if server then [] else [(SSH_MSG_CHANNEL_EXTENDED_DATA, recv_msg_channel_extended_data env)]) ++
  [(SSH_MSG_CHANNEL_WINDOW_ADJUST, recv_msg_channel_window_adjust);
   (SSH_MSG_CHANNEL_REQUEST, recv_msg_channel_request env);
   (SSH_MSG_CHANNEL_OPEN, recv_msg_channel_open env);
   (SSH_MSG_CHANNEL_EOF, recv_msg_channel_eof env);
   (SSH_MSG_CHANNEL_CLOSE, recv_msg_channel_close env);
   (SSH_MSG_CHANNEL_OPEN_CONFIRMATION, recv_msg_channel_open_confirmation env);
   (SSH_MSG_CHANNEL_OPEN_FAILURE, recv_msg_channel_open_failure env)].

(** A received message with its payload, or a round of [select]. *)
Inductive event :=
| EMessage (type : Z) (b : buffer)
| EReady (readfds writefds : Z → bool).

Definition run_event (e : event) : ST chses unit :=
  match e with
  | EMessage type b =>
      do* modify (λ s, pv s b);
      let* s := get in
      match List.find (λ p, p.1 =? type) (channel_packettypes (isserver (tp s))) with
      | Some (_, handler) => handler
      | None => ret tt
      end
  | EReady readfds writefds => channelio env readfds writefds
  end.
Definition run_events (es : list event) : ST chses unit := foldr (λ e k, do* run_event e; k) (ret tt) es.

Definition event_ok (e : event) : Prop := match e with EMessage _ b => wf_buf b | EReady _ _ => True end.

Lemma safe_weaken {A} k k' (m : ST chses A) E msgs s :
  k ≤ k' → wp m E (λ _ s', safe k msgs s') s → wp m E (λ _ s', safe k' msgs s') s.
Proof. intros Hk H. apply (safe_more_wp k k' []); [done|by rewrite app_nil_r]. Qed.

Lemma safe_event e msgs s :
  window_option env → inv None msgs s → event_ok e → zlen msgs + event_msgs ≤ 2 ^ 31 →
  wp (run_event e) lawful (λ _ s', safe event_msgs msgs s') s.
Proof.
  intros HW Hinv He Hn. destruct e as [type b|rd wr]; [|by apply safe_channelio].
  apply wp_bind, wp_modify, wp_bind, wp_get.
  assert (Hinv' : inv None msgs (pv s b)) by (by apply inv_pv).
  assert (Hp : has_payload (pv s b) b) by done.
  destruct (List.find _ _) as [[ty h]|] eqn:Hf; [|by apply wp_ret, safe_now].
  apply List.find_some in Hf as [Hin _]. unfold event_msgs, MAX_CHANNELS in *.
  assert (Hall : Forall (λ p : Z * ST chses unit,
    wp p.2 lawful (λ _ s', safe (20 * (1000 + 2) + 1000) msgs s') (pv s b)) (channel_packettypes (isserver (tp (pv s b))))).
  { unfold channel_packettypes. rewrite !Forall_app. split_and!.
    - apply Forall_singleton. apply (safe_weaken 1); [lia|]. eapply safe_data; [done|done|exact Hp|lia].
    - case_match; [done|]. apply Forall_singleton. apply (safe_weaken 1); [lia|]. eapply safe_extended_data; [done|done|exact Hp|lia].
    - repeat (apply Forall_cons; split); [..|done]; cbn [snd].
      + apply (safe_weaken 0); [lia|]. by eapply safe_window_adjust.
      + apply (safe_weaken 4); [lia|]. eapply safe_request; [done|exact Hp|lia].
      + apply (safe_weaken 9); [lia|]. eapply safe_open; [done|done|exact Hp|lia].
      + apply (safe_weaken 16); [lia|]. eapply safe_eof; [done|exact Hp|lia].
      + apply (safe_weaken 16); [lia|]. eapply safe_close; [done|exact Hp|lia].
      + apply (safe_weaken 8); [lia|]. eapply safe_open_confirmation; [done|exact Hp|lia].
      + apply (safe_weaken 4); [lia|]. eapply safe_open_failure; [done|exact Hp|lia]. }
  by apply (proj1 (List.Forall_forall _ _) Hall (ty, h)).
Qed.

Lemma safe_events es msgs s :
  window_option env → inv None msgs s → Forall event_ok es → zlen msgs + event_msgs * zlen es ≤ 2 ^ 31 →
  wp (run_events es) lawful (λ _ s', safe (event_msgs * zlen es) msgs s') s.
Proof.
  intros HW Hinv Hes. revert msgs s Hinv. induction Hes as [|e es He Hes IH]; intros msgs s Hinv Hn.
  { apply wp_ret, safe_now; [done|exact Hinv]. }
  rewrite zlen_cons in *. pose proof (zlen_nonneg es). assert (Hem : 0 < event_msgs) by done.
  apply wp_bind. eapply wp_mono; [apply safe_event; [done|exact Hinv|exact He|nia]|].
  intros [] s' (new&Hnew&Hinv'). apply (safe_more_wp (event_msgs * zlen es) _ new); [nia|].
  apply IH; [exact Hinv'|rewrite zlen_app; nia].
Qed.

(** [chaninitialise] establishes the invariant. *)
Lemma wp_chaninitialise msgs E (Q : unit → chses → Prop) s :
  ready msgs (tp s) → reads_ok s → (∀ b, payload (pkt (tp s)) = Some b → wf_buf b) →
  (∀ s', inv None msgs s' → Q tt s') → wp chaninitialise E Q s.
Proof.
  intros Hr Hrd Hp HQ. apply wp_modify, HQ. split_and!; [done| |done|done].
  split_and!; [done|done|]. intros [|[|i]] c Hc; done.
Qed.
End events.

(** C19: No sequence of events breaks the channels.  Starting from the table
    [chaninitialise] sets up, whatever channel messages the peer sends, in any
    order and with any bytes as payload, and whichever descriptors become
    ready in between: the program never touches a freed channel or buffer and
    none of its assertions fails, except the one about a peer that overruns
    the receive window.  Afterwards every channel still satisfies its
    invariant (the two windows, the buffers and the descriptors agree, a
    channel that sent CLOSE reads no more) and the number of channels is the
    one counted in [chancount]. *)
Theorem channel_events_safe {CL : CryptoLib} {ready} {T : Transport ready} (env : chan_env)
    {CB : ChanCallbacks (ready := ready) env} (es : list event) s :
  window_option env → ready [] (tp s) → reads_ok s → (∀ b, payload (pkt (tp s)) = Some b → wf_buf b) →
  Forall event_ok es → event_msgs * zlen es ≤ 2 ^ 31 →
  wp (do* chaninitialise; run_events env es) lawful
    (λ _ s', ∃ msgs, zlen msgs ≤ event_msgs * zlen es ∧ inv (ready := ready) env None msgs s') s.
Proof.
  intros HW Hr Hrd Hp Hes Hn. apply wp_bind. eapply (wp_chaninitialise env); [exact Hr|done|done|].
  intros s' Hinv. exact (safe_events env es [] s' HW Hinv Hes Hn).
Qed.

(** ** Witness *)

#[export] Instance toy_callbacks : ChanCallbacks (ready := toy_ready) toy_chan_env.
Proof.
  constructor; try (intros ??? Hf; discriminate Hf).
  - intros ?????? Hf. discriminate Hf.
  - apply toy_mangle.
  - intros fdset msgs s Hinv _. apply wp_ret. exists []. by rewrite app_nil_r.
Qed.

(** A channel is opened, gets data, is asked for too much and closed. *)
Definition toy_open : buffer :=
  let m := STORE32H 7 ++ bstr "session" ++ STORE32H 42 ++ STORE32H 100 ++ STORE32H 50 in
  mkbuf m (zlen m) 0 (zlen m).
Definition toy_events : list event :=
  [EMessage SSH_MSG_CHANNEL_OPEN toy_open; EMessage SSH_MSG_CHANNEL_WINDOW_ADJUST toy_adjust;
   EReady (λ _, true) (λ _, true); EMessage SSH_MSG_CHANNEL_EOF toy_number;
   EMessage SSH_MSG_CHANNEL_CLOSE toy_number].

Lemma channel_events_safe_witness :
  wp (do* chaninitialise; run_events toy_chan_env toy_events) lawful
    (λ _ s', ∃ msgs, zlen msgs ≤ event_msgs * 5 ∧ inv (ready := toy_ready) toy_chan_env None msgs s')
    (toy_chses [] toy_number [FRData [1; 2]] [WDone 1]).
Proof.
  apply (channel_events_safe (T := toy_transport) toy_chan_env toy_events (toy_chses [] toy_number [FRData [1; 2]] [WDone 1]));
    [done|apply toy_chses_ready| |by intros b [= <-]; apply toy_number_wf| |done].
  - apply Forall_singleton. repeat (apply Forall_cons; split); try done; unfold byte_ok; lia.
  - repeat (apply Forall_cons; split); first [apply toy_adjust_wf|apply toy_number_wf|done|idtac].
    split_and!; try (vm_compute; congruence). apply (bool_decide_unpack _). by vm_compute.
Defined.
