(* ===== verification/AuthOptions.v ===== *)
(** * Options of authorized_keys lines (src/src/svr-authpubkeyoptions.c)

    The restrictions that can precede a key in authorized_keys, their parser,
    and the predicates the rest of the server asks.  The build is the default
    one: agent forwarding and security keys are compiled in, X11 forwarding is
    not.  C strings are byte lists; a byte list that may contain a NUL is cut
    with [before_nul] where the code passes it as a C string. *)

From Stdlib Require Import ZArith Lia.
From stdpp Require Import base list strings.
From S2P Require Import Prelude.
From S2P Require Import Buffer.
From S2P Require Import Algo.

(** ** Numbers and addresses *)

(** [isspace] in the C locale. *)
Definition isspace (c : Z) : bool := (c =? 32) || ((9 <=? c) && (c <=? 13)).
Definition isdigit (c : Z) : bool := (48 <=? c) && (c <=? 57).

Fixpoint skip_space (s : list Z) : list Z :=
  match s with c :: s' => if isspace c then skip_space s' else s | [] => [] end.

(** The digits at the head of a string: their value, how many, the rest. *)
Fixpoint digits (acc : Z) (n : nat) (s : list Z) : Z * nat * list Z :=
  match s with
  | c :: s' => if isdigit c then digits (acc * 10 + (c - 48)) (S n) s' else (acc, n, s)
  | [] => (acc, n, [])
  end.

(** [strtoul(str, &endp, 10)] with 64-bit [unsigned long]: the value and what
    is left at [endp], or [None] when nothing was converted ([endp == str]). *)
Definition ULONG_MAX : Z := 2 ^ 64 - 1.
Definition UINT_MAX : Z := 2 ^ 32 - 1.
Definition strtoul (str : list Z) : option (Z * list Z) :=
  let s := skip_space str in
  let '(neg, s) := match s with
    | c :: s' => if c =? 45 then (true, s') else if c =? 43 then (false, s') else (false, s)
    | [] => (false, s)
    end in
  let '(v, n, rest) := digits 0 0 s in
  match n with
  | O => None
  | _ => Some (if v >? ULONG_MAX then ULONG_MAX else if neg then (- v) mod 2 ^ 64 else v, rest)
  end.

(** [m_str_to_uint] (src/src/dbutil.c).  [errno] is not reset before the
    call: [stale] tells whether it already holds [EINVAL]. *)
Definition m_str_to_uint (stale : bool) (str : list Z) : option Z :=
  match strtoul str with
  | Some (l, []) => if ((l =? 0) && stale) || (l >? UINT_MAX) then None else Some l
  | _ => None
  end.

(** [strchr] and [strrchr]: what is before and after the character. *)
Fixpoint strchr (c : Z) (s : list Z) : option (list Z * list Z) :=
  match s with
  | [] => None
  | x :: s' => if x =? c then Some ([], s')
               else match strchr c s' with Some (a, b) => Some (x :: a, b) | None => None end
  end.
Fixpoint strrchr (c : Z) (s : list Z) : option (list Z * list Z) :=
  match s with
  | [] => None
  | x :: s' => match strrchr c s' with
               | Some (a, b) => Some (x :: a, b)
               | None => if x =? c then Some ([], s') else None
               end
  end.

Definition nonempty_str (s : list Z) : option (list Z) := match s with [] => None | _ => Some s end.

(** [split_address_port] (src/src/common-runopts.c): the two strings, or
    [None] for [DROPBEAR_FAILURE]. *)
Definition split_address_port (spec : list Z) : option (option (list Z) * option (list Z)) :=
  let bracket := match spec with c :: _ => c =? 91 | [] => false end in
  if bracket then
    match strchr 93 (tail spec) with
    | None => None
    | Some (addr, []) => Some (nonempty_str addr, None)
    | Some (addr, c :: port) => if c =? 58 then Some (nonempty_str addr, Some port) else None
    end
  else
    match strrchr 58 spec with
    | None => Some (nonempty_str spec, None)
    | Some (addr, port) => Some (nonempty_str addr, Some port)
    end.

(** ** The options *)

Definition PUBKEY_OPTIONS_ANY_PORT : Z := UINT_MAX.

Record PermitTCPFwdEntry := mkpermit { pe_host : option (list Z); pe_port : Z }.

Record PubKeyOptions := mkpkopts {
  no_port_forwarding_flag : bool;
  no_agent_forwarding_flag : bool;
  no_x11_forwarding_flag : bool;
  no_pty_flag : bool;
  forced_command : option (list Z);
  permit_open_destinations : option (list PermitTCPFwdEntry);
  permit_listens : option (list PermitTCPFwdEntry);
  no_touch_required_flag : bool;
  verify_required_flag : bool;
  info_env : option (list Z)
}.

Definition no_options : PubKeyOptions := mkpkopts false false false false None None None false false None.

Definition set_no_port_forwarding (o : PubKeyOptions) : PubKeyOptions :=
  mkpkopts true (no_agent_forwarding_flag o) (no_x11_forwarding_flag o) (no_pty_flag o) (forced_command o)
    (permit_open_destinations o) (permit_listens o) (no_touch_required_flag o) (verify_required_flag o) (info_env o).
Definition set_no_agent_forwarding (o : PubKeyOptions) : PubKeyOptions :=
  mkpkopts (no_port_forwarding_flag o) true (no_x11_forwarding_flag o) (no_pty_flag o) (forced_command o)
    (permit_open_destinations o) (permit_listens o) (no_touch_required_flag o) (verify_required_flag o) (info_env o).
Definition set_no_pty (o : PubKeyOptions) : PubKeyOptions :=
  mkpkopts (no_port_forwarding_flag o) (no_agent_forwarding_flag o) (no_x11_forwarding_flag o) true (forced_command o)
    (permit_open_destinations o) (permit_listens o) (no_touch_required_flag o) (verify_required_flag o) (info_env o).
Definition set_forced_command (v : list Z) (o : PubKeyOptions) : PubKeyOptions :=
  mkpkopts (no_port_forwarding_flag o) (no_agent_forwarding_flag o) (no_x11_forwarding_flag o) (no_pty_flag o) (Some v)
    (permit_open_destinations o) (permit_listens o) (no_touch_required_flag o) (verify_required_flag o) (info_env o).
Definition add_permit_open (e : PermitTCPFwdEntry) (o : PubKeyOptions) : PubKeyOptions :=
  mkpkopts (no_port_forwarding_flag o) (no_agent_forwarding_flag o) (no_x11_forwarding_flag o) (no_pty_flag o) (forced_command o)
    (Some (default [] (permit_open_destinations o) ++ [e])) (permit_listens o) (no_touch_required_flag o)
    (verify_required_flag o) (info_env o).
Definition add_permit_listen (e : PermitTCPFwdEntry) (o : PubKeyOptions) : PubKeyOptions :=
  mkpkopts (no_port_forwarding_flag o) (no_agent_forwarding_flag o) (no_x11_forwarding_flag o) (no_pty_flag o) (forced_command o)
    (permit_open_destinations o) (Some (default [] (permit_listens o) ++ [e])) (no_touch_required_flag o)
    (verify_required_flag o) (info_env o).
Definition set_no_touch_required (o : PubKeyOptions) : PubKeyOptions :=
  mkpkopts (no_port_forwarding_flag o) (no_agent_forwarding_flag o) (no_x11_forwarding_flag o) (no_pty_flag o) (forced_command o)
    (permit_open_destinations o) (permit_listens o) true (verify_required_flag o) (info_env o).
Definition set_verify_required (o : PubKeyOptions) : PubKeyOptions :=
  mkpkopts (no_port_forwarding_flag o) (no_agent_forwarding_flag o) (no_x11_forwarding_flag o) (no_pty_flag o) (forced_command o)
    (permit_open_destinations o) (permit_listens o) (no_touch_required_flag o) true (info_env o).
Definition set_info_env (v : option (list Z)) (o : PubKeyOptions) : PubKeyOptions :=
  mkpkopts (no_port_forwarding_flag o) (no_agent_forwarding_flag o) (no_x11_forwarding_flag o) (no_pty_flag o) (forced_command o)
    (permit_open_destinations o) (permit_listens o) (no_touch_required_flag o) (verify_required_flag o) v.

(** ** The parser *)

Definition tolower (c : Z) : Z := if (65 <=? c) && (c <=? 90) then c + 32 else c.
(** [strncasecmp(s, opt, len) == 0] for an option name of length [len]. *)
Definition strncase_eq (s opt : list Z) : bool := bytes_eqb (map tolower s) (map tolower opt).

Definition match_option (opt_name : list Z) : ST buffer bool :=
  let len := zlen opt_name in
  let* b := get in
  if u32 (b_len b - b_pos b) <? len then ret false
  else
    let* p := buf_getptr len in
    let* bs := mem_load p len in
    if strncase_eq bs opt_name then do* buf_incrpos len; ret true else ret false.

(** The body of the command option: up to the first quote that is not escaped. *)
Fixpoint command_loop (fuel : nat) (command_start : Z) (escaped : bool) : ST buffer (option (list Z)) :=
  let* b := get in
  if b_pos b <? b_len b then
    match fuel with
    | O => fault "out of fuel"
    | S fuel =>
        let* c := buf_getbyte in
        if negb escaped && (c =? 34) then
          let* p := buf_getptr 0 in
          let command_len := p - command_start in
          let* bs := mem_load command_start (command_len - 1) in
          ret (Some bs)
        else command_loop fuel command_start (negb escaped && (c =? 92))
    end
  else ret None.

(** The text up to the next quote, of the two permit options. *)
Fixpoint spec_loop (fuel : nat) (start : Z) : ST buffer (option (list Z)) :=
  let* b := get in
  if b_pos b <? b_len b then
    match fuel with
    | O => fault "out of fuel"
    | S fuel =>
        let* c := buf_getbyte in
        if c =? 34 then
          let* p := buf_getptr 0 in
          let* bs := mem_load start (p - start - 1) in
          ret (Some (before_nul bs))
        else spec_loop fuel start
    end
  else ret None.

(** What a [permitopen] specification allows. *)
Definition permit_open_entry (stale : bool) (spec : list Z) : option PermitTCPFwdEntry :=
  match split_address_port spec with
  | Some (Some host, Some portstring) =>
      if bytes_eqb portstring [42] then Some (mkpermit (Some host) PUBKEY_OPTIONS_ANY_PORT)
      else match m_str_to_uint stale portstring with
           | Some port => Some (mkpermit (Some host) port)
           | None => None
           end
  | _ => None
  end.

Section parser.
Context (stale : bool).

Definition fuel_of (b : buffer) : nat := Z.to_nat (b_len b).

(** One round of the loop, up to [next_option]; [None] is [bad_option]. *)
Definition parse_option (o : PubKeyOptions) : ST buffer (option PubKeyOptions) :=
  let* m := match_option (bstr "no-port-forwarding") in
  if m then ret (Some (set_no_port_forwarding o)) else
  let* m := match_option (bstr "no-agent-forwarding") in
  if m then ret (Some (set_no_agent_forwarding o)) else
  let* m := match_option (bstr "no-X11-forwarding") in
  if m then ret (Some o) else
  let* m := match_option (bstr "no-pty") in
  if m then ret (Some (set_no_pty o)) else
  let* m := match_option (bstr "restrict") in
  if m then ret (Some (set_no_pty (set_no_agent_forwarding (set_no_port_forwarding o)))) else
  let* m := match_option (bstr "command=" ++ [34]) in
  if m then
    let* start := buf_getptr 0 in
    match forced_command o with
    | Some _ => ret None
    | None =>
        let* b := get in
        let* cmd := command_loop (fuel_of b) start false in
        ret (match cmd with Some cmd => Some (set_forced_command (before_nul cmd) o) | None => None end)
    end
  else
  let* m := match_option (bstr "permitopen=" ++ [34]) in
  if m then
    let* start := buf_getptr 0 in
    let* b := get in
    let* spec := spec_loop (fuel_of b) start in
    ret (match spec with
         | Some spec =>
             match permit_open_entry stale spec with Some e => Some (add_permit_open e o) | None => None end
         | None => None
         end)
  else
  let* m := match_option (bstr "permitlisten=" ++ [34]) in
  if m then
    let* start := buf_getptr 0 in
    let* b := get in
    let* spec := spec_loop (fuel_of b) start in
    ret (match spec with
         | Some spec =>
             match m_str_to_uint stale spec with Some port => Some (add_permit_listen (mkpermit None port) o) | None => None end
         | None => None
         end)
  else
  let* m := match_option (bstr "no-touch-required") in
  if m then ret (Some (set_no_touch_required o)) else
  let* m := match_option (bstr "verify-required") in
  if m then ret (Some (set_verify_required o)) else
  ret (Some o).

Fixpoint parse_options (fuel : nat) (o : PubKeyOptions) : ST buffer (option PubKeyOptions) :=
  let* b := get in
  if b_pos b <? b_len b then
    match fuel with
    | O => fault "out of fuel"
    | S fuel =>
        let* r := parse_option o in
        match r with
        | None => ret None
        | Some o =>
            let* b := get in
            let* c := if b_pos b <? b_len b then buf_getbyte else ret 44 in
            if negb (c =? 44) then ret None else parse_options fuel o
        end
    end
  else ret (Some o).

(** [None] as the buffer is a null pointer; the result [None] is failure. *)
Definition svr_parse_pubkey_options {S} (options_buf : option buffer) : ST S (option PubKeyOptions) :=
  match options_buf with
  | None => ret (Some no_options)
  | Some b =>
      let* (o, _) := on_new b (do* buf_setpos 0; parse_options (fuel_of b) no_options) in
      ret o
  end.
End parser.

(** ** What the key allows *)

Section allows.
Context (pubkey_options : option PubKeyOptions).

Definition svr_pubkey_allows_agentfwd : bool :=
  match pubkey_options with Some o => negb (no_agent_forwarding_flag o) | None => true end.
Definition svr_pubkey_allows_tcpfwd : bool :=
  match pubkey_options with Some o => negb (no_port_forwarding_flag o) | None => true end.
Definition svr_pubkey_has_forced_command : bool :=
  match pubkey_options with Some o => match forced_command o with Some _ => true | None => false end | None => false end.
Definition svr_pubkey_allows_x11fwd : bool :=
  match pubkey_options with Some o => negb (no_x11_forwarding_flag o) | None => true end.
Definition svr_pubkey_allows_pty : bool :=
  match pubkey_options with Some o => negb (no_pty_flag o) | None => true end.

Definition svr_pubkey_allows_local_tcpfwd (host : list Z) (port : Z) : bool :=
  match pubkey_options with
  | Some o =>
      match permit_open_destinations o with
      | Some l => existsb (λ e,
          (match pe_host e with Some h => bytes_eqb h host | None => false end)
          && ((pe_port e =? PUBKEY_OPTIONS_ANY_PORT) || (pe_port e =? port))) l
      | None => true
      end
  | None => true
  end.

Definition svr_pubkey_allows_remote_tcpfwd (port : Z) : bool :=
  match pubkey_options with
  | Some o =>
      match permit_listens o with
      | Some l => existsb (λ e, pe_port e =? port) l
      | None => true
      end
  | None => true
  end.

(** The command and the original command of a session channel. *)
Definition svr_pubkey_set_forced_command (cmd original_command : option (list Z)) : option (list Z) * option (list Z) :=
  match pubkey_options with
  | Some o =>
      match forced_command o with
      | Some forced => (Some forced, Some (default [] cmd))
      | None => (cmd, original_command)
      end
  | None => (cmd, original_command)
  end.
End allows.

(** ** The parser stays inside its buffer *)

Section safety.
Implicit Types (b : buffer) (o : PubKeyOptions).

Lemma wp_match_option name b E :
  wf_buf b → zlen name ≤ BUF_MAX_INCR →
  wp (match_option name) E (λ m b', scanned b b' ∧
    (m = true → b' = after_get (zlen name) b ∧ strncase_eq (slice (b_pos b) (zlen name) (b_data b)) name = true) ∧
    (m = false → b' = b ∧ (zlen name ≤ b_len b - b_pos b → strncase_eq (slice (b_pos b) (zlen name) (b_data b)) name = false))) b.
Proof.
  intros Hwf Hn. pose proof (zlen_nonneg name). pose proof Hwf as (?&?&?&?).
  assert (Hu : u32 (b_len b - b_pos b) = b_len b - b_pos b) by (apply u32_small; wf_buf_lia).
  unfold match_option. apply wp_bind, wp_get. rewrite Hu. apply wp_if; intros Hc.
  { apply wp_ret. split_and!; [by apply scanned_refl|done|]. intros _. split; [done|lia]. }
  apply wp_bind, wp_buf_getptr; [done|done| |lia]. intros _.
  apply wp_bind, wp_mem_load; [lia..|]. apply wp_if; intros Hm.
  - apply wp_bind, wp_buf_incrpos; [done|lia| |lia]. intros _. apply wp_ret.
    split_and!; [by apply scanned_get; auto with lia|done|done].
  - apply wp_ret. split_and!; [by apply scanned_refl|done|done].
Qed.

(** A scan over the buffer that cannot leave the process either. *)
Definition scans {A} (m : ST buffer A) b : Prop := wp m no_exit (λ _ b', scanned b b') b.

Lemma scans_bind {A B} (m : ST buffer A) (k : A → ST buffer B) b :
  scans m b → (∀ a b', scanned b b' → scans (k a) b') → scans (bind m k) b.
Proof.
  intros Hm Hk. apply wp_bind. eapply wp_mono; [exact Hm|]. intros a b' Hb. cbn beta.
  eapply wp_mono; [exact (Hk a b' Hb)|]. intros a' b'' Hb'. exact (scanned_trans _ _ _ Hb Hb').
Qed.

Lemma scans_ret {A} (a : A) b : wf_buf b → scans (ret a) b.
Proof. intros. by apply wp_ret, scanned_refl. Qed.

Lemma scans_match name b : wf_buf b → zlen name ≤ BUF_MAX_INCR → scans (match_option name) b.
Proof. intros Hwf Hn. eapply wp_mono; [by apply wp_match_option|]. by intros m b' (?&_). Qed.

Lemma scans_getptr0 b : wf_buf b → scans (buf_getptr 0) b.
Proof. intros Hwf. apply wp_buf_getptr; [done|lia|intros; by apply scanned_refl|]. destruct Hwf. lia. Qed.

(** The loops: [start] is a place before the cursor. *)
Lemma scans_command fuel start esc b :
  wf_buf b → 0 ≤ start ≤ b_pos b → b_len b - b_pos b ≤ Z.of_nat fuel → scans (command_loop fuel start esc) b.
Proof.
  revert esc b. induction fuel as [|fuel IH]; intros esc b Hwf Hst Hf; unfold scans; cbn [command_loop];
    apply wp_bind, wp_get; apply wp_if; intros Hc; try (apply wp_ret; by apply scanned_refl); [lia|].
  apply wp_bind, wp_getbyte_in; [done|lia|]. pose proof (scanned_1 b Hwf ltac:(lia)) as Hs1.
  pose proof (proj1 Hs1) as Hwf1. pose proof Hwf as (?&?&?&?). apply wp_if; intros _.
  - apply wp_bind, wp_buf_getptr; [done|lia| |cbn; lia]. intros _. cbv zeta. cbn [after_get set_pos b_pos].
    apply wp_bind, wp_mem_load; cbn [after_get set_pos b_data]; [lia..|]. by apply wp_ret.
  - eapply wp_mono; [apply IH; [done|cbn; lia..]|]. intros a b' Hb'. exact (scanned_trans _ _ _ Hs1 Hb').
Qed.

Lemma scans_spec fuel start b :
  wf_buf b → 0 ≤ start ≤ b_pos b → b_len b - b_pos b ≤ Z.of_nat fuel → scans (spec_loop fuel start) b.
Proof.
  revert b. induction fuel as [|fuel IH]; intros b Hwf Hst Hf; unfold scans; cbn [spec_loop];
    apply wp_bind, wp_get; apply wp_if; intros Hc; try (apply wp_ret; by apply scanned_refl); [lia|].
  apply wp_bind, wp_getbyte_in; [done|lia|]. pose proof (scanned_1 b Hwf ltac:(lia)) as Hs1.
  pose proof (proj1 Hs1) as Hwf1. pose proof Hwf as (?&?&?&?). apply wp_if; intros _.
  - apply wp_bind, wp_buf_getptr; [done|lia| |cbn; lia]. intros _. cbn [after_get set_pos b_pos].
    apply wp_bind, wp_mem_load; cbn [after_get set_pos b_data]; [lia..|]. by apply wp_ret.
  - eapply wp_mono; [apply IH; [done|cbn; lia..]|]. intros a b' Hb'. exact (scanned_trans _ _ _ Hs1 Hb').
Qed.

(** From the opening quote on. *)
Lemma scans_quoted {A B} (loop : nat → Z → ST buffer A) (f : A → B) b :
  (∀ fuel start b, wf_buf b → 0 ≤ start ≤ b_pos b → b_len b - b_pos b ≤ Z.of_nat fuel → scans (loop fuel start) b) →
  wf_buf b → scans (let* start := buf_getptr 0 in let* b := get in let* r := loop (fuel_of b) start in ret (f r)) b.
Proof.
  intros Hloop Hwf. pose proof Hwf as (?&?&?&?). apply wp_bind, wp_buf_getptr; [done|lia| |lia]. intros _.
  apply wp_bind, wp_get. apply scans_bind; [apply Hloop; [done|lia|unfold fuel_of; lia]|].
  intros r b' Hb'. by apply scans_ret, (proj1 Hb').
Qed.

Context (stale : bool).

(** One [match_option]. *)
Ltac next_option Hwf b := apply scans_bind; [apply scans_match; [exact Hwf|by apply Z.leb_le]|];
  let m := fresh "m" in let b' := fresh "b" in let Hb := fresh "Hb" in
  intros m b' Hb; apply proj1 in Hb; clear Hwf; clear b; rename b' into b; rename Hb into Hwf;
  destruct m.

Lemma scans_parse_option o b : wf_buf b → scans (parse_option stale o) b.
Proof.
  intros Hwf. unfold parse_option.
  do 5 (next_option Hwf b; [by apply scans_ret|]).
  next_option Hwf b; [|next_option Hwf b; [|next_option Hwf b; [|do 2 (next_option Hwf b; [by apply scans_ret|]); by apply scans_ret]]].
  - pose proof Hwf as (?&?&?&?). apply wp_bind, wp_buf_getptr; [done|lia| |lia]. intros _.
    destruct (forced_command o); [by apply scans_ret|]. apply wp_bind, wp_get.
    apply scans_bind; [apply scans_command; [done|lia|unfold fuel_of; lia]|].
    intros r b' Hb'. by apply scans_ret, (proj1 Hb').
  - apply (scans_quoted spec_loop); [apply scans_spec|done].
  - apply (scans_quoted spec_loop); [apply scans_spec|done].
Qed.

(** The loop ends: a round that goes on has consumed a comma. *)
Lemma scans_parse_options fuel o b :
  wf_buf b → b_len b - b_pos b ≤ Z.of_nat fuel → scans (parse_options stale fuel o) b.
Proof.
  revert o b. induction fuel as [|fuel IH]; intros o b Hwf Hf; unfold scans; cbn [parse_options];
    apply wp_bind, wp_get; apply wp_if; intros Hc; try (apply wp_ret; by apply scanned_refl); [lia|].
  apply scans_bind; [by apply scans_parse_option|]. intros [o'|] b1 Hb1; [|by apply scans_ret, (proj1 Hb1)].
  pose proof (scanned_same _ _ Hb1) as (Hl1&_&Hp1&Hwf1).
  apply wp_bind, wp_get. apply wp_bind, wp_if; intros Hc1.
  - apply wp_getbyte_in; [done|lia|]. pose proof (scanned_1 b1 Hwf1 ltac:(lia)) as Hs2.
    apply wp_if; intros _; [by apply wp_ret|]. eapply wp_mono; [apply IH; [apply (proj1 Hs2)|cbn; lia]|].
    intros a b' Hb'. exact (scanned_trans _ _ _ Hs2 Hb').
  - apply wp_ret. apply IH; [done|]. lia.
Qed.

Lemma wp_svr_parse_pubkey_options {S} ob E (Q : option PubKeyOptions → S → Prop) s :
  (∀ b, ob = Some b → wf_buf b) → (∀ r, Q r s) → wp (svr_parse_pubkey_options stale ob) E Q s.
Proof.
  intros Hwf HQ. destruct ob as [b|]; [|by apply wp_ret]. specialize (Hwf b eq_refl). pose proof Hwf as (?&?&?&?).
  apply wp_bind, wp_on_new, wp_bind, wp_buf_setpos; [|lia]. intros _.
  eapply wp_exit_mono; [eapply wp_mono; [apply scans_parse_options; [by apply wf_set_pos; auto with lia|
    unfold fuel_of; cbn; lia]|]|by intros ?]. intros a b' _. apply wp_ret, HQ.
Qed.
End safety.
