(* ===== verification/AuthKeys.v ===== *)
(** * The authorized_keys file (src/src/svr-authpubkey.c)

    Reading the file line by line, recognising the key a client offers on a
    line, and the permissions of the path.  Base64 decoding belongs to
    libtomcrypt and is a parameter, as are [stat] and [open]. *)

From Stdlib Require Import ZArith Lia.
From stdpp Require Import base list strings.
From S2P Require Import Prelude.
From S2P Require Import Buffer.
From S2P Require Import Algo.
From S2P Require Import AuthOptions.

Definition MIN_AUTHKEYS_LINE : Z := 10.
Definition MAX_AUTHKEYS_LINE : Z := 4200.

(** ** Lines *)

(** The loop of [buf_getline] (src/src/dbutil.c) and what it leaves of the
    file: [Some eof] after the jump to [out], [None] when the line is full. *)
Fixpoint getline_loop (file : list Z) : ST buffer (option bool * list Z) :=
  let* b := get in
  if b_pos b <? b_size b then
    match file with
    | [] => ret (Some true, [])
    | c :: rest =>
        if (c =? 10) || (c =? 13) then ret (Some false, rest)
        else do* buf_putbyte c; getline_loop rest
    end
  else ret (None, file).

(** [false] at the end of the file. *)
Definition buf_getline (file : list Z) : ST buffer (bool * list Z) :=
  do* buf_setpos 0;
  do* buf_setlen 0;
  let* (out, rest) := getline_loop file in
  do* match out with None => buf_setlen 0 | Some _ => ret tt end;
  let* b := get in
  let eof := match out with Some e => e | None => b_size b <=? 0 end in
  if eof && (b_pos b =? 0) then ret (false, rest)
  else do* buf_setpos 0; ret (true, rest).

Definition is_blank (c : Z) : bool := (c =? 32) || (c =? 9).

(** Skips a comment mark or leading whitespace; [true] for a comment. *)
Fixpoint skip_blanks (fuel : nat) : ST buffer bool :=
  let* b := get in
  if b_pos b <? b_len b then
    match fuel with
    | O => fault "out of fuel"
    | S fuel =>
        let* c := buf_getbyte in
        if is_blank c then skip_blanks fuel
        else if c =? 35 then ret true
        else do* buf_decrpos 1; ret false
    end
  else ret false.

(** Figures out where the options are: their length. *)
Fixpoint options_loop (fuel : nat) (quoted escape : bool) (options_len : Z) : ST buffer Z :=
  let* b := get in
  if b_pos b <? b_len b then
    match fuel with
    | O => fault "out of fuel"
    | S fuel =>
        let* c := buf_getbyte in
        if negb quoted && is_blank c then ret options_len
        else
          let escape := negb escape && (c =? 92) in
          let quoted := if negb escape && (c =? 34) then negb quoted else quoted in
          options_loop fuel quoted escape (options_len + 1)
    end
  else ret options_len.

(** The length of the base64 text. *)
Fixpoint base64_loop (fuel : nat) (len : Z) : ST buffer Z :=
  let* b := get in
  if b_pos b <? b_len b then
    match fuel with
    | O => fault "out of fuel"
    | S fuel =>
        let* c := buf_getbyte in
        if c =? 32 then ret len else base64_loop fuel (len + 1)
    end
  else ret len.

Definition isalnum (c : Z) : bool := isdigit c || ((65 <=? c) && (c <=? 90)) || ((97 <=? c) && (c <=? 122)).
(** [isalnum(c) || strchr(".,_-+@", c)]; a line holds no NUL. *)
Definition info_char (c : Z) : bool := isalnum c || existsb (Z.eqb c) (bstr ".,_-+@").

(** The value of a [char] with the bits of the byte [c], where [char] is
    signed or not, and where [isalnum] is defined: on the values of
    [unsigned char] and on [EOF]. *)
Definition char_value (signed : bool) (c : Z) : Z := if signed && (128 <=? c) then c - 256 else c.
Definition isalnum_defined (c : Z) : bool := (-1 <=? c) && (c <=? 255).

(** The length of the key's comment, 0 if a character is not allowed. *)
Fixpoint info_loop (char_signed : bool) (fuel : nat) (infolen : Z) : ST buffer Z :=
  let* b := get in
  if b_pos b <? b_len b then
    match fuel with
    | O => fault "out of fuel"
    | S fuel =>
        let* byte := buf_getbyte in
        let c := char_value char_signed byte in
        if c =? 32 then ret infolen
        else if negb (isalnum_defined c) then fault "isalnum of a negative char"
        else if negb (info_char c) then ret 0
        else info_loop char_signed fuel (infolen + 1)
    end
  else ret infolen.

Section keys.
(** [base64_decode] of libtomcrypt: the bytes, if they fit in [outlen]. *)
Context (base64_decode : list Z → Z → option (list Z)) (stale : bool).

(** src/src/signkey.c, called without a fingerprint. *)
Definition cmp_base64_key (keyblob algoname : list Z) : ST buffer bool :=
  let* line := get in
  let len := u32 (b_len line - b_pos line) in
  if len =? 0 then ret false
  else
    let decodekeylen := len * 2 in
    let* decodekey := buf_new decodekeylen in
    let* p := buf_getptr len in
    let* text := mem_load p len in
    let* (dst, decodekey) := on_new decodekey (buf_getwriteptr (b_size decodekey)) in
    match base64_decode text decodekeylen with
    | None => ret false
    | Some decoded =>
        let decodekeylen := zlen decoded in
        let* (_, decodekey) := on_new decodekey (mem_store dst decoded) in
        let* (_, decodekey) := on_new decodekey (buf_incrlen decodekeylen) in
        if negb (decodekeylen =? zlen keyblob) then ret false
        else
          let* (key, decodekey) := on_new decodekey
            (let* b := get in let* p := buf_getptr (b_len b) in mem_load p (b_len b)) in
          if negb (bytes_eqb key keyblob) then ret false
          else
            let* (filealgolen, decodekey) := on_new decodekey buf_getint in
            let* (filealgo, _) := on_new decodekey (let* p := buf_getptr filealgolen in mem_load p filealgolen) in
            ret ((filealgolen =? zlen algoname) && bytes_eqb filealgo algoname)
    end.

(** Whether [char] is signed where the code runs. *)
Context (char_signed : bool).

(** Whether the key type is next on the line. *)
Definition algo_next (algo : list Z) : ST buffer bool :=
  let* p := buf_getptr (zlen algo) in
  let* bs := mem_load p (zlen algo) in
  ret (bytes_eqb bs algo).
Definition too_short (algo : list Z) (line : buffer) : bool := u32 (b_pos line + zlen algo + 3) >? b_len line.

(** Skips what precedes the key type: [None] for a comment or when no key of
    this type follows, else the options. *)
Definition line_options (algo : list Z) : ST buffer (option buffer) :=
  let* line := get in
  let fuel := Z.to_nat (b_len line) in
  let* is_comment := skip_blanks fuel in
  if is_comment then ret None
  else
    let* options_start := buf_getptr 1 in
    let* options_len := options_loop fuel false false 0 in
    let* options_buf := buf_new options_len in
    let* bs := mem_load options_start options_len in
    let* (_, options_buf) := on_new options_buf (buf_putbytes bs) in
    let* line := get in
    if too_short algo line then ret None
    else
      let* m := algo_next algo in
      ret (if m then Some options_buf else None).

(** The key itself, from its type on; the result is the options to apply. *)
Definition line_key (algo keyblob : list Z) (options_buf : option buffer) : ST buffer (option PubKeyOptions) :=
  let* line := get in
  let fuel := Z.to_nat (b_len line) in
  do* buf_incrpos (zlen algo);
  let* c := buf_getbyte in
  if negb (c =? 32) then ret None
  else
    let* line := get in
    let pos := b_pos line in
    let* len := base64_loop fuel 0 in
    let* line := get in
    let infopos := b_pos line in
    let* infolen := info_loop char_signed fuel 0 in
    let* info_str :=
      if infolen >? 0 then
        do* buf_setpos infopos;
        let* p := buf_getptr infolen in
        let* bs := mem_load p infolen in
        ret (Some bs)
      else ret None in
    do* buf_setpos pos;
    let* line := get in
    do* buf_setlen (u32 (b_pos line + len));
    let* ok := cmp_base64_key keyblob algo in
    if ok then
      let* o := svr_parse_pubkey_options stale options_buf in
      ret (match o with Some o => Some (set_info_env info_str o) | None => None end)
    else ret None.

(** [None] is [DROPBEAR_FAILURE]; the caller always asks for the options. *)
Definition checkpubkey_line (algo keyblob : list Z) : ST buffer (option PubKeyOptions) :=
  let* line := get in
  if (b_len line <? MIN_AUTHKEYS_LINE) || (b_len line >? MAX_AUTHKEYS_LINE) then ret None
  else
    let* bs := mem_load 0 (b_len line) in
    if existsb (Z.eqb 0) bs then ret None
    else
      let* line := get in
      if too_short algo line then ret None
      else
        let* m := algo_next algo in
        if m then line_key algo keyblob None
        else
          let* o := line_options algo in
          match o with
          | None => ret None
          | Some options_buf => line_key algo keyblob (Some options_buf)
          end.

(** The loop of [checkpubkey] over the lines of the file. *)
Fixpoint checkpubkey_lines (fuel : nat) (algo keyblob file : list Z) : ST buffer (option PubKeyOptions) :=
  match fuel with
  | O => fault "out of fuel"
  | S fuel =>
      let* (more, rest) := buf_getline file in
      if negb more then ret None
      else
        let* r := checkpubkey_line algo keyblob in
        match r with
        | Some o => ret (Some o)
        | None => checkpubkey_lines fuel algo keyblob rest
        end
  end.
End keys.

(** ** Paths *)

(** [expand_homedir_path_home] (src/src/dbutil.c); [homedir] may be null. *)
Definition expand_homedir_path_home (inpath : list Z) (homedir : option (list Z)) : list Z :=
  match inpath, homedir with
  | c1 :: c2 :: rest, Some home => if (c1 =? 126) && (c2 =? 47) then home ++ [47] ++ rest else inpath
  | _, _ => inpath
  end.

Definition authorized_keys_filepath (dir : list Z) (pw_dir : option (list Z)) : list Z :=
  expand_homedir_path_home dir pw_dir ++ [47] ++ bstr "authorized_keys".

(** What [stat] reports. *)
Record filestat := mkstat { st_uid : Z; st_mode : Z }.
Definition S_IWGRP : Z := 16.
Definition S_IWOTH : Z := 2.

Section perms.
Context (stat : list Z → option filestat) (pw_uid : Z) (pw_dir : option (list Z)).

(** The permission test of [checkfileperm]; [false] also for a missing file. *)
Definition file_trusted (path : list Z) : bool :=
  match stat path with
  | None => false
  | Some f => ((st_uid f =? pw_uid) || (st_uid f =? 0)) && (Z.land (st_mode f) (Z.lor S_IWGRP S_IWOTH) =? 0)
  end.

(** The loop of [checkpubkeyperms]. *)
Fixpoint perms_loop (fuel : nat) (path : list Z) (ok : bool) : bool :=
  match strrchr 47 path with
  | None => ok
  | Some (before, _) =>
      let path := match before with [] => [47] | _ => before end in
      let ok := ok && file_trusted path in
      if (match pw_dir with Some d => bytes_eqb path d | None => false end) || bytes_eqb path [47] then ok
      else match fuel with O => ok | S fuel => perms_loop fuel path ok end
  end.

Definition checkpubkeyperms (dir : list Z) : bool :=
  let path := authorized_keys_filepath dir pw_dir in
  perms_loop (length path) path true.
End perms.
