(* ===== verification/SvrAuth.v ===== *)
(** * Server authentication (src/src/svr-auth.c, svr-authpasswd.c, svr-authpubkey.c)

    The state machine behind SSH_MSG_USERAUTH_REQUEST: the user name, the
    methods "none", "password" and "publickey", partial success, the limit on
    failures and the change of identity on success.  The build is the default
    one (passwords against crypt, public keys with options, privileges
    dropped, no PAM, no plugin).

    The password database, [crypt], the file system, the identity of the
    process and base64 decoding are an argument, [auth_env].  Keys and
    signatures are those of SignKey.v, the session is Session.v's. *)

From Stdlib Require Import ZArith Lia.
From stdpp Require Import base list strings.
From S2P Require Import Prelude.
From S2P Require Import Buffer.
From S2P Require Import Random.
From S2P Require Import Algo.
From S2P Require Import Cipher.
From S2P Require Import KeyTypes.
From S2P Require Import Ecc.
From S2P Require Import SignKey.
From S2P Require Import Session.
From S2P Require Import Packet.
From S2P Require Import AuthOptions.
From S2P Require Import AuthKeys.

Definition SSH_MSG_USERAUTH_FAILURE : Z := 51.
Definition SSH_MSG_USERAUTH_SUCCESS : Z := 52.
Definition SSH_MSG_USERAUTH_BANNER : Z := 53.
Definition AUTH_TYPE_PUBKEY : Z := 2.
Definition AUTH_TYPE_PASSWORD : Z := 4.
Definition MAX_USERNAME_LEN : Z := 100.
Definition DROPBEAR_MAX_PASSWORD_LEN : Z := 100.
Definition DROPBEAR_NGROUP_MAX : Z := 1024.

(** ** State *)

Record AuthState := mkauth {
  username : option (list Z);
  authtypes : Z;
  failcount : Z;
  checkusername_failed : bool;
  auth_starttime : Z * Z;
  serv_pubkey_query_count : Z;
  pw_uid : Z;
  pw_gid : Z;
  pw_dir : option (list Z);
  pw_shell : option (list Z);
  pw_name : option (list Z);
  pw_passwd : option (list Z);
  pubkey_options : option PubKeyOptions
}.

Definition set_username (v : option (list Z)) (a : AuthState) : AuthState :=
  mkauth v (authtypes a) (failcount a) (checkusername_failed a) (auth_starttime a) (serv_pubkey_query_count a)
    (pw_uid a) (pw_gid a) (pw_dir a) (pw_shell a) (pw_name a) (pw_passwd a) (pubkey_options a).
Definition set_authtypes (v : Z) (a : AuthState) : AuthState :=
  mkauth (username a) v (failcount a) (checkusername_failed a) (auth_starttime a) (serv_pubkey_query_count a)
    (pw_uid a) (pw_gid a) (pw_dir a) (pw_shell a) (pw_name a) (pw_passwd a) (pubkey_options a).
Definition set_failcount (v : Z) (a : AuthState) : AuthState :=
  mkauth (username a) (authtypes a) v (checkusername_failed a) (auth_starttime a) (serv_pubkey_query_count a)
    (pw_uid a) (pw_gid a) (pw_dir a) (pw_shell a) (pw_name a) (pw_passwd a) (pubkey_options a).
Definition set_checkusername_failed (v : bool) (a : AuthState) : AuthState :=
  mkauth (username a) (authtypes a) (failcount a) v (auth_starttime a) (serv_pubkey_query_count a)
    (pw_uid a) (pw_gid a) (pw_dir a) (pw_shell a) (pw_name a) (pw_passwd a) (pubkey_options a).
Definition set_auth_starttime (v : Z * Z) (a : AuthState) : AuthState :=
  mkauth (username a) (authtypes a) (failcount a) (checkusername_failed a) v (serv_pubkey_query_count a)
    (pw_uid a) (pw_gid a) (pw_dir a) (pw_shell a) (pw_name a) (pw_passwd a) (pubkey_options a).
Definition set_serv_pubkey_query_count (v : Z) (a : AuthState) : AuthState :=
  mkauth (username a) (authtypes a) (failcount a) (checkusername_failed a) (auth_starttime a) v
    (pw_uid a) (pw_gid a) (pw_dir a) (pw_shell a) (pw_name a) (pw_passwd a) (pubkey_options a).
Definition set_pubkey_options (v : option PubKeyOptions) (a : AuthState) : AuthState :=
  mkauth (username a) (authtypes a) (failcount a) (checkusername_failed a) (auth_starttime a) (serv_pubkey_query_count a)
    (pw_uid a) (pw_gid a) (pw_dir a) (pw_shell a) (pw_name a) (pw_passwd a) v.

(** [struct passwd], as [getpwnam] returns it. *)
Record passwd := mkpw {
  p_name : list Z; p_passwd : option (list Z); p_uid : Z; p_gid : Z; p_dir : list Z; p_shell : list Z
}.

(** The passwd fields; [fill_passwd] clears the strings of an unknown user
    but not the numbers. *)
Definition clear_pw (a : AuthState) : AuthState :=
  mkauth (username a) (authtypes a) (failcount a) (checkusername_failed a) (auth_starttime a) (serv_pubkey_query_count a)
    (pw_uid a) (pw_gid a) None None None None (pubkey_options a).
Definition set_pw (pw : passwd) (crypted : list Z) (a : AuthState) : AuthState :=
  mkauth (username a) (authtypes a) (failcount a) (checkusername_failed a) (auth_starttime a) (serv_pubkey_query_count a)
    (p_uid pw) (p_gid pw) (Some (p_dir pw)) (Some (p_shell pw)) (Some (p_name pw)) (Some crypted) (pubkey_options a).

Section svrauth.
Context {CL : CryptoLib} {ML : MpLib} {EL : EccLib} {DL : Ed25519Lib}.

(** The session with the server's authentication fields.  [clock] is what
    [gettime_wrapper] will report, [slept] the delays taken, [uid] the
    identity of the process. *)
Record svrses := mksvrses {
  stp : sshsession;
  authstate : AuthState;
  banner : option buffer;
  childpipe : Z;
  closed : list Z;
  clock : list (Z * Z);
  slept : list (Z * Z);
  uid : Z;
  have_utmp_gid : bool;
  allowprivport : bool
}.

Definition set_stp (v : sshsession) (s : svrses) : svrses :=
  mksvrses v (authstate s) (banner s) (childpipe s) (closed s) (clock s) (slept s) (uid s) (have_utmp_gid s) (allowprivport s).
Definition set_authstate (v : AuthState) (s : svrses) : svrses :=
  mksvrses (stp s) v (banner s) (childpipe s) (closed s) (clock s) (slept s) (uid s) (have_utmp_gid s) (allowprivport s).
Definition set_banner (v : option buffer) (s : svrses) : svrses :=
  mksvrses (stp s) (authstate s) v (childpipe s) (closed s) (clock s) (slept s) (uid s) (have_utmp_gid s) (allowprivport s).
Definition set_closed (v : list Z) (s : svrses) : svrses :=
  mksvrses (stp s) (authstate s) (banner s) (childpipe s) v (clock s) (slept s) (uid s) (have_utmp_gid s) (allowprivport s).
Definition set_clock (v : list (Z * Z)) (s : svrses) : svrses :=
  mksvrses (stp s) (authstate s) (banner s) (childpipe s) (closed s) v (slept s) (uid s) (have_utmp_gid s) (allowprivport s).
Definition set_slept (v : list (Z * Z)) (s : svrses) : svrses :=
  mksvrses (stp s) (authstate s) (banner s) (childpipe s) (closed s) (clock s) v (uid s) (have_utmp_gid s) (allowprivport s).
Definition set_uid (v : Z) (s : svrses) : svrses :=
  mksvrses (stp s) (authstate s) (banner s) (childpipe s) (closed s) (clock s) (slept s) v (have_utmp_gid s) (allowprivport s).
Definition set_have_utmp_gid (v : bool) (s : svrses) : svrses :=
  mksvrses (stp s) (authstate s) (banner s) (childpipe s) (closed s) (clock s) (slept s) (uid s) v (allowprivport s).
Definition set_allowprivport (v : bool) (s : svrses) : svrses :=
  mksvrses (stp s) (authstate s) (banner s) (childpipe s) (closed s) (clock s) (slept s) (uid s) (have_utmp_gid s) v.

(** [svr_opts] and the system. *)
Record auth_env := mkauthenv {
  (* options *)
  noauthpass : bool;
  norootpass : bool;
  norootlogin : bool;
  allowblankpass : bool;
  multiauthmethod : bool;
  maxauthtries : Z;
  restrict_group : option Z;
  authorized_keys_dir : list Z;
  (* the password database *)
  getpwnam : list Z → option passwd;
  getspnam : list Z → option (list Z);
  getusershell : list (list Z);
  getgrouplist : list Z → Z → Z → option (list Z) * Z;
  crypt : list Z → list Z → option (list Z);
  (* the process and the file system *)
  geteuid : Z;
  seteuid_ok : bool;
  revert_euid_ok : bool;
  setgroups_ok : bool;
  setuid_ok : bool;
  utmp_gid : option Z;
  setresgid_ok : bool;
  close_fails : bool;
  stat : list Z → option filestat;
  read_file : list Z → option (list Z);
  errno_einval : bool;
  (* the compiler *)
  char_signed : bool;
  (* libtomcrypt *)
  base64_decode : list Z → Z → option (list Z)
}.

Context (env : auth_env).

Definition on_stp {A} : ST sshsession A → ST svrses A := zoom stp set_stp.
Definition on_spayload {A} (m : ST buffer A) : ST svrses A := on_stp (on_payload m).
Definition on_auth (f : AuthState → AuthState) : ST svrses unit := modify (λ s, set_authstate (f (authstate s)) s).
Definition auth : ST svrses AuthState := gets authstate.

(** [gettime_wrapper] (src/src/dbutil.c) *)
Definition gettime_wrapper : ST svrses (Z * Z) :=
  let* s := get in
  match clock s with
  | [] => ret (0, 0)
  | t :: rest => do* modify (set_clock rest); ret t
  end.

Definition svr_authinitialise : ST svrses unit :=
  on_auth (λ _, mkauth None (Z.lor AUTH_TYPE_PUBKEY (if noauthpass env then 0 else AUTH_TYPE_PASSWORD))
                  0 false (0, 0) 0 0 0 None None None None None).

(** ** Messages *)

Definition send_msg_userauth_banner (b : buffer) : ST sshsession unit :=
  do* on_writepayload (buf_putbyte SSH_MSG_USERAUTH_BANNER);
  do* on_writepayload (buf_putbufstring b);
  do* on_writepayload (buf_putstring (bstr "en"));
  encrypt_packet.

(** The allowed methods. *)
Definition type_list (authtypes : Z) : ST buffer unit :=
  let pubkey := negb (Z.land authtypes AUTH_TYPE_PUBKEY =? 0) in
  let password := negb (Z.land authtypes AUTH_TYPE_PASSWORD =? 0) in
  do* when pubkey
        (do* buf_putbytes (bstr "publickey");
         when password (buf_putbyte 44));
  when password (buf_putbytes (bstr "password")).

Definition failure_msg (authtypes : Z) (partial : bool) : ST sshsession unit :=
  do* on_writepayload (buf_putbyte SSH_MSG_USERAUTH_FAILURE);
  let* typebuf := buf_new 30 in
  let* (_, typebuf) := on_new typebuf (type_list authtypes) in
  do* on_writepayload (buf_putbufstring typebuf);
  do* on_writepayload (buf_putbyte (if partial then 1 else 0));
  encrypt_packet.

(** The delay before the next request is looked at, in seconds and
    nanoseconds. *)
Definition uint32_of_mem (bs : list Z) : Z :=
  nth 0 bs 0 + nth 1 bs 0 * 2 ^ 8 + nth 2 bs 0 * 2 ^ 16 + nth 3 bs 0 * 2 ^ 24.
Definition mindelay : Z := 250000000.
Definition vardelay : Z := 100000000.
Definition delay_for (now start : Z * Z) (rand : Z) : Z * Z :=
  let sec := now.1 - start.1 in
  let nsec := now.2 - start.2 in
  let '(sec, nsec) := if nsec <? 0 then (sec - 1, nsec + 1000000000) else (sec, nsec) in
  let rand_delay := mindelay + rand mod vardelay in
  if (sec =? 0) && (nsec <=? rand_delay) then (sec, rand_delay - nsec) else (0, rand_delay).

Definition failure_delay : ST svrses unit :=
  let* now := gettime_wrapper in
  let* a := auth in
  let* bs := on_stp (on_rng (genrandom 4)) in
  let delay := delay_for now (auth_starttime a) (uint32_of_mem bs) in
  modify (λ s, set_slept (slept s ++ [delay]) s).

Definition send_msg_userauth_failure (partial incrfail : bool) : ST svrses unit :=
  let* a := auth in
  do* on_stp (failure_msg (authtypes a) partial);
  do* when incrfail
        (do* failure_delay;
         on_auth (λ a, set_failcount (u32 (failcount a + 1)) a));
  let* a := auth in
  exit_if (failcount a >? maxauthtries env) "Max auth tries reached - user '%s'".

Definition svr_switch_user : ST svrses unit :=
  let* s := get in
  do* if authdone (stp s) then ret tt else fault "assertion";
  if uid s =? 0 then
    do* exit_if (negb (setgroups_ok env)) "Error changing user group";
    do* match utmp_gid env with
        | Some _ => when (setresgid_ok env) (modify (set_have_utmp_gid true))
        | None => ret tt
        end;
    do* exit_if (negb (setuid_ok env)) "Error changing user";
    modify (set_uid (pw_uid (authstate s)))
  else exit_if (negb (uid s =? pw_uid (authstate s))) "Couldn't change user as non-root".

(** [m_close] (src/src/dbutil.c) *)
Definition svr_close (fd : Z) : ST svrses unit :=
  if fd <? 0 then ret tt
  else
    do* modify (λ s, set_closed (closed s ++ [fd]) s);
    exit_if (close_fails env) "Error closing fd %d, %s".

Definition send_msg_userauth_success : ST svrses unit :=
  do* on_stp (on_writepayload (buf_putbyte SSH_MSG_USERAUTH_SUCCESS));
  do* on_stp encrypt_packet;
  do* on_stp (modify (set_authdone true));
  do* svr_switch_user;
  do* modify (set_allowprivport true);
  let* s := get in
  svr_close (childpipe s).

(** ** The user *)

(** src/src/common-session.c *)
Definition fill_passwd (name : list Z) : ST svrses unit :=
  do* on_auth clear_pw;
  match getpwnam env name with
  | None => ret tt
  | Some pw =>
      let crypted := match p_passwd pw with
        | Some p =>
            if bytes_eqb p (bstr "x") then
              match getspnam env (p_name pw) with Some sp => sp | None => bstr "!!" end
            else p
        | None => bstr "!!"
        end in
      on_auth (set_pw pw crypted)
  end.

(** The loop over the size of the group list.  [getgrouplist] also updates
    the size it is given, on failure to the one it needs, so the size more than
    doubles in every round and six rounds pass [DROPBEAR_NGROUP_MAX]. *)
Fixpoint grouplist_loop (fuel : nat) (name : list Z) (gid ngroups : Z) : option (list Z) :=
  match fuel with
  | O => None
  | S fuel =>
      if ngroups <=? DROPBEAR_NGROUP_MAX then
        match getgrouplist env name gid ngroups with
        | (Some l, _) => Some l
        | (None, needed) => grouplist_loop fuel name gid (needed * 2)
        end
      else None
  end.
Definition check_group_membership (check_gid : Z) (name : list Z) (user_gid : Z) : bool :=
  match grouplist_loop 7 name user_gid 32 with
  | None => false
  | Some l => existsb (Z.eqb check_gid) l
  end.

Definition cached_failure : ST svrses bool :=
  do* on_auth (set_checkusername_failed true);
  ret false.

(** The checks of a user that exists, in the order of the code. *)
Definition user_allowed (a : AuthState) (name : list Z) : bool :=
  ((geteuid env =? 0) || (geteuid env =? pw_uid a))
  && negb (norootlogin env && (pw_uid a =? 0))
  && (match restrict_group env with
      | Some g => check_group_membership g name (pw_gid a)
      | None => true
      end).
Definition shell_allowed (shell : list Z) : bool :=
  let usershell := match shell with [] => bstr "/bin/sh" | _ => shell end in
  existsb (λ l, bytes_eqb l usershell) (getusershell env).

Definition checkusername (name : list Z) : ST svrses bool :=
  if zlen name >? MAX_USERNAME_LEN then ret false
  else
    do* exit_if (negb (zlen (before_nul name) =? zlen name)) "Attempted username with a null byte";
    let* a := auth in
    do* match username a with
        | None => do* fill_passwd name; on_auth (set_username (Some name))
        | Some u => exit_if (negb (bytes_eqb name u)) "Client trying multiple usernames"
        end;
    let* a := auth in
    if checkusername_failed a then ret false
    else match pw_name a with
    | None => cached_failure
    | Some pwname =>
        if negb (user_allowed a pwname) then cached_failure
        else
          let* shell := ptr (pw_shell a) in
          if shell_allowed shell then ret true else cached_failure
    end.

(** ** Passwords *)

(** The result is C's: 0 for equal strings. *)
Definition constant_time_strcmp (a b : list Z) : Z :=
  if negb (zlen a =? zlen b) then 1 else constant_time_memcmp a b 0.

Definition svr_auth_password (valid_user : bool) : ST svrses unit :=
  let* changepw := on_spayload buf_getbool in
  if negb (changepw =? 0) then send_msg_userauth_failure false true
  else
    let* password := on_spayload buf_getstring in
    let passwordlen := zlen password in
    let* a := auth in
    let* testcrypt :=
      if valid_user && (passwordlen <=? DROPBEAR_MAX_PASSWORD_LEN) then
        let* passwdcrypt := ptr (pw_passwd a) in
        ret (crypt env (before_nul password) passwdcrypt)
      else ret None in
    if negb valid_user then send_msg_userauth_failure false true
    else if passwordlen >? DROPBEAR_MAX_PASSWORD_LEN then send_msg_userauth_failure false true
    else match testcrypt with
    | None => send_msg_userauth_failure false true
    | Some testcrypt =>
        let* passwdcrypt := ptr (pw_passwd a) in
        match passwdcrypt with
        | [] => send_msg_userauth_failure false true
        | _ =>
            if constant_time_strcmp testcrypt passwdcrypt =? 0 then
              if multiauthmethod env && negb (Z.land (authtypes a) (Z.lnot AUTH_TYPE_PASSWORD) =? 0) then
                do* on_auth (λ a, set_authtypes (Z.land (authtypes a) (Z.lnot AUTH_TYPE_PASSWORD)) a);
                send_msg_userauth_failure true false
              else send_msg_userauth_success
            else send_msg_userauth_failure false true
        end
    end.

(** ** Public keys *)

Definition send_msg_userauth_pk_ok (sigalgo keyblob : list Z) : ST sshsession unit :=
  do* on_writepayload (buf_putbyte SSH_MSG_USERAUTH_PK_OK);
  do* on_writepayload (buf_putstring sigalgo);
  do* on_writepayload (buf_putstring keyblob);
  encrypt_packet.

(** The options of the first line that holds the key. *)
Definition checkpubkey (keyalgo keyblob : list Z) : ST svrses (option PubKeyOptions) :=
  let* a := auth in
  do* exit_if (negb (seteuid_ok env)) "Failed to set euid";
  let path := authorized_keys_filepath (authorized_keys_dir env) (pw_dir a) in
  let authfile :=
    if checkpubkeyperms (stat env) (pw_uid a) (pw_dir a) (authorized_keys_dir env)
    then read_file env path else None in
  do* exit_if (negb (revert_euid_ok env)) "Failed to revert euid";
  match authfile with
  | None => ret None
  | Some file =>
      let* line := buf_new MAX_AUTHKEYS_LINE in
      let* (r, _) := on_new line
        (checkpubkey_lines (base64_decode env) (errno_einval env) (char_signed env) (S (length file)) keyalgo keyblob file) in
      ret r
  end.

(** What the client has signed: the session id and the request up to the
    signature. *)
Definition sign_data : ST sshsession buffer :=
  let* s := get in
  let* payload_pos := on_payload (gets b_pos) in
  do* if payload_beginning (pkt s) <=? payload_pos then ret tt else fault "assertion";
  let sign_payload_length := payload_pos - payload_beginning (pkt s) in
  let* session_id := ptr (session_id (kexdat s)) in
  let* signbuf := buf_new (payload_pos + 4 + b_len session_id) in
  let* (_, signbuf) := on_new signbuf (buf_putbufstring session_id) in
  do* on_payload (buf_setpos (payload_beginning (pkt s)));
  let* bs := on_payload (let* p := buf_getptr sign_payload_length in mem_load p sign_payload_length) in
  let* (_, signbuf) := on_new signbuf (buf_putbytes bs) in
  do* on_payload (buf_incrpos sign_payload_length);
  let* (_, signbuf) := on_new signbuf (buf_setpos 0) in
  ret signbuf.

Definition sk_flags (o : PubKeyOptions) : Z :=
  let mask := SSH_SK_USER_PRESENCE_REQD in
  let mask := if no_touch_required_flag o then Z.land mask (Z.lnot SSH_SK_USER_PRESENCE_REQD) else mask in
  if verify_required_flag o then Z.lor mask SSH_SK_USER_VERIFICATION_REQD else mask.

(** From the point where the key is known to be allowed. *)
Definition verify_pubkey (sigtype keytype : Z) (options : PubKeyOptions) : ST svrses unit :=
  let* (ok, (key, keytype)) := on_spayload (buf_get_pub_key new_sign_key keytype) in
  if negb ok then send_msg_userauth_failure false true
  else
      let key := set_sk_flags_mask (sk_flags options) key in
      let* signbuf := on_stp sign_data in
      let* ok := on_spayload (buf_verify key sigtype signbuf) in
      if ok then
        do* on_auth (λ a, match pubkey_options a with None => set_pubkey_options (Some options) a | Some _ => a end);
        let* a := auth in
        if multiauthmethod env && negb (Z.land (authtypes a) (Z.lnot AUTH_TYPE_PUBKEY) =? 0) then
          do* on_auth (λ a, set_authtypes (Z.land (authtypes a) (Z.lnot AUTH_TYPE_PUBKEY)) a);
          send_msg_userauth_failure true false
        else send_msg_userauth_success
      else send_msg_userauth_failure false true.

(** [free_query_limit] is 0: the expression below its declaration is a
    statement of its own. *)
Definition free_query_limit : Z := 0.

Definition svr_auth_pubkey (valid_user : bool) : ST svrses unit :=
  let* flag := on_spayload buf_getbool in
  let testkey := flag =? 0 in
  let* sigalgo := on_spayload buf_getstring in
  let* keybloblen := on_spayload buf_getint in
  let* keyblob := on_spayload (let* p := buf_getptr keybloblen in mem_load p keybloblen) in
  if negb valid_user then send_msg_userauth_failure false false
  else
    let sigtype := signature_type_from_name sigalgo in
    if sigtype =? DROPBEAR_SIGNATURE_NONE then send_msg_userauth_failure false false
    else
      let* keytype := signkey_type_from_signature sigtype in
      let* keyalgo := signkey_name_from_type keytype in
      let* r := checkpubkey keyalgo keyblob in
      match r with
      | None =>
          let* a := auth in
          do* send_msg_userauth_failure false (serv_pubkey_query_count a >? free_query_limit);
          on_auth (λ a, set_serv_pubkey_query_count (u32 (serv_pubkey_query_count a + 1)) a)
      | Some options =>
          if testkey then on_stp (send_msg_userauth_pk_ok sigalgo keyblob)
          else verify_pubkey sigtype keytype options
      end.

(** ** Requests *)

Definition recv_msg_userauth_request : ST svrses unit :=
  let* now := gettime_wrapper in
  do* on_auth (set_auth_starttime now);
  let* s := get in
  if authdone (stp s) then ret tt
  else
    do* match banner s with
        | Some b => do* on_stp (send_msg_userauth_banner b); modify (set_banner None)
        | None => ret tt
        end;
    let* name := on_spayload buf_getstring in
    let* service := on_spayload buf_getstring in
    let* method := on_spayload buf_getstring in
    do* exit_if (negb (bytes_eqb service (bstr "ssh-connection"))) "unknown service in auth";
    let* valid_user := checkusername name in
    let* a := auth in
    let root_barred := norootpass env && (pw_uid a =? 0) in
    if bytes_eqb method (bstr "none") then
      if valid_user && allowblankpass env && negb (noauthpass env) && negb root_barred then
        let* passwd := ptr (pw_passwd a) in
        match passwd with
        | [] => send_msg_userauth_success
        | _ => send_msg_userauth_failure false false
        end
      else send_msg_userauth_failure false false
    else if negb (noauthpass env) && negb root_barred && bytes_eqb method (bstr "password") then
      svr_auth_password valid_user
    else if bytes_eqb method (bstr "publickey") then svr_auth_pubkey valid_user
    else send_msg_userauth_failure false true.
End svrauth.
