(* ===== verification/AuthLines.v ===== *)
(** * Which keys an authorized_keys file allows (src/src/svr-authpubkey.c)

    The lines that let a key in, as a specification over the bytes of the
    line, and the proof that the reader of AuthKeys.v finds a key exactly when
    there is such a line, whatever else the file holds. *)

From Stdlib Require Import ZArith Lia.
From stdpp Require Import base list strings.
From S2P Require Import Prelude.
From S2P Require Import Buffer.
From S2P Require Import Algo.
From S2P Require Import KeyTypes.
From S2P Require Import AuthOptions.
From S2P Require Import AuthKeys.

(** ** Reading lines *)

(** The lines a file has for [buf_getline] with a buffer of [size] bytes:
    [cur] is what it has of the next one.  When the buffer is full it gives an
    empty line and goes on with the rest as with a new line. *)
Definition line_end (c : Z) : bool := (c =? 10) || (c =? 13).
Fixpoint file_lines (size : Z) (cur file : list Z) : list (list Z) :=
  match file with
  | [] => match cur with [] => [] | _ => [cur] end
  | c :: file =>
      if line_end c then cur :: file_lines size [] file
      else if zlen cur + 1 =? size then [] :: file_lines size [] file
      else file_lines size (cur ++ [c]) file
  end.

(** A stretch without a line end, at the start of a line, up to its end. *)
Definition unbroken (l : list Z) : Prop := Forall (λ c, line_end c = false) l.
Definition line_starts (before : list Z) : Prop := before = [] ∨ ∃ l c, before = l ++ [c] ∧ line_end c = true.
Definition line_stops (after : list Z) : Prop := after = [] ∨ ∃ c l, after = c :: l ∧ line_end c = true.

(** [line] is a line of [file]: all of it, or, of a line of [size] bytes and
    more, what is left after as many bytes as fill the buffer were dropped,
    once or several times. *)
Definition line_of (size : Z) (line file : list Z) : Prop :=
  ∃ before dropped after, file = before ++ dropped ++ line ++ after ∧
    line_starts before ∧ unbroken dropped ∧ (size | zlen dropped) ∧
    unbroken line ∧ zlen line < size ∧ line_stops after.

Section getline.
Implicit Types (file cur line : list Z).
Context (size : Z) (size_pos : 0 < size).

Lemma unbroken_snoc cur c : unbroken cur → line_end c = false → unbroken (cur ++ [c]).
Proof. intros. by apply Forall_app; split; [|apply Forall_singleton]. Qed.

(** Every line but an empty one is a line of the file. *)
Lemma file_lines_of file whole before dropped cur line :
  whole = before ++ dropped ++ cur ++ file → line_starts before → unbroken dropped → (size | zlen dropped) →
  unbroken cur → zlen cur < size → line ≠ [] → line ∈ file_lines size cur file → line_of size line whole.
Proof using size_pos.
  revert before dropped cur. induction file as [|c file IH]; intros before dropped cur Hw Hb Hd Hdiv Hu Hl Hne Hin; cbn [file_lines] in Hin.
  - destruct cur as [|x cur]; [by apply elem_of_nil in Hin|]. apply list_elem_of_singleton in Hin as ->.
    exists before, dropped, []. split_and!; try done. by left.
  - destruct (line_end c) eqn:Hc.
    + apply elem_of_cons in Hin as [->|Hin].
      * exists before, dropped, (c :: file). split_and!; try done. right. by exists c, file.
      * apply (IH (before ++ dropped ++ cur ++ [c]) [] []); try done; [|right|constructor|by exists 0|constructor].
        -- rewrite Hw. cbn [app]. by rewrite <-!app_assoc.
        -- exists (before ++ dropped ++ cur), c. by rewrite <-!app_assoc.
    + destruct (Z.eqb_spec (zlen cur + 1) size) as [Hs|Hs].
      * apply elem_of_cons in Hin as [->|Hin]; [done|].
        apply (IH before (dropped ++ cur ++ [c]) []); try done; [| | |constructor].
        -- rewrite Hw. cbn [app]. by rewrite <-!app_assoc.
        -- apply Forall_app. split; [done|by apply unbroken_snoc].
        -- rewrite !zlen_app. change (zlen [c]) with 1. rewrite Hs. apply Z.divide_add_r; [done|by exists 1; lia].
      * apply (IH before dropped (cur ++ [c])); try done; [|by apply unbroken_snoc|].
        -- rewrite Hw. by rewrite <-!app_assoc.
        -- rewrite zlen_app. change (zlen [c]) with 1. lia.
Qed.

Lemma file_lines_whole file line : line ≠ [] → line ∈ file_lines size [] file → line_of size line file.
Proof using size_pos. intros. eapply (file_lines_of file file [] [] []); try done; [by left|constructor|by exists 0|constructor]. Qed.

(** And every line of the file is read. *)
Lemma file_lines_restart before file line cur :
  line_starts before → (before = [] → cur = []) → line ∈ file_lines size [] file → line ∈ file_lines size cur (before ++ file).
Proof.
  intros [->|(l&c&->&Hc)] Hcur Hin; [by rewrite (Hcur eq_refl)|]. clear Hcur. revert cur.
  induction l as [|x l IH]; intros cur; cbn [app file_lines].
  - rewrite Hc. by apply list_elem_of_further.
  - destruct (line_end x); [by apply list_elem_of_further|]. destruct (_ =? size); [apply list_elem_of_further|]; apply IH.
Qed.

Lemma file_lines_drop dropped file line cur :
  unbroken dropped → (size | zlen cur + zlen dropped) → zlen cur < size → line ∈ file_lines size [] file →
  line ∈ file_lines size cur (dropped ++ file).
Proof using size_pos.
  intros Hu Hdiv Hl Hin. revert cur Hdiv Hl. induction Hu as [|x l Hx Hu IH]; intros cur Hdiv Hl; cbn [app file_lines].
  - change (zlen []) with 0 in Hdiv. rewrite Z.add_0_r in Hdiv. pose proof (zlen_nonneg cur).
    assert (Hz : zlen cur = 0) by (apply Z.mod_divide in Hdiv; [|lia]; by rewrite Z.mod_small in Hdiv). destruct cur as [|y cur]; [done|].
    rewrite zlen_cons in Hz. pose proof (zlen_nonneg cur). lia.
  - rewrite Hx. rewrite zlen_cons in Hdiv. destruct (Z.eqb_spec (zlen cur + 1) size) as [Hs|Hs].
    + apply list_elem_of_further, IH; [|done]. change (zlen []) with 0.
      replace (0 + zlen l) with (zlen cur + (1 + zlen l) - size) by lia. apply Z.divide_sub_r; [done|by exists 1; lia].
    + apply IH; rewrite zlen_app; change (zlen [x]) with 1; [|lia].
      by replace (zlen cur + 1 + zlen l) with (zlen cur + (1 + zlen l)) by lia.
Qed.

Lemma file_lines_next line after cur :
  unbroken line → zlen cur + zlen line < size → line_stops after → cur ++ line ≠ [] → cur ++ line ∈ file_lines size cur (line ++ after).
Proof.
  intros Hu Hl Ha Hne. revert cur Hl Hne. induction Hu as [|x l Hx Hu IH]; intros cur Hl Hne; cbn [app file_lines].
  - rewrite app_nil_r in *. destruct Ha as [->|(c&r&->&Hc)]; cbn [file_lines].
    + destruct cur; [done|by apply list_elem_of_singleton].
    + rewrite Hc. by apply list_elem_of_here.
  - rewrite zlen_cons in Hl. pose proof (zlen_nonneg l). rewrite Hx. replace (_ =? size) with false by lia.
    rewrite (cons_middle x cur l), app_assoc. apply IH; rewrite ?zlen_app; [change (zlen [x]) with 1; lia|].
    intros [[_ ?]%app_eq_nil _]%app_eq_nil. done.
Qed.

Lemma elem_of_file_lines file line : line ≠ [] → line ∈ file_lines size [] file ↔ line_of size line file.
Proof using size_pos.
  intros Hne. split; [by apply file_lines_whole|]. intros (before&dropped&after&->&Hb&Hd&Hdiv&Hu&Hl&Ha).
  apply file_lines_restart; [done|done|]. apply file_lines_drop; [done|done|done|].
  by apply (file_lines_next line after []).
Qed.

Lemma file_lines_forall (P : Z → Prop) file cur line :
  Forall P cur → Forall P file → line ∈ file_lines size cur file → Forall P line.
Proof.
  intros Hc Hf. revert cur Hc. induction Hf as [|c file Hc' Hf IH]; intros cur Hc Hin; cbn [file_lines] in Hin.
  - destruct cur; [by apply elem_of_nil in Hin|by apply list_elem_of_singleton in Hin as ->].
  - destruct (line_end c); [|destruct (_ =? size)]; [| |apply (IH (cur ++ [c])); [by apply Forall_app; auto|done]];
      (apply elem_of_cons in Hin as [->|Hin]; [done || constructor|by eapply (IH [])]).
Qed.

(** *** The reader *)

Lemma buf_acc_byte acc c (b : buffer) :
  buf_acc acc b → byte_ok c → b_pos b < b_size b → buf_acc (acc ++ [c]) (after_put [u8 c] b).
Proof.
  intros Hacc Hc Hl. unfold byte_ok in Hc. rewrite u8_small by lia.
  apply buf_acc_put; [done|by apply Forall_singleton|]. change (zlen [c]) with 1.
  pose proof (buf_acc_pos _ _ Hacc). lia.
Qed.

Lemma wp_getline_loop file acc (b : buffer) :
  bytes_ok file → buf_acc acc b → b_size b = size → zlen acc < size →
  wp (getline_loop file) no_exit (λ r b', b_size b' = size ∧ suffix r.2 file ∧ ∃ l, buf_acc l b' ∧
    match r.1 with
    | Some true => l = acc ++ file ∧ r.2 = [] ∧ file_lines size acc file = match l with [] => [] | _ => [l] end
    | Some false => file_lines size acc file = l :: file_lines size [] r.2 ∧ (length r.2 < length file)%nat
    | None => file_lines size acc file = [] :: file_lines size [] r.2 ∧ (length r.2 < length file)%nat
    end) b.
Proof.
  intros Hf. revert acc b. induction Hf as [|c file Hc Hf IH]; intros acc b Hacc Hsz Hlt; cbn [getline_loop];
    pose proof (buf_acc_pos _ _ Hacc) as Hp; apply wp_bind, wp_get; (apply wp_if; intros Hpos; [|lia]).
  { apply wp_ret. split_and!; [done|done|]. exists acc. by rewrite app_nil_r. }
  cbn [file_lines]. fold (line_end c). destruct (line_end c) eqn:Hnl.
  { apply wp_ret. cbn [fst snd]. split_and!; [done|by exists [c]|]. exists acc. split_and!; [done|done|cbn; lia]. }
  apply wp_bind, wp_buf_putbyte; [apply Hacc| |lia]. intros _.
  assert (Hacc' := buf_acc_byte acc c b Hacc Hc ltac:(lia)).
  destruct (Z.eqb_spec (zlen acc + 1) size) as [Hs|Hs].
  - pose proof (buf_acc_pos _ _ Hacc') as Hp'. rewrite zlen_app in Hp'. change (zlen [c]) with 1 in Hp'.
    assert (Hfull : wp (getline_loop file) no_exit (λ r b', r = (None, file) ∧ b' = after_put [u8 c] b) (after_put [u8 c] b)).
    { destruct file; cbn [getline_loop]; apply wp_bind, wp_get; (apply wp_if; intros Hx; [cbn [after_put b_size] in Hx; lia|]); by apply wp_ret. }
    eapply wp_mono; [exact Hfull|]. intros ? ? [-> ->]. cbn [fst snd]. split_and!; [done|by exists [c]|].
    exists (acc ++ [c]). split_and!; [done|done|cbn; lia].
  - eapply wp_mono; [apply (IH (acc ++ [c])); [done|done|rewrite zlen_app; change (zlen [c]) with 1; lia]|].
    intros [out rest] b' (Hs'&Hb'&l&Hl&Hout). split_and!; [done|by apply suffix_cons_r|]. exists l. split; [done|]. cbn [fst snd length] in *.
    destruct out as [[]|]; [|split; [apply Hout|lia]..]. by rewrite <-app_assoc in Hout.
Qed.

Lemma suffix_forall (P : Z → Prop) l l' : suffix l l' → Forall P l' → Forall P l.
Proof. intros [k ->] H. by apply Forall_app in H as [_ H]. Qed.

(** [buf_getline] gives the lines one after the other. *)
Lemma wp_buf_getline file (b : buffer) :
  bytes_ok file → wf_buf b → b_size b = size →
  wp (buf_getline file) no_exit (λ r b', wf_buf b' ∧ b_size b' = size ∧ suffix r.2 file ∧
    if r.1 then (length r.2 < length file)%nat ∧ b_pos b' = 0 ∧ file_lines size [] file = contents b' :: file_lines size [] r.2
    else file_lines size [] file = []) b.
Proof using size_pos.
  intros Hf Hwf Hsz. pose proof Hwf as (?&?&?&?).
  apply wp_bind, wp_buf_setpos; [|lia]. intros _.
  apply wp_bind, wp_buf_setlen; [|cbn; lia]. intros _.
  apply wp_bind. eapply wp_mono; [apply (wp_getline_loop file []); [done| |exact Hsz|done]|].
  { split_and!; [|by cbn|done]. apply wf_setlen; [by apply wf_set_pos; auto with lia|cbn; lia]. }
  cbn [app]. intros [out rest] b1 (Hs1&Hrest&l&Hacc&Hout). cbn [fst snd] in *.
  pose proof Hacc as (Hwf1&Hpl&Hc). pose proof (buf_acc_pos _ _ Hacc) as Hp. pose proof Hwf1 as (?&?&?&?).
  destruct out as [[]|].
  - destruct Hout as (->&->&Hlines). apply wp_bind, wp_ret, wp_bind, wp_get. cbn [andb]. rewrite Hp. apply wp_if; intros Hz.
    + apply wp_ret. split_and!; [done|done|done|]. rewrite Hlines. destruct file; [done|]. rewrite zlen_cons in Hz. pose proof (zlen_nonneg file). lia.
    + apply wp_bind, wp_buf_setpos; [|lia]. intros _. apply wp_ret. cbn [fst snd].
      split_and!; [by apply wf_set_pos; auto with lia|done|done| |done|].
      * destruct file; [done|cbn; lia].
      * change (contents (set_pos 0 b1)) with (contents b1). rewrite Hc, Hlines. by destruct file.
  - destruct Hout as [Hlines Hlt]. apply wp_bind, wp_ret, wp_bind, wp_get. cbn [andb].
    apply wp_bind, wp_buf_setpos; [|lia]. intros _. apply wp_ret. cbn [fst snd].
    split_and!; [by apply wf_set_pos; auto with lia|done|done|done|done|].
    change (contents (set_pos 0 b1)) with (contents b1). by rewrite Hc.
  - destruct Hout as [Hlines Hlt]. apply wp_bind, wp_buf_setlen; [|lia]. intros _. apply wp_bind, wp_get. cbv zeta. cbn [b_size].
    replace (b_size b1 <=? 0) with false by lia. cbn [andb]. apply wp_bind, wp_buf_setpos; [|cbn; lia]. intros _. apply wp_ret. cbn [fst snd].
    split_and!; [apply wf_set_pos; [apply wf_setlen; [done|lia]|cbn; lia]|done|done|done|done|]. exact Hlines.
Qed.
End getline.

(** ** The lines that allow a key *)

Lemma bytes_eqb_true (l1 l2 : list Z) : bytes_eqb l1 l2 = true → l1 = l2.
Proof. unfold bytes_eqb. by intros ?%bool_decide_eq_true. Qed.

(** A comment: the first character that is not a blank is '#'. *)
Fixpoint commented (line : list Z) : bool :=
  match line with [] => false | c :: line => if is_blank c then commented line else c =? 35 end.

(** Names of key types, and options, start with neither. *)
Definition plain_name (algo : list Z) : Prop := is_blank (nth 0 algo 32) = false ∧ nth 0 algo 32 ≠ 35.

Lemma signkey_name_plain algo : algo ∈ signkey_names → plain_name algo ∧ zlen algo ≤ MAX_AUTHKEYS_LINE.
Proof. revert algo. apply Forall_forall. unfold plain_name, MAX_AUTHKEYS_LINE. decide_closed. Qed.

(** Where [char] is signed, [isalnum] must not be asked about bytes from 128
    on. *)
Definition chars_ok (char_signed : bool) (text : list Z) : Prop := char_signed = true → Forall (λ c, c < 128) text.

(** Options end at the first blank outside quotes; a quote behind a backslash
    is none. *)
Fixpoint one_word (quoted escape : bool) (opts : list Z) : bool :=
  match opts with
  | [] => negb quoted
  | c :: opts =>
      if negb quoted && is_blank c then false
      else
        let escape := negb escape && (c =? 92) in
        let quoted := if negb escape && (c =? 34) then negb quoted else quoted in
        one_word quoted escape opts
  end.

(** A line the reader looks at: no shorter than 10 bytes and without NUL. *)
Definition readable (line : list Z) : Prop := MIN_AUTHKEYS_LINE ≤ zlen line ∧ 0 ∉ line.

Lemma span_unique (P : Z → bool) (l1 r1 l2 r2 : list Z) :
  l1 ++ r1 = l2 ++ r2 → forallb P l1 = true → forallb P l2 = true →
  (∀ c r, r1 = c :: r → P c = false) → (∀ c r, r2 = c :: r → P c = false) → l1 = l2.
Proof.
  revert l2. induction l1 as [|c l1 IH]; intros [|d l2] Heq H1 H2 Hr1 Hr2; cbn [app forallb] in *; [done| | |].
  - apply andb_prop in H2 as [Hd _]. by rewrite (Hr1 d (l2 ++ r2)) in Hd.
  - apply andb_prop in H1 as [Hc _]. by rewrite (Hr2 c (l1 ++ r1)) in Hc.
  - injection Heq as <- Heq. apply andb_prop in H1 as [_ H1], H2 as [_ H2]. f_equal. by apply IH.
Qed.

Lemma slice_cons off n (l : list Z) :
  0 ≤ off < zlen l → 0 ≤ n → slice off (1 + n) l = nth (Z.to_nat off) l 0 :: slice (off + 1) n l.
Proof.
  intros Ho Hn. rewrite slice_app_split by lia. change (?x :: ?l) with ([x] ++ l). f_equal.
  pose proof (zlen_slice off 1 l ltac:(lia) ltac:(lia) ltac:(lia)) as Hl. pose proof (nth_slice1 off l ltac:(lia)) as H0.
  destruct (slice off 1 l) as [|x [|]]; [done|cbn in H0; by subst|unfold zlen in Hl; cbn in Hl; lia].
Qed.

Lemma remaining_cons b :
  wf_buf b → b_pos b < b_len b → remaining b = nth (Z.to_nat (b_pos b)) (b_data b) 0 :: remaining (after_get 1 b).
Proof.
  intros (?&?&?&?) Hl. unfold remaining. cbn [after_get set_pos b_pos b_len b_data].
  replace (b_len b - b_pos b) with (1 + (b_len b - (b_pos b + 1))) by lia. by rewrite slice_cons by lia.
Qed.

Lemma slice_contents o k b :
  wf_buf b → 0 ≤ o → 0 ≤ k → o + k ≤ b_len b → slice o k (b_data b) = slice o k (contents b).
Proof.
  intros Hwf Ho Hk Hl. pose proof Hwf as (?&?&?&?). rewrite <-(slice_full (b_data b)) at 1.
  replace (zlen (b_data b)) with (b_len b + (b_size b - b_len b)) by lia. rewrite slice_app_split by lia. fold (contents b).
  by rewrite slice_app_l by (rewrite ?contents_length by done; lia).
Qed.

Lemma remaining_at b pre rest : wf_buf b → contents b = pre ++ rest → b_pos b = zlen pre → remaining b = rest.
Proof.
  intros Hwf Hc Hp. pose proof Hwf as (?&_). pose proof (contents_length b Hwf) as Hl. rewrite Hc, zlen_app in Hl.
  unfold remaining. rewrite slice_contents, Hc by (done || lia). rewrite slice_app_r, Hp, Z.sub_diag by lia.
  replace (b_len b - zlen pre) with (zlen rest) by lia. apply slice_full.
Qed.

Lemma remaining_nil b : wf_buf b → ¬ b_pos b < b_len b → remaining b = [].
Proof. intros (?&_) Hl. unfold remaining. by replace (b_len b - b_pos b) with 0 by lia. Qed.

Section lines.
Context (base64_decode : list Z → Z → option (list Z)) (stale char_signed : bool).
Context (base64_ok : ∀ text n out, base64_decode text n = Some out → zlen out ≤ n ∧ bytes_ok out).
Implicit Types (algo keyblob line : list Z).

(** The options the text before the key stands for. *)
Definition options_of (opts : list Z) : option PubKeyOptions :=
  match svr_parse_pubkey_options stale (Some (buf_of opts)) tt with Ok (o, _) => o | _ => None end.

Definition before_type (blanks opts : list Z) (sep : Z) : Prop :=
  forallb is_blank blanks = true ∧ is_blank sep = true ∧ plain_name opts ∧ one_word false false opts = true.

(** What precedes the key type: nothing, or blanks, the options and a blank. *)
Definition line_prefix (pre : list Z) (o : PubKeyOptions) : Prop :=
  (pre = [] ∧ o = no_options) ∨
  ∃ blanks opts sep, pre = blanks ++ opts ++ [sep] ∧ before_type blanks opts sep ∧ options_of opts = Some o.

Definition named_blob algo keyblob : Prop := ∃ rest, keyblob = STORE32H (zlen algo) ++ algo ++ rest.

(** The key in its two encodings: base64 on the line, the blob on the wire,
    which starts with the name of the key type. *)
Definition encodes_key algo keyblob (b64 : list Z) : Prop :=
  forallb (λ c, negb (c =? 32)) b64 = true ∧ base64_decode b64 (2 * zlen b64) = Some keyblob ∧
  named_blob algo keyblob.

(** The comment after the key, exported to the session's environment. *)
Definition safe_info (info : option (list Z)) : Prop :=
  match info with None => True | Some i => forallb info_char i = true end.

(** A line that starts with the key type is not looked at for options. *)
Definition allows_key algo keyblob line (o : PubKeyOptions) : Prop :=
  ∃ (pre b64 post : list Z) (o0 : PubKeyOptions) (info : option (list Z)),
    line = pre ++ algo ++ [32] ++ b64 ++ post ∧ line_prefix pre o0 ∧ (pre = [] ∨ ¬ algo `prefix_of` line) ∧
    encodes_key algo keyblob b64 ∧ (post = [] ∨ nth 0 post 0 = 32) ∧
    safe_info info ∧ o = set_info_env info o0.

Lemma commented_blanks blanks rest : forallb is_blank blanks = true → commented (blanks ++ rest) = commented rest.
Proof. induction blanks as [|c l IH]; cbn; [done|]. intros [-> H]%andb_prop. by apply IH. Qed.

Lemma plain_uncommented algo rest : plain_name algo → commented (algo ++ rest) = false.
Proof. destruct algo as [|c algo]; intros [Hb Hc]; [done|]. cbn in *. rewrite Hb. by apply Z.eqb_neq. Qed.

Lemma allows_key_uncommented algo keyblob line o :
  plain_name algo → allows_key algo keyblob line o → commented line = false.
Proof.
  intros Hpl (pre&b64&post&o0&info&->&Hpre&_).
  destruct Hpre as [[-> _]|(blanks&opts&sep&->&(Hbl&_&Ho&_)&_)]; [rewrite app_nil_l; by apply plain_uncommented|].
  rewrite <-!app_assoc, commented_blanks by done. by apply plain_uncommented.
Qed.

(** *** The loops *)

(** [n] bytes from [p] on that all satisfy [P]. *)
Definition run_of (P : Z → bool) (p n : Z) (b : buffer) : Prop :=
  0 ≤ n ∧ 0 ≤ p ∧ p + n ≤ b_len b ∧ forallb P (slice p n (b_data b)) = true.

(** A loop that reads such bytes up to one that satisfies [stop], which it
    consumes, or to the end. *)
Definition spans (P stop : Z → bool) (b b' : buffer) (n : Z) : Prop :=
  scanned b b' ∧ run_of P (b_pos b) n b ∧
  (b_pos b' = b_pos b + n + 1 ∧ b_pos b + n < b_len b ∧ stop (nth (Z.to_nat (b_pos b + n)) (b_data b) 0) = true ∨
   b_pos b' = b_pos b + n ∧ b_pos b + n = b_len b).

Lemma run_of_nil P (b : buffer) : wf_buf b → run_of P (b_pos b) 0 b.
Proof. intros (?&?&?&?). split_and!; [done|lia|lia|done]. Qed.

Lemma run_of_cons P p n (b : buffer) :
  wf_buf b → 0 ≤ p < b_len b → P (nth (Z.to_nat p) (b_data b) 0) = true → run_of P (p + 1) n b → run_of P p (1 + n) b.
Proof.
  intros (?&?&?&?) Hp HP (Hn&_&Hl&Hr). split_and!; [lia..|]. rewrite slice_cons by lia. cbn [forallb]. by rewrite HP.
Qed.

Lemma spans_end P stop b : wf_buf b → ¬ b_pos b < b_len b → spans P stop b b 0.
Proof.
  intros Hwf Hl. split_and!; [by apply scanned_refl|by apply run_of_nil|]. right. destruct Hwf. lia.
Qed.

Lemma spans_stop P stop b :
  wf_buf b → b_pos b < b_len b → stop (nth (Z.to_nat (b_pos b)) (b_data b) 0) = true →
  spans P stop b (after_get 1 b) 0.
Proof.
  intros Hwf Hl Hs. split_and!; [by apply scanned_1|by apply run_of_nil|]. left. rewrite Z.add_0_r. split_and!; done.
Qed.

Lemma spans_step P stop b b' n :
  wf_buf b → b_pos b < b_len b → P (nth (Z.to_nat (b_pos b)) (b_data b) 0) = true →
  spans P stop (after_get 1 b) b' n → spans P stop b b' (1 + n).
Proof.
  intros Hwf Hl HP (Hs&Hr&He). pose proof Hwf as (?&_). cbn [after_get set_pos b_pos b_len b_data] in *. split_and!.
  - by eapply scanned_trans; [apply scanned_1|].
  - by apply run_of_cons; [|lia| |].
  - replace (b_pos b + (1 + n)) with (b_pos b + 1 + n) by lia. done.
Qed.

Lemma wp_base64_loop fuel len b :
  wf_buf b → b_len b - b_pos b ≤ Z.of_nat fuel →
  wp (base64_loop fuel len) no_exit
    (λ r b', ∃ n, r = len + n ∧ spans (λ c, negb (c =? 32)) (Z.eqb 32) b b' n) b.
Proof.
  revert len b. induction fuel as [|fuel IH]; intros len b Hwf Hf; cbn [base64_loop];
    apply wp_bind, wp_get; apply wp_if; intros Hc; try lia;
    try (apply wp_ret; exists 0; split; [lia|apply spans_end; [done|lia]]).
  apply wp_bind, wp_getbyte_in; [done|lia|]. apply wp_if; intros H32.
  - apply wp_ret. exists 0. split; [lia|]. apply spans_stop; [done|lia|lia].
  - pose proof (scanned_1 b Hwf ltac:(lia)) as [Hwf1 _].
    eapply wp_mono; [apply IH; [done|cbn; lia]|]. intros r b' (n&->&Hsp). exists (1 + n). split; [lia|].
    by apply spans_step; [|lia|rewrite H32|].
Qed.

Lemma wp_options_loop fuel quoted escape len b :
  wf_buf b → b_len b - b_pos b ≤ Z.of_nat fuel →
  wp (options_loop fuel quoted escape len) no_exit
    (λ r b', ∃ n, r = len + n ∧ spans (λ _, true) is_blank b b' n ∧
       (b_pos b + n < b_len b → one_word quoted escape (slice (b_pos b) n (b_data b)) = true) ∧
       ∀ opts sep rest, remaining b = opts ++ sep :: rest → one_word quoted escape opts = true → is_blank sep = true →
         n = zlen opts ∧ b_pos b + n < b_len b) b.
Proof.
  revert quoted escape len b. induction fuel as [|fuel IH]; intros quoted escape len b Hwf Hf; cbn [options_loop];
    apply wp_bind, wp_get; apply wp_if; intros Hc; try lia;
    try (apply wp_ret; exists 0; split_and!; [lia|apply spans_end; [done|lia]|lia|];
         intros opts sep rest Hr; rewrite remaining_nil in Hr by (done || lia); by destruct opts).
  pose proof (remaining_cons b Hwf ltac:(lia)) as Hrem. pose proof Hwf as (?&?&?&?).
  apply wp_bind, wp_getbyte_in; [done|lia|]. apply wp_if; intros Hb.
  - apply wp_ret. exists 0. apply andb_prop in Hb as [Hq Hb]. split_and!; [lia|by apply spans_stop; [|lia|]|done|].
    intros [|x opts] sep rest Hr Hw Hs; [split; [done|lia]|]. rewrite Hrem in Hr. injection Hr as <- Hr.
    cbn [one_word] in Hw. by rewrite Hq, Hb in Hw.
  - pose proof (scanned_1 b Hwf ltac:(lia)) as [Hwf1 _]. set (c := nth _ _ _) in *. cbv zeta.
    eapply wp_mono; [apply IH; [done|cbn; lia]|]. intros r b' (n&->&Hsp&Hw&Hall).
    pose proof (proj1 (proj1 (proj2 Hsp))) as Hn. cbn [after_get set_pos b_pos b_len b_data] in *.
    exists (1 + n). split_and!; [lia|by apply spans_step; [|lia| |]| |].
    + intros Hlt. rewrite slice_cons by lia. fold c. cbn [one_word]. rewrite Hb. apply Hw. lia.
    + intros [|x opts] sep rest Hr Hwd Hs; rewrite Hrem in Hr; injection Hr as <- Hr; cbn [one_word] in Hwd.
      * rewrite Hs, andb_true_r in Hb. congruence.
      * rewrite Hb in Hwd. destruct (Hall opts sep rest Hr Hwd Hs) as [-> Hlt]. rewrite zlen_cons. lia.
Qed.

Lemma chars_ok_value b p :
  wf_buf b → chars_ok char_signed (contents b) → 0 ≤ p < b_len b →
  let c := nth (Z.to_nat p) (b_data b) 0 in char_value char_signed c = c ∧ isalnum_defined c = true.
Proof.
  intros Hwf Hc Hp. pose proof Hwf as (?&?&Hd&Hb). cbv zeta. set (c := nth _ _ _).
  assert (Hby : byte_ok c) by (by apply bytes_ok_nth). unfold byte_ok in Hby. split; [|unfold isalnum_defined; lia].
  unfold char_value. destruct char_signed eqn:Hs; [|done]. cbn [andb]. specialize (Hc eq_refl). rewrite (Forall_nth _ 0) in Hc.
  pose proof (contents_length b Hwf) as Hl. unfold zlen in Hl. specialize (Hc (Z.to_nat p) ltac:(lia)).
  unfold contents, slice in Hc. change (Z.to_nat 0) with 0%nat in Hc. rewrite drop_0 in Hc.
  rewrite !nth_lookup, lookup_take in Hc. rewrite decide_True in Hc by lia. rewrite <-nth_lookup in Hc. fold c in Hc.
  by replace (128 <=? c) with false by lia.
Qed.

Lemma wp_info_loop fuel len b :
  wf_buf b → chars_ok char_signed (contents b) → b_len b - b_pos b ≤ Z.of_nat fuel →
  wp (info_loop char_signed fuel len) no_exit
    (λ r b', scanned b b' ∧ (r = 0 ∨ ∃ n, r = len + n ∧ run_of info_char (b_pos b) n b)) b.
Proof.
  revert len b. induction fuel as [|fuel IH]; intros len b Hwf Hch Hf; cbn [info_loop];
    apply wp_bind, wp_get; apply wp_if; intros Hc; try lia;
    try (apply wp_ret; split; [by apply scanned_refl|]; right; exists 0; split; [lia|by apply run_of_nil]).
  pose proof (scanned_1 b Hwf ltac:(lia)) as Hs1. pose proof Hwf as (?&_).
  apply wp_bind, wp_getbyte_in; [done|lia|]. destruct (chars_ok_value b (b_pos b) Hwf Hch ltac:(lia)) as [Hv Hdef].
  cbv zeta. rewrite Hv, Hdef. cbn [negb]. apply wp_if; intros H32; [|apply wp_if; intros Hic].
  - apply wp_ret. split; [done|]. right. exists 0. split; [lia|by apply run_of_nil].
  - apply wp_ret. split; [done|by left].
  - eapply wp_mono; [apply IH; [apply (proj1 Hs1)|exact Hch|cbn; lia]|]. intros r b' [Hs [->|(n&->&Hr)]];
      (split; [exact (scanned_trans _ _ _ Hs1 Hs)|]); [by left|]. right. exists (1 + n). split; [lia|].
    apply run_of_cons; [done|lia|by apply negb_false_iff|done].
Qed.

(** The comment mark, or the blanks before the options. *)
Lemma wp_skip_blanks fuel b :
  wf_buf b → b_len b - b_pos b ≤ Z.of_nat fuel →
  wp (skip_blanks fuel) no_exit
    (λ r b', scanned b b' ∧ (r = true → commented (remaining b) = true) ∧
       (r = false → ∃ n, b' = set_pos (b_pos b + n) b ∧ run_of is_blank (b_pos b) n b ∧
       (b_pos b' < b_len b → let c := nth (Z.to_nat (b_pos b')) (b_data b) 0 in is_blank c = false ∧ c ≠ 35))) b.
Proof.
  revert b. induction fuel as [|fuel IH]; intros b Hwf Hf; cbn [skip_blanks];
    apply wp_bind, wp_get; apply wp_if; intros Hc; try lia;
    try (apply wp_ret; split; [by apply scanned_refl|]; split; [done|]; intros _; exists 0; split_and!;
         [rewrite Z.add_0_r; by destruct b|by apply run_of_nil|lia]).
  pose proof (scanned_1 b Hwf ltac:(lia)) as Hs1. pose proof Hwf as (?&_). rewrite (remaining_cons b Hwf) by lia. cbn [commented].
  apply wp_bind, wp_getbyte_in; [done|lia|]. apply wp_if; intros Hb; [|apply wp_if; intros Hh].
  - eapply wp_mono; [apply IH; [apply (proj1 Hs1)|cbn; lia]|]. intros r b' (Hs&Hcm&Hr). rewrite Hb.
    split; [exact (scanned_trans _ _ _ Hs1 Hs)|]. split; [exact Hcm|].
    intros ->. destruct (Hr eq_refl) as (n&->&Hn&Hnext). exists (1 + n).
    cbn. split; [by rewrite Z.add_assoc|]. split; [by apply run_of_cons; [|lia| |]|exact Hnext].
  - apply wp_ret. rewrite Hb. by split_and!.
  - apply wp_bind, wp_buf_decrpos; [apply (proj1 Hs1)|lia| |cbn; lia]. intros _. apply wp_ret.
    cbn. rewrite Z.add_simpl_r. assert (Hsame : set_pos (b_pos b) (after_get 1 b) = b) by (by destruct b).
    unfold set_pos in *. cbn in *. rewrite Hsame. split; [by apply scanned_refl|]. split; [done|]. intros _. exists 0.
    split_and!; [rewrite Z.add_0_r; by destruct b|by apply run_of_nil|]. intros _. by apply Z.eqb_neq in Hh.
Qed.

(** Only a line of nothing but blanks ends in its blanks; when [plain] text
    follows the blanks, that is where the reader stops. *)
Lemma skipped_to blanks rest n (b : buffer) :
  wf_buf b → b_pos b = 0 → contents b = blanks ++ rest → forallb is_blank blanks = true → plain_name rest →
  run_of is_blank 0 n b → (n < b_len b → is_blank (nth (Z.to_nat n) (b_data b) 0) = false) → n = zlen blanks.
Proof.
  intros Hwf Hp Hc Hbl [Hplain _] (Hn&_&Hl&Hall) Hnext. pose proof Hwf as (?&?&?&?).
  assert (Hsplit : contents b = slice 0 n (b_data b) ++ slice n (b_len b - n) (b_data b)).
  { unfold contents. replace (b_len b) with (n + (b_len b - n)) at 1 by lia. by rewrite slice_app_split by lia. }
  rewrite Hc in Hsplit. apply (span_unique is_blank) in Hsplit as ->; [symmetry; apply zlen_slice; lia|done|done| |].
  - by intros c r ->.
  - intros c r Hr. destruct (Z.eq_dec (b_len b - n) 0) as [Hz|Hz]; [by rewrite Hz in Hr|].
    replace (b_len b - n) with (1 + (b_len b - n - 1)) in Hr by lia. rewrite slice_cons in Hr by lia. injection Hr as <- _. apply Hnext. lia.
Qed.

(** *** The key and the options *)

Lemma wp_parse_fresh {S} opts E (Q : option PubKeyOptions → S → Prop) s :
  bytes_ok opts → zlen opts ≤ BUF_MAX_SIZE → Q (options_of opts) s →
  wp (svr_parse_pubkey_options stale (Some (after_put opts (mkbuf (zeros (zlen opts)) 0 0 (zlen opts))))) E Q s.
Proof.
  intros Hb Hl HQ. pose proof (zlen_nonneg opts).
  assert (Heq : after_put opts (mkbuf (zeros (zlen opts)) 0 0 (zlen opts)) = set_pos (zlen opts) (buf_of opts)).
  { unfold after_put, buf_of, set_pos. cbn [b_data b_len b_pos b_size]. rewrite splice_zeros. f_equal; lia. }
  rewrite Heq. revert HQ. unfold options_of, svr_parse_pubkey_options, bind, on_new.
  change (fuel_of (set_pos (zlen opts) (buf_of opts))) with (fuel_of (buf_of opts)).
  pose proof (scans_parse_options stale (fuel_of (buf_of opts)) no_options (buf_of opts)
    ltac:(by apply wf_buf_of) ltac:(unfold fuel_of, buf_of; cbn [b_len b_pos]; lia)) as Hw.
  unfold scans, wp, no_exit in Hw.
  assert (Hp : ∀ b : buffer, b_len b = zlen opts → buf_setpos 0 b = Ok (tt, set_pos 0 b)).
  { intros b Hlb. unfold buf_setpos, bind, get, exit_if, put. rewrite Hlb. by if_false. }
  rewrite !Hp by done. change (set_pos 0 (set_pos (zlen opts) (buf_of opts))) with (buf_of opts).
  change (set_pos 0 (buf_of opts)) with (buf_of opts).
  destruct (parse_options stale (fuel_of (buf_of opts)) no_options (buf_of opts)) as [[o b']|e|w]; done.
Qed.

Lemma wp_cmp_base64_key keyblob algo E (Q : bool → buffer → Prop) b :
  let same := base64_decode (remaining b) (2 * zlen (remaining b)) = Some keyblob ∧ named_blob algo keyblob in
  wf_buf b → b_len b ≤ 10000 → zlen algo ≤ 10000 → (¬ named_blob algo keyblob → ∀ e, E e) → (¬ same → Q false b) → (same → Q true b) →
  wp (cmp_base64_key base64_decode keyblob algo) E Q b.
Proof using base64_ok.
  cbv zeta. intros Hwf Hlen Halgo HE Hf Ht. pose proof Hwf as (?&?&Hd&Hby).
  assert (Hnl : ∀ rest, zlen (STORE32H (zlen algo) ++ algo ++ rest) = 4 + zlen algo + zlen rest).
  { intros rest. rewrite !zlen_app, STORE32H_length. lia. }
  pose proof (zlen_nonneg algo).
  assert (Hrem : zlen (remaining b) = b_len b - b_pos b) by (apply zlen_slice; lia).
  unfold cmp_base64_key. apply wp_bind, wp_get.
  rewrite u32_small by lia. cbv zeta. set (n := b_len b - b_pos b) in *.
  apply wp_if; intros Hn.
  { apply wp_ret, Hf. intros [Hdec [rest Hk]]. apply base64_ok in Hdec as [Hz _]. rewrite Hk, Hnl in Hz. pose proof (zlen_nonneg rest). lia. }
  apply wp_bind, wp_buf_new; [|unfold BUF_MAX_SIZE; lia]. intros _.
  apply wp_bind, wp_buf_getptr; [done|lia| |lia]. intros _.
  apply wp_bind, wp_mem_load; [lia..|]. change (slice (b_pos b) n (b_data b)) with (remaining b).
  assert (Hnew : wf_buf (mkbuf (zeros (n * 2)) 0 0 (n * 2))) by (apply wf_new; unfold BUF_MAX_SIZE; lia).
  apply wp_bind, wp_on_new, wp_buf_getwriteptr; [done|cbn; lia| |cbn; lia]. intros _. cbn [b_pos].
  rewrite Hrem in Ht, Hf. replace (2 * n) with (n * 2) in Ht, Hf by lia.
  destruct (base64_decode (remaining b) (n * 2)) as [out|] eqn:Hout; [|apply wp_ret, Hf; by intros [? _]].
  destruct (base64_ok _ _ _ Hout) as [Hol Hob]. pose proof (zlen_nonneg out).
  apply wp_bind, wp_on_new, wp_mem_store; cbn [b_data b_len b_pos b_size]; [lia|rewrite zlen_zeros by lia; lia|].
  set (dk := mkbuf (splice 0 out (zeros (n * 2))) 0 0 (n * 2)).
  assert (Hdk : wf_buf dk).
  { split_and!; cbn; [lia|lia|lia|unfold BUF_MAX_SIZE; lia| |apply bytes_ok_splice; [apply bytes_ok_zeros|done]].
    rewrite zlen_splice by (rewrite ?zlen_zeros by lia; lia). apply zlen_zeros. lia. }
  apply wp_bind, wp_on_new, wp_buf_incrlen; [done|lia| |cbn; lia]. intros _. cbn [dk b_len]. rewrite Z.add_0_l.
  assert (Hdk2 : wf_buf (set_len (zlen out) dk)) by (apply wf_set_len; [done|cbn; lia]).
  assert (Hcut : ∀ o m, 0 ≤ o → 0 ≤ m → o + m ≤ zlen out → slice o m (b_data dk) = slice o m out).
  { intros o m ???. cbn [dk b_data]. unfold splice. change (Z.to_nat 0) with 0%nat. rewrite take_0, app_nil_l.
    by rewrite slice_app_l by lia. }
  assert (Hl2 : b_len (set_len (zlen out) dk) = zlen out) by done. assert (Hp2 : b_pos (set_len (zlen out) dk) = 0) by done.
  change (b_data dk) with (b_data (set_len (zlen out) dk)) in Hcut.
  generalize dependent (set_len (zlen out) dk). clear Hdk dk Hnew. intros dk Hdk Hcut Hl2 Hp2.
  apply wp_if; intros Hlk; [apply wp_ret, Hf; intros [[= ->] _]; lia|]. pose proof Hdk as (?&?&?&?).
  apply wp_bind, wp_on_new, wp_bind, wp_get, wp_bind, wp_buf_getptr; [done|lia| |lia]. intros _.
  apply wp_mem_load; [lia..|]. rewrite Hp2, Hl2, Hcut, slice_full by lia.
  apply wp_if; intros Heq.
  { apply wp_ret, Hf. intros [[= ->] _]. unfold bytes_eqb in Heq. by rewrite bool_decide_eq_true_2 in Heq. }
  apply negb_false_iff, bytes_eqb_true in Heq as ->.
  assert (Hshort : zlen keyblob < 4 → ¬ named_blob algo keyblob).
  { intros Hs [rest Hk]. rewrite Hk, Hnl in Hs. pose proof (zlen_nonneg rest). lia. }
  assert (Hname : named_blob algo keyblob → LOAD32H (slice 0 4 keyblob) = zlen algo ∧ slice 4 (zlen algo) keyblob = algo).
  { intros [rest ->]. rewrite slice_app_l by (rewrite ?STORE32H_length; lia).
    rewrite <-(STORE32H_length (zlen algo)) at 1. rewrite slice_full, LOAD32H_STORE32H by (unfold u32_ok; lia). split; [done|].
    rewrite slice_app_r by (rewrite ?STORE32H_length; lia). rewrite STORE32H_length. change (4 - 4) with 0.
    rewrite slice_app_l by lia. apply slice_full. }
  apply wp_bind, wp_on_new, wp_buf_getint; [done| |rewrite Hl2, Hp2; intros; apply HE, Hshort; lia]. rewrite Hl2, Hp2, Z.add_0_l. intros Hl4.
  rewrite Hcut by lia. set (fal := LOAD32H (slice 0 4 keyblob)).
  assert (Hfal : u32_ok fal) by (by apply LOAD32H_range, bytes_ok_slice). unfold u32_ok in Hfal.
  apply wp_bind, wp_on_new, wp_bind, wp_buf_getptr; [apply wf_after_get; [done|lia|lia]|lia| |].
  2: { cbn [after_get set_pos b_pos b_len]. rewrite Hp2, Hl2. intros Hl5. apply HE. intros Hnm. destruct (Hname Hnm) as [Hfl _].
    destruct Hnm as [rest Hk]. rewrite Hk, Hnl in Hl5. rewrite Hk in Hfl. unfold fal in Hl5. rewrite Hk, Hfl in Hl5. pose proof (zlen_nonneg rest). lia. }
  cbn [after_get set_pos b_pos b_len b_data]. rewrite Hp2, Hl2, Z.add_0_l. intros Hl5.
  apply wp_mem_load; [cbn [after_get set_pos b_data]; lia..|]. cbn [after_get set_pos b_data]. rewrite Hcut by lia.
  apply wp_ret. destruct ((fal =? zlen algo) && bytes_eqb (slice 4 fal keyblob) algo) eqn:Hm.
  2: { apply Hf. intros [_ Hnm]. destruct (Hname Hnm) as [Hfl Ha]. unfold fal, bytes_eqb in Hm.
    by rewrite Hfl, Ha, Z.eqb_refl, bool_decide_eq_true_2 in Hm. }
  apply andb_prop in Hm as [Hfl%Z.eqb_eq Ha%bytes_eqb_true]. apply Ht. split; [done|].
  exists (slice (4 + fal) (zlen keyblob - (4 + fal)) keyblob).
  rewrite <-(slice_full keyblob) at 1. replace (zlen keyblob) with (4 + (fal + (zlen keyblob - (4 + fal)))) at 1 by lia.
  rewrite slice_app_split, (slice_app_split (0 + 4)) by lia. rewrite <-Hfl. f_equal; [|f_equal; exact Ha].
  symmetry. apply STORE32H_LOAD32H; [by apply bytes_ok_slice|apply zlen_slice; lia].
Qed.

(** The options buffer, filled from the text of the options. *)
Definition opts_buf (oo : option (list Z)) : option buffer :=
  opts ← oo; Some (after_put opts (mkbuf (zeros (zlen opts)) 0 0 (zlen opts))).
Definition opts_value (oo : option (list Z)) : option PubKeyOptions :=
  match oo with None => Some no_options | Some opts => options_of opts end.
Definition opts_ok (oo : option (list Z)) : Prop :=
  match oo with None => True | Some opts => bytes_ok opts ∧ zlen opts ≤ BUF_MAX_SIZE end.

Lemma wp_parse_opts {S} oo E (Q : option PubKeyOptions → S → Prop) s :
  opts_ok oo → Q (opts_value oo) s → wp (svr_parse_pubkey_options stale (opts_buf oo)) E Q s.
Proof.
  destruct oo as [opts|]; [|by intros _ ?; apply wp_ret]. intros [Hb Hl] HQ. by apply wp_parse_fresh.
Qed.

(** The pieces of a line around the space at [p] and the base64 text. *)
Lemma line_pieces (d : list Z) (p a n l : Z) :
  0 ≤ p → 0 ≤ a → 0 ≤ n → p + a + 1 + n ≤ l → l ≤ zlen d →
  slice 0 l d = slice 0 p d ++ slice p a d ++ [nth (Z.to_nat (p + a)) d 0] ++ slice (p + a + 1) n d ++
                slice (p + a + 1 + n) (l - (p + a + 1 + n)) d.
Proof.
  intros. replace l with (p + (a + (1 + (n + (l - (p + a + 1 + n)))))) at 1 by lia.
  rewrite (slice_app_split 0 p), (slice_app_split (0 + p) a), Z.add_0_l by lia.
  rewrite slice_cons by lia. rewrite slice_app_split by lia. done.
Qed.

(** The optional comment: the cursor may move, nothing else. *)
Lemma wp_info_str fuel E (Q : option (list Z) → buffer → Prop) b :
  wf_buf b → chars_ok char_signed (contents b) → b_len b - b_pos b ≤ Z.of_nat fuel → b_len b ≤ MAX_AUTHKEYS_LINE →
  (∀ info b', safe_info info → scanned b b' → Q info b') →
  wp (let infopos := b_pos b in
      let* infolen := info_loop char_signed fuel 0 in
      if infolen >? 0 then
        do* buf_setpos infopos;
        let* p := buf_getptr infolen in
        let* bs := mem_load p infolen in
        ret (Some bs)
      else ret None) E Q b.
Proof.
  intros Hwf Hch Hf Hlen HQ. cbv zeta. pose proof Hwf as (?&?&?&?). apply wp_bind.
  eapply wp_exit_mono; [eapply wp_mono; [by apply wp_info_loop|]|by intros ?].
  intros r b1 [Hs Hr]. pose proof (scanned_same _ _ Hs) as (Hl1&Hd1&Hp1&Hwf1). apply wp_if; intros Hpos.
  - destruct Hr as [->|(n&->&Hn0&_&Hn&Hall)]; [done|]. rewrite Z.add_0_l in *.
    apply wp_bind, wp_buf_setpos; [|lia]. intros _.
    apply wp_bind, wp_buf_getptr; [apply wf_set_pos; [done|lia]|lia| |cbn; lia]. intros _. cbn [set_pos b_pos].
    apply wp_bind, wp_mem_load; cbn [set_pos b_data]; [lia|lia|rewrite Hd1; lia|]. rewrite Hd1. apply wp_ret, HQ; [done|].
    destruct Hs as [_ (m&Hm&->)]. unfold set_pos; cbn. split; [done|]. exists 0. split; [lia|].
    rewrite Z.add_0_r. by destruct b.
  - by apply wp_ret, HQ.
Qed.

(** The type and the key stand next. *)
Definition key_at algo keyblob oo (b : buffer) : Prop :=
  ∃ b64 post, remaining b = algo ++ [32] ++ b64 ++ post ∧ encodes_key algo keyblob b64 ∧
    (post = [] ∨ nth 0 post 0 = 32) ∧ opts_value oo ≠ None.

(** What a blob that does not start with the key type, or a line of blanks
    only, can lead to. *)
Definition ill_named algo keyblob (e : string) : Prop := ¬ named_blob algo keyblob.

Lemma b64_end (l1 l2 r1 r2 : list Z) :
  l1 ++ r1 = l2 ++ r2 → forallb (λ c, negb (c =? 32)) l1 = true → forallb (λ c, negb (c =? 32)) l2 = true →
  (r1 = [] ∨ nth 0 r1 0 = 32) → (r2 = [] ∨ nth 0 r2 0 = 32) → l1 = l2.
Proof.
  intros Heq H1 H2 Hr1 Hr2. eapply span_unique; [exact Heq|exact H1|exact H2| |].
  all: intros c r ->; cbn [nth] in *; destruct Hr1, Hr2; naive_solver.
Qed.

Lemma wp_line_key algo keyblob oo b :
  wf_buf b → chars_ok char_signed (contents b) → b_len b ≤ MAX_AUTHKEYS_LINE → opts_ok oo →
  slice (b_pos b) (zlen algo) (b_data b) = algo → b_pos b + zlen algo + 3 ≤ b_len b →
  (∀ o, opts_value oo = Some o → line_prefix (slice 0 (b_pos b) (b_data b)) o) →
  slice 0 (b_pos b) (b_data b) = [] ∨ ¬ algo `prefix_of` contents b →
  wp (line_key base64_decode stale char_signed algo keyblob (opts_buf oo)) (ill_named algo keyblob)
    (λ r b', wf_buf b' ∧ b_size b' = b_size b ∧
      match r with Some o => allows_key algo keyblob (contents b) o | None => ¬ key_at algo keyblob oo b end) b.
Proof using base64_ok.
  intros Hwf Hch Hlen Hoo Halgo Hroom Hpre Hfst. pose proof (zlen_nonneg algo). pose proof Hwf as (?&?&?&?).
  apply wp_bind, wp_get. cbv zeta. apply wp_bind, wp_buf_incrpos; [done|done| |lia]. intros _.
  assert (Hwf1 : wf_buf (after_get (zlen algo) b)) by (apply wf_after_get; [done|lia..]).
  apply wp_bind, wp_getbyte_in; [done|cbn; lia|]. cbn [after_get set_pos b_pos b_data].
  set (c := nth _ _ _).
  set (b1 := after_get 1 (after_get (zlen algo) b)). set (q := b_pos b + zlen algo + 1).
  assert (Hwf2 : wf_buf b1) by (apply wf_after_get; [done|lia|cbn; lia]).
  assert (Hrem1 : remaining b = algo ++ c :: remaining b1).
  { unfold remaining. replace (b_len b - b_pos b) with (zlen algo + (b_len b - b_pos b - zlen algo)) by lia.
    rewrite slice_app_split, Halgo by lia. f_equal. fold (remaining (after_get (zlen algo) b)).
    replace (slice _ _ _) with (remaining (after_get (zlen algo) b)) by (unfold remaining; cbn; f_equal; lia).
    by rewrite remaining_cons by (done || cbn; lia). }
  assert (Hat : ∀ b64 post, remaining b = algo ++ [32] ++ b64 ++ post → c = 32 ∧ remaining b1 = b64 ++ post).
  { intros b64 post Hr. rewrite Hrem1 in Hr. apply app_inv_head in Hr. cbn [app] in Hr. by injection Hr. }
  apply wp_if; intros Hc.
  { apply wp_ret. split_and!; [done|done|]. intros (b64&post&Hr&_). apply Hat in Hr as [-> _]. done. }
  apply negb_false_iff, Z.eqb_eq in Hc.
  assert (Hq : b_pos b1 = q) by (cbn; lia).
  apply wp_bind, wp_get. rewrite Hq. apply wp_bind.
  eapply wp_exit_mono; [eapply wp_mono; [apply wp_base64_loop; [done|cbn; lia]|]|by intros ?].
  intros len b2 (n&->&Hs2&(Hn0&_&Hn&Hall)&Hend). rewrite Z.add_0_l. rewrite Hq in *.
  pose proof (scanned_same _ _ Hs2) as (Hl2&Hd2&Hp2&Hwf3). change (b_len b1) with (b_len b) in *. change (b_data b1) with (b_data b) in *.
  apply wp_bind, wp_get. apply wp_bind_assoc, wp_bind.
  unshelve (apply wp_info_str; [done|by unfold contents; rewrite Hl2, Hd2|cbn; lia|lia|]). intros info b3 Hinfo Hs3.
  pose proof (scanned_same _ _ Hs3) as (Hl3&Hd3&Hp3&Hwf4). pose proof Hwf4 as (?&?&?&?).
  assert (Hsz : b_size b3 = b_size b).
  { destruct Hs2 as [_ (m2&_&->)], Hs3 as [_ (m3&_&->)]. done. }
  apply wp_bind, wp_buf_setpos; [|intros; exfalso; lia]. intros Hq3. apply wp_bind, wp_get. cbn [set_pos b_pos].
  pose proof Hlen as Hlen'. unfold MAX_AUTHKEYS_LINE in Hlen'. rewrite u32_small by lia.
  apply wp_bind, wp_buf_setlen; [|cbn [set_pos b_size]; intros; exfalso; lia]. intros _. cbn [set_pos b_data b_pos b_size].
  rewrite Z.min_l by lia. rewrite Hsz, Hd3, Hd2. set (b4 := mkbuf (b_data b) (q + n) q (b_size b)).
  assert (Hwf5 : wf_buf b4) by (split_and!; cbn; [lia..|done]).
  assert (Hrem : remaining b4 = slice q n (b_data b)) by (unfold remaining; cbn; f_equal; lia).
  set (post := slice (q + n) (b_len b - (q + n)) (b_data b)) in *.
  assert (Hpost : post = [] ∨ nth 0 post 0 = 32).
  { unfold post. destruct Hend as [(_&Hlt&H32)|(_&Heq)].
    + right. replace (b_len b - (q + n)) with (1 + (b_len b - (q + n) - 1)) by lia. rewrite slice_cons by lia.
      cbn [nth]. lia.
    + left. by replace (b_len b - (q + n)) with 0 by lia. }
  assert (Hsplit : remaining b1 = slice q n (b_data b) ++ post).
  { unfold remaining, post. rewrite Hq. change (b_len b1) with (b_len b). change (b_data b1) with (b_data b).
    replace (b_len b - q) with (n + (b_len b - (q + n))) by lia. by rewrite slice_app_split by lia. }
  assert (Hnone : ∀ b64 p, remaining b = algo ++ [32] ++ b64 ++ p → forallb (λ c, negb (c =? 32)) b64 = true →
    p = [] ∨ nth 0 p 0 = 32 → b64 = slice q n (b_data b)).
  { intros b64 p Hr Hb Hp. apply Hat in Hr as [_ Hr]. rewrite Hsplit in Hr. symmetry. by eapply b64_end. }
  apply wp_bind, wp_cmp_base64_key; [done|cbn; lia| |by intros ? ?| |].
  { lia. }
  { rewrite Hrem. intros Hno. apply wp_ret. split_and!; [done|done|]. intros (b64&p&Hr&(Hb&Hdec&Hnm)&Hp&_).
    apply Hno. by rewrite <-(Hnone b64 p). }
  rewrite Hrem. intros [Hdec Hblob]. apply wp_bind, wp_parse_opts; [done|]. apply wp_ret. split_and!; [done|done|].
  destruct (opts_value oo) as [o0|] eqn:Hov; [|by intros (b64&p&_&_&_&?)].
  exists (slice 0 (b_pos b) (b_data b)), (slice q n (b_data b)), post, o0, info.
  split_and!; [|by apply Hpre|exact Hfst|by split_and!|done|done|done].
  unfold contents. rewrite (line_pieces _ (b_pos b) (zlen algo) n) by lia. rewrite Halgo. fold c. by rewrite Hc.
Qed.

(** The key type is next on a line long enough to hold a key. *)
Definition at_algo algo (b : buffer) : Prop :=
  slice (b_pos b) (zlen algo) (b_data b) = algo ∧ b_pos b + zlen algo + 3 ≤ b_len b.

Lemma too_short_exact algo b :
  wf_buf b → b_len b ≤ MAX_AUTHKEYS_LINE → zlen algo ≤ MAX_AUTHKEYS_LINE →
  too_short algo b = negb (b_pos b + zlen algo + 3 <=? b_len b).
Proof.
  intros (?&_) Hl Ha. unfold MAX_AUTHKEYS_LINE in *. pose proof (zlen_nonneg algo). unfold too_short.
  rewrite u32_small by lia. lia.
Qed.

Lemma wp_algo_next algo E (Q : bool → buffer → Prop) b :
  wf_buf b → b_pos b + zlen algo + 3 ≤ b_len b → (at_algo algo b → Q true b) → (¬ at_algo algo b → Q false b) → wp (algo_next algo) E Q b.
Proof.
  intros Hwf Hl Ht Hf. pose proof (zlen_nonneg algo). pose proof Hwf as (?&?&?&?).
  apply wp_bind, wp_buf_getptr; [done|done| |lia]. intros _. apply wp_bind, wp_mem_load; [lia..|]. apply wp_ret.
  destruct (bytes_eqb _ algo) eqn:Heq; [apply Ht; split; [by apply bytes_eqb_true|done]|].
  apply Hf. intros [Hat _]. unfold bytes_eqb in Heq. by rewrite bool_decide_eq_true_2 in Heq.
Qed.

Lemma plain_app opts rest : plain_name opts → plain_name (opts ++ rest).
Proof. destruct opts; [by intros [? _]|done]. Qed.

Lemma wp_line_options algo b :
  wf_buf b → b_pos b = 0 → b_len b ≤ MAX_AUTHKEYS_LINE → zlen algo ≤ MAX_AUTHKEYS_LINE →
  wp (line_options algo) (λ _, forallb is_blank (contents b) = true) (λ r b', scanned b b' ∧
    let found Q := ∀ blanks opts sep rest, contents b = blanks ++ opts ++ [sep] ++ algo ++ rest → before_type blanks opts sep →
      3 ≤ zlen rest → Q opts (zlen (blanks ++ opts ++ [sep])) in
    match r with
    | Some ob => at_algo algo b' ∧ ∃ opts, Some ob = opts_buf (Some opts) ∧ opts_ok (Some opts) ∧
        (∀ o, options_of opts = Some o → line_prefix (slice 0 (b_pos b') (b_data b')) o) ∧
        found (λ opts0 p, opts0 = opts ∧ b_pos b' = p)
    | None => found (λ _ _, False)
    end) b.
Proof.
  intros Hwf Hp0 Hlen Halgo. pose proof Hwf as (?&?&?&?). apply wp_bind, wp_get. cbv zeta.
  apply wp_bind. eapply wp_exit_mono; [eapply wp_mono; [apply wp_skip_blanks; [done|lia]|]|by intros ?].
  intros comment b1 (Hs1&Hcom&Hbl). apply wp_if; intros Hcm.
  { apply wp_ret. split; [done|]. intros blanks opts sep rest Hc (Hb&_&Ho&_). exfalso.
    specialize (Hcom Hcm). unfold remaining in Hcom. rewrite Hp0, Z.sub_0_r in Hcom. fold (contents b) in Hcom.
    rewrite Hc, commented_blanks, plain_uncommented in Hcom by done. done. }
  destruct (Hbl Hcm) as (n&->&Hrun&Hnext). pose proof Hrun as (Hn0&_&Hn&Hblanks). rewrite Hp0, Z.add_0_l in *.
  assert (Hwf1 : wf_buf (set_pos n b)) by apply (proj1 Hs1).
  apply wp_bind, wp_buf_getptr; [done|lia| |].
  2: { cbn [set_pos b_len b_pos]. intros ?. unfold contents. by replace (b_len b) with n by lia. }
  intros Hn1. cbn [set_pos b_pos].
  apply wp_bind. eapply wp_exit_mono; [eapply wp_mono; [apply wp_options_loop; [done|cbn [set_pos b_len b_pos]; lia]|]|by intros ?].
  intros len b2 (m&->&(Hs2&(Hm0&_&Hm&_)&Hend)&Hword&Honly). rewrite Z.add_0_l.
  pose proof (scanned_trans _ _ _ Hs1 Hs2) as Hs. pose proof (scanned_same _ _ Hs) as (Hl2&Hd2&Hp2&Hwf2).
  cbn [set_pos b_pos b_len b_data] in *. pose proof Hlen as Hlen'. unfold MAX_AUTHKEYS_LINE in Hlen'.
  set (opts := slice n m (b_data b)) in *. assert (Hol : zlen opts = m) by (apply zlen_slice; lia).
  assert (Hfound : ∀ blanks opts0 sep rest, contents b = blanks ++ opts0 ++ [sep] ++ algo ++ rest → before_type blanks opts0 sep →
    n = zlen blanks ∧ opts = opts0 ∧ b_pos b2 = zlen (blanks ++ opts0 ++ [sep]) ∧
    b_len b = b_pos b2 + zlen algo + zlen rest ∧ at_algo algo b2 ∨ zlen rest < 3).
  { intros blanks opts0 sep rest Hc (Hb&Hsep&Hpl&Hone). destruct (Z_lt_le_dec (zlen rest) 3) as [|Hr3]; [by right|left].
    assert (n = zlen blanks) as Hnb.
    { apply (skipped_to blanks (opts0 ++ [sep] ++ algo ++ rest) n b); [done|exact Hp0|exact Hc|done|by apply plain_app|done|].
      intros Hx. apply (Hnext Hx). }
    assert (Hrem : remaining (set_pos n b) = opts0 ++ sep :: algo ++ rest).
    { unfold remaining. cbn [set_pos b_pos b_len b_data]. unfold contents in Hc. replace (b_len b) with (n + (b_len b - n)) in Hc at 1 by lia.
      rewrite slice_app_split in Hc by lia. apply app_inj_1 in Hc as [_ Hc]; [exact Hc|].
      assert (Hz : zlen (slice 0 n (b_data b)) = n) by (apply zlen_slice; lia). unfold zlen in *. lia. }
    destruct (Honly _ _ _ Hrem Hone Hsep) as [Hmo Hlt].
    assert (Hlb : b_len b = zlen blanks + (zlen opts0 + (1 + (zlen algo + zlen rest)))).
    { rewrite <-(contents_length b Hwf), Hc, !zlen_app. done. }
    assert (Hp : b_pos b2 = zlen (blanks ++ opts0 ++ [sep])).
    { rewrite !zlen_app. change (zlen [sep]) with 1. destruct Hend as [(?&_)|(?&?)]; lia. }
    assert (Hcut : ∀ o k, 0 ≤ o → 0 ≤ k → o + k ≤ b_len b → slice o k (b_data b) = slice o k (contents b)).
    { intros. by apply slice_contents. }
    split_and!; [done| |done| |split].
    - unfold opts. rewrite Hcut, Hc by lia. by apply slice_app_exact.
    - rewrite Hp, Hlb, !zlen_app. change (zlen [sep]) with 1. lia.
    - rewrite Hd2, Hcut by (rewrite ?Hp, ?Hlb, ?zlen_app; change (zlen [sep]) with 1; pose proof (zlen_nonneg blanks); pose proof (zlen_nonneg opts0); pose proof (zlen_nonneg algo); lia).
      rewrite Hc. rewrite (app_assoc opts0), (app_assoc blanks). by apply slice_app_exact.
    - rewrite Hl2, Hp, Hlb, !zlen_app. change (zlen [sep]) with 1. lia. }
  apply wp_bind, wp_buf_new; [|unfold BUF_MAX_SIZE; lia]. intros _.
  apply wp_bind, wp_mem_load; [lia|lia|rewrite Hd2; lia|]. rewrite Hd2. fold opts.
  assert (Hob : bytes_ok opts) by (by apply bytes_ok_slice).
  apply wp_bind, wp_on_new, wp_buf_putbytes; [apply wf_new; unfold BUF_MAX_SIZE; lia|done| |cbn [b_pos b_size]; lia].
  intros _. apply wp_bind, wp_get. rewrite too_short_exact by (unfold MAX_AUTHKEYS_LINE; lia || done).
  apply wp_if; intros Hts.
  { apply wp_ret. split; [done|]. intros blanks opts0 sep rest Hc Hbt Hr. exfalso.
    destruct (Hfound _ _ _ _ Hc Hbt) as [(_&_&_&?&_)|?]; lia. }
  apply wp_bind, wp_algo_next; [done|lia| |].
  2: { intros Hno. apply wp_ret. split; [done|]. intros blanks opts0 sep rest Hc Hbt Hr. exfalso.
    destruct (Hfound _ _ _ _ Hc Hbt) as [(_&_&_&_&?)|?]; [done|lia]. }
  intros Hat. apply wp_ret. split; [done|]. split; [done|]. exists opts. split; [cbn; by rewrite Hol|].
  split; [split; [done|unfold BUF_MAX_SIZE; lia]|]. split.
  2: { intros blanks opts0 sep rest Hc Hbt Hr. destruct (Hfound _ _ _ _ Hc Hbt) as [(_&<-&?&_&_)|?]; [done|lia]. }
  intros o Ho. right. destruct Hend as [(Hpe&Hlt&Hsep)|(Hpe&Heq)]; [|pose proof (zlen_nonneg algo); lia].
  exists (slice 0 n (b_data b)), opts, (nth (Z.to_nat (n + m)) (b_data b) 0).
  destruct (Hnext ltac:(lia)) as [Hnb Hn35]. split; [|split; [|done]].
  2: { split; [done|]. split; [done|]. split; [|by apply Hword]. unfold plain_name, opts. assert (Hm1 : 0 < m).
       { destruct (Z.eq_dec m 0) as [->|]; [|lia]. rewrite Z.add_0_r in Hsep. congruence. }
       replace m with (1 + (m - 1)) by lia. by rewrite slice_cons by lia. }
  rewrite Hd2, Hpe. replace (n + m + 1) with (n + (m + (1 + 0))) by lia.
  rewrite (slice_app_split 0 n), (slice_app_split (0 + n) m), slice_cons by lia. done.
Qed.

(** *** A line, and the file *)

(** The reader ends the process only for a blob that does not start with the
    name of its type, and at a line of nothing but blanks. *)
Definition line_exit algo keyblob line (e : string) : Prop :=
  ill_named algo keyblob e ∨ readable line ∧ forallb is_blank line = true.

Lemma b64_two algo keyblob b64 : encodes_key algo keyblob b64 → 2 ≤ zlen b64.
Proof using base64_ok.
  intros (_&Hdec&rest&->). apply base64_ok in Hdec as [Hz _]. rewrite !zlen_app, STORE32H_length in Hz.
  pose proof (zlen_nonneg algo). pose proof (zlen_nonneg rest). lia.
Qed.

Lemma allows_room algo keyblob line o :
  allows_key algo keyblob line o → zlen algo + 3 ≤ zlen line.
Proof using base64_ok.
  intros (pre&b64&post&o0&info&->&_&_&Henc&_). apply b64_two in Henc. rewrite !zlen_app. change (zlen [32]) with 1.
  pose proof (zlen_nonneg pre). pose proof (zlen_nonneg post). lia.
Qed.

(** At its first byte a line has the type, or has options before it. *)
Lemma allows_first algo keyblob line o b :
  wf_buf b → b_pos b = 0 → contents b = line → allows_key algo keyblob line o → at_algo algo b → key_at algo keyblob None b.
Proof.
  intros Hwf Hp Hc (pre&b64&post&o0&info&Hline&_&Hpre&Henc&Hpost&_) [Hat Hroom]. pose proof (zlen_nonneg algo).
  destruct Hpre as [->|[]].
  - exists b64, post. split; [|done]. by apply (remaining_at b []); rewrite ?Hc.
  - rewrite <-Hc. exists (slice (zlen algo) (b_len b - zlen algo) (b_data b)). rewrite Hp in *.
    rewrite <-Hat at 1. unfold contents. replace (b_len b) with (zlen algo + (b_len b - zlen algo)) at 1 by lia.
    by rewrite slice_app_split by lia.
Qed.

Lemma starts_at algo rest b :
  wf_buf b → b_pos b = 0 → contents b = algo ++ rest → 3 ≤ zlen rest → at_algo algo b.
Proof.
  intros Hwf Hp Hc Hr. pose proof (contents_length b Hwf) as Hl. rewrite Hc, zlen_app in Hl. pose proof (zlen_nonneg algo).
  split; [|lia]. rewrite Hp, slice_contents, Hc by (done || lia). rewrite slice_app_l by lia. apply slice_full.
Qed.

Lemma wp_checkpubkey_line algo keyblob b :
  wf_buf b → chars_ok char_signed (contents b) → b_pos b = 0 → b_size b = MAX_AUTHKEYS_LINE → zlen algo ≤ MAX_AUTHKEYS_LINE →
  wp (checkpubkey_line base64_decode stale char_signed algo keyblob) (line_exit algo keyblob (contents b))
    (λ r b', wf_buf b' ∧ b_size b' = b_size b ∧
      match r with
      | Some o => readable (contents b) ∧ allows_key algo keyblob (contents b) o
      | None => readable (contents b) → ∀ o, ¬ allows_key algo keyblob (contents b) o
      end) b.
Proof using base64_ok.
  intros Hwf Hch Hp0 Hsz Halgo. pose proof Hwf as (?&?&?&?). pose proof (contents_length b Hwf) as Hlc. apply wp_bind, wp_get.
  apply wp_if; intros Hlen; [apply wp_ret; split_and!; [done|done|intros [? _]; lia]|]. apply wp_bind, wp_mem_load; [lia..|]. fold (contents b).
  apply wp_if; intros Hnul.
  { apply wp_ret. split_and!; [done|done|]. intros [_ []]. apply existsb_exists in Hnul as (x&Hx&?). apply list_elem_of_In.
    by replace 0 with x by lia. }
  assert (Hread : readable (contents b)).
  { split; [lia|]. intros Hin. assert (existsb (Z.eqb 0) (contents b) = true); [|congruence]. apply existsb_exists. exists 0.
    split; [by apply list_elem_of_In|done]. }
  apply wp_bind, wp_get. rewrite too_short_exact by (unfold MAX_AUTHKEYS_LINE in *; lia || done).
  apply wp_if; intros Hts.
  { apply wp_ret. split_and!; [done|done|]. intros _ o Ha. apply allows_room in Ha. lia. }
  apply wp_bind, wp_algo_next; [done|lia| |].
  - intros Hat. pose proof Hat as [Hat1 Hroom].
    eapply wp_exit_mono; [eapply wp_mono; [apply (wp_line_key algo keyblob None); [done|done|lia|done|done|done| |]|]|by left].
    + intros o [= <-]. left. by rewrite Hp0.
    + left. by rewrite Hp0.
    + intros r b' (?&?&Hr). split_and!; [done|done|]. destruct r as [o|]; [done|]. intros _ o Ha. by eapply Hr, allows_first.
  - intros Hno. apply wp_bind. eapply wp_exit_mono; [eapply wp_mono; [apply wp_line_options; [done|done|lia|done]|]|by right].
    intros r b1 [Hs Hr]. cbv zeta in Hr.
    pose proof (scanned_same _ _ Hs) as (Hl1&Hd1&Hp1&Hwf1).
    assert (Hsz1 : b_size b1 = b_size b) by (by destruct Hs as [_ (m&_&->)]).
    assert (Hpre : ∀ o, allows_key algo keyblob (contents b) o → ∃ blanks opts sep b64 post o0,
      contents b = blanks ++ opts ++ [sep] ++ algo ++ [32] ++ b64 ++ post ∧ before_type blanks opts sep ∧
      encodes_key algo keyblob b64 ∧ (post = [] ∨ nth 0 post 0 = 32) ∧ options_of opts = Some o0 ∧ 3 ≤ zlen ([32] ++ b64 ++ post)).
    { intros o (pre&b64&post&o0&info&Hline&Hpre&_&Henc&Hpost&_).
      assert (Hthree : 3 ≤ zlen ([32] ++ b64 ++ post)).
      { apply b64_two in Henc. rewrite !zlen_app. change (zlen [32]) with 1. pose proof (zlen_nonneg post). lia. }
      destruct Hpre as [[-> _]|(blanks&opts&sep&->&Hbt&Ho)]; [destruct Hno; by eapply starts_at|].
      exists blanks, opts, sep, b64, post, o0. rewrite <-!app_assoc in Hline. by split_and!. }
    destruct r as [ob|].
    + destruct Hr as ([Hat Hroom]&opts&->&Hoo&Hlp&Honly).
      assert (Hc1 : contents b1 = contents b) by (unfold contents; by rewrite Hl1, Hd1).
      eapply wp_exit_mono; [eapply wp_mono; [apply (wp_line_key algo keyblob (Some opts)); [done|by rewrite Hc1|lia|done|done|done|exact Hlp|]|]|by left].
      * right. rewrite Hc1. intros [rest Hrest]. apply Hno. pose proof (zlen_nonneg algo). split; [|lia].
        rewrite Hp0, slice_contents, Hrest by (done || lia). rewrite slice_app_l by lia. apply slice_full.
      * intros r b' (?&?&Hr'). rewrite Hc1 in Hr'. split_and!; [done|lia|]. destruct r as [o|]; [done|]. intros _ o Ha.
        destruct (Hpre o Ha) as (blanks&opts0&sep&b64&post&o0&Hline&Hbt&Henc&Hpost&Ho&Hthree).
        destruct (Honly _ _ _ _ Hline Hbt Hthree) as [-> Hpos]. apply Hr'. exists b64, post. split; [|split_and!; [apply Henc..|done|cbn [opts_value]; by rewrite Ho]].
        apply (remaining_at b1 (blanks ++ opts ++ [sep])); [done| |exact Hpos]. by rewrite Hc1, Hline, <-!app_assoc.
    + apply wp_ret. split_and!; [done|done|]. intros _ o Ha.
      destruct (Hpre o Ha) as (blanks&opts0&sep&b64&post&o0&Hline&Hbt&_&_&_&Hthree). exact (Hr _ _ _ _ Hline Hbt Hthree).
Qed.

(** The search goes through the lines of the file. *)
Definition searched algo keyblob (lines : list (list Z)) (r : option PubKeyOptions) : Prop :=
  match r with
  | Some o => ∃ line, line ∈ lines ∧ readable line ∧ allows_key algo keyblob line o
  | None => ∀ line o, line ∈ lines → readable line → ¬ allows_key algo keyblob line o
  end.

Lemma wp_checkpubkey_lines fuel algo keyblob file b :
  (length file < fuel)%nat → bytes_ok file → chars_ok char_signed file →
  wf_buf b → b_size b = MAX_AUTHKEYS_LINE → zlen algo ≤ MAX_AUTHKEYS_LINE →
  let lines := file_lines MAX_AUTHKEYS_LINE [] file in
  wp (checkpubkey_lines base64_decode stale char_signed fuel algo keyblob file)
    (λ e, ∃ line, line ∈ lines ∧ line_exit algo keyblob line e) (λ r _, searched algo keyblob lines r) b.
Proof using base64_ok.
  cbv zeta. revert file b. induction fuel as [|fuel IH]; intros file b Hf Hfile Hch Hwf Hsz Halgo; [lia|]. cbn [checkpubkey_lines].
  apply wp_bind. eapply wp_exit_mono; [eapply wp_mono; [apply (wp_buf_getline MAX_AUTHKEYS_LINE ltac:(done)); done|]|by intros ?].
  intros [more rest] b1 (Hwf1&Hs1&Hrest&Hmore). cbn [fst snd] in *. destruct more; cbn [negb].
  2: { apply wp_ret. rewrite Hmore. by intros line o ?%elem_of_nil. }
  destruct Hmore as (Hl&Hp1&Hlines). rewrite Hlines.
  assert (Hline : chars_ok char_signed (contents b1)).
  { intros Hs. eapply (file_lines_forall MAX_AUTHKEYS_LINE _ file []); [constructor|by apply Hch|]. rewrite Hlines. by apply list_elem_of_here. }
  apply wp_bind. eapply wp_exit_mono; [eapply wp_mono; [apply (wp_checkpubkey_line algo keyblob); done|]|].
  2: { intros e He. exists (contents b1). split; [by apply list_elem_of_here|done]. }
  intros [o|] b2 (Hwf2&Hs2&Hok).
  - apply wp_ret. exists (contents b1). split; [by apply list_elem_of_here|done].
  - eapply wp_exit_mono; [eapply wp_mono; [apply (IH rest); [lia|by apply (suffix_forall _ _ _ Hrest)| |done|congruence|done]|]|].
    + intros Hs. by apply (suffix_forall _ _ _ Hrest), Hch.
    + intros [o|] _ Hr; cbn [searched] in *.
      * destruct Hr as (line&Hin&?&?). exists line. split; [by apply list_elem_of_further|done].
      * intros line o [->|Hin]%elem_of_cons Hrd; [by apply Hok|by apply (Hr line o)].
    + intros e (line&Hin&He). exists line. split; [by apply list_elem_of_further|done].
Qed.

(** The search as [checkpubkey] runs it. *)
Definition search_keys {S} algo keyblob file : ST S (option PubKeyOptions) :=
  let* linebuf := buf_new MAX_AUTHKEYS_LINE in
  let* (r, _) := on_new linebuf (checkpubkey_lines base64_decode stale char_signed (Datatypes.S (length file)) algo keyblob file) in
  ret r.

(** A line of the file lets the key in, and is no comment. *)
Definition line_allows algo keyblob file (o : PubKeyOptions) : Prop :=
  ∃ line, line_of MAX_AUTHKEYS_LINE line file ∧ readable line ∧ commented line = false ∧ allows_key algo keyblob line o.

(** What the search may say: the options of such a line, or that there is
    none; and when it may end the process. *)
Definition search_answer algo keyblob file (r : option PubKeyOptions) : Prop :=
  match r with Some o => line_allows algo keyblob file o | None => ∀ o, ¬ line_allows algo keyblob file o end.
Definition search_exit algo keyblob file (e : string) : Prop :=
  ¬ named_blob algo keyblob ∨ ∃ line, line_of MAX_AUTHKEYS_LINE line file ∧ readable line ∧ forallb is_blank line = true.

Lemma readable_full line : readable line → line ≠ [].
Proof. by intros [? _] ->. Qed.

Lemma wp_search_keys {S} algo keyblob file (Q : option PubKeyOptions → S → Prop) s :
  bytes_ok file → chars_ok char_signed file → plain_name algo → zlen algo ≤ MAX_AUTHKEYS_LINE →
  (∀ r, search_answer algo keyblob file r → Q r s) →
  wp (search_keys algo keyblob file) (search_exit algo keyblob file) Q s.
Proof using base64_ok.
  intros Hfile Hch Hplain Halgo HQ.
  assert (Hof : ∀ line, readable line → line ∈ file_lines MAX_AUTHKEYS_LINE [] file ↔ line_of MAX_AUTHKEYS_LINE line file).
  { intros line Hr. apply elem_of_file_lines; [done|by apply readable_full]. }
  apply wp_bind, wp_buf_new; [|done]. intros _. apply wp_bind, wp_on_new.
  eapply wp_exit_mono; [eapply wp_mono; [apply (wp_checkpubkey_lines _ algo keyblob file); [lia|done|done|by apply wf_new|done|done]|]|].
  - intros r b' Hr. apply wp_ret, HQ. destruct r as [o|]; cbn [searched search_answer] in *.
    + destruct Hr as (line&Hin&Hrd&Hal). exists line. split_and!; [by apply Hof| |by eapply allows_key_uncommented|done]. done.
    + intros o (line&Hin&Hrd&_&Hal). by eapply Hr; [apply Hof| |].
  - intros e (line&Hin&[He|[Hrd Hb]]); [by left|]. right. exists line. split; [by apply Hof|done].
Qed.
End lines.

(** A line of blanks *)

Section blank_line.
Context (base64_decode : list Z → Z → option (list Z)) (stale char_signed : bool).

Lemma wp_skip_all_blanks fuel b :
  wf_buf b → b_len b - b_pos b ≤ Z.of_nat fuel → run_of is_blank (b_pos b) (b_len b - b_pos b) b →
  wp (skip_blanks fuel) no_exit (λ r b', r = false ∧ b' = set_pos (b_len b) b) b.
Proof.
  revert b. induction fuel as [|fuel IH]; intros b Hwf Hf Hr; cbn [skip_blanks]; pose proof Hwf as (?&?&?&?);
    apply wp_bind, wp_get; apply wp_if; intros Hc; try lia;
    try (apply wp_ret; split; [done|]; replace (b_len b) with (b_pos b) by lia; by destruct b).
  pose proof (scanned_1 b Hwf ltac:(lia)) as [Hwf1 _]. destruct Hr as (_&_&_&Hr).
  replace (b_len b - b_pos b) with (1 + (b_len b - (b_pos b + 1))) in Hr by lia.
  rewrite slice_cons in Hr by lia. cbn [forallb] in Hr. apply andb_prop in Hr as [Hb Hr].
  apply wp_bind, wp_getbyte_in; [done|lia|]. rewrite Hb.
  eapply wp_mono; [apply IH; [done|cbn; lia|]|].
  - cbn [after_get set_pos b_pos b_len]. split_and!; [lia|lia|cbn; lia|done].
  - by intros r b' [-> ->].
Qed.

(** C34: A line of blanks only, long enough to hold a key, is not skipped: the
    reader asks for the byte after the blanks, and [buf_getptr] ends the
    process. *)
Theorem blank_line_exits (algo keyblob : list Z) (b : buffer) :
  wf_buf b → b_pos b = 0 → MIN_AUTHKEYS_LINE ≤ b_len b ≤ MAX_AUTHKEYS_LINE → zlen algo + 3 ≤ b_len b →
  forallb is_blank (contents b) = true → is_blank (nth 0 algo 32) = false →
  checkpubkey_line base64_decode stale char_signed algo keyblob b = Exit "Bad buf_getptr".
Proof.
  intros Hwf Hp Hlen Hroom Hall Halgo. pose proof Hwf as (?&?&?&?).
  assert (Hw : wp (checkpubkey_line base64_decode stale char_signed algo keyblob) (λ e, e = "Bad buf_getptr"%string) (λ _ _, False) b).
  2: { unfold wp in Hw. destruct (checkpubkey_line _ _ _ _ _ b) as [[? ?]|e|?]; naive_solver. }
  apply wp_bind, wp_get. unfold MIN_AUTHKEYS_LINE in *. if_false. apply wp_bind, wp_mem_load; [lia..|].
  fold (contents b). replace (existsb (Z.eqb 0) (contents b)) with false.
  2: { symmetry. clear -Hall. induction (contents b) as [|c l IH]; [done|]. cbn [forallb existsb] in *.
    apply andb_prop in Hall as [Hc Hl]. rewrite IH by done. unfold is_blank in Hc.
    by replace (0 =? c) with false by lia. }
  apply wp_bind, wp_get. pose proof (zlen_nonneg algo).
  rewrite too_short_exact, Hp by (unfold MAX_AUTHKEYS_LINE in *; lia || done). if_false.
  apply wp_bind, wp_algo_next; [done|lia| |].
  - intros [Hat _]. exfalso. rewrite Hp in Hat.
    destruct algo as [|a algo]; [done|]. rewrite zlen_cons in *. cbn [nth] in Halgo.
    pose proof (zlen_nonneg algo). rewrite slice_cons in Hat by lia. injection Hat as Ha _.
    unfold contents in Hall. replace (b_len b) with (1 + (b_len b - 1)) in Hall by lia.
    rewrite slice_cons in Hall by lia. cbn [forallb] in Hall. rewrite Ha, Halgo in Hall. done.
  - intros _. apply wp_bind, wp_bind, wp_get. cbv zeta.
    apply wp_bind. eapply wp_exit_mono; [eapply wp_mono; [apply wp_skip_all_blanks; [done|lia|]|]|by intros ?].
    + rewrite Hp, Z.sub_0_r. split_and!; [lia|lia|lia|exact Hall].
    + intros r b1 [-> ->]. apply wp_bind, wp_buf_getptr; [by apply wf_set_pos; auto with lia|lia|cbn; lia|done].
Qed.

End blank_line.

(** ** Examples *)

(** A stand-in for base64: every byte is one more than the one it encodes. *)
Definition toy_base64 (text : list Z) (n : Z) : option (list Z) :=
  let out := map (λ c, c - 1) text in
  if bool_decide (bytes_ok out) && (zlen out <=? n) then Some out else None.

Lemma toy_base64_ok text n out : toy_base64 text n = Some out → zlen out ≤ n ∧ bytes_ok out.
Proof.
  unfold toy_base64. destruct (bool_decide _) eqn:Hb; cbn [andb]; [|done].
  destruct (Z.leb_spec (zlen (map (λ c, c - 1) text)) n); [|done]. intros [= <-].
  split; [done|]. by apply bool_decide_eq_true in Hb.
Qed.

Lemma blank_line_exits_witness :
  checkpubkey_line toy_base64 false true (bstr "ssh-rsa") [] (buf_of (replicate 12 32)) = Exit "Bad buf_getptr".
Proof.
  apply blank_line_exits; [|done|split; by apply Z.leb_le|by apply Z.leb_le|done|done].
  apply wf_buf_of; [decide_closed|by apply Z.leb_le].
Defined.

(** C33: Whatever authorized_keys holds, the search for a key ends, touches no
    memory outside its buffers, and lets the key in exactly if one of the lines
    of the file does: a line of 10 bytes or more, without NUL and no comment,
    on which the key's type is followed by a space and the base64 of exactly
    the key the client sent, and which starts with the type or has blanks,
    well-formed options and a blank before it.  The options applied are the
    line's, with a comment of allowed characters only.  The process ends only
    at a line of nothing but blanks, or for a blob that does not start with the
    name of its type.  A line is a whole line of less than 4200 bytes or, of a
    longer one, what follows the dropped multiples of 4200 bytes.  Of
    libtomcrypt, its decoder fills at most the length it is given; where [char]
    is signed, the file has only characters [isalnum] is defined on. *)
Theorem authorized_keys_sound (base64_decode : list Z → Z → option (list Z)) (stale char_signed : bool) (algo keyblob file : list Z) :
  (∀ text n out, base64_decode text n = Some out → zlen out ≤ n ∧ bytes_ok out) →
  bytes_ok file → chars_ok char_signed file → plain_name algo → zlen algo ≤ MAX_AUTHKEYS_LINE →
  let allowing o line := line_of MAX_AUTHKEYS_LINE line file ∧ readable line ∧ commented line = false ∧
    allows_key base64_decode stale algo keyblob line o in
  wp (search_keys base64_decode stale char_signed algo keyblob file)
    (λ _, ¬ named_blob algo keyblob ∨ ∃ line, line_of MAX_AUTHKEYS_LINE line file ∧ readable line ∧ forallb is_blank line = true)
    (λ r _, match r with
            | Some o => ∃ line, allowing o line
            | None => ∀ o line, ¬ allowing o line
            end) tt.
Proof.
  intros H64 Hfile Hch Hplain Halgo. cbv zeta. apply wp_search_keys; [done..|]. intros [o|] Hr; cbn [search_answer] in Hr; [exact Hr|].
  intros o line Hl. apply (Hr o). by exists line.
Qed.

Definition toy_blob : list Z := STORE32H 7 ++ bstr "ssh-rsa" ++ [1; 2; 3].
Definition toy_keys : list Z :=
  bstr "# keys" ++ [10] ++ bstr "restrict ssh-rsa " ++ map (Z.add 1) toy_blob ++ bstr " me@host" ++ [10].

Lemma authorized_keys_sound_witness :
  match search_keys toy_base64 false true (bstr "ssh-rsa") toy_blob toy_keys tt with
  | Ok (Some o, _) => no_pty_flag o = true ∧ info_env o = Some (bstr "me@host") ∧
      ∃ line, line_of MAX_AUTHKEYS_LINE line toy_keys ∧ readable line ∧ commented line = false ∧
        allows_key toy_base64 false (bstr "ssh-rsa") toy_blob line o
  | _ => False
  end.
Proof.
  assert (Hch : Forall (λ c, c < 128) toy_keys) by decide_closed.
  pose proof (authorized_keys_sound toy_base64 false true (bstr "ssh-rsa") toy_blob toy_keys toy_base64_ok
    ltac:(decide_closed) (λ _, Hch) ltac:(done) ltac:(by apply Z.leb_le)) as H.
  assert (Hrun : match search_keys toy_base64 false true (bstr "ssh-rsa") toy_blob toy_keys tt with
    | Ok (Some o, _) => bool_decide (no_pty_flag o = true ∧ info_env o = Some (bstr "me@host"))
    | _ => false end = true) by (by vm_compute).
  unfold wp in H. destruct (search_keys _ _ _ _ _ _ _) as [[[o|] ?]|?|?]; try done.
  apply bool_decide_eq_true in Hrun as [? ?]. split_and!; [done|done|exact H].
Defined.

(** A commented-out key is not found, nor one behind a mark in the middle. *)
Example comment_ignored :
  search_keys toy_base64 false true (bstr "ssh-rsa") toy_blob (bstr "#restrict ssh-rsa " ++ map (Z.add 1) toy_blob ++ [10]) tt = Ok (None, tt).
Proof. by vm_compute. Qed.

(** What follows the 4200 bytes that fill the buffer is read as a line of its
    own: the key at the end of a line with 4200 comment marks
    is found. *)
Example long_line_tail :
  match search_keys toy_base64 false true (bstr "ssh-rsa") toy_blob
          (replicate 4200 35 ++ bstr "ssh-rsa " ++ map (Z.add 1) toy_blob ++ [10]) tt with
  | Ok (Some _, _) => True
  | _ => False
  end.
Proof. by vm_compute. Qed.

(** Where [char] is signed, a byte from 128 on in the comment of a key goes to
    [isalnum] as a negative number. *)
Example comment_not_ascii :
  search_keys toy_base64 false true (bstr "ssh-rsa") toy_blob
    (bstr "ssh-rsa " ++ map (Z.add 1) toy_blob ++ [32; 195; 164; 10]) tt = Fault "isalnum of a negative char".
Proof. by vm_compute. Qed.
