(* ===== verification/KnownHosts.v ===== *)
(** * The client's known hosts (src/src/cli-kex.c)

    [checkhostkey]: the search of ~/.ssh/known_hosts for the server's key, the
    question to the user when there is no entry, and the entry that is added.
    The file, the user's answer and base64 are given; the file is opened
    before ([None] when that failed), its creation is left out, and so are the
    messages with fingerprints.

    Theorem: the key is only accepted when the file has it, when the user
    vouched for it, or when the check is turned off. *)

From Stdlib Require Import ZArith Lia.
From stdpp Require Import base list strings.
From S2P Require Import Prelude.
From S2P Require Import Buffer.
From S2P Require Import Algo.
From S2P Require Import KeyTypes.
From S2P Require Import AuthKeys.
From S2P Require Import AuthLines.

Definition MAX_KNOWNHOSTS_LINE : Z := 4500.

(** The part of [cli_opts] used here. *)
Record cli_runopts := mkcliopts {
  remotehost : list Z;
  no_hostkey_check : bool;
  ask_hostkey : bool;
  always_accept_key : bool;
  batch_mode : bool
}.

(** ~/.ssh/known_hosts as [open_known_hosts_file] finds it, and the character
    the user will type. *)
Record hostfile := mkhosts {
  hf_content : option (list Z);
  hf_readonly : bool;
  hf_answer : Z
}.
Definition set_hf_content (v : option (list Z)) (h : hostfile) : hostfile :=
  mkhosts v (hf_readonly h) (hf_answer h).

Section checkhostkey.
(** libtomcrypt: the text, or nothing if it does not fit. *)
Context (base64_decode base64_encode : list Z → Z → option (list Z)) (opts : cli_runopts).

Definition ask_to_confirm : ST hostfile unit :=
  if negb (ask_hostkey opts) then dropbear_exit "Not accepted automatically"
  else if always_accept_key opts then ret tt
  else if batch_mode opts then dropbear_exit "Didn't validate host key"
  else
    let* h := get in
    if hf_answer h =? 121 then ret tt else dropbear_exit "Didn't validate host key".

(** One line of the file: whether it has the key; an entry with another key
    ends the process. *)
Definition known_line (algoname keyblob : list Z) : ST buffer bool :=
  let hostlen := zlen (remotehost opts) in
  let algolen := zlen algoname in
  let* line := get in
  if b_len line <? u32 (hostlen + 30) then ret false
  else
    let* p := buf_getptr hostlen in
    let* host := mem_load p hostlen in
    if negb (bytes_eqb host (remotehost opts)) then ret false
    else
      do* buf_incrpos hostlen;
      let* c := buf_getbyte in
      if negb (c =? 32) then ret false
      else
        let* p := buf_getptr algolen in
        let* algo := mem_load p algolen in
        if negb (bytes_eqb algo algoname) then ret false
        else
          do* buf_incrpos algolen;
          let* c := buf_getbyte in
          if negb (c =? 32) then ret false
          else
            let* ok := cmp_base64_key base64_decode keyblob algoname in
            if ok then ret true else dropbear_exit "%s host key mismatch for %s !".

Fixpoint known_lines (fuel : nat) (algoname keyblob file : list Z) : ST buffer bool :=
  match fuel with
  | O => fault "out of fuel"
  | S fuel =>
      let* (more, rest) := buf_getline file in
      if negb more then ret false
      else
        let* ok := known_line algoname keyblob in
        if ok then ret true else known_lines fuel algoname keyblob rest
  end.

(** The entry for the key, written over [line].  Without room for the text
    [base64_encode] sets [len] past the end of the buffer. *)
Definition put_entry (algoname keyblob : list Z) : ST buffer unit :=
  do* buf_setpos 0;
  do* buf_setlen 0;
  do* buf_putbytes (remotehost opts);
  do* buf_putbyte 32;
  do* buf_putbytes algoname;
  do* buf_putbyte 32;
  let* line := get in
  let len := u32 (b_size line - b_pos line) in
  let* p := buf_getwriteptr len in
  match base64_encode keyblob len with
  | None => dropbear_exit "Bad buf_incrwritepos"
  | Some text =>
      do* mem_store p text;
      do* buf_incrwritepos (zlen text);
      do* buf_putbyte 10;
      buf_setpos 0
  end.

Definition checkhostkey (keyblob : list Z) (hostkey_type : Z) : ST hostfile unit :=
  if no_hostkey_check opts then ret tt
  else
    let* algoname := signkey_name_from_type hostkey_type in
    let* h := get in
    match hf_content h with
    | None => ask_to_confirm
    | Some file =>
        let* line := buf_new MAX_KNOWNHOSTS_LINE in
        let* (known, line) := on_new line (known_lines (S (length file)) algoname keyblob file) in
        if known then ret tt
        else
          do* ask_to_confirm;
          if hf_readonly h then ret tt
          else
            let* (_, line) := on_new line (put_entry algoname keyblob) in
            modify (set_hf_content (Some (file ++ contents line)))
    end.
End checkhostkey.

(** ** What a known host is *)

Section sound.
Context (base64_decode base64_encode : list Z → Z → option (list Z)) (opts : cli_runopts).
Context (base64_ok : ∀ text n out, base64_decode text n = Some out → zlen out ≤ n ∧ bytes_ok out).

(** The line names the host and the type and encodes the key. *)
Definition vouches (algoname keyblob line : list Z) : Prop :=
  ∃ text, line = remotehost opts ++ [32] ++ algoname ++ [32] ++ text ∧
    base64_decode text (2 * zlen text) = Some keyblob ∧
    ∃ rest, keyblob = STORE32H (zlen algoname) ++ algoname ++ rest.

(** The line has an entry for the host and the type, with whatever key. *)
Definition names_host (algoname line : list Z) : Prop :=
  ∃ rest, line = remotehost opts ++ [32] ++ algoname ++ [32] ++ rest ∧ zlen (remotehost opts) + 30 ≤ zlen line.

(** Where the parts of such a line are. *)
Lemma names_host_parts algoname b :
  wf_buf b → names_host algoname (contents b) →
  let n := zlen (remotehost opts) in let m := zlen algoname in
  n + 30 ≤ b_len b ∧ slice 0 n (b_data b) = remotehost opts ∧ nth (Z.to_nat n) (b_data b) 0 = 32 ∧
  (n + 1 + m ≤ b_len b → slice (n + 1) m (b_data b) = algoname) ∧
  (n + 1 + m < b_len b → nth (Z.to_nat (n + 1 + m)) (b_data b) 0 = 32).
Proof.
  intros Hwf (rest&Hc&Hl). cbv zeta. rewrite contents_length in Hl by done. pose proof Hwf as (?&?&?&?).
  set (host := remotehost opts) in *. pose proof (zlen_nonneg host). pose proof (zlen_nonneg algoname).
  assert (Hcut : b_data b = contents b ++ drop (Z.to_nat (b_len b)) (b_data b)).
  { unfold contents, slice. change (Z.to_nat 0) with 0%nat. rewrite drop_0. symmetry. apply take_drop. }
  set (tl := drop (Z.to_nat (b_len b)) (b_data b)) in *. rewrite Hc, <-!app_assoc in Hcut.
  split_and!; [done|rewrite Hcut; by apply (slice_app_exact 0 _ [])| |intros _|intros _].
  - rewrite Hcut, app_nth2 by (unfold zlen; lia). replace (_ - _)%nat with 0%nat by (unfold zlen; lia). done.
  - rewrite Hcut, (app_assoc host). apply slice_app_exact; [by rewrite zlen_app|done].
  - rewrite Hcut, (app_assoc host), (app_assoc (host ++ [32])), app_nth2 by (rewrite !length_app; unfold zlen; cbn; lia).
    replace (_ - _)%nat with 0%nat by (rewrite !length_app; unfold zlen; cbn; lia). done.
Qed.

Lemma wp_known_line algoname keyblob b :
  wf_buf b → b_pos b = 0 → b_size b = MAX_KNOWNHOSTS_LINE → zlen (remotehost opts) < 2 ^ 31 →
  wp (known_line base64_decode opts algoname keyblob) any_exit
    (λ ok b', wf_buf b' ∧ b_size b' = b_size b ∧
       if ok then vouches algoname keyblob (contents b) else ¬ names_host algoname (contents b)) b.
Proof using base64_ok.
  intros Hwf Hp Hsz Hh. pose proof Hwf as (?&?&Hd&Hb). unfold MAX_KNOWNHOSTS_LINE in Hsz.
  pose proof (names_host_parts algoname b Hwf) as Hparts.
  set (host := remotehost opts) in *. pose proof (zlen_nonneg host). pose proof (zlen_nonneg algoname).
  assert (Hno : ∀ b', scanned b b' → ¬ names_host algoname (contents b) → wp (ret false) any_exit
    (λ (ok : bool) b', wf_buf b' ∧ b_size b' = b_size b ∧
       if ok then vouches algoname keyblob (contents b) else ¬ names_host algoname (contents b)) b').
  { intros b' [Hw' (n&_&->)] Hnot. by apply wp_ret; split_and!. }
  unfold known_line. fold host. apply wp_bind, wp_get. rewrite u32_small by lia.
  apply wp_if; intros Hl; [apply Hno; [by apply scanned_refl|]; intros (?&_)%Hparts; lia|]. rewrite Z.ltb_ge in Hl.
  apply wp_bind, wp_buf_getptr; [done|lia| |done]. intros _. apply wp_bind, wp_mem_load; [lia..|]. rewrite Hp.
  apply wp_if; intros Hhost.
  { apply Hno; [by apply scanned_refl|]. intros (_&Hx&_)%Hparts. unfold bytes_eqb in Hhost. rewrite Hx in Hhost. by rewrite bool_decide_eq_true_2 in Hhost. }
  apply negb_false_iff, bytes_eqb_true in Hhost.
  apply wp_bind, wp_buf_incrpos; [done|lia| |done]. intros _.
  assert (Hs1 : scanned b (after_get (zlen host) b)) by (apply scanned_get; [done|lia|lia]).
  apply wp_bind, wp_getbyte_in; [apply Hs1|cbn; lia|].
  assert (Hs2 : scanned b (after_get 1 (after_get (zlen host) b))).
  { eapply scanned_trans; [exact Hs1|]. apply scanned_1; [apply Hs1|cbn; lia]. }
  cbn [after_get set_pos b_pos b_data]. rewrite Hp, Z.add_0_l.
  apply wp_if; intros Hc1; [apply Hno; [done|]; intros (_&_&Hx&_)%Hparts; by rewrite Hx in Hc1|].
  apply wp_bind, wp_buf_getptr; [apply Hs2|lia| |done]. cbn [after_get set_pos b_pos b_len]. intros Hl2.
  rewrite Hp, Z.add_0_l in Hl2.
  apply wp_bind, wp_mem_load; cbn [after_get set_pos b_pos b_len b_data]; [lia|lia|lia|]. rewrite Hp, Z.add_0_l.
  apply wp_if; intros Halgo.
  { apply Hno; [done|]. intros (_&_&_&Hx&_)%Hparts. unfold bytes_eqb in Halgo. rewrite Hx in Halgo by lia. by rewrite bool_decide_eq_true_2 in Halgo. }
  apply negb_false_iff, bytes_eqb_true in Halgo.
  apply wp_bind, wp_buf_incrpos; [apply Hs2|lia| |cbn; lia]. intros _.
  assert (Hs3 : scanned b (after_get (zlen algoname) (after_get 1 (after_get (zlen host) b)))).
  { eapply scanned_trans; [exact Hs2|]. apply scanned_get; [apply Hs2|lia|cbn; lia]. }
  apply wp_bind, wp_buf_getbyte; [apply Hs3| |done]. intros Hl3. cbn [after_get set_pos b_pos b_len b_data] in Hl3.
  rewrite nth_slice1 by (cbn; lia). cbn [after_get set_pos b_pos b_data]. rewrite Hp, Z.add_0_l in *.
  assert (Hs4 : scanned b (after_get 1 (after_get (zlen algoname) (after_get 1 (after_get (zlen host) b))))).
  { eapply scanned_trans; [exact Hs3|]. apply scanned_1; [apply Hs3|cbn; lia]. }
  apply wp_if; intros Hc2; [apply Hno; [done|]; intros (_&_&_&_&Hx)%Hparts; by rewrite Hx in Hc2 by lia|]. set (b4 := after_get 1 (after_get (zlen algoname) (after_get 1 (after_get (zlen host) b)))) in *.
  apply wp_bind, wp_cmp_base64_key; [done|apply Hs4|cbn; lia|lia|done|done|]. intros [Hdec Hrest]. apply wp_ret.
  split_and!; [apply Hs4|done|]. exists (remaining b4). split_and!; [|done|done].
  apply negb_false_iff, Z.eqb_eq in Hc1. apply negb_false_iff, Z.eqb_eq in Hc2.
  unfold contents, remaining. cbn [b4 after_get set_pos b_pos b_len b_data]. rewrite Hp, Z.add_0_l in *. set (n := zlen host) in *. set (m := zlen algoname) in *.
  replace (b_len b) with (n + (1 + (m + (1 + (b_len b - (n + 1 + m + 1)))))) at 1 by lia.
  rewrite (slice_app_split 0 n), Hhost, Z.add_0_l by lia. f_equal.
  rewrite slice_cons, Hc1 by lia. cbn [app]. f_equal.
  rewrite (slice_app_split _ m), Halgo by lia. f_equal. rewrite slice_cons, Hc2 by lia. done.
Qed.

Lemma wp_known_lines fuel algoname keyblob file b :
  (length file < fuel)%nat → bytes_ok file → wf_buf b → b_size b = MAX_KNOWNHOSTS_LINE → zlen (remotehost opts) < 2 ^ 31 →
  wp (known_lines base64_decode opts fuel algoname keyblob file) any_exit
    (λ ok b', wf_buf b' ∧ b_size b' = b_size b ∧
       if ok then ∃ line, line ∈ file_lines MAX_KNOWNHOSTS_LINE [] file ∧ vouches algoname keyblob line
       else ∀ line, line ∈ file_lines MAX_KNOWNHOSTS_LINE [] file → ¬ names_host algoname line) b.
Proof using base64_ok.
  revert file b. induction fuel as [|fuel IH]; intros file b Hf Hfile Hwf Hsz Hh; [lia|]. cbn [known_lines].
  apply wp_bind. eapply wp_exit_mono; [eapply wp_mono; [apply (wp_buf_getline MAX_KNOWNHOSTS_LINE ltac:(done)); done|]|by intros ?].
  intros [more rest] b1 (Hwf1&Hs1&Hrest&Hmore). cbn [fst snd] in *. apply wp_if; intros Hm.
  { apply negb_true_iff in Hm as ->. apply wp_ret. split_and!; [done|congruence|]. rewrite Hmore. by intros line ?%elem_of_nil. }
  apply negb_false_iff in Hm as ->. destruct Hmore as (Hl&Hp1&Hlines).
  apply wp_bind. eapply wp_mono; [apply wp_known_line; [done|done|by rewrite Hs1|done]|].
  intros [] b2 (Hwf2&Hs2&Hok).
  - apply wp_ret. split_and!; [done|congruence|]. exists (contents b1). rewrite Hlines. split; [by apply list_elem_of_here|done].
  - eapply wp_mono; [apply IH; [lia|by apply (suffix_forall _ _ _ Hrest)|done|congruence|done]|]. intros ok b' (?&?&Hr).
    split_and!; [done|congruence|]. rewrite Hlines. destruct ok.
    + destruct Hr as (line&Hin&Hv). exists line. split; [by apply list_elem_of_further|done].
    + intros line [->|Hin]%elem_of_cons; [done|by apply Hr].
Qed.

(** The user lets an unknown key through. *)
Definition confirmed (h : hostfile) : Prop :=
  ask_hostkey opts = true ∧ (always_accept_key opts = true ∨ batch_mode opts = false ∧ hf_answer h = 121).

Lemma wp_ask_to_confirm (Q : unit → hostfile → Prop) h :
  (confirmed h → Q tt h) → wp (ask_to_confirm opts) any_exit Q h.
Proof.
  intros HQ. unfold ask_to_confirm, confirmed in *. destruct (ask_hostkey opts); [|done].
  destruct (always_accept_key opts); [apply HQ; auto|]. destruct (batch_mode opts); [done|]. cbn [negb].
  apply wp_bind, wp_get, wp_if; intros Hc; [|done]. apply HQ. split; [done|]. right. split; [done|lia].
Qed.

(** The line for a key. *)
Definition entry (algoname text : list Z) : list Z := remotehost opts ++ [32] ++ algoname ++ [32] ++ text ++ [10].

(** The room for the text in the line buffer. *)
Definition entry_room (algoname : list Z) : Z := MAX_KNOWNHOSTS_LINE - (zlen (remotehost opts) + 1 + zlen algoname + 1).

Context (encode_ok : ∀ bs n text, base64_encode bs n = Some text → zlen text ≤ n ∧ bytes_ok text).
Context (host_ok : bytes_ok (remotehost opts)).

Lemma wp_put_entry algoname keyblob (Q : unit → buffer → Prop) b :
  wf_buf b → b_size b = MAX_KNOWNHOSTS_LINE → bytes_ok algoname →
  (∀ text b', wf_buf b' → base64_encode keyblob (entry_room algoname) = Some text → contents b' = entry algoname text → Q tt b') →
  wp (put_entry base64_encode opts algoname keyblob) any_exit Q b.
Proof using encode_ok host_ok.
  intros Hwf Hsz Ha HQ. pose proof Hwf as (?&?&?&?). unfold MAX_KNOWNHOSTS_LINE in Hsz.
  apply wp_bind, wp_buf_setpos; [|lia]. intros _. apply wp_bind, wp_buf_setlen; [|cbn; lia]. intros _.
  assert (Hacc0 : ∀ b', b' = mkbuf (b_data b) 0 0 (b_size b) → buf_acc [] b').
  { intros b' ->. split_and!; [|done|done]. split_and!; cbn; try lia; done. }
  apply wp_bind. eapply appends_bytes; [done|apply Hacc0; cbn; by f_equal; lia| |done]. cbn [b_size set_pos]. intros b1 Ha1 E1.
  apply wp_bind. eapply appends_byte; [done|exact Ha1| |done]. intros b2 Ha2 E2.
  apply wp_bind. eapply appends_bytes; [done|exact Ha2| |done]. intros b3 Ha3 E3.
  apply wp_bind. eapply appends_byte; [done|exact Ha3| |done]. intros b4 Ha4 E4.
  apply wp_bind, wp_get. pose proof Ha4 as (Hw4&_). pose proof Hw4 as (?&?&?&?). rewrite u32_small by lia.
  apply wp_bind, wp_buf_getwriteptr; [done|lia| |lia]. intros _.
  destruct (base64_encode keyblob (b_size b4 - b_pos b4)) as [text|] eqn:Ht; [|done]. destruct (encode_ok _ _ _ Ht) as [Hl Htb].
  pose proof (zlen_nonneg text). apply wp_bind, wp_mem_store; [lia..|].
  pose proof (buf_acc_pos _ _ Ha4) as Hp4.
  assert (Hws : wf_buf (mkbuf (splice (b_pos b4) text (b_data b4)) (b_len b4) (b_pos b4) (b_size b4))).
  { split_and!; cbn; try lia; [rewrite zlen_splice; lia|by apply bytes_ok_splice]. }
  apply wp_bind, wp_buf_incrwritepos; [exact Hws|lia| |cbn; lia]. cbn [b_data b_len b_pos b_size]. intros _.
  assert (Ha5 : buf_acc ((((([] ++ remotehost opts) ++ [32]) ++ algoname) ++ [32]) ++ text) (after_put text b4)).
  { apply buf_acc_put; [done|done|lia]. }
  change (mkbuf (splice (b_pos b4) text (b_data b4)) (Z.max (b_len b4) (b_pos b4 + zlen text)) (b_pos b4 + zlen text) (b_size b4))
    with (after_put text b4).
  apply wp_bind. eapply appends_byte; [done|exact Ha5| |done]. intros b6 (Hw6&_&Hc6) _. pose proof Hw6 as (?&?&?&?).
  assert (Hroom : b_size b4 - b_pos b4 = entry_room algoname).
  { unfold entry_room, MAX_KNOWNHOSTS_LINE. rewrite Hp4, !zlen_app. change (zlen [32]) with 1. change (zlen (@nil Z)) with 0. lia. }
  rewrite Hroom in Ht.
  apply wp_buf_setpos; [|lia]. intros _. eapply HQ; [by apply wf_set_pos; [done|lia]|exact Ht|].
  change (contents (set_pos 0 b6)) with (contents b6). rewrite Hc6. unfold entry. cbn [app]. by rewrite <-!app_assoc.
Qed.

Lemma signkey_name_bytes type name : signkey_names !! type = Some name → bytes_ok name.
Proof. intros Hn. assert (H : Forall bytes_ok signkey_names) by decide_closed. by eapply Forall_lookup_1 in H. Qed.

(** No line of the file has the host with a key of the type. *)
Definition unlisted (algoname : list Z) (h : hostfile) : Prop :=
  ∀ file line, hf_content h = Some file → line_of MAX_KNOWNHOSTS_LINE line file → ¬ names_host algoname line.

(** The key goes to the end of the file, if it can be written. *)
Definition recorded (algoname keyblob : list Z) (h h' : hostfile) : Prop :=
  match hf_content h with
  | Some file =>
      if hf_readonly h then h' = h
      else ∃ text, base64_encode keyblob (entry_room algoname) = Some text ∧
             h' = set_hf_content (Some (file ++ entry algoname text)) h
  | None => h' = h
  end.

(** What the check has established when it lets the client go on. *)
Definition trusted (keyblob : list Z) (type : Z) (h h' : hostfile) : Prop :=
  (no_hostkey_check opts = true ∧ h' = h) ∨
  ∃ algoname, signkey_names !! Z.to_nat type = Some algoname ∧
    ((∃ file line, hf_content h = Some file ∧ line_of MAX_KNOWNHOSTS_LINE line file ∧ vouches algoname keyblob line ∧ h' = h) ∨
     (confirmed h ∧ unlisted algoname h ∧ recorded algoname keyblob h h')).

Lemma wp_checkhostkey keyblob type h :
  (∀ file, hf_content h = Some file → bytes_ok file) → zlen (remotehost opts) < 2 ^ 31 →
  wp (checkhostkey base64_decode base64_encode opts keyblob type) any_exit (λ _ h', trusted keyblob type h h') h.
Proof using base64_ok encode_ok host_ok.
  intros Hfile Hh. unfold checkhostkey. apply wp_if; intros Hno; [by apply wp_ret; left|].
  apply wp_bind. unfold signkey_name_from_type. destruct (signkey_names !! Z.to_nat type) as [algoname|] eqn:Hname; [|done].
  assert (Hask : ∀ h', confirmed h → unlisted algoname h → recorded algoname keyblob h h' → trusted keyblob type h h')
    by (intros h' ???; right; exists algoname; split; [done|by right]).
  assert (Hne : ∀ rest, remotehost opts ++ [32] ++ rest ≠ []) by (intros rest [_ ?]%app_eq_nil; done).
  apply wp_ret, wp_bind, wp_get. unfold recorded in Hask. destruct (hf_content h) as [file|] eqn:Hc.
  2: { apply wp_ask_to_confirm. intros Hconf. apply Hask; [done|intros ? ? Hx; congruence|done]. }
  apply wp_bind, wp_buf_new; [|done]. intros _. apply wp_bind, wp_on_new.
  eapply wp_mono; [apply wp_known_lines; [lia|by apply Hfile|by apply wf_new|done|done]|].
  intros known b (Hw&Hs&Hk). apply wp_if; intros Hkn; subst known.
  { destruct Hk as (line&Hin&Hv). apply wp_ret. right. exists algoname. split; [done|]. left. exists file, line.
    split_and!; [done| |done|done]. apply file_lines_whole; [done| |done]. destruct Hv as (text&->&_). apply Hne. }
  assert (Hun : unlisted algoname h).
  { intros f line Hf Hl Hn. assert (f = file) as -> by congruence. apply (Hk line); [|done].
    apply elem_of_file_lines; [done| |done]. destruct Hn as (rest&->&_). apply Hne. }
  apply wp_bind, wp_ask_to_confirm. intros Hconf. destruct (hf_readonly h) eqn:Hro; [by apply wp_ret, Hask|].
  apply wp_bind, wp_on_new, wp_put_entry; [done|by rewrite Hs|by eapply signkey_name_bytes|]. intros text b' Hw' Htext Hcb.
  apply wp_modify, Hask; [done|done|]. exists text. by rewrite Hcb.
Qed.
End sound.

(** C30: A host key is only accepted for a reason.  On any known_hosts file
    [checkhostkey] stays inside its buffers; when it lets the client go on,
    the check is turned off; or a line of the file names the host and the key
    type and encodes exactly this key; or no line names the host with that
    type, the user vouched for the key (or options do), and then its entry has
    been added to the file, unless there is none or it cannot be written. *)
Theorem known_hosts_sound (base64_decode base64_encode : list Z → Z → option (list Z)) (opts : cli_runopts)
    (keyblob : list Z) (type : Z) (h : hostfile) :
  (∀ text n out, base64_decode text n = Some out → zlen out ≤ n ∧ bytes_ok out) →
  (∀ bs n text, base64_encode bs n = Some text → zlen text ≤ n ∧ bytes_ok text) →
  bytes_ok (remotehost opts) → zlen (remotehost opts) < 2 ^ 31 →
  (∀ file, hf_content h = Some file → bytes_ok file) →
  wp (checkhostkey base64_decode base64_encode opts keyblob type) any_exit
     (λ _ h', trusted base64_decode base64_encode opts keyblob type h h') h.
Proof. intros. by apply wp_checkhostkey. Qed.

Definition toy_cliopts : cli_runopts := mkcliopts (bstr "host") false true true false.
Definition toy_encode (bs : list Z) (n : Z) : option (list Z) :=
  let text := map (Z.add 1) bs in
  if bool_decide (bytes_ok text) && (zlen text <=? n) then Some text else None.
Definition toy_hostkey : list Z := STORE32H 11 ++ bstr "ssh-ed25519" ++ replicate 16 5.
Definition toy_hosts : hostfile :=
  mkhosts (Some (bstr "other ssh-ed25519 abcdefghijklmnopq" ++ [10] ++ bstr "host ssh-ed25519 " ++ map (Z.add 1) toy_hostkey ++ [10]))
    false 110.

Example known_key : checkhostkey toy_base64 toy_encode toy_cliopts toy_hostkey 5 toy_hosts = Ok (tt, toy_hosts).
Proof. by vm_compute. Qed.
(** An entry with another key is an error, although the user would accept any. *)
Example other_key : checkhostkey toy_base64 toy_encode toy_cliopts (toy_hostkey ++ [1]) 5 toy_hosts = Exit "%s host key mismatch for %s !".
Proof. by vm_compute. Qed.

Lemma known_hosts_sound_witness :
  wp (checkhostkey toy_base64 toy_encode toy_cliopts toy_hostkey DROPBEAR_SIGNKEY_ED25519) any_exit
     (λ _ h', trusted toy_base64 toy_encode toy_cliopts toy_hostkey DROPBEAR_SIGNKEY_ED25519 toy_hosts h') toy_hosts.
Proof.
  apply known_hosts_sound; [apply toy_base64_ok| |decide_closed|by vm_compute|].
  - intros bs n text. unfold toy_encode. destruct (bool_decide _) eqn:Hb; cbn [andb]; [|done].
    destruct (Z.leb_spec (zlen (map (Z.add 1) bs)) n); [|done]. intros [= <-].
    split; [done|]. by apply bool_decide_eq_true in Hb.
  - intros file [= <-]. decide_closed.
Defined.
