(* ===== verification/SvrKex.v ===== *)
(** * The server's side of the exchange (src/src/svr-kex.c)

    Reading the client's share, the reply with the host key, our share and the
    signature over the exchange hash, and what follows it: NEWKEYS, EXT_INFO,
    and the other host keys taken out of use.

    The files with host keys are given; CHECKCLEARTOWRITE is the interface of
    the packet layer (Transport.v). *)

From Stdlib Require Import ZArith Lia.
From stdpp Require Import base list strings.
From S2P Require Import Prelude.
From S2P Require Import Buffer.
From S2P Require Import Random.
From S2P Require Import Algo.
From S2P Require Import Cipher.
From S2P Require Import KeyTypes.
From S2P Require Import Ecc.
From S2P Require Import SignKey.
From S2P Require Import Session.
From S2P Require Import Packet.
From S2P Require Import Kex.
From S2P Require Import KexMethods.

Definition SSH_MSG_EXT_INFO : Z := 7.
Definition SSH_SERVER_SIG_ALGS : list Z := bstr "server-sig-algs".

(** The part of [svr_opts] used here; [readhostkey] is the loading of a key
    file into the host key, [signkey_generate] whether a key could be made,
    and [rereadhostkey] the loading after that. *)
Record svr_runopts := mksvropts {
  delay_hostkey : bool;
  readhostkey : list Z → sign_key → Z → option sign_key;
  signkey_generate : Z → list Z → bool;
  rereadhostkey : list Z → sign_key → Z → option sign_key
}.

(** The session with the server's host key and its table of signature
    algorithms. *)
Section state.
Context {CL : CryptoLib}.
Record svrkex := mksvrkex {
  kst : sshsession;
  svr_hostkey : sign_key;
  svr_sigalgs : list (algo_type unit unit)
}.
Definition set_kst (v : sshsession) (s : svrkex) : svrkex := mksvrkex v (svr_hostkey s) (svr_sigalgs s).
Definition set_svr_hostkey (v : sign_key) (s : svrkex) : svrkex := mksvrkex (kst s) v (svr_sigalgs s).
Definition set_svr_sigalgs (v : list (algo_type unit unit)) (s : svrkex) : svrkex := mksvrkex (kst s) (svr_hostkey s) v.
End state.

(** A share as it was read: the mpint of Diffie-Hellman or the string of the
    other methods. *)
Inductive share := ShareInt (e : Z) | ShareString (q : buffer).

Section svrkex.
Context {CL : CryptoLib} {ML : MpLib} {EL : EccLib} {DL : Ed25519Lib} {XL : Curve25519Lib}
  (opts : svr_runopts) (fuel : nat).

Definition on_kst {A} : ST sshsession A → ST svrkex A := zoom kst set_kst.

(** Writing the payload with the generator at hand. *)
Definition on_genpayload {A} : ST (rng * buffer) A → ST sshsession A :=
  zoom (λ s, (w_rng (wld s), writepayload (pkt s)))
       (λ x s, on_pkt (set_writepayload x.2) (on_wld (set_w_rng x.1) s)).

(** The string or number at the cursor, by the negotiated method. *)
Definition get_share : ST sshsession share :=
  let* kex := newkeys_kex in
  match k_mode kex with
  | DROPBEAR_KEX_NORMAL_DH =>
      let* e := on_payload buf_getmpint in
      let* e := or_exit e "Bad kex value" in
      ret (ShareInt e)
  | _ => let* q := on_payload buf_getstringbuf in ret (ShareString q)
  end.

Definition hostkey_filename (type : Z) : ST svrkex (list Z) :=
  if type =? DROPBEAR_SIGNKEY_RSA then ret (bstr "/etc/dropbear/dropbear_rsa_host_key")
  else if signkey_is_ecdsa type then ret (bstr "/etc/dropbear/dropbear_ecdsa_host_key")
  else if type =? DROPBEAR_SIGNKEY_ED25519 then ret (bstr "/etc/dropbear/dropbear_ed25519_host_key")
  else do* dropbear_assert false "0"; ret [].

(** Whether the host key has a key of the type. *)
Definition has_key (key : sign_key) (type : Z) : bool :=
  if type =? DROPBEAR_SIGNKEY_RSA then some_b (rsakey key)
  else if is_ecc type then some_b (signkey_key_ptr key type)
  else if is_ed type then some_b (ed25519key key)
  else false.

Definition svr_ensure_hostkey : ST svrkex unit :=
  let* type := on_kst newkeys_hostkey in
  let* s := get in
  if has_key (svr_hostkey s) type then ret tt
  else
    let* fn := hostkey_filename type in
    match readhostkey opts fn (svr_hostkey s) type with
    | Some key => modify (set_svr_hostkey key)
    | None =>
        if negb (signkey_generate opts type fn) then dropbear_exit "Couldn't read or generate hostkey %s"
        else
          match rereadhostkey opts fn (svr_hostkey s) type with
          | Some key => modify (set_svr_hostkey key)
          | None => dropbear_exit "Couldn't read or generate hostkey %s"
          end
    end.

Definition share_int {S} (x : share) : ST S Z :=
  match x with ShareInt e => ret e | _ => fault "uninitialised dh_e" end.
Definition share_string {S} (x : share) : ST S buffer :=
  match x with ShareString q => ret q | _ => fault "null pointer" end.

(** Our share into the reply. *)
Definition put_our_share (hostkey : sign_key) (them : share) : ST sshsession unit :=
  let* kex := newkeys_kex in
  match k_mode kex with
  | DROPBEAR_KEX_NORMAL_DH =>
      let* param := gen_kexdh_param fuel in
      let* e := share_int them in
      do* kexdh_comb_key param e hostkey;
      on_writepayload (buf_putmpint (dh_pub param))
  | DROPBEAR_KEX_ECDH =>
      let* param := gen_kexecdh_param in
      let* q_c := share_string them in
      do* kexecdh_comb_key param q_c hostkey;
      on_writepayload (buf_put_ecc_raw_pubkey_string (ecdh_key param))
  | DROPBEAR_KEX_CURVE25519 =>
      let* param := gen_kexcurve25519_param in
      let* q_c := share_string them in
      do* kexcurve25519_comb_key param q_c hostkey;
      on_writepayload (buf_putstring (c_pub param))
  | DROPBEAR_KEX_PQHYBRID =>
      let* param := gen_kexpqhybrid_param in
      let* q_c := share_string them in
      let* param := kexpqhybrid_comb_key param q_c hostkey in
      let* public := ptr (concat_public param) in
      on_writepayload (buf_putbufstring public)
  end.

Definition send_msg_kexdh_reply (them : share) : ST svrkex unit :=
  do* when (delay_hostkey opts) svr_ensure_hostkey;
  let* s := get in
  let hostkey := svr_hostkey s in
  on_kst
    (do* on_writepayload (buf_putbyte SSH_MSG_KEXDH_REPLY);
     let* type := newkeys_hostkey in
     do* on_writepayload (buf_put_pub_key hostkey type);
     do* put_our_share hostkey them;
     let* s := get in
     let* nk := ptr (newkeys s) in
     let* hash := ptr (hash (kexdat s)) in
     do* on_genpayload (buf_put_sign fuel hostkey (algo_signature nk) hash);
     encrypt_packet).

Definition send_msg_ext_info : ST svrkex unit :=
  let* s := get in
  on_kst
    (do* on_writepayload (buf_putbyte SSH_MSG_EXT_INFO);
     do* on_writepayload (buf_putint 1);
     do* on_writepayload (buf_putstring SSH_SERVER_SIG_ALGS);
     do* on_writepayload (buf_put_algolist_all (svr_sigalgs s) true);
     encrypt_packet).

(** svr-runopts.c *)
Definition disable_sig_except (allow_type : Z) (algs : list (algo_type unit unit)) : list (algo_type unit unit) :=
  map (λ a, if negb (a_val a =? allow_type) then mkalgo (a_name a) (a_val a) (a_data a) false (a_mode a) else a) algs.

(** The exchange up to our reply. *)
Definition answer_kexdh_init : ST svrkex unit :=
  let* s := get in
  do* exit_if (negb (recvkexinit (kexstate (kst s)))) "Premature kexdh_init message received";
  let* them := on_kst get_share in
  let* b := on_kst (on_payload get) in
  do* exit_if (negb (b_pos b =? b_len b)) "Bad kex value";
  send_msg_kexdh_reply them.

Definition recv_msg_kexdh_init : ST svrkex unit :=
  do* answer_kexdh_init;
  do* on_kst send_msg_newkeys;
  let* s := get in
  do* when (negb (donesecondkex (kexstate (kst s))) && allow_ext_info (kexdat (kst s))) send_msg_ext_info;
  let* s := get in
  do* when (negb (donesecondkex (kexstate (kst s))))
    (let* nk := ptr (newkeys (kst s)) in
     modify (λ s, set_svr_sigalgs (disable_sig_except (algo_signature nk) (svr_sigalgs s)) s));
  on_kst (modify (on_pkt (set_requirenext SSH_MSG_NEWKEYS))).
End svrkex.
