(* ===== verification/KexPeer.v ===== *)
(** * Our share and the peer's

    The steps around the methods of KexShare.v: reading the peer's value from
    the packet, making a parameter of our own, and writing our value into a
    message, for both roles (src/src/svr-kex.c, cli-kex.c). *)

From Stdlib Require Import ZArith Lia.
From stdpp Require Import base list strings.
From S2P Require Import Prelude.
From S2P Require Import Buffer.
From S2P Require Import Random.
From S2P Require Import Algo.
From S2P Require Import Cipher.
From S2P Require Import KeyTypes.
From S2P Require Import Ecc.
From S2P Require Import SignKey.
From S2P Require Import SignKeyRead.
From S2P Require Import SignVerify.
From S2P Require Import SignAgree.
From S2P Require Import Session.
From S2P Require Import Packet.
From S2P Require Import PacketRecv.
From S2P Require Import PacketSend.
From S2P Require Import Transport.
From S2P Require Import Kex.
From S2P Require Import KexKeys.
From S2P Require Import KexInit.
From S2P Require Import KexMethods.
From S2P Require Import KexShare.
From S2P Require Import SvrKex.

(** ** Reading the peer's value *)

(** The payload in focus. *)
Definition pay {CL : CryptoLib} (s : sshsession) (b : buffer) : sshsession := on_pkt (set_payload (Some b)) s.

Lemma pay_self {CL : CryptoLib} s b : payload (pkt s) = Some b → s = pay s b.
Proof. destruct s as [? [] ? ? ? ? ? ?]. cbn. by intros ->. Qed.

Lemma wp_pay {CL : CryptoLib} {A} (m : ST buffer A) E Q s b :
  wp m E (λ a b', Q a (pay s b')) b → wp (on_payload m) E Q (pay s b).
Proof. intros H. by eapply wp_zoom_ptr. Qed.

(** A value of the kind the method exchanges. *)
Definition them_ok (kex : dropbear_kex) (f : Buffer.field) : Prop :=
  match k_mode kex, f with
  | DROPBEAR_KEX_NORMAL_DH, FMpint e => 0 ≤ e
  | DROPBEAR_KEX_NORMAL_DH, _ => False
  | _, FString bs => field_ok f
  | _, _ => False
  end.
Definition share_of (f : Buffer.field) : share :=
  match f with FMpint e => ShareInt e | FString bs => ShareString (buf_of bs) | _ => ShareInt 0 end.

Lemma wp_at_stringbuf bs E (Q : buffer → buffer → Prop) b :
  wf_buf b → field_ok (FString bs) → at_cursor b (enc_field (FString bs)) →
  Q (buf_of bs) (after_get (zlen (enc_field (FString bs))) b) → wp buf_getstringbuf E Q b.
Proof.
  intros Hwf [Hb Hl] Hat HQ. pose proof Hat as Hat0. cbn [enc_field] in Hat.
  apply at_cursor_app in Hat as [[H1 H2] Hat]; [|done]. rewrite STORE32H_length in *.
  assert (Hv : LOAD32H (slice (b_pos b) 4 (b_data b)) = zlen bs).
  { rewrite H2. apply LOAD32H_STORE32H. pose proof (zlen_nonneg bs). unfold MAX_STRING_LEN, MAX_CMD_LEN in Hl.
    unfold u32_ok. lia. }
  destruct Hat as [H3 H4]. cbn [after_get set_pos b_pos b_len b_data] in H3, H4.
  apply wp_buf_getstringbuf_int; [done|rewrite Hv|rewrite Hv; intros Hno; lia].
  intros _ _. cbn [app]. rewrite H4. rewrite string_field_length in HQ. exact HQ.
Qed.

(** What both roles do to read the value: in the end [R] holds of it and of
    the rest of the packet. *)
Definition reads (kex : dropbear_kex) (E : string → Prop) (R : Buffer.field → buffer → Prop) b : Prop :=
  match k_mode kex with
  | DROPBEAR_KEX_NORMAL_DH =>
      wp buf_getmpint E (λ o b', match o with Some e => R (FMpint e) b' | None => ∀ msg, E msg end) b
  | _ => wp buf_getstringbuf E (λ q b', ∃ bs, q = buf_of bs ∧ R (FString bs) b') b
  end.

(** Whatever the packet holds: a value of the method's kind, or the end. *)
Lemma reads_any kex b : wf_buf b → reads kex any_exit (λ them b', them_ok kex them ∧ scanned b b') b.
Proof.
  intros Hwf. unfold reads.
  assert (Hstr : k_mode kex ≠ DROPBEAR_KEX_NORMAL_DH →
    wp buf_getstringbuf any_exit (λ q b', ∃ bs, q = buf_of bs ∧ them_ok kex (FString bs) ∧ scanned b b') b).
  { intros Hm. pose proof Hwf as (?&?&Hd&Hb). apply wp_buf_getstringbuf_int; [done| |done].
    set (n := LOAD32H _). intros Hl [Hn0 Hmax]. cbn [app].
    exists (slice (b_pos b + 4) n (b_data b)). split_and!; [done| |apply scanned_get; [done|lia|lia]].
    assert (Hf : field_ok (FString (slice (b_pos b + 4) n (b_data b)))).
    { split; [by apply bytes_ok_slice|]. rewrite zlen_slice; lia. }
    unfold them_ok. by destruct (k_mode kex). }
  destruct (k_mode kex) eqn:Hm; try (by apply Hstr).
  apply wp_scan_mpint; [done|]. intros [e|] b' Hs Hv; [|done]. split; [|done]. unfold them_ok. rewrite Hm.
  by destruct (Hv e eq_refl).
Qed.

(** A value that is known to be next. *)
Lemma reads_at kex them E b : wf_buf b → them_ok kex them → field_ok them → at_cursor b (enc_field them) →
  reads kex E (λ them' b', them' = them ∧ b' = after_get (zlen (enc_field them)) b) b.
Proof.
  intros Hwf Ht Hf Hat. unfold reads, them_ok in *.
  destruct (k_mode kex), them; try done;
    first [eapply wp_at_stringbuf; [done|exact Hf|exact Hat|]; by eexists
          |eapply wp_at_mpint; [done|exact Hf|exact Hat|]; done].
Qed.

Section peer.
Context {CL : CryptoLib} {ML : MpLib} {EL : EccLib} {XL : Curve25519Lib}.
Implicit Types (s : sshsession) (b : buffer).

Lemma wp_get_share E R (Q : share → sshsession → Prop) s b nk kex :
  newkeys s = Some nk → algo_kex nk = Some kex → reads kex E R b →
  (∀ them b', R them b' → Q (share_of them) (pay s b')) → wp get_share E Q (pay s b).
Proof.
  intros Hn Hk Hr HQ. unfold get_share, reads in *. apply wp_bind. eapply wp_newkeys_kex; [exact Hn|exact Hk|].
  destruct (k_mode kex); apply wp_bind, wp_pay; (eapply wp_mono; [exact Hr|]).
  - intros [e|] b' HR; [|by apply wp_bind, wp_exit]. by apply wp_bind, wp_ret, wp_ret, (HQ (FMpint e)).
  - intros q b' (bs&->&HR). by apply wp_ret, (HQ (FString bs)).
  - intros q b' (bs&->&HR). by apply wp_ret, (HQ (FString bs)).
  - intros q b' (bs&->&HR). by apply wp_ret, (HQ (FString bs)).
Qed.
End peer.

(** ** A parameter of our own *)

Section gen.
Context {CL : CryptoLib} {ML : MpLib} {MLaw : MpLaws ML} {EL : EccLib} {XL : Curve25519Lib} {XLaw : Curve25519Laws XL}
  {base : ecc_curve → Z → point} {ELaw : EccLaws EL base} {kem_pair : dropbear_kem_desc → list Z → list Z → Prop}
  (fuel : nat).
Implicit Types (s : sshsession).
#[local] Abbreviation made := (made base kem_pair).
#[local] Abbreviation runs m Q s := (wpf m any_exit (λ w, w = "fuel"%string) Q s).

Definition with_rng (r : rng) s : sshsession := on_wld (set_w_rng r) s.

Lemma runs_rng {A} (m : ST rng A) (Q : A → sshsession → Prop) s :
  runs m (λ a r, Q a (with_rng r s)) (w_rng (wld s)) → runs (on_rng m) Q s.
Proof. intros Hm. exact (wpf_zoom _ _ m _ _ Q s Hm). Qed.

Lemma runs_wp {S A} (m : ST S A) (Q : A → S → Prop) (st : S) : wp m any_exit Q st → runs m Q st.
Proof. apply wpf_of_wp_exit. Qed.

Lemma runs_newkeys_kex (Q : dropbear_kex → sshsession → Prop) s nk kex :
  newkeys s = Some nk → algo_kex nk = Some kex → Q kex s → runs newkeys_kex Q s.
Proof. intros Hn Hk HQ. apply runs_wp. by eapply wp_newkeys_kex. Qed.

Lemma runs_gen_kexdh (Q : kex_dh_param → sshsession → Prop) s nk kex :
  newkeys s = Some nk → algo_kex nk = Some kex → method_ok kem_pair kex → k_mode kex = DROPBEAR_KEX_NORMAL_DH →
  wf_rng (w_rng (wld s)) →
  (∀ a r, (∀ client, made client kex (DhParam a)) → wf_rng r → Q a (with_rng r s)) → runs (gen_kexdh_param fuel) Q s.
Proof.
  intros Hn Hk [_ Hm] Hmode Hr HQ. rewrite Hmode in Hm. destruct Hm as [Hm _]. unfold gen_kexdh_param, load_dh_p.
  apply wpf_bind, wpf_bind. eapply runs_newkeys_kex; [exact Hn|exact Hk|]. apply wpf_ret. fold (dh_prime kex).
  apply wpf_bind, runs_rng. rewrite Z.quot_div_nonneg by lia.
  assert (Hq : 0 < (dh_prime kex - 1) / 2) by (apply Z.div_str_pos; lia).
  eapply signs_gen_random_mpint; [done|exact Hr|exact Hq|]. intros v r Hr' Hv _.
  rewrite exptmod_spec by (unfold DH_G_VAL; lia). apply wpf_bind, wpf_ret, wpf_ret, HQ; [|done].
  intros client. unfold KexShare.made. rewrite Hmode. cbn [dh_priv dh_pub]. split; [lia|done].
Qed.

Lemma runs_gen_kexecdh (Q : kex_ecdh_param → sshsession → Prop) s nk kex :
  newkeys s = Some nk → algo_kex nk = Some kex → method_ok kem_pair kex → k_mode kex = DROPBEAR_KEX_ECDH →
  wf_rng (w_rng (wld s)) →
  (∀ a r, (∀ client, made client kex (EcdhParam a)) → wf_rng r → Q a (with_rng r s)) → runs gen_kexecdh_param Q s.
Proof.
  intros Hn Hk [_ Hm] Hmode Hr HQ. rewrite Hmode in Hm. destruct Hm as [c Hc]. unfold gen_kexecdh_param, kex_curve.
  apply wpf_bind, wpf_bind. eapply runs_newkeys_kex; [exact Hn|exact Hk|]. rewrite Hc. apply wpf_ret, wpf_bind, runs_rng, (wpf_of_wp _ any_exit).
  eapply wp_mono; [by apply make_key_spec|]. intros [[k [x y]]|] r [Hr' Hkey]; [|by apply wpf_bind].
  destruct (Hkey k (x, y) eq_refl) as [Hrange Hxy]. pose proof (base_range c k Hrange) as (Hx&Hy&_). rewrite <-Hxy in Hx, Hy.
  pose proof (ecc_prime_size c). apply wpf_bind, wpf_ret, wpf_ret, HQ; [|done]. intros client. unfold KexShare.made. rewrite Hmode.
  cbn [ecdh_key e_dp e_private e_k e_pub e_x e_y] in *. split_and!; try done; try lia. split; cbn [e_x e_y e_dp fst snd] in *; lia.
Qed.

Lemma wp_gen_x25519 E (Q : kex_curve25519_param → sshsession → Prop) s :
  wf_rng (w_rng (wld s)) → (∀ a r, x25519_made a → wf_rng r → Q a (with_rng r s)) → wp gen_kexcurve25519_param E Q s.
Proof.
  intros Hr HQ. apply wp_bind, wp_zoom, (wp_exit_mono _ no_exit); [apply wp_genrandom; [done|by vm_compute|]|by intros e []].
  intros bs r Hr' Hl _. apply wp_ret, HQ; [|done]. by split.
Qed.

(** The server leaves its share to the combination. *)
Lemma wp_gen_pqhybrid E (Q : kex_pqhybrid_param → sshsession → Prop) s nk kex :
  newkeys s = Some nk → algo_kex nk = Some kex → method_ok kem_pair kex → k_mode kex = DROPBEAR_KEX_PQHYBRID →
  wf_rng (w_rng (wld s)) →
  (∀ a r, made (negb (isserver s)) kex (HybridParam a) → wf_rng r → Q a (with_rng r s)) → wp gen_kexpqhybrid_param E Q s.
Proof.
  intros Hn Hk [_ Hm] Hmode Hr HQ. rewrite Hmode in Hm. destruct Hm as (kem&Hkem&[Hlen Hgen _ _]). unfold gen_kexpqhybrid_param, kex_kem.
  apply wp_bind, wp_bind. eapply wp_newkeys_kex; [exact Hn|exact Hk|]. rewrite Hkem. apply wp_ret.
  apply wp_bind, wp_gen_x25519; [done|]. intros c r Hc Hr1. apply wp_bind, wp_get. change (isserver (with_rng r s)) with (isserver s).
  unfold KexShare.made in HQ. rewrite Hmode in HQ. destruct (isserver s); cbn [negb] in *; [by apply wp_ret, HQ|].
  assert (HL : CURVE25519_LEN = 32) by done. assert (HM : BUF_MAX_SIZE = 1000000000) by done.
  apply wp_bind, wp_buf_new; [|lia]. intros _. apply wp_bind, wp_buf_new; [|lia]. intros _. apply wp_bind, wp_zoom.
  eapply wp_mono; [eapply wp_exit_mono; [by apply Hgen|by intros]|]. intros [pk sk] r2 (Hr2&Hpair&[Hpl Hpb]&Hsl&Hsb).
  pose proof Hc as [_ Hpub].
  assert (Hcl : zlen (c_pub c) = 32) by (rewrite Hpub; apply x25519_length). assert (Hcb : bytes_ok (c_pub c)) by (rewrite Hpub; apply x25519_bytes).
  apply wp_bind. eapply wp_new_filled; [apply appends_seq; [by apply appends_fill|by apply appends_bytes]|apply buf_acc_new; lia| |].
  { cbn [b_size]. rewrite zlen_nil, zlen_app. lia. }
  cbn [app]. intros pb (Hwp&_&Hcp) _. apply wp_bind, wp_on_new, wp_bind.
  eapply (proj2 (appends_fill sk (secret_len kem) Hsb Hsl)); [apply buf_acc_new; lia| |cbn [b_size]; rewrite zlen_nil; lia].
  cbn [app]. intros sb (Hws&_&Hcs) _. pose proof Hws as (?&?&_). apply wp_buf_setpos; [|lia]. intros _. apply wp_ret, HQ; [|done].
  split; [done|]. exists kem, pk, sk, pb, (set_pos 0 sb). split_and!; try done. apply wf_set_pos; [done|lia].
Qed.
End gen.
