(* ===== verification/KexReply.v ===== *)
(** * The reply to a share (src/src/svr-kex.c)

    What [recv_msg_kexdh_init] sends: the host key, the server's share and the
    signature over the exchange hash, for any packet of the client. *)

From Stdlib Require Import ZArith Lia.
From stdpp Require Import base list strings.
From S2P Require Import Prelude.
From S2P Require Import Buffer.
From S2P Require Import Random.
From S2P Require Import Algo.
From S2P Require Import Cipher.
From S2P Require Import KeyTypes.
From S2P Require Import Ecc.
From S2P Require Import SignKey.
From S2P Require Import KeyInstances.
From S2P Require Import SignKeyRead.
From S2P Require Import SignVerify.
From S2P Require Import SignAgree.
From S2P Require Import Session.
From S2P Require Import Packet.
From S2P Require Import Instances.
From S2P Require Import PacketRecv.
From S2P Require Import PacketSend.
From S2P Require Import Transport.
From S2P Require Import ProcessPacket.
From S2P Require Import Kex.
From S2P Require Import KexKeys.
From S2P Require Import KexInit.
From S2P Require Import KexMethods.
From S2P Require Import KexShare.
From S2P Require Import SvrKex.
From S2P Require Import KexPeer.

(** ** Shares fit their messages *)

Lemma mp_count_bits_mono a b : 0 ≤ a ≤ b → mp_count_bits a ≤ mp_count_bits b.
Proof.
  intros Hab. unfold mp_count_bits. rewrite !Z.abs_eq by lia. destruct (Z.eqb_spec a 0), (Z.eqb_spec b 0); try lia.
  - pose proof (Z.log2_nonneg b). lia.
  - pose proof (Z.log2_le_mono a b ltac:(lia)). lia.
Qed.

Lemma mpint_8192 v : 0 ≤ v → mp_count_bits v ≤ 8192 → field_ok (FMpint v).
Proof.
  intros Hv Hb. split; [done|]. unfold mpint_len. destruct (v =? 0); [by vm_compute|].
  pose proof (Z.div_le_mono _ _ 8 ltac:(lia) Hb). change (8192 / 8) with 1024 in *. change BUF_MAX_MPINT with 1030. lia.
Qed.

Lemma string_bytes bs : bytes_ok (enc_field (FString bs)) → bytes_ok bs.
Proof. cbn [enc_field]. by intros [_ ?]%bytes_ok_app. Qed.

(** A share of ours, in a packet. *)
Definition share_ok (kex : dropbear_kex) (f : Buffer.field) : Prop :=
  them_ok kex f ∧ field_ok f ∧ zlen (enc_field f) ≤ 2100.

Lemma share_ok_string kex bs : k_mode kex ≠ DROPBEAR_KEX_NORMAL_DH → bytes_ok bs → zlen bs ≤ 2040 → share_ok kex (FString bs).
Proof.
  intros Hm Hb Hl. assert (Hf : field_ok (FString bs)) by (split; [done|]; change MAX_STRING_LEN with 9000; lia).
  split_and!; [unfold them_ok; by destruct (k_mode kex)|done|rewrite string_field_length; lia].
Qed.

Section shares.
Context {ML : MpLib} {EL : EccLib} {XL : Curve25519Lib} {XLaw : Curve25519Laws XL}
  {base : ecc_curve → Z → point} {kem_pair : dropbear_kem_desc → list Z → list Z → Prop}.

Lemma share_ok_dh kex a : method_ok kem_pair kex → k_mode kex = DROPBEAR_KEX_NORMAL_DH →
  dh_pub a = DH_G_VAL ^ dh_priv a mod dh_prime kex → share_ok kex (FMpint (dh_pub a)).
Proof.
  intros [_ Hm] Hmode ->. rewrite Hmode in Hm. destruct Hm as [Hp Hb].
  pose proof (Z.mod_pos_bound (DH_G_VAL ^ dh_priv a) (dh_prime kex) ltac:(lia)) as Hr. set (v := _ mod _) in *.
  pose proof (mp_count_bits_mono v (dh_prime kex) ltac:(lia)). destruct (mpint_8192 v) as [Hv Hl]; [lia..|].
  split_and!; [unfold them_ok; rewrite Hmode; lia|done|]. rewrite mpint_field_length by lia.
  change BUF_MAX_MPINT with 1030 in Hl. lia.
Qed.

Lemma share_ok_ecdh kex key : k_mode kex = DROPBEAR_KEX_ECDH → ecc_fits key → share_ok kex (FString (raw_point key)).
Proof.
  intros Hmode Hf. destruct (export_fits key Hf) as [_ Hl]. pose proof (ltc_size_bounds (e_dp key)).
  apply share_ok_string; [by rewrite Hmode|apply raw_point_bytes|lia].
Qed.

Lemma x25519_pub a : x25519_made a → zlen (c_pub a) = 32 ∧ bytes_ok (c_pub a).
Proof. intros [_ ->]. split; [apply x25519_length|apply x25519_bytes]. Qed.

(** What the client sends. *)
Lemma client_share_ok kex p : method_ok kem_pair kex → made base kem_pair true kex p → share_ok kex (client_share p).
Proof.
  intros Hm. pose proof Hm as [_ Hm']. unfold made. destruct (k_mode kex) eqn:Hmode, p as [a|a|a|a]; try done; cbn [client_share].
  - intros [_ Hp]. by apply share_ok_dh.
  - intros (_&_&_&Hf&_). by apply share_ok_ecdh.
  - intros Ha. destruct (x25519_pub a Ha) as [Hl Hb]. apply share_ok_string; [by rewrite Hmode|done|lia].
  - intros [Ha (kem&pk&sk&pb&sb&Hkem&_&Hpk&Hpkb&_&->&_&->&_)]. destruct (x25519_pub _ Ha) as [Hl Hb].
    destruct Hm' as (kem'&Hkem'&[Hlen _ _ _]). rewrite Hkem in Hkem'. injection Hkem' as <-.
    apply share_ok_string; [by rewrite Hmode|by apply bytes_ok_app|rewrite zlen_app; lia].
Qed.

(** What the server sends, once it is on the wire. *)
Lemma server_share_ok kex p us them sec : method_ok kem_pair kex → made base kem_pair false kex p →
  derives kem_pair false kex p us them sec → bytes_ok (enc_field us) → share_ok kex us.
Proof.
  intros Hm. pose proof Hm as [_ Hm']. unfold made, derives. destruct (k_mode kex) eqn:Hmode, p as [a|a|a|a], them as [?|?|?|bs|?]; try done.
  - intros [_ Hp] (_&->&_) _. by apply share_ok_dh.
  - intros (_&_&_&Hf&_) (Q&pt&_&_&_&_&->&_) _. by apply share_ok_ecdh.
  - intros Ha (out&_&->&_) _. destruct (x25519_pub a Ha) as [Hl Hb]. apply share_ok_string; [by rewrite Hmode|done|lia].
  - intros [Ha _] (kem&x&u&y&k&out&Hkem&_&_&->&_&_&Hy&_) Hb. destruct (x25519_pub _ Ha) as [Hl _].
    destruct Hm' as (kem'&Hkem'&[Hlen _ _ _]). rewrite Hkem in Hkem'. injection Hkem' as <-.
    apply share_ok_string; [by rewrite Hmode|by apply string_bytes|rewrite zlen_app; lia].
Qed.
End shares.

(** ** Writing the reply *)

Section reply.
Context {CL : CryptoLib} {ML : MpLib} {MLaw : MpLaws ML} {EL : EccLib} {DL : Ed25519Lib}
  {XL : Curve25519Lib} {XLaw : Curve25519Laws XL}
  {base : ecc_curve → Z → point} {ELaw : EccLaws EL base} {pair : list Z → list Z → Prop} {DLaw : Ed25519Laws DL pair}
  {kem_pair : dropbear_kem_desc → list Z → list Z → Prop} (fuel : nat).
Implicit Types (s : sshsession) (b pl : buffer).
#[local] Abbreviation derives := (derives kem_pair).
#[local] Abbreviation made := (made base kem_pair).
#[local] Abbreviation exchanging := (exchanging (kem_pair := kem_pair)).
#[local] Abbreviation runs m Q s := (wpf m any_exit (λ w, w = "fuel"%string) Q s).

Lemma runs_append m w acc (Q : unit → sshsession → Prop) s pl :
  appends m w → filled acc pl → (∀ pl', filled (acc ++ w) pl' → Q tt (wview s pl')) →
  runs (on_writepayload m) Q (wview s pl).
Proof.
  intros [_ Hm] [Hacc Hsz] HQ. apply runs_wp, wp_zoom. eapply Hm; [exact Hacc| |done].
  intros pl' Hacc' Hsz'. apply HQ. split; [exact Hacc'|exact (eq_trans Hsz' Hsz)].
Qed.

Lemma filled_bytes acc w pl : filled (acc ++ w) pl → bytes_ok w.
Proof. intros [((_&_&_&Hb)&_&Hc) _]. apply (bytes_ok_slice 0 (b_len pl)) in Hb. fold (contents pl) in Hb. rewrite Hc in Hb. by apply bytes_ok_app in Hb as [_ ?]. Qed.

Lemma combined_wview kex acc blob us them sec s pl :
  combined kex acc blob us them sec (wview s pl) = wview (combined kex acc blob us them sec s) pl.
Proof. by destruct sec. Qed.

(** Any parameter of ours, combined and written. *)
Definition replied Q s nk kex acc hb hk them acc0 : Prop :=
  ∀ p us sec r pl', made false kex p → derives false kex p us them sec → wf_rng r →
    hash_room acc hb (pub_blob hk (algo_hostkey nk)) us them sec → filled (acc0 ++ enc_field us) pl' →
    Q tt (wview (combined kex acc (pub_blob hk (algo_hostkey nk)) us them sec (with_rng r s)) pl').

(** The end of every method: the combination [m] of parameter [p], then our
    share [us]. *)
Lemma runs_comb_put m mp p us (Q : unit → sshsession → Prop) s nk kex acc hb hk them acc0 pl r :
  replied Q s nk kex acc hb hk them acc0 → filled acc0 pl → made false kex p → wf_rng r →
  (∀ us' sec, derives false kex p us' them sec → us' = us) → appends mp (enc_field us) →
  (∀ Q' : unit → sshsession → Prop,
     (∀ us' sec, derives false kex p us' them sec →
        (hash_room acc hb (pub_blob hk (algo_hostkey nk)) us' them sec →
           Q' tt (combined kex acc (pub_blob hk (algo_hostkey nk)) us' them sec (wview (with_rng r s) pl))) ∧
        (¬ hash_room acc hb (pub_blob hk (algo_hostkey nk)) us' them sec → ∀ e, any_exit e)) →
     wp m any_exit Q' (wview (with_rng r s) pl)) →
  runs (do* m; on_writepayload mp) Q (wview (with_rng r s) pl).
Proof.
  intros HQ Hpl Hmade Hr Hus Hmp Hm. apply wpf_bind, runs_wp, Hm. intros us' sec Hd. split; [|done]. intros Hroom.
  pose proof (Hus us' sec Hd) as ->. rewrite combined_wview. eapply runs_append; [exact Hmp|exact Hpl|]. intros pl' Hpl'.
  by apply (HQ p).
Qed.

Lemma runs_put_our_share (Q : unit → sshsession → Prop) s nk kex acc hb hk them acc0 pl :
  exchanging s nk kex acc hb hk → isserver s = true → wf_rng (w_rng (wld s)) → them_ok kex them → filled acc0 pl →
  replied Q s nk kex acc hb hk them acc0 → runs (put_our_share fuel hk (share_of them)) Q (wview s pl).
Proof.
  intros Hex Hsrv Hr Hthem Hpl HQ. pose proof Hex as (Hn&Hk&Hm&_). unfold put_our_share.
  apply wpf_bind. eapply runs_newkeys_kex; [exact Hn|exact Hk|].
  assert (Hcl : ∀ r, negb (isserver (wview (with_rng r s) pl)) = false) by (intros r; cbn; by rewrite Hsrv).
  unfold them_ok in Hthem. destruct (k_mode kex) eqn:Hmode, them as [?|?|e|bs|?]; try done; apply wpf_bind.
  - eapply (runs_gen_kexdh (base := base)); [exact Hn|exact Hk|exact Hm|done|exact Hr|]. intros a r Hmade Hr'.
    change (with_rng r (wview s pl)) with (wview (with_rng r s) pl). cbn [share_of share_int]. apply wpf_bind, wpf_ret. pose proof (Hmade false) as Hma. pose proof Hma as Hmd.
    unfold KexShare.made in Hmd. rewrite Hmode in Hmd. destruct Hmd as [_ Hpub].
    destruct (share_ok_dh kex a Hm Hmode Hpub) as (_&[Hp0 _]&_).
    eapply (runs_comb_put _ _ (DhParam a) (FMpint (dh_pub a))); [exact HQ|exact Hpl|exact Hma|exact Hr'| |by apply appends_mpint|].
    { intros us' sec. unfold KexShare.derives. rewrite Hmode. by intros (_&->&_). }
    intros Q' HQ'. eapply wp_kexdh_comb_key; [exact Hex|exact Hmode|rewrite Hcl; apply Hmade|rewrite Hcl; exact HQ'|done].
  - eapply (runs_gen_kexecdh (base := base)); [exact Hn|exact Hk|exact Hm|done|exact Hr|]. intros a r Hmade Hr'.
    change (with_rng r (wview s pl)) with (wview (with_rng r s) pl). cbn [share_of share_string]. apply wpf_bind, wpf_ret. pose proof (Hmade false) as Hma. pose proof Hma as Hmd.
    unfold KexShare.made in Hmd. rewrite Hmode in Hmd. destruct Hmd as (_&_&_&Hf&_).
    eapply (runs_comb_put _ _ (EcdhParam a) (FString (raw_point (ecdh_key a)))); [exact HQ|exact Hpl|exact Hma|exact Hr'| |by apply appends_raw_point|].
    { intros us' sec. unfold KexShare.derives. rewrite Hmode. by intros (?&?&_&_&_&_&->&_). }
    intros Q' HQ'. eapply wp_kexecdh_comb_key; [exact Hex|exact Hmode|exact Hthem|rewrite Hcl; apply Hmade|rewrite Hcl; exact HQ'|done].
  - apply runs_wp, wp_gen_x25519; [exact Hr|]. intros a r Hmade Hr'. change (with_rng r (wview s pl)) with (wview (with_rng r s) pl). cbn [share_of share_string]. apply wpf_bind, wpf_ret.
    destruct (x25519_pub a Hmade) as [_ Hb].
    assert (Hma : ∀ client, made client kex (X25519Param a)) by (intros ?; unfold KexShare.made; by rewrite Hmode).
    eapply (runs_comb_put _ _ (X25519Param a) (FString (c_pub a))); [exact HQ|exact Hpl|apply Hma|exact Hr'| |by apply appends_string|].
    { intros us' sec. unfold KexShare.derives. rewrite Hmode. by intros (?&_&->&_). }
    intros Q' HQ'. eapply wp_kexcurve25519_comb_key; [exact Hex|exact Hmode|exact Hthem|rewrite Hcl; apply Hma|rewrite Hcl; exact HQ'|done].
  - apply runs_wp. eapply (wp_gen_pqhybrid (base := base)); [exact Hn|exact Hk|exact Hm|done|exact Hr|]. intros a r Hmade Hr'.
    change (isserver (wview s pl)) with (isserver s) in Hmade. rewrite Hsrv in Hmade.
    change (with_rng r (wview s pl)) with (wview (with_rng r s) pl). cbn [share_of share_string]. apply wpf_bind, wpf_ret, wpf_bind, runs_wp.
    eapply wp_kexpqhybrid_comb_key; [exact Hex|exact Hmode|exact Hthem|rewrite Hcl; exact Hmade|exact Hr'|]. split; [|done].
    intros us sec a' r2 Hd Hr2 _ (pb&Hcp&->&Hpb). rewrite Hcl in Hd. split; [|done]. intros Hroom.
    apply wpf_bind, runs_wp. eapply wp_ptr; [exact Hcp|].
    change (on_wld (set_w_rng r2) (wview (with_rng r s) pl)) with (wview (with_rng r2 s) pl). rewrite combined_wview.
    eapply runs_append; [by apply appends_bufstring|exact Hpl|]. intros pl' Hpl'. by apply (HQ (HybridParam a)).
Qed.

(** *** The message *)

Definition kexdh_reply (blob : list Z) (us : Buffer.field) (sig : list Z) : list Z :=
  SSH_MSG_KEXDH_REPLY :: enc_fields [FString blob; us; FString sig].

Lemma combined_hash kex acc blob us them sec s :
  hash (kexdat (combined kex acc blob us them sec s)) =
  Some (buf_of (exchange_hash kex acc (isserver s) blob us them sec)).
Proof. destruct s as [? ? ? ? ? [[] ? ? ? ? ? ? ? ? ?] ? ?], sec; done. Qed.

Lemma combined_newkeys kex acc blob us them sec s : newkeys (combined kex acc blob us them sec s) = newkeys s.
Proof. by destruct sec. Qed.

Lemma quiet_combined kex acc blob us them sec s r r' pl :
  quiet (wview (with_rng r' (combined kex acc blob us them sec (with_rng r s))) pl) = quiet (combined kex acc blob us them sec s).
Proof. by destruct sec. Qed.

Lemma send_part_combined kex acc blob us them sec s : send_part (combined kex acc blob us them sec s) = send_part s.
Proof. by destruct sec. Qed.

(** A host key the server can answer with. *)
Definition serves (nk : key_context) (hk : sign_key) : Prop :=
  holds_key hk (algo_hostkey nk) ∧ signs_with (base := base) (pair := pair) hk (algo_signature nk).

(** The answer is a host key, a share and a signature made with that key over
    the hash of this exchange. *)
Definition answered (ready : list (list Z) → sshsession → Prop) msgs s nk kex acc hb hk them s' : Prop :=
  ∃ p us sec body,
    let blob := pub_blob hk (algo_hostkey nk) in
    let sig := sig_wire (sig_name (algo_signature nk)) body in
    made false kex p ∧ derives false kex p us them sec ∧ share_ok kex us ∧ hash_room acc hb blob us them sec ∧
    zlen sig ≤ MAX_PUBKEY_SIZE ∧ bytes_ok sig ∧
    (regular (algo_signature nk) body →
       SignAgree.accepted hk (algo_signature nk) (exchange_hash kex acc true blob us them sec) sig) ∧
    ready (msgs ++ [kexdh_reply blob us sig]) s' ∧ quiet s' = quiet (combined kex acc blob us them sec s).

Lemma runs_put_blob hk type acc (Q : unit → sshsession → Prop) s pl :
  holds_key hk type → filled acc pl →
  (∀ pl', zlen (pub_blob hk type) ≤ MAX_PUBKEY_SIZE → filled (acc ++ enc_field (FString (pub_blob hk type))) pl' → Q tt (wview s pl')) →
  runs (on_writepayload (buf_put_pub_key hk type)) Q (wview s pl).
Proof.
  intros Hk [Hacc Hsz] HQ. apply runs_wp, wp_zoom. eapply wp_put_pub_key; [exact Hk|exact Hacc| |done].
  intros pl' Hl Hacc' Hsz'. apply HQ; [done|]. split; [exact Hacc'|exact (eq_trans Hsz' Hsz)].
Qed.

Lemma runs_put_sign hk sigtype data acc (Q : unit → sshsession → Prop) s pl :
  signs_with (base := base) (pair := pair) hk sigtype → wf_rng (w_rng (wld s)) → filled acc pl →
  zlen acc + 4 + MAX_PUBKEY_SIZE ≤ TRANS_MAX_PAYLOAD_LEN →
  (∀ body r pl', let sig := sig_wire (sig_name sigtype) body in wf_rng r → zlen sig ≤ MAX_PUBKEY_SIZE →
     (regular sigtype body → SignAgree.accepted hk sigtype (contents data) sig) →
     filled (acc ++ enc_field (FString sig)) pl' → Q tt (wview (with_rng r s) pl')) →
  runs (on_genpayload (buf_put_sign fuel hk sigtype data)) Q (wview s pl).
Proof.
  intros Hk Hr [Hacc Hsz] Hroom HQ. unfold on_genpayload. apply wpf_zoom.
  eapply signs_buf_put_sign; [done|exact Hk|exact Hr|exact Hacc|cbn; lia|].
  intros body r pl' Hr' Hl Hok Hacc' Hsz'. eapply (HQ body r pl'); [done|done|done|].
  split; [exact Hacc'|exact (eq_trans Hsz' Hsz)].
Qed.

(** The exchange of a server that is about to answer. *)
Definition answering (ready : list (list Z) → sshsession → Prop) msgs s nk kex acc hb : Prop :=
  ready msgs s ∧ zlen msgs < 2 ^ 31 ∧ isserver s = true ∧ newkeys s = Some nk ∧ algo_kex nk = Some kex ∧
  method_ok kem_pair kex ∧ kexhashbuf (kexdat s) = Some hb ∧ buf_acc acc hb.

(** The key at hand, and every key the files may hold. *)
Definition keys_ok (opts : svr_runopts) nk (k : svrkex) : Prop :=
  let type := algo_hostkey nk in
  (delay_hostkey opts = false ∨ has_key (svr_hostkey k) type = true → serves nk (svr_hostkey k)) ∧
  ∀ fn key key', readhostkey opts fn key type = Some key' ∨ rereadhostkey opts fn key type = Some key' → serves nk key'.

Lemma runs_ptr {A} (o : option A) x (Q : A → sshsession → Prop) s : o = Some x → Q x s → runs (ptr o) Q s.
Proof. intros -> HQ. by apply wpf_ret. Qed.

Lemma runs_newkeys_hostkey (Q : Z → sshsession → Prop) s nk :
  newkeys s = Some nk → Q (algo_hostkey nk) s → runs newkeys_hostkey Q s.
Proof. intros Hn HQ. apply runs_wp, wp_bind, wp_get, wp_bind. eapply wp_ptr; [exact Hn|by apply wp_ret]. Qed.

Lemma runs_ensure_hostkey opts nk (Q : unit → svrkex → Prop) k :
  newkeys (kst k) = Some nk → keys_ok opts nk k →
  (∀ hk, serves nk hk → Q tt (set_svr_hostkey hk k)) → runs (when (delay_hostkey opts) (svr_ensure_hostkey opts)) Q k.
Proof.
  intros Hn [H1 H2] HQ. destruct (delay_hostkey opts); cbn [when].
  2: { apply wpf_ret. replace k with (set_svr_hostkey (svr_hostkey k) k) by (by destruct k). by apply HQ, H1; left. }
  unfold svr_ensure_hostkey. apply wpf_bind, wpf_zoom. eapply runs_newkeys_hostkey; [exact Hn|].
  change (set_kst (kst k) k) with (mksvrkex (kst k) (svr_hostkey k) (svr_sigalgs k)).
  replace (mksvrkex (kst k) (svr_hostkey k) (svr_sigalgs k)) with k by (by destruct k).
  apply wpf_bind, runs_wp, wp_get, wpf_if; intros Hhas.
  { apply wpf_ret. replace k with (set_svr_hostkey (svr_hostkey k) k) by (by destruct k). by apply HQ, H1; right. }
  apply wpf_bind. assert (Hfn : runs (hostkey_filename (algo_hostkey nk)) (λ _ k', k' = k) k).
  { unfold hostkey_filename. repeat (apply wpf_if; intros _; [by apply wpf_ret|]). done. }
  eapply wpf_mono; [exact Hfn|]. intros fn ? ->.
  destruct (readhostkey opts fn _ _) as [key|] eqn:Hrd.
  { apply runs_wp, wp_modify, HQ, (H2 fn (svr_hostkey k)). by left. }
  apply wpf_if; intros _; [done|]. destruct (rereadhostkey opts fn _ _) as [key|] eqn:Hrr; [|done].
  apply runs_wp, wp_modify, HQ, (H2 fn (svr_hostkey k)). by right.
Qed.

Lemma share_ok_room blob us (kex : dropbear_kex) sig : zlen blob ≤ MAX_PUBKEY_SIZE → share_ok kex us → zlen sig ≤ MAX_PUBKEY_SIZE →
  zlen (kexdh_reply blob us sig) ≤ TRANS_MAX_PAYLOAD_LEN.
Proof.
  unfold kexdh_reply, MAX_PUBKEY_SIZE, TRANS_MAX_PAYLOAD_LEN. intros ? (_&_&?) ?.
  rewrite zlen_cons, !zlen_enc_fields_cons, !string_field_length. unfold enc_fields. cbn [map concat]. rewrite zlen_nil. lia.
Qed.

(** The message, on the session in focus. *)
Lemma runs_reply_message {ready} {T : Transport ready} msgs (Q : unit → sshsession → Prop) s nk kex acc hb hk them :
  answering ready msgs s nk kex acc hb → serves nk hk → them_ok kex them →
  (∀ s', answered ready msgs s nk kex acc hb hk them s' → Q tt s') →
  runs (do* on_writepayload (buf_putbyte SSH_MSG_KEXDH_REPLY);
        let* type := newkeys_hostkey in
        do* on_writepayload (buf_put_pub_key hk type);
        do* put_our_share fuel hk (share_of them);
        let* s := get in
        let* nk := ptr (newkeys s) in
        let* hash := ptr (hash (kexdat s)) in
        do* on_genpayload (buf_put_sign fuel hk (algo_signature nk) hash);
        encrypt_packet) Q s.
Proof.
  intros (Hrd&Hmsgs&Hsrv&Hn&Hk&Hm&Hhb&Hacc) [Hkey Hsign] Hthem HQ.
  pose proof (clear_filled s (tr_clear _ _ Hrd)) as Hpl. destruct (tr_rng _ _ Hrd) as [Hr _].
  rewrite (wview_self s). apply wpf_bind. eapply runs_append; [by apply (appends_byte SSH_MSG_KEXDH_REPLY)|exact Hpl|].
  intros pl1 H1. apply wpf_bind. eapply runs_newkeys_hostkey; [exact Hn|].
  apply wpf_bind. eapply runs_put_blob; [exact Hkey|exact H1|]. intros pl2 Hblob H2.
  apply wpf_bind. eapply runs_put_our_share; [by split_and!|exact Hsrv|exact Hr|exact Hthem|exact H2|].
  intros p us sec r pl3 Hmade Hd Hr3 Hroom H3. set (blob := pub_blob hk (algo_hostkey nk)) in *.
  assert (Hus : share_ok kex us) by (eapply server_share_ok; [exact Hm|exact Hmade|exact Hd|eapply filled_bytes; exact H3]).
  set (s3 := combined kex acc blob us them sec (with_rng r s)).
  apply wpf_bind, runs_wp, wp_get, wpf_bind. eapply (runs_ptr _ nk); [exact (eq_trans (combined_newkeys kex acc blob us them sec (with_rng r s)) Hn)|].
  apply wpf_bind. eapply runs_ptr; [exact (combined_hash kex acc blob us them sec (with_rng r s))|].
  change (isserver (with_rng r s)) with (isserver s). rewrite Hsrv. set (H := exchange_hash kex acc true blob us them sec).
  assert (Hsz : zlen ((([] ++ [SSH_MSG_KEXDH_REPLY]) ++ enc_field (FString blob)) ++ enc_field us) + 4 + MAX_PUBKEY_SIZE ≤ TRANS_MAX_PAYLOAD_LEN).
  { destruct Hus as (_&_&?). rewrite !zlen_app, string_field_length. unfold MAX_PUBKEY_SIZE, TRANS_MAX_PAYLOAD_LEN in *.
    change (zlen [SSH_MSG_KEXDH_REPLY]) with 1. rewrite zlen_nil. lia. }
  apply wpf_bind. eapply (runs_put_sign _ _ _ _ _ s3); [exact Hsign| |exact H3|exact Hsz|].
  { unfold s3. by destruct sec. }
  intros body r4 pl4 sig Hr4 Hsl Hok H4.
  assert (Hsigb : bytes_ok sig) by (eapply string_bytes, filled_bytes; exact H4).
  assert (Hrd4 : ready msgs (with_rng r4 s3)).
  { apply tr_rng; [|done]. eapply tr_same; [|exact (send_part_combined kex acc blob us them sec (with_rng r s))]. by apply tr_rng. }
  assert (Hwire : ((([] ++ [SSH_MSG_KEXDH_REPLY]) ++ enc_field (FString blob)) ++ enc_field us) ++ enc_field (FString sig) = kexdh_reply blob us sig).
  { unfold kexdh_reply, enc_fields. cbn [map concat]. by rewrite app_nil_r, <-!app_assoc. }
  rewrite Hwire in H4. destruct H4 as [(Hw4&_&Hc4) Hs4].
  apply runs_wp. eapply wp_mono; [eapply wp_exit_mono; [eapply (tr_send msgs (with_rng r4 s3)); [exact Hrd4|exact Hmsgs| |exact Hw4|exact Hc4|exact Hs4]|done]|].
  { split; [rewrite <-Hc4; by apply bytes_ok_slice, Hw4|]. split; [unfold kexdh_reply; rewrite zlen_cons; pose proof (zlen_nonneg (enc_fields [FString blob; us; FString sig])); lia|].
    by eapply share_ok_room. }
  intros [] s' [Hrd' Hq']. apply HQ. exists p, us, sec, body. cbv zeta. split_and!; try done.
  - intros Hreg. rewrite <-(contents_buf_of (exchange_hash _ _ _ _ _ _ _)). by apply Hok.
  - rewrite Hq'. by apply (quiet_combined _ _ _ _ _ _ _ r r4 (writepayload (pkt s3))).
Qed.

(** *** From the packet to the message *)

Lemma answering_pay {ready} {T : Transport ready} msgs s nk kex acc hb b :
  answering ready msgs s nk kex acc hb → answering ready msgs (pay s b) nk kex acc hb.
Proof. intros (Hrd&?). split; [|done]. by eapply tr_same. Qed.

Lemma runs_answer {ready} {T : Transport ready} msgs opts R (Q : unit → svrkex → Prop) k b nk kex acc hb :
  payload (pkt (kst k)) = Some b → reads kex any_exit R b → (∀ them b', R them b' → them_ok kex them) →
  answering ready msgs (kst k) nk kex acc hb → keys_ok opts nk k →
  (∀ them b' hk s', recvkexinit (kexstate (kst k)) = true → R them b' → b_pos b' = b_len b' → serves nk hk →
     answered ready msgs (pay (kst k) b') nk kex acc hb hk them s' → Q tt (set_kst s' (set_svr_hostkey hk k))) →
  runs (answer_kexdh_init opts fuel) Q k.
Proof.
  intros Hb Hreads HR Hans Hkeys HQ. pose proof Hans as (_&_&_&Hn&Hk&_). unfold answer_kexdh_init.
  apply wpf_bind, runs_wp, wp_get, wpf_bind, runs_wp, wp_exit_if; [done|]. intros Hrecv. apply negb_false_iff in Hrecv.
  apply wpf_bind, wpf_zoom, runs_wp. rewrite (pay_self _ _ Hb). eapply wp_get_share; [exact Hn|exact Hk|exact Hreads|].
  intros them b' HRb. apply wpf_bind, wpf_zoom, runs_wp, wp_pay, wp_get, wpf_bind, runs_wp, wp_exit_if; [done|]. intros Hend.
  apply wpf_bind. pose proof (answering_pay _ _ _ _ _ _ b' Hans) as Hans'.
  set (k1 := set_kst (pay (kst k) b') k). eapply (runs_ensure_hostkey opts nk _ k1); [exact Hn|exact Hkeys|].
  intros hk Hhk. apply wpf_bind, runs_wp, wp_get, wpf_zoom.
  eapply runs_reply_message; [exact Hans'|exact Hhk|by eapply HR|]. intros s' Hs'.
  eapply (HQ them b'); [exact Hrecv|exact HRb|lia|exact Hhk|exact Hs'].
Qed.
End reply.

(** C11: The server's reply.  On any packet of a client, [recv_msg_kexdh_init]
    up to its reply stays inside its buffers; only the model's fuel for random
    numbers may run out.  If it does not end the connection, it has read a
    share, combined it with a fresh parameter of its own into the secret and
    the exchange hash, and sent one message: a host key of the negotiated
    type, its share, and a signature over that hash, which [buf_verify] with
    the public part of this host key accepts.  Of an ECDSA signature the second
    number must be invertible modulo the order of the curve ([regular]). *)
Theorem server_reply {CL : CryptoLib} {ML : MpLib} {MLaw : MpLaws ML} {EL : EccLib} {DL : Ed25519Lib}
    {XL : Curve25519Lib} {XLaw : Curve25519Laws XL} {base} {ELaw : EccLaws EL base} {pair} {DLaw : Ed25519Laws DL pair}
    {kem_pair : dropbear_kem_desc → list Z → list Z → Prop} {ready} {T : Transport ready}
    (fuel : nat) (opts : svr_runopts) (msgs : list (list Z)) (k : svrkex) (b : buffer) nk kex acc hb :
  payload (pkt (kst k)) = Some b → wf_buf b →
  answering (kem_pair := kem_pair) ready msgs (kst k) nk kex acc hb →
  keys_ok (base := base) (pair := pair) opts nk k →
  match answer_kexdh_init opts fuel k with
  | Ok (_, k') => recvkexinit (kexstate (kst k)) = true ∧ ∃ them b' hk,
      svr_hostkey k' = hk ∧ serves (base := base) (pair := pair) nk hk ∧ them_ok kex them ∧ scanned b b' ∧ b_pos b' = b_len b' ∧
      answered (base := base) (kem_pair := kem_pair) ready msgs (pay (kst k) b') nk kex acc hb hk them (kst k')
  | Exit _ => True
  | Fault w => w = "fuel"%string
  end.
Proof.
  intros Hb Hwf Hans Hkeys.
  eapply (runs_answer fuel msgs opts _ (λ _ k', recvkexinit (kexstate (kst k)) = true ∧ _));
    [exact Hb|by apply reads_any|by intros ?? [? _]|exact Hans|exact Hkeys|].
  intros them b' hk s' Hrecv [Hthem Hs] Hend Hhk Hs'. split; [exact Hrecv|]. by exists them, b', hk.
Qed.

(** ** Witnesses

    A server in a Diffie-Hellman exchange modulo 23, with a host key of the
    stand-in for Ed25519. *)

(** One point in place of all of Curve25519. *)
Definition toy_x25519 : Curve25519Lib := {| dropbear_curve25519_scalarmult _ _ := replicate 32 1 |}.
Lemma toy_x25519_laws : Curve25519Laws toy_x25519.
Proof. split; [done| |done]. intros ? ?. decide_closed. Qed.

#[local] Existing Instance toy_lib.
#[local] Existing Instance int_mp.
#[local] Existing Instance int_mp_laws.
#[local] Existing Instance toy_ecc.
#[local] Existing Instance toy_ecc_laws.
#[local] Existing Instance toy_ed25519.
#[local] Existing Instance toy_ed25519_laws.
#[local] Existing Instance toy_x25519.
#[local] Existing Instance toy_x25519_laws.

Definition toy_dh : dropbear_kex := mkkex DROPBEAR_KEX_NORMAL_DH [23] NoDetails KexKeys.toy_desc.
Definition toy_dhkeys : key_context :=
  mkkeys toy_newdir toy_newdir (Some toy_dh) DROPBEAR_SIGNKEY_ED25519 DROPBEAR_SIGNKEY_ED25519 0.
Definition toy_hashbuf : buffer := mkbuf (zeros 400) 0 0 400.
(** A session that has exchanged KEXINIT, with the rest of a packet. *)
Definition toy_exchange (server : bool) (packet : list Z) : sshsession :=
  set_isserver server (set_newkeys (Some toy_dhkeys) (on_kexstate (set_recvkexinit true)
    (on_kexdat (set_kexhashbuf (Some toy_hashbuf)) (on_pkt (set_payload (Some (buf_of packet))) (toy_received true false false 0 0))))).
Definition toy_server (packet : list Z) : svrkex := mksvrkex (toy_exchange true packet) toy_ed_key [].
Definition toy_svropts : svr_runopts := mksvropts false (λ _ _ _, None) (λ _ _, false) (λ _ _ _, None).
(** No pair of keys is excluded. *)
Definition toy_pair {A} (_ : A) (_ _ : list Z) : Prop := True.

Lemma toy_method_ok : method_ok toy_pair toy_dh.
Proof. split; [apply toy_desc_law|]. split; by vm_compute. Qed.

Lemma toy_holds : holds_key toy_ed_key DROPBEAR_SIGNKEY_ED25519.
Proof. eexists. split; [done|]. split; [done|decide_closed]. Qed.

Lemma toy_answering packet : answering (kem_pair := toy_pair) toy_ready [] (toy_exchange true packet) toy_dhkeys toy_dh [] toy_hashbuf.
Proof.
  split_and!; try done; [by apply toy_clear_ready|apply toy_method_ok|by apply buf_acc_new].
Qed.

Lemma toy_keys_ok packet : keys_ok (base := λ c _, toy_base c) (pair := λ _ _, True) toy_svropts toy_dhkeys (toy_server packet).
Proof.
  split; [|by intros ??? [?|?]]. intros _. split; [apply toy_holds|]. split; [done|]. eexists. split; [done|].
  split; [|done]. split; [done|decide_closed].
Qed.

(** The client sends 2 ^ 5 mod 23. *)
Definition toy_client_value : list Z := enc_field (FMpint 9).

Lemma server_reply_witness :
  match answer_kexdh_init toy_svropts 100 (toy_server toy_client_value) with
  | Ok (_, k') => true = true ∧ ∃ them b' hk,
      svr_hostkey k' = hk ∧ serves (base := λ c _, toy_base c) (pair := λ _ _, True) toy_dhkeys hk ∧ them_ok toy_dh them ∧
      scanned (buf_of toy_client_value) b' ∧ b_pos b' = b_len b' ∧
      answered (base := λ c _, toy_base c) (kem_pair := toy_pair) toy_ready [] (pay (kst (toy_server toy_client_value)) b')
        toy_dhkeys toy_dh [] toy_hashbuf hk them (kst k')
  | Exit _ => True
  | Fault w => w = "fuel"%string
  end.
Proof.
  apply (server_reply 100 toy_svropts [] (toy_server toy_client_value) (buf_of toy_client_value) toy_dhkeys toy_dh [] toy_hashbuf).
  - done.
  - apply wf_buf_of; [decide_closed|by vm_compute].
  - apply toy_answering.
  - apply toy_keys_ok.
Defined.

(** The server does answer. *)
Example toy_server_answers :
  match answer_kexdh_init toy_svropts 100 (toy_server toy_client_value) with Ok _ => true | _ => false end = true.
Proof. by vm_compute. Qed.
