(* ===== verification/CliKex.v ===== *)
(** * The client's side of the exchange (src/src/cli-kex.c, cli-session.c)

    Our share, the server's reply, the check of its host key and signature,
    EXT_INFO, and the part of [cli_sessionloop] that drives the exchange; the
    rest of it is in CliAuth.v. *)

From Stdlib Require Import ZArith Lia.
From stdpp Require Import base list strings.
From S2P Require Import Prelude.
From S2P Require Import Buffer.
From S2P Require Import Random.
From S2P Require Import Algo.
From S2P Require Import Cipher.
From S2P Require Import KeyTypes.
From S2P Require Import Ecc.
From S2P Require Import SignKey.
From S2P Require Import Session.
From S2P Require Import Packet.
From S2P Require Import Kex.
From S2P Require Import KexMethods.
From S2P Require Import KnownHosts.
From S2P Require Import SvrKex.

(** [cli_kex_state] *)
Inductive cli_kex_state := KEX_NOTHING | KEXINIT_RCVD | KEXDH_INIT_SENT | KEXDONE.
#[global] Instance cli_kex_state_eq_dec : EqDecision cli_kex_state.
Proof. solve_decision. Defined.

(** The session with [cli_ses]; the unused parameters are null.  [hosts] is
    the known hosts file. *)
Section state.
Context {CL : CryptoLib}.
Record clises := mkclises {
  cst : sshsession;
  dh_param : option kex_dh_param;
  ecdh_param : option kex_ecdh_param;
  curve25519_param : option kex_curve25519_param;
  pqhybrid_param : option kex_pqhybrid_param;
  kex_state : cli_kex_state;
  server_sig_algs : option buffer;
  hosts : hostfile
}.
Definition set_cst (v : sshsession) (s : clises) : clises :=
  mkclises v (dh_param s) (ecdh_param s) (curve25519_param s) (pqhybrid_param s) (kex_state s) (server_sig_algs s) (hosts s).
Definition set_dh_param (v : option kex_dh_param) (s : clises) : clises :=
  mkclises (cst s) v (ecdh_param s) (curve25519_param s) (pqhybrid_param s) (kex_state s) (server_sig_algs s) (hosts s).
Definition set_ecdh_param (v : option kex_ecdh_param) (s : clises) : clises :=
  mkclises (cst s) (dh_param s) v (curve25519_param s) (pqhybrid_param s) (kex_state s) (server_sig_algs s) (hosts s).
Definition set_curve25519_param (v : option kex_curve25519_param) (s : clises) : clises :=
  mkclises (cst s) (dh_param s) (ecdh_param s) v (pqhybrid_param s) (kex_state s) (server_sig_algs s) (hosts s).
Definition set_pqhybrid_param (v : option kex_pqhybrid_param) (s : clises) : clises :=
  mkclises (cst s) (dh_param s) (ecdh_param s) (curve25519_param s) v (kex_state s) (server_sig_algs s) (hosts s).
Definition set_kex_state (v : cli_kex_state) (s : clises) : clises :=
  mkclises (cst s) (dh_param s) (ecdh_param s) (curve25519_param s) (pqhybrid_param s) v (server_sig_algs s) (hosts s).
Definition set_server_sig_algs (v : option buffer) (s : clises) : clises :=
  mkclises (cst s) (dh_param s) (ecdh_param s) (curve25519_param s) (pqhybrid_param s) (kex_state s) v (hosts s).
Definition set_hosts (v : hostfile) (s : clises) : clises :=
  mkclises (cst s) (dh_param s) (ecdh_param s) (curve25519_param s) (pqhybrid_param s) (kex_state s) (server_sig_algs s) v.
End state.

Section clikex.
Context {CL : CryptoLib} {ML : MpLib} {EL : EccLib} {DL : Ed25519Lib} {XL : Curve25519Lib}
  (base64_decode base64_encode : list Z → Z → option (list Z)) (opts : cli_runopts) (fuel : nat).

Definition on_cst {A} : ST sshsession A → ST clises A := zoom cst set_cst.
Definition on_hosts {A} : ST hostfile A → ST clises A := zoom hosts set_hosts.

Definition cli_kex_free_param : ST clises unit :=
  modify (λ s, set_dh_param None (set_ecdh_param None (set_curve25519_param None (set_pqhybrid_param None s)))).

(** The parameter of the negotiated method, and its public part into the
    payload. *)
Definition put_share : ST clises unit :=
  let* kex := on_cst newkeys_kex in
  match k_mode kex with
  | DROPBEAR_KEX_NORMAL_DH =>
      let* param := on_cst (gen_kexdh_param fuel) in
      do* modify (set_dh_param (Some param));
      on_cst (on_writepayload (buf_putmpint (dh_pub param)))
  | DROPBEAR_KEX_ECDH =>
      let* param := on_cst gen_kexecdh_param in
      do* modify (set_ecdh_param (Some param));
      on_cst (on_writepayload (buf_put_ecc_raw_pubkey_string (ecdh_key param)))
  | DROPBEAR_KEX_CURVE25519 =>
      let* param := on_cst gen_kexcurve25519_param in
      do* modify (set_curve25519_param (Some param));
      on_cst (on_writepayload (buf_putstring (c_pub param)))
  | DROPBEAR_KEX_PQHYBRID =>
      let* param := on_cst gen_kexpqhybrid_param in
      do* modify (set_pqhybrid_param (Some param));
      let* public := ptr (concat_public param) in
      on_cst (on_writepayload (buf_putbufstring public))
  end.

Definition send_msg_kexdh_init : ST clises unit :=
  do* cli_kex_free_param;
  do* on_cst (on_writepayload (buf_putbyte SSH_MSG_KEXDH_INIT));
  do* put_share;
  on_cst encrypt_packet.

(** The server's share, combined with ours. *)
Definition comb_share (hostkey : sign_key) : ST clises unit :=
  let* kex := on_cst newkeys_kex in
  let* s := get in
  match k_mode kex with
  | DROPBEAR_KEX_NORMAL_DH =>
      let* dh_f := on_cst (on_payload buf_getmpint) in
      let* dh_f := or_exit dh_f "Bad KEX packet" in
      let* param := ptr (dh_param s) in
      on_cst (kexdh_comb_key param dh_f hostkey)
  | DROPBEAR_KEX_ECDH =>
      let* ecdh_qs := on_cst (on_payload buf_getstringbuf) in
      let* param := ptr (ecdh_param s) in
      on_cst (kexecdh_comb_key param ecdh_qs hostkey)
  | DROPBEAR_KEX_CURVE25519 =>
      let* ecdh_qs := on_cst (on_payload buf_getstringbuf) in
      let* param := ptr (curve25519_param s) in
      on_cst (kexcurve25519_comb_key param ecdh_qs hostkey)
  | DROPBEAR_KEX_PQHYBRID =>
      let* q_s := on_cst (on_payload buf_getstringbuf) in
      let* param := ptr (pqhybrid_param s) in
      let* param := on_cst (kexpqhybrid_comb_key param q_s hostkey) in
      modify (set_pqhybrid_param (Some param))
  end.

(** The reply up to the point where it is accepted. *)
Definition accept_kexdh_reply : ST clises unit :=
  let* s := get in
  do* exit_if (negb (bool_decide (kex_state s = KEXDH_INIT_SENT))) "Received out-of-order kexdhreply";
  let* keytype := on_cst newkeys_hostkey in
  let* keybloblen := on_cst (on_payload buf_getint) in
  let* keyblob := on_cst (on_payload (let* p := buf_getptr keybloblen in mem_load p keybloblen)) in
  do* when (negb (donefirstkex (kexstate (cst s))))
    (on_hosts (checkhostkey base64_decode base64_encode opts keyblob keytype));
  let* (ok, (hostkey, _)) := on_cst (on_payload (buf_get_pub_key new_sign_key keytype)) in
  do* exit_if (negb ok) "Bad KEX packet";
  do* comb_share hostkey;
  do* cli_kex_free_param;
  let* s := get in
  let* nk := ptr (newkeys (cst s)) in
  let* hash := ptr (hash (kexdat (cst s))) in
  let* ok := on_cst (on_payload (buf_verify hostkey (algo_signature nk) hash)) in
  exit_if (negb ok) "Bad hostkey signature".

Definition recv_msg_kexdh_reply : ST clises unit :=
  do* accept_kexdh_reply;
  do* on_cst send_msg_newkeys;
  on_cst (modify (on_pkt (set_requirenext SSH_MSG_NEWKEYS))).

(** [fuel] is the number of extensions. *)
Fixpoint ext_info_loop (num_ext : nat) : ST clises unit :=
  match num_ext with
  | O => ret tt
  | S num_ext =>
      let* ext_name := on_cst (on_payload buf_getstring) in
      let* s := get in
      do* (match server_sig_algs s with
           | None =>
               if bytes_eqb ext_name SSH_SERVER_SIG_ALGS then
                 let* algs := on_cst (on_payload buf_getbuf) in
                 modify (set_server_sig_algs (Some algs))
               else on_cst (on_payload buf_eatstring)
           | Some _ => on_cst (on_payload buf_eatstring)
           end);
      ext_info_loop num_ext
  end.

Definition recv_msg_ext_info : ST clises unit :=
  let* s := get in
  if negb ((lastpacket (pkt (cst s)) =? SSH_MSG_NEWKEYS) && negb (donesecondkex (kexstate (cst s)))) then ret tt
  else
    let* num_ext := on_cst (on_payload buf_getint) in
    ext_info_loop (Z.to_nat num_ext).

(** cli-session.c, up to the switch on [cli_ses.state]: whether it is
    reached. *)
Definition cli_kexloop : ST clises bool :=
  let* s := get in
  if lastpacket (pkt (cst s)) =? 0 then ret false
  else if (lastpacket (pkt (cst s)) =? SSH_MSG_KEXINIT) && bool_decide (kex_state s = KEX_NOTHING) then
    do* when (negb (our_first_follows_matches (kexstate (cst s)))) send_msg_kexdh_init;
    do* modify (set_kex_state KEXDH_INIT_SENT);
    ret false
  else
    do* when (negb (bool_decide (kex_state s = KEX_NOTHING)) && sentnewkeys (kexstate (cst s)))
      (modify (set_kex_state KEX_NOTHING));
    let* s := get in
    ret (bool_decide (kex_state s = KEX_NOTHING) && donefirstkex (kexstate (cst s))).
End clikex.
