(* ===== verification/KexHandshake.v ===== *)
(** * The client's side, and both together (src/src/cli-kex.c, svr-kex.c)

    The client's share on the wire, what has to hold of a reply for the client
    to go on, and the exchange as a whole: client and server end with the same
    secret, exchange hash and session id. *)

From Stdlib Require Import ZArith Lia.
From stdpp Require Import base list strings.
From S2P Require Import Prelude.
From S2P Require Import Buffer.
From S2P Require Import Queue.
From S2P Require Import Random.
From S2P Require Import Algo.
From S2P Require Import Cipher.
From S2P Require Import KeyTypes.
From S2P Require Import Ecc.
From S2P Require Import SignKey.
From S2P Require Import KeyInstances.
From S2P Require Import SignKeyRead.
From S2P Require Import SignVerify.
From S2P Require Import SignAgree.
From S2P Require Import Session.
From S2P Require Import Packet.
From S2P Require Import Instances.
From S2P Require Import PacketRecv.
From S2P Require Import PacketSend.
From S2P Require Import Transport.
From S2P Require Import ProcessPacket.
From S2P Require Import Kex.
From S2P Require Import KexKeys.
From S2P Require Import KexInit.
From S2P Require Import KexMethods.
From S2P Require Import KexShare.
From S2P Require Import AuthLines.
From S2P Require Import KnownHosts.
From S2P Require Import SvrKex.
From S2P Require Import CliKex.
From S2P Require Import KexPeer.
From S2P Require Import KexReply.

(** ** The client's parameter *)

Section params.
Context {CL : CryptoLib}.
Implicit Types (c : clises).

(** The session's parameter of the method. *)
Definition has_param c (p : kex_param) : Prop :=
  match p with
  | DhParam a => dh_param c = Some a
  | EcdhParam a => ecdh_param c = Some a
  | X25519Param a => curve25519_param c = Some a
  | HybridParam a => pqhybrid_param c = Some a
  end.
Definition freed c : clises :=
  set_dh_param None (set_ecdh_param None (set_curve25519_param None (set_pqhybrid_param None c))).
Definition with_param (p : kex_param) c : clises :=
  match p with
  | DhParam a => set_dh_param (Some a) c
  | EcdhParam a => set_ecdh_param (Some a) c
  | X25519Param a => set_curve25519_param (Some a) c
  | HybridParam a => set_pqhybrid_param (Some a) c
  end.
End params.

Section client.
Context {CL : CryptoLib} {ML : MpLib} {MLaw : MpLaws ML} {EL : EccLib} {DL : Ed25519Lib}
  {XL : Curve25519Lib} {XLaw : Curve25519Laws XL}
  {base : ecc_curve → Z → point} {ELaw : EccLaws EL base}
  {kem_pair : dropbear_kem_desc → list Z → list Z → Prop} (fuel : nat).
Implicit Types (c : clises) (s : sshsession) (b pl : buffer).
#[local] Abbreviation derives := (derives kem_pair).
#[local] Abbreviation made := (made base kem_pair).
#[local] Abbreviation exchanging := (exchanging (kem_pair := kem_pair)).
#[local] Abbreviation runs m Q s := (wpf m any_exit (λ w, w = "fuel"%string) Q s).

(** *** Our share *)

Definition kexdh_init (p : kex_param) : list Z := SSH_MSG_KEXDH_INIT :: enc_field (client_share p).

(** The end of every method: the parameter kept, its public part written. *)
Lemma runs_keep_put p m acc (Q : unit → clises → Prop) c s pl r kex :
  made true kex p → wf_rng r → appends m (enc_field (client_share p)) → filled acc pl →
  (∀ p pl' r, made true kex p → wf_rng r → filled (acc ++ enc_field (client_share p)) pl' →
     Q tt (with_param p (set_cst (wview (with_rng r s) pl') c))) →
  runs (do* modify (with_param p); on_cst (on_writepayload m)) Q (set_cst (wview (with_rng r s) pl) c).
Proof.
  intros Hmade Hr Hm Hpl HQ. apply wpf_bind, runs_wp, wp_modify, wpf_zoom.
  replace (cst (with_param p (set_cst (wview (with_rng r s) pl) c))) with (wview (with_rng r s) pl) by (by destruct p).
  eapply runs_append; [exact Hm|exact Hpl|]. intros pl' Hpl'.
  replace (set_cst (wview (with_rng r s) pl') (with_param p (set_cst (wview (with_rng r s) pl) c)))
    with (with_param p (set_cst (wview (with_rng r s) pl') c)) by (by destruct p).
  by apply HQ.
Qed.

Lemma runs_put_share acc (Q : unit → clises → Prop) c s pl nk kex :
  newkeys s = Some nk → algo_kex nk = Some kex → method_ok kem_pair kex → isserver s = false → wf_rng (w_rng (wld s)) →
  filled acc pl →
  (∀ p pl' r, made true kex p → wf_rng r → filled (acc ++ enc_field (client_share p)) pl' →
     Q tt (with_param p (set_cst (wview (with_rng r s) pl') c))) →
  runs (put_share fuel) Q (set_cst (wview s pl) c).
Proof.
  intros Hn Hk Hm Hsrv Hr Hpl HQ. unfold put_share. apply wpf_bind, wpf_zoom. eapply runs_newkeys_kex; [exact Hn|exact Hk|].
  destruct (k_mode kex) eqn:Hmode; apply wpf_bind, wpf_zoom.
  - eapply (runs_gen_kexdh (base := base)); [exact Hn|exact Hk|exact Hm|done|exact Hr|]. intros a r Hmade Hr'.
    pose proof (Hmade true) as Hma. pose proof Hma as Hmd. unfold KexShare.made in Hmd. rewrite Hmode in Hmd. destruct Hmd as [_ Hpub].
    destruct (share_ok_dh kex a Hm Hmode Hpub) as (_&[Hp0 _]&_).
    refine (runs_keep_put (DhParam a) _ _ _ c s pl r kex Hma Hr' _ Hpl HQ). by apply appends_mpint.
  - eapply (runs_gen_kexecdh (base := base)); [exact Hn|exact Hk|exact Hm|done|exact Hr|]. intros a r Hmade Hr'.
    pose proof (Hmade true) as Hma. pose proof Hma as Hmd. unfold KexShare.made in Hmd. rewrite Hmode in Hmd. destruct Hmd as (_&_&_&Hf&_).
    refine (runs_keep_put (EcdhParam a) _ _ _ c s pl r kex Hma Hr' _ Hpl HQ). by apply appends_raw_point.
  - apply runs_wp, wp_gen_x25519; [exact Hr|]. intros a r Hmade Hr'. destruct (x25519_pub a Hmade) as [_ Hb].
    assert (Hma : made true kex (X25519Param a)) by (unfold KexShare.made; by rewrite Hmode).
    refine (runs_keep_put (X25519Param a) _ _ _ c s pl r kex Hma Hr' _ Hpl HQ). by apply appends_string.
  - apply runs_wp. eapply (wp_gen_pqhybrid (base := base)); [exact Hn|exact Hk|exact Hm|done|exact Hr|]. intros a r Hma Hr'.
    change (made (negb (isserver s)) kex (HybridParam a)) in Hma. rewrite Hsrv in Hma. cbn [negb] in Hma.
    pose proof Hma as Hmd. unfold KexShare.made in Hmd. rewrite Hmode in Hmd.
    destruct Hmd as (Hx&kem&pk&sk&pb&sb&_&_&_&Hpkb&_&Hcp&_&Hpb&_). destruct (x25519_pub _ Hx) as [_ Hxb].
    assert (Hw : appends (buf_putbufstring pb) (enc_field (client_share (HybridParam a)))).
    { cbn [client_share]. rewrite Hcp. apply appends_bufstring; [done|]. rewrite Hpb. by apply bytes_ok_app. }
    apply wpf_bind, runs_wp, wp_modify, wpf_bind. rewrite Hcp. apply wpf_ret.
    apply wpf_zoom. refine (runs_append _ _ _ _ (with_rng r s) pl Hw Hpl _). intros pl' Hpl'. exact (HQ (HybridParam a) pl' r Hma Hr' Hpl').
Qed.

Lemma runs_send_init {ready} {T : Transport ready} msgs (Q : unit → clises → Prop) c nk kex :
  ready msgs (cst c) → zlen msgs < 2 ^ 31 → isserver (cst c) = false →
  newkeys (cst c) = Some nk → algo_kex nk = Some kex → method_ok kem_pair kex →
  (∀ p s', made true kex p → ready (msgs ++ [kexdh_init p]) s' → quiet s' = quiet (cst c) →
     Q tt (with_param p (set_cst s' (freed c)))) →
  runs (send_msg_kexdh_init fuel) Q c.
Proof.
  intros Hrd Hmsgs Hsrv Hn Hk Hm HQ. set (s := cst c) in *. destruct (tr_rng _ _ Hrd) as [Hr Hrng].
  apply wpf_bind, runs_wp, wp_modify. change (runs (do* on_cst (on_writepayload (buf_putbyte SSH_MSG_KEXDH_INIT)); do* put_share fuel; on_cst encrypt_packet) Q (freed c)).
  apply wpf_bind, wpf_zoom. change (cst (freed c)) with s. rewrite (wview_self s).
  eapply runs_append; [by apply (appends_byte SSH_MSG_KEXDH_INIT)|exact (clear_filled s (tr_clear _ _ Hrd))|]. intros pl1 H1.
  apply wpf_bind. eapply (runs_put_share _ _ (freed c) s pl1); [exact Hn|exact Hk|exact Hm|exact Hsrv|exact Hr|exact H1|].
  intros p pl2 r Hmade Hr' H2. pose proof (client_share_ok kex p Hm Hmade) as (_&_&Hsh).
  change (([] ++ [SSH_MSG_KEXDH_INIT]) ++ enc_field (client_share p)) with (kexdh_init p) in H2. destruct H2 as [(Hw2&_&Hc2) Hs2].
  apply wpf_zoom, runs_wp.
  replace (cst (with_param p (set_cst (wview (with_rng r s) pl2) (freed c)))) with (wview (with_rng r s) pl2) by (by destruct p).
  eapply wp_mono; [eapply wp_exit_mono; [eapply (tr_send msgs (with_rng r s)); [by apply Hrng|exact Hmsgs| |exact Hw2|exact Hc2|exact Hs2]|done]|].
  { split; [rewrite <-Hc2; by apply bytes_ok_slice, Hw2|]. unfold kexdh_init. rewrite zlen_cons.
    pose proof (zlen_nonneg (enc_field (client_share p))). unfold TRANS_MAX_PAYLOAD_LEN. lia. }
  intros [] s' [Hrd' Hq'].
  replace (set_cst s' (with_param p (set_cst (wview (with_rng r s) pl2) (freed c)))) with (with_param p (set_cst s' (freed c))) by (by destruct p).
  apply HQ; [exact Hmade|exact Hrd'|exact Hq'].
Qed.

(** *** The server's share, combined *)

(** What the client does with a value it has read: [k] goes on. *)
Definition goes_on {A} E (Q : A → clises → Prop) c s p kex acc hb blob (k : ST clises A) (them : Buffer.field) (b' : buffer) : Prop :=
  (∀ us sec, derives true kex p us them sec →
     (hash_room acc hb blob us them sec → wp k E Q (set_cst (combined kex acc blob us them sec (pay s b')) (freed c))) ∧
     (¬ hash_room acc hb blob us them sec → ∀ e, E e)) ∧
  ((¬ ∃ us sec, derives true kex p us them sec) → ∀ e : string, E e).

Lemma wp_comb_free {A} E (Q : A → clises → Prop) c s b b' p nk kex acc hb hk them m (k : ST clises A) :
  let blob := pub_blob hk (algo_hostkey nk) in
  goes_on E Q c s p kex acc hb blob k them b' →
  (∀ Q' : unit → sshsession → Prop,
     (∀ us sec, derives true kex p us them sec →
        (hash_room acc hb blob us them sec → Q' tt (combined kex acc blob us them sec (pay s b'))) ∧
        (¬ hash_room acc hb blob us them sec → ∀ e, E e)) → wp m E Q' (pay s b')) →
  wp (on_cst m) E (λ _ c', wp (do* cli_kex_free_param; k) E Q c') (set_cst (pay s b') (set_cst (pay s b) c)).
Proof.
  intros blob [HQ _] Hm. apply wp_zoom, Hm. intros us sec Hd. destruct (HQ us sec Hd) as [H1 H2]. split; [|exact H2].
  intros Hroom. by apply wp_bind, wp_modify, H1.
Qed.

Lemma wp_comb_share {A} E R (Q : A → clises → Prop) c s b p nk kex acc hb hk (k : ST clises A) :
  exchanging s nk kex acc hb hk → isserver s = false → made true kex p → has_param c p → wf_rng (w_rng (wld s)) →
  reads kex E R b → (∀ them b', R them b' → them_ok kex them) →
  (∀ them b', R them b' → goes_on E Q c s p kex acc hb (pub_blob hk (algo_hostkey nk)) k them b') →
  wp (do* comb_share hk; do* cli_kex_free_param; k) E Q (set_cst (pay s b) c).
Proof.
  intros Hex Hsrv Hmade Hp Hr Hreads Hthem HQ. pose proof Hex as (Hn&Hk&_). unfold reads in Hreads. unfold comb_share.
  apply wp_bind, wp_bind, wp_zoom. eapply wp_newkeys_kex; [exact Hn|exact Hk|]. apply wp_bind, wp_get.
  assert (Hcl : ∀ b', negb (isserver (pay s b')) = true) by (intros b'; cbn; by rewrite Hsrv).
  pose proof Hmade as Hmd. unfold KexShare.made in Hmd.
  destruct (k_mode kex) eqn:Hmode, p as [a|a|a|a]; try done; cbn [has_param] in Hp; apply wp_bind, wp_zoom, wp_pay;
    (eapply wp_mono; [exact Hreads|]).
  - intros [e|] b' HR; [|by apply wp_bind, wp_exit]. pose proof (HQ _ _ HR) as [_ HE]. apply wp_bind, wp_ret, wp_bind.
    eapply wp_ptr; [exact Hp|]. eapply wp_comb_free; [exact (HQ _ _ HR)|]. intros Q' HQ'.
    eapply wp_kexdh_comb_key; [exact Hex|exact Hmode|rewrite Hcl; exact Hmade|rewrite Hcl; exact HQ'|rewrite Hcl; intros Hno; by apply HE].
  - intros q b' (bs&->&HR). pose proof (HQ _ _ HR) as [_ HE]. pose proof (Hthem _ _ HR) as Hbs. unfold them_ok in Hbs. rewrite Hmode in Hbs.
    apply wp_bind. eapply wp_ptr; [exact Hp|]. eapply wp_comb_free; [exact (HQ _ _ HR)|]. intros Q' HQ'.
    eapply wp_kexecdh_comb_key; [exact Hex|exact Hmode|exact Hbs|rewrite Hcl; exact Hmade|rewrite Hcl; exact HQ'|rewrite Hcl; exact HE].
  - intros q b' (bs&->&HR). pose proof (HQ _ _ HR) as [_ HE]. pose proof (Hthem _ _ HR) as Hbs. unfold them_ok in Hbs. rewrite Hmode in Hbs.
    apply wp_bind. eapply wp_ptr; [exact Hp|]. eapply wp_comb_free; [exact (HQ _ _ HR)|]. intros Q' HQ'.
    eapply wp_kexcurve25519_comb_key; [exact Hex|exact Hmode|exact Hbs|rewrite Hcl; exact Hmade|rewrite Hcl; exact HQ'|rewrite Hcl; exact HE].
  - intros q b' (bs&->&HR). pose proof (HQ _ _ HR) as [HQ1 HE]. pose proof (Hthem _ _ HR) as Hbs. unfold them_ok in Hbs. rewrite Hmode in Hbs.
    apply wp_bind. eapply wp_ptr; [exact Hp|]. apply wp_bind, wp_zoom.
    eapply wp_kexpqhybrid_comb_key with (s := pay s b'); [exact Hex|exact Hmode|exact Hbs|rewrite Hcl; exact Hmade|exact Hr|]. split; [|rewrite Hcl; exact HE].
    rewrite Hcl. intros us sec a' r Hd _ Hsame _. rewrite Hsame by done. destruct (HQ1 us sec Hd) as [H1 H2]. split; [|exact H2].
    intros Hroom. apply wp_modify, wp_bind, wp_modify. exact (H1 Hroom).
Qed.

(** *** The reply, step by step *)

Definition reply_tail (hostkey : sign_key) : ST clises unit :=
  let* c := get in
  let* nk := ptr (newkeys (cst c)) in
  let* hash := ptr (hash (kexdat (cst c))) in
  let* ok := on_cst (on_payload (buf_verify hostkey (algo_signature nk) hash)) in
  exit_if (negb ok) "Bad hostkey signature".

(** What the reply says the length of the host key is, and the bytes of it. *)
Definition blob_len b : Z := LOAD32H (slice (b_pos b) 4 (b_data b)).
Definition blob_of b : list Z := slice (b_pos b + 4) (blob_len b) (b_data b).

Lemma combined_pay kex acc blob us them sec s b :
  combined kex acc blob us them sec (pay s b) = pay (combined kex acc blob us them sec s) b.
Proof. by destruct sec. Qed.

Lemma wp_reply_tail E (Q : unit → clises → Prop) c s b hk nk kex acc blob us them sec :
  newkeys s = Some nk → isserver s = false →
  wp (buf_verify hk (algo_signature nk) (buf_of (exchange_hash kex acc false blob us them sec))) E
    (λ ok b', if ok then Q tt (set_cst (combined kex acc blob us them sec (pay s b')) c) else ∀ e, E e) b →
  wp (reply_tail hk) E Q (set_cst (combined kex acc blob us them sec (pay s b)) c).
Proof.
  intros Hn Hsrv Hv. unfold reply_tail. apply wp_bind, wp_get, wp_bind.
  eapply wp_ptr; [exact (eq_trans (combined_newkeys kex acc blob us them sec (pay s b)) Hn)|]. apply wp_bind.
  eapply wp_ptr; [exact (combined_hash kex acc blob us them sec (pay s b))|].
  change (isserver (pay s b)) with (isserver s). rewrite Hsrv. rewrite combined_pay. apply wp_bind, wp_zoom, wp_pay.
  eapply wp_mono; [exact Hv|]. intros [] b' HQ; [|by apply wp_exit]. apply wp_ret. rewrite combined_pay in HQ. exact HQ.
Qed.

Context (base64_decode base64_encode : list Z → Z → option (list Z)) (opts : cli_runopts).

(** Up to the host key. *)
Lemma wp_reply_hostkey E P R (Q : unit → clises → Prop) c s b nk :
  newkeys s = Some nk → wf_buf b →
  (kex_state c ≠ KEXDH_INIT_SENT ∨ b_len b < b_pos b + 4 + Z.max 0 (blob_len b) → ∀ e, E e) →
  wp (when (negb (donefirstkex (kexstate s))) (checkhostkey base64_decode base64_encode opts (blob_of b) (algo_hostkey nk))) E
    (λ _ h, P h) (hosts c) →
  (b_pos b + 4 ≤ b_len b → wp (buf_get_pub_key new_sign_key (algo_hostkey nk)) E
    (λ '(ok, (hk, _)) b', if ok then R hk b' else ∀ e, E e) (after_get 4 b)) →
  (∀ hk b' h, kex_state c = KEXDH_INIT_SENT → b_pos b + 4 + blob_len b ≤ b_len b → R hk b' → P h →
     wp (do* comb_share hk; do* cli_kex_free_param; reply_tail hk) E Q (set_cst (pay s b') (set_hosts h c))) →
  wp (accept_kexdh_reply base64_decode base64_encode opts) E Q (set_cst (pay s b) c).
Proof.
  intros Hn Hwf HE Hhost Hget HQ. unfold accept_kexdh_reply. apply wp_bind, wp_get, wp_bind, wp_exit_if; intros Hst.
  { apply HE. left. intros Heq. change (kex_state (set_cst (pay s b) c)) with (kex_state c) in Hst. by rewrite Heq, bool_decide_eq_true_2 in Hst. }
  change (kex_state (set_cst (pay s b) c)) with (kex_state c) in Hst. apply negb_false_iff, bool_decide_eq_true in Hst.
  pose proof Hwf as (?&?&Hd&Hb).
  apply wp_bind, wp_zoom, wp_bind, wp_get, wp_bind. eapply wp_ptr; [exact Hn|]. apply wp_ret.
  apply wp_bind, wp_zoom, wp_pay, wp_buf_getint; [done| |intros; apply HE; right; lia]. fold (blob_len b). intros Hl4.
  assert (Hn0 : 0 ≤ blob_len b) by (apply LOAD32H_range; by apply bytes_ok_slice).
  assert (Hw1 : wf_buf (after_get 4 b)) by (by apply wf_after_get).
  apply wp_bind, wp_zoom, wp_pay, wp_bind, wp_buf_getptr; [done|done| |cbn; intros; apply HE; right; lia].
  cbn [after_get set_pos b_pos b_len b_data]. intros Hl. apply wp_mem_load; cbn [after_get set_pos b_pos b_len b_data]; [lia..|].
  fold (blob_of b). apply wp_bind.
  change (wp (when (negb (donefirstkex (kexstate s))) (on_hosts (checkhostkey base64_decode base64_encode opts (blob_of b) (algo_hostkey nk)))) E
    (λ _ c', wp (let* (ok, (hostkey, _)) := on_cst (on_payload (buf_get_pub_key new_sign_key (algo_hostkey nk))) in
         do* exit_if (negb ok) "Bad KEX packet"; do* comb_share hostkey; do* cli_kex_free_param; reply_tail hostkey) E Q c')
    (set_cst (pay s (after_get 4 b)) c)).
  assert (Hrest : ∀ h, P h → wp (let* (ok, (hostkey, _)) := on_cst (on_payload (buf_get_pub_key new_sign_key (algo_hostkey nk))) in
         do* exit_if (negb ok) "Bad KEX packet"; do* comb_share hostkey; do* cli_kex_free_param; reply_tail hostkey) E Q
    (set_cst (pay s (after_get 4 b)) (set_hosts h c))).
  { intros h HP. apply wp_bind, wp_zoom, wp_pay. eapply wp_mono; [exact (Hget Hl4)|]. intros [ok [hk t]] b' HR.
    apply wp_bind, wp_exit_if; intros Hok; destruct ok; try done.
    by apply HQ. }
  destruct (donefirstkex (kexstate s)); cbn [negb when] in *.
  - apply wp_ret. replace c with (set_hosts (hosts c) c) by (by destruct c). by apply Hrest.
  - apply wp_zoom. change (hosts (set_cst (pay s (after_get 4 b)) c)) with (hosts c). eapply wp_mono; [exact Hhost|].
    intros [] h HP. by apply Hrest.
Qed.

(** A client that waits for the reply. *)
Definition awaiting c nk kex acc hb p : Prop :=
  isserver (cst c) = false ∧ newkeys (cst c) = Some nk ∧ algo_kex nk = Some kex ∧ method_ok kem_pair kex ∧
  algo_hostkey nk ≠ DROPBEAR_SIGNKEY_ANY ∧ kexhashbuf (kexdat (cst c)) = Some hb ∧ buf_acc acc hb ∧
  made true kex p ∧ has_param c p ∧ wf_rng (w_rng (wld (cst c))).

(** The libraries and the files of the host key check. *)
Definition hosts_ok (h : hostfile) : Prop :=
  (∀ text n out, base64_decode text n = Some out → zlen out ≤ n ∧ bytes_ok out) ∧
  (∀ bs n text, base64_encode bs n = Some text → zlen text ≤ n ∧ bytes_ok text) ∧
  bytes_ok (remotehost opts) ∧ zlen (remotehost opts) < 2 ^ 31 ∧ ∀ file, hf_content h = Some file → bytes_ok file.

(** What has been checked when the client goes on, from the session [c] to
    [c'] with the packet [b]. *)
Definition authentic c c' b nk kex acc p : Prop :=
  let type := algo_hostkey nk in
  ∃ hk them us sec b2 b3,
    kex_state c = KEXDH_INIT_SENT ∧
    (donefirstkex (kexstate (cst c)) = true ∧ hosts c' = hosts c ∨
     trusted base64_decode base64_encode opts (blob_of b) type (hosts c) (hosts c')) ∧
    holds_key hk type ∧
    (∀ key, writable type → holds_key key type → zlen (pub_blob key type) ≤ MAX_PUBKEY_SIZE →
       blob_of b = pub_blob key type → hk = with_public key type new_sign_key) ∧
    derives true kex p us them sec ∧
    buf_verify hk (algo_signature nk) (buf_of (exchange_hash kex acc false (pub_blob hk type) us them sec)) b2 = Ok (true, b3) ∧
    c' = freed (set_hosts (hosts c') (set_cst (combined kex acc (pub_blob hk type) us them sec (pay (cst c) b3)) c)).

Lemma cst_pay c b : payload (pkt (cst c)) = Some b → c = set_cst (pay (cst c) b) c.
Proof. intros Hb. rewrite <-(pay_self _ _ Hb). by destruct c. Qed.

(** The key that is read from the blob of a key is its public part. *)
Lemma blob_key b key type hk t b' :
  wf_buf b → b_pos b + 4 + blob_len b ≤ b_len b → writable type → holds_key key type →
  zlen (pub_blob key type) ≤ MAX_PUBKEY_SIZE → blob_of b = pub_blob key type →
  buf_get_pub_key new_sign_key type (after_get 4 b) = Ok (true, (hk, t), b') → hk = with_public key type new_sign_key.
Proof.
  intros Hwf Hl Hw Hk Hsz Hblob Hrun. pose proof Hwf as (?&?&Hd&Hb).
  assert (Hn0 : 0 ≤ blob_len b) by (apply LOAD32H_range; by apply bytes_ok_slice).
  assert (Hzl : zlen (pub_blob key type) = blob_len b) by (rewrite <-Hblob; apply zlen_slice; lia).
  assert (Hgo : wp (buf_get_pub_key new_sign_key type) no_exit (λ r _, r = (true, (with_public key type new_sign_key, type))) (after_get 4 b)).
  { apply (wp_get_pub_blob key type); [done|done|done|by right|by apply wf_after_get; [done|lia|lia]| |done].
    split; cbn [after_get set_pos b_pos b_len b_data]; rewrite Hzl; [lia|exact Hblob]. }
  unfold wp in Hgo. rewrite Hrun in Hgo. congruence.
Qed.

Lemma wp_accept_any c b nk kex acc hb p :
  payload (pkt (cst c)) = Some b → wf_buf b → awaiting c nk kex acc hb p → hosts_ok (hosts c) →
  wp (accept_kexdh_reply base64_decode base64_encode opts) any_exit (λ _ c', authentic c c' b nk kex acc p) c.
Proof.
  intros Hpay Hwf (Hsrv&Hn&Hk&Hm&Hany&Hhb&Hacc&Hmade&Hp&Hr) (Hb64&Henc&Hhost1&Hhost2&Hfile).
  set (type := algo_hostkey nk).
  set (Q := λ (_ : unit) c', authentic c c' b nk kex acc p). rewrite (cst_pay c b Hpay).
  eapply (wp_reply_hostkey any_exit
    (λ h, donefirstkex (kexstate (cst c)) = true ∧ h = hosts c ∨ trusted base64_decode base64_encode opts (blob_of b) type (hosts c) h)
    (λ hk b', holds_key hk type ∧ rsa_part_ok hk ∧ wf_buf b' ∧
       ∃ t, buf_get_pub_key new_sign_key type (after_get 4 b) = Ok (true, (hk, t), b')));
    [exact Hn|exact Hwf|done| | |].
  - destruct (donefirstkex (kexstate (cst c))); cbn [negb when]; [by apply wp_ret; left|].
    eapply wp_mono; [by apply wp_checkhostkey|]. intros [] h Ht. by right.
  - intros Hl4. assert (Hw1 : wf_buf (after_get 4 b)) by (by apply wf_after_get).
    eapply wp_mono; [apply wp_run, (wp_buf_get_pub_key _ _ (λ r b', wf_buf b' ∧ rsa_part_ok r.2.1 ∧
      (r.1 = true → holds_key r.2.1 r.2.2 ∧ (type = DROPBEAR_SIGNKEY_ANY ∨ r.2.2 = type)))); [exact Hw1|]|].
    { intros ok key t b' Hs Hrsa Hok. split_and!; [apply Hs|by apply Hrsa|intros Ht; by destruct (Hok Ht) as (?&?&_)]. }
    cbn [fst snd]. intros [[] [hk t]] b' [(Hw'&Hrsa&Hok) Hrun]; [|done]. destruct (Hok eq_refl) as (Hkey&[?|Ht]); [done|]. cbn [fst snd] in *. subst t.
    split_and!; [exact Hkey|exact Hrsa|exact Hw'|]. by exists type.
  - intros hk b1 h Hst Hl (Hkey&Hrsa&Hw1&t&Hrun) HP.
    set (s := cst c) in *.
    eapply (wp_comb_share any_exit (λ them b2, them_ok kex them ∧ scanned b1 b2) _ (set_hosts h c) s b1 p nk kex acc hb);
      [by split_and!|exact Hsrv|exact Hmade|exact Hp|exact Hr|by apply reads_any|by intros ?? [? _]|].
    intros them b2 [Hthem Hs2]. split; [|done]. intros us sec Hd. split; [|done]. intros _.
    eapply wp_reply_tail; [exact Hn|exact Hsrv|]. eapply wp_mono; [apply wp_run, (wp_buf_verify _ _ _ (λ _ _, True)); [done|apply Hs2|done]|].
    intros [] b3 [_ Hv]; [|done]. exists hk, them, us, sec, b2, b3. split_and!; try done.
    intros key Hw Hkey' Hsz Hblob. exact (blob_key b key type hk t b1 Hwf Hl Hw Hkey' Hsz Hblob Hrun).
Qed.

(** *** An honest reply *)

Lemma pub_blob_public hk type into : writable type → holds_key hk type →
  holds_key (with_public hk type into) type ∧ pub_blob (with_public hk type into) type = pub_blob hk type.
Proof.
  intros Hw Hk. unfold pub_blob.
  destruct (kind_cases hk type Hw Hk) as [(k&->&_&Hok&->&->)|[(k&->&_&Hok&->&->)|(k&Ht&He&_&_&_&Hdp&Hp&->&->)]].
  - split; [by exists (rsa_public k)|done].
  - split; [by exists (ed_public k)|done].
  - unfold holds_key, pub_fields. rewrite Ht, He. destruct (ptr_set_ecckey type (Some (ecc_public k)) into [] He) as [_ ->].
    split; [|done]. by exists (ecc_public k).
Qed.

Lemma blob_at b bs rest : wf_buf b → zlen bs ≤ MAX_PUBKEY_SIZE → at_cursor b (enc_field (FString bs) ++ rest) →
  blob_len b = zlen bs ∧ blob_of b = bs ∧ b_pos b + 4 + zlen bs ≤ b_len b ∧ at_cursor (after_get 4 b) bs ∧ wf_buf (after_get 4 b) ∧
  at_cursor (after_get (zlen bs) (after_get 4 b)) rest.
Proof.
  intros Hwf Hl Hat. cbn [enc_field] in Hat. rewrite <-app_assoc in Hat. apply at_cursor_app in Hat as [[H1 H2] Hat]; [|done].
  rewrite STORE32H_length in *. pose proof (zlen_nonneg bs). unfold MAX_PUBKEY_SIZE in Hl.
  assert (Hn : blob_len b = zlen bs) by (unfold blob_len; rewrite H2; apply LOAD32H_STORE32H; unfold u32_ok; lia).
  assert (Hw : wf_buf (after_get 4 b)) by (by apply wf_after_get).
  apply at_cursor_app in Hat as [Hat Hrest]; [|done]. pose proof Hat as [H3 H4]. cbn [after_get set_pos b_pos b_len b_data] in H3, H4.
  unfold blob_of. rewrite Hn. by split_and!.
Qed.

Lemma wp_accept_honest s c b nk kex acc hb p hk us sec sig h :
  awaiting (set_cst s c) nk kex acc hb p → kex_state c = KEXDH_INIT_SENT → wf_buf b →
  let type := algo_hostkey nk in
  let blob := pub_blob hk type in
  let H := exchange_hash kex acc false blob (client_share p) us sec in
  sig_at b (enc_fields [FString blob; us; FString sig]) →
  writable type → keytype_of (algo_signature nk) = type → holds_key hk type → zlen blob ≤ MAX_PUBKEY_SIZE → share_ok kex us →
  derives true kex p (client_share p) us sec → hash_room acc hb blob (client_share p) us sec →
  SignAgree.accepted hk (algo_signature nk) H sig →
  when (negb (donefirstkex (kexstate s))) (checkhostkey base64_decode base64_encode opts blob type) (hosts c) = Ok (tt, h) →
  wp (accept_kexdh_reply base64_decode base64_encode opts) no_exit
    (λ _ c', ∃ b3, c' = freed (set_hosts h (set_cst (combined kex acc blob (client_share p) us sec (pay s b3)) c))) (set_cst (pay s b) c).
Proof.
  intros (Hsrv&Hn&Hk&Hm&Hany&Hhb&Hacc&Hmade&Hp&Hr) Hst Hwf type blob H [Hat Hlen] Hw Hkt Hkey Hsz (Hthem&Hfus&_) Hd Hroom Hok Hhost.
  cbn [cst set_cst] in *. set (hkC := with_public hk type new_sign_key). destruct (pub_blob_public hk type new_sign_key Hw Hkey) as [HkeyC HblobC].
  change (enc_fields [FString blob; us; FString sig]) with (enc_field (FString blob) ++ enc_fields [us; FString sig]) in Hat, Hlen.
  destruct (blob_at b blob _ Hwf Hsz Hat) as (Hbl&Hbo&Hle&Hat1&Hw1&Hat2).
  assert (Hw2 : wf_buf (after_get (zlen blob) (after_get 4 b))).
  { apply wf_after_get; [done|apply zlen_nonneg|]. apply Hat1. }
  destruct (at_cursor_fields _ _ _ Hw2 Hat2) as (Hatus&Hat3&Hw3).
  set (b2 := after_get (zlen blob) (after_get 4 b)) in *. set (b3 := after_get (zlen (enc_field us)) b2) in *.
  eapply (wp_reply_hostkey no_exit (λ h', h' = h) (λ hk' b', hk' = hkC ∧ b' = b2)); [exact Hn|exact Hwf| | | |].
  - rewrite Hbl. intros [Hne|Hs]; [done|]. pose proof (zlen_nonneg blob). lia.
  - rewrite Hbo. fold type. unfold wp. by rewrite Hhost.
  - intros _. eapply (wp_get_pub_blob hk type); [done|done|done|by right|done|exact Hat1|]. done.
  - intros hk' b' h' _ _ [-> ->] ->.
    assert (Hex : exchanging s nk kex acc hb hkC) by (by split_and!).
    eapply (wp_comb_share no_exit (λ them b', them = us ∧ b' = b3) _ (set_hosts h c) s b2 p nk kex acc hb);
      [exact Hex|exact Hsrv|exact Hmade|exact Hp|exact Hr|by apply reads_at|by intros ?? [-> _]|].
    intros them b' [-> ->]. fold type. unfold hkC. rewrite HblobC. fold blob. split.
    2: { intros Hno. destruct Hno. by exists (client_share p), sec. }
    intros us' sec' Hd'. destruct (client_derives_fun kex p _ _ _ _ _ Hd' Hd) as [-> ->]. split; [|done]. intros _.
    eapply wp_reply_tail; [exact Hn|exact Hsrv|]. fold H.
    assert (Hs : sig_at b3 (enc_field (FString sig))).
    { split; [by rewrite <-enc_fields_1|]. cbn [b3 b2 after_get set_pos b_pos b_len]. rewrite Hlen, zlen_app, zlen_enc_fields_cons, enc_fields_1, string_field_length. lia. }
    eapply wp_mono; [|]. { rewrite <-Hkt at 1. eapply (Hok new_sign_key (buf_of H) b3 ); [apply contents_buf_of|done|exact Hs]. }
    intros ok b4 ->. by exists b4.
Qed.
End client.

(** ** Client and server *)

(** What both sides had before, and what they have after the exchange: the
    secret and hash the keys are derived from, and the session id. *)
Definition same_before (x y : kexdata) : Prop :=
  dh_K x = dh_K y ∧ dh_K_bytes x = dh_K_bytes y ∧ session_id x = session_id y.
Definition agree (x y : kexdata) : Prop :=
  kex_secret x = kex_secret y ∧ hash x = hash y ∧ is_Some (hash x) ∧ session_id x = session_id y.

Lemma combined_agree {CL : CryptoLib} kex acc blob us them sec (c s : sshsession) :
  isserver c = false → isserver s = true → same_before (kexdat c) (kexdat s) →
  agree (kexdat (combined kex acc blob us them sec c)) (kexdat (combined kex acc blob them us sec s)).
Proof.
  intros Hc Hs (H1&H2&H3). unfold combined. rewrite Hc, Hs.
  change (exchange_hash kex acc true blob them us sec) with (exchange_hash kex acc false blob us them sec).
  set (H := exchange_hash _ _ _ _ _ _ _). destruct c as [? ? ? ? ? [] ? ?], s as [? ? ? ? ? [] ? ?]. cbn in *. subst.
  destruct sec; cbn; match goal with |- context [match ?x with Some _ => _ | None => _ end] => destruct x end; by split_and!.
Qed.

(** C3: The client authenticates the server.  Whatever packet
    [recv_msg_kexdh_reply] is given while the client waits for a reply, it
    stays inside its buffers.  If it goes on, then the reply was expected; in
    the first exchange the host key blob of the packet is trusted
    ([known_hosts_sound] says what that takes); the key the signature was
    checked with is of the negotiated type and is the key of that blob; the
    secret follows from the client's own parameter and the value received;
    the signature is valid over the hash of exactly this transcript; and that
    hash and secret are what the session continues with. *)
Theorem client_authenticates {CL : CryptoLib} {ML : MpLib} {MLaw : MpLaws ML} {EL : EccLib} {DL : Ed25519Lib}
    {XL : Curve25519Lib} {XLaw : Curve25519Laws XL} {base} {ELaw : EccLaws EL base}
    {kem_pair : dropbear_kem_desc → list Z → list Z → Prop}
    (base64_decode base64_encode : list Z → Z → option (list Z)) (opts : cli_runopts)
    (c : clises) (b : buffer) nk kex acc hb p :
  payload (pkt (cst c)) = Some b → wf_buf b →
  awaiting (base := base) (kem_pair := kem_pair) c nk kex acc hb p → hosts_ok base64_decode base64_encode opts (hosts c) →
  wp (accept_kexdh_reply base64_decode base64_encode opts) any_exit
    (λ _ c', authentic (kem_pair := kem_pair) base64_decode base64_encode opts c c' b nk kex acc p) c.
Proof. by apply wp_accept_any. Qed.

(** The client's share.  [send_msg_kexdh_init] makes a fresh parameter of
    the negotiated method, keeps it in the session and sends exactly its
    public part; a parameter left from before is gone. *)
Theorem kexdh_init_sent {CL : CryptoLib} {ML : MpLib} {MLaw : MpLaws ML} {EL : EccLib} {DL : Ed25519Lib}
    {XL : Curve25519Lib} {XLaw : Curve25519Laws XL} {base} {ELaw : EccLaws EL base}
    {kem_pair : dropbear_kem_desc → list Z → list Z → Prop} {ready} {T : Transport ready}
    (fuel : nat) (msgs : list (list Z)) (c : clises) nk kex :
  ready msgs (cst c) → zlen msgs < 2 ^ 31 → isserver (cst c) = false →
  newkeys (cst c) = Some nk → algo_kex nk = Some kex → method_ok kem_pair kex →
  match send_msg_kexdh_init fuel c with
  | Ok (_, c') => ∃ p s', c' = with_param p (set_cst s' (freed c)) ∧ has_param c' p ∧ made base kem_pair true kex p ∧
      share_ok kex (client_share p) ∧ ready (msgs ++ [kexdh_init p]) s' ∧ quiet s' = quiet (cst c)
  | Exit _ => True
  | Fault w => w = "fuel"%string
  end.
Proof.
  intros Hrd Hmsgs Hsrv Hn Hk Hm.
  eapply (runs_send_init (base := base) fuel msgs (λ _ c', _)); [exact Hrd|exact Hmsgs|exact Hsrv|exact Hn|exact Hk|exact Hm|].
  intros p s' Hmade Hrd' Hq. exists p, s'. split_and!; [done|by destruct p|done| |done|done].
  by eapply client_share_ok.
Qed.

(** C2: Client and server agree.  The server is given the message of the
    client of [kexdh_init_sent] and the client the server's reply.  If neither
    ends the connection before, both have derived the same secret, and have
    the same exchange hash and session id: the keys of the session are
    computed from equal data.  The client has to accept: it may only refuse
    the host key, a Diffie-Hellman value of 1 or p - 1 or a point the library
    finds invalid, or an ECDSA signature the server should not have made
    ([regular]).  This is for each of the four methods and each type of host
    key. *)
Theorem handshake_agreement {CL : CryptoLib} {ML : MpLib} {MLaw : MpLaws ML} {EL : EccLib} {DL : Ed25519Lib}
    {XL : Curve25519Lib} {XLaw : Curve25519Laws XL} {base} {ELaw : EccLaws EL base} {pair} {DLaw : Ed25519Laws DL pair}
    {kem_pair : dropbear_kem_desc → list Z → list Z → Prop} {ready} {T : Transport ready}
    (base64_decode base64_encode : list Z → Z → option (list Z)) (copts : cli_runopts) (fuel : nat) (sopts : svr_runopts)
    (msgs : list (list Z)) (c : clises) (k : svrkex) (bS hbC hbS : buffer) nkC nkS kex acc p :
  awaiting (base := base) (kem_pair := kem_pair) c nkC kex acc hbC p → kex_state c = KEXDH_INIT_SENT →
  payload (pkt (kst k)) = Some bS → wf_buf bS → at_cursor bS (enc_field (client_share p)) →
  answering (kem_pair := kem_pair) ready msgs (kst k) nkS kex acc hbS →
  keys_ok (base := base) (pair := pair) sopts nkS k →
  algo_hostkey nkC = algo_hostkey nkS → algo_signature nkC = algo_signature nkS →
  writable (algo_hostkey nkS) → keytype_of (algo_signature nkS) = algo_hostkey nkS →
  b_size hbS ≤ b_size hbC → same_before (kexdat (cst c)) (kexdat (kst k)) →
  match answer_kexdh_init sopts fuel k with
  | Ok (_, k') => ∃ blob us body, let sig := sig_wire (sig_name (algo_signature nkS)) body in
      ready (msgs ++ [kexdh_reply blob us sig]) (kst k') ∧
      ∀ bC h, wf_buf bC → sig_at bC (enc_fields [FString blob; us; FString sig]) →
        regular (algo_signature nkS) body → acceptable kex us →
        when (negb (donefirstkex (kexstate (cst c))))
          (checkhostkey base64_decode base64_encode copts blob (algo_hostkey nkS)) (hosts c) = Ok (tt, h) →
        ∃ c', accept_kexdh_reply base64_decode base64_encode copts (set_cst (pay (cst c) bC) c) = Ok (tt, c') ∧
          agree (kexdat (cst c')) (kexdat (kst k'))
  | Exit _ => True
  | Fault w => w = "fuel"%string
  end.
Proof.
  intros Haw Hst Hb Hwf Hat Hans Hkeys Hty Hsg Hw Hkt Hsize Hsame.
  pose proof Haw as (HsrvC&HnC&HkC&Hm&_&_&_&Hmade&_). pose proof Hans as (_&_&HsrvS&_).
  destruct (client_share_ok kex p Hm Hmade) as (Hthem&Hf&_).
  eapply (runs_answer fuel msgs sopts _ (λ _ k', _));
    [exact Hb|exact (reads_at kex (client_share p) any_exit bS Hwf Hthem Hf Hat)|by intros ?? [-> _]|exact Hans|exact Hkeys|].
  intros them b' hk s' _ [-> ->] _ [Hkey _] (pS&us&sec&body&HmS&Hd&Hus&[Hblob Hroom]&_&_&Hacc&Hrd&Hq).
  exists (pub_blob hk (algo_hostkey nkS)), us, body. split; [exact Hrd|].
  intros bC h HwfC HatC Hreg Haccpt Hhost. cbn [kst set_kst].
  assert (HdC : derives kem_pair true kex p (client_share p) us sec) by (by eapply kex_agreement).
  pose proof (wp_accept_honest (base := base) (kem_pair := kem_pair) base64_decode base64_encode copts (cst c) c bC nkC kex acc hbC p hk us sec
    (sig_wire (sig_name (algo_signature nkS)) body) h) as Hgo. cbv zeta in Hgo. rewrite Hty, Hsg in Hgo.
  apply wp_no_exit_run in Hgo as ([]&c'&Hrun&b3&->).
  - eexists. split; [exact Hrun|]. 
    change (kexdat (cst (freed (set_hosts h (set_cst ?x c))))) with (kexdat x).
    assert (Hkd : kexdat s' = kexdat (quiet s')) by done. rewrite Hkd, Hq. change (kexdat (quiet ?x)) with (kexdat x).
    by apply combined_agree.
  - by destruct c.
  - done.
  - done.
  - exact HatC.
  - done.
  - done.
  - done.
  - done.
  - done.
  - done.
  - split; [exact Hblob|]. change (transcript false ?x (client_share p) us sec) with (transcript true x us (client_share p) sec).
    rewrite zlen_transcript. lia.
  - by apply Hacc.
  - exact Hhost.
Qed.

(** ** Witnesses

    The client of the exchange of KexReply.v. *)

#[local] Existing Instance toy_lib.
#[local] Existing Instance int_mp.
#[local] Existing Instance int_mp_laws.
#[local] Existing Instance toy_ecc.
#[local] Existing Instance toy_ecc_laws.
#[local] Existing Instance toy_ed25519.
#[local] Existing Instance toy_ed25519_laws.
#[local] Existing Instance toy_x25519.
#[local] Existing Instance toy_x25519_laws.

Definition toy_param : kex_param := DhParam (mkdh 9 5).
(** [toy_cliopts] accepts any host key that is not in the file. *)
Definition toy_client (packet : list Z) : clises :=
  mkclises (toy_exchange false packet) (Some (mkdh 9 5)) None None None KEXDH_INIT_SENT None (mkhosts None false 0).

Lemma toy_made : made (λ c _, toy_base c) toy_pair true toy_dh toy_param.
Proof. by split. Qed.

Lemma toy_awaiting packet : awaiting (base := λ c _, toy_base c) (kem_pair := toy_pair) (toy_client packet) toy_dhkeys toy_dh [] toy_hashbuf toy_param.
Proof.
  do 3 (split; [done|]). split; [apply toy_method_ok|]. do 2 (split; [done|]). split; [by apply buf_acc_new|].
  split; [apply toy_made|]. split; [done|]. split; [done|]. unfold MAX_COUNTER. cbn. lia.
Qed.

Lemma toy_hosts_ok packet : hosts_ok toy_base64 toy_encode toy_cliopts (hosts (toy_client packet)).
Proof.
  split_and!; [apply toy_base64_ok| |decide_closed|by vm_compute|done].
  intros bs n text. unfold toy_encode. destruct (bool_decide _) eqn:Hb; cbn [andb]; [|done].
  destruct (Z.leb_spec (zlen (map (Z.add 1) bs)) n); [|done]. intros [= <-].
  split; [done|]. by apply bool_decide_eq_true in Hb.
Qed.

Lemma client_authenticates_witness :
  wp (accept_kexdh_reply toy_base64 toy_encode toy_cliopts) any_exit
    (λ _ c', authentic (kem_pair := toy_pair) toy_base64 toy_encode toy_cliopts (toy_client [0; 0; 0; 1; 7]) c'
       (buf_of [0; 0; 0; 1; 7]) toy_dhkeys toy_dh [] toy_param) (toy_client [0; 0; 0; 1; 7]).
Proof.
  apply (client_authenticates (base := λ c _, toy_base c) toy_base64 toy_encode toy_cliopts (toy_client [0; 0; 0; 1; 7])
    (buf_of [0; 0; 0; 1; 7]) toy_dhkeys toy_dh [] toy_hashbuf toy_param).
  - done.
  - apply wf_buf_of; [decide_closed|by vm_compute].
  - apply toy_awaiting.
  - apply toy_hosts_ok.
Defined.

Lemma kexdh_init_sent_witness :
  match send_msg_kexdh_init 100 (toy_client []) with
  | Ok (_, c') => ∃ p s', c' = with_param p (set_cst s' (freed (toy_client []))) ∧ has_param c' p ∧
      made (λ c _, toy_base c) toy_pair true toy_dh p ∧
      share_ok toy_dh (client_share p) ∧ toy_ready ([] ++ [kexdh_init p]) s' ∧ quiet s' = quiet (cst (toy_client []))
  | Exit _ => True
  | Fault w => w = "fuel"%string
  end.
Proof.
  apply (kexdh_init_sent 100 [] (toy_client []) toy_dhkeys toy_dh);
    [by apply toy_clear_ready|done|done|done|done|apply toy_method_ok].
Defined.

Lemma handshake_agreement_witness :
  match answer_kexdh_init toy_svropts 100 (toy_server toy_client_value) with
  | Ok (_, k') => ∃ blob us body, let sig := sig_wire (sig_name (algo_signature toy_dhkeys)) body in
      toy_ready ([] ++ [kexdh_reply blob us sig]) (kst k') ∧
      ∀ bC h, wf_buf bC → sig_at bC (enc_fields [FString blob; us; FString sig]) →
        regular (algo_signature toy_dhkeys) body → acceptable toy_dh us →
        when (negb (donefirstkex (kexstate (cst (toy_client [])))))
          (checkhostkey toy_base64 toy_encode toy_cliopts blob (algo_hostkey toy_dhkeys)) (hosts (toy_client [])) = Ok (tt, h) →
        ∃ c', accept_kexdh_reply toy_base64 toy_encode toy_cliopts (set_cst (pay (cst (toy_client [])) bC) (toy_client [])) = Ok (tt, c') ∧
          agree (kexdat (cst c')) (kexdat (kst k'))
  | Exit _ => True
  | Fault w => w = "fuel"%string
  end.
Proof.
  apply (handshake_agreement (base := λ c _, toy_base c) (pair := λ _ _, True) (kem_pair := toy_pair) (ready := toy_ready)
    toy_base64 toy_encode toy_cliopts 100 toy_svropts [] (toy_client []) (toy_server toy_client_value)
    (buf_of toy_client_value) toy_hashbuf toy_hashbuf toy_dhkeys toy_dhkeys toy_dh [] toy_param).
  - apply toy_awaiting.
  - done.
  - done.
  - apply wf_buf_of; [decide_closed|by vm_compute].
  - apply at_cursor_self.
  - apply toy_answering.
  - apply toy_keys_ok.
  - done.
  - done.
  - by vm_compute.
  - done.
  - done.
  - done.
Defined.

(** Both sides run: the server's packet is taken from its queue, without
    length, padding and type, and handed to the client. *)
Example toy_handshake :
  match (let* _ := answer_kexdh_init toy_svropts 100 in
   let* k := get in
   let* wb := on_kst (on_writequeue dequeue) in
   match accept_kexdh_reply toy_base64 toy_encode toy_cliopts (toy_client (slice 6 147 (b_data wb))) with
   | Ok (_, c) => ret (dh_K (kexdat (cst c)), bool_decide (kex_secret (kexdat (cst c)) = kex_secret (kexdat (kst k))))
   | _ => ret (None, false)
   end) (toy_server toy_client_value) with
  | Ok (x, _) => x | _ => (None, false) end = (Some 3, true).
Proof. by vm_compute. Qed.
