(* ===== verification/StrictKex.v ===== *)
(** * The first key exchange under strict kex (src/src/process-packet.c with
    svr-kex.c and cli-kex.c)

    What the dispatcher of ProcessPacket.v admits between the first KEXINIT
    and NEWKEYS, with the server's handler of KEXDH_INIT or the client's of
    KEXDH_REPLY in its table.  That a handler leaves the dispatcher's flags
    alone is shown by running through it: [keeps] is the frame rule of each
    operation, and the tactic of that name applies the rules. *)

From Stdlib Require Import ZArith Lia.
From stdpp Require Import base list strings gmap.
From S2P Require Import Prelude.
From S2P Require Import Buffer.
From S2P Require Import Queue.
From S2P Require Import Random.
From S2P Require Import Algo.
From S2P Require Import Cipher.
From S2P Require Import KeyTypes.
From S2P Require Import Ecc.
From S2P Require Import SignKey.
From S2P Require Import KeyInstances.
From S2P Require Import SignAgree.
From S2P Require Import Session.
From S2P Require Import Packet.
From S2P Require Import Instances.
From S2P Require Import Transport.
From S2P Require Import ProcessPacket.
From S2P Require Import Kex.
From S2P Require Import KexMethods.
From S2P Require Import Channel.
From S2P Require Import SvrAuth.
From S2P Require Import KexShare.
From S2P Require Import KnownHosts.
From S2P Require Import SvrKex.
From S2P Require Import KexReply.
From S2P Require Import CliKex.

(** ** What an operation leaves alone *)

Section keeps.
Context {S F : Type} (f : S → F).

(** Wherever [m] returns, [f] is what it was. *)
Definition keeps {A} (m : ST S A) : Prop := ∀ s a s', m s = Ok (a, s') → f s' = f s.

Lemma keeps_ret {A} (a : A) : keeps (ret a).
Proof. by intros s a' s' [= _ <-]. Qed.
Lemma keeps_get : keeps get.
Proof. by intros s a' s' [= _ <-]. Qed.
Lemma keeps_gets {A} (g : S → A) : keeps (gets g).
Proof. by intros s a' s' [= _ <-]. Qed.
Lemma keeps_exit {A} e : keeps (A := A) (dropbear_exit e).
Proof. done. Qed.
Lemma keeps_fault {A} w : keeps (A := A) (fault w).
Proof. done. Qed.
Lemma keeps_bind {A B} (m : ST S A) (k : A → ST S B) : keeps m → (∀ a, keeps (k a)) → keeps (bind m k).
Proof.
  intros Hm Hk s b s2. unfold bind. destruct (m s) as [[a s1]|?|?] eqn:H1; [|done..].
  intros H2. transitivity (f s1); [by eapply Hk|by eapply Hm].
Qed.
Lemma keeps_modify (g : S → S) : (∀ s, f (g s) = f s) → keeps (modify g).
Proof. intros Hg s a s' [= _ <-]. apply Hg. Qed.
Lemma keeps_exit_if c e : keeps (exit_if c e).
Proof. unfold exit_if. destruct c; [done|apply keeps_ret]. Qed.
Lemma keeps_assert c e : keeps (dropbear_assert c e).
Proof. unfold dropbear_assert. destruct c; [apply keeps_ret|done]. Qed.
Lemma keeps_when c m : keeps m → keeps (when c m).
Proof. unfold when. destruct c; [done|intros; apply keeps_ret]. Qed.
Lemma keeps_ptr {A} (o : option A) : keeps (ptr o).
Proof. destruct o; [apply keeps_ret|done]. Qed.
Lemma keeps_or_exit {A} (o : option A) e : keeps (or_exit o e).
Proof. destruct o; [apply keeps_ret|done]. Qed.

(** An operation on a part that [f] does not see. *)
Lemma keeps_zoom {T A} (sel : S → T) upd (m : ST T A) : (∀ t s, f (upd t s) = f s) → keeps (zoom sel upd m).
Proof.
  intros Hu s a s'. unfold zoom. destruct (m (sel s)) as [[x t]|?|?]; [|done..]. intros [= _ <-]. apply Hu.
Qed.
Lemma keeps_zoom_ptr {T A} (sel : S → option T) upd (m : ST T A) :
  (∀ t s, f (upd t s) = f s) → keeps (zoom_ptr sel upd m).
Proof.
  intros Hu s a s'. unfold zoom_ptr. destruct (sel s) as [t0|]; [|done].
  destruct (m t0) as [[x t]|?|?]; [|done..]. intros [= _ <-]. apply Hu.
Qed.
Lemma keeps_on_new {A} b (m : ST buffer A) : keeps (on_new b m).
Proof. intros s a s'. unfold on_new. by destruct (m b) as [[x b']|?|?]; [intros [= _ <-]|..]. Qed.
End keeps.

(** An operation of the part [f] looks at. *)
Lemma keeps_inside {S T F A} (f : T → F) (sel : S → T) upd (m : ST T A) :
  (∀ t s, sel (upd t s) = t) → keeps f m → keeps (λ s, f (sel s)) (zoom sel upd m).
Proof.
  intros Hu Hm s a s'. unfold zoom. destruct (m (sel s)) as [[x t]|?|?] eqn:H; [|done..]. intros [= _ <-].
  rewrite Hu. by eapply Hm.
Qed.

Create HintDb keeps.
#[export] Hint Resolve keeps_ret keeps_get keeps_gets keeps_exit keeps_fault keeps_exit_if keeps_assert keeps_ptr
  keeps_or_exit keeps_on_new : keeps.

(** One step through a handler. *)
Ltac keeps_step :=
  first
    [ solve [eauto with keeps]
    | apply keeps_bind; [|intros]
    | apply keeps_when
    | apply keeps_modify; intros; reflexivity
    | apply keeps_zoom; intros; reflexivity
    | apply keeps_zoom_ptr; intros; reflexivity
    | match goal with |- keeps _ (match ?x with _ => _ end) => destruct x end
    | match goal with |- keeps _ (let _ := _ in _) => cbv zeta end ].
Ltac keeps := repeat keeps_step.

(** ** The handlers of the exchange *)

(** What the dispatcher keeps for the first exchange. *)
Definition flags {CL : CryptoLib} (s : sshsession) : bool * bool * bool :=
  (ignorenext (pkt s), strict_kex (kexstate s), recvfirstnewkeys (kexstate s)).

Section session.
Context {CL : CryptoLib}.
#[local] Abbreviation kept m := (keeps flags m).

(** Parts of the session without a flag. *)
Lemma kept_writepayload {A} (m : ST buffer A) : kept (on_writepayload m).
Proof. keeps. Qed.
Lemma kept_payload {A} (m : ST buffer A) : kept (on_payload m).
Proof. keeps. Qed.
Lemma kept_rng {A} (m : ST rng A) : kept (on_rng m).
Proof. keeps. Qed.
Lemma kept_writequeue {A} (m : ST (Queue buffer) A) : kept (on_writequeue m).
Proof. keeps. Qed.
Lemma kept_kexhashbuf {A} (m : ST buffer A) : kept (on_kexhashbuf m).
Proof. keeps. Qed.
Hint Resolve kept_writepayload kept_payload kept_rng kept_writequeue kept_kexhashbuf : keeps.

Lemma kept_trans_keys : kept trans_keys.
Proof. unfold trans_keys. keeps. Qed.
Lemma kept_set_trans_keys d : kept (set_trans_keys d).
Proof. by intros [? ? ? [k|] ? ? ? ?] a s' [= _ <-]. Qed.
Lemma kept_buf_new n : kept (buf_new n).
Proof. unfold buf_new. keeps. Qed.
Hint Resolve kept_trans_keys kept_set_trans_keys kept_buf_new : keeps.
Lemma kept_buf_newcopy b : kept (buf_newcopy b).
Proof. unfold buf_newcopy. keeps. Qed.
Lemma kept_mac_prefix m n : kept (mac_prefix m n).
Proof. unfold mac_prefix. keeps. Qed.
Hint Resolve kept_buf_newcopy kept_mac_prefix : keeps.

Lemma kept_encrypt_packet : kept encrypt_packet.
Proof.
  unfold encrypt_packet, enqueue_reply_packet, build_packet, is_compress_trans, buf_compress, seal_packet,
    writebuf_enqueue, monotonic_now. keeps.
Qed.
Hint Resolve kept_encrypt_packet : keeps.

Lemma kept_on_newkeys g : kept (on_newkeys g).
Proof. unfold on_newkeys. keeps. Qed.
Lemma kept_on_keys g : kept (on_keys g).
Proof. unfold on_keys. keeps. Qed.
Hint Resolve kept_on_newkeys kept_on_keys : keeps.

Lemma kept_switch_keys : kept switch_keys.
Proof.
  unfold switch_keys, gen_new_zstream_recv, gen_new_zstream_trans, move_recv, move_trans, kexinitialise, monotonic_now. keeps.
Qed.

Lemma kept_hashkeys n hs X : kept (hashkeys n hs X).
Proof.
  unfold hashkeys, hash_done. keeps.
  enough (H : ∀ fuel d hs0 out off len, kept (hashkeys_loop fuel d hs0 out off len)) by apply H.
  induction fuel as [|fuel IH]; intros; cbn [hashkeys_loop]; unfold hash_done; keeps.
Qed.
Hint Resolve kept_switch_keys kept_hashkeys : keeps.

Lemma kept_gen_new_keys : kept gen_new_keys.
Proof. unfold gen_new_keys, hash_secret, hash_process_mp, start_cipher, start_mac. keeps. Qed.
Hint Resolve kept_gen_new_keys : keeps.

Lemma kept_send_msg_newkeys : kept send_msg_newkeys.
Proof. unfold send_msg_newkeys. keeps. Qed.
Hint Resolve kept_send_msg_newkeys : keeps.

Lemma kept_finish_kexhashbuf : kept finish_kexhashbuf.
Proof. unfold finish_kexhashbuf. keeps. Qed.
Hint Resolve kept_finish_kexhashbuf : keeps.
End session.
#[export] Hint Resolve kept_writepayload kept_payload kept_rng kept_writequeue kept_kexhashbuf kept_trans_keys
  kept_set_trans_keys kept_buf_new kept_buf_newcopy kept_mac_prefix kept_encrypt_packet kept_on_newkeys kept_on_keys
  kept_switch_keys kept_hashkeys kept_gen_new_keys kept_send_msg_newkeys kept_finish_kexhashbuf : keeps.

Section methods.
Context {CL : CryptoLib} {ML : MpLib} {EL : EccLib} {DL : Ed25519Lib} {XL : Curve25519Lib} (fuel : nat).
#[local] Abbreviation kept m := (keeps flags m).

Lemma kept_newkeys_kex : kept newkeys_kex.
Proof. unfold newkeys_kex. keeps. Qed.
Lemma kept_newkeys_hostkey : kept newkeys_hostkey.
Proof. unfold newkeys_hostkey. keeps. Qed.
Hint Resolve kept_newkeys_kex kept_newkeys_hostkey : keeps.
Lemma kept_gen_kexdh_param : kept (gen_kexdh_param fuel).
Proof. unfold gen_kexdh_param, load_dh_p. keeps. Qed.
Lemma kept_gen_kexecdh_param : kept gen_kexecdh_param.
Proof. unfold gen_kexecdh_param, kex_curve. keeps. Qed.
Lemma kept_gen_kexcurve25519_param : kept gen_kexcurve25519_param.
Proof. unfold gen_kexcurve25519_param. keeps. Qed.
Hint Resolve kept_gen_kexcurve25519_param : keeps.
Lemma kept_gen_kexpqhybrid_param : kept gen_kexpqhybrid_param.
Proof. unfold gen_kexpqhybrid_param, kex_kem. keeps. Qed.

Lemma kept_kexdh_comb_key p e k : kept (kexdh_comb_key p e k).
Proof. unfold kexdh_comb_key, load_dh_p. keeps. Qed.
Lemma kept_kexecdh_comb_key p q k : kept (kexecdh_comb_key p q k).
Proof. unfold kexecdh_comb_key, kex_curve, dropbear_ecc_shared_secret. keeps. Qed.
Lemma kept_kexcurve25519_comb_key p q k : kept (kexcurve25519_comb_key p q k).
Proof. unfold kexcurve25519_comb_key, kexcurve25519_derive. keeps. Qed.
Lemma kept_kexpqhybrid_comb_key p q k : kept (kexpqhybrid_comb_key p q k).
Proof. unfold kexpqhybrid_comb_key, kexcurve25519_derive, kex_kem. keeps. Qed.
End methods.
#[export] Hint Resolve kept_newkeys_kex kept_newkeys_hostkey kept_gen_kexdh_param kept_gen_kexecdh_param
  kept_gen_kexcurve25519_param kept_gen_kexpqhybrid_param kept_kexdh_comb_key kept_kexecdh_comb_key
  kept_kexcurve25519_comb_key kept_kexpqhybrid_comb_key : keeps.

(** Wherever it returns, the operation has just made [P] true. *)
Definition ends {S A} (P : S → Prop) (m : ST S A) : Prop := ∀ s a s', m s = Ok (a, s') → P s'.

Lemma ends_bind {S A B} P (m : ST S A) (k : A → ST S B) : (∀ a, ends P (k a)) → ends P (bind m k).
Proof. intros Hk s b s2. unfold bind. destruct (m s) as [[a s1]|?|?]; [apply Hk|done..]. Qed.

Section handlers.
Context {CL : CryptoLib} {ML : MpLib} {EL : EccLib} {DL : Ed25519Lib} {XL : Curve25519Lib}.

(** *** The server's *)

Lemma keeps_on_kst {A} (m : ST sshsession A) : keeps flags m → keeps (λ s, flags (kst s)) (on_kst m).
Proof. apply keeps_inside. by intros t []. Qed.

Lemma kept_put_our_share fuel hostkey them : keeps flags (put_our_share fuel hostkey them).
Proof. unfold put_our_share, share_int, share_string. keeps. Qed.
Hint Resolve kept_put_our_share : keeps.

Lemma keeps_answer_kexdh_init opts fuel : keeps (λ s, flags (kst s)) (answer_kexdh_init opts fuel).
Proof.
  unfold answer_kexdh_init, send_msg_kexdh_reply, svr_ensure_hostkey, hostkey_filename, get_share, on_genpayload.
  repeat (keeps_step || apply keeps_on_kst).
Qed.

Lemma svr_handler_flags opts fuel : keeps (λ s, flags (kst s)) (SvrKex.recv_msg_kexdh_init opts fuel).
Proof.
  unfold SvrKex.recv_msg_kexdh_init, send_msg_ext_info.
  repeat (apply keeps_answer_kexdh_init || keeps_step || apply keeps_on_kst).
Qed.

Lemma svr_handler_next opts fuel :
  ends (λ s, requirenext (pkt (kst s)) = SSH_MSG_NEWKEYS) (SvrKex.recv_msg_kexdh_init opts fuel).
Proof. do 6 (apply ends_bind; intros). intros [] a' s' [= _ <-]. done. Qed.

(** *** The client's *)

Lemma keeps_on_cst {A} (m : ST sshsession A) : keeps flags m → keeps (λ s, flags (cst s)) (on_cst m).
Proof. apply keeps_inside. by intros t []. Qed.

Lemma keeps_comb_share hostkey : keeps (λ s, flags (cst s)) (comb_share hostkey).
Proof. unfold comb_share. repeat (keeps_step || apply keeps_on_cst). Qed.

Lemma keeps_accept_kexdh_reply dec enc opts : keeps (λ s, flags (cst s)) (accept_kexdh_reply dec enc opts).
Proof.
  unfold accept_kexdh_reply, cli_kex_free_param, on_hosts.
  repeat (apply keeps_comb_share || keeps_step || apply keeps_on_cst).
Qed.

Lemma cli_handler_flags dec enc opts : keeps (λ s, flags (cst s)) (recv_msg_kexdh_reply dec enc opts).
Proof. unfold recv_msg_kexdh_reply. repeat (apply keeps_accept_kexdh_reply || keeps_step || apply keeps_on_cst). Qed.

Lemma cli_handler_next dec enc opts :
  ends (λ s, requirenext (pkt (cst s)) = SSH_MSG_NEWKEYS) (recv_msg_kexdh_reply dec enc opts).
Proof. do 2 (apply ends_bind; intros). intros [] a' s' [= _ <-]. done. Qed.
End handlers.

(** ** The tables (src/src/svr-session.c, cli-session.c) *)

Section tables.
Context {CL : CryptoLib}.

(** [svr_packettypes] and [cli_packettypes], with all that is compiled in;
    the handler of the exchange is given, and those of the other messages,
    by message type. *)
Context (handler : Z → ST sshsession unit).
#[local] Abbreviation entry t := (mkpackettype t (handler t)).

Definition svr_packettypes (recv_msg_kexdh_init : ST sshsession unit) : list packettype :=
  [entry SSH_MSG_CHANNEL_DATA; entry SSH_MSG_CHANNEL_WINDOW_ADJUST; entry SSH_MSG_USERAUTH_REQUEST;
   entry SSH_MSG_SERVICE_REQUEST; entry SSH_MSG_KEXINIT;
   mkpackettype SSH_MSG_KEXDH_INIT recv_msg_kexdh_init; mkpackettype SSH_MSG_NEWKEYS recv_msg_newkeys;
   entry SSH_MSG_GLOBAL_REQUEST; entry SSH_MSG_CHANNEL_REQUEST; entry SSH_MSG_CHANNEL_OPEN;
   entry SSH_MSG_CHANNEL_EOF; entry SSH_MSG_CHANNEL_CLOSE; entry SSH_MSG_CHANNEL_SUCCESS;
   entry SSH_MSG_CHANNEL_FAILURE; entry SSH_MSG_REQUEST_FAILURE; entry SSH_MSG_REQUEST_SUCCESS;
   entry SSH_MSG_CHANNEL_OPEN_CONFIRMATION; entry SSH_MSG_CHANNEL_OPEN_FAILURE; mkpackettype 0 (fault "null handler")].

Definition cli_packettypes (recv_msg_kexdh_reply : ST sshsession unit) : list packettype :=
  [entry SSH_MSG_CHANNEL_DATA; entry SSH_MSG_CHANNEL_EXTENDED_DATA; entry SSH_MSG_CHANNEL_WINDOW_ADJUST;
   entry SSH_MSG_USERAUTH_FAILURE; entry SSH_MSG_USERAUTH_SUCCESS; entry SSH_MSG_KEXINIT;
   mkpackettype SSH_MSG_KEXDH_REPLY recv_msg_kexdh_reply; mkpackettype SSH_MSG_NEWKEYS recv_msg_newkeys;
   entry SSH_MSG_SERVICE_ACCEPT; entry SSH_MSG_CHANNEL_REQUEST; entry SSH_MSG_CHANNEL_OPEN;
   entry SSH_MSG_CHANNEL_EOF; entry SSH_MSG_CHANNEL_CLOSE; entry SSH_MSG_CHANNEL_OPEN_CONFIRMATION;
   entry SSH_MSG_CHANNEL_OPEN_FAILURE; entry SSH_MSG_USERAUTH_BANNER; entry SSH_MSG_USERAUTH_PK_OK;
   entry SSH_MSG_GLOBAL_REQUEST; entry SSH_MSG_CHANNEL_SUCCESS; entry SSH_MSG_CHANNEL_FAILURE;
   entry SSH_MSG_REQUEST_SUCCESS; entry SSH_MSG_REQUEST_FAILURE; entry SSH_MSG_EXT_INFO;
   mkpackettype 0 (fault "null handler")].
End tables.

(** A handler of a larger state, seen from the session: each run is one of
    [m], whatever the rest of the state is then. *)
Definition acts_as {CL : CryptoLib} {X} (sel : X → sshsession) (m : ST X unit) (h : ST sshsession unit) : Prop :=
  ∀ s s', h s = Ok (tt, s') → ∃ x x', sel x = s ∧ m x = Ok (tt, x') ∧ sel x' = s'.

(** The handler run with [x] around the session. *)
Definition within {CL : CryptoLib} {X} (sel : X → sshsession) (upd : sshsession → X → X) (x : X) (m : ST X unit) :
    ST sshsession unit := λ s,
  match m (upd s x) with
  | Ok (_, x') => Ok (tt, sel x')
  | Exit e => Exit e
  | Fault w => Fault w
  end.

Lemma within_acts_as {CL : CryptoLib} {X} sel upd (x : X) m :
  (∀ s, sel (upd s x) = s) → acts_as sel m (within sel upd x m).
Proof.
  intros Hu s s'. unfold within. destruct (m (upd s x)) as [[[] x']|?|?] eqn:Hm; [|done..]. intros [= <-].
  exists (upd s x), x'. by rewrite Hu.
Qed.

Section exchange.
Context {CL : CryptoLib} {ML : MpLib} {EL : EccLib} {DL : Ed25519Lib} {XL : Curve25519Lib}.

(** The table of one of the two ends, with its handler of the method's first
    message. *)
Inductive kex_end : list packettype → Z → Prop :=
| server_end handler h opts fuel :
    acts_as kst (SvrKex.recv_msg_kexdh_init opts fuel) h → kex_end (svr_packettypes handler h) SSH_MSG_KEXDH_INIT
| client_end handler h dec enc opts :
    acts_as cst (recv_msg_kexdh_reply dec enc opts) h → kex_end (cli_packettypes handler h) SSH_MSG_KEXDH_REPLY.

(** The message of the method leaves NEWKEYS required and the flags of the
    dispatcher alone. *)
Lemma kex_end_next tbl first s s' : kex_end tbl first → dispatch tbl first s = Ok (tt, s') →
  requirenext (pkt s') = SSH_MSG_NEWKEYS ∧ flags s' = flags s.
Proof.
  intros [handler h opts fuel Ha|handler h dec enc opts Ha] Hrun; apply Ha in Hrun as (x&x'&<-&Hx&<-).
  - split; [by eapply (svr_handler_next opts fuel)|by eapply (svr_handler_flags opts fuel)].
  - split; [by eapply (cli_handler_next dec enc opts)|by eapply (cli_handler_flags dec enc opts)].
Qed.

Lemma flags_first_strict s s' : flags s' = flags s → first_strict s' = first_strict s.
Proof. unfold flags, first_strict. by intros [= _ -> ->]. Qed.
End exchange.

(** C17: The first key exchange under strict kex admits no extra packets.
    Starting where KEXINIT has been processed (the method's first message is
    required, possibly with one wrongly guessed packet to be discarded), any
    sequence of packets that does not end the session begins with exactly the
    discarded guess, the method's message and NEWKEYS: nothing can be
    inserted before the new keys, so the sequence numbers of the encrypted
    stream cannot be shifted.  This is for the dispatch tables of both ends,
    with [recv_msg_kexdh_init] and [recv_msg_kexdh_reply] as they are: that
    they require NEWKEYS and leave the dispatcher's flags alone is proved. *)
Theorem strict_kex_transcript {CL : CryptoLib} {ML : MpLib} {EL : EccLib} {DL : Ed25519Lib} {XL : Curve25519Lib}
    tbl first s bs u s' :
  kex_end tbl first → Forall packet_ok bs → first_strict s = true → requirenext (pkt s) = first →
  receive_all tbl bs s = Ok (u, s') →
  let expected := (if ignorenext (pkt s) then [first] else []) ++ [first; SSH_MSG_NEWKEYS] in
  take (length expected) (map packet_type bs) = take (length bs) expected.
Proof.
  intros Hend Hbs Hfs Hreq. assert (Hf0 : first ≠ 0) by (by destruct Hend). revert bs Hbs.
  assert (Hnk : ∀ bs s, Forall packet_ok bs → first_strict s = true → requirenext (pkt s) = SSH_MSG_NEWKEYS →
    receive_all tbl bs s = Ok (u, s') → take 1 (map packet_type bs) = take (length bs) [SSH_MSG_NEWKEYS]).
  { intros bs s1 Hbs Hfs1 Hr1 Hrun. destruct Hbs as [|b bs Hb _]; [done|]. cbn [receive_all] in Hrun. unfold bind in Hrun.
    destruct (receive tbl b s1) as [[u1 s2]|?|?] eqn:Hb1; try done.
    apply receive_required in Hb1 as [Hty _]; [|done..|by rewrite Hr1].
    cbn. rewrite take_0, take_nil. by rewrite Hty, Hr1. }
  assert (Hkx : ∀ bs s, Forall packet_ok bs → first_strict s = true → requirenext (pkt s) = first →
    ignorenext (pkt s) = false → receive_all tbl bs s = Ok (u, s') →
    take 2 (map packet_type bs) = take (length bs) [first; SSH_MSG_NEWKEYS]).
  { intros bs s1 Hbs Hfs1 Hr1 Hig Hrun. destruct Hbs as [|b bs Hb Hbs]; [done|]. cbn [receive_all] in Hrun. unfold bind in Hrun.
    destruct (receive tbl b s1) as [[u1 s2]|?|?] eqn:Hb1; try done.
    apply receive_required in Hb1 as [Hty Hnext]; [|done..|by rewrite Hr1].
    rewrite Hig in Hnext. destruct Hnext as (s3&s4&Hd&->&Hi3&Hf3). rewrite Hr1 in Hd.
    apply (kex_end_next _ _ _ _ Hend) in Hd as (Hr4&Hf4). apply flags_first_strict in Hf4.
    cbn [map take length]. rewrite Hty, Hr1. f_equal. eapply Hnk; [exact Hbs| | |exact Hrun].
    - change (first_strict s4 = true). congruence.
    - exact Hr4. }
  intros bs Hbs Hrun. destruct (ignorenext (pkt s)) eqn:Hig; cbn [app length]; [|by eapply Hkx].
  destruct Hbs as [|b bs Hb Hbs]; [done|]. cbn [receive_all] in Hrun. unfold bind in Hrun.
  destruct (receive tbl b s) as [[u1 s2]|?|?] eqn:Hb1; try done.
  apply receive_required in Hb1 as [Hty Hnext]; [|done..|by rewrite Hreq].
  rewrite Hig in Hnext. destruct Hnext as (Hf2&Hr2&Hi2).
  cbn [map take length]. rewrite Hty, Hreq. f_equal. eapply Hkx; [done|done| |done|exact Hrun]. congruence.
Qed.

(** ** The server of KexReply.v in its first exchange *)

#[local] Existing Instance toy_lib.
#[local] Existing Instance int_mp.
#[local] Existing Instance toy_ecc.
#[local] Existing Instance toy_ed25519.
#[local] Existing Instance toy_x25519.

Definition toy_strict : sshsession :=
  on_kexstate (λ k, set_donefirstkex false (set_sentkexinit true (set_strict_kex true (set_recvfirstnewkeys false k))))
    (on_pkt (λ x, set_requirenext SSH_MSG_KEXDH_INIT (set_ignorenext true x)) (kst (toy_server []))).
Definition toy_svr_table : list packettype :=
  svr_packettypes (λ _, fault "unreachable") (within kst set_kst (toy_server []) (SvrKex.recv_msg_kexdh_init toy_svropts 100)).
Definition toy_wire : list buffer :=
  [toy_packet 30; buf_of (SSH_MSG_KEXDH_INIT :: toy_client_value); toy_packet 21].

Lemma strict_kex_transcript_witness :
  (∃ s', receive_all toy_svr_table toy_wire toy_strict = Ok (tt, s')) ∧
  take 3 (map packet_type toy_wire) = [30; 30; 21].
Proof.
  assert (Hok : (match receive_all toy_svr_table toy_wire toy_strict with Ok _ => true | _ => false end) = true)
    by (vm_compute; reflexivity).
  destruct (receive_all toy_svr_table toy_wire toy_strict) as [[[] s']|e|w] eqn:Hrun; [clear Hok|discriminate Hok..].
  split; [by exists s'|].
  assert (Hend : kex_end toy_svr_table SSH_MSG_KEXDH_INIT) by (eapply server_end, within_acts_as; done).
  assert (Hbs : Forall packet_ok toy_wire).
  { repeat (apply Forall_cons; split); [apply toy_packet_ok; unfold byte_ok; lia| |apply toy_packet_ok; unfold byte_ok; lia|done].
    split; [apply wf_buf_of; [decide_closed|by vm_compute]|by vm_compute]. }
  exact (strict_kex_transcript toy_svr_table SSH_MSG_KEXDH_INIT toy_strict toy_wire tt s' Hend Hbs eq_refl eq_refl Hrun).
Defined.

(** A packet between the method's message and NEWKEYS ends the session. *)
Example strict_kex_inserted :
  receive_all toy_svr_table [toy_packet 30; buf_of (SSH_MSG_KEXDH_INIT :: toy_client_value); toy_packet 2] toy_strict
  = Exit "Unexpected packet type %d, expected %d".
Proof. vm_compute. reflexivity. Qed.
