(* ===== verification/SvrAuthSafe.v ===== *)
(** * What a successful login proves (src/src/svr-auth.c and the methods)

    The evidence behind [authdone]: which requests of the session, verified
    against which data of the system, let the client in.  The theorem holds
    for every order of requests and for whatever the packet layer does between
    them; it is proved against the interface of Transport.v. *)

From Stdlib Require Import ZArith Lia.
From stdpp Require Import base list strings.
From S2P Require Import Prelude.
From S2P Require Import Buffer.
From S2P Require Import Random.
From S2P Require Import Algo.
From S2P Require Import Cipher.
From S2P Require Import KeyTypes.
From S2P Require Import Ecc.
From S2P Require Import SignKey.
From S2P Require Import KeyInstances.
From S2P Require Import SignKeyRead.
From S2P Require Import SignVerify.
From S2P Require Import Session.
From S2P Require Import Packet.
From S2P Require Import Transport.
From S2P Require Import Instances.
From S2P Require Import ProcessPacket.
From S2P Require Import AuthOptions.
From S2P Require Import AuthKeys.
From S2P Require Import AuthLines.
From S2P Require Import SvrAuth.

(** What the server relies on: base64 decoding within its bound, files of
    bytes, which [isalnum] can be asked about, a limit on tries that fits the
    counter, and no two-factor mode without passwords (src/src/svr-runopts.c
    refuses these options together). *)
Class AuthEnvOk (env : auth_env) : Prop := {
  ae_base64 : ∀ text n out, base64_decode env text n = Some out → zlen out ≤ n ∧ bytes_ok out;
  ae_file : ∀ path file, read_file env path = Some file → bytes_ok file;
  ae_chars : ∀ path file, read_file env path = Some file → chars_ok (char_signed env) file;
  ae_tries : 0 ≤ maxauthtries env < 2 ^ 32 - 1;
  ae_multi : multiauthmethod env = true → noauthpass env = false
}.

Section evidence.
Context `{Sha256} {ML : MpLib} {EL : EccLib} {DL : Ed25519Lib} (env : auth_env).

(** The stored password hash of a user. *)
Definition stored_hash (pw : passwd) : list Z :=
  match p_passwd pw with
  | Some p => if bytes_eqb p (bstr "x") then default (bstr "!!") (getspnam env (p_name pw)) else p
  | None => bstr "!!"
  end.

Definition root_barred (pw : passwd) : bool := norootpass env && (p_uid pw =? 0).

(** The user may log in at all. *)
Definition may_login (pw : passwd) : Prop :=
  ((geteuid env =? 0) || (geteuid env =? p_uid pw))
  && negb (norootlogin env && (p_uid pw =? 0))
  && (match restrict_group env with
      | Some g => check_group_membership env g (p_name pw) (p_gid pw)
      | None => true
      end) = true ∧
  shell_allowed env (p_shell pw) = true.

(** A request of the client: the payload at its cursor and where its first
    byte is. *)
Definition request : Type := buffer * Z.

Definition request_head (b : buffer) (name method : list Z) (b' : buffer) : Prop :=
  (let* n := buf_getstring in let* s := buf_getstring in let* m := buf_getstring in ret (n, s, m)) b
  = Ok ((name, bstr "ssh-connection", method), b').

(** A password request whose password hashes to the stored, non-empty, hash. *)
Definition password_proof (name : list Z) (pw : passwd) (r : request) : Prop :=
  ∃ b1 b2 b3 password,
    request_head r.1 name (bstr "password") b1 ∧ buf_getbool b1 = Ok (0, b2) ∧
    buf_getstring b2 = Ok (password, b3) ∧ zlen password ≤ DROPBEAR_MAX_PASSWORD_LEN ∧
    crypt env (before_nul password) (stored_hash pw) = Some (stored_hash pw) ∧ stored_hash pw ≠ [] ∧
    noauthpass env = false ∧ root_barred pw = false.

(** The name of the key type of a signature algorithm. *)
Definition key_algo (sigalgo : list Z) (keytype : Z) (algo : list Z) : Prop :=
  signature_type_from_name sigalgo ≠ DROPBEAR_SIGNATURE_NONE ∧
  signkey_type_from_signature (signature_type_from_name sigalgo) tt = Ok (keytype, tt) ∧
  signkey_name_from_type keytype tt = Ok (algo, tt).

(** A line of the user's authorized_keys, no comment, lets the key in, with
    these options. *)
Definition key_listed (pw : passwd) (algo keyblob : list Z) (o : PubKeyOptions) : Prop :=
  checkpubkeyperms (stat env) (p_uid pw) (Some (p_dir pw)) (authorized_keys_dir env) = true ∧
  ∃ file line, read_file env (authorized_keys_filepath (authorized_keys_dir env) (Some (p_dir pw))) = Some file ∧
    line_of MAX_AUTHKEYS_LINE line file ∧ commented line = false ∧
    allows_key (base64_decode env) (errno_einval env) algo keyblob line o.

(** A public key request, signed over the session id and the request itself
    with a key the user's authorized_keys lists. *)
Definition pubkey_proof (sid name : list Z) (pw : passwd) (r : request) : Prop :=
  ∃ b1 b2 b3 b4 b5 b6 flag sigalgo keytype algo keyblob o key keytype' data,
    request_head r.1 name (bstr "publickey") b1 ∧ buf_getbool b1 = Ok (flag, b2) ∧ flag ≠ 0 ∧
    buf_getstring b2 = Ok (sigalgo, b3) ∧ buf_getint b3 = Ok (zlen keyblob, b4) ∧ at_cursor b4 keyblob ∧
    key_algo sigalgo keytype algo ∧ key_listed pw algo keyblob o ∧
    buf_get_pub_key new_sign_key keytype b4 = Ok ((true, (key, keytype')), b5) ∧
    contents data = STORE32H (zlen sid) ++ sid ++ slice r.2 (b_pos b5 - r.2) (b_data b5) ∧ b_pos data = 0 ∧
    buf_verify (set_sk_flags_mask (sk_flags o) key) (signature_type_from_name sigalgo) data b5 = Ok (true, b6).

(** Why the client is in: the blank password of the user, which counts in
    two-factor mode too, or a password or a signature, in two-factor mode
    both. *)
Definition blank_login (pw : passwd) : Prop :=
  allowblankpass env = true ∧ noauthpass env = false ∧ root_barred pw = false ∧ stored_hash pw = [].

Definition authenticated (sid name : list Z) (pw : passwd) (rs : list request) : Prop :=
  blank_login pw ∨
  let password := Exists (password_proof name pw) rs in
  let pubkey := Exists (pubkey_proof sid name pw) rs in
  (password ∨ pubkey) ∧ (multiauthmethod env = true → password ∧ pubkey).
End evidence.

Lemma bind_ext {S A B} (m : ST S A) (k k' : A → ST S B) s :
  (∀ x s', k x s' = k' x s') → bind m k s = bind m k' s.
Proof. intros H. unfold bind. by destruct (m s) as [[x s']|e|w]. Qed.

Section proofs.
Context {CL : CryptoLib} {ready : list (list Z) → sshsession → Prop} {T : Transport ready}.
Context {ML : MpLib} {EL : EccLib} {DL : Ed25519Lib} (env : auth_env) {OK : AuthEnvOk env} (sid : buffer) (Hsid : wf_buf sid).
Implicit Types (s : svrses) (b : buffer) (a : AuthState) (n : Z).

(** ** The session during a request

    The packet layer can take [n] more messages, the packet being read is
    [b]. *)
Definition spv s b : svrses := set_stp (on_pkt (set_payload (Some b)) (stp s)) s.

Definition live n s b : Prop :=
  (∃ msgs, ready msgs (stp s) ∧ zlen msgs + n < 2 ^ 31) ∧
  authdone (stp s) = false ∧ payload (pkt (stp s)) = Some b ∧ wf_buf b ∧
  0 ≤ payload_beginning (pkt (stp s)) ≤ b_pos b ∧ session_id (kexdat (stp s)) = Some sid.

Lemma live_read n s b b' : live n s b → scanned b b' → live n (spv s b') b'.
Proof.
  intros ((msgs&Hr&Hn)&Hd&Hp&Hwf&Hb&Hs) Hsc. pose proof (scanned_same _ _ Hsc) as (_&_&Hpos&Hwf').
  split_and!; try done; [|cbn; lia..]. exists msgs. split; [|done]. by eapply tr_same.
Qed.

Lemma wp_stp {A} (m : ST sshsession A) E (Q : A → svrses → Prop) s :
  wp m E (λ x t, Q x (set_stp t s)) (stp s) → wp (on_stp m) E Q s.
Proof. apply wp_zoom. Qed.

Lemma wp_spayload {A} (m : ST buffer A) E (Q : A → svrses → Prop) s b :
  payload (pkt (stp s)) = Some b → wp m E (λ x b', Q x (spv s b')) b → wp (on_spayload m) E Q s.
Proof. intros Hp H. by apply wp_stp, (wp_zoom_ptr _ _ _ _ _ _ b). Qed.

(** What the request readers have in common. *)
Definition reads {A} (m : ST buffer A) : Prop := ∀ b, wf_buf b → wp m any_exit (λ _ b', scanned b b') b.

Lemma wp_read {A} (m : ST buffer A) n s b (Q : A → svrses → Prop) :
  live n s b → reads m →
  (∀ x b', m b = Ok (x, b') → scanned b b' → live n (spv s b') b' → Q x (spv s b')) →
  wp (on_spayload m) any_exit Q s.
Proof.
  intros Hl Hm HQ. pose proof Hl as (_&_&Hp&Hwf&_). eapply wp_spayload; [exact Hp|].
  eapply wp_mono; [by apply wp_run, Hm|]. intros x b' [Hs Hrun]. apply HQ; [done|done|by eapply live_read].
Qed.

(** A key the packet gave. *)
Lemma key_read_rsa flags keytype b key kt b' :
  wf_buf b → buf_get_pub_key new_sign_key keytype b = Ok ((true, (key, kt)), b') →
  rsa_part_ok (set_sk_flags_mask flags key).
Proof.
  intros Hwf Hrun.
  assert (Hw : wp (buf_get_pub_key new_sign_key keytype) any_exit (λ r _, rsa_part_ok r.2.1) b).
  { apply wp_buf_get_pub_key; [done|]. intros ok key' t b1 _ Hk _. by apply Hk. }
  exact (wp_Ok_inv _ _ _ _ _ _ Hw Hrun).
Qed.

Lemma scan_string : reads buf_getstring.
Proof.
  intros b Hwf. apply wp_buf_getstring; [done| |done]. intros. apply scanned_get; [done|lia..].
Qed.
Lemma scan_int : reads buf_getint.
Proof. intros b Hwf. apply wp_buf_getint; [done| |done]. intros. apply scanned_get; [done|lia..]. Qed.
Lemma scan_bool : reads buf_getbool.
Proof.
  intros b Hwf. apply wp_bind, wp_buf_getbyte; [done| |done]. intros. apply wp_ret, scanned_get; [done|lia..].
Qed.

(** ** Sending *)

Lemma quiet_live n s b t msgs p :
  live n s b → 1 ≤ n → ready (msgs ++ [p]) t → zlen msgs + n < 2 ^ 31 → quiet t = quiet (stp s) →
  live (n - 1) (set_stp t s) b.
Proof.
  intros (_&Hd&Hp&Hwf&Hb&Hs) Hn Hr Hm Hq.
  assert (Ha : authdone t = authdone (stp s)) by exact (f_equal authdone Hq).
  assert (Hpl : payload (pkt t) = payload (pkt (stp s))) by exact (f_equal (λ x, payload (pkt x)) Hq).
  assert (Hbg : payload_beginning (pkt t) = payload_beginning (pkt (stp s))) by exact (f_equal (λ x, payload_beginning (pkt x)) Hq).
  assert (Hk : kexdat t = kexdat (stp s)) by exact (f_equal kexdat Hq).
  unfold live. cbn [stp set_stp]. rewrite Ha, Hpl, Hbg, Hk. split_and!; try done; [|lia..].
  exists (msgs ++ [p]). split; [done|]. rewrite zlen_app. change (zlen [p]) with 1. lia.
Qed.

Lemma wp_send fs n s b E (Q : unit → svrses → Prop) :
  live n s b → 1 ≤ n → Forall (λ f, puts f.1 f.2) fs → 1 ≤ zlen (wire_of fs) ≤ TRANS_MAX_PAYLOAD_LEN →
  (∀ t, live (n - 1) (set_stp t s) b → quiet t = quiet (stp s) → Q tt (set_stp t s)) →
  wp (on_stp (put_fields fs encrypt_packet)) E Q s.
Proof.
  intros Hl Hn Hfs Hlen HQ. pose proof Hl as ((msgs&Hr&Hm)&_). apply wp_stp.
  eapply (wp_message_last msgs); [done|lia|done|done|]. intros t Ht Hq. apply HQ; [by eapply quiet_live|done].
Qed.

(** The methods still allowed. *)
Definition types (p w : bool) : Z := (if p then AUTH_TYPE_PUBKEY else 0) + (if w then AUTH_TYPE_PASSWORD else 0).
Definition types_text (p w : bool) : list Z :=
  (if p then bstr "publickey" ++ (if w then [44] else []) else []) ++ (if w then bstr "password" else []).

Definition failure_fields (p w partial : bool) : list (ST buffer unit * list Z) :=
  [(buf_putbyte SSH_MSG_USERAUTH_FAILURE, [SSH_MSG_USERAUTH_FAILURE]);
   (buf_putstring (types_text p w), STORE32H (zlen (types_text p w)) ++ types_text p w);
   (buf_putbyte (if partial then 1 else 0), [if partial then 1 else 0])].

Lemma type_list_runs p w : ∃ tb, type_list (types p w) (mkbuf (zeros 30) 0 0 30) = Ok (tt, tb) ∧
  slice 0 (b_len tb) (b_data tb) = types_text p w.
Proof.
  destruct p, w;
    match goal with |- ∃ tb, ?m = Ok (_, tb) ∧ _ =>
      let r := eval vm_compute in m in
      match r with Ok (_, ?tb) => exists tb; split; [by vm_compute|by vm_compute] end end.
Qed.

Lemma failure_msg_fields p w partial (t : sshsession) :
  failure_msg (types p w) partial t = put_fields (failure_fields p w partial) encrypt_packet t.
Proof.
  unfold failure_msg, failure_fields. cbn [put_fields foldr fst snd]. apply bind_ext. intros [] t1.
  destruct (type_list_runs p w) as (tb&Hrun&Htext).
  assert (Hnew : ∀ A (k : buffer → ST sshsession A), bind (buf_new 30) k t1 = k (mkbuf (zeros 30) 0 0 30) t1) by done.
  rewrite Hnew. unfold bind at 1, on_new. rewrite Hrun. unfold buf_putbufstring. by rewrite Htext.
Qed.

Lemma types_text_ok p w : bytes_ok (types_text p w) ∧ zlen (types_text p w) ≤ 18.
Proof. destruct p, w; (split; [decide_closed|by apply Z.leb_le]). Qed.

Lemma wp_failure_msg p w partial n s b E (Q : unit → svrses → Prop) :
  live n s b → 1 ≤ n → (∀ t, live (n - 1) (set_stp t s) b → Q tt (set_stp t s)) →
  wp (on_stp (failure_msg (types p w) partial)) E Q s.
Proof.
  intros Hl Hn HQ. destruct (types_text_ok p w) as [Hb Hlen]. pose proof (zlen_nonneg (types_text p w)).
  assert (H' : wp (on_stp (put_fields (failure_fields p w partial) encrypt_packet)) E Q s).
  { eapply wp_send; [done|done| | |intros t Ht _; by apply HQ].
    - unfold failure_fields. rewrite !Forall_cons. cbn [fst snd]. split_and!; [| | |constructor].
      + by apply puts_byte.
      + apply puts_string; [done|lia].
      + apply puts_byte. by destruct partial.
    - unfold wire_of, failure_fields. cbn [map concat snd]. rewrite !zlen_app, STORE32H_length.
      change (zlen [_]) with 1. change (zlen (@nil Z)) with 0. unfold TRANS_MAX_PAYLOAD_LEN. lia. }
  unfold wp, on_stp, zoom in *. by rewrite failure_msg_fields.
Qed.

(** The authentication state, without the counters, the clock and what only
    the session after login looks at. *)
Definition core a :=
  (username a, authtypes a, (pw_uid a, pw_gid a), (pw_dir a, pw_shell a), (pw_name a, pw_passwd a)).

(** Same user, same methods, and the tries within their limit. *)
Definition unmoved s s' : Prop :=
  uid s' = uid s ∧ core (authstate s') = core (authstate s) ∧ 0 ≤ failcount (authstate s') ≤ maxauthtries env.

Lemma wp_gettime E (Q : Z * Z → svrses → Prop) s :
  (∀ now rest, Q now (set_clock rest s)) → wp gettime_wrapper E Q s.
Proof.
  intros HQ. apply wp_bind, wp_get. destruct (clock s) as [|t rest] eqn:Hc.
  - apply wp_ret. specialize (HQ (0, 0) []). unfold set_clock in HQ. rewrite <-Hc in HQ. by destruct s.
  - by apply wp_bind, wp_modify, wp_ret.
Qed.

Lemma wp_failure_delay n s b E (Q : unit → svrses → Prop) :
  live n s b →
  (∀ s', live n s' b → uid s' = uid s → authstate s' = authstate s → Q tt s') →
  wp failure_delay E Q s.
Proof.
  intros ((msgs&Hr&Hn)&Hd&Hp&Hwf&Hb&Hs) HQ. apply wp_bind, wp_gettime. intros now rest.
  apply wp_bind, wp_gets. destruct (tr_rng msgs _ Hr) as [Hrng Hkeep].
  apply wp_bind, wp_stp. apply wp_zoom. eapply wp_exit_mono; [apply wp_genrandom; [exact Hrng|lia|]|by intros ?].
  intros bs r' Hr' _ _. cbv zeta. apply wp_modify.
  apply HQ; [|done|done]. split; [exists msgs; split; [by apply Hkeep|done]|exact (conj Hd (conj Hp (conj Hwf (conj Hb Hs))))].
Qed.

Lemma wp_failure partial incr p w n s b (Q : unit → svrses → Prop) :
  live n s b → 1 ≤ n → authtypes (authstate s) = types p w → 0 ≤ failcount (authstate s) ≤ maxauthtries env →
  (∀ s', live (n - 1) s' b → unmoved s s' → Q tt s') →
  wp (send_msg_userauth_failure env partial incr) any_exit Q s.
Proof.
  intros Hl Hn Ht Hf HQ. pose proof ae_tries as Htries. apply wp_bind, wp_gets. rewrite Ht.
  apply wp_bind. eapply wp_failure_msg; [done|done|]. intros t Hl1.
  assert (Hend : ∀ s', live (n - 1) s' b → uid s' = uid s → core (authstate s') = core (authstate s) →
    0 ≤ failcount (authstate s') →
    wp (let* a := auth in exit_if (failcount a >? maxauthtries env) "Max auth tries reached - user '%s'") any_exit Q s').
  { intros s' Hl' Hu Hc Hfc. apply wp_bind, wp_gets, wp_exit_if; [done|]. intros Hle. apply HQ; [done|]. split_and!; [done|done|lia|lia]. }
  apply wp_bind, wp_when; intros _; [|by apply Hend; [done|done|done|apply Hf]].
  apply wp_bind. eapply wp_failure_delay; [done|]. intros s' Hl' Hu' Ha'. apply wp_modify.
  apply Hend; [done|done|cbn; by rewrite Ha'|cbn; apply u32_range].
Qed.

(** [m] as a step after which the client is in. *)
Definition let_in s s' : Prop :=
  authdone (stp s') = true ∧ core (authstate s') = core (authstate s) ∧ uid s' = pw_uid (authstate s) ∧
  failcount (authstate s') = failcount (authstate s) ∧ session_id (kexdat (stp s')) = session_id (kexdat (stp s)).

Lemma wp_svr_close fd E (Q : unit → svrses → Prop) s :
  (∀ e, E e) → (∀ l, Q tt (set_closed l s)) → wp (svr_close env fd) E Q s.
Proof.
  intros HE HQ. apply wp_if; intros _.
  - apply wp_ret. specialize (HQ (closed s)). by destruct s.
  - apply wp_bind, wp_modify, wp_exit_if; intros _; [apply HE|apply HQ].
Qed.

Lemma wp_success n s b (Q : unit → svrses → Prop) :
  live n s b → 1 ≤ n → (∀ s', let_in s s' → Q tt s') →
  wp (send_msg_userauth_success env) any_exit Q s.
Proof.
  intros Hl Hn HQ.
  assert (Hmsg : wp (on_stp (put_fields [(buf_putbyte SSH_MSG_USERAUTH_SUCCESS, [SSH_MSG_USERAUTH_SUCCESS])] encrypt_packet)) any_exit
    (λ u s1, ∃ t, s1 = set_stp t s ∧ live (n - 1) s1 b) s).
  { eapply wp_send; [done|done| | |intros t Ht _; by exists t].
    - apply Forall_singleton. by apply puts_byte.
    - by vm_compute. }
  assert (Hsplit : ∀ k : ST svrses unit,
    wp (do* on_stp (put_fields [(buf_putbyte SSH_MSG_USERAUTH_SUCCESS, [SSH_MSG_USERAUTH_SUCCESS])] encrypt_packet); k) any_exit Q s →
    wp (do* on_stp (on_writepayload (buf_putbyte SSH_MSG_USERAUTH_SUCCESS)); do* on_stp encrypt_packet; k) any_exit Q s).
  { intros k. cbn [put_fields foldr fst]. unfold wp, bind, on_stp, zoom.
    destruct (on_writepayload _ (stp s)) as [[[] t]|?|?]; [|done..]. cbn [stp set_stp].
    by destruct (encrypt_packet t) as [[[] t']|?|?]. }
  apply Hsplit, wp_bind. eapply wp_mono; [exact Hmsg|]. intros [] s1 (t&->&Hl1). cbn beta.
  destruct Hl1 as (_&_&_&_&_&Hs1). pose proof Hl as (_&_&_&_&_&Hs0).
  apply wp_bind, wp_stp, wp_modify.
  assert (Hend : ∀ s', authdone (stp s') = true → authstate s' = authstate s → uid s' = pw_uid (authstate s) →
    session_id (kexdat (stp s')) = Some sid →
    wp (do* modify (set_allowprivport true); let* s := get in svr_close env (childpipe s)) any_exit Q s').
  { intros s' Hd Ha Hu Hk. apply wp_bind, wp_modify, wp_bind, wp_get, wp_svr_close; [done|]. intros l. apply HQ.
    split_and!; cbn; [done|by rewrite Ha|done|by rewrite Ha|by rewrite Hk, Hs0]. }
  apply wp_bind. apply wp_bind, wp_get, wp_bind. cbn [stp set_stp set_authdone authdone]. apply wp_ret.
  apply wp_if; intros Huid.
  - apply wp_bind, wp_exit_if; intros _; [done|]. apply wp_bind.
    assert (Hset : ∀ s', stp s' = set_authdone true t → authstate s' = authstate s →
      wp (do* exit_if (negb (setuid_ok env)) "Error changing user"; modify (set_uid (pw_uid (authstate s)))) any_exit
        (λ _ s', wp (do* modify (set_allowprivport true); let* s := get in svr_close env (childpipe s)) any_exit Q s') s').
    { intros s' Hs' Ha'. apply wp_bind, wp_exit_if; intros _; [done|]. apply wp_modify.
      apply Hend; cbn; [by rewrite Hs'|done|done|by rewrite Hs']. }
    destruct (utmp_gid env); [apply wp_when; intros _; [apply wp_modify|]|apply wp_ret]; by apply Hset.
  - apply wp_exit_if; intros Hne; [done|]. apply negb_false_iff, Z.eqb_eq in Hne. by apply Hend.
Qed.

(** ** The user *)

(** The passwd fields hold what the database says of the user. *)
Definition pw_of a (found : option passwd) : Prop :=
  match found with
  | Some pw => (pw_uid a, pw_gid a) = (p_uid pw, p_gid pw) ∧
      (pw_dir a, pw_shell a) = (Some (p_dir pw), Some (p_shell pw)) ∧
      (pw_name a, pw_passwd a) = (Some (p_name pw), Some (stored_hash env pw))
  | None => pw_name a = None
  end.

(** A method that is no longer on the list has succeeded. *)
Definition succeeded (proof : passwd → request → Prop) (rs : list request) name : Prop :=
  ∃ pw, getpwnam env name = Some pw ∧ Exists (proof pw) rs.

Inductive progress (rs : list request) a : Prop :=
| no_user : username a = None → authtypes a = types true (negb (noauthpass env)) → progress rs a
| one_user name p w :
    username a = Some name → pw_of a (getpwnam env name) → authtypes a = types p w →
    (p = false → succeeded (pubkey_proof env (contents sid) name) rs name) →
    (w = false → noauthpass env = true ∨ succeeded (password_proof env name) rs name) →
    progress rs a.

Lemma progress_core rs a a' : core a' = core a → progress rs a → progress rs a'.
Proof.
  intros [= Hu Ht H1 H2 H3 H4 H5 H6] [Hn Hty|name p w Hn Hp Hty Hpub Hpass].
  - apply no_user; congruence.
  - eapply one_user; [by rewrite Hu| |by rewrite Ht|done|done].
    unfold pw_of in *. rewrite H1, H2, H3, H4, H5, H6. done.
Qed.

Lemma progress_more rs r a : progress rs a → progress (rs ++ [r]) a.
Proof.
  assert (Hmore : ∀ proof name, succeeded proof rs name → succeeded proof (rs ++ [r]) name).
  { intros proof name (pw&Hpw&Hex). exists pw. split; [done|]. apply Exists_app. by left. }
  intros [Hn Hty|name p w Hn Hp Hty Hpub Hpass]; [by apply no_user|].
  eapply one_user; [done|done|done|by intros ?; apply Hmore, Hpub|].
  intros Hw. destruct (Hpass Hw); [by left|right; by apply Hmore].
Qed.

Lemma progress_types rs a : progress rs a → ∃ p w, authtypes a = types p w.
Proof. intros [? H|? ? ? ? ? H]; eauto. Qed.

(** A user the checks accept. *)
Definition valid a name : Prop :=
  ∃ pw, username a = Some name ∧ getpwnam env name = Some pw ∧ pw_of a (Some pw) ∧ may_login env pw.

Lemma wp_fill_passwd name E (Q : unit → svrses → Prop) s :
  (∀ a', pw_of a' (getpwnam env name) → (username a', authtypes a', failcount a') =
     (username (authstate s), authtypes (authstate s), failcount (authstate s)) → Q tt (set_authstate a' s)) →
  wp (fill_passwd env name) E Q s.
Proof.
  intros HQ. apply wp_bind, wp_modify. destruct (getpwnam env name) as [pw|].
  - apply wp_modify. cbn [authstate set_authstate]. apply HQ; [|done]. split_and!; [done|done|].
    unfold stored_hash, set_pw. cbn [pw_name pw_passwd]. destruct (p_passwd pw) as [h|]; [|done]. destruct (bytes_eqb h (bstr "x")); [|done].
    by destruct (getspnam env (p_name pw)).
  - by apply wp_ret, HQ.
Qed.

Lemma wp_checkusername name rs n s b (Q : bool → svrses → Prop) :
  live n s b → progress rs (authstate s) →
  (∀ v s', live n s' b → stp s' = stp s → uid s' = uid s → failcount (authstate s') = failcount (authstate s) →
     progress rs (authstate s') → (v = true → valid (authstate s') name) → Q v s') →
  wp (checkusername env name) any_exit Q s.
Proof.
  intros Hl Hpr HQ. apply wp_if; intros _; [by apply wp_ret, HQ|].
  apply wp_bind, wp_exit_if; intros _; [done|]. apply wp_bind, wp_gets, wp_bind.
  assert (Hend : ∀ s', live n s' b → stp s' = stp s → uid s' = uid s → failcount (authstate s') = failcount (authstate s) →
    progress rs (authstate s') → username (authstate s') = Some name → pw_of (authstate s') (getpwnam env name) →
    wp (let* a := auth in
        if checkusername_failed a then ret false
        else match pw_name a with
        | None => cached_failure
        | Some pwname =>
            if negb (user_allowed env a pwname) then cached_failure
            else let* shell := ptr (pw_shell a) in
                 if shell_allowed env shell then ret true else cached_failure
        end) any_exit Q s').
  { intros s' Hl' Hst Hu Hf Hpr' Hname Hpw. apply wp_bind, wp_gets.
    assert (Hfail : wp cached_failure any_exit Q s').
    { apply wp_bind, wp_modify, wp_ret. apply HQ; [done|done|done|done| |done]. by eapply progress_core; [|exact Hpr']. }
    apply wp_if; intros _; [by apply wp_ret, HQ|]. unfold pw_of in Hpw. destruct (getpwnam env name) as [pw|] eqn:Hget.
    2: by rewrite Hpw. pose proof Hpw as Hpw0. destruct Hpw as ([= H1 H2]&[= H3 H4]&[= H5 H6]). rewrite H5, H4.
    apply wp_if; intros Hallow; [done|]. apply negb_false_iff in Hallow.
    apply wp_bind, wp_ret, wp_if; intros Hshell; [|done]. apply wp_ret, HQ; [done..|]. intros _.
    exists pw. split_and!; [done|done|done|]. split; [|done]. unfold user_allowed in Hallow. by rewrite H1, H2 in Hallow. }
  destruct (username (authstate s)) as [u|] eqn:Hu.
  - apply wp_exit_if; intros Hne; [done|]. apply negb_false_iff, bytes_eqb_true in Hne as ->.
    apply Hend; try done. destruct Hpr as [Hn _|u' p w Hn Hp _ _ _]; congruence.
  - apply wp_bind, wp_fill_passwd. intros a' Hpw [= Hu' Ht' Hf']. apply wp_modify. apply Hend; cbn; try done.
    destruct Hpr as [_ Ht|u' p w Hn _ _ _ _]; [|congruence].
    eapply one_user; [done|exact Hpw|cbn; by rewrite Ht', Ht|done|].
    intros Hna%negb_false_iff. by left.
Qed.

(** ** The methods *)

Definition tries_ok a : Prop := 0 ≤ failcount a ≤ maxauthtries env.

(** The client is in, and why. *)
Definition entered (rs : list request) s : Prop :=
  authdone (stp s) = true ∧ ∃ name pw, username (authstate s) = Some name ∧ getpwnam env name = Some pw ∧ may_login env pw ∧
    uid s = p_uid pw ∧ authenticated env (contents sid) name pw rs.

(** What a request leads to. *)
Definition outcome (rs : list request) s s' : Prop :=
  tries_ok (authstate s') ∧
  ((∃ b', live 0 s' b') ∧ uid s' = uid s ∧ progress rs (authstate s') ∨ entered rs s').

Lemma live_less n m s b : live n s b → m ≤ n → live m s b.
Proof. intros ((msgs&Hr&Hn)&Hrest) Hm. split; [|done]. exists msgs. split; [done|lia]. Qed.

Lemma wp_refused partial incr rs n s b :
  live n s b → 1 ≤ n → progress rs (authstate s) → tries_ok (authstate s) →
  wp (send_msg_userauth_failure env partial incr) any_exit
    (λ _ s', outcome rs s s' ∧ unmoved s s' ∧ live (n - 1) s' b) s.
Proof.
  intros Hl Hn Hpr Hf. destruct (progress_types _ _ Hpr) as (p&w&Ht).
  eapply wp_failure; [done|done|done|done|]. intros s' Hl' (Hu&Hc&Hf'). split_and!; [|exact (conj Hu (conj Hc Hf'))|done].
  split; [done|]. left. split_and!; [exists b; eapply live_less; [done|lia]|done|by eapply progress_core].
Qed.

Lemma wp_refused_only partial incr rs n s b :
  live n s b → 1 ≤ n → progress rs (authstate s) → tries_ok (authstate s) →
  wp (send_msg_userauth_failure env partial incr) any_exit (λ _ s', outcome rs s s') s.
Proof. intros. eapply wp_mono; [by eapply wp_refused|]. by intros ? ? (?&_). Qed.

Lemma wp_accepted rs n s b name pw :
  live n s b → 1 ≤ n → tries_ok (authstate s) → username (authstate s) = Some name → getpwnam env name = Some pw →
  pw_of (authstate s) (Some pw) → may_login env pw → authenticated env (contents sid) name pw rs →
  wp (send_msg_userauth_success env) any_exit (λ _ s', outcome rs s s') s.
Proof.
  intros Hl Hn Hf Hname Hget Hpw Hmay Hauth. eapply wp_success; [done|done|].
  intros s' (Hd&Hc&Hu&Hfc&Hs). pose proof Hl as (_&_&_&_&_&Hsid0). destruct Hpw as ([= Hpu _]&_).
  split; [unfold tries_ok in *; by rewrite Hfc|]. right. split; [done|].
  exists name, pw. split_and!; [|done|done|congruence|done].
  assert (Hn' : username (authstate s') = username (authstate s)) by exact (f_equal (λ x, x.1.1.1.1) Hc). congruence.
Qed.

(** One more method succeeded: it leaves the list, or the client is in. *)
Lemma types_without_password p w : Z.land (types p w) (Z.lnot AUTH_TYPE_PASSWORD) = types p false.
Proof. by destruct p, w. Qed.
Lemma types_without_pubkey p w : Z.land (types p w) (Z.lnot AUTH_TYPE_PUBKEY) = types false w.
Proof. by destruct p, w. Qed.
Lemma types_zero p w : negb (types p w =? 0) = p || w.
Proof. by destruct p, w. Qed.

Lemma one_user_inv rs a name : progress rs a → username a = Some name →
  ∃ p w, pw_of a (getpwnam env name) ∧ authtypes a = types p w ∧
    (p = false → succeeded (pubkey_proof env (contents sid) name) rs name) ∧
    (w = false → noauthpass env = true ∨ succeeded (password_proof env name) rs name).
Proof. intros [Hn _|u p w Hn Hp Ht H1 H2] Hname; [congruence|]. simplify_eq. by exists p, w. Qed.

Lemma succeeded_user proof rs name pw : succeeded proof rs name → getpwnam env name = Some pw → Exists (proof pw) rs.
Proof. intros (pw'&Hpw'&Hex) Hpw. by simplify_eq. Qed.

Lemma wp_password_ok rs n s b name pw :
  live n s b → 1 ≤ n → tries_ok (authstate s) → progress rs (authstate s) →
  username (authstate s) = Some name → getpwnam env name = Some pw → pw_of (authstate s) (Some pw) → may_login env pw →
  Exists (password_proof env name pw) rs →
  wp (if multiauthmethod env && negb (Z.land (authtypes (authstate s)) (Z.lnot AUTH_TYPE_PASSWORD) =? 0) then
        do* on_auth (λ a, set_authtypes (Z.land (authtypes a) (Z.lnot AUTH_TYPE_PASSWORD)) a);
        send_msg_userauth_failure env true false
      else send_msg_userauth_success env) any_exit (λ _ s', outcome rs s s') s.
Proof.
  intros Hl Hn Hf Hpr Hname Hget Hpw Hmay Hproof. destruct (one_user_inv _ _ _ Hpr Hname) as (p&w&Hof&Ht&Hp&Hw).
  rewrite Ht, types_without_password, types_zero, orb_false_r. apply wp_if; intros Hm.
  - apply wp_bind, wp_modify. eapply (wp_refused_only _ _ rs n (set_authstate _ s)); [exact Hl|done| |done].
    eapply one_user; [done|exact Hof|cbn; by rewrite Ht, types_without_password|done|].
    intros _. right. by exists pw.
  - eapply wp_accepted; [done|done|done|done|done|done|done|]. right. split; [by left|]. intros Hmulti.
    rewrite Hmulti in Hm. destruct p; [done|]. split; [done|]. by eapply succeeded_user; [apply Hp|].
Qed.

Lemma wp_pubkey_ok rs n s b name pw :
  live n s b → 1 ≤ n → tries_ok (authstate s) → progress rs (authstate s) →
  username (authstate s) = Some name → getpwnam env name = Some pw → pw_of (authstate s) (Some pw) → may_login env pw →
  Exists (pubkey_proof env (contents sid) name pw) rs →
  wp (if multiauthmethod env && negb (Z.land (authtypes (authstate s)) (Z.lnot AUTH_TYPE_PUBKEY) =? 0) then
        do* on_auth (λ a, set_authtypes (Z.land (authtypes a) (Z.lnot AUTH_TYPE_PUBKEY)) a);
        send_msg_userauth_failure env true false
      else send_msg_userauth_success env) any_exit (λ _ s', outcome rs s s') s.
Proof.
  intros Hl Hn Hf Hpr Hname Hget Hpw Hmay Hproof. destruct (one_user_inv _ _ _ Hpr Hname) as (p&w&Hof&Ht&Hp&Hw).
  rewrite Ht, types_without_pubkey, types_zero, orb_false_l. apply wp_if; intros Hm.
  - apply wp_bind, wp_modify. eapply (wp_refused_only _ _ rs n (set_authstate _ s)); [exact Hl|done| |done].
    eapply one_user; [done|exact Hof|cbn; by rewrite Ht, types_without_pubkey| |done].
    intros _. by exists pw.
  - eapply wp_accepted; [done|done|done|done|done|done|done|]. right. split; [by right|]. intros Hmulti.
    rewrite Hmulti in Hm. destruct w; [done|]. split; [|done].
    destruct (Hw eq_refl) as [Hno|Hs]; [by rewrite (ae_multi Hmulti) in Hno|]. by eapply succeeded_user.
Qed.

Lemma constant_time_strcmp_zero (x y : list Z) : constant_time_strcmp x y = 0 → x = y.
Proof.
  unfold constant_time_strcmp. destruct (negb _); [done|]. by intros [_ ?]%constant_time_memcmp_zero.
Qed.

(** What a method is called with: the user's name checked, the payload after
    the head of the request [r]. *)
Definition called (rs : list request) (r : request) name (v : bool) n s b : Prop :=
  live n s b ∧ 1 ≤ n ∧ tries_ok (authstate s) ∧ progress rs (authstate s) ∧
  (v = true → valid (authstate s) name).

Lemma called_refused partial incr rs r name v n s b s1 b1 :
  called rs r name v n s b → live n s1 b1 → uid s1 = uid s → authstate s1 = authstate s →
  wp (send_msg_userauth_failure env partial incr) any_exit (λ _ s', outcome (rs ++ [r]) s s') s1.
Proof.
  intros (_&Hn&Hf&Hpr&_) Hl Hu Ha.
  eapply wp_mono; [apply (wp_refused_only partial incr (rs ++ [r]) n s1 b1)|].
  - done. - done. - rewrite Ha. by apply progress_more. - by rewrite Ha.
  - intros [] s' [Hf' Ho]. split; [done|]. destruct Ho as [(Hl'&Hu'&Hp')|He]; [left|by right]. by rewrite Hu', Hu.
Qed.

Lemma wp_auth_password rs r name v n s b :
  called rs r name v n s b → request_head r.1 name (bstr "password") b →
  noauthpass env = false → norootpass env && (pw_uid (authstate s) =? 0) = false →
  wp (svr_auth_password env v) any_exit (λ _ s', outcome (rs ++ [r]) s s') s.
Proof.
  intros Hcall Hhead Hna Hroot. pose proof Hcall as (Hl&Hn&Hf&Hpr&Hv).
  apply wp_bind. eapply wp_read; [exact Hl|apply scan_bool|]. intros x b1 Hx _ Hl1.
  apply wp_if; intros Hch; [by eapply called_refused|]. apply negb_false_iff, Z.eqb_eq in Hch as ->.
  apply wp_bind. eapply wp_read; [exact Hl1|apply scan_string|]. intros password b2 Hpass _ Hl2. cbv zeta.
  set (s2 := spv (spv s b1) b2) in *. apply wp_bind, wp_gets.
  assert (Hno : wp (send_msg_userauth_failure env false true) any_exit (λ _ s', outcome (rs ++ [r]) s s') s2)
    by (by eapply called_refused).
  destruct v; cbn [andb negb].
  2: { by apply wp_bind, wp_ret. }
  destruct (Hv eq_refl) as (pw&Hname&Hget&Hpw&Hmay). pose proof Hpw as ([= Hpu Hpg]&_&[= Hpn Hpp]).
  change (authstate s2) with (authstate s). rewrite Hpp. cbn [ptr].
  assert (Hrest : ∀ t : option (list Z),
    (passwordlen ← Some (zlen password); if passwordlen <=? DROPBEAR_MAX_PASSWORD_LEN
       then crypt env (before_nul password) (stored_hash env pw) else None) = t →
    wp (if zlen password >? DROPBEAR_MAX_PASSWORD_LEN then send_msg_userauth_failure env false true
        else match t with
        | None => send_msg_userauth_failure env false true
        | Some testcrypt =>
            let* passwdcrypt := ret (stored_hash env pw) in
            match passwdcrypt with
            | [] => send_msg_userauth_failure env false true
            | _ =>
                if constant_time_strcmp testcrypt passwdcrypt =? 0 then
                  if multiauthmethod env && negb (Z.land (authtypes (authstate s)) (Z.lnot AUTH_TYPE_PASSWORD) =? 0) then
                    do* on_auth (λ a, set_authtypes (Z.land (authtypes a) (Z.lnot AUTH_TYPE_PASSWORD)) a);
                    send_msg_userauth_failure env true false
                  else send_msg_userauth_success env
                else send_msg_userauth_failure env false true
            end
        end) any_exit (λ _ s', outcome (rs ++ [r]) s s') s2).
  { intros t Ht. cbn in Ht. apply wp_if; intros Hlen; [done|]. destruct t as [t|]; [|done].
    replace (zlen password <=? DROPBEAR_MAX_PASSWORD_LEN) with true in Ht by lia.
    apply wp_bind, wp_ret. destruct (stored_hash env pw) as [|h0 h] eqn:Hh; [done|]. rewrite <-Hh.
    apply wp_if; intros Heq; [|done]. apply Z.eqb_eq, constant_time_strcmp_zero in Heq as ->.
    eapply (wp_password_ok _ n s2); [done|done|done|by apply progress_more|done|done|done|done|].
    apply Exists_app. right. apply Exists_cons. left. exists b, b1, b2, password.
    split_and!; try done; [lia|by rewrite Hh in Ht |- *|by rewrite Hh|]. unfold root_barred. by rewrite <-Hpu. }
  apply wp_bind. apply wp_if; intros Hlen.
  - apply wp_bind, wp_ret, wp_ret. apply Hrest. cbn. by rewrite Hlen.
  - apply wp_ret. by apply wp_if.
Qed.

(** ** Public keys *)

Lemma signkey_name_listed type algo : signkey_name_from_type type tt = Ok (algo, tt) → algo ∈ signkey_names.
Proof.
  unfold signkey_name_from_type. destruct (signkey_names !! _) as [n|] eqn:Hn; [|done]. intros [= ->].
  by apply list_elem_of_lookup_2 in Hn.
Qed.

Lemma wp_checkpubkey algo keyblob name (Q : option PubKeyOptions → svrses → Prop) s pw :
  pw_of (authstate s) (Some pw) → getpwnam env name = Some pw → algo ∈ signkey_names →
  (∀ r, (∀ o, r = Some o → key_listed env pw algo keyblob o) → Q r s) →
  wp (checkpubkey env algo keyblob) any_exit Q s.
Proof.
  intros ([= Hu Hg]&[= Hd _]&_) Hget [Hplain Halgo]%signkey_name_plain HQ.
  apply wp_bind, wp_gets, wp_bind, wp_exit_if; intros _; [done|]. cbv zeta. rewrite Hu, Hd.
  apply wp_bind, wp_exit_if; intros _; [done|].
  destruct (checkpubkeyperms _ _ _ _) eqn:Hperm; [|by apply wp_ret, HQ].
  destruct (read_file env _) as [file|] eqn:Hfile; [|by apply wp_ret, HQ].
  eapply wp_exit_mono; [apply (wp_search_keys _ _ _ (ae_base64 (env := env))); [by eapply ae_file|by eapply ae_chars|done|done|]|done].
  intros r Hr. apply HQ. intros o ->. destruct Hr as (line&Hln&_&Hcm&Hal). split; [done|]. by exists file, line.
Qed.

Lemma wp_sign_data E (Q : buffer → sshsession → Prop) (t : sshsession) b :
  payload (pkt t) = Some b → wf_buf b → 0 ≤ payload_beginning (pkt t) ≤ b_pos b → session_id (kexdat t) = Some sid →
  (BUF_MAX_SIZE < b_pos b + 4 + b_len sid → ∀ e, E e) →
  (∀ data, wf_buf data → b_pos data = 0 →
     contents data = STORE32H (zlen (contents sid)) ++ contents sid ++
       slice (payload_beginning (pkt t)) (b_pos b - payload_beginning (pkt t)) (b_data b) → Q data t) →
  wp sign_data E Q t.
Proof using Hsid.
  intros Hp Hwf Hb Hs HE HQ. pose proof Hwf as (?&?&?&?). pose proof Hsid as (?&?&?&?).
  set (beg := payload_beginning (pkt t)) in *. pose proof (contents_length sid Hsid) as Hsl.
  apply wp_bind, wp_get, wp_bind. eapply wp_zoom_ptr; [exact Hp|]. apply wp_gets.
  assert (Hsame : on_pkt (set_payload (Some b)) t = t) by (destruct t as [? [] ? ? ? ? ? ?]; cbn in *; by rewrite <-Hp).
  rewrite Hsame. fold beg. replace (beg <=? b_pos b) with true by lia. apply wp_bind, wp_ret. cbv zeta.
  rewrite Hs. apply wp_bind, wp_ret. apply wp_bind, wp_buf_new; [|intros; by apply HE]. intros Hsz.
  set (wire := STORE32H (zlen (contents sid)) ++ contents sid ++ slice beg (b_pos b - beg) (b_data b)).
  assert (Hslice : zlen (slice beg (b_pos b - beg) (b_data b)) = b_pos b - beg) by (apply zlen_slice; lia).
  assert (Hfill : filling wire ((STORE32H (zlen (contents sid)) ++ contents sid) ++ slice beg (b_pos b - beg) (b_data b))
    (mkbuf (zeros (b_pos b + 4 + b_len sid)) 0 0 (b_pos b + 4 + b_len sid))).
  { exists []. split_and!; [by apply buf_acc_new; lia|by rewrite <-app_assoc|].
    unfold wire. rewrite !zlen_app, STORE32H_length, Hslice, Hsl. cbn [b_size]. lia. }
  assert (Hby1 : bytes_ok (STORE32H (zlen (contents sid)) ++ contents sid)).
  { apply bytes_ok_app. split; [apply STORE32H_bytes|by apply contents_bytes]. }
  destruct (filling_put _ _ _ _ Hfill Hby1) as (Hw1&Hr1&Hfill1).
  apply wp_bind, wp_on_new. rewrite zlen_app, STORE32H_length in Hr1.
  apply wp_buf_putstring; [done|by apply contents_bytes| |intros; unfold contents in *; cbn [b_pos b_size] in *; lia]. intros _. fold (contents sid).
  apply wp_bind. eapply wp_zoom_ptr; [exact Hp|]. apply wp_buf_setpos; [|lia]. intros _.
  apply wp_bind. eapply (wp_zoom_ptr _ _ _ _ _ _ (set_pos beg b)); [done|].
  assert (Hwb : wf_buf (set_pos beg b)) by (apply wf_set_pos; [done|lia]).
  apply wp_bind, wp_buf_getptr; [done|lia| |cbn [set_pos b_pos b_len]; lia]. intros _. cbn [set_pos b_pos].
  apply wp_mem_load; cbn [set_pos b_data]; [lia..|].
  rewrite <-(app_nil_r (slice beg _ _)) in Hfill1.
  destruct (filling_put _ _ _ _ Hfill1 ltac:(by apply bytes_ok_slice)) as (Hw2&Hr2&(acc&Hacc&Heq&_)).
  apply wp_bind, wp_on_new, wp_buf_putbytes; [done|by apply bytes_ok_slice| |lia]. intros _.
  apply wp_bind. eapply (wp_zoom_ptr _ _ _ _ _ _ (set_pos beg b)); [done|].
  apply wp_buf_incrpos; [done|lia| |cbn [set_pos b_pos b_len]; lia]. intros _.
  rewrite app_nil_r in Heq. subst acc. destruct Hacc as (Hwd&Hpl&Hc). pose proof Hwd as (?&_).
  apply wp_bind, wp_on_new, wp_buf_setpos; [|cbn [b_len] in *; lia]. intros _. apply wp_ret.
  match goal with |- Q ?d ?t' => replace t' with t; [apply (HQ d)|] end.
  - apply wf_set_pos; [done|lia].
  - done.
  - exact Hc.
  - unfold after_get, set_pos. cbn. replace (beg + (b_pos b - beg)) with (b_pos b) by lia.
    rewrite <-Hsame at 1. by destruct t as [? [] ? ? ? ? ? ?], b.
Qed.

Lemma outcome_refused rs n s s' s0 b :
  live n s' b → 0 ≤ n → unmoved s0 s' → uid s0 = uid s → progress rs (authstate s0) → outcome rs s s'.
Proof.
  intros Hl Hn (Hu&Hc&Hf) Hu0 Hpr. split; [done|]. left. split_and!; [|congruence|by eapply progress_core].
  exists b. by eapply live_less.
Qed.

(** The type of a key is one of the table, or none. *)
Lemma key_type_known sigalgo : signature_type_from_name sigalgo ≠ DROPBEAR_SIGNATURE_NONE →
  short_name sigalgo ∧ ∃ keytype algo, key_algo sigalgo keytype algo ∧ zlen algo ≤ MAX_AUTHKEYS_LINE ∧
    (∀ S (s : S), signkey_type_from_signature (signature_type_from_name sigalgo) s = Ok (keytype, s)) ∧
    (∀ S (s : S), signkey_name_from_type keytype s = Ok (algo, s)).
Proof.
  intros Hne.
  assert (Hk : short_name sigalgo ∧ ∃ keytype algo, zlen algo ≤ MAX_AUTHKEYS_LINE ∧
    (∀ S (s : S), signkey_type_from_signature (signature_type_from_name sigalgo) s = Ok (keytype, s)) ∧
    (∀ S (s : S), signkey_name_from_type keytype s = Ok (algo, s))).
  { revert Hne. unfold signature_type_from_name, signkey_type_from_name.
    destruct (bytes_eqb sigalgo SSH_SIGNATURE_RSA_SHA256) eqn:Hrsa.
    { intros _. apply bytes_eqb_true in Hrsa as ->. split; [decide_closed|]. exists 0, (bstr "ssh-rsa"). by split_and!. }
    destruct (List.find _ _) as [[i nm]|] eqn:Hf; [|done]. intros _.
    apply List.find_some in Hf as [Hin Heq]. apply bytes_eqb_true in Heq. cbn [snd] in Heq. subst nm. clear Hrsa.
    repeat (destruct Hin as [[= <- <-]|Hin];
      [split; [decide_closed|]; match goal with |- context [signkey_type_from_signature ?k] =>
         let nm := eval vm_compute in (default [] (signkey_names !! Z.to_nat k)) in
         exists k, nm; split_and!; [by apply Z.leb_le|done|done] end|]).
    destruct Hin. }
  destruct Hk as (Hs&keytype&algo&Hl&H1&H2). split; [done|]. exists keytype, algo. by split_and!.
Qed.

Lemma listed_length pw algo keyblob o : key_listed env pw algo keyblob o → zlen keyblob ≤ 2 * MAX_AUTHKEYS_LINE.
Proof using OK.
  intros (_&file&line&_&(_&_&_&_&_&_&_&_&Hl&_)&_&pre&b64&post&o0&info&->&_&_&(_&Hdec&_)&_).
  apply ae_base64 in Hdec as [Hd _]. rewrite !zlen_app in Hl.
  pose proof (zlen_nonneg pre). pose proof (zlen_nonneg algo). pose proof (zlen_nonneg post). change (zlen [32]) with 1 in Hl. lia.
Qed.

Lemma wp_verify_pubkey rs r name n s b4 keyblob sigalgo keytype algo o :
  called rs r name true n s b4 →
  key_algo sigalgo keytype algo → r.2 = payload_beginning (pkt (stp s)) →
  (∀ pw b5 b6 key keytype' data, getpwnam env name = Some pw → key_listed env pw algo keyblob o →
    buf_get_pub_key new_sign_key keytype b4 = Ok ((true, (key, keytype')), b5) →
    contents data = STORE32H (zlen (contents sid)) ++ contents sid ++ slice r.2 (b_pos b5 - r.2) (b_data b5) →
    b_pos data = 0 →
    buf_verify (set_sk_flags_mask (sk_flags o) key) (signature_type_from_name sigalgo) data b5 = Ok (true, b6) →
    pubkey_proof env (contents sid) name pw r) →
  (∀ pw, getpwnam env name = Some pw → key_listed env pw algo keyblob o) →
  wp (verify_pubkey env (signature_type_from_name sigalgo) keytype o) any_exit (λ _ s', outcome (rs ++ [r]) s s') s.
Proof using Hsid OK T.
  intros Hcall Hka Hbeg Hproof Hlisted. pose proof Hcall as (Hl&Hn&Hf&Hpr&Hv).
  apply wp_bind. eapply wp_read; [exact Hl|intros b Hb; by apply wp_buf_get_pub_key|].
  intros [ok5 [key kt5]] b5 Hkey Hsc5 Hl5. destruct ok5; [|by eapply called_refused]. cbn [negb].
  assert (Hrsa : rsa_part_ok (set_sk_flags_mask (sk_flags o) key)) by (eapply key_read_rsa; [|exact Hkey]; apply Hl).
  pose proof Hl5 as (_&_&Hp5&Hwf5&Hb5&Hs5).
  apply wp_bind, wp_stp. eapply wp_sign_data; [exact Hp5|done|exact Hb5|exact Hs5|done|].
  intros data Hwd Hpd Hcd. replace (set_stp (stp (spv s b5)) (spv s b5)) with (spv s b5) by done.
  apply wp_bind. eapply wp_read; [exact Hl5|intros b Hb; by apply wp_buf_verify|].
  intros ok b6 Hver _ Hl6. destruct ok; [|by eapply called_refused].
  destruct (Hv eq_refl) as (pw&Hname&Hget&Hpw&Hmay).
  assert (Hex : Exists (pubkey_proof env (contents sid) name pw) (rs ++ [r])).
  { apply Exists_app. right. apply Exists_cons. left.
    eapply Hproof; [done|by apply Hlisted|exact Hkey|rewrite Hbeg; exact Hcd|done|exact Hver]. }
  apply wp_bind, wp_modify.
  set (s6 := set_authstate _ (spv (spv s b5) b6)).
  assert (Hcore : core (authstate s6) = core (authstate s)) by (cbn; by destruct (pubkey_options (authstate s))).
  assert (Hfc : failcount (authstate s6) = failcount (authstate s)) by (cbn; by destruct (pubkey_options (authstate s))).
  assert (Hl7 : live n s6 b6) by exact Hl6. assert (Hu7 : uid s6 = uid s) by done. clearbody s6.
  apply wp_bind, wp_gets.
  assert (Hn' : username (authstate s6) = username (authstate s)) by exact (f_equal (λ x, x.1.1.1.1) Hcore).
  assert (Hpw6 : pw_of (authstate s6) (Some pw)).
  { injection Hcore as _ _ E1 E2 E3 E4 E5 E6. unfold pw_of in *. by rewrite E1, E2, E3, E4, E5, E6. }
  eapply wp_mono; [eapply (wp_pubkey_ok (rs ++ [r]) n s6 b6 name pw); [done|done|unfold tries_ok in *; by rewrite Hfc| |congruence|done|done|done|done]|].
  - eapply progress_core; [exact Hcore|by apply progress_more].
  - intros [] s' [Hf' [(Hl'&Hu'&Hp')|He]]; (split; [done|]); [left; by rewrite Hu', Hu7|by right].
Qed.

Lemma wp_pk_ok sigalgo keyblob n s b E (Q : unit → svrses → Prop) :
  live n s b → 1 ≤ n → bytes_ok sigalgo → bytes_ok keyblob → zlen sigalgo + zlen keyblob + 9 ≤ TRANS_MAX_PAYLOAD_LEN →
  (∀ t, live (n - 1) (set_stp t s) b → Q tt (set_stp t s)) →
  wp (on_stp (send_msg_userauth_pk_ok sigalgo keyblob)) E Q s.
Proof.
  intros Hl Hn Hb1 Hb2 Hlen HQ. pose proof (zlen_nonneg sigalgo). pose proof (zlen_nonneg keyblob).
  unfold TRANS_MAX_PAYLOAD_LEN in Hlen.
  apply (wp_send [(buf_putbyte SSH_MSG_USERAUTH_PK_OK, [SSH_MSG_USERAUTH_PK_OK]);
    (buf_putstring sigalgo, STORE32H (zlen sigalgo) ++ sigalgo);
    (buf_putstring keyblob, STORE32H (zlen keyblob) ++ keyblob)] n s b); [done|done| | |intros t Ht _; by apply HQ].
  - rewrite !Forall_cons. cbn [fst snd]. split_and!; [by apply puts_byte|apply puts_string; [done|lia]..|constructor].
  - unfold wire_of. cbn [map concat snd]. rewrite !zlen_app, !STORE32H_length.
    change (zlen [_]) with 1. change (zlen (@nil Z)) with 0. unfold TRANS_MAX_PAYLOAD_LEN. lia.
Qed.

Lemma outcome_stays rs s s' b : live 0 s' b → uid s' = uid s → progress rs (authstate s') → tries_ok (authstate s') → outcome rs s s'.
Proof. intros. split; [done|]. left. split_and!; [by exists b|done|done]. Qed.

(** Reading the key without moving the cursor. *)
Lemma wp_peek_blob len n s b (Q : list Z → svrses → Prop) :
  live n s b → 0 ≤ len →
  (∀ keyblob, zlen keyblob = len → bytes_ok keyblob → at_cursor b keyblob → Q keyblob s) →
  wp (on_spayload (let* p := buf_getptr len in mem_load p len)) any_exit Q s.
Proof.
  intros Hl Hlen HQ. pose proof Hl as (_&_&Hp&Hwf&_). pose proof Hwf as (?&?&?&?). eapply wp_spayload; [exact Hp|].
  apply wp_bind, wp_buf_getptr; [done|done| |done]. intros Hle. apply wp_mem_load; [lia..|].
  assert (Hz : zlen (slice (b_pos b) len (b_data b)) = len) by (apply zlen_slice; lia).
  replace (spv s b) with s.
  2: { destruct s as [[? [] ? ? ? ? ? ?] ? ? ? ? ? ? ? ? ?]. cbn in Hp. unfold spv, on_pkt, set_pkt, set_payload, set_stp. cbn. by rewrite <-Hp. }
  apply HQ; [done|by apply bytes_ok_slice|]. split; rewrite Hz; [done|done].
Qed.

Lemma wp_auth_pubkey rs r name v n s b :
  called rs r name v n s b → request_head r.1 name (bstr "publickey") b → r.2 = payload_beginning (pkt (stp s)) →
  wp (svr_auth_pubkey env v) any_exit (λ _ s', outcome (rs ++ [r]) s s') s.
Proof using Hsid OK T.
  intros Hcall Hhead Hbeg. pose proof Hcall as (Hl&Hn&Hf&Hpr&Hv).
  apply wp_bind. eapply wp_read; [exact Hl|apply scan_bool|]. intros flag b1 Hflag _ Hl1. cbv zeta.
  apply wp_bind. eapply wp_read; [exact Hl1|apply scan_string|]. intros sigalgo b2 Hsig _ Hl2.
  apply wp_bind. eapply wp_read; [exact Hl2|apply scan_int|]. intros len b3 Hint _ Hl3.
  assert (Hlen : 0 ≤ len).
  { pose proof Hl2 as (_&_&_&Hwf2&_).
    assert (Hi : wp buf_getint any_exit (λ x _, 0 ≤ x) b2).
    { apply wp_buf_getint; [done| |done]. intros _. apply (slice_LOAD32H_ok _ _ Hwf2). }
    unfold wp in Hi. by rewrite Hint in Hi. }
  apply wp_bind. eapply wp_peek_blob; [exact Hl3|done|]. intros keyblob Hbl Hbb Hat.
  set (s3 := spv _ b3) in *. assert (Hcall3 : called rs r name v n s3 b3) by (by split_and!).
  assert (Hrefuse : ∀ p i, wp (send_msg_userauth_failure env p i) any_exit (λ _ s', outcome (rs ++ [r]) s s') s3)
    by (intros; by eapply called_refused).
  destruct v; cbn [negb]; [|apply Hrefuse].
  apply wp_if; intros Hnone; [apply Hrefuse|]. apply Z.eqb_neq in Hnone.
  destruct (key_type_known sigalgo Hnone) as ([Hsb Hsl]&keytype&algo&Hka&Hal&Hkt&Hnm).
  apply wp_bind. eapply wp_of_run; [apply Hkt|]. cbn beta. apply wp_bind. eapply wp_of_run; [apply Hnm|]. cbn beta.
  destruct (Hv eq_refl) as (pw&Hname&Hget&Hpw&Hmay).
  apply wp_bind. eapply (wp_checkpubkey algo keyblob name); [exact Hpw|exact Hget|exact (signkey_name_listed _ _ (Hnm unit tt))|]. intros [o|] Ho.
  - specialize (Ho o eq_refl). apply wp_if; intros Htest.
    + pose proof (listed_length _ _ _ _ Ho) as Hkl. unfold MAX_AUTHKEYS_LINE in Hkl.
      eapply wp_pk_ok; [exact Hl3|done|done|done|unfold TRANS_MAX_PAYLOAD_LEN; lia|].
      intros t Ht. eapply outcome_stays; [eapply live_less; [exact Ht|lia]|done|by apply progress_more|done].
    + apply Z.eqb_neq in Htest.
      eapply wp_mono; [eapply (wp_verify_pubkey rs r name n s3 b3 keyblob); [done|done|by rewrite Hbeg| |]|].
      * intros pw' b5 b6 key kt data Hget' Hlist Hk Hc Hp Hver.
        exists b, b1, b2, b3, b5, b6, flag, sigalgo, keytype, algo. exists keyblob, o, key, kt, data.
        split_and!; try done. by rewrite Hbl.
      * intros pw' Hget'. by simplify_eq.
      * intros [] s' [Hf' [(Hl'&Hu'&Hp')|He]]; (split; [done|]); [by left|by right].
  - apply wp_bind, wp_gets. apply wp_bind.
    eapply wp_mono; [eapply (wp_refused _ _ (rs ++ [r]) n s3); [exact Hl3|done|by apply progress_more|done]|].
    intros [] s' (_&(Hu&Hc&Hfc)&Hl'). apply wp_modify.
    eapply outcome_stays; [eapply live_less; [exact Hl'|lia]|done| |done].
    eapply progress_core; [|by apply progress_more; exact Hpr]. exact Hc.
Qed.

(** ** Requests *)

Definition MAX_BANNER_SIZE : Z := 2050.
Definition banner_ok s : Prop := ∀ bn, banner s = Some bn → wf_buf bn ∧ b_len bn ≤ MAX_BANNER_SIZE.

Lemma wp_banner bn n s b E (Q : unit → svrses → Prop) :
  live n s b → 1 ≤ n → wf_buf bn → b_len bn ≤ MAX_BANNER_SIZE →
  (∀ t, live (n - 1) (set_stp t s) b → quiet t = quiet (stp s) → Q tt (set_stp t s)) →
  wp (on_stp (send_msg_userauth_banner bn)) E Q s.
Proof.
  intros Hl Hn Hwf Hlen HQ. pose proof (contents_length bn Hwf) as Hc. unfold MAX_BANNER_SIZE in Hlen.
  pose proof (zlen_nonneg (contents bn)).
  apply (wp_send [(buf_putbyte SSH_MSG_USERAUTH_BANNER, [SSH_MSG_USERAUTH_BANNER]);
    (buf_putbufstring bn, STORE32H (zlen (contents bn)) ++ contents bn);
    (buf_putstring (bstr "en"), STORE32H (zlen (bstr "en")) ++ bstr "en")] n s b); [done|done| | |done].
  - rewrite !Forall_cons. cbn [fst snd]. split_and!; [by apply puts_byte| | |constructor].
    + apply (puts_string (contents bn)); [by apply contents_bytes|lia].
    + apply puts_string; [decide_closed|by vm_compute].
  - unfold wire_of. cbn [map concat snd]. rewrite !zlen_app, !STORE32H_length.
    change (zlen [_]) with 1. change (zlen (@nil Z)) with 0. change (zlen (bstr "en")) with 2.
    unfold TRANS_MAX_PAYLOAD_LEN. lia.
Qed.

Lemma wp_head_read (s : svrses) b n (k : list Z → list Z → list Z → ST svrses unit) (Q : unit → svrses → Prop) :
  live n s b →
  (∀ nm sv mt b', (let* x := buf_getstring in let* y := buf_getstring in let* z := buf_getstring in ret (x, y, z)) b
     = Ok ((nm, sv, mt), b') → live n (spv s b') b' → wp (k nm sv mt) any_exit Q (spv s b')) →
  wp (let* name := on_spayload buf_getstring in
      let* service := on_spayload buf_getstring in
      let* method := on_spayload buf_getstring in k name service method) any_exit Q s.
Proof.
  intros Hl HQ.
  apply wp_bind. eapply wp_read; [exact Hl|apply scan_string|]. intros nm b1 H1 _ Hl1.
  apply wp_bind. eapply wp_read; [exact Hl1|apply scan_string|]. intros sv b2 H2 _ Hl2.
  apply wp_bind. eapply wp_read; [exact Hl2|apply scan_string|]. intros mt b3 H3 _ Hl3.
  apply HQ; [|exact Hl3]. unfold bind. by rewrite H1, H2, H3.
Qed.

Lemma wp_request rs n s b :
  live n s b → 2 ≤ n → banner_ok s → progress rs (authstate s) → tries_ok (authstate s) →
  wp (recv_msg_userauth_request env) any_exit
    (λ _ s', outcome (rs ++ [(b, payload_beginning (pkt (stp s)))]) s s') s.
Proof using Hsid OK T.
  intros Hl Hn Hban Hpr Hf. set (r := (b, payload_beginning (pkt (stp s)))).
  apply wp_bind, wp_gettime. intros now rest. apply wp_bind, wp_modify. cbn beta.
  set (s0 := set_authstate _ _). apply wp_bind, wp_get.
  pose proof Hl as (_&Hd&_). change (authdone (stp s0)) with (authdone (stp s)). rewrite Hd.
  assert (Hgo : ∀ s1, live (n - 1) s1 b → uid s1 = uid s → core (authstate s1) = core (authstate s) →
    failcount (authstate s1) = failcount (authstate s) → payload_beginning (pkt (stp s1)) = r.2 →
    wp (let* name := on_spayload buf_getstring in
        let* service := on_spayload buf_getstring in
        let* method := on_spayload buf_getstring in
        do* exit_if (negb (bytes_eqb service (bstr "ssh-connection"))) "unknown service in auth";
        let* valid_user := checkusername env name in
        let* a := auth in
        let root_barred := norootpass env && (pw_uid a =? 0) in
        if bytes_eqb method (bstr "none") then
          if valid_user && allowblankpass env && negb (noauthpass env) && negb root_barred then
            let* passwd := ptr (pw_passwd a) in
            match passwd with
            | [] => send_msg_userauth_success env
            | _ => send_msg_userauth_failure env false false
            end
          else send_msg_userauth_failure env false false
        else if negb (noauthpass env) && negb root_barred && bytes_eqb method (bstr "password") then
          svr_auth_password env valid_user
        else if bytes_eqb method (bstr "publickey") then svr_auth_pubkey env valid_user
        else send_msg_userauth_failure env false true) any_exit (λ _ s', outcome (rs ++ [r]) s s') s1).
  { intros s1 Hl1 Hu1 Hc1 Hf1 Hb1. eapply (wp_head_read s1); [exact Hl1|].
    intros name service method b' Hhead Hl2.
    apply wp_bind, wp_exit_if; intros Hsv; [done|]. apply negb_false_iff, bytes_eqb_true in Hsv as ->.
    apply wp_bind. eapply (wp_checkusername name rs); [exact Hl2|by eapply progress_core; [exact Hc1|]|].
    intros v s3 Hl3 Hst Hu3 Hf3 Hpr3 Hv. apply wp_bind, wp_gets. cbv zeta.
    assert (Hcall : called rs r name v (n - 1) s3 b').
    { split_and!; [done|lia|unfold tries_ok in *; cbn in Hf3; lia..|done|done]. }
    assert (Hbeg : r.2 = payload_beginning (pkt (stp s3))) by (rewrite Hst; exact (eq_sym Hb1)).
    assert (Hres : ∀ s', outcome (rs ++ [r]) s3 s' → outcome (rs ++ [r]) s s').
    { intros s' [Hf' [(Hl'&Hu'&Hp')|He]]; (split; [done|]); [left; split_and!; [done|rewrite Hu'; cbn in Hu3; congruence|done]|by right]. }
    assert (Hrefuse : ∀ p i, wp (send_msg_userauth_failure env p i) any_exit (λ _ s', outcome (rs ++ [r]) s s') s3).
    { intros p i. eapply wp_mono; [by eapply called_refused|]. intros ? s'. apply Hres. }
    apply wp_if; intros Hm1; [apply wp_if; intros Hblank; [|apply Hrefuse]|].
    - apply andb_prop in Hblank as [[[-> Hab]%andb_prop Hna%negb_true_iff]%andb_prop Hrb%negb_true_iff].
      destruct (Hv eq_refl) as (pw&Hname&Hget&Hpw&Hmay). pose proof Hpw as ([= Hpu _]&_&[= _ Hpp]). rewrite Hpp.
      apply wp_bind, wp_ret. destruct (stored_hash env pw) eqn:Hh; [|apply Hrefuse].
      pose proof Hcall as (_&Hn1&Hf3'&_).
      eapply wp_mono; [eapply (wp_accepted (rs ++ [r]) (n - 1) s3 b' name pw); [done|done|done|done|done|exact Hpw|done|]|].
      + left. split_and!; [done|done| |done]. unfold root_barred. by rewrite <-Hpu.
      + intros ? s'. apply Hres.
    - apply wp_if; intros Hm2.
      + apply andb_prop in Hm2 as [[Hna%negb_true_iff Hrb%negb_true_iff]%andb_prop ->%bytes_eqb_true].
        eapply wp_mono; [by eapply wp_auth_password|]. intros ? s'. apply Hres.
      + apply wp_if; intros Hm3; [|apply Hrefuse]. apply bytes_eqb_true in Hm3 as ->.
        eapply wp_mono; [by eapply wp_auth_pubkey|]. intros ? s'. apply Hres. }
  apply wp_bind. destruct (banner s0) as [bn|] eqn:Hbn.
  - destruct (Hban bn Hbn) as [Hwb Hlb]. apply wp_bind.
    eapply (wp_banner bn n s0); [exact Hl|lia|done|done|]. intros t Ht Hq. apply wp_modify.
    apply Hgo; [done..|]. exact (f_equal (λ x, payload_beginning (pkt x)) Hq).
  - apply wp_ret. apply Hgo; [eapply live_less; [exact Hl|lia]|done..].
Qed.

(** ** The session as a history of requests

    What the dispatcher hands over with a request: a packet whose cursor is
    past its first byte, a transport that can send, the session id of the first
    key exchange. *)
Definition receives s (r : request) : Prop :=
  payload (pkt (stp s)) = Some r.1 ∧ wf_buf r.1 ∧ payload_beginning (pkt (stp s)) = r.2 ∧ 0 ≤ r.2 ≤ b_pos r.1 ∧
  session_id (kexdat (stp s)) = Some sid ∧ banner_ok s ∧
  (authdone (stp s) = false → ∃ msgs, ready msgs (stp s) ∧ zlen msgs + 2 < 2 ^ 31).

(** The states of a session after the requests [rs]; whatever else happens
    between two requests leaves the authentication alone. *)
Inductive history : list request → svrses → Prop :=
| H_start s0 s : authdone (stp s) = false → svr_authinitialise env s0 = Ok (tt, s) → history [] s
| H_other rs s s' : history rs s → authstate s' = authstate s → uid s' = uid s →
    authdone (stp s') = authdone (stp s) → history rs s'
| H_request rs s r s' : history rs s → receives s r → recv_msg_userauth_request env s = Ok (tt, s') →
    history (rs ++ [r]) s'.

Definition known rs s : Prop :=
  tries_ok (authstate s) ∧
  (authdone (stp s) = false ∧ progress rs (authstate s) ∨ entered rs s).

Lemma authenticated_more name pw rs r :
  authenticated env (contents sid) name pw rs → authenticated env (contents sid) name pw (rs ++ [r]).
Proof. intros [H|[H1 H2]]; [by left|right]. cbv zeta in *. rewrite !Exists_app. tauto. Qed.

Lemma wp_known rs s r :
  known rs s → receives s r → wp (recv_msg_userauth_request env) any_exit (λ _ s', known (rs ++ [r]) s') s.
Proof using Hsid OK T.
  intros [Hf Hk] (Hp&Hwf&Hbg&Hpos&Hs&Hban&Hready). destruct Hk as [[Hd Hpr]|He].
  - destruct (Hready Hd) as (msgs&Hr&Hn). destruct r as [b beg]. cbn in *. subst beg.
    eapply wp_mono; [eapply (wp_request rs 2 s b); [|done|done|done|done]|].
    + split_and!; try done; [by exists msgs|lia|lia].
    + intros [] s' [Hf' [((b'&Hl)&_&Hpr')|He]]; (split; [done|]); [left|by right].
      split; [|done]. by destruct Hl as (_&?&_).
  - apply wp_bind, wp_gettime. intros now rest. apply wp_bind, wp_modify, wp_bind, wp_get.
    destruct He as (Hd&name&pw&Hname&Hget&Hmay&Hu&Hauth). cbn [stp set_authstate set_clock]. rewrite Hd. apply wp_ret.
    split; [done|]. right. split; [done|]. exists name, pw. split_and!; [done..|by apply authenticated_more].
Qed.

Lemma history_known rs s : history rs s → known rs s.
Proof using Hsid OK T.
  induction 1 as [s0 s Hd Hinit|rs s s' _ [Hf Hk] Ha Hu Hd|rs s r s' _ IH Hr Hrun].
  - pose proof ae_tries. injection Hinit as <-. split; [split; cbn; lia|]. left. split; [done|].
    apply no_user; [done|]. cbn. by destruct (noauthpass env).
  - split; [by rewrite Ha|]. destruct Hk as [[H1 H2]|(H1&name&pw&H2)]; [left|right].
    + split; [congruence|by rewrite Ha].
    + split; [congruence|]. exists name, pw. by rewrite Ha, Hu.
  - pose proof (wp_known _ _ _ IH Hr) as H. unfold wp in H. by rewrite Hrun in H.
Qed.
End proofs.

(** C4: Authentication is sound.  In every session, after any requests in any
    order: while it runs the failures are within the limit; once it counts as
    authenticated, the one user name the client ever gave is a user who may
    log in, the process has that user's identity, and either a blank password
    is allowed and is the user's (in two-factor mode too), or a request carried
    a password whose hash is the stored one, or a request was signed, over the
    session id and the request itself, by a key that a line of the user's
    authorized_keys, no comment, lists; in two-factor mode both.  And no next
    request makes the server touch memory it should not.  ([AuthEnvOk] has what
    is asked of the system and the options.) *)
Theorem authentication_sound {CL : CryptoLib} {ready : list (list Z) → sshsession → Prop} {T : Transport ready}
    {ML : MpLib} {EL : EccLib} {DL : Ed25519Lib} (env : auth_env) {OK : AuthEnvOk env} (sid : buffer)
    (rs : list request) (s : svrses) :
  wf_buf sid → history (ready := ready) env sid rs s →
  failcount (authstate s) ≤ maxauthtries env ∧
  (authdone (stp s) = true → ∃ name pw,
    username (authstate s) = Some name ∧ getpwnam env name = Some pw ∧ may_login env pw ∧ uid s = p_uid pw ∧
    authenticated env (contents sid) name pw rs) ∧
  (∀ r why, receives (ready := ready) sid s r → recv_msg_userauth_request env s ≠ Fault why).
Proof.
  intros Hsid Hh. pose proof (history_known env sid Hsid rs s Hh) as Hk. pose proof Hk as [[_ Hf] Hcase]. split_and!; [done| |].
  - intros Hd. destruct Hcase as [[Hd' _]|(_&He)]; [congruence|done].
  - intros r why Hr Hfault. pose proof (wp_known env sid Hsid rs s r Hk Hr) as H.
    unfold wp in H. by rewrite Hfault in H.
Qed.

(** ** A two-factor login

    One user, one line in authorized_keys with an Ed25519 key; a signature is
    good when it is the sum of the message 64 times, and every password but
    one hashes to itself. *)
Definition toy_user : passwd :=
  mkpw (bstr "alice") (Some (bstr "x")) 1000 1000 (bstr "/home/alice") (bstr "/bin/sh").

Definition toy_key_blob : list Z := enc_fields [FString SSH_SIGNKEY_ED25519; FString (replicate 32 7)].
Definition toy_key_file : list Z :=
  bstr "# keys" ++ [10] ++ bstr "restrict ssh-ed25519 " ++ map (Z.add 1) toy_key_blob ++ bstr " me@host" ++ [10].

Definition toy_auth_env : auth_env := {|
  noauthpass := false; norootpass := true; norootlogin := true; allowblankpass := false; multiauthmethod := true;
  maxauthtries := 10; restrict_group := None; authorized_keys_dir := bstr "~/.ssh";
  getpwnam := λ name, if bytes_eqb name (bstr "alice") then Some toy_user else None;
  getspnam := λ _, Some (bstr "hash"); getusershell := [bstr "/bin/sh"]; getgrouplist := λ _ _ n, (None, n);
  crypt := λ p h, if bytes_eqb p (bstr "secret") then Some h else Some p;
  geteuid := 0; seteuid_ok := true; revert_euid_ok := true; setgroups_ok := true; setuid_ok := true;
  utmp_gid := None; setresgid_ok := true; close_fails := false;
  stat := λ _, Some (mkstat 1000 448);
  read_file := λ path, if bytes_eqb path (bstr "/home/alice/.ssh/authorized_keys") then Some toy_key_file else None;
  errno_einval := false; char_signed := true; base64_decode := toy_base64
|}.

#[export] Instance toy_auth_env_ok : AuthEnvOk toy_auth_env.
Proof.
  constructor.
  - apply toy_base64_ok.
  - cbn. intros path file. destruct (bytes_eqb path _); [|done]. intros [= <-]. decide_closed.
  - cbn. intros path file. destruct (bytes_eqb path _); [|done]. intros [= <-] _. decide_closed.
  - by vm_compute.
  - done.
Qed.

Definition toy_request (fields : list Z) : request :=
  (set_pos 1 (buf_of (SSH_MSG_USERAUTH_REQUEST :: fields)), 0).
Lemma toy_request_ok fields :
  bool_decide (bytes_ok fields) && (zlen fields <=? 1000) = true →
  wf_buf (toy_request fields).1 ∧ 0 ≤ (toy_request fields).2 ≤ b_pos (toy_request fields).1.
Proof.
  intros [Hb%bool_decide_eq_true Hl]%andb_prop. pose proof (zlen_nonneg fields). split; [|cbn; lia].
  apply wf_set_pos; [apply wf_buf_of|cbn [buf_of b_len]; rewrite zlen_cons; lia].
  - by constructor.
  - rewrite zlen_cons. unfold BUF_MAX_SIZE. lia.
Qed.
Definition wire_string (s : list Z) : list Z := STORE32H (zlen s) ++ s.
Definition toy_sid : buffer := buf_of [1; 2; 3; 4].
(** The request up to the signature, and the signature. *)
Definition toy_signed : list Z :=
  wire_string (bstr "alice") ++ wire_string (bstr "ssh-connection") ++ wire_string (bstr "publickey") ++
  [1] ++ wire_string (bstr "ssh-ed25519") ++ wire_string toy_key_blob.
Definition toy_signature : list Z :=
  sig_wire SSH_SIGNKEY_ED25519
    (dropbear_ed25519_sign (Ed25519Lib := toy_ed25519)
      (wire_string [1; 2; 3; 4] ++ [SSH_MSG_USERAUTH_REQUEST] ++ toy_signed) [] []).
Definition toy_pubkey_request : request := toy_request (toy_signed ++ wire_string toy_signature).
Definition toy_password_request : request :=
  toy_request (wire_string (bstr "alice") ++ wire_string (bstr "ssh-connection") ++ wire_string (bstr "password") ++
               [0] ++ wire_string (bstr "secret")).

(** The session with a request received. *)
Definition toy_got (r : request) (done : bool) : @sshsession toy_lib :=
  on_kexdat (set_session_id (Some toy_sid))
    (on_pkt (λ x, set_payload_beginning r.2 (set_payload (Some r.1) x)) (toy_received done true false 0 50)).
Definition toy_receive (r : request) : ST (@svrses toy_lib) unit :=
  do* modify (λ s, set_stp (toy_got r (authdone (stp s))) s);
  recv_msg_userauth_request (ML := int_mp) (EL := toy_ecc) (DL := toy_ed25519) toy_auth_env.
Definition toy_svr : @svrses toy_lib :=
  mksvrses (toy_got toy_pubkey_request false) (mkauth None 0 0 false (0, 0) 0 0 0 None None None None None)
    None 5 [] [] [] 0 false false.
Definition toy_login : ST (@svrses toy_lib) unit :=
  do* svr_authinitialise toy_auth_env; do* toy_receive toy_pubkey_request; toy_receive toy_password_request.

Lemma toy_receives r s :
  wf_buf r.1 → 0 ≤ r.2 ≤ b_pos r.1 → banner s = None →
  receives (ready := toy_ready) toy_sid (set_stp (toy_got r (authdone (stp s))) s) r.
Proof.
  intros Hwf Hpos Hb. split_and!; try done; try lia; [intros bn; cbn; by rewrite Hb|].
  intros Hd. exists []. split; [|by vm_compute]. by apply toy_clear_ready.
Qed.

Lemma toy_receive_history rs s s' r :
  history (ready := toy_ready) (ML := int_mp) (EL := toy_ecc) (DL := toy_ed25519) toy_auth_env toy_sid rs s → wf_buf r.1 → 0 ≤ r.2 ≤ b_pos r.1 → banner s = None →
  toy_receive r s = Ok (tt, s') → history (ready := toy_ready) (ML := int_mp) (EL := toy_ecc) (DL := toy_ed25519) toy_auth_env toy_sid (rs ++ [r]) s'.
Proof.
  intros Hh Hwf Hpos Hb Hrun. eapply H_request; [|by apply toy_receives|exact Hrun].
  by eapply H_other; [exact Hh|..].
Qed.

Lemma authentication_sound_witness :
  match toy_login toy_svr with
  | Ok (_, s) => authdone (stp s) = true ∧ uid s = 1000 ∧
      ∃ name pw, username (authstate s) = Some name ∧ getpwnam toy_auth_env name = Some pw ∧ may_login toy_auth_env pw ∧
        uid s = p_uid pw ∧
        authenticated (H := @lib_sha256 toy_lib) (ML := int_mp) (EL := toy_ecc) (DL := toy_ed25519) toy_auth_env (contents toy_sid) name pw [toy_pubkey_request; toy_password_request]
  | _ => False
  end.
Proof.
  assert (Hrun : match svr_authinitialise toy_auth_env toy_svr with
    | Ok (_, s1) => match toy_receive toy_pubkey_request s1 with
        | Ok (_, s2) => match toy_receive toy_password_request s2 with
            | Ok (_, s3) => match banner s2 with None => true | Some _ => false end && authdone (stp s3) && (uid s3 =? 1000)
            | _ => false end
        | _ => false end
    | _ => false end = true) by (by vm_compute).
  unfold toy_login. unfold bind at 1.
  destruct (svr_authinitialise toy_auth_env toy_svr) as [[[] s1]|?|?] eqn:H1; try done. unfold bind at 1.
  destruct (toy_receive toy_pubkey_request s1) as [[[] s2]|?|?] eqn:H2; try done.
  destruct (toy_receive toy_password_request s2) as [[[] s3]|?|?] eqn:H3; try done.
  apply andb_prop in Hrun as [[Hb Hd]%andb_prop Hu%Z.eqb_eq].
  assert (Hh : history (ready := toy_ready) (ML := int_mp) (EL := toy_ecc) (DL := toy_ed25519) toy_auth_env toy_sid [toy_pubkey_request; toy_password_request] s3).
  { change [toy_pubkey_request; toy_password_request] with (([] ++ [toy_pubkey_request]) ++ [toy_password_request]).
    apply (toy_receive_history _ s2 s3); [|by apply toy_request_ok; vm_compute..|by revert Hb; destruct (banner s2)|exact H3].
    assert (Hb1 : banner s1 = None) by (by injection H1 as <-).
    assert (Hd1 : authdone (stp s1) = false) by (by injection H1 as <-).
    apply (toy_receive_history _ s1 s2); [by eapply H_start|by apply toy_request_ok; vm_compute..|done|exact H2]. }
  destruct (authentication_sound (ML := int_mp) (EL := toy_ecc) (DL := toy_ed25519) toy_auth_env toy_sid _ s3 ltac:(apply wf_buf_of; [decide_closed|by apply Z.leb_le]) Hh)
    as (_&Hin&_).
  split_and!; [done|done|by apply Hin].
Defined.

(** ** A blank password in two-factor mode

    The request "none" lets a user without a password in when blank passwords
    are allowed; it does not ask for a second method. *)
Definition toy_blank_env : auth_env := {|
  noauthpass := false; norootpass := true; norootlogin := true; allowblankpass := true; multiauthmethod := true;
  maxauthtries := 10; restrict_group := None; authorized_keys_dir := bstr "~/.ssh";
  getpwnam := getpwnam toy_auth_env; getspnam := λ _, Some []; getusershell := getusershell toy_auth_env;
  getgrouplist := getgrouplist toy_auth_env; crypt := crypt toy_auth_env;
  geteuid := 0; seteuid_ok := true; revert_euid_ok := true; setgroups_ok := true; setuid_ok := true;
  utmp_gid := None; setresgid_ok := true; close_fails := false;
  stat := stat toy_auth_env; read_file := read_file toy_auth_env;
  errno_einval := false; char_signed := true; base64_decode := toy_base64
|}.

Definition toy_none_request : request :=
  toy_request (wire_string (bstr "alice") ++ wire_string (bstr "ssh-connection") ++ wire_string (bstr "none")).

Example blank_login_two_factor :
  match (do* svr_authinitialise toy_blank_env;
         do* modify (λ s, set_stp (toy_got toy_none_request (authdone (stp s))) s);
         recv_msg_userauth_request (ML := int_mp) (EL := toy_ecc) (DL := toy_ed25519) toy_blank_env) toy_svr with
  | Ok (_, s) => authdone (stp s) && (uid s =? 1000) = true
  | _ => False
  end.
Proof. by vm_compute. Qed.
