(* ===== verification/CliAgent.v ===== *)
(** * The client and the SSH agent (src/src/cli-agentfwd.c, atomicio.c)

    The requests to an agent process during authentication: the list of its
    keys and the signatures it makes.  What the agent's socket delivers and
    accepts is part of the state; connecting to it is an argument. *)

From Stdlib Require Import ZArith Lia.
From stdpp Require Import base list strings.
From S2P Require Import Prelude.
From S2P Require Import Buffer.
From S2P Require Import Random.
From S2P Require Import Algo.
From S2P Require Import Cipher.
From S2P Require Import KeyTypes.
From S2P Require Import Ecc.
From S2P Require Import SignKey.
From S2P Require Import Session.

Definition SSH2_AGENTC_REQUEST_IDENTITIES : Z := 11.
Definition SSH2_AGENT_IDENTITIES_ANSWER : Z := 12.
Definition SSH2_AGENTC_SIGN_REQUEST : Z := 13.
Definition SSH2_AGENT_SIGN_RESPONSE : Z := 14.
Definition SSH_AGENT_RSA_SHA2_256 : Z := 2.
Definition MAX_AGENT_REPLY : Z := 10000.

(** The connection: the descriptor [cli_opts.agent_fd], what its reads and
    writes will do, and what went out. *)
Record agentconn := mkagent {
  agent_fd : Z;
  agent_reads : list read_event;
  agent_writes : list write_event;
  agent_sent : list Z
}.
Definition set_agent_fd (v : Z) (s : agentconn) : agentconn :=
  mkagent v (agent_reads s) (agent_writes s) (agent_sent s).
Definition set_agent_reads (v : list read_event) (s : agentconn) : agentconn :=
  mkagent (agent_fd s) v (agent_writes s) (agent_sent s).
Definition set_agent_writes (v : list write_event) (s : agentconn) : agentconn :=
  mkagent (agent_fd s) (agent_reads s) v (agent_sent s).
Definition set_agent_sent (v : list Z) (s : agentconn) : agentconn :=
  mkagent (agent_fd s) (agent_reads s) (agent_writes s) v.

(** [atomicio(read, ...)]: the bytes that arrived, whether an error ended the
    loop (its result is then 0, else their number), and the events left.  No
    more events is the end of the file. *)
Fixpoint atomicio_read (n : Z) (evs : list read_event) : list Z * bool * list read_event :=
  if n <=? 0 then ([], false, evs)
  else match evs with
  | [] => ([], false, [])
  | RAgain :: evs => atomicio_read n evs
  | RError :: evs => ([], true, evs)
  | RData [] :: evs => ([], false, evs)
  | RData bs :: evs =>
      let now := take (Z.to_nat n) bs in
      match drop (Z.to_nat n) bs with
      | [] => let '(more, failed, evs) := atomicio_read (n - zlen now) evs in (now ++ more, failed, evs)
      | later => (now, false, RData later :: evs)
      end
  end.

(** [atomicio(vwrite, ...)]: the same for the bytes written. *)
Fixpoint atomicio_write (bs : list Z) (evs : list write_event) : list Z * bool * list write_event :=
  if zlen bs <=? 0 then ([], false, evs)
  else match evs with
  | [] => ([], true, [])
  | WAgain :: evs => atomicio_write bs evs
  | WError :: evs => ([], true, evs)
  | WDone n :: evs =>
      if n <=? 0 then ([], false, evs)
      else
        let now := take (Z.to_nat n) bs in
        let '(more, failed, evs) := atomicio_write (drop (Z.to_nat n) bs) evs in (now ++ more, failed, evs)
  end.

Definition agent_read (n : Z) : ST agentconn (list Z * Z) :=
  let* s := get in
  let '(got, failed, evs) := atomicio_read n (agent_reads s) in
  do* modify (set_agent_reads evs);
  ret (got, if failed then 0 else zlen got).
Definition agent_write (bs : list Z) : ST agentconn Z :=
  let* s := get in
  let '(done, failed, evs) := atomicio_write bs (agent_writes s) in
  do* modify (λ s, set_agent_sent (agent_sent s ++ done) (set_agent_writes evs s));
  ret (if failed then 0 else zlen done).

Section cliagent.
Context {CL : CryptoLib} {ML : MpLib} {EL : EccLib} {DL : Ed25519Lib}.

(** A length that cannot be read, is too long, or is not followed by as many
    bytes gives the buffer as it is then. *)
Definition agent_request (type : Z) (data : option buffer) : ST agentconn (option buffer) :=
  let data_len := match data with Some d => b_len d | None => 0 end in
  let* payload := buf_new (u32 (4 + 1 + data_len)) in
  let* (bs, payload) := on_new payload
    (do* buf_putint (u32 (1 + data_len));
     do* buf_putbyte type;
     do* match data with Some d => buf_putbytes (buf_bytes d) | None => ret tt end;
     do* buf_setpos 0;
     let* b := get in
     let* p := buf_getptr (b_len b) in mem_load p (b_len b)) in
  let* ret1 := agent_write bs in
  if negb (ret1 =? b_len payload) then ret None
  else
    let* inbuf := buf_new 4 in
    let* (p, inbuf) := on_new inbuf (buf_getwriteptr 4) in
    let* (got, ret2) := agent_read 4 in
    let* (_, inbuf) := on_new inbuf (mem_store p got) in
    if negb (ret2 =? 4) then ret (Some inbuf)
    else
      let* (readlen, inbuf) := on_new inbuf (do* buf_setpos 0; do* buf_setlen ret2; buf_getint) in
      if readlen >? MAX_AGENT_REPLY then ret (Some inbuf)
      else
        let* inbuf := buf_resize indet readlen inbuf in
        let* (p, inbuf) := on_new inbuf (do* buf_setpos 0; buf_getwriteptr readlen) in
        let* (got, ret3) := agent_read readlen in
        let* (_, inbuf) := on_new inbuf (mem_store p got) in
        if negb (ret3 =? readlen) then ret (Some inbuf)
        else
          let* (_, inbuf) := on_new inbuf (do* buf_incrwritepos readlen; buf_setpos 0) in
          ret (Some inbuf).

(** The keys of the answer, with their types; one that cannot be read is
    skipped. *)
Fixpoint agent_keys_loop (num : nat) : ST buffer (list (sign_key * Z)) :=
  match num with
  | O => ret []
  | S num =>
      let* key_buf := buf_getstringbuf in
      let* ((ok, (pubkey, key_type)), _) := on_new key_buf (buf_get_pub_key new_sign_key DROPBEAR_SIGNKEY_ANY) in
      do* buf_eatstring;
      let* more := agent_keys_loop num in
      ret (if ok then (pubkey, key_type) :: more else more)
  end.

Definition agent_get_key_list : ST agentconn (list (sign_key * Z)) :=
  let* inbuf := agent_request SSH2_AGENTC_REQUEST_IDENTITIES None in
  match inbuf with
  | None => ret []
  | Some inbuf =>
      let* (packet_type, inbuf) := on_new inbuf buf_getbyte in
      if negb (packet_type =? SSH2_AGENT_IDENTITIES_ANSWER) then ret []
      else
        let* (num, inbuf) := on_new inbuf buf_getint in
        let* (loaded, _) := on_new inbuf (agent_keys_loop (Z.to_nat num)) in
        ret loaded
  end.

(** [fd] is the result of [connect_agent]. *)
Definition cli_load_agent_keys (fd : Z) : ST agentconn (list (sign_key * Z)) :=
  do* modify (set_agent_fd fd);
  if fd <? 0 then ret [] else agent_get_key_list.

(** The blob of the agent's signature. *)
Definition agent_buf_sign (key : sign_key) (type : Z) (data_buf : buffer) (sigtype : Z) (sigblob : buffer) :
    ST agentconn buffer :=
  let* request_data := buf_new (u32 (MAX_PUBKEY_SIZE + b_len data_buf + 12)) in
  let flags := if sigtype =? DROPBEAR_SIGNATURE_RSA_SHA256 then SSH_AGENT_RSA_SHA2_256 else 0 in
  let* (_, request_data) := on_new request_data
    (do* buf_put_pub_key key type;
     do* buf_putbufstring data_buf;
     buf_putint flags) in
  let* response := agent_request SSH2_AGENTC_SIGN_REQUEST (Some request_data) in
  match response with
  | None => dropbear_exit "Agent failed signing key"
  | Some response =>
      let* (packet_type, response) := on_new response buf_getbyte in
      if negb (packet_type =? SSH2_AGENT_SIGN_RESPONSE) then dropbear_exit "Agent failed signing key"
      else
        let* (sig, _) := on_new response
          (let* siglen := buf_getint in
           let* p := buf_getptr siglen in mem_load p siglen) in
        let* (_, sigblob) := on_new sigblob (buf_putbytes sig) in
        ret sigblob
  end.
End cliagent.
