(* ===== verification/CliAgentSafe.v ===== *)
(** * Any agent will do (src/src/cli-agentfwd.c)

    Whatever the agent's socket delivers, when and in which pieces: the client
    stays inside its buffers, the keys it takes over are valid public keys of
    the type it notes for them, and a signature fits the buffer it is put in. *)

From Stdlib Require Import ZArith Lia.
From stdpp Require Import base list strings.
From S2P Require Import Prelude.
From S2P Require Import Buffer.
From S2P Require Import Random.
From S2P Require Import Algo.
From S2P Require Import Cipher.
From S2P Require Import KeyTypes.
From S2P Require Import Ecc.
From S2P Require Import SignKey.
From S2P Require Import SignKeyRead.
From S2P Require Import Session.
From S2P Require Import KexShare.
From S2P Require Import CliAgent.

(** What arrives is bytes. *)
Definition event_bytes (e : read_event) : Prop := match e with RData bs => bytes_ok bs | _ => True end.
Definition agent_ok (a : agentconn) : Prop := Forall event_bytes (agent_reads a).

(** A key with a valid public part of its type. *)
Definition public_key (k : sign_key * Z) : Prop := holds_key k.1 k.2 ∧ 0 ≤ k.2 < DROPBEAR_SIGNKEY_NUM_NAMED.

Lemma atomicio_read_ok evs : ∀ n, Forall event_bytes evs →
  let '(got, _, evs') := atomicio_read n evs in bytes_ok got ∧ zlen got ≤ Z.max 0 n ∧ Forall event_bytes evs'.
Proof.
  induction evs as [|e evs IH]; intros n Hev; cbn [atomicio_read]; (destruct (n <=? 0) eqn:Hn; [split_and!; [apply Forall_nil_2|rewrite zlen_nil; lia|done]|]).
  { split_and!; [apply Forall_nil_2|rewrite zlen_nil; lia|apply Forall_nil_2]. }
  inversion Hev as [|? ? He Hev']; subst. destruct e as [[|c bs]| |];
    [split_and!; [apply Forall_nil_2|rewrite zlen_nil; lia|done]| |by apply IH|split_and!; [apply Forall_nil_2|rewrite zlen_nil; lia|done]].
  set (now := take (Z.to_nat n) (c :: bs)) in *.
  assert (Hnow : bytes_ok now ∧ zlen now ≤ n) by (split; [by apply Forall_take|unfold zlen, now; rewrite length_take; lia]).
  destruct (drop (Z.to_nat n) (c :: bs)) as [|d later] eqn:Hd.
  - specialize (IH (n - zlen now) Hev'). destruct (atomicio_read (n - zlen now) evs) as [[more f] evs'].
    destruct IH as (H1&H2&H3). rewrite zlen_app. split_and!; [apply bytes_ok_app; split; [apply Hnow|done]|lia|done].
  - split_and!; [by destruct Hnow|destruct Hnow; lia|]. constructor; [|done]. cbn. rewrite <-Hd. by apply Forall_drop.
Qed.

Lemma wp_agent_read n E (Q : list Z * Z → agentconn → Prop) a :
  agent_ok a → 0 ≤ n →
  (∀ got r a', agent_ok a' → bytes_ok got → zlen got ≤ n → (r = 0 ∨ r = zlen got) → Q (got, r) a') →
  wp (agent_read n) E Q a.
Proof.
  intros Ha Hn HQ. apply wp_bind, wp_get. pose proof (atomicio_read_ok (agent_reads a) n Ha) as H.
  destruct (atomicio_read n (agent_reads a)) as [[got f] evs']. destruct H as (H1&H2&H3).
  apply wp_bind, wp_modify, wp_ret, HQ; [done|done|lia|]. destruct f; [by left|by right].
Qed.

Lemma wp_agent_write bs E (Q : Z → agentconn → Prop) a :
  agent_ok a → (∀ r a', agent_ok a' → Q r a') → wp (agent_write bs) E Q a.
Proof.
  intros Ha HQ. apply wp_bind, wp_get. destruct (atomicio_write bs (agent_writes a)) as [[out f] evs'].
  by apply wp_bind, wp_modify, wp_ret, HQ.
Qed.

(** What was read, stored at the start of a buffer it fits. *)
Lemma wp_store_start n got E (Q : unit * buffer → agentconn → Prop) b a :
  wf_buf b → n ≤ b_size b → zlen got ≤ n → bytes_ok got →
  (∀ b', wf_buf b' → b_size b' = b_size b → b_len b' = b_len b → b_pos b' = b_pos b → Q (tt, b') a) →
  wp (on_new b (mem_store 0 got)) E Q a.
Proof.
  intros (?&?&Hd&Hb) Hn Hl Hg HQ. pose proof (zlen_nonneg got). apply wp_on_new, wp_mem_store; [lia..|]. apply HQ; [|done..].
  split_and!; cbn [b_pos b_len b_size b_data]; try lia; [rewrite zlen_splice; lia|by apply bytes_ok_splice].
Qed.

Section agent.
Context {CL : CryptoLib} {ML : MpLib} {EL : EccLib} {DL : Ed25519Lib}.

Lemma appends_opt_data (data : option buffer) : (∀ d, data = Some d → wf_buf d) →
  appends (match data with Some d => buf_putbytes (buf_bytes d) | None => ret tt end)
    (match data with Some d => contents d | None => [] end).
Proof.
  intros Hd. destruct data as [d|]; [|apply appends_ret]. change (buf_bytes d) with (contents d).
  by apply appends_bytes, contents_bytes, Hd.
Qed.

Lemma wp_agent_request type data (Q : option buffer → agentconn → Prop) a :
  agent_ok a → byte_ok type → (∀ d, data = Some d → wf_buf d) →
  (∀ r a', agent_ok a' → (∀ b, r = Some b → wf_buf b) → Q r a') →
  wp (agent_request type data) any_exit Q a.
Proof.
  intros Ha Ht Hd HQ. unfold agent_request.
  set (n := u32 (4 + 1 + _)). pose proof (u32_range (4 + 1 + match data with Some d => b_len d | None => 0 end)) as Hn.
  apply wp_bind, wp_buf_new; [|done]. intros Hmax. apply wp_bind, wp_on_new.
  set (b0 := mkbuf (zeros n) 0 0 n). assert (H0 : buf_acc [] b0) by (apply buf_acc_new; unfold n in *; lia).
  apply wp_bind. eapply (proj2 (appends_int _)); [exact H0| |done]. intros b1 H1 _.
  apply wp_bind. eapply (proj2 (appends_byte _ Ht)); [exact H1| |done]. intros b2 H2 _.
  apply wp_bind. eapply (proj2 (appends_opt_data data Hd)); [exact H2| |done]. intros b3 (Hwf3&_&_) _.
  apply wp_bind, wp_buf_setpos; [|done]. intros _. apply wp_bind, wp_get.
  assert (Hw : wf_buf (set_pos 0 b3)) by (apply wf_set_pos; [done|destruct Hwf3 as (?&?&_); lia]).
  pose proof Hw as (?&?&Hdl&_). cbn [set_pos b_pos b_len b_size b_data] in *.
  apply wp_bind, wp_buf_getptr; [done|lia| |done]. intros _. cbn [set_pos b_pos b_len].
  apply wp_mem_load; cbn [set_pos b_data]; [lia..|]. apply wp_bind, wp_agent_write; [done|]. intros r a1 Ha1.
  apply wp_if; intros _; [by apply wp_ret, HQ|].
  apply wp_bind, wp_buf_new; [|done]. intros _. set (i0 := mkbuf (zeros 4) 0 0 4).
  assert (Hi0 : wf_buf i0) by (by apply (buf_acc_new 4)).
  apply wp_bind, wp_on_new, wp_buf_getwriteptr; [done|lia| |done]. intros _. cbn [i0 b_pos].
  apply wp_bind, wp_agent_read; [done|lia|]. intros got r2 a2 Ha2 Hgb Hgl Hr2.
  apply wp_bind, (wp_store_start 4); [done|done|done|done|]. intros i1 Hi1 Es El Ep.
  apply wp_if; intros Hfour; [by apply wp_ret, HQ; [done|intros b [= <-]]|].
  assert (r2 = 4) as -> by lia.
  apply wp_bind, wp_on_new, wp_bind, wp_buf_setpos; [|done]. intros _. apply wp_bind, wp_buf_setlen; [|done].
  cbn [set_pos b_size b_data b_pos b_len]. intros _.
  assert (Hi2 : wf_buf (mkbuf (b_data i1) 4 (Z.min 0 4) (b_size i1))).
  { destruct Hi1 as (?&?&?&?). split_and!; cbn [b_pos b_len b_size b_data]; try done; try lia; rewrite Es; cbn; lia. }
  apply wp_buf_getint; [done| |done]. intros _. set (readlen := LOAD32H _).
  assert (Hrl : 0 ≤ readlen) by (apply LOAD32H_range, bytes_ok_slice, Hi2).
  set (i2 := after_get _ _). assert (Hwi2 : wf_buf i2) by (apply wf_after_get; [done|cbn; lia..]).
  apply wp_if; intros _; [by apply wp_ret, HQ; [done|intros b [= <-]]|].
  apply wp_bind, wp_buf_resize; [done|done| |done]. intros i3 Hi3 Hsz3 Hl3 Hp3 _.
  apply wp_bind, wp_on_new, wp_bind, wp_buf_setpos; [|done]. intros _.
  assert (Hi4 : wf_buf (set_pos 0 i3)) by (apply wf_set_pos; [done|destruct Hi3 as (?&?&_); lia]).
  apply wp_buf_getwriteptr; [done|done| |done]. intros _. cbn [set_pos b_pos].
  apply wp_bind, wp_agent_read; [done|done|]. intros got3 r3 a3 Ha3 Hgb3 Hgl3 _.
  apply wp_bind, (wp_store_start readlen); [done|cbn; lia|done|done|]. intros i5 Hi5 Es5 El5 Ep5.
  apply wp_if; intros _; [by apply wp_ret, HQ; [done|intros b [= <-]]|].
  apply wp_bind, wp_on_new, wp_bind, wp_buf_incrwritepos; [done|done| |done]. intros Hfit.
  apply wp_buf_setpos; [|done]. intros _. apply wp_ret, HQ; [done|]. intros b [= <-].
  destruct Hi5 as (?&?&?&?). cbn [set_pos b_pos b_size] in *.
  split_and!; cbn [set_pos b_pos b_len b_size b_data]; try lia; done.
Qed.

Lemma wp_agent_keys_loop num (Q : list (sign_key * Z) → buffer → Prop) b :
  wf_buf b → (∀ l b', scanned b b' → Forall public_key l → Q l b') → wp (agent_keys_loop num) any_exit Q b.
Proof.
  revert Q b. induction num as [|num IH]; intros Q b Hwf HQ; cbn [agent_keys_loop].
  { apply wp_ret, HQ; [by apply scanned_refl|constructor]. }
  apply wp_bind, wp_scan_stringbuf; [done|]. intros kb b1 H1 Hkb. pose proof H1 as [Hw1 _].
  apply wp_bind, wp_on_new, wp_buf_get_pub_key; [apply Hkb|]. intros ok key t kb' _ _ Hkey.
  apply wp_bind, wp_buf_eatstring; [done| |done]. intros.
  match goal with |- wp _ _ _ ?b2 => assert (H2 : scanned b b2) by (eapply scanned_trans; [exact H1|by apply scanned_get; [done|lia|lia]]) end.
  pose proof H2 as [Hw2 _]. apply wp_bind, IH; [done|]. intros l b3 H3 Hl. apply wp_ret, HQ; [by eapply scanned_trans|].
  destruct ok; [|done]. constructor; [|done]. by destruct (Hkey eq_refl) as (?&_&?).
Qed.

Lemma wp_load_keys fd (Q : list (sign_key * Z) → agentconn → Prop) a :
  agent_ok a → (∀ l a', agent_ok a' → Forall public_key l → Q l a') → wp (cli_load_agent_keys fd) any_exit Q a.
Proof.
  intros Ha HQ. apply wp_bind, wp_modify, wp_if; intros _; [by apply wp_ret, HQ; [|constructor]|].
  apply wp_bind, wp_agent_request; [done|by vm_compute|done|]. intros [b|] a1 Ha1 Hb; [|by apply wp_ret, HQ; [|constructor]].
  specialize (Hb b eq_refl). apply wp_bind, wp_on_new, wp_scan_byte; [done|]. intros ty b1 [Hw1 _].
  apply wp_if; intros _; [by apply wp_ret, HQ; [|constructor]|].
  apply wp_bind, wp_on_new, wp_scan_int; [done|]. intros num b2 [Hw2 _] _.
  apply wp_bind, wp_on_new, wp_agent_keys_loop; [done|]. intros l b3 _ Hl. by apply wp_ret, HQ.
Qed.

Lemma wp_agent_buf_sign key type data sigtype blob (Q : buffer → agentconn → Prop) a :
  agent_ok a → holds_key key type → wf_buf data → buf_acc [] blob →
  (∀ sig blob' a', agent_ok a' → bytes_ok sig → buf_acc sig blob' → b_size blob' = b_size blob → Q blob' a') →
  wp (agent_buf_sign key type data sigtype blob) any_exit Q a.
Proof.
  intros Ha Hk Hdata Hblob HQ. unfold agent_buf_sign. set (flags := if _ : bool then _ else _).
  pose proof (u32_range (MAX_PUBKEY_SIZE + b_len data + 12)) as Hu.
  apply wp_bind, wp_buf_new; [|done]. intros Hmax. set (b0 := mkbuf _ 0 0 _). assert (H0 : buf_acc [] b0) by (apply buf_acc_new; lia).
  apply wp_bind, wp_on_new, wp_bind. eapply wp_put_pub_key; [exact Hk|exact H0| |done]. intros b1 _ H1 _.
  apply wp_bind. change (buf_putbufstring data) with (buf_putstring (contents data)).
  eapply (proj2 (appends_string _ (contents_bytes data Hdata))); [exact H1| |done]. intros b2 H2 _.
  eapply (proj2 (appends_int flags)); [exact H2| |done]. intros b3 (Hw3&_) _.
  apply wp_bind, wp_agent_request; [done|by vm_compute|by intros d [= <-]|]. intros [r|] a1 Ha1 Hr; [|done].
  specialize (Hr r eq_refl). apply wp_bind, wp_on_new, wp_scan_byte; [done|]. intros ty r1 [Hr1 _].
  apply wp_if; intros _; [done|]. apply wp_bind, wp_on_new, wp_bind, wp_scan_int; [done|]. intros n r2 [Hr2 _] Hn.
  pose proof Hr2 as (?&?&?&?). unfold u32_ok in Hn. apply wp_bind, wp_buf_getptr; [done|lia| |done]. intros Hle. apply wp_mem_load; [lia..|].
  assert (Hs : bytes_ok (slice (b_pos r2) n (b_data r2))) by (by apply bytes_ok_slice).
  apply wp_bind, wp_on_new. eapply (proj2 (appends_bytes _ Hs)); [exact Hblob| |done]. intros blob' Hb' Hsz'.
  apply wp_ret. eapply HQ; [done|exact Hs|exact Hb'|exact Hsz'].
Qed.
End agent.
