(* ===== verification/CliAuth.v ===== *)
(** * The client's authentication (src/src/cli-auth.c, cli-authpubkey.c, cli-authpasswd.c, cli-authinteract.c, cli-session.c)

    The state machine behind SSH_MSG_USERAUTH_FAILURE, _SUCCESS, _BANNER and
    the messages numbered 60: which method is tried next, with which key, what
    is sent, and when the client believes it is in.  The build is the default
    one (public keys, keyboard-interactive and passwords, the agent, the
    password from the environment; no request before the server's first answer,
    no askpass program).

    A key is known to the code by its address; the model numbers the keys in
    the order of their allocation.  What the user types and the environment
    variable DROPBEAR_PASSWORD are part of the state, what the user is shown is
    kept.  Opening the session after a success, and running it, are arguments
    of the session loop. *)

From Stdlib Require Import ZArith Lia.
From stdpp Require Import base list strings.
From S2P Require Import Prelude.
From S2P Require Import Buffer.
From S2P Require Import Random.
From S2P Require Import Algo.
From S2P Require Import Cipher.
From S2P Require Import KeyTypes.
From S2P Require Import Ecc.
From S2P Require Import SignKey.
From S2P Require Import Session.
From S2P Require Import Packet.
From S2P Require Import Kex.
From S2P Require Import KexMethods.
From S2P Require Import SvrAuth.
From S2P Require Import SvrKex.
From S2P Require Import KnownHosts.
From S2P Require Import CliKex.
From S2P Require Import CliAgent.

Definition AUTH_TYPE_NONE : Z := 1.
Definition AUTH_TYPE_INTERACT : Z := 8.
Definition SSH_MSG_USERAUTH_INFO_RESPONSE : Z := 61.
Definition MAX_BANNER_SIZE : Z := 2050.
Definition MAX_BANNER_LINES : Z := 20.
Definition DROPBEAR_MAX_CLI_PASS : Z := 1024.
Definition DROPBEAR_MAX_CLI_INTERACT_PROMPTS : Z := 80.
Definition SSH_SERVICE_USERAUTH : list Z := bstr "ssh-userauth".
Definition SSH_SERVICE_CONNECTION : list Z := bstr "ssh-connection".

(** ** State *)

(** [cli_state] *)
Inductive cli_state :=
  STATE_NOTHING | USERAUTH_WAIT | USERAUTH_REQ_SENT | USERAUTH_FAIL_RCVD | USERAUTH_SUCCESS_RCVD | SESSION_RUNNING.
#[global] Instance cli_state_eq_dec : EqDecision cli_state.
Proof. solve_decision. Defined.

(** An entry of [cli_opts.privkeys]: [struct SIGN_key] with its [type], and
    whether its [source] is the agent. *)
Record cli_key := mkclikey { ck_addr : Z; ck_key : sign_key; ck_type : Z; ck_agent : bool }.

(** The part of [cli_opts] used here; [opt_agent_fd] is the result of
    connecting to the agent and [opt_close_fails] whether closing that
    connection will. *)
Record auth_runopts := mkauthopts {
  opt_username : list Z;
  opt_remotehost : list Z;
  opt_quiet : bool;
  opt_batch_mode : bool;
  opt_password_authentication : bool;
  opt_disable_trivial_auth : bool;
  opt_agent_fd : Z;
  opt_close_fails : bool
}.

(** The user's side: the value of DROPBEAR_PASSWORD, what [getpass] will
    return, what [fgets] will find at the terminal ([None] is the end of the
    file), and what has been shown. *)
Record cliuser := mkuser {
  env_password : option (list Z);
  getpass_in : list (option (list Z));
  tty_in : list (option (list Z));
  shown : list Z
}.
Definition set_env_password (v : option (list Z)) (s : cliuser) : cliuser :=
  mkuser v (getpass_in s) (tty_in s) (shown s).
Definition set_getpass_in (v : list (option (list Z))) (s : cliuser) : cliuser :=
  mkuser (env_password s) v (tty_in s) (shown s).
Definition set_tty_in (v : list (option (list Z))) (s : cliuser) : cliuser :=
  mkuser (env_password s) (getpass_in s) v (shown s).
Definition set_shown (v : list Z) (s : cliuser) : cliuser :=
  mkuser (env_password s) (getpass_in s) (tty_in s) v.

(** [ses] and [cli_ses], with [authstate] and the parts of [cli_opts] that
    change. *)
Section state.
Context {CL : CryptoLib}.
Record cliauth := mkcliauth {
  cli : clises;
  castate : AuthState;
  cstate : cli_state;
  lastauthtype : Z;
  is_trivial_auth : bool;
  ignore_next_auth_response : bool;
  auth_interact_failed : bool;
  interact_request_received : bool;
  lastprivkey : option Z;
  privkeys : list cli_key;
  next_addr : Z;
  agent_keys_loaded : bool;
  agent : agentconn;
  user : cliuser
}.
Definition set_cli (v : clises) (s : cliauth) : cliauth :=
  mkcliauth v (castate s) (cstate s) (lastauthtype s) (is_trivial_auth s) (ignore_next_auth_response s) (auth_interact_failed s) (interact_request_received s) (lastprivkey s) (privkeys s) (next_addr s) (agent_keys_loaded s) (agent s) (user s).
Definition set_castate (v : AuthState) (s : cliauth) : cliauth :=
  mkcliauth (cli s) v (cstate s) (lastauthtype s) (is_trivial_auth s) (ignore_next_auth_response s) (auth_interact_failed s) (interact_request_received s) (lastprivkey s) (privkeys s) (next_addr s) (agent_keys_loaded s) (agent s) (user s).
Definition set_cstate (v : cli_state) (s : cliauth) : cliauth :=
  mkcliauth (cli s) (castate s) v (lastauthtype s) (is_trivial_auth s) (ignore_next_auth_response s) (auth_interact_failed s) (interact_request_received s) (lastprivkey s) (privkeys s) (next_addr s) (agent_keys_loaded s) (agent s) (user s).
Definition set_lastauthtype (v : Z) (s : cliauth) : cliauth :=
  mkcliauth (cli s) (castate s) (cstate s) v (is_trivial_auth s) (ignore_next_auth_response s) (auth_interact_failed s) (interact_request_received s) (lastprivkey s) (privkeys s) (next_addr s) (agent_keys_loaded s) (agent s) (user s).
Definition set_is_trivial_auth (v : bool) (s : cliauth) : cliauth :=
  mkcliauth (cli s) (castate s) (cstate s) (lastauthtype s) v (ignore_next_auth_response s) (auth_interact_failed s) (interact_request_received s) (lastprivkey s) (privkeys s) (next_addr s) (agent_keys_loaded s) (agent s) (user s).
Definition set_ignore_next_auth_response (v : bool) (s : cliauth) : cliauth :=
  mkcliauth (cli s) (castate s) (cstate s) (lastauthtype s) (is_trivial_auth s) v (auth_interact_failed s) (interact_request_received s) (lastprivkey s) (privkeys s) (next_addr s) (agent_keys_loaded s) (agent s) (user s).
Definition set_auth_interact_failed (v : bool) (s : cliauth) : cliauth :=
  mkcliauth (cli s) (castate s) (cstate s) (lastauthtype s) (is_trivial_auth s) (ignore_next_auth_response s) v (interact_request_received s) (lastprivkey s) (privkeys s) (next_addr s) (agent_keys_loaded s) (agent s) (user s).
Definition set_interact_request_received (v : bool) (s : cliauth) : cliauth :=
  mkcliauth (cli s) (castate s) (cstate s) (lastauthtype s) (is_trivial_auth s) (ignore_next_auth_response s) (auth_interact_failed s) v (lastprivkey s) (privkeys s) (next_addr s) (agent_keys_loaded s) (agent s) (user s).
Definition set_lastprivkey (v : option Z) (s : cliauth) : cliauth :=
  mkcliauth (cli s) (castate s) (cstate s) (lastauthtype s) (is_trivial_auth s) (ignore_next_auth_response s) (auth_interact_failed s) (interact_request_received s) v (privkeys s) (next_addr s) (agent_keys_loaded s) (agent s) (user s).
Definition set_privkeys (v : list cli_key) (s : cliauth) : cliauth :=
  mkcliauth (cli s) (castate s) (cstate s) (lastauthtype s) (is_trivial_auth s) (ignore_next_auth_response s) (auth_interact_failed s) (interact_request_received s) (lastprivkey s) v (next_addr s) (agent_keys_loaded s) (agent s) (user s).
Definition set_next_addr (v : Z) (s : cliauth) : cliauth :=
  mkcliauth (cli s) (castate s) (cstate s) (lastauthtype s) (is_trivial_auth s) (ignore_next_auth_response s) (auth_interact_failed s) (interact_request_received s) (lastprivkey s) (privkeys s) v (agent_keys_loaded s) (agent s) (user s).
Definition set_agent_keys_loaded (v : bool) (s : cliauth) : cliauth :=
  mkcliauth (cli s) (castate s) (cstate s) (lastauthtype s) (is_trivial_auth s) (ignore_next_auth_response s) (auth_interact_failed s) (interact_request_received s) (lastprivkey s) (privkeys s) (next_addr s) v (agent s) (user s).
Definition set_agent (v : agentconn) (s : cliauth) : cliauth :=
  mkcliauth (cli s) (castate s) (cstate s) (lastauthtype s) (is_trivial_auth s) (ignore_next_auth_response s) (auth_interact_failed s) (interact_request_received s) (lastprivkey s) (privkeys s) (next_addr s) (agent_keys_loaded s) v (user s).
Definition set_user (v : cliuser) (s : cliauth) : cliauth :=
  mkcliauth (cli s) (castate s) (cstate s) (lastauthtype s) (is_trivial_auth s) (ignore_next_auth_response s) (auth_interact_failed s) (interact_request_received s) (lastprivkey s) (privkeys s) (next_addr s) (agent_keys_loaded s) (agent s) v.
End state.

(** ** Text from the server *)

(** [cleantext] (cli-session.c), in place on a string that ends with a NUL:
    [i] reads, [j] writes. *)
Definition text_char (c : Z) : bool := ((32 <=? c) && (c <=? 126)) || (c =? 10) || (c =? 9).
Fixpoint cleantext_loop {S} (fuel : nat) (i j : nat) (mem : list Z) : ST S (list Z) :=
  match fuel with
  | O => fault "fuel"
  | Datatypes.S fuel =>
      match mem !! i with
      | None => fault "read past the string"
      | Some c =>
          if c =? 0 then ret (<[j := 0]> mem)
          else if text_char c then cleantext_loop fuel (Datatypes.S i) (Datatypes.S j) (<[j := c]> mem)
          else cleantext_loop fuel (Datatypes.S i) j mem
      end
  end.
Definition cleantext {S} (mem : list Z) : ST S (list Z) := cleantext_loop (Datatypes.S (length mem)) 0 0 mem.

(** The loop that cuts the banner: the number of characters to look at, the
    position, the count; the text and whether it was cut. *)
Fixpoint limit_lines {S} (n i : nat) (linecount : Z) (mem : list Z) : ST S (list Z * bool) :=
  match n with
  | O => ret (mem, false)
  | Datatypes.S n =>
      match mem !! i with
      | None => fault "read past the string"
      | Some c =>
          if c =? 10 then
            if linecount >=? MAX_BANNER_LINES then ret (<[i := 0]> mem, true)
            else limit_lines n (Datatypes.S i) (linecount + 1) mem
          else limit_lines n (Datatypes.S i) linecount mem
      end
  end.

(** [strncmp(s, mem, strlen(s)) == 0] *)
Fixpoint strncmp_eq {S} (s mem : list Z) : ST S bool :=
  match s with
  | [] => ret true
  | c :: s =>
      match mem with
      | [] => fault "read past the string"
      | d :: mem => if c =? d then strncmp_eq s mem else ret false
      end
  end.

(** The loop over the list of methods, its commas replaced by NULs: the number
    of positions left, the position, the start of the method, the types. *)
Fixpoint methods_loop {S} (n i tok : nat) (allow_pw_auth : bool) (types : Z) (mem : list Z) : ST S Z :=
  match n with
  | O => ret types
  | Datatypes.S n =>
      match mem !! i with
      | None => fault "read past the string"
      | Some c =>
          if c =? 0 then
            let* pubkey := strncmp_eq (bstr "publickey") (drop tok mem) in
            let* interact := (if allow_pw_auth then strncmp_eq (bstr "keyboard-interactive") (drop tok mem) else ret false) in
            let* password := (if allow_pw_auth then strncmp_eq (bstr "password") (drop tok mem) else ret false) in
            let types := if pubkey then Z.lor types AUTH_TYPE_PUBKEY else types in
            let types := if interact then Z.lor types AUTH_TYPE_INTERACT else types in
            let types := if password then Z.lor types AUTH_TYPE_PASSWORD else types in
            methods_loop n (Datatypes.S i) (Datatypes.S i) allow_pw_auth types mem
          else methods_loop n (Datatypes.S i) tok allow_pw_auth types mem
      end
  end.

Section cliauth.
Context {CL : CryptoLib} {ML : MpLib} {EL : EccLib} {DL : Ed25519Lib} {XL : Curve25519Lib}
  (opts : auth_runopts) (fuel : nat).

Definition on_cli {A} : ST clises A → ST cliauth A := zoom cli set_cli.
Definition on_ast {A} (m : ST sshsession A) : ST cliauth A := on_cli (on_cst m).
Definition on_apayload {A} (m : ST buffer A) : ST cliauth A := on_ast (on_payload m).
Definition on_write (m : ST buffer unit) : ST cliauth unit := on_ast (on_writepayload m).
Definition on_agent {A} : ST agentconn A → ST cliauth A := zoom agent set_agent.
Definition on_castate (f : AuthState → AuthState) : ST cliauth unit := modify (λ s, set_castate (f (castate s)) s).
Definition on_user {A} : ST cliuser A → ST cliauth A := zoom user set_user.
Definition ast (s : cliauth) : sshsession := cst (cli s).

(** [fprintf(stderr, ...)] *)
Definition show (text : list Z) : ST cliauth unit := on_user (modify (λ u, set_shown (shown u ++ text) u)).

(** ** What the user gives *)

(** [getpass_or_cancel]: the password and whether it is the memory of the
    environment variable. *)
Definition getpass_or_cancel (prompt : list Z) : ST cliauth (list Z * bool) :=
  let* s := get in
  match env_password (user s) with
  | Some password => ret (password, true)
  | None =>
      do* exit_if (opt_batch_mode opts) "BatchMode active, no interactive session possible.";
      do* show prompt;
      let* s := get in
      match getpass_in (user s) with
      | Some password :: rest =>
          do* on_user (modify (set_getpass_in rest));
          do* exit_if (existsb (Z.eqb 3) (before_nul password)) "Interrupted.";
          ret (before_nul password, false)
      | _ => dropbear_exit "Interrupted."
      end
  end.

(** [m_burn] of a password: the environment variable is then empty. *)
Definition burn_password (from_env : bool) : ST cliauth unit :=
  when from_env (on_user (modify (set_env_password (Some [])))).

(** [fgets(buf, sizeof(buf), tty)] *)
Fixpoint take_line (n : nat) (input : list Z) : list Z :=
  match n, input with
  | Datatypes.S n, c :: input => if c =? 10 then [c] else c :: take_line n input
  | _, _ => []
  end.
Definition get_response (prompt : list Z) : ST cliauth (list Z) :=
  do* show prompt;
  let* s := get in
  do* on_user (modify (λ u, set_tty_in (tail (tty_in u)) u));
  match head (tty_in (user s)) with
  | Some (Some (c :: input)) =>
      let buf := before_nul (take_line (Z.to_nat (DROPBEAR_MAX_CLI_PASS - 1)) (c :: input)) in
      ret (if bool_decide (last buf = Some 10) then take (length buf - 1) buf else buf)
  | _ => ret []
  end.

(** ** Requests *)

(** The head of every request. *)
Definition put_request (method : list Z) : ST cliauth unit :=
  do* on_write (buf_putbyte SSH_MSG_USERAUTH_REQUEST);
  do* on_write (buf_putstring (opt_username opts));
  do* on_write (buf_putstring SSH_SERVICE_CONNECTION);
  on_write (buf_putstring method).

Definition cli_auth_getmethods : ST cliauth unit :=
  do* put_request (bstr "none");
  on_ast encrypt_packet.

Definition cli_auth_password : ST cliauth unit :=
  let prompt := take 79 (opt_username opts ++ bstr "@" ++ opt_remotehost opts ++ bstr "'s password: ") in
  let* (password, from_env) := getpass_or_cancel prompt in
  do* put_request (bstr "password");
  do* on_write (buf_putbyte 0);
  do* on_write (buf_putstring password);
  do* on_ast encrypt_packet;
  do* burn_password from_env;
  modify (set_is_trivial_auth false).

Definition cli_auth_interactive : ST cliauth unit :=
  do* put_request (bstr "keyboard-interactive");
  do* on_write (buf_putstring []);
  do* on_write (buf_putstring []);
  do* on_ast encrypt_packet;
  modify (set_interact_request_received false).

(** ** Keyboard-interactive *)

Definition clean_string (s : list Z) : ST cliauth (list Z) :=
  let* mem := cleantext (s ++ [0]) in
  ret (before_nul mem).

Fixpoint prompts_loop (num_prompts : nat) : ST cliauth unit :=
  match num_prompts with
  | O => ret tt
  | S num_prompts =>
      do* modify (set_is_trivial_auth false);
      let* prompt := on_apayload buf_getstring in
      let* prompt := clean_string prompt in
      let* echo := on_apayload buf_getbool in
      let* response :=
        (if echo =? 0 then
           let* (p, from_env) := getpass_or_cancel prompt in
           do* burn_password from_env;
           ret p
         else get_response prompt) in
      do* on_write (buf_putstring response);
      prompts_loop num_prompts
  end.

Definition show_clean (s : list Z) : ST cliauth unit :=
  when (0 <? zlen (before_nul s))
    (let* text := clean_string s in show text).

(** The request and its answer, once the user knows who asks. *)
Definition answer_info_request : ST cliauth unit :=
  do* modify (set_interact_request_received true);
  let* name := on_apayload buf_getstring in
  let* instruction := on_apayload buf_getstring in
  do* on_apayload buf_eatstring;
  let* num_prompts := on_apayload buf_getint in
  do* exit_if (num_prompts >=? DROPBEAR_MAX_CLI_INTERACT_PROMPTS) "Too many prompts received for keyboard-interactive";
  do* on_write (buf_putbyte SSH_MSG_USERAUTH_INFO_RESPONSE);
  do* on_write (buf_putint num_prompts);
  do* show_clean name;
  do* show_clean instruction;
  do* prompts_loop (Z.to_nat num_prompts);
  on_ast encrypt_packet.

Definition recv_msg_userauth_info_request : ST cliauth unit :=
  let* s := get in
  do* when (negb (interact_request_received s))
        (show (bstr "Login for " ++ opt_username opts ++ bstr "@" ++ opt_remotehost opts ++ [10]));
  answer_info_request.

(** ** Public keys *)

(** signkey.c; a failed C [assert] is an exit. *)
Definition signature_type_from_signkey {S} (keytype : Z) : ST S Z :=
  do* dropbear_assert (negb (keytype =? DROPBEAR_SIGNKEY_RSA)) "keytype != DROPBEAR_SIGNKEY_RSA";
  do* dropbear_assert (keytype <? DROPBEAR_SIGNKEY_NUM_NAMED) "keytype < DROPBEAR_SIGNKEY_NUM_NAMED";
  ret keytype.

Definition cli_pubkeyfail : ST cliauth unit :=
  modify (λ s,
    match lastprivkey s with
    | None => s
    | Some addr =>
        match list_find (λ k, ck_addr k = addr) (privkeys s) with
        | Some (i, _) => set_lastprivkey None (set_privkeys (delete i (privkeys s)) s)
        | None => s
        end
    end).

Definition cli_buf_put_sign (key : cli_key) (sigtype : Z) (data_buf : buffer) : ST cliauth unit :=
  if ck_agent key then
    let* sigblob := buf_new MAX_PUBKEY_SIZE in
    let* sigblob := on_agent (agent_buf_sign (ck_key key) (ck_type key) data_buf sigtype sigblob) in
    on_write (buf_putbufstring sigblob)
  else on_ast (on_genpayload (buf_put_sign fuel (ck_key key) sigtype data_buf)).

(** What is signed: the session id and the request so far. *)
Definition signed_data : ST cliauth buffer :=
  let* s := get in
  let writepayload := writepayload (pkt (ast s)) in
  let* session_id := ptr (session_id (kexdat (ast s))) in
  let* sigbuf := buf_new (u32 (4 + b_len session_id + b_len writepayload)) in
  let* (_, sigbuf) := on_new sigbuf
    (do* buf_putbufstring session_id; buf_putbytes (buf_bytes writepayload)) in
  ret sigbuf.

Definition send_msg_userauth_pubkey (key : cli_key) (sigtype : Z) (realsign : bool) : ST cliauth unit :=
  let* keytype := signkey_type_from_signature sigtype in
  do* put_request (bstr "publickey");
  do* on_write (buf_putbyte (if realsign then 1 else 0));
  let* algoname := signature_name_from_type sigtype in
  do* on_write (buf_putstring algoname);
  do* on_write (buf_put_pub_key (ck_key key) keytype);
  do* when realsign
    (let* sigbuf := signed_data in
     do* cli_buf_put_sign key sigtype sigbuf;
     modify (set_is_trivial_auth false));
  on_ast encrypt_packet.

(** The key the server means: its type and its blob, the rest of the payload,
    compared with those of the list. *)
Fixpoint match_key (keys : list cli_key) (keytype remotelen : Z) (keybuf : buffer) : ST cliauth (option cli_key) :=
  match keys with
  | [] => ret None
  | key :: keys =>
      if negb (ck_type key =? keytype) then match_key keys keytype remotelen keybuf
      else
        let* (_, keybuf) := on_new keybuf
          (do* modify (λ b, set_pos 0 (set_len 0 b));
           do* buf_put_pub_key (ck_key key) keytype;
           do* buf_setpos 0;
           buf_incrpos 4) in
        if negb (u32 (b_len keybuf - 4) =? remotelen) then match_key keys keytype remotelen keybuf
        else
          let* (ours, keybuf) := on_new keybuf (let* p := buf_getptr remotelen in mem_load p remotelen) in
          let* theirs := on_apayload (let* p := buf_getptr remotelen in mem_load p remotelen) in
          if negb (bytes_eqb ours theirs) then match_key keys keytype remotelen keybuf
          else ret (Some key)
  end.

Definition recv_msg_userauth_pk_ok : ST cliauth unit :=
  let* algotype := on_apayload buf_getstring in
  let sigtype := signature_type_from_name algotype in
  do* exit_if (sigtype =? DROPBEAR_SIGNATURE_NONE) "Bad pk_ok";
  let* keytype := signkey_type_from_signature sigtype in
  let* keybuf := buf_new MAX_PUBKEY_SIZE in
  let* remotelen := on_apayload buf_getint in
  let* s := get in
  let* found := match_key (privkeys s) keytype remotelen keybuf in
  match found with
  | Some key => send_msg_userauth_pubkey key sigtype true
  | None => ret tt
  end.

(** The loop that drops the keys the server will not take: the keys left and
    the signature type for the first of them. *)
Definition on_sig_algs {A} : ST buffer A → ST clises A := zoom_ptr server_sig_algs set_server_sig_algs.
Fixpoint usable_keys (keys : list cli_key) (sigtype : Z) : ST clises (list cli_key * Z) :=
  match keys with
  | [] => ret ([], sigtype)
  | key :: rest =>
      let* s := get in
      match server_sig_algs s with
      | Some _ =>
          if ck_type key =? DROPBEAR_SIGNKEY_RSA then
            let* has := on_sig_algs (buf_has_algo SSH_SIGNATURE_RSA_SHA256) in
            if has then ret (keys, DROPBEAR_SIGNATURE_RSA_SHA256) else usable_keys rest sigtype
          else
            let* sigtype := signature_type_from_signkey (ck_type key) in
            let* name := signature_name_from_type sigtype in
            let* has := on_sig_algs (buf_has_algo name) in
            if has then ret (keys, sigtype) else usable_keys rest sigtype
      | None =>
          if ck_type key =? DROPBEAR_SIGNKEY_RSA then usable_keys rest sigtype
          else
            let* sigtype := signature_type_from_signkey (ck_type key) in
            ret (keys, sigtype)
      end
  end.

(** The agent's keys behind the user's, each with an address of its own. *)
Fixpoint number_keys (addr : Z) (loaded : list (sign_key * Z)) : list cli_key :=
  match loaded with
  | [] => []
  | (key, type) :: loaded => mkclikey addr key type true :: number_keys (addr + 1) loaded
  end.
Definition load_agent_keys : ST cliauth unit :=
  let* loaded := on_agent (cli_load_agent_keys (opt_agent_fd opts)) in
  modify (λ s, set_agent_keys_loaded true
    (set_next_addr (next_addr s + zlen loaded) (set_privkeys (privkeys s ++ number_keys (next_addr s) loaded) s))).

(** Whether a key was tried. *)
Definition cli_auth_pubkey : ST cliauth bool :=
  let* s := get in
  do* when (negb (agent_keys_loaded s)) load_agent_keys;
  let* s := get in
  let* (keys, sigtype) := on_cli (usable_keys (privkeys s) DROPBEAR_SIGNATURE_NONE) in
  do* modify (set_privkeys keys);
  match keys with
  | key :: _ =>
      do* send_msg_userauth_pubkey key sigtype false;
      do* modify (set_lastprivkey (Some (ck_addr key)));
      ret true
  | [] => ret false
  end.

Definition cli_auth_pubkey_cleanup : ST cliauth unit :=
  let* s := get in
  do* exit_if ((0 <=? agent_fd (agent s)) && opt_close_fails opts) "Error closing fd %d, %s";
  do* on_agent (modify (set_agent_fd (-1)));
  modify (set_privkeys []).

(** ** Messages of the server *)

Definition recv_msg_userauth_banner : ST cliauth unit :=
  let* s := get in
  if authdone (ast s) then ret tt
  else if opt_quiet opts then ret tt
  else
    let* banner := on_apayload buf_getstring in
    do* on_apayload buf_eatstring;
    let* truncated :=
      (if zlen banner >? MAX_BANNER_SIZE then ret true
       else
         let* mem := cleantext (banner ++ [0]) in
         let* (mem, truncated) := limit_lines (length banner) 0 1 mem in
         do* show (before_nul mem ++ [10]);
         ret truncated) in
    when truncated (show (bstr "[Banner from the server is too long]" ++ [10])).

Definition recv_msg_userauth_specific_60 : ST cliauth unit :=
  let* s := get in
  if lastauthtype s =? AUTH_TYPE_PUBKEY then recv_msg_userauth_pk_ok
  else if lastauthtype s =? AUTH_TYPE_INTERACT then recv_msg_userauth_info_request
  else if lastauthtype s =? AUTH_TYPE_PASSWORD then dropbear_exit "Your password has expired."
  else dropbear_exit "Unexpected userauth packet".

(** Passwords need someone to type them, or the environment variable. *)
Definition allow_pw_auth (s : cliauth) : bool :=
  negb (opt_batch_mode opts && match env_password (user s) with Some _ => false | None => true end)
  && opt_password_authentication opts.

(** The part that reads the message. *)
Definition read_methods (allow_pw : bool) : ST cliauth unit :=
  let* methods := on_apayload buf_getstring in
  let* partial := on_apayload buf_getbool in
  do* when (partial =? 0) (on_castate (λ a, set_failcount (u32 (failcount a + 1)) a));
  do* on_ast (modify (set_authdone false));
  let mem := map (λ c, if c =? 44 then 0 else c) methods ++ [0] in
  let* types := methods_loop (Datatypes.S (length methods)) 0 0 allow_pw 0 mem in
  on_castate (set_authtypes types).

Definition recv_msg_userauth_failure : ST cliauth unit :=
  let* s := get in
  if authdone (ast s) then ret tt
  else
    do* exit_if (negb (bool_decide (cstate s = USERAUTH_REQ_SENT))) "Unexpected userauth failure";
    if ignore_next_auth_response s then
      do* modify (set_cstate USERAUTH_REQ_SENT);
      modify (set_ignore_next_auth_response false)
    else
      do* when (lastauthtype s =? AUTH_TYPE_PUBKEY) cli_pubkeyfail;
      do* when ((lastauthtype s =? AUTH_TYPE_INTERACT) && negb (interact_request_received s))
            (modify (set_auth_interact_failed true));
      do* modify (set_cstate USERAUTH_FAIL_RCVD);
      do* modify (set_lastauthtype AUTH_TYPE_NONE);
      read_methods (allow_pw_auth s).

Definition recv_msg_userauth_success : ST cliauth unit :=
  let* s := get in
  do* exit_if (opt_disable_trivial_auth opts && is_trivial_auth s) "trivial authentication not allowed";
  do* on_ast (modify (set_authdone true));
  do* modify (set_cstate USERAUTH_SUCCESS_RCVD);
  do* modify (set_lastauthtype AUTH_TYPE_NONE);
  cli_auth_pubkey_cleanup.

(** ** The session *)

(** Whether packets to the server are encrypted. *)
Definition encrypting : ST cliauth bool :=
  let* s := get in
  let* k := ptr (keys (ast s)) in
  let* crypt := ptr (algo_crypt (k_trans k)) in
  ret (match c_cipherdesc crypt with Some _ => true | None => false end).

Definition has_type (s : cliauth) (type : Z) : bool := negb (Z.land (authtypes (castate s)) type =? 0).

Definition cli_auth_try : ST cliauth bool :=
  let* s := get in
  let* finished :=
    (if has_type s AUTH_TYPE_PUBKEY then
       let* finished := cli_auth_pubkey in
       do* modify (set_lastauthtype AUTH_TYPE_PUBKEY);
       ret finished
     else ret false) in
  let* finished :=
    (if negb finished && opt_password_authentication opts && has_type s AUTH_TYPE_INTERACT then
       let* enc := encrypting in
       if negb enc then
         do* show (bstr "Sorry, I won't let you use interactive auth unencrypted." ++ [10]);
         ret false
       else
         let* s := get in
         if negb (auth_interact_failed s) then
           do* cli_auth_interactive;
           do* modify (set_lastauthtype AUTH_TYPE_INTERACT);
           ret true
         else ret false
     else ret finished) in
  (if negb finished && opt_password_authentication opts && has_type s AUTH_TYPE_PASSWORD then
     let* enc := encrypting in
     if negb enc then
       do* show (bstr "Sorry, I won't let you use password auth unencrypted." ++ [10]);
       ret false
     else
       do* cli_auth_password;
       do* modify (set_lastauthtype AUTH_TYPE_PASSWORD);
       ret true
   else ret finished).

Definition send_msg_service_request (servicename : list Z) : ST cliauth unit :=
  do* on_write (buf_putbyte SSH_MSG_SERVICE_REQUEST);
  do* on_write (buf_putstring servicename);
  on_ast encrypt_packet.

(** The fields [cli_session_init] sets; the keys are those of the command
    line. *)
Definition cli_session_init : ST cliauth unit :=
  do* modify (set_cstate STATE_NOTHING);
  do* on_cli (modify (set_kex_state KEX_NOTHING));
  do* on_ast (modify (set_isserver false));
  do* modify (set_lastprivkey None);
  do* modify (set_lastauthtype 0);
  modify (set_is_trivial_auth true).

(** The switch on [cli_ses.state]. *)
Definition cli_state_switch (opened running : ST cliauth unit) : ST cliauth unit :=
  let* s := get in
  match cstate s with
  | STATE_NOTHING =>
      do* send_msg_service_request SSH_SERVICE_USERAUTH;
      do* cli_auth_getmethods;
      modify (set_cstate USERAUTH_REQ_SENT)
  | USERAUTH_REQ_SENT => ret tt
  | USERAUTH_FAIL_RCVD =>
      let* tried := cli_auth_try in
      do* exit_if (negb tried) "No auth methods could be used.";
      modify (set_cstate USERAUTH_REQ_SENT)
  | USERAUTH_SUCCESS_RCVD =>
      do* opened;
      modify (set_cstate SESSION_RUNNING)
  | SESSION_RUNNING => running
  | USERAUTH_WAIT => ret tt
  end.

Definition cli_sessionloop (opened running : ST cliauth unit) : ST cliauth unit :=
  let* reached := on_cli (cli_kexloop fuel) in
  when reached (cli_state_switch opened running).
End cliauth.
