(* ===== verification/CliAuthText.v ===== *)
(** * Text the client is sent (src/src/cli-session.c, cli-auth.c)

    The loops over a string of the server, each equal to a function of the
    string: what [cleantext] leaves, how much of a banner is shown, and which
    methods a list names. *)

From Stdlib Require Import ZArith Lia.
From stdpp Require Import base list strings.
From S2P Require Import Prelude.
From S2P Require Import Buffer.
From S2P Require Import Algo.
From S2P Require Import SvrAuth.
From S2P Require Import CliAuth.

(** ** Cleaning *)

Definition clean (str : list Z) : list Z := List.filter text_char (before_nul str).

Lemma text_char_nonzero c : text_char c = true → c ≠ 0.
Proof. by intros H ->. Qed.

Lemma cleantext_loop_spec {S} todo : ∀ fuel (i j : nat) mem (s : S),
  drop i mem = todo → (j ≤ i)%nat → (length todo ≤ fuel)%nat → 0 ∈ todo →
  let rest := drop (Datatypes.S (j + length (clean todo))) mem in
  cleantext_loop fuel i j mem s = Ok (take j mem ++ clean todo ++ 0 :: rest, s) ∧
    length (take j mem ++ clean todo ++ 0 :: rest) = length mem.
Proof.
  cbv zeta. unfold clean. induction todo as [|c todo IH]; intros fuel i j mem s Hd Hji Hf H0; [by apply not_elem_of_nil in H0|].
  destruct fuel as [|fuel]; [cbn in Hf; lia|]. cbn [cleantext_loop].
  assert (Hi : mem !! i = Some c) by (rewrite <-(Nat.add_0_r i), <-lookup_drop, Hd; done).
  pose proof (lookup_lt_Some _ _ _ Hi) as Hlt. rewrite Hi. cbn [before_nul].
  assert (Hd' : drop (Datatypes.S i) mem = todo) by (rewrite <-Nat.add_1_r, <-drop_drop, Hd; done).
  destruct (c =? 0) eqn:Hc.
  - cbn [List.filter app length]. rewrite Nat.add_0_r.
    assert (Heq : <[j:=0]> mem = take j mem ++ 0 :: drop (Datatypes.S j) mem).
    { rewrite insert_take_drop by lia. done. }
    rewrite <-Heq. by rewrite length_insert.
  - assert (Hin : 0 ∈ todo) by (apply elem_of_cons in H0 as [<-|?]; [done|done]). cbn [List.filter]. cbn [length] in Hf.
    destruct (text_char c) eqn:Ht.
    + destruct (IH fuel (Datatypes.S i) (Datatypes.S j) (<[j:=c]> mem) s) as [Hrun Hlen]; [|lia|lia|done|].
      { rewrite drop_insert_lt by lia. done. }
      assert (Htk : take (Datatypes.S j) (<[j:=c]> mem) = take j mem ++ [c]).
      { rewrite (take_S_r _ _ c) by (apply list_lookup_insert_eq; lia). by rewrite take_insert_ge by lia. }
      rewrite Htk in Hrun, Hlen. rewrite <-!app_assoc in Hrun, Hlen. rewrite length_insert in Hlen.
      cbn [length]. rewrite drop_insert_lt in Hrun, Hlen by lia. rewrite Nat.add_succ_r. by split.
    + by destruct (IH fuel (Datatypes.S i) j mem s) as [Hrun Hlen]; [done|lia|lia|done|].
Qed.

(** The cleaned text at the start of the memory, its NUL, and what was there
    before. *)
Definition behind (str : list Z) : list Z := drop (Datatypes.S (length (clean str))) (str ++ [0]).

Lemma cleantext_spec {S} str (s : S) :
  cleantext (str ++ [0]) s = Ok (clean str ++ 0 :: behind str, s) ∧ length (clean str ++ 0 :: behind str) = Datatypes.S (length str).
Proof.
  assert (Hb : ∀ l, before_nul (l ++ [0]) = before_nul l).
  { intros l. induction l as [|c l IH]; [done|]. cbn [before_nul app]. by rewrite IH. }
  destruct (cleantext_loop_spec (str ++ [0]) (Datatypes.S (length (str ++ [0]))) 0 0 (str ++ [0]) s) as [Hrun Hlen];
    [done|lia|lia|apply elem_of_app; right; by apply list_elem_of_singleton|].
  assert (Hc : clean (str ++ [0]) = clean str) by (unfold clean; by rewrite Hb). rewrite Hc in Hrun, Hlen.
  split; [exact Hrun|]. etransitivity; [exact Hlen|]. rewrite length_app. cbn. lia.
Qed.

Lemma clean_text str : Forall (λ c, text_char c = true) (clean str).
Proof. apply List.Forall_forall. intros c Hc. by apply List.filter_In in Hc as [_ ?]. Qed.
Lemma clean_no_nul str : 0 ∉ clean str.
Proof.
  intros H. pose proof (clean_text str) as Ht. rewrite Forall_forall in Ht. by specialize (Ht 0 H).
Qed.

Lemma before_nul_stop pre rest : 0 ∉ pre → before_nul (pre ++ 0 :: rest) = pre.
Proof.
  induction pre as [|c pre IH]; intros H; [done|]. apply not_elem_of_cons in H as [Hc H]. cbn [before_nul app].
  replace (c =? 0) with false by lia. by rewrite IH.
Qed.

Lemma wp_cleantext {S} str E (Q : list Z → S → Prop) (s : S) :
  (length (clean str ++ 0 :: behind str) = Datatypes.S (length str) → Q (clean str ++ 0 :: behind str) s) → wp (cleantext (str ++ [0])) E Q s.
Proof. intros HQ. destruct (cleantext_spec str s) as [Hrun Hl]. unfold wp. rewrite Hrun. by apply HQ. Qed.

(** ** The lines of a banner *)

(** The text up to the end of its [n]th line, with [n] at least 1. *)
Fixpoint first_lines (n : nat) (text : list Z) : list Z :=
  match text with
  | [] => []
  | c :: text =>
      if c =? 10 then match n with O | 1%nat => [] | Datatypes.S n => c :: first_lines n text end
      else c :: first_lines n text
  end.

Definition newlines (text : list Z) : Z := zlen (List.filter (Z.eqb 10) text).

(** A cut is made when the lines run out in what is looked at. *)
Lemma limit_lines_cut {S} n : ∀ (i : nat) lc mem (s : S), (i + n ≤ length mem)%nat → lc ≤ MAX_BANNER_LINES →
  ∃ mem', limit_lines n i lc mem s = Ok ((mem', MAX_BANNER_LINES - lc <? newlines (take n (drop i mem))), s).
Proof.
  unfold newlines. induction n as [|n IH]; intros i lc mem s Hl Hlc; cbn [limit_lines].
  { exists mem. cbn [take List.filter]. change (zlen []) with 0. by replace (_ <? 0) with false by lia. }
  destruct (mem !! i) as [c|] eqn:Hi; [|apply lookup_ge_None in Hi; lia].
  rewrite (drop_S mem c i Hi). cbn [take List.filter]. rewrite (Z.eqb_sym 10 c). destruct (c =? 10); [|apply IH; lia].
  set (l := List.filter _ _) in *. pose proof (zlen_nonneg l). rewrite zlen_cons. destruct (Z.geb_spec lc MAX_BANNER_LINES) as [Hge|Hlt].
  - eexists. replace (_ <? _) with true by lia. done.
  - destruct (IH (Datatypes.S i) (lc + 1) mem s) as [mem' Hrun]; [lia..|]. exists mem'. rewrite Hrun. fold l.
    replace (MAX_BANNER_LINES - lc <? 1 + zlen l) with (MAX_BANNER_LINES - (lc + 1) <? zlen l) by lia. done.
Qed.

Lemma limit_lines_prefix {S} n : ∀ (i : nat) lc mem (s : S), (i + n ≤ length mem)%nat →
  ∃ mem' tr, limit_lines n i lc mem s = Ok ((mem', tr), s) ∧ take i mem' = take i mem ∧ (tr = false → mem' = mem).
Proof.
  induction n as [|n IH]; intros i lc mem s Hl; cbn [limit_lines].
  { by exists mem, false. }
  destruct (mem !! i) as [c|] eqn:Hi; [|apply lookup_ge_None in Hi; lia].
  assert (Hrec : ∀ lc, ∃ mem' tr, limit_lines n (Datatypes.S i) lc mem s = Ok ((mem', tr), s) ∧ take i mem' = take i mem ∧ (tr = false → mem' = mem)).
  { intros lc'. destruct (IH (Datatypes.S i) lc' mem s) as (mem'&tr&Hrun&Htk&Hsame); [lia|]. exists mem', tr. split_and!; [done| |done].
    apply (f_equal (take i)) in Htk. by rewrite !take_take, !Nat.min_l in Htk by lia. }
  destruct (c =? 10); [|apply Hrec]. destruct (lc >=? MAX_BANNER_LINES); [|apply Hrec].
  exists (<[i:=0]> mem), true. split_and!; [done|by rewrite take_insert_ge|done].
Qed.

Lemma limit_lines_spec {S} txt : ∀ n (i : nat) lc pre rest (s : S),
  length pre = i → 0 ∉ pre → 0 ∉ txt → n = length (txt ++ rest) → 1 ≤ lc ≤ MAX_BANNER_LINES →
  ∃ mem' tr, limit_lines n i lc (pre ++ txt ++ 0 :: rest) s = Ok ((mem', tr), s) ∧
    before_nul mem' = pre ++ first_lines (Z.to_nat (MAX_BANNER_LINES + 1 - lc)) txt ∧
    (tr = false → mem' = pre ++ txt ++ 0 :: rest).
Proof.
  unfold MAX_BANNER_LINES. induction txt as [|c txt IH]; intros n i lc pre rest s Hi Hpre Htxt Hn Hlc.
  { cbn [app first_lines]. rewrite app_nil_r. cbn [app] in Hn. destruct n as [|n]; cbn [limit_lines].
    { exists (pre ++ 0 :: rest), false. split_and!; [done|by apply before_nul_stop|done]. }
    rewrite lookup_app_r, Hi, Nat.sub_diag by lia. cbn [lookup list_lookup]. change (0 =? 10) with false.
    destruct (limit_lines_prefix n (Datatypes.S i) lc (pre ++ 0 :: rest) s) as (mem'&tr&Hrun&Htk&Hsame).
    { rewrite length_app. cbn [length]. lia. }
    exists mem', tr. split_and!; [exact Hrun| |exact Hsame]. rewrite (cons_middle 0 pre rest), app_assoc in Htk.
    rewrite (take_app_length' (pre ++ [0])) in Htk by (rewrite length_app; cbn; lia).
    rewrite <-(take_drop (Datatypes.S i) mem'), Htk, <-app_assoc. by apply before_nul_stop. }
  apply not_elem_of_cons in Htxt as [Hc Htxt]. destruct n as [|n]; [done|]. cbn [limit_lines first_lines].
  rewrite lookup_app_r, Hi, Nat.sub_diag by lia. cbn [app lookup list_lookup].
  assert (Hrec : ∀ lc', 1 ≤ lc' ≤ 20 → ∃ mem' tr, limit_lines n (Datatypes.S i) lc' (pre ++ c :: txt ++ 0 :: rest) s = Ok ((mem', tr), s) ∧
    before_nul mem' = pre ++ c :: first_lines (Z.to_nat (20 + 1 - lc')) txt ∧ (tr = false → mem' = pre ++ c :: txt ++ 0 :: rest)).
  { intros lc' Hlc'. destruct (IH n (Datatypes.S i) lc' (pre ++ [c]) rest s) as (mem'&tr&Hrun&Hb&Hs).
    - rewrite length_app. cbn. lia.
    - rewrite not_elem_of_app. split; [done|]. rewrite list_elem_of_singleton. done.
    - done.
    - cbn in Hn. lia.
    - done.
    - exists mem', tr. rewrite <-!app_assoc in Hrun, Hb, Hs. by split. }
  destruct (c =? 10) eqn:H10; [|by apply Hrec]. unfold MAX_BANNER_LINES. destruct (lc >=? 20) eqn:Hge.
  - assert (lc = 20) as -> by lia. change (Z.to_nat (20 + 1 - 20)) with 1%nat. rewrite app_nil_r.
    eexists _, true. split_and!; [done| |done]. rewrite insert_app_r_alt, Hi, Nat.sub_diag by lia. by apply before_nul_stop.
  - destruct (Hrec (lc + 1)) as (mem'&tr&Hrun&Hb&Hs); [lia|]. exists mem', tr. split_and!; [done| |done]. rewrite Hb. f_equal.
    replace (Z.to_nat (20 + 1 - lc)) with (Datatypes.S (Z.to_nat (20 + 1 - (lc + 1)))) by lia.
    destruct (Z.to_nat (20 + 1 - (lc + 1))) eqn:Hz; [lia|done].
Qed.

(** The loop looks at as many bytes as the banner had before it was cleaned,
    past the NUL of the cleaned text. *)
Definition looked_at (str : list Z) : list Z := take (length str) (clean str ++ 0 :: behind str).
Definition cut_off (str : list Z) : bool := MAX_BANNER_LINES <=? newlines (looked_at str).

Lemma wp_limit_lines {S} str E (Q : list Z * bool → S → Prop) (s : S) :
  length (clean str ++ 0 :: behind str) = Datatypes.S (length str) →
  (∀ mem, before_nul mem = first_lines (Z.to_nat MAX_BANNER_LINES) (clean str) → Q (mem, cut_off str) s) →
  wp (limit_lines (length str) 0 1 (clean str ++ 0 :: behind str)) E Q s.
Proof.
  intros Hl HQ. destruct (limit_lines_spec (clean str) (length str) 0 1 [] (behind str) s) as (mem&tr&Hrun&Hb&Hs);
    [done|apply not_elem_of_nil|apply clean_no_nul| |done|].
  { rewrite length_app in Hl |- *. cbn [length] in Hl. lia. }
  destruct (limit_lines_cut (length str) 0 1 (clean str ++ 0 :: behind str) s) as [mem' Hcut]; [lia|done|].
  unfold wp. cbn [app] in Hrun. rewrite Hrun in Hcut |- *. injection Hcut as <- ->.
  change (drop 0 ?l) with l. fold (looked_at str). specialize (HQ mem Hb). unfold cut_off in HQ.
  by replace (MAX_BANNER_LINES - 1 <? newlines (looked_at str)) with (MAX_BANNER_LINES <=? newlines (looked_at str)) by lia.
Qed.

Lemma first_lines_all text : ∀ n, newlines text < Z.of_nat n → first_lines n text = text.
Proof.
  unfold newlines. induction text as [|c text IH]; intros n Hn; [done|]. cbn [first_lines List.filter] in *. rewrite (Z.eqb_sym 10 c) in Hn.
  destruct (c =? 10); [|f_equal; by apply IH]. rewrite zlen_cons in Hn. pose proof (zlen_nonneg (List.filter (Z.eqb 10) text)).
  destruct n as [|[|n]]; [lia..|]. f_equal. apply IH. lia.
Qed.

Lemma newlines_app l k : newlines (l ++ k) = newlines l + newlines k.
Proof. unfold newlines. by rewrite List.filter_app, zlen_app. Qed.

(** If nothing is announced then nothing was cut off; and the banner is counted
    as it was sent when there is nothing to clean. *)
Lemma uncut_full str : cut_off str = false → first_lines (Z.to_nat MAX_BANNER_LINES) (clean str) = clean str.
Proof.
  unfold cut_off, looked_at. intros H%Z.leb_gt. apply first_lines_all. change (Z.of_nat (Z.to_nat MAX_BANNER_LINES)) with MAX_BANNER_LINES.
  assert (Hlen : (length (clean str) ≤ length str)%nat).
  { destruct (cleantext_spec str tt) as [_ Hl]. rewrite length_app in Hl. cbn in Hl. lia. }
  rewrite take_app_ge, newlines_app in H by done. pose proof (zlen_nonneg (List.filter (Z.eqb 10) (take (length str - length (clean str)) (0 :: behind str)))).
  unfold newlines in *. lia.
Qed.

Lemma cut_off_plain str : clean str = str → cut_off str = (MAX_BANNER_LINES <=? newlines str).
Proof. intros H. unfold cut_off, looked_at. by rewrite H, take_app_length. Qed.

(** ** The list of methods *)

(** The parts between commas and NULs. *)
Fixpoint pieces (l : list Z) : list (list Z) :=
  match l with
  | [] => [[]]
  | c :: l =>
      if (c =? 44) || (c =? 0) then [] :: pieces l
      else match pieces l with w :: ws => (c :: w) :: ws | [] => [[c]] end
  end.

(** A method counts as named when a part begins with its name. *)
Definition offers (methods : list Z) (name : list Z) : bool :=
  existsb (λ p, bool_decide (name `prefix_of` p)) (pieces methods).

Definition type_bits (pubkey password interact : bool) : Z :=
  (if pubkey then AUTH_TYPE_PUBKEY else 0) + (if password then AUTH_TYPE_PASSWORD else 0)
  + (if interact then AUTH_TYPE_INTERACT else 0).
Definition offered (allow_pw : bool) (methods : list Z) : Z :=
  type_bits (offers methods (bstr "publickey")) (allow_pw && offers methods (bstr "password"))
    (allow_pw && offers methods (bstr "keyboard-interactive")).

Lemma strncmp_eq_spec {S} name : ∀ cur rest (s : S), 0 ∉ name → 0 ∉ cur →
  strncmp_eq name (cur ++ 0 :: rest) s = Ok (bool_decide (name `prefix_of` cur), s).
Proof.
  induction name as [|c name IH]; intros cur rest s Hn Hc.
  { rewrite bool_decide_eq_true_2; [done|apply prefix_nil]. }
  apply not_elem_of_cons in Hn as [H0 Hn]. destruct cur as [|d cur]; cbn [strncmp_eq app].
  - replace (c =? 0) with false by lia. rewrite bool_decide_eq_false_2; [done|apply prefix_nil_not].
  - apply not_elem_of_cons in Hc as [Hd Hc]. destruct (Z.eqb_spec c d) as [->|Hne].
    + rewrite IH by done. f_equal. f_equal. apply bool_decide_ext. split; [by apply prefix_cons|by apply prefix_cons_inv_2].
    + rewrite bool_decide_eq_false_2; [done|]. intros Hp. by apply prefix_cons_inv_1 in Hp.
Qed.

(** One part of the list. *)
Definition add_piece (allow : bool) (p w i : bool) (piece : list Z) : Z :=
  type_bits (p || bool_decide (bstr "publickey" `prefix_of` piece))
    (w || allow && bool_decide (bstr "password" `prefix_of` piece))
    (i || allow && bool_decide (bstr "keyboard-interactive" `prefix_of` piece)).

Lemma bits_lor (p w i bp bw bi : bool) :
  (let types := if bp then Z.lor (type_bits p w i) AUTH_TYPE_PUBKEY else type_bits p w i in
   let types := if bi then Z.lor types AUTH_TYPE_INTERACT else types in
   if bw then Z.lor types AUTH_TYPE_PASSWORD else types) = type_bits (p || bp) (w || bw) (i || bi).
Proof. by destruct p, w, i, bp, bw, bi. Qed.

Lemma methods_loop_spec {S} l : ∀ n (i tok : nat) allow p w ik pre cur mem (s : S),
  mem = pre ++ cur ++ map (λ c, if c =? 44 then 0 else c) l ++ [0] →
  length pre = tok → length (pre ++ cur) = i → 0 ∉ cur → n = Datatypes.S (length l) →
  methods_loop n i tok allow (type_bits p w ik) mem s =
    Ok (type_bits
      (p || existsb (λ x, bool_decide (bstr "publickey" `prefix_of` x)) match pieces l with x :: xs => (cur ++ x) :: xs | [] => [] end)
      (w || allow && existsb (λ x, bool_decide (bstr "password" `prefix_of` x)) match pieces l with x :: xs => (cur ++ x) :: xs | [] => [] end)
      (ik || allow && existsb (λ x, bool_decide (bstr "keyboard-interactive" `prefix_of` x)) match pieces l with x :: xs => (cur ++ x) :: xs | [] => [] end), s).
Proof.
  induction l as [|c l IH]; intros n i tok allow p w ik pre cur mem s Hmem Htok Hi Hcur ->; cbn [methods_loop map].
  all: assert (Hdrop : ∀ rest, mem = pre ++ cur ++ rest → drop tok mem = cur ++ rest)
    by (intros rest ->; rewrite <-Htok; by rewrite drop_app_length).
  all: assert (Hlook : ∀ x rest, mem = pre ++ cur ++ x :: rest → mem !! i = Some x)
    by (intros x rest ->; rewrite app_assoc, lookup_app_r, Hi, Nat.sub_diag by lia; done).
  all: assert (Hseg : ∀ rest (k : Z → ST S Z), mem = pre ++ cur ++ 0 :: rest →
    (let* pubkey := strncmp_eq (bstr "publickey") (drop tok mem) in
     let* interact := (if allow then strncmp_eq (bstr "keyboard-interactive") (drop tok mem) else ret false) in
     let* password := (if allow then strncmp_eq (bstr "password") (drop tok mem) else ret false) in
     let types := if pubkey then Z.lor (type_bits p w ik) AUTH_TYPE_PUBKEY else type_bits p w ik in
     let types := if interact then Z.lor types AUTH_TYPE_INTERACT else types in
     let types := if password then Z.lor types AUTH_TYPE_PASSWORD else types in k types) s
    = k (add_piece allow p w ik cur) s).
  1, 3: intros rest k Hm; rewrite (Hdrop _ Hm); unfold bind; rewrite strncmp_eq_spec by (done || decide_closed);
    unfold add_piece; rewrite <-bits_lor; destruct allow; cbn [andb]; [|done];
    rewrite !strncmp_eq_spec by (done || decide_closed); done.
  - cbn [app map] in Hmem. rewrite (Hlook 0 []) by done.
    etransitivity; [exact (Hseg [] (λ types, ret types) Hmem)|]. unfold add_piece, ret. cbn [pieces existsb].
    by rewrite app_nil_r, !orb_false_r.
  - cbn [app map] in Hmem. rewrite (Hlook _ _ Hmem). cbn [pieces].
    destruct (c =? 44) eqn:Hc; [|destruct (c =? 0) eqn:Hz]; cbn [orb].
    2: apply Z.eqb_eq in Hz as ->.
    1, 2: etransitivity; [exact (Hseg _ (λ types, methods_loop (Datatypes.S (length l)) (Datatypes.S i) (Datatypes.S i) allow types mem) Hmem)|].
    1, 2: unfold add_piece; erewrite (IH _ _ _ allow _ _ _ (pre ++ cur ++ [0]) []);
      [|rewrite Hmem, <-!app_assoc; done|rewrite app_assoc, length_app, Hi; cbn; lia|rewrite app_nil_r, app_assoc, length_app, Hi; cbn; lia|apply not_elem_of_nil|done];
      cbn [existsb app]; rewrite app_nil_r; destruct (pieces l); rewrite ?orb_assoc, ?andb_orb_distrib_r, ?orb_assoc; done.
    erewrite (IH _ _ _ allow _ _ _ pre (cur ++ [c]));
      [|rewrite Hmem, <-!app_assoc; done|done|rewrite app_assoc, length_app, Hi; cbn; lia|rewrite not_elem_of_app, list_elem_of_singleton; split; [done|lia]|done].
    destruct (pieces l) as [|x xs] eqn:Hp; [by destruct l as [|d l]; [|cbn in Hp; destruct (_ || _); [|destruct (pieces l)]]|].
    by rewrite <-app_assoc.
Qed.

Lemma wp_methods {S} methods allow E (Q : Z → S → Prop) (s : S) :
  Q (offered allow methods) s →
  wp (methods_loop (Datatypes.S (length methods)) 0 0 allow 0 (map (λ c, if c =? 44 then 0 else c) methods ++ [0])) E Q s.
Proof.
  intros HQ. unfold wp. change 0 with (type_bits false false false) at 1.
  rewrite (methods_loop_spec methods _ 0 0 allow false false false [] [] _ s) by (done || apply not_elem_of_nil).
  cbn [orb app]. unfold offered, offers in HQ. by destruct (pieces methods).
Qed.
