(* ===== verification/CliAuthSafe.v ===== *)
(** * What the client sends, and why it believes it is in (src/src/cli-auth.c and the methods)

    Every request of the client written out as bytes; the handlers of the
    server's messages and the step of the session loop as transitions that
    never touch memory they should not; and, over every order of messages, what
    has gone out before the client counts itself as authenticated. *)

From Stdlib Require Import ZArith Lia.
From stdpp Require Import base list strings.
From S2P Require Import Prelude.
From S2P Require Import Buffer.
From S2P Require Import Random.
From S2P Require Import Algo.
From S2P Require Import Cipher.
From S2P Require Import KeyTypes.
From S2P Require Import Ecc.
From S2P Require Import SignKey.
From S2P Require Import KeyInstances.
From S2P Require Import SignKeyRead.
From S2P Require Import SignVerify.
From S2P Require Import SignAgree.
From S2P Require Import Session.
From S2P Require Import Packet.
From S2P Require Import Transport.
From S2P Require Import Instances.
From S2P Require Import Kex.
From S2P Require Import KexMethods.
From S2P Require Import KexShare.
From S2P Require Import KnownHosts.
From S2P Require Import SvrAuth.
From S2P Require Import SvrKex.
From S2P Require Import CliKex.
From S2P Require Import KexPeer.
From S2P Require Import KexReply.
From S2P Require Import CliAgent.
From S2P Require Import CliAgentSafe.
From S2P Require Import CliAuth.
From S2P Require Import CliAuthText.

(** ** The messages *)

(** A request of the user [name] for a method. *)
Definition auth_request (name method rest : list Z) : list Z :=
  SSH_MSG_USERAUTH_REQUEST :: enc_fields [FString name; FString SSH_SERVICE_CONNECTION; FString method] ++ rest.

(** The request with a key, up to the signature: [flag] is 1 in the one that
    is signed. *)
Definition pubkey_request (name algo blob : list Z) (flag : Z) : list Z :=
  auth_request name (bstr "publickey") (flag :: enc_fields [FString algo; FString blob]).

(** The messages with something only the user can have given: a signature, a
    password, answers to at least one question. *)
Inductive credential (name : list Z) : list Z → Prop :=
| signed algo blob sig : credential name (pubkey_request name algo blob 1 ++ enc_field (FString sig))
| password pw : credential name (auth_request name (bstr "password") (0 :: enc_field (FString pw)))
| answers (l : list (list Z)) : l ≠ [] →
    credential name (SSH_MSG_USERAUTH_INFO_RESPONSE :: STORE32H (zlen l) ++ enc_fields (map FString l)).

(** ** Signature types *)

(** The signature type of a key of a type, as the client uses it. *)
Definition sig_of (type : Z) : Z := if type =? DROPBEAR_SIGNKEY_RSA then DROPBEAR_SIGNATURE_RSA_SHA256 else type.

Definition known_sig (sigtype : Z) : Prop := sigtype = DROPBEAR_SIGNATURE_RSA_SHA256 ∨ 0 ≤ sigtype < DROPBEAR_SIGNKEY_NUM_NAMED.

Ltac known_sig_case := split_and!; [done|by vm_compute|by vm_compute|
  match goal with |- ∃ name, (∀ S s, signature_name_from_type ?k s = _) ∧ _ =>
    let nm := eval vm_compute in (match signature_name_from_type k tt with Ok (n, _) => n | _ => [] end) in
    exists nm; split_and!; [done|decide_closed|by vm_compute] end].

Lemma known_sig_name sigtype : known_sig sigtype →
  (∀ S (s : S), signkey_type_from_signature sigtype s = Ok (keytype_of sigtype, s)) ∧
  0 ≤ keytype_of sigtype < DROPBEAR_SIGNKEY_NUM_NAMED ∧
  ∃ name, (∀ S (s : S), signature_name_from_type sigtype s = Ok (name, s)) ∧ short_name name ∧
    (sigtype ≠ DROPBEAR_SIGNKEY_RSA → signature_type_from_name name = sigtype).
Proof.
  unfold known_sig, DROPBEAR_SIGNKEY_NUM_NAMED. intros Hk.
  assert (Hc : sigtype = DROPBEAR_SIGNATURE_RSA_SHA256 ∨ sigtype = 0 ∨ sigtype = 1 ∨ sigtype = 2 ∨ sigtype = 3 ∨ sigtype = 4 ∨ sigtype = 5 ∨ sigtype = 6) by lia.
  repeat (destruct Hc as [->|Hc]; [known_sig_case|]). subst. known_sig_case.
Qed.

Lemma sig_name_known algo : signature_type_from_name algo ≠ DROPBEAR_SIGNATURE_NONE → known_sig (signature_type_from_name algo).
Proof.
  unfold known_sig, signature_type_from_name. destruct (bytes_eqb algo SSH_SIGNATURE_RSA_SHA256); [by left|].
  destruct (signkey_type_from_name_cases algo) as [->|[Hr _]]; [done|]. by right.
Qed.

(** ** Sending and reading *)

(** The user name fits a request. *)
Definition name_ok (opts : auth_runopts) : Prop := bytes_ok (opt_username opts) ∧ zlen (opt_username opts) ≤ 10000.

Section client.
Context {CL : CryptoLib} {ready : list (list Z) → sshsession → Prop} {T : Transport ready}.
Context {ML : MpLib} {MLaw : MpLaws ML} {EL : EccLib} {base : ecc_curve → Z → point} {ELaw : EccLaws EL base}
  {DL : Ed25519Lib} {pair : list Z → list Z → Prop} {DLaw : Ed25519Laws DL pair}
  (opts : auth_runopts) (fuel : nat) (sid : buffer) (Hsid : wf_buf sid) (Hname : name_ok opts).
Implicit Types (s : cliauth) (t : sshsession) (pl : buffer) (msgs : list (list Z)) (acc : list Z).
#[local] Abbreviation runs m Q s := (wpf m any_exit (λ w, w = "fuel"%string) Q s).

(** The session with another transport state. *)
Definition put_ast t s : cliauth := set_cli (set_cst t (cli s)) s.
Lemma put_ast_self s : s = put_ast (ast s) s.
Proof. by destruct s as [[] ? ? ? ? ? ? ? ? ? ? ? ? ?]. Qed.

(** The transport of a client that is not in yet: it can send, has been given
    [msgs] and has [acc] of the next message; the packet being read, if there
    is one, is at [b]. *)
Definition work msgs acc (b : option buffer) t : Prop :=
  ∃ t0 pl, t = wview t0 pl ∧ ready msgs t0 ∧ filled acc pl ∧ payload (pkt t) = b ∧ from_option wf_buf True b ∧
    authdone t = false ∧ session_id (kexdat t) = Some sid.

Definition able msgs (b : option buffer) t : Prop :=
  ready msgs t ∧ payload (pkt t) = b ∧ from_option wf_buf True b ∧ authdone t = false ∧ session_id (kexdat t) = Some sid.

Lemma able_work msgs b t : able msgs b t → work msgs [] b t.
Proof.
  intros (Hr&Hp&Hwf&Hd&Hs). exists t, (writepayload (pkt t)). split_and!; try done; [apply wview_self|].
  by apply clear_filled, (tr_clear msgs).
Qed.

Lemma runs_ast {A} (m : ST sshsession A) (Q : A → cliauth → Prop) t s :
  runs m (λ x t', Q x (put_ast t' s)) t → runs (on_ast m) Q (put_ast t s).
Proof. intros H. apply wpf_zoom, wpf_zoom. exact H. Qed.

Lemma runs_write msgs acc b m w (Q : unit → cliauth → Prop) t s :
  work msgs acc b t → appends m w → (∀ t', work msgs (acc ++ w) b t' → Q tt (put_ast t' s)) →
  runs (on_write m) Q (put_ast t s).
Proof.
  intros (t0&pl&->&Hr&Hpl&Hrest) Hm HQ. apply runs_ast. eapply runs_append; [exact Hm|exact Hpl|].
  intros pl' Hpl'. apply HQ. by exists t0, pl'.
Qed.

(** [buf_putstring], which is most of what is written. *)
Lemma runs_string msgs acc b str (Q : unit → cliauth → Prop) t s :
  work msgs acc b t → bytes_ok str → (∀ t', work msgs (acc ++ enc_field (FString str)) b t' → Q tt (put_ast t' s)) →
  runs (on_write (buf_putstring str)) Q (put_ast t s).
Proof. intros Hw Hs HQ. eapply runs_write; [exact Hw|by apply appends_string|exact HQ]. Qed.

Lemma runs_byte msgs acc b c (Q : unit → cliauth → Prop) t s :
  work msgs acc b t → byte_ok c → (∀ t', work msgs (acc ++ [c]) b t' → Q tt (put_ast t' s)) →
  runs (on_write (buf_putbyte c)) Q (put_ast t s).
Proof. intros Hw Hc HQ. eapply runs_write; [exact Hw|by apply appends_byte|exact HQ]. Qed.

Lemma runs_encrypt_message msgs acc b (Q : unit → cliauth → Prop) t s :
  work msgs acc b t → zlen msgs < 2 ^ 31 → acc ≠ [] → (∀ t', message acc → able (msgs ++ [acc]) b t' → Q tt (put_ast t' s)) →
  runs (on_ast encrypt_packet) Q (put_ast t s).
Proof.
  intros (t0&pl&->&Hr&[Hacc Hsz]&Hp&Hwf&Hd&Hs) Hm Hne HQ. apply runs_ast, runs_wp. destruct Hacc as (Hwp&_&Hc).
  assert (Hmsg : message acc).
  { rewrite <-Hc. split; [by apply contents_bytes|]. rewrite contents_length by done.
    pose proof (contents_length pl Hwp) as Hl. rewrite Hc in Hl. destruct Hwp as (?&?&?&_).
    destruct acc; [done|]. rewrite zlen_cons in Hl. pose proof (zlen_nonneg acc). lia. }
  eapply wp_mono; [eapply wp_exit_mono; [by eapply (tr_send msgs t0)|by intros e []]|].
  intros [] t' [Hr' Hq]. apply HQ; [done|]. split_and!; [done| |done| |].
  - rewrite <-Hp. exact (f_equal (λ x, payload (pkt x)) Hq).
  - rewrite <-Hd. exact (f_equal authdone Hq).
  - rewrite <-Hs. exact (f_equal (λ x, session_id (kexdat x)) Hq).
Qed.

Lemma runs_encrypt msgs acc b (Q : unit → cliauth → Prop) t s :
  work msgs acc b t → zlen msgs < 2 ^ 31 → acc ≠ [] → (∀ t', able (msgs ++ [acc]) b t' → Q tt (put_ast t' s)) →
  runs (on_ast encrypt_packet) Q (put_ast t s).
Proof. intros Hw Hm Hne HQ. eapply runs_encrypt_message; [exact Hw|exact Hm|exact Hne|]. intros t' _. apply HQ. Qed.

(** Reading the packet. *)
Lemma work_pay msgs acc b b' t : work msgs acc b t → wf_buf b' → work msgs acc (Some b') (pay t b').
Proof.
  intros (t0&pl&->&Hr&Hpl&Hp&Hwf&Hd&Hs) Hwf'. exists (pay t0 b'), pl. split_and!; try done. by eapply tr_same.
Qed.
Lemma able_pay msgs b b' t : able msgs b t → wf_buf b' → able msgs (Some b') (pay t b').
Proof. intros (Hr&Hp&Hwf&Hd&Hs) Hwf'. split_and!; try done. by eapply tr_same. Qed.

Lemma runs_read {A} (m : ST buffer A) b (Q : A → cliauth → Prop) t s :
  payload (pkt t) = Some b → wp m any_exit (λ x b', Q x (put_ast (pay t b') s)) b →
  runs (on_apayload m) Q (put_ast t s).
Proof. intros Hp Hm. apply runs_ast. rewrite (pay_self t b Hp). by apply runs_wp, wp_pay. Qed.

(** The usual readers. *)
Lemma runs_get_string msgs acc b (Q : list Z → cliauth → Prop) t s :
  work msgs acc (Some b) t →
  (∀ str b', bytes_ok str → wf_buf b' → work msgs acc (Some b') (pay t b') → Q str (put_ast (pay t b') s)) →
  runs (on_apayload buf_getstring) Q (put_ast t s).
Proof.
  intros Hw HQ. pose proof Hw as (_&_&_&_&_&Hp&Hwf&_). eapply runs_read; [exact Hp|]. apply wp_scan_string; [done|].
  intros str b' [Hwf' _] Hb _ _. apply HQ; [done|done|by eapply work_pay].
Qed.
Lemma runs_get_int msgs acc b (Q : Z → cliauth → Prop) t s :
  work msgs acc (Some b) t →
  (∀ v b', u32_ok v → wf_buf b' → work msgs acc (Some b') (pay t b') → Q v (put_ast (pay t b') s)) →
  runs (on_apayload buf_getint) Q (put_ast t s).
Proof.
  intros Hw HQ. pose proof Hw as (_&_&_&_&_&Hp&Hwf&_). eapply runs_read; [exact Hp|]. apply wp_scan_int; [done|].
  intros v b' [Hwf' _] Hv. apply HQ; [done|done|by eapply work_pay].
Qed.
Lemma runs_get_bool msgs acc b (Q : Z → cliauth → Prop) t s :
  work msgs acc (Some b) t →
  (∀ v b', wf_buf b' → work msgs acc (Some b') (pay t b') → Q v (put_ast (pay t b') s)) →
  runs (on_apayload buf_getbool) Q (put_ast t s).
Proof.
  intros Hw HQ. pose proof Hw as (_&_&_&_&_&Hp&Hwf&_). eapply runs_read; [exact Hp|]. apply wp_bind, wp_scan_byte; [done|].
  intros v b' [Hwf' _]. apply wp_ret, HQ; [done|by eapply work_pay].
Qed.
Lemma runs_eatstring msgs acc b (Q : unit → cliauth → Prop) t s :
  work msgs acc (Some b) t →
  (∀ b', wf_buf b' → work msgs acc (Some b') (pay t b') → Q tt (put_ast (pay t b') s)) →
  runs (on_apayload buf_eatstring) Q (put_ast t s).
Proof.
  intros Hw HQ. pose proof Hw as (_&_&_&_&_&Hp&Hwf&_). eapply runs_read; [exact Hp|]. apply wp_buf_eatstring; [done| |done].
  intros Hl Hn. assert (Hw' : wf_buf (after_get (4 + LOAD32H (slice (b_pos b) 4 (b_data b))) b)) by (apply wf_after_get; [done|lia..]).
  apply HQ; [done|by eapply work_pay].
Qed.

Lemma work_able msgs b t : work msgs [] b t → able msgs b t.
Proof.
  intros (t0&pl&->&Hr&[(Hwf&Hp0&Hc) Hsz]&Hp&Hwfb&Hd&Hs). split_and!; try done.
  apply tr_reset; [done|done| | |done].
  - pose proof (contents_length pl Hwf) as Hl. by rewrite Hc in Hl.
  - rewrite Hp0. pose proof (contents_length pl Hwf) as Hl. by rewrite Hc in Hl.
Qed.

(** *** The requests *)

Lemma runs_head msgs b method (Q : unit → cliauth → Prop) t s :
  work msgs [] b t → bytes_ok method →
  (∀ t', work msgs (auth_request (opt_username opts) method []) b t' → Q tt (put_ast t' s)) →
  runs (put_request opts method) Q (put_ast t s).
Proof using Hname T.
  intros Hw Hm HQ. destruct Hname as [Hn _]. unfold put_request.
  apply wpf_bind. eapply runs_byte; [exact Hw|by vm_compute|]. intros t1 Hw1.
  apply wpf_bind. eapply runs_string; [exact Hw1|done|]. intros t2 Hw2.
  apply wpf_bind. eapply runs_string; [exact Hw2|decide_closed|]. intros t3 Hw3.
  eapply runs_string; [exact Hw3|done|]. intros t4 Hw4. apply HQ. unfold auth_request. rewrite app_nil_r.
  unfold enc_fields. cbn [map concat]. rewrite !app_nil_r. by rewrite <-!app_assoc in Hw4.
Qed.

Lemma auth_request_app name method rest more : auth_request name method rest ++ more = auth_request name method (rest ++ more).
Proof. unfold auth_request. by rewrite app_comm_cons, <-!app_assoc. Qed.

Lemma runs_getmethods msgs b (Q : unit → cliauth → Prop) t s :
  able msgs b t → zlen msgs < 2 ^ 31 →
  (∀ t', able (msgs ++ [auth_request (opt_username opts) (bstr "none") []]) b t' → Q tt (put_ast t' s)) →
  runs (cli_auth_getmethods opts) Q (put_ast t s).
Proof using Hname T.
  intros Ha Hm HQ. apply wpf_bind. eapply runs_head; [by apply able_work|decide_closed|]. intros t1 H1.
  eapply runs_encrypt; [exact H1|done|done|exact HQ].
Qed.

(** *** With a key *)

(** A key the client may use: its public part is valid, and with its private
    part, if it has one, it can sign. *)
Definition key_good (k : cli_key) : Prop :=
  holds_key (ck_key k) (ck_type k) ∧ 0 ≤ ck_type k < DROPBEAR_SIGNKEY_NUM_NAMED ∧
  (ck_agent k = false → signs_with (base := base) (pair := pair) (ck_key k) (sig_of (ck_type k))).

Lemma runs_signed_data msgs acc b (Q : buffer → cliauth → Prop) t s :
  work msgs acc b t →
  (∀ data, wf_buf data → contents data = enc_field (FString (contents sid)) ++ acc → Q data (put_ast t s)) →
  runs signed_data Q (put_ast t s).
Proof using Hsid.
  intros (t0&pl&->&Hr&[Hacc Hsz]&Hp&Hwf&Hd&Hs) HQ. destruct Hacc as (Hwp&_&Hc). unfold signed_data.
  apply runs_wp, wp_bind, wp_get. cbv zeta. change (ast (put_ast (wview t0 pl) s)) with (wview t0 pl).
  rewrite Hs. apply wp_bind, wp_ret. change (writepayload (pkt (wview t0 pl))) with pl.
  pose proof (u32_range (4 + b_len sid + b_len pl)).
  apply wp_bind, wp_buf_new; [|done]. intros Hmax. apply wp_bind, wp_on_new, wp_bind.
  change (buf_putbufstring sid) with (buf_putstring (contents sid)).
  eapply (proj2 (appends_string _ (contents_bytes sid Hsid))); [apply buf_acc_new; lia| |done]. intros b1 H1 _.
  change (buf_bytes pl) with (contents pl).
  eapply (proj2 (appends_bytes _ (contents_bytes pl Hwp))); [exact H1| |done]. intros b2 (Hw2&_&Hc2) _.
  apply wp_ret, HQ; [done|]. rewrite Hc2, Hc. done.
Qed.

(** A signature with the client's own key.  For the name "ssh-rsa" the code has
    no signature. *)
Lemma runs_own_sign msgs acc b key sigtype data (Q : unit → cliauth → Prop) t s :
  work msgs acc b t → key_good key → ck_agent key = false → known_sig sigtype → keytype_of sigtype = ck_type key →
  zlen acc + 4 + MAX_PUBKEY_SIZE ≤ TRANS_MAX_PAYLOAD_LEN →
  (∀ body t', let sig := sig_wire (sig_name sigtype) body in sigtype ≠ DROPBEAR_SIGNKEY_RSA →
     (regular sigtype body → SignAgree.accepted (ck_key key) sigtype (contents data) sig) →
     work msgs (acc ++ enc_field (FString sig)) b t' → Q tt (put_ast t' s)) →
  runs (on_ast (on_genpayload (buf_put_sign fuel (ck_key key) sigtype data))) Q (put_ast t s).
Proof.
  intros (t0&pl&->&Hr&Hpl&Hp&Hwf&Hd&Hs) (Hk&_&Hsign) Hown Hsig Hkt Hroom HQ. specialize (Hsign Hown).
  apply runs_ast. destruct (Z.eq_dec sigtype DROPBEAR_SIGNKEY_RSA) as [->|Hne].
  - change (keytype_of DROPBEAR_SIGNKEY_RSA) with DROPBEAR_SIGNKEY_RSA in Hkt. rewrite <-Hkt in Hk. destruct Hk as (k&Hk&_).
    apply wpf_zoom. unfold buf_put_sign. apply wpf_bind, runs_wp, wp_buf_new; [|done]. intros _.
    apply wpf_bind, runs_wp, wp_ret, wpf_bind. unfold with_blob, wpf. rewrite Z.eqb_refl, Hk. done.
  - assert (Hs2 : sig_of (ck_type key) = sigtype).
    { rewrite <-Hkt. unfold sig_of, keytype_of. destruct (sigtype =? DROPBEAR_SIGNATURE_RSA_SHA256) eqn:He;
        [by apply Z.eqb_eq in He as ->|]. by replace (sigtype =? DROPBEAR_SIGNKEY_RSA) with false by lia. }
    rewrite Hs2 in Hsign. destruct (tr_rng _ _ Hr) as [Hrng Hkeep].
    eapply runs_put_sign; [exact Hsign|exact Hrng|exact Hpl|exact Hroom|].
    intros body r pl'. cbv zeta. intros Hr' _ Hok Hpl'. apply (HQ body); [done|done|].
    exists (with_rng r t0), pl'. split_and!; try done. by apply Hkeep.
Qed.

(** A signature of the agent. *)
Lemma runs_agent_sign msgs acc b key sigtype data (Q : unit → cliauth → Prop) t s :
  work msgs acc b t → key_good key → wf_buf data → agent_ok (agent s) →
  (∀ sig a t', agent_ok a → work msgs (acc ++ enc_field (FString sig)) b t' → Q tt (put_ast t' (set_agent a s))) →
  runs (let* sigblob := buf_new MAX_PUBKEY_SIZE in
        let* sigblob := on_agent (agent_buf_sign (ck_key key) (ck_type key) data sigtype sigblob) in
        on_write (buf_putbufstring sigblob)) Q (put_ast t s).
Proof.
  intros Hw (Hk&_&_) Hdata Ha HQ. apply wpf_bind, runs_wp, wp_buf_new; [|done]. intros _.
  apply wpf_bind, runs_wp, wp_zoom. eapply wp_agent_buf_sign; [exact Ha|exact Hk|exact Hdata|by apply (buf_acc_new MAX_PUBKEY_SIZE)|].
  intros sig blob a' Ha' Hsig Hblob _. change (set_agent a' (put_ast t s)) with (put_ast t (set_agent a' s)).
  destruct Hblob as (Hwb&_&Hcb). eapply runs_write; [exact Hw|by apply (appends_bufstring blob sig)|].
  intros t' Hw'. by apply (HQ sig a').
Qed.

Lemma runs_blob msgs acc b key type (Q : unit → cliauth → Prop) t s :
  work msgs acc b t → holds_key key type →
  (∀ t', zlen (pub_blob key type) ≤ MAX_PUBKEY_SIZE → work msgs (acc ++ enc_field (FString (pub_blob key type))) b t' → Q tt (put_ast t' s)) →
  runs (on_write (buf_put_pub_key key type)) Q (put_ast t s).
Proof.
  intros (t0&pl&->&Hr&Hpl&Hrest) Hk HQ. apply runs_ast. eapply runs_put_blob; [exact Hk|exact Hpl|].
  intros pl' Hl Hpl'. apply HQ; [done|]. by exists t0, pl'.
Qed.

(** The request up to the signature. *)
Lemma runs_pubkey_head msgs b key sigtype (realsign : bool) (Q : unit → cliauth → Prop) t s :
  able msgs b t → key_good key → known_sig sigtype → keytype_of sigtype = ck_type key →
  (∀ algo t', let acc := pubkey_request (opt_username opts) algo (pub_blob (ck_key key) (ck_type key)) (if realsign then 1 else 0) in
     (sigtype ≠ DROPBEAR_SIGNKEY_RSA → signature_type_from_name algo = sigtype) →
     zlen acc + 4 + MAX_PUBKEY_SIZE ≤ TRANS_MAX_PAYLOAD_LEN → zlen (pub_blob (ck_key key) (ck_type key)) ≤ MAX_PUBKEY_SIZE →
     work msgs acc b t' →
     runs (do* when realsign (let* sigbuf := signed_data in do* cli_buf_put_sign fuel key sigtype sigbuf; modify (set_is_trivial_auth false));
           on_ast encrypt_packet) Q (put_ast t' s)) →
  runs (send_msg_userauth_pubkey opts fuel key sigtype realsign) Q (put_ast t s).
Proof using Hname T.
  intros Ha (Hk&_&_) Hsig Hkt HQ. destruct (known_sig_name sigtype Hsig) as (Hty&_&algo&Hnm&[Hab Hal]&Hback).
  unfold send_msg_userauth_pubkey. apply wpf_bind. unfold wpf at 1. rewrite Hty, Hkt. clear Hty.
  apply wpf_bind. eapply runs_head; [by apply able_work|decide_closed|]. intros t1 H1.
  apply wpf_bind. eapply runs_byte; [exact H1|by destruct realsign|]. intros t2 H2.
  apply wpf_bind. unfold wpf at 1. rewrite Hnm.
  apply wpf_bind. eapply runs_string; [exact H2|done|]. intros t3 H3.
  apply wpf_bind. eapply runs_blob; [exact H3|exact Hk|]. intros t4 Hl H4.
  set (blob := pub_blob _ _) in *. set (flag := if realsign then 1 else 0) in *.
  assert (Hacc : ((auth_request (opt_username opts) (bstr "publickey") [] ++ [flag]) ++ enc_field (FString algo)) ++ enc_field (FString blob)
    = pubkey_request (opt_username opts) algo blob flag).
  { unfold pubkey_request. rewrite !auth_request_app. f_equal. unfold enc_fields. cbn [map concat app]. by rewrite app_nil_r. }
  rewrite Hacc in H4. apply (HQ algo t4 Hback); [|done|done].
  destruct Hname as [_ Hn]. unfold pubkey_request, auth_request, MAX_PUBKEY_SIZE, TRANS_MAX_PAYLOAD_LEN in *.
  rewrite zlen_cons, zlen_app, zlen_cons, !zlen_enc_fields_cons, !string_field_length. unfold enc_fields. cbn [map concat]. rewrite zlen_nil.
  change (zlen SSH_SERVICE_CONNECTION) with 14. change (zlen (bstr "publickey")) with 9. lia.
Qed.

Lemma runs_pubkey_query msgs b key sigtype (Q : unit → cliauth → Prop) t s :
  able msgs b t → zlen msgs < 2 ^ 31 → key_good key → known_sig sigtype → keytype_of sigtype = ck_type key →
  (∀ algo t', able (msgs ++ [pubkey_request (opt_username opts) algo (pub_blob (ck_key key) (ck_type key)) 0]) b t' → Q tt (put_ast t' s)) →
  runs (send_msg_userauth_pubkey opts fuel key sigtype false) Q (put_ast t s).
Proof using Hname T.
  intros Ha Hm Hk Hsig Hkt HQ. eapply runs_pubkey_head; [exact Ha|exact Hk|exact Hsig|exact Hkt|]. cbv zeta. intros algo t1 _ _ _ H1.
  apply wpf_bind, wpf_ret. eapply runs_encrypt; [exact H1|done|done|]. intros t2. apply HQ.
Qed.

(** The signed request. *)
Lemma runs_pubkey_signed msgs b key sigtype (Q : unit → cliauth → Prop) t s :
  able msgs b t → zlen msgs < 2 ^ 31 → key_good key → known_sig sigtype → keytype_of sigtype = ck_type key → agent_ok (agent s) →
  (∀ algo sig a t', let req := pubkey_request (opt_username opts) algo (pub_blob (ck_key key) (ck_type key)) 1 in
     agent_ok a →
     (ck_agent key = false → signature_type_from_name algo = sigtype ∧
        ∃ body, sig = sig_wire (sig_name sigtype) body ∧
          (regular sigtype body → SignAgree.accepted (ck_key key) sigtype (enc_field (FString (contents sid)) ++ req) sig)) →
     zlen (pub_blob (ck_key key) (ck_type key)) ≤ MAX_PUBKEY_SIZE →
     message (req ++ enc_field (FString sig)) → able (msgs ++ [req ++ enc_field (FString sig)]) b t' →
     Q tt (put_ast t' (set_is_trivial_auth false (set_agent a s)))) →
  runs (send_msg_userauth_pubkey opts fuel key sigtype true) Q (put_ast t s).
Proof using Hname Hsid DLaw ELaw MLaw T.
  intros Ha Hm Hk Hsig Hkt Hag HQ. eapply runs_pubkey_head; [exact Ha|exact Hk|exact Hsig|exact Hkt|]. cbv zeta. intros algo t1 Hback Hroom Hl H1.
  set (req := pubkey_request _ _ _ _) in *. cbn [when]. apply wpf_bind, wpf_bind.
  eapply runs_signed_data; [exact H1|]. intros data Hwd Hcd. apply wpf_bind.
  assert (Hne : ∀ x, req ++ x ≠ []) by done.
  assert (Hend : ∀ sig a t2, agent_ok a →
     (ck_agent key = false → signature_type_from_name algo = sigtype ∧
        ∃ body, sig = sig_wire (sig_name sigtype) body ∧
          (regular sigtype body → SignAgree.accepted (ck_key key) sigtype (enc_field (FString (contents sid)) ++ req) sig)) →
     work msgs (req ++ enc_field (FString sig)) b t2 →
     runs (modify (set_is_trivial_auth false)) (λ _ s', runs (on_ast encrypt_packet) Q s') (put_ast t2 (set_agent a s))).
  { intros sig a t2 Haa Hsg H2. apply runs_wp, wp_modify.
    change (set_is_trivial_auth false (put_ast t2 (set_agent a s))) with (put_ast t2 (set_is_trivial_auth false (set_agent a s))).
    eapply runs_encrypt_message; [exact H2|done|apply Hne|]. intros t3 Hmsg H3. by apply (HQ algo sig a). }
  unfold cli_buf_put_sign. destruct (ck_agent key) eqn:Hown.
  - eapply runs_agent_sign; [exact H1|exact Hk|exact Hwd|exact Hag|]. intros sig a t2 Haa H2. by apply (Hend sig).
  - eapply runs_own_sign; [exact H1|exact Hk|exact Hown|exact Hsig|exact Hkt|exact Hroom|]. intros body t2. cbv zeta. intros Hrsa Hok H2.
    replace s with (set_agent (agent s) s) by (by destruct s). apply (Hend (sig_wire (sig_name sigtype) body)); [done| |done].
    intros _. split; [by apply Hback|]. exists body. split; [done|]. by rewrite <-Hcd.
Qed.

(** ** The server's messages *)

(** More text for the user. *)
Definition showing (text : list Z) s : cliauth := set_user (set_shown (shown (user s) ++ text) (user s)) s.

Lemma runs_show text (Q : unit → cliauth → Prop) s : Q tt (showing text s) → runs (show text) Q s.
Proof. intros HQ. apply wpf_zoom, runs_wp, wp_modify, HQ. Qed.

(** What is shown of a banner, and when it is said to be too long. *)
Definition too_long : list Z := bstr "[Banner from the server is too long]" ++ [10].
Definition banner_text (banner out : list Z) : Prop :=
  if zlen banner >? MAX_BANNER_SIZE then out = too_long
  else out = first_lines (Z.to_nat MAX_BANNER_LINES) (clean banner) ++ [10] ++ (if cut_off banner then too_long else []).

Lemma runs_banner b (Q : unit → cliauth → Prop) t s :
  payload (pkt t) = Some b → wf_buf b →
  ((authdone t || opt_quiet opts) = true → Q tt (put_ast t s)) →
  (∀ banner b1 b2 out, (authdone t || opt_quiet opts) = false → buf_getstring b = Ok (banner, b1) → banner_text banner out →
     wf_buf b2 → Q tt (put_ast (pay t b2) (showing out s))) →
  runs (recv_msg_userauth_banner opts) Q (put_ast t s).
Proof.
  intros Hp Hwf Hno HQ. apply wpf_bind, runs_wp, wp_get. change (authdone (ast (put_ast t s))) with (authdone t).
  apply wpf_if; intros H1; [apply wpf_ret, Hno; by rewrite H1|]. apply wpf_if; intros H2; [apply wpf_ret, Hno; by rewrite H2, orb_true_r|].
  assert (Hr : wp buf_getstring any_exit (λ str b', wf_buf b' ∧ buf_getstring b = Ok (str, b')) b).
  { apply wp_run, wp_scan_string; [done|]. by intros str b' [Hw' _] _ _ _. }
  apply wpf_bind. eapply runs_read; [exact Hp|]. eapply wp_mono; [exact Hr|]. clear Hr. intros banner b1 [Hw1 Hrun1].
  apply wpf_bind. eapply runs_read; [done|]. apply wp_buf_eatstring; [done| |done]. intros Hl Hn.
  assert (Hw2 : wf_buf (after_get (4 + LOAD32H (slice (b_pos b1) 4 (b_data b1))) b1)) by (apply wf_after_get; [done|lia..]).
  set (b2 := after_get _ _) in *. change (pay (pay t b1) b2) with (pay t b2).
  assert (Hend : ∀ out, banner_text banner out → Q tt (put_ast (pay t b2) (showing out s))).
  { intros out Hout. apply (HQ banner b1); [by rewrite H1, H2|done|done|done]. }
  unfold banner_text in Hend. apply wpf_bind. destruct (zlen banner >? MAX_BANNER_SIZE).
  { apply wpf_ret, runs_show. by apply (Hend too_long). }
  apply wpf_bind, runs_wp, wp_cleantext. intros Hlen. apply wpf_bind, runs_wp, wp_limit_lines; [exact Hlen|].
  intros mem Hb. apply wpf_bind, runs_show, wpf_ret. specialize (Hend _ eq_refl). rewrite Hb. destruct (cut_off banner); cbn [when].
  - apply runs_show. unfold showing in *. cbn [user set_user shown set_shown put_ast set_cli] in *. by rewrite <-!app_assoc.
  - by apply wpf_ret.
Qed.

(** What a failure leaves: the key just tried is off the list, the methods are
    those the server names, the next step is to try one of them. *)
Definition without_key s : list cli_key :=
  match lastprivkey s with
  | Some addr => match list_find (λ k, ck_addr k = addr) (privkeys s) with
                 | Some (i, _) => delete i (privkeys s)
                 | None => privkeys s
                 end
  | None => privkeys s
  end.
Definition crossed_off s s' : Prop :=
  (∃ last, s' = set_lastprivkey last (set_privkeys (without_key s) s)).

Definition failed_once (methods : list Z) (partial : Z) s s' : Prop :=
  cstate s' = USERAUTH_FAIL_RCVD ∧ lastauthtype s' = AUTH_TYPE_NONE ∧
  authtypes (castate s') = offered (allow_pw_auth opts s) methods ∧
  failcount (castate s') = (if partial =? 0 then u32 (failcount (castate s) + 1) else failcount (castate s)) ∧
  privkeys s' = (if lastauthtype s =? AUTH_TYPE_PUBKEY then without_key s else privkeys s) ∧
  auth_interact_failed s' = (auth_interact_failed s || ((lastauthtype s =? AUTH_TYPE_INTERACT) && negb (interact_request_received s))) ∧
  cli s' = cli s ∧ agent s' = agent s ∧ is_trivial_auth s' = is_trivial_auth s ∧ user s' = user s.

Lemma runs_pubkeyfail (Q : unit → cliauth → Prop) t s :
  (∀ s', crossed_off s s' → Q tt (put_ast t s')) → runs cli_pubkeyfail Q (put_ast t s).
Proof.
  intros HQ. apply runs_wp, wp_modify. change (lastprivkey (put_ast t s)) with (lastprivkey s). change (privkeys (put_ast t s)) with (privkeys s).
  unfold crossed_off, without_key in HQ. destruct (lastprivkey s) as [addr|] eqn:Hl.
  - destruct (list_find _ _) as [[i k]|]; [exact (HQ _ (ex_intro _ None eq_refl))|].
    apply HQ. exists (Some addr). destruct s. cbn in *. by subst.
  - apply HQ. exists None. destruct s. cbn in *. by subst.
Qed.

(** Reading it, once the bookkeeping is done. *)
Lemma runs_read_methods msgs b allow (Q : unit → cliauth → Prop) t s :
  able msgs (Some b) t →
  (∀ methods partial b' a, bytes_ok methods → able msgs (Some b') (pay t b') →
     (let* m := buf_getstring in let* p := buf_getbool in ret (m, p)) b = Ok ((methods, partial), b') →
     authtypes a = offered allow methods →
     failcount a = (if partial =? 0 then u32 (failcount (castate s) + 1) else failcount (castate s)) →
     Q tt (put_ast (pay t b') (set_castate a s))) →
  runs (read_methods allow) Q (put_ast t s).
Proof using T.
  intros Ha HQ. pose proof Ha as (_&Hp&Hwf&Hd&_).
  assert (Hr : wp buf_getstring any_exit (λ str b', (bytes_ok str ∧ wf_buf b') ∧ buf_getstring b = Ok (str, b')) b).
  { apply wp_run, wp_scan_string; [done|]. intros str b' [Hw' _] Hb _ _. exact (conj Hb Hw'). }
  apply wpf_bind. eapply runs_read; [exact Hp|]. eapply wp_mono; [exact Hr|]. clear Hr. intros methods b1 [[Hmb Hw1] Hrun1].
  assert (Ha1 : able msgs (Some b1) (pay t b1)) by (by apply (able_pay _ (Some b))).
  assert (Hr : wp buf_getbool any_exit (λ v b', wf_buf b' ∧ buf_getbool b1 = Ok (v, b')) b1).
  { apply wp_run, wp_bind, wp_scan_byte; [done|]. intros v b' [Hw' _]. by apply wp_ret. }
  apply wpf_bind. eapply runs_read; [exact (proj1 (proj2 Ha1))|]. eapply wp_mono; [exact Hr|]. clear Hr. intros partial b2 [Hw2 Hrun2].
  change (pay (pay t b1) b2) with (pay t b2). assert (Ha2 : able msgs (Some b2) (pay t b2)) by (by apply (able_pay _ (Some b))).
  assert (Hend : ∀ s2 a2, s2 = set_castate a2 s → failcount a2 = (if partial =? 0 then u32 (failcount (castate s) + 1) else failcount (castate s)) →
    runs (do* on_ast (modify (set_authdone false));
          let mem := map (λ c, if c =? 44 then 0 else c) methods ++ [0] in
          let* types := methods_loop (Datatypes.S (length methods)) 0 0 allow 0 mem in
          on_castate (set_authtypes types)) Q (put_ast (pay t b2) s2)).
  { intros s2 a2 -> Hf. apply wpf_bind, runs_ast, runs_wp, wp_modify. cbv zeta.
    replace (set_authdone false (pay t b2)) with (pay t b2) by (destruct t; cbn in *; by subst).
    apply wpf_bind, runs_wp, wp_methods. apply runs_wp, wp_modify.
    apply (HQ methods partial b2 (set_authtypes (offered allow methods) a2)); [done|exact Ha2| |done|done].
    unfold bind. by rewrite Hrun1, Hrun2. }
  apply wpf_bind. destruct (partial =? 0); cbn [when].
  - apply runs_wp, wp_modify. by apply (Hend (set_castate _ s) _ eq_refl).
  - apply wpf_ret. apply (Hend s (castate s)); [by destruct s|done].
Qed.

Lemma runs_failure msgs b (Q : unit → cliauth → Prop) t s :
  able msgs (Some b) t → ignore_next_auth_response s = false →
  (∀ methods partial b' s', cstate s = USERAUTH_REQ_SENT → bytes_ok methods → able msgs (Some b') (pay t b') →
     (let* m := buf_getstring in let* p := buf_getbool in ret (m, p)) b = Ok ((methods, partial), b') →
     failed_once methods partial s s' → Q tt (put_ast (pay t b') s')) →
  runs (recv_msg_userauth_failure opts) Q (put_ast t s).
Proof using T.
  intros Ha Hig HQ. pose proof Ha as (_&_&_&Hd&_). apply wpf_bind, runs_wp, wp_get.
  change (authdone (ast (put_ast t s))) with (authdone t). rewrite Hd.
  apply wpf_bind, runs_wp, wp_exit_if; [done|]. intros Hst. change (cstate (put_ast t s)) with (cstate s) in Hst.
  apply negb_false_iff, bool_decide_eq_true in Hst. change (ignore_next_auth_response (put_ast t s)) with (ignore_next_auth_response s).
  rewrite Hig. change (lastauthtype (put_ast t s)) with (lastauthtype s).
  change (interact_request_received (put_ast t s)) with (interact_request_received s).
  change (allow_pw_auth opts (put_ast t s)) with (allow_pw_auth opts s).
  assert (Hgo : ∀ s1, (∀ methods partial a, authtypes a = offered (allow_pw_auth opts s) methods →
      failcount a = (if partial =? 0 then u32 (failcount (castate s1) + 1) else failcount (castate s1)) → failed_once methods partial s (set_castate a s1)) →
    runs (read_methods (allow_pw_auth opts s)) Q (put_ast t s1)).
  { intros s1 Hf. eapply runs_read_methods; [exact Ha|]. intros methods partial b' a Hmb Ha' Hrun Ht Hc.
    by apply (HQ methods partial b'); [| | | |apply Hf]. }
  assert (Hmid : ∀ s0, privkeys s0 = (if lastauthtype s =? AUTH_TYPE_PUBKEY then without_key s else privkeys s) →
    auth_interact_failed s0 = auth_interact_failed s → cli s0 = cli s → agent s0 = agent s → is_trivial_auth s0 = is_trivial_auth s →
    user s0 = user s → castate s0 = castate s →
    runs (do* when ((lastauthtype s =? AUTH_TYPE_INTERACT) && negb (interact_request_received s)) (modify (set_auth_interact_failed true));
          do* modify (set_cstate USERAUTH_FAIL_RCVD); do* modify (set_lastauthtype AUTH_TYPE_NONE);
          read_methods (allow_pw_auth opts s)) Q (put_ast t s0)).
  { intros s0 H1 H2 H3 H4 H5 H6 H7. apply wpf_bind.
    destruct ((lastauthtype s =? AUTH_TYPE_INTERACT) && negb (interact_request_received s)) eqn:Hint; cbn [when];
      [apply runs_wp, wp_modify|apply wpf_ret]; apply wpf_bind, runs_wp, wp_modify, wpf_bind, runs_wp, wp_modify.
    - apply (Hgo (set_lastauthtype AUTH_TYPE_NONE (set_cstate USERAUTH_FAIL_RCVD (set_auth_interact_failed true s0)))).
      intros methods partial a Ht Hc. cbn [castate set_lastauthtype set_cstate set_auth_interact_failed] in Hc. rewrite H7 in Hc.
      split_and!; try done. by rewrite Hint, orb_true_r.
    - apply (Hgo (set_lastauthtype AUTH_TYPE_NONE (set_cstate USERAUTH_FAIL_RCVD s0))).
      intros methods partial a Ht Hc. cbn [castate set_lastauthtype set_cstate] in Hc. rewrite H7 in Hc.
      split_and!; try done. by rewrite Hint, orb_false_r. }
  apply wpf_bind. destruct (lastauthtype s =? AUTH_TYPE_PUBKEY) eqn:Hpk; cbn [when].
  - apply runs_pubkeyfail. intros s0 (last&->). by apply Hmid.
  - by apply wpf_ret, Hmid.
Qed.

(** *** A key the server would take *)

Lemma wp_peek_at n b (Q : list Z → buffer → Prop) :
  wf_buf b → 0 ≤ n → (∀ bs, Q bs b) → wp (let* p := buf_getptr n in mem_load p n) any_exit Q b.
Proof.
  intros Hwf Hn HQ. pose proof Hwf as (?&?&?&?). apply wp_bind, wp_buf_getptr; [done|done| |done]. intros Hle.
  apply wp_mem_load; [lia..|]. apply HQ.
Qed.

Lemma runs_match_key keytype remotelen b (Q : option cli_key → cliauth → Prop) t s :
  payload (pkt t) = Some b → wf_buf b → u32_ok remotelen →
  ∀ keys keybuf, Forall key_good keys → wf_buf keybuf →
  (∀ r, (∀ k, r = Some k → k ∈ keys ∧ ck_type k = keytype) → Q r (put_ast t s)) →
  runs (match_key keys keytype remotelen keybuf) Q (put_ast t s).
Proof.
  intros Hp Hwf Hlen keys. induction keys as [|k keys IH]; intros keybuf Hgood Hkb HQ; cbn [match_key].
  { apply wpf_ret. by apply HQ. }
  inversion Hgood as [|? ? (Hk&_&_) Hrest]; subst.
  assert (Hnext : ∀ kb, wf_buf kb → runs (match_key keys keytype remotelen kb) Q (put_ast t s)).
  { intros kb Hkb'. apply IH; [done|done|]. intros r Hr. apply HQ. intros k' Hk'. destruct (Hr k' Hk'). split; [by right|done]. }
  apply wpf_if; intros Hty; [by apply Hnext|]. apply negb_false_iff, Z.eqb_eq in Hty.
  apply wpf_bind, runs_wp, wp_on_new, wp_bind, wp_modify.
  assert (Hacc : buf_acc [] (set_pos 0 (set_len 0 keybuf))).
  { destruct Hkb as (?&?&?&?). split_and!; [|done|done]. unfold wf_buf. cbn [set_pos set_len b_pos b_len b_size b_data]. split_and!; try done; lia. }
  rewrite <-Hty. apply wp_bind. eapply wp_put_pub_key; [exact Hk|exact Hacc| |done]. intros kb1 _ (Hw1&_) _.
  apply wp_bind, wp_buf_setpos; [|done]. intros _. pose proof Hw1 as (?&?&_).
  assert (Hw2 : wf_buf (set_pos 0 kb1)) by (apply wf_set_pos; [done|lia]).
  apply wp_buf_incrpos; [done|lia| |done]. intros Hfour.
  assert (Hw3 : wf_buf (after_get 4 (set_pos 0 kb1))) by (by apply wf_after_get).
  rewrite Hty. apply wpf_if; intros _; [by apply Hnext|]. unfold u32_ok in Hlen.
  apply wpf_bind, runs_wp, wp_on_new, wp_peek_at; [done|lia|]. intros ours.
  apply wpf_bind. eapply runs_read; [exact Hp|]. apply wp_peek_at; [done|lia|]. intros theirs. rewrite <-(pay_self t b Hp).
  apply wpf_if; intros _; [by apply Hnext|]. apply wpf_ret, HQ. intros k' [= <-]. split; [by left|done].
Qed.

(** What the user gives is bytes. *)
Definition user_ok (u : cliuser) : Prop :=
  from_option bytes_ok True (env_password u) ∧ Forall (from_option bytes_ok True) (getpass_in u) ∧
  Forall (from_option bytes_ok True) (tty_in u).

(** The client's keys, and what it has of the user, the agent and the server,
    can be worked with. *)
Definition usable s : Prop :=
  Forall key_good (privkeys s) ∧ agent_ok (agent s) ∧ user_ok (user s) ∧
  ∀ q, server_sig_algs (cli s) = Some q → wf_buf q.

(** What answering leaves: nothing, or a credential sent. *)
Definition replied_with (msgs : list (list Z)) s s' : Prop :=
  ∃ msg b, able (msgs ++ [msg]) b (ast s') ∧ credential (opt_username opts) msg ∧
    usable s' ∧ cstate s' = cstate s ∧ is_trivial_auth s' = false ∧ privkeys s' = privkeys s ∧ lastauthtype s' = lastauthtype s.

Lemma runs_pk_ok msgs b (Q : unit → cliauth → Prop) t s :
  able msgs (Some b) t → zlen msgs < 2 ^ 31 → usable s →
  (∀ b', able msgs (Some b') (pay t b') → Q tt (put_ast (pay t b') s)) →
  (∀ s', replied_with msgs s s' → Q tt s') →
  runs (recv_msg_userauth_pk_ok opts fuel) Q (put_ast t s).
Proof using Hname Hsid DLaw ELaw MLaw T.
  intros Ha Hm (Hkeys&Hag&Hus&Hsig) HQ1 HQ2. unfold recv_msg_userauth_pk_ok.
  apply wpf_bind. eapply runs_get_string; [by apply able_work|]. intros algotype b1 _ Hw1 H1. cbv zeta.
  apply wpf_bind, runs_wp, wp_exit_if; [done|]. intros Hne%Z.eqb_neq. pose proof (sig_name_known algotype Hne) as Hks.
  destruct (known_sig_name _ Hks) as (Hty&_&_). apply wpf_bind. unfold wpf at 1. rewrite Hty. clear Hty.
  apply wpf_bind, runs_wp, wp_buf_new; [|done]. intros _.
  apply wpf_bind. eapply runs_get_int; [exact H1|]. intros remotelen b2 Hlen Hw2 H2.
  change (pay (pay t b1) b2) with (pay t b2) in *. apply work_able in H2.
  apply wpf_bind, runs_wp, wp_get. change (privkeys (put_ast (pay t b2) s)) with (privkeys s).
  apply wpf_bind. eapply runs_match_key; [reflexivity|exact Hw2|exact Hlen|exact Hkeys|by apply (buf_acc_new MAX_PUBKEY_SIZE)|].
  intros [k|] Hk; [|by apply wpf_ret, HQ1]. destruct (Hk k eq_refl) as [Hin Hkt].
  pose proof (proj1 (Forall_forall _ _) Hkeys k Hin) as Hgood.
  eapply runs_pubkey_signed; [exact H2|exact Hm|exact Hgood|exact Hks|by rewrite Hkt|exact Hag|].
  intros algo sig a t'. cbv zeta. intros Haa _ _ _ Hab. apply HQ2. eexists _, _. split_and!; [exact Hab| |exact (conj Hkeys (conj Haa (conj Hus Hsig)))|done..].
  apply signed.
Qed.


(** *** Questions *)

Lemma before_nul_bytes l : bytes_ok l → bytes_ok (before_nul l).
Proof. induction 1 as [|c l Hc _ IH]; cbn [before_nul]; [constructor|]. destruct (c =? 0); [constructor|by constructor]. Qed.
Lemma take_line_bytes n l : bytes_ok l → bytes_ok (take_line n l).
Proof.
  intros Hl. revert n. induction Hl as [|c l Hc _ IH]; intros [|n]; cbn [take_line]; try apply Forall_nil_2.
  destruct (c =? 10); [by apply Forall_singleton|constructor; [done|apply IH]].
Qed.

Lemma runs_getpass prompt (Q : list Z * bool → cliauth → Prop) t s :
  user_ok (user s) →
  (∀ pw fe u, bytes_ok pw → user_ok u → Q (pw, fe) (put_ast t (set_user u s))) →
  runs (getpass_or_cancel opts prompt) Q (put_ast t s).
Proof.
  intros Hu HQ. pose proof Hu as (He&Hg&Ht). apply wpf_bind, runs_wp, wp_get. change (user (put_ast t s)) with (user s).
  destruct (env_password (user s)) as [pw|] eqn:Henv.
  { apply wpf_ret. replace s with (set_user (user s) s) by (by destruct s). by apply HQ. }
  apply wpf_bind, runs_wp, wp_exit_if; [done|]. intros _. apply wpf_bind, runs_show, wpf_bind, runs_wp, wp_get.
  change (getpass_in (user (showing prompt (put_ast t s)))) with (getpass_in (user s)).
  destruct (getpass_in (user s)) as [|[pw|] rest]; [done| |done]. inversion Hg as [|? ? Hpw Hrest]; subst.
  apply wpf_bind, wpf_zoom, runs_wp, wp_modify, wpf_bind, runs_wp, wp_exit_if; [done|]. intros _.
  apply wpf_ret. apply (HQ _ false (set_getpass_in rest (set_shown (shown (user s) ++ prompt) (user s)))); [by apply before_nul_bytes|].
  split_and!; [cbn; by rewrite Henv|done|done].
Qed.

Lemma runs_response prompt (Q : list Z → cliauth → Prop) t s :
  user_ok (user s) → (∀ r u, bytes_ok r → user_ok u → Q r (put_ast t (set_user u s))) →
  runs (get_response prompt) Q (put_ast t s).
Proof.
  intros (He&Hg&Ht) HQ. apply wpf_bind, runs_show, wpf_bind, runs_wp, wp_get, wpf_bind, wpf_zoom, runs_wp, wp_modify.
  change (tty_in (user (showing prompt (put_ast t s)))) with (tty_in (user s)).
  assert (Hq : ∀ r, bytes_ok r → Q r (put_ast t (set_user (set_tty_in (tail (tty_in (user s))) (set_shown (shown (user s) ++ prompt) (user s))) s))).
  { intros r Hr. apply HQ; [done|]. split_and!; [done|done|]. by destruct (tty_in (user s)) as [|? l]; [|inversion Ht]. }
  destruct (tty_in (user s)) as [|[[|c input]|] rest]; cbn [head]; try (apply wpf_ret, Hq; constructor).
  inversion Ht as [|? ? Hin _]; subst. cbv zeta. apply wpf_ret, Hq.
  assert (Hb : bytes_ok (before_nul (take_line (Z.to_nat (DROPBEAR_MAX_CLI_PASS - 1)) (c :: input)))) by (by apply before_nul_bytes, take_line_bytes).
  destruct (bool_decide _); [by apply Forall_take|done].
Qed.

Lemma enc_fields_snoc fs f : enc_fields (fs ++ [f]) = enc_fields fs ++ enc_field f.
Proof. unfold enc_fields. by rewrite map_app, concat_app; cbn [map concat]; rewrite app_nil_r. Qed.

Lemma runs_prompts msgs n : ∀ acc l b (Q : unit → cliauth → Prop) t s,
  work msgs (acc ++ enc_fields (map FString l)) (Some b) t → user_ok (user s) →
  (∀ l' b' u t', length l' = n → work msgs (acc ++ enc_fields (map FString (l ++ l'))) (Some b') t' → user_ok u →
     Q tt (put_ast t' (set_is_trivial_auth (match n with O => is_trivial_auth s | _ => false end) (set_user u s)))) →
  runs (prompts_loop opts n) Q (put_ast t s).
Proof.
  induction n as [|n IH]; intros acc l b Q t s Hw Hu HQ; cbn [prompts_loop].
  { apply wpf_ret. replace s with (set_is_trivial_auth (is_trivial_auth s) (set_user (user s) s)) at 1 by (by destruct s).
    apply (HQ [] b); [done|by rewrite app_nil_r|done]. }
  apply wpf_bind, runs_wp, wp_modify.
  change (set_is_trivial_auth false (put_ast t s)) with (put_ast t (set_is_trivial_auth false s)). set (s1 := set_is_trivial_auth false s).
  apply wpf_bind. eapply runs_get_string; [exact Hw|]. intros prompt b1 _ _ H1.
  apply wpf_bind. unfold clean_string. apply wpf_bind, runs_wp, wp_cleantext. intros _. apply wpf_ret.
  apply wpf_bind. eapply runs_get_bool; [exact H1|]. intros echo b2 _ H2. set (t2 := pay (pay t b1) b2) in *.
  assert (Hnext : ∀ r u, bytes_ok r → user_ok u →
    runs (do* on_write (buf_putstring r); prompts_loop opts n) Q (put_ast t2 (set_user u s1))).
  { intros r u Hr Hu'. apply wpf_bind. eapply runs_string; [exact H2|done|]. intros t3 H3.
    eapply (IH acc (l ++ [r]) b2); [rewrite map_app; cbn [map]; by rewrite enc_fields_snoc, app_assoc|done|].
    intros l' b' u' t' Hl Hw' Hu''. rewrite <-app_assoc in Hw'. specialize (HQ (r :: l') b' u' t' ltac:(cbn; lia) Hw' Hu'').
    by destruct n. }
  apply wpf_bind. destruct (echo =? 0).
  - apply wpf_bind. eapply runs_getpass; [done|]. intros pw fe u Hpw Hu'. apply wpf_bind.
    assert (Hb : ∀ u', user_ok u' → runs (ret pw) (λ r s', runs (do* on_write (buf_putstring r); prompts_loop opts n) Q s') (put_ast t2 (set_user u' s1))).
    { intros u' Hu2. apply wpf_ret. by apply Hnext. }
    destruct fe; cbn [burn_password when]; [apply wpf_zoom, runs_wp, wp_modify|apply wpf_ret, Hb, Hu'].
    apply (Hb (set_env_password (Some []) u)). destruct Hu' as (?&?&?). split_and!; [constructor|done|done].
  - eapply runs_response; [done|]. intros r u Hr Hu'. by apply Hnext.
Qed.

(** What an answered request for information leaves. *)
Definition answered_with (msgs : list (list Z)) s s' : Prop :=
  ∃ l b, able (msgs ++ [SSH_MSG_USERAUTH_INFO_RESPONSE :: STORE32H (zlen l) ++ enc_fields (map FString l)]) b (ast s') ∧
    usable s' ∧ cstate s' = cstate s ∧ (is_trivial_auth s' = false → l = [] → is_trivial_auth s = false) ∧
    privkeys s' = privkeys s ∧ lastauthtype s' = lastauthtype s.

Lemma runs_show_clean text (Q : unit → cliauth → Prop) t s :
  user_ok (user s) → (∀ u, user_ok u → Q tt (put_ast t (set_user u s))) → runs (show_clean text) Q (put_ast t s).
Proof.
  intros Hu HQ. unfold show_clean. destruct (0 <? _); cbn [when].
  - unfold clean_string. apply wpf_bind, wpf_bind, runs_wp, wp_cleantext. intros _. apply wpf_ret, runs_show. by apply HQ.
  - apply wpf_ret. replace s with (set_user (user s) s) by (by destruct s). by apply HQ.
Qed.

Lemma runs_info_request msgs b (Q : unit → cliauth → Prop) t s :
  able msgs (Some b) t → zlen msgs < 2 ^ 31 → usable s → (∀ s', answered_with msgs s s' → Q tt s') →
  runs (recv_msg_userauth_info_request opts) Q (put_ast t s).
Proof using T.
  intros Ha Hm (Hkeys&Hag&Hus&Hsig) HQ. apply wpf_bind, runs_wp, wp_get, wpf_bind.
  assert (Hgo : ∀ u, user_ok u → runs (answer_info_request opts) Q (put_ast t (set_user u s))).
  { intros u Hu. apply wpf_bind, runs_wp, wp_modify. set (s2 := set_interact_request_received true (set_user u s)).
    change (set_interact_request_received true _) with (put_ast t s2).
    apply wpf_bind. eapply runs_get_string; [by apply able_work|]. intros name b1 _ _ H1.
    apply wpf_bind. eapply runs_get_string; [exact H1|]. intros instruction b2 _ _ H2.
    apply wpf_bind. eapply runs_eatstring; [exact H2|]. intros b3 _ H3.
    apply wpf_bind. eapply runs_get_int; [exact H3|]. intros num b4 Hnum _ H4.
    apply wpf_bind, runs_wp, wp_exit_if; [done|]. intros _.
    apply wpf_bind. eapply runs_byte; [exact H4|by vm_compute|]. intros t5 H5.
    apply wpf_bind. eapply runs_write; [exact H5|apply appends_int|]. intros t6 H6.
    apply wpf_bind, runs_show_clean; [done|]. intros u1 Hu1. apply wpf_bind, runs_show_clean; [done|]. intros u2 Hu2.
    apply wpf_bind. eapply (runs_prompts msgs _ _ []); [by rewrite app_nil_r|done|]. intros l b' u' t' Hl H7 Hu3.
    cbn [app] in H7. eapply runs_encrypt; [exact H7|done|done|]. intros t'' H8. apply HQ.
    unfold u32_ok in Hnum. exists l, (Some b'). split_and!; [|exact (conj Hkeys (conj Hag (conj Hu3 Hsig)))|done| |done|done].
    - replace (zlen l) with num by (unfold zlen; lia). exact H8.
    - intros Htr ->. cbn [length] in Hl. by rewrite <-Hl in Htr. }
  destruct (negb _); cbn [when]; [apply runs_show, (Hgo (set_shown _ (user s)))|apply wpf_ret].
  - done.
  - replace s with (set_user (user s) s) by (by destruct s). by apply Hgo.
Qed.

(** ** Trying the methods *)

(** What a method leaves that has sent its request: a credential, if the
    session no longer counts as trivial because of it. *)
Definition requested (msgs : list (list Z)) b s s' : Prop :=
  ∃ msg, able (msgs ++ [msg]) b (ast s') ∧ usable s' ∧ cstate s' = cstate s ∧
    (is_trivial_auth s' = false → is_trivial_auth s = false ∨ credential (opt_username opts) msg).

Lemma runs_password msgs b (Q : unit → cliauth → Prop) t s :
  able msgs b t → zlen msgs < 2 ^ 31 → usable s → (∀ s', requested msgs b s s' → Q tt s') →
  runs (cli_auth_password opts) Q (put_ast t s).
Proof using Hname T.
  intros Ha Hm (Hkeys&Hag&Hus&Hsig) HQ. apply wpf_bind. eapply runs_getpass; [done|]. intros pw fe u Hpw Hu.
  apply wpf_bind. eapply runs_head; [by apply able_work|decide_closed|]. intros t1 H1.
  apply wpf_bind. eapply runs_byte; [exact H1|by vm_compute|]. intros t2 H2.
  apply wpf_bind. eapply runs_string; [exact H2|done|]. intros t3 H3.
  apply wpf_bind. eapply runs_encrypt; [exact H3|done|done|]. intros t4 H4.
  rewrite !auth_request_app in H4. cbn [app] in H4.
  assert (Hend : ∀ u', user_ok u' → runs (modify (set_is_trivial_auth false)) Q (put_ast t4 (set_user u' s))).
  { intros u' Hu'. apply runs_wp, wp_modify, HQ. eexists. split_and!; [exact H4|exact (conj Hkeys (conj Hag (conj Hu' Hsig)))|done|].
    intros _. right. apply password. }
  apply wpf_bind. destruct fe; cbn [burn_password when]; [apply wpf_zoom, runs_wp, wp_modify|by apply wpf_ret, Hend].
  apply (Hend (set_env_password (Some []) u)). destruct Hu as (?&?&?). split_and!; [constructor|done|done].
Qed.

Lemma runs_interactive msgs b (Q : unit → cliauth → Prop) t s :
  able msgs b t → zlen msgs < 2 ^ 31 → usable s → (∀ s', requested msgs b s s' → Q tt s') →
  runs (cli_auth_interactive opts) Q (put_ast t s).
Proof using Hname T.
  intros Ha Hm Hus HQ. apply wpf_bind. eapply runs_head; [by apply able_work|decide_closed|]. intros t1 H1.
  apply wpf_bind. eapply runs_string; [exact H1|constructor|]. intros t2 H2.
  apply wpf_bind. eapply runs_string; [exact H2|constructor|]. intros t3 H3.
  apply wpf_bind. eapply runs_encrypt; [exact H3|done|done|]. intros t4 H4. apply runs_wp, wp_modify, HQ.
  eexists. split_and!; [exact H4|exact Hus|done|by left].
Qed.

Lemma sig_of_type type : 0 ≤ type < DROPBEAR_SIGNKEY_NUM_NAMED → (type =? DROPBEAR_SIGNKEY_RSA) = false →
  known_sig type ∧ keytype_of type = type ∧ (∀ S (s : S), signature_type_from_signkey type s = Ok (type, s)).
Proof.
  unfold DROPBEAR_SIGNKEY_NUM_NAMED. intros Ht Hr. split_and!; [by right| |].
  - unfold keytype_of, DROPBEAR_SIGNATURE_RSA_SHA256. by replace (type =? 101) with false by lia.
  - intros S s. unfold signature_type_from_signkey, bind. rewrite Hr. unfold DROPBEAR_SIGNKEY_NUM_NAMED.
    by replace (type <? 7) with true by lia.
Qed.

Lemma wp_sig_algs algo (Q : bool → clises → Prop) (c : clises) q :
  server_sig_algs c = Some q → wf_buf q → (∀ r, Q r c) → wp (on_sig_algs (buf_has_algo algo)) any_exit Q c.
Proof.
  intros Hq Hwf HQ. eapply wp_zoom_ptr; [exact Hq|]. apply wp_buf_has_algo_safe; [done|]. intros r.
  replace (set_server_sig_algs (Some q) c) with c by (destruct c; cbn in *; by subst). apply HQ.
Qed.

Lemma wp_usable_keys (c : clises) (Q : list cli_key * Z → clises → Prop) :
  (∀ q, server_sig_algs c = Some q → wf_buf q) → ∀ keys sigtype, Forall key_good keys →
  (∀ keys' sig', Forall key_good keys' → (∀ k rest, keys' = k :: rest → known_sig sig' ∧ keytype_of sig' = ck_type k) → Q (keys', sig') c) →
  wp (usable_keys keys sigtype) any_exit Q c.
Proof.
  intros Hwf keys. induction keys as [|k keys IH]; intros sigtype Hgood HQ; cbn [usable_keys]; [by apply wp_ret, HQ|].
  inversion Hgood as [|? ? (_&Hr&_) Hrest]; subst. apply wp_bind, wp_get.
  assert (Hnext : ∀ sig, wp (usable_keys keys sig) any_exit Q c) by (intros; by apply IH).
  assert (Htake : ∀ sig, known_sig sig → keytype_of sig = ck_type k → Q (k :: keys, sig) c).
  { intros sig H1 H2. apply HQ; [done|]. by intros ? ? [= <- <-]. }
  destruct (server_sig_algs c) as [q|] eqn:Hq.
  - apply wp_if; intros Hrsa.
    + apply Z.eqb_eq in Hrsa. apply wp_bind. eapply wp_sig_algs; [exact Hq|by apply Hwf|]. intros [|]; [|apply Hnext].
      apply wp_ret, Htake; [by left|by rewrite Hrsa].
    + destruct (sig_of_type _ Hr Hrsa) as (Hks&Hkt&Hrun). apply wp_bind. unfold wp at 1. rewrite Hrun.
      destruct (known_sig_name _ Hks) as (_&_&name&Hnm&_). apply wp_bind. unfold wp at 1. rewrite Hnm.
      apply wp_bind. eapply wp_sig_algs; [exact Hq|by apply Hwf|]. intros [|]; [|apply Hnext]. by apply wp_ret, Htake.
  - apply wp_if; intros Hrsa; [apply Hnext|]. destruct (sig_of_type _ Hr Hrsa) as (Hks&Hkt&Hrun).
    apply wp_bind. unfold wp at 1. rewrite Hrun. by apply wp_ret, Htake.
Qed.

Lemma number_keys_good loaded : ∀ addr, Forall public_key loaded → Forall key_good (number_keys addr loaded).
Proof.
  induction loaded as [|[k ty] loaded IH]; intros addr Hl; cbn [number_keys]; [constructor|].
  inversion Hl as [|? ? [Hk Hr] Hrest]; subst. constructor; [|by apply IH]. split_and!; [exact Hk|apply Hr|apply Hr|done].
Qed.

(** The keys: one is asked for, or none is left. *)
Lemma runs_auth_pubkey msgs b (Q : bool → cliauth → Prop) t s :
  able msgs b t → zlen msgs < 2 ^ 31 → usable s →
  (∀ s', requested msgs b s s' → Q true s') →
  (∀ s', usable s' → cstate s' = cstate s → is_trivial_auth s' = is_trivial_auth s → Q false (put_ast t s')) →
  runs (cli_auth_pubkey opts fuel) Q (put_ast t s).
Proof using Hname T.
  intros Ha Hm Hus HQ1 HQ2. apply wpf_bind, runs_wp, wp_get, wpf_bind.
  assert (Hgo : ∀ s1, usable s1 → cstate s1 = cstate s → is_trivial_auth s1 = is_trivial_auth s →
    runs (let* s := get in
          let* (keys, sigtype) := on_cli (usable_keys (privkeys s) DROPBEAR_SIGNATURE_NONE) in
          do* modify (set_privkeys keys);
          match keys with
          | key :: _ => do* send_msg_userauth_pubkey opts fuel key sigtype false; do* modify (set_lastprivkey (Some (ck_addr key))); ret true
          | [] => ret false
          end) Q (put_ast t s1)).
  { intros s1 (Hkeys&Hag&Hu&Hsig) Hc Htr. apply wpf_bind, runs_wp, wp_get, wpf_bind, wpf_zoom, runs_wp.
    apply wp_usable_keys; [exact Hsig|exact Hkeys|]. intros keys sig Hgood Hhead.
    change (set_cli (cli (put_ast t s1)) (put_ast t s1)) with (put_ast t s1).
    apply wpf_bind, runs_wp, wp_modify. set (s2 := set_privkeys keys s1).
    change (set_privkeys keys (put_ast t s1)) with (put_ast t s2).
    assert (Hu2 : usable s2) by exact (conj Hgood (conj Hag (conj Hu Hsig))).
    destruct keys as [|k rest]; [by apply wpf_ret, (HQ2 s2)|]. destruct (Hhead k rest eq_refl) as [Hks Hkt].
    apply wpf_bind. eapply runs_pubkey_query; [exact Ha|exact Hm|by inversion Hgood|exact Hks|exact Hkt|].
    intros algo t' H'. apply wpf_bind, runs_wp, wp_modify, wpf_ret, HQ1. eexists.
    split_and!; [exact H'|exact Hu2|exact Hc|]. intros Hfalse. left. rewrite <-Htr. exact Hfalse. }
  destruct (negb _); cbn [when]; [|apply wpf_ret; by apply (Hgo s)]. destruct Hus as (Hkeys&Hag&Hu&Hsig).
  apply wpf_bind, wpf_zoom, runs_wp, wp_load_keys; [exact Hag|]. intros loaded a Haa Hl. apply runs_wp, wp_modify.
  match goal with |- wpf _ _ _ _ ?st => change st with (put_ast t (set_agent_keys_loaded true (set_next_addr (next_addr s + zlen loaded)
    (set_privkeys (privkeys s ++ number_keys (next_addr s) loaded) (set_agent a s))))) end.
  apply Hgo; [|done|done]. split_and!; [|exact Haa|exact Hu|exact Hsig]. apply Forall_app. split; [exact Hkeys|by apply number_keys_good].
Qed.

(** The packets can be looked up. *)
Definition has_cipher t : Prop := ∃ k c, keys t = Some k ∧ algo_crypt (k_trans k) = Some c.

Lemma runs_encrypting (Q : bool → cliauth → Prop) t s :
  has_cipher t → (∀ r, Q r (put_ast t s)) → runs encrypting Q (put_ast t s).
Proof.
  intros (k&c&Hk&Hc) HQ. apply wpf_bind, runs_wp, wp_get. change (keys (ast (put_ast t s))) with (keys t). rewrite Hk.
  apply wpf_bind, wpf_ret. rewrite Hc. apply wpf_bind, wpf_ret, wpf_ret, HQ.
Qed.

Lemma requested_same msgs b s s0 s' : requested msgs b s0 s' → cstate s0 = cstate s → is_trivial_auth s0 = is_trivial_auth s → requested msgs b s s'.
Proof. intros (msg&H1&H2&H3&H4) Hc Ht. exists msg. split_and!; [done|done|congruence|]. intros H. rewrite <-Ht. by apply H4. Qed.

Lemma runs_auth_try msgs b (Q : bool → cliauth → Prop) t s :
  able msgs b t → zlen msgs < 2 ^ 31 → usable s → has_cipher t →
  (∀ s', requested msgs b s s' → Q true s') → (∀ s', Q false s') →
  runs (cli_auth_try opts fuel) Q (put_ast t s).
Proof using Hname T.
  intros Ha Hm Hus Hci HQ1 HQ2. apply wpf_bind, runs_wp, wp_get.
  set (p := has_type (put_ast t s) AUTH_TYPE_PUBKEY). set (i := has_type (put_ast t s) AUTH_TYPE_INTERACT).
  set (w := has_type (put_ast t s) AUTH_TYPE_PASSWORD).
  (* once a request is out nothing follows *)
  assert (Hdone : ∀ s', requested msgs b s s' → Q true s') by exact HQ1.
  assert (Hpass : ∀ s0, usable s0 → cstate s0 = cstate s → is_trivial_auth s0 = is_trivial_auth s →
    runs (if negb false && opt_password_authentication opts && w then
            let* enc := encrypting in
            if negb enc then do* show (bstr "Sorry, I won't let you use password auth unencrypted." ++ [10]); ret false
            else do* cli_auth_password opts; do* modify (set_lastauthtype AUTH_TYPE_PASSWORD); ret true
          else ret false) Q (put_ast t s0)).
  { intros s0 Hu0 Hc0 Ht0. apply wpf_if; intros _; [|by apply wpf_ret, HQ2]. apply wpf_bind, runs_encrypting; [done|]. intros enc.
    apply wpf_if; intros _; [apply wpf_bind, runs_show, wpf_ret, HQ2|].
    apply wpf_bind. eapply runs_password; [exact Ha|exact Hm|exact Hu0|]. intros s' Hs'. apply wpf_bind, runs_wp, wp_modify, wpf_ret.
    apply Hdone. eapply requested_same; [|exact Hc0|exact Ht0]. exact Hs'. }
  assert (Hrest : ∀ s0, usable s0 → cstate s0 = cstate s → is_trivial_auth s0 = is_trivial_auth s →
    runs (let* finished :=
            (if negb false && opt_password_authentication opts && i then
               let* enc := encrypting in
               if negb enc then do* show (bstr "Sorry, I won't let you use interactive auth unencrypted." ++ [10]); ret false
               else let* s := get in
                 if negb (auth_interact_failed s) then do* cli_auth_interactive opts; do* modify (set_lastauthtype AUTH_TYPE_INTERACT); ret true
                 else ret false
             else ret false) in
          if negb finished && opt_password_authentication opts && w then
            let* enc := encrypting in
            if negb enc then do* show (bstr "Sorry, I won't let you use password auth unencrypted." ++ [10]); ret false
            else do* cli_auth_password opts; do* modify (set_lastauthtype AUTH_TYPE_PASSWORD); ret true
          else ret finished) Q (put_ast t s0)).
  { intros s0 Hu0 Hc0 Ht0. apply wpf_bind, wpf_if; intros _; [|by apply wpf_ret, Hpass].
    apply wpf_bind, runs_encrypting; [done|]. intros enc. apply wpf_if; intros _.
    { apply wpf_bind, runs_show, wpf_ret. by apply (Hpass (showing _ s0)). }
    apply wpf_bind, runs_wp, wp_get. apply wpf_if; intros _; [|by apply wpf_ret, Hpass].
    apply wpf_bind. eapply runs_interactive; [exact Ha|exact Hm|exact Hu0|]. intros s' Hs'. apply wpf_bind, runs_wp, wp_modify, wpf_ret.
    cbn [negb andb]. apply wpf_ret, Hdone. eapply requested_same; [|exact Hc0|exact Ht0]. exact Hs'. }
  apply wpf_bind, wpf_if; intros _; [|by apply wpf_ret, Hrest].
  apply wpf_bind. eapply runs_auth_pubkey; [exact Ha|exact Hm|exact Hus| |].
  - intros s' Hs'. apply wpf_bind, runs_wp, wp_modify, wpf_ret. cbn [negb andb]. apply wpf_bind, wpf_ret. by apply wpf_ret, Hdone.
  - intros s0 Hu0 Hc0 Ht0. apply wpf_bind, runs_wp, wp_modify, wpf_ret. by apply (Hrest (set_lastauthtype AUTH_TYPE_PUBKEY s0)).
Qed.
End client.
