(* ===== verification/CliAuthHistory.v ===== *)
(** * The client's authentication as a history of events

    Over every order in which a server's messages and the steps of the session
    loop can come: what has been sent when the client counts itself as
    authenticated. *)

From Stdlib Require Import ZArith Lia.
From stdpp Require Import base list strings.
From S2P Require Import Prelude.
From S2P Require Import Buffer.
From S2P Require Import Random.
From S2P Require Import Algo.
From S2P Require Import Cipher.
From S2P Require Import KeyTypes.
From S2P Require Import Ecc.
From S2P Require Import SignKey.
From S2P Require Import KeyInstances.
From S2P Require Import SignKeyRead.
From S2P Require Import SignVerify.
From S2P Require Import SignAgree.
From S2P Require Import Session.
From S2P Require Import Packet.
From S2P Require Import Transport.
From S2P Require Import Instances.
From S2P Require Import Kex.
From S2P Require Import KexMethods.
From S2P Require Import KexShare.
From S2P Require Import KnownHosts.
From S2P Require Import SvrAuth.
From S2P Require Import SvrKex.
From S2P Require Import CliKex.
From S2P Require Import KexPeer.
From S2P Require Import KexReply.
From S2P Require Import CliAgent.
From S2P Require Import CliAgentSafe.
From S2P Require Import CliAuth.
From S2P Require Import CliAuthText.
From S2P Require Import ProcessPacket.
From S2P Require Import SvrAuthSafe.
From S2P Require Import CliAuthSafe.

(** The handlers, and the step of the loop. *)
Inductive auth_event := EBanner | EFailure | ESuccess | ESpecific60 | ELoop.
#[global] Instance auth_event_eq_dec : EqDecision auth_event.
Proof. solve_decision. Defined.

Section history.
Context {CL : CryptoLib} {ready : list (list Z) → sshsession → Prop} {T : Transport ready}.
Context {ML : MpLib} {MLaw : MpLaws ML} {EL : EccLib} {base : ecc_curve → Z → point} {ELaw : EccLaws EL base}
  {DL : Ed25519Lib} {pair : list Z → list Z → Prop} {DLaw : Ed25519Laws DL pair}
  (opts : auth_runopts) (fuel : nat) (opened running : ST cliauth unit) (sid : buffer) (Hsid : wf_buf sid) (Hname : name_ok opts).
Implicit Types (s : cliauth) (t : sshsession) (msgs : list (list Z)) (e : auth_event).
#[local] Abbreviation runs m Q s := (wpf m any_exit (λ w, w = "fuel"%string) Q s).

Definition run_event e : ST cliauth unit :=
  match e with
  | EBanner => recv_msg_userauth_banner opts
  | EFailure => recv_msg_userauth_failure opts
  | ESuccess => recv_msg_userauth_success opts
  | ESpecific60 => recv_msg_userauth_specific_60 opts fuel
  | ELoop => cli_state_switch opts fuel opened running
  end.

(** A message is handled with its packet at hand; the loop runs with the keys
    of the connection. *)
Definition event_ready e s : Prop :=
  match e with
  | ELoop => has_cipher (ast s)
  | _ => is_Some (payload (pkt (ast s)))
  end.

(** The transport layer at work: packets are received, keys exchanged, at most
    [m] messages sent; the session stays the same and not authenticated, and
    a list of signature algorithms may have come in. *)
Definition moved (m : Z) s s' : Prop :=
  ∃ c, s' = set_cli c s ∧ (∀ q, server_sig_algs c = Some q → wf_buf q) ∧
    ∀ msgs b, able (ready := ready) sid msgs b (ast s) → ∃ new b', zlen new ≤ m ∧ able (ready := ready) sid (msgs ++ new) b' (cst c).

(** The states of a client that is not in yet, with a bound on the messages
    sent since the keys were first exchanged. *)
Inductive history : Z → cliauth → Prop :=
| H_start s0 s b : cli_session_init s0 = Ok (tt, s) → able (ready := ready) sid [] b (ast s) → usable (base := base) (pair := pair) s → history 0 s
| H_moved k m s s' : history k s → 0 ≤ m → moved m s s' → history (k + m) s'
| H_event k s e s' : history k s → event_ready e s → e ≠ ESuccess → run_event e s = Ok (tt, s') → history (k + 2) s'.

Definition known (k : Z) s : Prop :=
  ∃ msgs b, zlen msgs ≤ k ∧ able (ready := ready) sid msgs b (ast s) ∧ usable (base := base) (pair := pair) s ∧
    (is_trivial_auth s = false → Exists (credential (opt_username opts)) msgs) ∧
    (cstate s = STATE_NOTHING ∨ cstate s = USERAUTH_REQ_SENT ∨ cstate s = USERAUTH_FAIL_RCVD).

Lemma runs_self {A} (m : ST cliauth A) Q s : runs m Q (put_ast (ast s) s) → runs m Q s.
Proof. by rewrite <-put_ast_self. Qed.

(** Handlers that send at most one message more. *)
Lemma known_more k msgs msg b s' :
  zlen msgs ≤ k → able (ready := ready) sid (msgs ++ [msg]) b (ast s') → usable (base := base) (pair := pair) s' →
  (is_trivial_auth s' = false → Exists (credential (opt_username opts)) msgs ∨ credential (opt_username opts) msg) →
  (cstate s' = STATE_NOTHING ∨ cstate s' = USERAUTH_REQ_SENT ∨ cstate s' = USERAUTH_FAIL_RCVD) → known (k + 2) s'.
Proof.
  intros Hk Ha Hu Htr Hc. exists (msgs ++ [msg]), b. split_and!; try done.
  - rewrite zlen_app, zlen_cons, zlen_nil. lia.
  - intros Hf. apply Exists_app. destruct (Htr Hf); [by left|right; by constructor].
Qed.

Lemma known_same k msgs b s' :
  zlen msgs ≤ k → able (ready := ready) sid msgs b (ast s') → usable (base := base) (pair := pair) s' →
  (is_trivial_auth s' = false → Exists (credential (opt_username opts)) msgs) →
  (cstate s' = STATE_NOTHING ∨ cstate s' = USERAUTH_REQ_SENT ∨ cstate s' = USERAUTH_FAIL_RCVD) → known (k + 2) s'.
Proof. intros Hk Ha Hu Htr Hc. exists msgs, b. split_and!; try done. lia. Qed.
Lemma event_banner k s : known k s → event_ready EBanner s → runs (recv_msg_userauth_banner opts) (λ _ s', known (k + 2) s') s.
Proof using T.
  intros (msgs&b&Hk&Ha&Hu&Htr&Hc) [b0 Hb]. pose proof Ha as (_&Hp&Hwf&_). rewrite Hb in Hp. subst b. apply runs_self.
  eapply runs_banner; [exact Hb|exact Hwf| |].
  - intros _. by eapply known_same.
  - intros banner b1 b2 out _ _ _ Hwf2. eapply known_same; [exact Hk| |exact Hu|exact Htr|exact Hc]. by eapply able_pay.
Qed.

(** The list of keys only gets shorter. *)
Lemma without_key_good s : Forall (key_good (base := base) (pair := pair)) (privkeys s) → Forall (key_good (base := base) (pair := pair)) (without_key s).
Proof.
  intros H. unfold without_key. destruct (lastprivkey s); [|done]. destruct (list_find _ _) as [[i k]|]; [|done].
  by apply Forall_delete.
Qed.

Lemma event_failure k s : known k s → event_ready EFailure s → runs (recv_msg_userauth_failure opts) (λ _ s', known (k + 2) s') s.
Proof using T.
  intros (msgs&b&Hk&Ha&Hu&Htr&Hc) [b0 Hb]. pose proof Ha as (_&Hp&Hwf&Hd&_). rewrite Hb in Hp. subst b. apply runs_self.
  destruct (ignore_next_auth_response s) eqn:Hig.
  - apply wpf_bind, runs_wp, wp_get. change (authdone (ast (put_ast (ast s) s))) with (authdone (ast s)). rewrite Hd.
    apply wpf_bind, runs_wp, wp_exit_if; [done|]. intros _. change (ignore_next_auth_response (put_ast (ast s) s)) with (ignore_next_auth_response s).
    rewrite Hig. apply wpf_bind, runs_wp, wp_modify, runs_wp, wp_modify. eapply known_same; [exact Hk|exact Ha|exact Hu|exact Htr|by right; left].
  - eapply runs_failure; [exact Ha|exact Hig|]. intros methods partial b' s' _ _ Ha' _ (H1&_&_&_&H5&_&H7&H8&H9&H10).
    destruct Hu as (Hkeys&Hag&Hus&Hsig). eapply known_same; [exact Hk|exact Ha'| | |by right; right].
    + split_and!; cbn; [rewrite H5; destruct (_ =? _); [by apply without_key_good|done]|by rewrite H8|by rewrite H10|by rewrite H7].
    + intros Hf. apply Htr. by rewrite <-H9.
Qed.

Lemma event_specific_60 k s : known k s → k + 2 < 2 ^ 31 → event_ready ESpecific60 s →
  runs (recv_msg_userauth_specific_60 opts fuel) (λ _ s', known (k + 2) s') s.
Proof using All.
  intros (msgs&b&Hk&Ha&Hu&Htr&Hc) Hm [b0 Hb]. pose proof Ha as (_&Hp&Hwf&Hd&_). rewrite Hb in Hp. subst b. apply runs_self.
  apply wpf_bind, runs_wp, wp_get. apply wpf_if; intros _; [|apply wpf_if; intros _; [|by apply wpf_if; intros _]].
  - eapply runs_pk_ok; [exact Hsid|exact Hname|exact Ha|lia|exact Hu| |].
    + intros b' Ha'. eapply known_same; [exact Hk|exact Ha'|exact Hu|exact Htr|exact Hc].
    + intros s' (msg&b'&Ha'&Hcred&Hu'&Hc'&_). eapply known_more; [exact Hk|exact Ha'|exact Hu'|by right|by rewrite Hc'].
  - eapply runs_info_request; [exact Ha|lia|exact Hu|]. intros s' (l&b'&Ha'&Hu'&Hc'&Htr'&_).
    eapply known_more; [exact Hk|exact Ha'|exact Hu'| |by rewrite Hc']. intros Hf. destruct l as [|x l]; [by left; auto|].
    right. by apply answers.
Qed.

(** The service is asked for, and the methods. *)
Lemma runs_service_request msgs b name (Q : unit → cliauth → Prop) t s :
  able (ready := ready) sid msgs b t → zlen msgs < 2 ^ 31 → bytes_ok name →
  (∀ t', able (ready := ready) sid (msgs ++ [SSH_MSG_SERVICE_REQUEST :: enc_field (FString name)]) b t' → Q tt (put_ast t' s)) →
  runs (send_msg_service_request name) Q (put_ast t s).
Proof using T.
  intros Ha Hm Hn HQ. apply wpf_bind. eapply runs_byte; [by apply able_work|by vm_compute|]. intros t1 H1.
  apply wpf_bind. eapply runs_string; [exact H1|exact Hn|]. intros t2 H2. eapply runs_encrypt; [exact H2|exact Hm|done|exact HQ].
Qed.

Lemma event_loop k s : known k s → k + 2 < 2 ^ 31 → event_ready ELoop s →
  runs (cli_state_switch opts fuel opened running) (λ _ s', known (k + 2) s') s.
Proof using All.
  intros (msgs&b&Hk&Ha&Hu&Htr&Hc) Hm Hci. cbn [event_ready] in Hci. apply runs_self.
  apply wpf_bind, runs_wp, wp_get. change (cstate (put_ast (ast s) s)) with (cstate s).
  destruct Hc as [Hc|[Hc|Hc]]; rewrite Hc.
  - apply wpf_bind. eapply runs_service_request; [exact Ha|lia|decide_closed|]. intros t1 H1.
    apply wpf_bind. eapply runs_getmethods; [exact Hname|exact H1|rewrite zlen_app, zlen_cons, zlen_nil; lia|]. intros t2 H2.
    apply runs_wp, wp_modify. rewrite <-app_assoc in H2. eexists _, b. split_and!; [|exact H2|exact Hu| |by right; left].
    + rewrite zlen_app. change (zlen ([_] ++ [_])) with 2. lia.
    + intros Hf. apply Exists_app. left. by apply Htr.
  - apply wpf_ret. eapply known_same; [exact Hk|exact Ha|exact Hu|exact Htr|by right; left].
  - apply wpf_bind. eapply runs_auth_try; [exact Hname|exact Ha|lia|exact Hu|exact Hci| |].
    + intros s' (msg&Ha'&Hu'&Hc'&Htr'). apply wpf_bind, runs_wp, wp_exit_if; [done|]. intros _. apply runs_wp, wp_modify.
      eapply known_more; [exact Hk|exact Ha'|exact Hu'| |by right; left]. intros Hf. destruct (Htr' Hf); [left; by apply Htr|by right].
    + intros s'. apply wpf_bind, runs_wp, wp_exit_if; done.
Qed.

Lemma event_known k s e : known k s → k + 2 < 2 ^ 31 → event_ready e s → e ≠ ESuccess → runs (run_event e) (λ _ s', known (k + 2) s') s.
Proof using All.
  intros. destruct e; [by apply event_banner|by apply event_failure|done|by apply event_specific_60|by apply event_loop].
Qed.

Lemma client_history_known k s : history k s → k < 2 ^ 31 → known k s.
Proof using All.
  induction 1 as [s0 s b Hi Ha Hu|k m s s' Hh IH Hm (c&->&Hq&Hmv)|k s e s' Hh IH He Hne Hrun]; intros Hk.
  - exists [], b. split_and!; [done|done|done| |left]; injection Hi as <-; done.
  - destruct (IH ltac:(lia)) as (msgs&b&Hl&Ha&(H1&H2&H3&_)&Htr&Hc). destruct (Hmv msgs b Ha) as (new&b'&Hn&Ha').
    exists (msgs ++ new), b'. split_and!; [|done|by split_and!| |done].
    + rewrite zlen_app. lia.
    + intros Hf. apply Exists_app. left. by apply Htr.
  - pose proof (event_known k s e (IH ltac:(lia)) Hk He Hne) as H. unfold wpf in H. by rewrite Hrun in H.
Qed.
(** A success counts unless it was too easy. *)
Lemma event_success k s : known k s → runs (recv_msg_userauth_success opts) (λ _ s',
    authdone (ast s') = true ∧ cstate s' = USERAUTH_SUCCESS_RCVD ∧ privkeys s' = [] ∧ lastauthtype s' = AUTH_TYPE_NONE ∧
    (opt_disable_trivial_auth opts = true → is_trivial_auth s = false)) s.
Proof.
  intros _. apply wpf_bind, runs_wp, wp_get, wpf_bind, runs_wp, wp_exit_if; [done|]. intros Htr.
  apply wpf_bind, runs_wp, wp_zoom, wp_zoom, wp_modify, wpf_bind, runs_wp, wp_modify, wpf_bind, runs_wp, wp_modify.
  apply wpf_bind, runs_wp, wp_get, wpf_bind, runs_wp, wp_exit_if; [done|]. intros _.
  apply wpf_bind, runs_wp, wp_zoom, wp_modify, runs_wp, wp_modify. split_and!; [done..|].
  intros Hd. by rewrite Hd in Htr.
Qed.

(** C5: the client and a server that is not to be trusted.  Whatever messages
    arrive, in whatever order, and however the steps of the session loop fall
    between them, no handler reads or writes outside its data (a handler may
    end the session); only SSH_MSG_USERAUTH_SUCCESS makes the client believe it
    is in, its list of keys is then empty, and if the user asked for
    DisableTrivialAuth, then by that moment the client has sent a signature, a
    password, or answers to a list of questions that was not empty. *)
Theorem client_auth_sound k s e :
  history k s → k + 2 < 2 ^ 31 → event_ready e s →
  runs (run_event e) (λ _ s',
    authdone (ast s') = bool_decide (e = ESuccess) ∧
    (e = ESuccess → cstate s' = USERAUTH_SUCCESS_RCVD ∧ privkeys s' = [] ∧
       ∃ msgs, zlen msgs ≤ k ∧ ready msgs (ast s) ∧
         (opt_disable_trivial_auth opts = true → Exists (credential (opt_username opts)) msgs))) s.
Proof using All.
  intros Hh Hm He. pose proof (client_history_known k s Hh ltac:(lia)) as Hk. destruct (decide (e = ESuccess)) as [->|Hne].
  - eapply wpf_mono; [by apply (event_success k)|]. intros [] s' (H1&H2&H3&_&H4). split; [done|]. intros _. split_and!; [done|done|].
    destruct Hk as (msgs&b&Hl&(Hr&_)&_&Htr&_). exists msgs. split_and!; [done|done|]. intros Hd. by apply Htr, H4.
  - eapply wpf_mono; [by apply event_known|]. intros [] s' (msgs&b&_&(_&_&_&Hd&_)&_). by rewrite bool_decide_eq_false_2.
Qed.
End history.

(** A login with a key: the methods are asked for, "publickey" is what the
    server offers, the key is asked for, and its signature is enough. *)
Definition toy_cliopts : auth_runopts :=
  mkauthopts (bstr "alice") (bstr "example.org") false false true true (-1) false.
Definition toy_clikey : cli_key := mkclikey 0 toy_ed_key DROPBEAR_SIGNKEY_ED25519 false.
Definition toy_cliauth : @cliauth toy_lib :=
  mkcliauth (mkclises (toy_got (buf_of [], 0) false) None None None None KEX_NOTHING None (mkhosts None false 0))
    (mkauth None 0 0 false (0, 0) 0 0 0 None None None None None)
    STATE_NOTHING 0 true false false false None [toy_clikey] 1 false (mkagent (-1) [] [] [])
    (mkuser None [] [] []).
Definition toy_run : auth_event → ST (@cliauth toy_lib) unit :=
  run_event (ML := int_mp) (EL := toy_ecc) (DL := toy_ed25519) toy_cliopts 10 (ret tt) (ret tt).
Definition toy_message (packet : list Z) (s : @cliauth toy_lib) : @cliauth toy_lib :=
  set_cli (set_cst (pay (cst (cli s)) (buf_of packet)) (cli s)) s.
Definition toy_offer : list Z := wire_string (bstr "publickey,password") ++ [0].
Definition toy_pk_ok : list Z := enc_fields [FString (bstr "ssh-ed25519"); FString (pub_blob toy_ed_key DROPBEAR_SIGNKEY_ED25519)].

Abbreviation toy_history := (history (ready := toy_ready) (ML := int_mp) (EL := toy_ecc) (base := λ c _, toy_base c) (DL := toy_ed25519)
  (pair := λ _ _, True) toy_cliopts 10 (ret tt) (ret tt) toy_sid).

Lemma toy_moves k packet s : toy_history k s → bytes_ok packet → zlen packet ≤ 1000 →
  (∀ q, server_sig_algs (cli s) = Some q → wf_buf q) → toy_history k (toy_message packet s).
Proof.
  intros Hh Hp Hl Hq. replace k with (k + 0) by lia. eapply H_moved; [exact Hh|done|].
  exists (set_cst (pay (cst (cli s)) (buf_of packet)) (cli s)). split_and!; [done|exact Hq|].
  intros msgs b Ha. exists [], (Some (buf_of packet)). split; [done|]. rewrite app_nil_r. eapply able_pay; [exact Ha|].
  apply wf_buf_of; [done|]. unfold BUF_MAX_SIZE. lia.
Qed.

(** Packets that come in, each with the event it leads to. *)
Definition toy_settled (s : @cliauth toy_lib) : bool :=
  match server_sig_algs (cli s), keys (ast s) with
  | None, Some k => match algo_crypt (k_trans k) with Some _ => true | None => false end
  | _, _ => false
  end.
Fixpoint toy_drive (l : list (auth_event * list Z)) (s : @cliauth toy_lib) : option cliauth :=
  match l with
  | [] => Some s
  | (e, packet) :: l =>
      if toy_settled s && bool_decide (e ≠ ESuccess) && bool_decide (bytes_ok packet) && (zlen packet <=? 1000) then
        match toy_run e (toy_message packet s) with Ok (_, s') => toy_drive l s' | _ => None end
      else None
  end.

Lemma toy_event_ready e packet s : toy_settled s = true → event_ready e (toy_message packet s).
Proof.
  intros Hs. destruct e; try by eexists. unfold toy_settled in Hs. destruct (server_sig_algs _); [done|].
  destruct (keys (ast s)) as [k|] eqn:Hk; [|done]. destruct (algo_crypt (k_trans k)) as [c|] eqn:Hc; [|done]. by exists k, c.
Qed.

Lemma toy_drive_history l : ∀ k s s', toy_history k s → toy_drive l s = Some s' → toy_history (k + 2 * zlen l) s'.
Proof.
  induction l as [|[e packet] l IH]; intros k s s' Hh Hd; cbn [toy_drive] in Hd.
  { injection Hd as <-. replace (k + 2 * zlen []) with k by (unfold zlen; cbn; lia). done. }
  destruct (_ && _) eqn:Hc in Hd; [|done]. apply andb_prop in Hc as [[[Hs He%bool_decide_eq_true]%andb_prop Hp%bool_decide_eq_true]%andb_prop Hl%Z.leb_le].
  destruct (toy_run e _) as [[[] s1]|?|?] eqn:Hrun in Hd; [|done..].
  replace (k + 2 * zlen ((e, packet) :: l)) with (k + 2 + 2 * zlen l) by (rewrite zlen_cons; lia).
  eapply IH; [|exact Hd]. eapply H_event; [eapply toy_moves; [exact Hh|done|done|]|by apply toy_event_ready|done|exact Hrun].
  unfold toy_settled in Hs. by destruct (server_sig_algs _).
Qed.

Lemma toy_clikey_good : key_good (base := λ c _, toy_base c) (pair := λ _ _, True) toy_clikey.
Proof. split; [apply toy_holds|]. split; [done|]. intros _. split; [done|]. eexists. split; [done|]. split; [|done]. split; [done|decide_closed]. Qed.

Lemma toy_begins : match cli_session_init toy_cliauth with Ok (_, s) => toy_history 0 s | _ => False end.
Proof.
  destruct (cli_session_init toy_cliauth) as [[[] s]|?|?] eqn:H; [|done..]. pose proof H as H0. injection H as <-. eapply H_start; [exact H0|..].
  - split_and!; [by apply toy_clear_ready|done|apply wf_buf_of; [decide_closed|by apply Z.leb_le]|done|done].
  - split_and!; [apply Forall_singleton, toy_clikey_good|..]; try done; constructor.
Qed.

Definition toy_login_events : list (auth_event * list Z) :=
  [(ELoop, []); (EFailure, toy_offer); (ELoop, []); (ESpecific60, toy_pk_ok)].

Lemma client_auth_sound_witness :
  match cli_session_init toy_cliauth with
  | Ok (_, s0) =>
      match toy_drive toy_login_events s0 with
      | Some s =>
          match toy_run ESuccess s with
          | Ok (_, s') => authdone (ast s') = true ∧ ∃ msgs, zlen msgs ≤ 8 ∧ toy_ready msgs (ast s) ∧ Exists (credential (bstr "alice")) msgs
          | _ => False
          end
      | None => False
      end
  | _ => False
  end.
Proof.
  pose proof toy_begins as Hh.
  assert (Hrun : match cli_session_init toy_cliauth with
    | Ok (_, s0) => match toy_drive toy_login_events s0 with
        | Some s => match toy_run ESuccess s, payload (pkt (ast s)) with Ok _, Some _ => true | _, _ => false end
        | None => false end
    | _ => false end = true) by (by vm_compute).
  destruct (cli_session_init toy_cliauth) as [[[] s0]|?|?]; try done.
  destruct (toy_drive toy_login_events s0) as [s|] eqn:Hd; try done.
  apply (toy_drive_history _ _ _ _ Hh) in Hd.
  destruct (toy_run ESuccess s) as [[[] s']|?|?] eqn:Hs; try done. destruct (payload (pkt (ast s))) eqn:Hp; [|done].
  pose proof (client_auth_sound (T := toy_transport) (MLaw := int_mp_laws) (ELaw := toy_ecc_laws) (DLaw := toy_ed25519_laws)
    toy_cliopts 10 (ret tt) (ret tt) toy_sid ltac:(apply wf_buf_of; [decide_closed|by apply Z.leb_le]) ltac:(split; [decide_closed|done])
    8 s ESuccess Hd ltac:(done) ltac:(by eexists)) as H.
  unfold wpf in H. change (run_event toy_cliopts 10 (ret tt) (ret tt) ESuccess s) with (toy_run ESuccess s) in H. rewrite Hs in H. destruct H as [Ha Hb]. destruct (Hb eq_refl) as (_&_&msgs&Hl&Hr&Hc).
  split; [done|]. exists msgs. split_and!; [done|done|by apply Hc].
Defined.
