(* ===== verification/PubkeyLogin.v ===== *)
(** * A login with a key, from the client's request to the server's answer

    The two programs put together: the message that
    [send_msg_userauth_pubkey] (src/src/cli-authpubkey.c) signs and sends is
    one that [recv_msg_userauth_request] (src/src/svr-auth.c,
    svr-authpubkey.c) of a server with the same session id accepts, when the
    user may log in and the key is listed. *)

From Stdlib Require Import ZArith Lia.
From stdpp Require Import base list strings.
From S2P Require Import Prelude.
From S2P Require Import Buffer.
From S2P Require Import Random.
From S2P Require Import Algo.
From S2P Require Import Cipher.
From S2P Require Import KeyTypes.
From S2P Require Import Ecc.
From S2P Require Import SignKey.
From S2P Require Import KeyInstances.
From S2P Require Import SignKeyRead.
From S2P Require Import SignVerify.
From S2P Require Import SignAgree.
From S2P Require Import Session.
From S2P Require Import Packet.
From S2P Require Import Transport.
From S2P Require Import Instances.
From S2P Require Import Kex.
From S2P Require Import KexMethods.
From S2P Require Import KexShare.
From S2P Require Import KnownHosts.
From S2P Require Import SvrAuth.
From S2P Require Import AuthOptions.
From S2P Require Import AuthKeys.
From S2P Require Import AuthLines.
From S2P Require Import SvrKex.
From S2P Require Import CliKex.
From S2P Require Import KexPeer.
From S2P Require Import KexReply.
From S2P Require Import KexHandshake.
From S2P Require Import ProcessPacket.
From S2P Require Import SvrAuthSafe.
From S2P Require Import CliAgent.
From S2P Require Import CliAgentSafe.
From S2P Require Import CliAuth.
From S2P Require Import CliAuthSafe.
From S2P Require Import CliAuthHistory.

Section server.
Context {CL : CryptoLib} {ready : list (list Z) → sshsession → Prop} {T : Transport ready}.
Context {ML : MpLib} {EL : EccLib} {DL : Ed25519Lib} (env : auth_env) {OK : AuthEnvOk env}.
Implicit Types (s : svrses) (t : sshsession).

(** The user exists, may log in, and is the one the session is about, if there
    is one yet. *)
Definition user_may (name : list Z) (pw : passwd) s : Prop :=
  zlen name ≤ MAX_USERNAME_LEN ∧ before_nul name = name ∧ getpwnam env name = Some pw ∧ may_login env pw ∧
  checkusername_failed (authstate s) = false ∧
  (username (authstate s) = None ∨ username (authstate s) = Some name ∧ pw_of env (authstate s) (Some pw)).

Lemma user_checks name pw (Q : bool → svrses → Prop) s :
  user_may name pw s →
  (∀ a, pw_of env a (Some pw) → authtypes a = authtypes (authstate s) → failcount a = failcount (authstate s) →
     Q true (set_authstate a s)) → wp (checkusername env name) no_exit Q s.
Proof.
  intros (Hl&Hnul&Hget&[Hmay Hshell]&Hcf&Hcase) HQ. apply wp_if; intros Hlong; [lia|].
  apply wp_bind, wp_exit_if; intros Hn; [rewrite Hnul, Z.eqb_refl in Hn; done|]. apply wp_bind, wp_gets, wp_bind.
  assert (Hend : ∀ a, pw_of env a (Some pw) → checkusername_failed a = false →
    authtypes a = authtypes (authstate s) → failcount a = failcount (authstate s) →
    wp (let* a := auth in
        if checkusername_failed a then ret false
        else match pw_name a with
        | None => cached_failure
        | Some pwname =>
            if negb (user_allowed env a pwname) then cached_failure
            else let* shell := ptr (pw_shell a) in
                 if shell_allowed env shell then ret true else cached_failure
        end) no_exit Q (set_authstate a s)).
  { intros a Hpw Hf Ht Hfc. apply wp_bind, wp_gets. cbn [authstate set_authstate]. rewrite Hf.
    pose proof Hpw as ([= H1 H2]&[= H3 H4]&[= H5 H6]). rewrite H5, H4.
    unfold user_allowed. rewrite H1, H2, Hmay. cbn [negb]. apply wp_bind, wp_ret. rewrite Hshell. by apply wp_ret, HQ. }
  destruct Hcase as [Hu|[Hu Hpw]]; rewrite Hu.
  - apply wp_bind, wp_bind, wp_modify. rewrite Hget. apply wp_modify, wp_modify. apply (Hend (set_username (Some name) (set_pw pw _ (clear_pw (authstate s))))); [|done..].
    split_and!; [done|done|]. unfold stored_hash, set_pw, set_username. cbn [pw_name pw_passwd]. destruct (p_passwd pw) as [h|]; [|done].
    destruct (bytes_eqb h (bstr "x")); [|done]. by destruct (getspnam env (p_name pw)).
  - apply wp_exit_if; intros Hne; [unfold bytes_eqb in Hne; by rewrite bool_decide_eq_true_2 in Hne|].
    replace s with (set_authstate (authstate s) s) at 1 by (by destruct s). by apply Hend.
Qed.

(** The user's authorized_keys can be read, one of its lines lets the key in,
    and none is nothing but blanks. *)
Definition key_allowed (pw : passwd) (algo keyblob : list Z) : Prop :=
  seteuid_ok env = true ∧ revert_euid_ok env = true ∧
  checkpubkeyperms (stat env) (p_uid pw) (Some (p_dir pw)) (authorized_keys_dir env) = true ∧
  ∃ file, read_file env (authorized_keys_filepath (authorized_keys_dir env) (Some (p_dir pw))) = Some file ∧
    (∀ line, line_of MAX_AUTHKEYS_LINE line file → readable line → forallb is_blank line = false) ∧
    ∃ o, line_allows (SvrAuth.base64_decode env) (errno_einval env) algo keyblob file o.

Lemma key_checks algo keyblob pw (Q : option PubKeyOptions → svrses → Prop) s :
  pw_of env (authstate s) (Some pw) → key_allowed pw algo keyblob → algo ∈ signkey_names → (∀ o, Q (Some o) s) →
  wp (checkpubkey env algo keyblob) no_exit Q s.
Proof using OK.
  intros ([= Hu Hg]&[= Hd _]&_) (H1&H2&H3&file&Hf&Hblank&o&Ho) [Hplain Hl]%signkey_name_plain HQ.
  apply wp_bind, wp_gets, wp_bind. rewrite H1. apply wp_exit_if; intros ?; [done|]. cbv zeta. rewrite Hu, Hd.
  apply wp_bind. rewrite H2. apply wp_exit_if; intros ?; [done|]. rewrite H3, Hf.
  assert (Hnamed : named_blob algo keyblob) by (destruct Ho as (line&_&_&_&_&_&_&_&_&_&_&_&(_&_&Hn)&_); exact Hn).
  eapply wp_exit_mono; [apply (wp_search_keys _ _ _ (ae_base64 (env := env))); [by eapply ae_file|by eapply ae_chars|done|done|]|].
  - intros [o'|] Hr; [apply HQ|]. by destruct (Hr o).
  - intros e [Hno|(line&Hin&Hrd&Hb)]; [done|]. by rewrite (Hblank line) in Hb.
Qed.

(** The process can become the user. *)
Definition may_become (pw : passwd) s : Prop :=
  (uid s = 0 → setgroups_ok env = true ∧ setuid_ok env = true) ∧ (uid s ≠ 0 → uid s = p_uid pw) ∧ close_fails env = false.

Lemma login_succeeds msgs pw (Q : unit → svrses → Prop) s :
  ready msgs (stp s) → zlen msgs < 2 ^ 31 → pw_of env (authstate s) (Some pw) → may_become pw s →
  (∀ s', authdone (stp s') = true → uid s' = p_uid pw → Q tt s') →
  wp (send_msg_userauth_success env) no_exit Q s.
Proof.
  intros Hr Hm ([= Hpu _]&_) (Hroot&Hself&Hclose) HQ.
  assert (Hmsg : wp (put_fields [(buf_putbyte SSH_MSG_USERAUTH_SUCCESS, [SSH_MSG_USERAUTH_SUCCESS])] encrypt_packet) no_exit (λ _ _, True) (stp s)).
  { eapply wp_message_last; [exact Hr|exact Hm|apply Forall_singleton; by apply puts_byte|by vm_compute|done]. }
  cbn [put_fields foldr fst] in Hmsg. apply wp_bind_inv in Hmsg.
  apply wp_bind, wp_stp. eapply wp_mono; [exact Hmsg|]. cbn beta. intros [] t Ht. apply wp_bind, wp_stp.
  eapply wp_mono; [exact Ht|]. cbn beta. intros [] t' _. apply wp_bind, wp_stp, wp_modify.
  assert (Hend : ∀ s', authdone (stp s') = true → uid s' = p_uid pw →
    wp (do* modify (set_allowprivport true); let* s := get in svr_close env (childpipe s)) no_exit Q s').
  { intros s' Hd Hu. apply wp_bind, wp_modify, wp_bind, wp_get. apply wp_if; intros _; [by apply wp_ret, HQ|].
    apply wp_bind, wp_modify. rewrite Hclose. by apply wp_ret, HQ. }
  apply wp_bind, wp_bind, wp_get, wp_bind. cbn [stp set_stp set_authdone authdone]. apply wp_ret. apply wp_if; intros Huid.
  - apply Z.eqb_eq in Huid. destruct (Hroot Huid) as [-> ->]. apply wp_bind, wp_ret, wp_bind.
    assert (Hset : ∀ s', authdone (stp s') = true → wp (do* exit_if (negb true) "Error changing user"; modify (set_uid (pw_uid (authstate s)))) no_exit
        (λ _ s', wp (do* modify (set_allowprivport true); let* s := get in svr_close env (childpipe s)) no_exit Q s') s').
    { intros s' Hs'. apply wp_bind, wp_ret, wp_modify. apply Hend; [done|exact Hpu]. }
    destruct (utmp_gid env); [apply wp_when; intros _; [apply wp_modify|]|apply wp_ret]; by apply Hset.
  - apply Z.eqb_neq in Huid. cbn [uid set_stp] in Huid. apply wp_exit_if; intros Hne.
    + cbn [uid set_stp authstate] in Hne. rewrite Hpu, (Hself Huid), Z.eqb_refl in Hne. done.
    + apply Hend; [done|by apply Hself].
Qed.
(** A first method of two is done: the password is left. *)
Definition partial_success : list Z := SSH_MSG_USERAUTH_FAILURE :: wire_string (bstr "password") ++ [1].

Lemma partial_failure msgs (Q : unit → svrses → Prop) s :
  ready msgs (stp s) → zlen msgs < 2 ^ 31 → authtypes (authstate s) = AUTH_TYPE_PASSWORD → failcount (authstate s) ≤ maxauthtries env →
  (∀ t, ready (msgs ++ [partial_success]) t → authdone t = authdone (stp s) → Q tt (set_stp t s)) →
  wp (send_msg_userauth_failure env true false) no_exit Q s.
Proof using T.
  intros Hr Hm Ht Hf HQ. apply wp_bind, wp_gets. rewrite Ht. apply wp_bind, wp_stp.
  assert (H : wp (put_fields (failure_fields false true true) encrypt_packet) no_exit
    (λ _ t, ready (msgs ++ [partial_success]) t ∧ authdone t = authdone (stp s)) (stp s)).
  { eapply wp_message_last; [exact Hr|exact Hm| |by vm_compute|].
    - unfold failure_fields. rewrite !Forall_cons. cbn [fst snd].
      split_and!; [by apply puts_byte|apply puts_string; [decide_closed|done]|by apply puts_byte|constructor].
    - intros t Ht' Hq. split; [exact Ht'|exact (f_equal authdone Hq)]. }
  change AUTH_TYPE_PASSWORD with (types false true). unfold wp in *. rewrite failure_msg_fields.
  destruct (put_fields _ _ _) as [[[] t]|?|?]; [|done..]. destruct H as [Hr' Hd].
  change (wp (do* when false (do* failure_delay; on_auth (λ a, set_failcount (u32 (failcount a + 1)) a));
     let* a := auth in exit_if (failcount a >? maxauthtries env) "Max auth tries reached - user '%s'") no_exit Q (set_stp t s)).
  apply wp_bind, wp_ret, wp_bind, wp_gets. cbn [authstate set_stp]. apply wp_exit_if; intros ?; [lia|]. by apply HQ.
Qed.

(** What the login comes to, of a session with the methods [types0] left and
    the process run by [uid0]: with two methods asked for, the other one is
    still to come. *)
Definition login_result (pw : passwd) (msgs : list (list Z)) (types0 uid0 : Z) s' : Prop :=
  if multiauthmethod env && (types0 =? types true true) then
    authdone (stp s') = false ∧ uid s' = uid0 ∧ authtypes (authstate s') = AUTH_TYPE_PASSWORD ∧
    ready (msgs ++ [partial_success]) (stp s')
  else authdone (stp s') = true ∧ uid s' = p_uid pw.

(** The message [p] has just come in, in the session [sid] (a hash, of at most
    64 bytes) in which [msgs] were sent; the key may still be used to log in
    and the failures so far are not too many. *)
Definition request_in (sid p : list Z) (msgs : list (list Z)) s : Prop :=
  zlen sid ≤ 64 ∧ payload (pkt (stp s)) = Some (set_pos 1 (buf_of p)) ∧ payload_beginning (pkt (stp s)) = 0 ∧
  (∃ b, session_id (kexdat (stp s)) = Some b ∧ wf_buf b ∧ contents b = sid) ∧
  authdone (stp s) = false ∧ banner s = None ∧ ready msgs (stp s) ∧ zlen msgs < 2 ^ 31 ∧
  (∃ w, authtypes (authstate s) = types true w) ∧ failcount (authstate s) ≤ maxauthtries env.

(** The rest of the packet is [bs]. *)
Lemma rest_fields b f rest : wf_buf b → sig_at b (enc_field f ++ rest) →
  let b' := after_get (zlen (enc_field f)) b in
  at_cursor b (enc_field f) ∧ sig_at b' rest ∧ wf_buf b'.
Proof.
  intros Hwf [Hat Hl]. cbv zeta. apply at_cursor_app in Hat as [H1 H2]; [|done]. split; [done|]. split; [split; [done|]|].
  - rewrite zlen_app in Hl. cbn [after_get set_pos b_len b_pos]. lia.
  - destruct H1 as [H1 _]. apply wf_after_get; [done|apply zlen_nonneg|done].
Qed.

Lemma rest_fields_blob b bs rest : wf_buf b → sig_at b (bs ++ rest) → at_cursor b bs ∧ at_cursor (after_get (zlen bs) b) rest.
Proof. intros Hwf [Hat _]. by apply at_cursor_app in Hat. Qed.

Lemma payload_string str rest b (Q : list Z → svrses → Prop) s :
  payload (pkt (stp s)) = Some b → wf_buf b → sig_at b (enc_field (FString str) ++ rest) → field_ok (FString str) →
  (∀ b', wf_buf b' → sig_at b' rest → (b_len b', b_data b') = (b_len b, b_data b) → Q str (spv s b')) → wp (on_spayload buf_getstring) no_exit Q s.
Proof.
  intros Hp Hwf Hat Hf HQ. destruct (rest_fields _ _ _ Hwf Hat) as (H1&H2&H3). eapply wp_spayload; [exact Hp|].
  apply (wp_at_string str); [done|done|exact H1|]. by apply HQ.
Qed.

Lemma payload_true rest b (Q : Z → svrses → Prop) s :
  payload (pkt (stp s)) = Some b → wf_buf b → sig_at b (1 :: rest) →
  (∀ b', wf_buf b' → sig_at b' rest → (b_len b', b_data b') = (b_len b, b_data b) → Q 1 (spv s b')) → wp (on_spayload buf_getbool) no_exit Q s.
Proof.
  intros Hp Hwf Hat HQ. change (1 :: rest) with (enc_field (FBool true) ++ rest) in Hat. destruct (rest_fields _ _ _ Hwf Hat) as (H1&H2&H3).
  eapply wp_spayload; [exact Hp|]. apply wp_bind. pose proof H1 as [Hl Hs]. change (zlen (enc_field (FBool true))) with 1 in *.
  apply wp_buf_getbyte; [done| |intros; lia]. intros _.
  rewrite Hs. by apply wp_ret, HQ.
Qed.
Lemma with_public_flags key type into f : set_sk_flags_mask f (with_public key type into) = with_public key type (set_sk_flags_mask f into).
Proof.
  unfold with_public. destruct (type =? DROPBEAR_SIGNKEY_RSA); [done|]. destruct (is_ecc type); [|done].
  unfold set_ecckey. by repeat case_match.
Qed.

(** The key is read back, the signature is over the request as it was sent. *)
Lemma signature_checks key sigtype sid req sig o pw msgs (Q : unit → svrses → Prop) b4 s :
  let type := keytype_of sigtype in
  let blob := pub_blob key type in
  writable type → holds_key key type → zlen blob ≤ MAX_PUBKEY_SIZE →
  SignAgree.accepted key sigtype (enc_field (FString sid) ++ req) sig →
  b_data b4 = req ++ enc_field (FString sig) → b_len b4 = zlen (b_data b4) → zlen (b_data b4) + 4 + zlen sid ≤ BUF_MAX_SIZE → sig_at b4 (blob ++ enc_field (FString sig)) → wf_buf b4 →
  payload (pkt (stp s)) = Some b4 → payload_beginning (pkt (stp s)) = 0 →
  (∃ b, session_id (kexdat (stp s)) = Some b ∧ wf_buf b ∧ contents b = sid) →
  authdone (stp s) = false → ready msgs (stp s) → zlen msgs < 2 ^ 31 →
  (∃ w, authtypes (authstate s) = types true w) → failcount (authstate s) ≤ maxauthtries env →
  pw_of env (authstate s) (Some pw) → may_become pw s → (∀ s', login_result pw msgs (authtypes (authstate s)) (uid s) s' → Q tt s') →
  wp (verify_pubkey env sigtype type o) no_exit Q s.
Proof.
  cbv zeta. intros Hw Hk Hlen Hacc Hdata Hfull Hroom Hat Hwf Hp Hbeg (sb&Hsb&Hwsb&Hcsb) Hdone Hr Hm (w&Htypes) Hfc Hpw Hbecome HQ.
  set (type := keytype_of sigtype) in *. set (blob := pub_blob key type) in *. destruct Hat as [Hat Hl].
  apply at_cursor_app in Hat as [Hat1 Hat2]; [|done]. rewrite zlen_app in Hl.
  assert (Hwf5 : wf_buf (after_get (zlen blob) b4)) by (apply wf_after_get; [done|apply zlen_nonneg|apply Hat1]).
  set (b5 := after_get (zlen blob) b4) in *.
  apply wp_bind. eapply wp_spayload; [exact Hp|]. apply (wp_get_pub_blob key type); [done|done|done|by right|done|exact Hat1|].
  cbn [negb]. fold b5. apply wp_bind, wp_stp.
  pose proof (contents_length sb Hwsb) as Hlsb. rewrite Hcsb in Hlsb. pose proof (zlen_nonneg req).
  pose proof (zlen_nonneg (enc_field (FString sig))). pose proof (zlen_nonneg blob).
  assert (Hpos5 : b_pos b5 = zlen req) by (rewrite Hfull, Hdata, zlen_app in Hl; cbn [b5 after_get set_pos b_pos]; lia).
  rewrite Hdata, zlen_app in Hroom. assert (Hbeg5 : payload_beginning (pkt (stp (spv s b5))) = 0) by exact Hbeg.
  eapply (wp_sign_data sb Hwsb no_exit _ _ b5); [done|done|fold blob b5; rewrite Hbeg5; lia|exact Hsb|lia|].
  fold blob b5. intros data Hwd _ Hcd. replace (set_stp (stp (spv s b5)) (spv s b5)) with (spv s b5) by done.
  assert (Hcd' : contents data = enc_field (FString sid) ++ req).
  { rewrite Hcd, Hcsb, Hbeg5, Hpos5. cbn [enc_field]. rewrite <-app_assoc. do 2 f_equal. rewrite Z.sub_0_r.
    change (b_data b5) with (b_data b4). rewrite Hdata, slice_app_l by lia. apply slice_full. }
  apply wp_bind. eapply wp_spayload; [done|]. rewrite with_public_flags.
  eapply wp_mono; [eapply Hacc; [exact Hcd'|exact Hwf5|split; [exact Hat2|]]|].
  { cbn [b5 after_get set_pos b_pos b_len]. lia. }
  intros ok b6 ->. cbn beta. apply wp_bind, wp_modify. set (s6 := set_authstate _ _).
  assert (Hs6 : authtypes (authstate s6) = types true w ∧ failcount (authstate s6) = failcount (authstate s) ∧
    pw_of env (authstate s6) (Some pw) ∧ ready msgs (stp s6)).
  { do 3 (split; [unfold s6; cbn [authstate set_authstate]; by destruct (pubkey_options _)|]). by eapply tr_same. }
  assert (Hkeep6 : authdone (stp s6) = false ∧ uid s6 = uid s ∧ may_become pw s6) by (split; [exact Hdone|split; [done|exact Hbecome]]).
  clearbody s6. destruct Hs6 as (Ht6&Hf6&Hpw6&Hr6), Hkeep6 as (Hd6&Hu6&Hb6).
  rewrite Htypes in HQ. unfold login_result in HQ.
  apply wp_bind, wp_gets. rewrite Ht6. destruct (multiauthmethod env); [destruct w|].
  - change (negb _) with true. cbn [andb]. apply wp_bind, wp_modify.
    eapply partial_failure; [by eapply tr_same|exact Hm|cbn [authstate set_authstate authtypes set_authtypes]; by rewrite Ht6|cbn; lia|].
    intros t Ht Hdt. apply HQ. cbn [stp set_stp uid authstate set_authstate authtypes set_authtypes andb Z.eqb].
    rewrite Ht6. split_and!; [by rewrite Hdt|done|done|exact Ht].
  - change (negb _) with false. cbn [andb]. eapply login_succeeds; [exact Hr6|exact Hm|exact Hpw6|exact Hb6|]. intros; by apply HQ.
  - cbn [andb]. eapply login_succeeds; [exact Hr6|exact Hm|exact Hpw6|exact Hb6|]. intros; by apply HQ.
Qed.
(** The request of a client, with a signature that checks, lets it in. *)
Lemma request_accepted name algo key sigtype keyname sid sig pw msgs (Q : unit → svrses → Prop) s :
  let type := keytype_of sigtype in
  let blob := pub_blob key type in
  let req := pubkey_request name algo blob 1 in
  known_sig sigtype → signature_type_from_name algo = sigtype → signature_type_from_name algo ≠ DROPBEAR_SIGNATURE_NONE →
  writable type → holds_key key type → zlen blob ≤ MAX_PUBKEY_SIZE → bytes_ok name →
  signkey_name_from_type type tt = Ok (keyname, tt) →
  SignAgree.accepted key sigtype (enc_field (FString sid) ++ req) sig →
  message (req ++ enc_field (FString sig)) → request_in sid (req ++ enc_field (FString sig)) msgs s →
  user_may name pw s → key_allowed pw keyname blob → may_become pw s →
  (∀ s', login_result pw msgs (authtypes (authstate s)) (uid s) s' → Q tt s') →
  wp (recv_msg_userauth_request env) no_exit Q s.
Proof.
  cbv zeta. intros Hks Hback Hne Hw Hk Hlen Hname Hkn Hacc [Hpb Hpl] (Hroom&Hp&Hbeg&Hsid&Hd&Hban&Hr&Hm&Htypes&Hfc) Huser Hkey Hbecome HQ.
  destruct (known_sig_name sigtype Hks) as (Hty&_&_). destruct (key_type_known algo Hne) as ([Hab Hal]&kt&kn&_&_&Hkt&Hknm).
  assert (kt = keytype_of sigtype) as -> by (specialize (Hkt unit tt); rewrite Hback, Hty in Hkt; congruence).
  assert (kn = keyname) as -> by (specialize (Hknm unit tt); congruence).
  set (type := keytype_of sigtype) in *. set (blob := pub_blob key type) in *. set (req := pubkey_request name algo blob 1) in *.
  set (p := req ++ enc_field (FString sig)) in *. unfold TRANS_MAX_PAYLOAD_LEN in Hpl.
  assert (Hp0 : p = [SSH_MSG_USERAUTH_REQUEST] ++ enc_field (FString name) ++ enc_field (FString SSH_SERVICE_CONNECTION) ++
    enc_field (FString (bstr "publickey")) ++ 1 :: enc_field (FString algo) ++ enc_field (FString blob) ++ enc_field (FString sig)).
  { unfold p, req, pubkey_request, auth_request, enc_fields. cbn [map concat]. rewrite !app_nil_r. cbn [app]. rewrite <-!app_assoc. cbn [app]. by rewrite <-!app_assoc. }
  pose proof Huser as (Hnl&_). unfold MAX_USERNAME_LEN in Hnl. pose proof (zlen_nonneg p). pose proof (zlen_nonneg sid).
  set (b0 := set_pos 1 (buf_of p)) in *.
  assert (Hat0 : wf_buf b0 ∧ sig_at b0 (enc_field (FString name) ++ enc_field (FString SSH_SERVICE_CONNECTION) ++
    enc_field (FString (bstr "publickey")) ++ 1 :: enc_field (FString algo) ++ enc_field (FString blob) ++ enc_field (FString sig))).
  { assert (Hwf : wf_buf (buf_of p)) by (apply wf_buf_of; [done|unfold BUF_MAX_SIZE; lia]).
    assert (Hone : b0 = after_get (zlen [SSH_MSG_USERAUTH_REQUEST]) (buf_of p)) by done.
    assert (Hat : at_cursor (buf_of p) p) by (split; [cbn; lia|apply slice_full]). rewrite Hp0 in Hat at 2.
    assert (Hfull : ∀ l, p = [SSH_MSG_USERAUTH_REQUEST] ++ l → b_len (buf_of p) = 1 + zlen l) by (intros l Hl; cbn [buf_of b_len]; rewrite Hl at 1; by rewrite zlen_app).
    apply Hfull in Hp0 as Hlen0. rewrite Hone.
    apply at_cursor_app in Hat as [[H1 _] H2]; [|done]. split; [by apply wf_after_get|]. split; [done|].
    cbn [after_get set_pos b_len b_pos buf_of] in *. change (zlen [SSH_MSG_USERAUTH_REQUEST]) with 1. lia. }
  destruct Hat0 as [Hwf0 Hat0]. assert (Hdata0 : (b_len b0, b_data b0) = (zlen p, p)) by done. clearbody b0.
  apply wp_bind, wp_gettime. intros now rest. apply wp_bind, wp_modify. set (s0 := set_authstate _ _). apply wp_bind, wp_get.
  change (authdone (stp s0)) with (authdone (stp s)). rewrite Hd. change (banner s0) with (banner s). rewrite Hban. apply wp_bind, wp_ret.
  apply wp_bind. eapply payload_string; [exact Hp|exact Hwf0|exact Hat0|split; [done|unfold MAX_STRING_LEN; lia]|]. intros b1 Hwf1 Hat1 Hd1.
  apply wp_bind. eapply payload_string; [reflexivity|exact Hwf1|exact Hat1|split; [decide_closed|done]|]. intros b2 Hwf2 Hat2 Hd2.
  apply wp_bind. eapply payload_string; [reflexivity|exact Hwf2|exact Hat2|split; [decide_closed|done]|]. intros b3 Hwf3 Hat3 Hd3.
  apply wp_bind, wp_ret. apply wp_bind.
  eapply (user_checks name pw); [exact Huser|]. intros a Hpw Hta Hfa. apply wp_bind, wp_gets. cbv zeta.
  change (bytes_eqb (bstr "publickey") (bstr "none")) with false. change (bytes_eqb (bstr "publickey") (bstr "password")) with false.
  rewrite andb_false_r. change (bytes_eqb (bstr "publickey") (bstr "publickey")) with true. cbn beta iota.
  set (s3 := set_authstate a _). assert (Hs3 : s3 = spv (set_authstate a s0) b3) by done. rewrite Hs3. clear s3 Hs3. set (s3 := set_authstate a s0) in *.
  apply wp_bind. eapply payload_true; [reflexivity|exact Hwf3|exact Hat3|]. intros b4 Hwf4 Hat4 Hd4. cbv zeta.
  apply wp_bind. eapply payload_string; [reflexivity|exact Hwf4|exact Hat4|split; [done|unfold MAX_STRING_LEN; lia]|]. intros b5 Hwf5 Hat5 Hd5.
  pose proof (zlen_nonneg blob). unfold MAX_PUBKEY_SIZE in Hlen.
  assert (Hint : enc_field (FString blob) ++ enc_field (FString sig) = enc_field (FInt (zlen blob)) ++ blob ++ enc_field (FString sig)).
  { cbn [enc_field]. by rewrite <-app_assoc. }
  rewrite Hint in Hat5. destruct (rest_fields _ _ _ Hwf5 Hat5) as (Hat5i&Hat6&Hwf6). change (zlen (enc_field (FInt (zlen blob)))) with (zlen (STORE32H (zlen blob))) in Hat6, Hwf6.
  rewrite STORE32H_length in Hat6, Hwf6.
  apply wp_bind. eapply wp_spayload; [reflexivity|]. apply (wp_at_int (zlen blob)); [done|cbn; unfold u32_ok; lia|exact Hat5i|].
  set (b6 := after_get 4 b5) in *. destruct (rest_fields_blob _ _ _ Hwf6 Hat6) as [[Hle Hsl] _].
  apply wp_bind. eapply (wp_spayload _ _ _ _ b6); [reflexivity|]. apply wp_bind, wp_buf_getptr; [done|lia| |intros; lia]. intros _.
  apply wp_mem_load; [destruct Hwf6 as (?&?&?&?); lia..|]. rewrite Hsl. cbn [negb]. destruct (Z.eqb_spec (signature_type_from_name algo) DROPBEAR_SIGNATURE_NONE); [done|].
  apply wp_bind. eapply wp_of_run; [apply Hkt|]. apply wp_bind. eapply wp_of_run; [apply Hknm|]. cbn beta.
  apply wp_bind. eapply (key_checks _ _ pw); [exact Hpw|exact Hkey|exact (signkey_name_listed _ _ (Hknm unit tt))|]. intros o. change (1 =? 0) with false. cbn iota. rewrite Hback.
  assert (Hdata6 : (b_len b6, b_data b6) = (zlen p, p)) by (transitivity (b_len b5, b_data b5); [done|congruence]).
  apply pair_equal_spec in Hdata6 as [Hlen6 Hdata6].
  eapply (signature_checks key sigtype sid req sig o pw msgs _ b6);
    [done|done|done|exact Hacc|exact Hdata6|rewrite Hdata6; exact Hlen6|rewrite Hdata6; fold p; unfold BUF_MAX_SIZE; lia|exact Hat6|exact Hwf6|reflexivity|exact Hbeg|exact Hsid|exact Hd|by eapply tr_same|exact Hm| | |exact Hpw|exact Hbecome|].
  - destruct Htypes as [w Htw]. exists w. etransitivity; [exact Hta|exact Htw].
  - etransitivity; [apply Z.eq_le_incl; exact Hfa|exact Hfc].
  - intros s' Hs'. apply HQ. change (login_result pw msgs (authtypes a) (uid s) s') in Hs'. rewrite Hta in Hs'. exact Hs'.
Qed.
End server.

Section login.
Context {CL : CryptoLib} {ready : list (list Z) → sshsession → Prop} {T : Transport ready}.
Context {ML : MpLib} {MLaw : MpLaws ML} {EL : EccLib} {base : ecc_curve → Z → point} {ELaw : EccLaws EL base}
  {DL : Ed25519Lib} {pair : list Z → list Z → Prop} {DLaw : Ed25519Laws DL pair}.

Lemma key_good_writable key : key_good (base := base) (pair := pair) key → ck_agent key = false → writable (ck_type key).
Proof.
  intros (_&Ht&Hs) Hown. specialize (Hs Hown). split; [done|]. unfold sig_of in Hs. unfold DROPBEAR_SIGNKEY_NUM_NAMED in Ht.
  unfold signkey_is_sk, DROPBEAR_SIGNKEY_SK_ECDSA_NISTP256, DROPBEAR_SIGNKEY_SK_ED25519.
  destruct (Z.eq_dec (ck_type key) 4) as [H|H4]; [rewrite H in Hs; destruct Hs as [Hs _]; by vm_compute in Hs|].
  destruct (Z.eq_dec (ck_type key) 6) as [H|H6]; [rewrite H in Hs; destruct Hs as [Hs _]; by vm_compute in Hs|]. lia.
Qed.

(** C6: a key logs in.  The client signs with a private key of its own and
    sends one message.  Take any server with the same session id that receives
    this message, for a user who exists, may log in and has the key in
    authorized_keys: some line of the file allows it, and no line is nothing
    but blanks.  It finds the signature right and goes on without any exit.
    If it asks for one method, it ends with the client authenticated and the
    process running as that user.  If it asks for two (option -t) and the
    password is still to come, it answers partial success, leaves only the
    password and keeps the client out; with the password done before, the
    client is in.  The order of an ECDSA curve is prime. *)
Theorem pubkey_login opts fuel sid msgs b key sigtype keyname t s :
  wf_buf sid → name_ok opts → able (ready := ready) sid msgs b t → zlen msgs < 2 ^ 31 → agent_ok (agent s) →
  key_good (base := base) (pair := pair) key → ck_agent key = false → known_sig sigtype → keytype_of sigtype = ck_type key →
  prime_order sigtype → signkey_name_from_type (ck_type key) tt = Ok (keyname, tt) →
  wpf (send_msg_userauth_pubkey opts fuel key sigtype true) any_exit (λ w, w = "fuel"%string) (λ _ s', ∃ p,
    able (ready := ready) sid (msgs ++ [p]) b (ast s') ∧ is_trivial_auth s' = false ∧ credential (opt_username opts) p ∧
    ∀ env (svr : svrses) pw sent, AuthEnvOk env → request_in (ready := ready) env (contents sid) p sent svr →
      user_may env (opt_username opts) pw svr → key_allowed env pw keyname (pub_blob (ck_key key) (ck_type key)) →
      may_become env pw svr →
      ∃ svr', recv_msg_userauth_request env svr = Ok (tt, svr') ∧
        if multiauthmethod env && (authtypes (authstate svr) =? Z.lor AUTH_TYPE_PUBKEY AUTH_TYPE_PASSWORD) then
          authdone (stp svr') = false ∧ uid svr' = uid svr ∧ authtypes (authstate svr') = AUTH_TYPE_PASSWORD ∧
          ready (sent ++ [partial_success]) (stp svr')
        else authdone (stp svr') = true ∧ uid svr' = p_uid pw)
    (put_ast t s).
Proof.
  intros Hsid Hname Ha Hm Hag Hgood Hown Hks Hkt Hprime Hkn.
  eapply runs_pubkey_signed; [exact Hsid|exact Hname|exact Ha|exact Hm|exact Hgood|exact Hks|exact Hkt|exact Hag|].
  cbv zeta. intros algo sig a t' _ Hsig Hlen Hmsg Ha'. destruct (Hsig Hown) as (Halgo&body&->&Hacc).
  eexists. split; [exact Ha'|]. split; [done|]. split; [apply signed|].
  intros env svr pw sent Henv Hin Huser Hkey Hbecome.
  pose proof (key_good_writable key Hgood Hown) as Hw. pose proof (proj1 Hgood) as Hk.
  assert (Hne : signature_type_from_name algo ≠ DROPBEAR_SIGNATURE_NONE).
  { rewrite Halgo. destruct Hks as [->|Hr]; [done|]. unfold DROPBEAR_SIGNATURE_NONE, DROPBEAR_SIGNKEY_NUM_NAMED in *. lia. }
  assert (Hrun : wp (recv_msg_userauth_request env) no_exit
    (λ _ svr', login_result (ready := ready) env pw sent (authtypes (authstate svr)) (uid svr) svr') svr).
  { rewrite <-Hkt in *. eapply (request_accepted env (opt_username opts) algo (ck_key key) sigtype keyname (contents sid) _ pw sent);
      [exact Hks|exact Halgo|exact Hne|exact Hw|exact Hk|exact Hlen|apply Hname|exact Hkn|by apply Hacc, prime_regular|exact Hmsg|exact Hin|exact Huser|exact Hkey|exact Hbecome|done]. }
  apply wp_no_exit_run in Hrun as ([]&svr'&Hrun&Hend). by exists svr'.
Qed.
End login.

(** A server that lists the key of the toy client and asks for one method or
    for two. *)
Definition toy_decode (text : list Z) (n : Z) : option (list Z) := toy_base64 (map (λ c, c - 2) text) n.
Definition toy_home_file : list Z :=
  bstr "restrict ssh-ed25519 " ++ map (Z.add 3) (pub_blob toy_ed_key DROPBEAR_SIGNKEY_ED25519) ++ bstr " me@host" ++ [10].
Definition toy_home (two : bool) : auth_env := {|
  noauthpass := negb two; norootpass := true; norootlogin := true; allowblankpass := false; multiauthmethod := two;
  maxauthtries := 10; restrict_group := None; authorized_keys_dir := bstr "~/.ssh";
  getpwnam := getpwnam toy_auth_env; getspnam := getspnam toy_auth_env; getusershell := getusershell toy_auth_env;
  getgrouplist := getgrouplist toy_auth_env; crypt := λ _ _, None;
  geteuid := 0; seteuid_ok := true; revert_euid_ok := true; setgroups_ok := true; setuid_ok := true;
  utmp_gid := None; setresgid_ok := true; close_fails := false;
  stat := stat toy_auth_env; read_file := λ _, Some toy_home_file;
  errno_einval := false; char_signed := true; SvrAuth.base64_decode := toy_decode
|}.

#[export] Instance toy_home_ok two : AuthEnvOk (toy_home two).
Proof.
  constructor.
  - intros text n out. apply toy_base64_ok.
  - intros path file [= <-]. decide_closed.
  - intros path file [= <-] _. decide_closed.
  - by vm_compute.
  - by destruct two.
Qed.
Abbreviation toy_start := (put_ast (toy_got (buf_of [], 0) false) toy_cliauth).
Definition toy_receiver (two : bool) (p : list Z) : @svrses toy_lib :=
  set_authstate (set_authtypes (types true two) (authstate toy_svr)) (set_stp (toy_got (set_pos 1 (buf_of p), 0) false) toy_svr).

(** The one line of the file allows the key. *)
Lemma toy_allowed two : key_allowed (toy_home two) toy_user (bstr "ssh-ed25519") (pub_blob toy_ed_key DROPBEAR_SIGNKEY_ED25519).
Proof.
  do 2 (split; [done|]). split; [by vm_compute|]. exists toy_home_file. split; [done|].
  assert (Hlines : ∀ line, readable line → line_of MAX_AUTHKEYS_LINE line toy_home_file ↔ line = take (length toy_home_file - 1) toy_home_file).
  { intros line Hr. rewrite <-elem_of_file_lines by (done || by apply readable_full).
    assert (Hf : file_lines MAX_AUTHKEYS_LINE [] toy_home_file = [take (length toy_home_file - 1) toy_home_file]) by (by vm_compute).
    by rewrite Hf, list_elem_of_singleton. }
  split.
  { intros line Hin Hr. apply (Hlines line Hr) in Hin as ->. by vm_compute. }
  assert (Hr : readable (take (length toy_home_file - 1) toy_home_file)).
  { split; [by apply Z.leb_le|decide_closed]. }
  set (o := default no_options (options_of false (bstr "restrict"))).
  exists (set_info_env None o). eexists. split; [by apply (Hlines _ Hr)|]. split; [exact Hr|]. split; [by vm_compute|].
  exists (bstr "restrict "), (map (Z.add 3) (pub_blob toy_ed_key DROPBEAR_SIGNKEY_ED25519)), (bstr " me@host"), o, None.
  split; [by vm_compute|]. split; [|split; [|split; [|split; [by right|by split]]]].
  - right. exists [], (bstr "restrict"), 32. split; [done|]. split; [by split_and!|by vm_compute].
  - right. decide_closed.
  - split; [by vm_compute|]. split; [by vm_compute|]. eexists. by vm_compute.
Qed.

Lemma toy_able : able (ready := toy_ready) toy_sid [] (Some (buf_of [])) (toy_got (buf_of [], 0) false).
Proof. split; [by apply toy_clear_ready|]. split; [done|]. split; [apply wf_buf_of; [decide_closed|by apply Z.leb_le]|done]. Qed.

Lemma toy_sid_wf : wf_buf toy_sid.
Proof. apply wf_buf_of; [decide_closed|by apply Z.leb_le]. Qed.
Lemma toy_name_ok : name_ok toy_cliopts.
Proof. split; [decide_closed|done]. Qed.
Lemma toy_agent_ok : agent_ok (agent toy_cliauth).
Proof. constructor. Qed.
Lemma toy_known : known_sig DROPBEAR_SIGNKEY_ED25519.
Proof. by right. Qed.

Lemma toy_request_in two p : request_in (ready := toy_ready) (toy_home two) (contents toy_sid) p [] (toy_receiver two p).
Proof.
  split; [done|]. do 2 (split; [done|]). split; [exists toy_sid; split_and!; [done|apply toy_sid_wf|done]|].
  do 2 (split; [done|]). split; [by apply toy_clear_ready|]. split; [done|]. split; [|by vm_compute].
  by exists two.
Qed.
Lemma toy_user_may two p : user_may (toy_home two) (opt_username toy_cliopts) toy_user (toy_receiver two p).
Proof. split; [done|]. do 2 (split; [done|]). split; [by vm_compute|]. split; [done|by left]. Qed.
Lemma toy_may_become two p : may_become (toy_home two) toy_user (toy_receiver two p).
Proof. by split_and!. Qed.

(** The first server lets the client in, the second one still wants the
    password. *)
Lemma pubkey_login_witness :
  match send_msg_userauth_pubkey (ML := int_mp) (EL := toy_ecc) (DL := toy_ed25519) toy_cliopts 10 toy_clikey DROPBEAR_SIGNKEY_ED25519 true toy_start with
  | Ok (_, s') => ∃ p svr1 svr2, toy_ready ([] ++ [p]) (ast s') ∧
      recv_msg_userauth_request (ML := int_mp) (EL := toy_ecc) (DL := toy_ed25519) (toy_home false) (toy_receiver false p) = Ok (tt, svr1) ∧
      authdone (stp svr1) = true ∧ uid svr1 = 1000 ∧
      recv_msg_userauth_request (ML := int_mp) (EL := toy_ecc) (DL := toy_ed25519) (toy_home true) (toy_receiver true p) = Ok (tt, svr2) ∧
      authdone (stp svr2) = false ∧ uid svr2 = 0 ∧ toy_ready [partial_success] (stp svr2)
  | _ => False
  end.
Proof.
  assert (Hrun : match send_msg_userauth_pubkey (ML := int_mp) (EL := toy_ecc) (DL := toy_ed25519) toy_cliopts 10 toy_clikey DROPBEAR_SIGNKEY_ED25519 true toy_start with
    | Ok _ => true | _ => false end = true) by (by vm_compute).
  pose proof (pubkey_login (T := toy_transport) (MLaw := int_mp_laws) (ELaw := toy_ecc_laws) (DLaw := toy_ed25519_laws)
    toy_cliopts 10 toy_sid [] (Some (buf_of [])) toy_clikey DROPBEAR_SIGNKEY_ED25519 (bstr "ssh-ed25519") (toy_got (buf_of [], 0) false) toy_cliauth
    toy_sid_wf toy_name_ok toy_able eq_refl toy_agent_ok toy_clikey_good eq_refl toy_known eq_refl ltac:(done) eq_refl) as H.
  apply wpf_match in H.
  destruct (send_msg_userauth_pubkey _ _ _ _ _ toy_start) as [[[] s']|?|?]; [|discriminate Hrun..]. destruct H as (p&(Hr&_)&_&_&Hsvr).
  assert (Hboth : ∀ two, ∃ svr', recv_msg_userauth_request (ML := int_mp) (EL := toy_ecc) (DL := toy_ed25519) (toy_home two) (toy_receiver two p) = Ok (tt, svr') ∧
    if two then authdone (stp svr') = false ∧ uid svr' = 0 ∧ toy_ready [partial_success] (stp svr')
    else authdone (stp svr') = true ∧ uid svr' = 1000).
  { intros two. destruct (Hsvr (toy_home two) (toy_receiver two p) toy_user []) as (svr'&H1&H2);
      [apply toy_home_ok|apply toy_request_in|apply toy_user_may|apply toy_allowed|apply toy_may_become|].
    exists svr'. split; [exact H1|]. destruct two; [|exact H2]. destruct H2 as (?&?&_&?). split; [done|split; done]. }
  destruct (Hboth false) as (svr1&H1&H2&H3), (Hboth true) as (svr2&H4&H5&H6&H7). exists p, svr1, svr2.
  split; [exact Hr|]. split; [exact H1|]. split; [exact H2|]. split; [exact H3|]. split; [exact H4|]. split; [exact H5|]. split; [exact H6|exact H7].
Defined.
