(* ===== verification/CliAuthMessages.v ===== *)
(** * What the client makes of the server's messages

    The banner as it is shown, and the state after a failed attempt. *)

From Stdlib Require Import ZArith Lia.
From stdpp Require Import base list strings.
From S2P Require Import Prelude.
From S2P Require Import Buffer.
From S2P Require Import Random.
From S2P Require Import Algo.
From S2P Require Import Cipher.
From S2P Require Import KeyTypes.
From S2P Require Import Ecc.
From S2P Require Import SignKey.
From S2P Require Import KeyInstances.
From S2P Require Import SignKeyRead.
From S2P Require Import SignVerify.
From S2P Require Import SignAgree.
From S2P Require Import Session.
From S2P Require Import Packet.
From S2P Require Import Transport.
From S2P Require Import Instances.
From S2P Require Import Kex.
From S2P Require Import KexMethods.
From S2P Require Import KexShare.
From S2P Require Import KnownHosts.
From S2P Require Import SvrAuth.
From S2P Require Import SvrKex.
From S2P Require Import CliKex.
From S2P Require Import KexPeer.
From S2P Require Import KexReply.
From S2P Require Import ProcessPacket.
From S2P Require Import CliAgent.
From S2P Require Import CliAuth.
From S2P Require Import CliAuthText.
From S2P Require Import SvrAuthSafe.
From S2P Require Import CliAuthSafe.
From S2P Require Import CliAuthHistory.
From S2P Require Import PubkeyLogin.

Section messages.
Context {CL : CryptoLib} {ready : list (list Z) → sshsession → Prop} {T : Transport ready}.
Context {ML : MpLib} {EL : EccLib} {DL : Ed25519Lib} (opts : auth_runopts) (sid : buffer).
Implicit Types (s : cliauth) (t : sshsession) (msgs : list (list Z)).

(** C32: the banner.  On any packet the handler is free of faults; if it
    returns, then what the user has been shown is exactly this: of a banner over
    the size limit, the announcement that it is too long; else the text without
    control characters, up to a NUL and to its 20th line, a newline, and the
    announcement when [cut_off].  Without the announcement the text is there in
    full.  For a banner with nothing to clean, [cut_off] means 20 newlines or
    more.  Nothing else of the session changes but the position in the
    packet. *)
Theorem banner_shown msgs b t s :
  able (ready := ready) sid msgs (Some b) t → opt_quiet opts = false →
  wpf (recv_msg_userauth_banner opts) any_exit (λ w, w = "fuel"%string)
    (λ _ s', ∃ banner b1 b2, let text := first_lines 20 (clean banner) in
       let out := if zlen banner >? CliAuth.MAX_BANNER_SIZE then too_long
                  else text ++ [10] ++ (if cut_off banner then too_long else []) in
       buf_getstring b = Ok (banner, b1) ∧ s' = put_ast (pay t b2) (showing out s) ∧
       (cut_off banner = false → text = clean banner) ∧
       (clean banner = banner → cut_off banner = (20 <=? newlines banner))) (put_ast t s).
Proof.
  intros (_&Hp&Hwf&Hd&_) Hq. eapply runs_banner; [exact Hp|exact Hwf|by rewrite Hd, Hq|].
  intros banner b1 b2 out _ Hrun Hout _. exists banner, b1, b2. cbv zeta. split; [done|]. split.
  - revert Hout. unfold banner_text. by destruct (zlen banner >? CliAuth.MAX_BANNER_SIZE); intros ->.
  - split; [exact (uncut_full banner)|exact (cut_off_plain banner)].
Qed.

(** C31: a failed attempt.  On any packet SSH_MSG_USERAUTH_FAILURE is free of
    faults; if it returns, a request was under way, and then the methods left
    are those of the list that the client knows, the passwords only if someone
    can give them; the failure counts unless it was a partial success; the key
    just tried is off the list; a method without any question asked counts as
    failed for good; and the client is ready for the next attempt, with the
    rest of its state as it was. *)
Theorem failure_moves_on msgs b t s :
  able (ready := ready) sid msgs (Some b) t → ignore_next_auth_response s = false →
  wpf (recv_msg_userauth_failure opts) any_exit (λ w, w = "fuel"%string)
    (λ _ s', cstate s = USERAUTH_REQ_SENT ∧ ∃ methods partial b' s1,
       (let* m := buf_getstring in let* p := buf_getbool in ret (m, p)) b = Ok ((methods, partial), b') ∧
       failed_once opts methods partial s s1 ∧ s' = put_ast (pay t b') s1) (put_ast t s).
Proof.
  intros Ha Hi. eapply runs_failure; [exact Ha|exact Hi|]. intros methods partial b' s1 Hc _ _ Hrun Hf.
  split; [done|]. by exists methods, partial, b', s1.
Qed.
End messages.

(** A banner of fifteen lines that end in CR LF is shown in full and still
    reported as cut: [cleantext] leaves what it skipped behind the end of the
    text, and the lines are then counted over the old length. *)
Definition crlf_banner : list Z := concat (replicate 15 [97; 13; 10]).
Lemma crlf_banner_too_long :
  ∃ mem, (let* mem := cleantext (crlf_banner ++ [0]) in limit_lines (length crlf_banner) 0 1 mem) tt = Ok (mem, true, tt) ∧
    before_nul mem = clean crlf_banner.
Proof. eexists. split; [by vm_compute|]. by vm_compute. Qed.

(** An agent that takes the request for its keys and then closes the connection
    ends the client: [agent_request] returns the buffer of the length it could
    not read, not a null pointer, and the type of the answer is read from it. *)
Lemma silent_agent_exits fd sent : 0 ≤ fd →
  cli_load_agent_keys (CL := toy_lib) fd (mkagent (-1) [] [WDone 5] sent) =
    Exit "Bad buf_getbyte".
Proof. intros Hfd. unfold cli_load_agent_keys, bind. cbn [modify]. by replace (fd <? 0) with false by lia. Qed.

(** A session of the client that has sent a request, with a packet. *)
Definition toy_waiting (packet : list Z) : sshsession := toy_got (buf_of packet, 0) false.
Definition toy_tried : @cliauth toy_lib :=
  set_cstate USERAUTH_REQ_SENT (set_lastauthtype AUTH_TYPE_PUBKEY (set_lastprivkey (Some 0) toy_cliauth)).

Lemma toy_waiting_able packet : bool_decide (bytes_ok packet) && (zlen packet <=? 1000) = true →
  able (ready := toy_ready) toy_sid [] (Some (buf_of packet)) (toy_waiting packet).
Proof.
  intros [Hb%bool_decide_eq_true Hl%Z.leb_le]%andb_prop. split; [by apply toy_clear_ready|]. split; [done|]. split; [|done].
  apply wf_buf_of; [done|]. unfold BUF_MAX_SIZE. lia.
Qed.

Definition toy_banner : list Z := wire_string (bstr "Hello" ++ [7; 13; 10] ++ bstr "there") ++ wire_string [].

Lemma banner_shown_witness :
  match recv_msg_userauth_banner toy_cliopts (put_ast (toy_waiting toy_banner) toy_cliauth) with
  | Ok (_, s') => shown (user s') = bstr "Hello" ++ [10] ++ bstr "there" ++ [10] ∧
      ∃ banner b1 b2, let text := first_lines 20 (clean banner) in
        let out := if zlen banner >? CliAuth.MAX_BANNER_SIZE then too_long
                   else text ++ [10] ++ (if cut_off banner then too_long else []) in
        buf_getstring (buf_of toy_banner) = Ok (banner, b1) ∧ s' = put_ast (pay (toy_waiting toy_banner) b2) (showing out toy_cliauth) ∧
        (cut_off banner = false → text = clean banner) ∧ (clean banner = banner → cut_off banner = (20 <=? newlines banner))
  | _ => False
  end.
Proof.
  assert (Hrun : match recv_msg_userauth_banner toy_cliopts (put_ast (toy_waiting toy_banner) toy_cliauth) with
    | Ok (_, s') => bytes_eqb (shown (user s')) (bstr "Hello" ++ [10] ++ bstr "there" ++ [10]) | _ => false end = true) by (by vm_compute).
  pose proof (banner_shown (ready := toy_ready) toy_cliopts toy_sid [] (buf_of toy_banner) (toy_waiting toy_banner) toy_cliauth
    (toy_waiting_able toy_banner eq_refl) eq_refl) as H.
  apply wpf_match in H.
  destruct (recv_msg_userauth_banner _ _) as [[[] s']|?|?]; [|discriminate Hrun..]. split; [by apply bool_decide_eq_true in Hrun|exact H].
Defined.

Lemma failure_moves_on_witness :
  match recv_msg_userauth_failure toy_cliopts (put_ast (toy_waiting toy_offer) toy_tried) with
  | Ok (_, s') => privkeys s' = [] ∧ cstate toy_tried = USERAUTH_REQ_SENT ∧ ∃ methods partial b' s1,
      (let* m := buf_getstring in let* p := buf_getbool in ret (m, p)) (buf_of toy_offer) = Ok ((methods, partial), b') ∧
      failed_once toy_cliopts methods partial toy_tried s1 ∧ s' = put_ast (pay (toy_waiting toy_offer) b') s1
  | _ => False
  end.
Proof.
  assert (Hrun : match recv_msg_userauth_failure toy_cliopts (put_ast (toy_waiting toy_offer) toy_tried) with
    | Ok (_, s') => match privkeys s' with [] => true | _ => false end | _ => false end = true) by (by vm_compute).
  pose proof (failure_moves_on (T := toy_transport) (ready := toy_ready) toy_cliopts toy_sid [] (buf_of toy_offer) (toy_waiting toy_offer) toy_tried
    (toy_waiting_able toy_offer eq_refl) eq_refl) as H.
  apply wpf_match in H.
  destruct (recv_msg_userauth_failure _ _) as [[[] s']|?|?]; [|discriminate Hrun..]. split; [by destruct (privkeys s')|exact H].
Defined.
